(* ===== verification/_CoqProject ===== *)
-Q . S2P
Prelude.v
Mem.v
Riscv.v
Kalloc.v
Vm.v
PageTable.v
VmSpec.v
AddrSpace.v
UvmSpec.v
Paging.v
SwapSpec.v
PagingInv.v
SwapOut.v
PagingSpec.v
Demo.v
MemoryTheorems.v
PagingTheorems.v
UserCopy.v
CopyTheorems.v
Block.v
Bio.v
BioSpec.v
BioCache.v
Log.v
LogSpec.v
LogCrash.v
LogInv.v
StorageTheorems.v
UserMem.v
Fs.v
FsSpec.v
FsFile.v
FsRw.v
FsWrite.v
FsDir.v
FsTheorems.v
FsFileTheorems.v
FsDirTheorems.v
FsPath.v
FsDelete.v
Spinlock.v
Sleeplock.v
Pipe.v
Console.v
SyncTheorems.v
Proc.v
ProcSpec.v
ProcRefine.v
ProcLife.v
Syscall.v
Exec.v
Trap.v
ExecSpec.v
ExecTheorems.v
ProcTheorems.v
TrapTheorems.v
File.v
Sysfile.v
FileTheorems.v
Grep.v
Virtio.v
VirtioSpec.v
VirtioInit.v
VirtioTheorems.v
Uart.v
Printf.v
PrintfTheorems.v
Umalloc.v
UmallocSpec.v
UmallocTheorems.v
Sh.v
ShLex.v
ShSpec.v
ShRound.v
ShRun.v
ShTheorems.v
Plic.v
Uprog.v
Boot.v
UprogTheorems.v
