(* ===== verification/Prelude.v ===== *)
(** * xv6-riscv with demand paging: a verification development

    The program (src/xv6-riscv) is the xv6 teaching kernel for RISC-V,
    extended by demand paging: exec maps nothing, page faults load text and
    data from the executable, allocate heap pages, and swap dirty pages to a
    per-process swap file under memory pressure, FIFO by sequence number.
    This library translates the C code of the kernel, of the user library and
    of the user programs into Rocq functions and proves properties of them.

    ** How the code is modelled

    A C function is a function in a state and error monad ([M] below): it
    returns a value and a new state, stops with the message the kernel gives
    to panic, or (for a loop modelled with fuel) runs out of fuel.  The state
    is that of the component: physical memory as bytes, the free list, a
    struct proc, the buffer cache with the disk, and so on; a caller runs a
    component's operation on its part of a larger state with [zoom].  Integers
    are [Z] with the C type's wrap-around written out ([w32], [w64], [s32],
    ...).  [wp] is total correctness (the code returns, does not panic and has
    enough fuel); where the code calls an interface that may panic, [wp] takes
    the messages it may panic with ([Panics]; none by default), and the code
    then returns or panics with one of them.  [wlp] is partial
    correctness, used for what an operation leaves alone, for the return from
    usertrap (C4), the transitions of C34 and the reference counts of C40.

    Critical sections under a spin lock are one step, except in Spinlock and
    Sleeplock, which treat the locks and the sleep/wakeup protocol themselves
    with interleavings, and in Virtio and Uart, where processes, interrupt
    handler and device take turns in every order; likewise Plic, Boot and the
    scheduler (ProcTheorems) for the harts.  Calls that sleep in a pipe,
    the console or kwait return a value that says so, and are resumed by
    another call.  kfork is one operation, although it releases the child's
    lock for a moment before it sets the parent; sched is reached with the
    conditions on locks and interrupts that its callers establish.

    Code outside of src/ and the parts of the kernel a component only calls
    are interfaces: [KernelLayout], [ProcLayout], [ExecLayout] and
    [TrapLayout] (addresses the linker or the compiler chooses), [Devices]
    (the interrupt controller and the device handlers), [FsOps] with [FsLaws]
    and [ProcFs] (the file layer as the paging and process code uses it; a
    call returns as [FsLaws] says or panics with an allowed message),
    [UserMem] with [UserLaws] (user memory as readi, writei, pipes and the
    console use it), [PageAlloc].  Each has a concrete instance (Demo,
    UserMem, the theorem files) on which the witnesses run the code.

    ** The files

    - Prelude: integers, the monad, [wp]/[wlp] and their tactics, loops.
    - Mem: byte memory and string.c.  Riscv: page-table entries, addresses
      (riscv.h, memlayout.h).  Kalloc: kalloc.c.
    - Vm (operations), PageTable (the tree in memory and the abstract page
      table it implements), VmSpec, AddrSpace, UvmSpec: the page-table part of
      vm.c.
    - Paging (operations and records), SwapSpec (swap slots, victims),
      PagingInv (invariant), SwapOut, PagingSpec: the demand-paging part of
      vm.c with paging.h.  UserCopy: copyin, copyout, copyinstr.
    - Block, Bio, BioSpec, BioCache: bio.c and the abstract cache it
      implements.  Log, LogSpec, LogCrash, LogInv: log.c, crashes, recovery.
    - UserMem: the interface to user memory.  Fs: fs.c.  FsSpec: the view a
      transaction has of the blocks ([tx]), block allocation.  FsFile: inodes
      on the disk, the blocks of a file and its content ([fcontent]).  FsRw:
      bmap and readi.  FsWrite: writei and iupdate.  FsDir: directory entries,
      iget, dirlookup.  FsPath: the inode table and namex.  FsDelete: itrunc
      and iput.
    - Spinlock, Sleeplock, Pipe, Console: spinlock.c, sleeplock.c with sleep
      and wakeup, pipe.c, console.c.
    - Proc: proc.c.  ProcSpec: the abstract process table, its transitions and
      invariant.  ProcRefine, ProcLife: proc.c implements it.  Syscall:
      syscall.c and sysproc.c.
    - Exec: exec.c, elf.h and sys_exec of sysfile.c.  ExecSpec: the stack of a
      new program.  Trap: trap.c and forkret of proc.c.
    - File: file.c and pipealloc.  Sysfile: sysfile.c.
    - Virtio (driver), VirtioSpec (the device and the invariant), VirtioInit:
      virtio_disk.c.  Uart: uart.c with its theorem.
    - Printf: printf.c of the kernel and of the user library, ulib.c.
    - Umalloc, UmallocSpec: umalloc.c and the block structure of its heap.
    - Sh (parser), ShLex (tokens), ShSpec (grammar, the parser ends), ShRound
      (printing and parsing), ShRun (runcmd and main): sh.c.
    - Grep: grep.c with its theorem.
    - Plic: plic.c with its theorem.  Uprog, UprogTheorems: the small user
      programs (cat, wc, echo, ls, kill, ln, mkdir, rm, zombie, init, main of
      grep) as trees of system calls.  Boot: start.c, main.c, procdump.
    - Demo: a concrete machine.  The theorems are in MemoryTheorems,
      PagingTheorems, CopyTheorems, StorageTheorems, FsTheorems,
      FsFileTheorems, FsDirTheorems, FsPath, FsDelete, SyncTheorems, ExecTheorems,
      TrapTheorems, ProcTheorems, FileTheorems, Grep, VirtioTheorems, Uart,
      PrintfTheorems, UmallocTheorems, ShTheorems, Plic and UprogTheorems,
      numbered C1 to C40.

    ** What the theorems show

    - Memory (C1, C3, C5, C7): kalloc and kfree conserve the pages of physical
      memory; mappages, uvmalloc, uvmdealloc and uvmcopy do on the abstract
      page table what they should, and fail cleanly; uvmcopy loses no page.
    - Traps (C4, C26): the kernel returns to user space only in user mode, on
      the process's own page table and ready for the next trap, and not for a
      process found killed; timer interrupts preempt and wake those who wait
      for the tick.
    - exec (C15): the arguments reach the new program's stack, or exec fails
      because they do not fit.
    - Paging (C8, C10, C13, C14): the fault handler keeps the paging
      invariant and every other page's content, and panics only if the file
      system does; heap, text, data and swapped pages come back with the right
      bytes and permissions, or the fault fails for lack of memory, a short
      read or a missing slot; eviction takes the oldest page; swapping out and
      in gives the page back.
    - Storage (C19, C21-C24): the LRU cache refines a map from blocks to
      contents; transactions are atomic under a crash at any disk write,
      recovery may be interrupted any number of times; the log never overflows, but a full log panics
      in commit (a defect).
    - File system (C11, C18, C25, C27, C37): a file is a sequence of bytes and
      a directory a map from names to inodes; a path leads where the
      directories on the disk say; deletion gives back exactly the
      blocks of the file; a write to a file is atomic under crashes.  These
      include that nothing panics, how many blocks enter the log, and that
      files with other blocks keep their contents.
    - Locks, pipes, console (C29-C32): mutual exclusion, no lost wakeups, a
      pipe is a FIFO queue, the console edits lines as a line discipline says
      and delivers their bytes unchanged.
    - Devices (C2, C16, C39): only interrupts of the uart and the disk are
      served, each by one hart at a time, and none is lost; the uart sends every byte once and in order, the
      disk driver transfers the blocks it is asked to, whatever the order in
      which processes, handler and device take turns; no wakeup is lost.
    - Copying (C33): copyout and copyin are inverse and end.
    - Processes (C34-C36): the process table refines an abstract state machine
      with labelled transitions and a well-formed process tree; with all harts
      scheduling at once no process runs on two, and none that is RUNNABLE is
      passed over.
    - Files (C40): reference counts are exact on all paths.
    - Shell (C6, C17, C28): the parser ends on every line and reads back what
      is printed; runcmd starts the programs of a command with the right
      descriptors, and waits with both ends of a pipe closed.
    - User library (C12, C20): malloc and free never hand out overlapping
      blocks and lose none; both printfs print what the format denotes, and
      where they differ.
    - User programs (C9, C38): what the utilities write follows from what they
      read, however the kernel answers; grep prints exactly the lines in the
      language of its pattern.

    - Boot: [start_enters_main], and [boot_order]: no hart gets past main before
      hart 0 has initialised the kernel, and each is then set up.

    Further theorems without a number show parts that the numbered ones build
    on, and defects: [data_segment_write_lost] (writes to data pages are lost
    on eviction), [heap_exec_fault_panics] (an instruction fetch from a
    resident heap page panics the kernel), [fork_page_records] (fork loses
    the parent's swapped pages), [kill_zero_dooms_child],
    [failed_exec_loses_segments] and [malloc_huge_unbacked].

    ** Fuel

    Loops that are not structural have fuel computed from the size they run
    over: pages of a range (mappages, uvmunmap, uvmalloc, uvmcopy: the number
    of pages; copyin and copyout: len / PGSIZE + 2, shown to be enough in
    C33), blocks of a transfer (n / BSIZE + 2, enough by C25), directory
    entries (C11), bytes of a pipe transfer (shown to be enough in
    [pipewrite_wp] and [piperead_loop_wp]), path elements, 128 bytes of the
    console ring, 4 * length + 4 calls of the parser (C6), twice the number of
    headers + 4 for malloc (C12).  The [wp] theorems include that the fuel is
    enough.

    ** Bounds of the theorems

    The file system theorems count the blocks a transaction logs under the
    assumption that one block holds the whole bitmap, as it does for the
    disks mkfs makes (2000 blocks, a bitmap block has 8192 bits).  Disk writes
    are atomic per block.

    ** Not modelled

    The assembly files (entry.S, swtch.S, trampoline.S, kernelvec.S), the
    linker scripts and the generated stubs are not C; the test programs
    (usertests, grind, forktest, stressfs, logstress, memtest, dorphan,
    forphan) are not part of the system.  The dispatch table of syscall.c has
    the file system calls as a parameter: they are modelled in Sysfile on the
    state of the file layer.  The lock around printf, the endless loop of
    panic, and failing calls of malloc in the shell's constructors are left
    out, and so are the writes of the disk driver that tell the device to look
    at the ring or that its interrupt was seen: the device may act at any
    time.  There is no TLB: sfence_vma does nothing.
    Page faults inside copies made by readi, writei, pipes and the console are
    hidden behind [UserMem]: that such a fault may itself use the file system,
    or sleep while a spin lock is held, is outside of those components'
    models. *)
From stdpp Require Import base tactics numbers list strings gmap.
From Stdlib Require Import ZArith Lia.

Open Scope Z_scope.
Set Default Proof Using "Type".

(** ** Machine integers

    C's unsigned types are kept as [Z] values in range; every addition,
    subtraction and shift that can leave the range is wrapped explicitly. *)

Definition w8 (x : Z) : Z := x mod 2 ^ 8.
Definition w16 (x : Z) : Z := x mod 2 ^ 16.
Definition w32 (x : Z) : Z := x mod 2 ^ 32.
Definition w64 (x : Z) : Z := x mod 2 ^ 64.

(** Conversion of a bit pattern to the signed C types [short] and [int]. *)
Definition s16 (x : Z) : Z := (x + 2 ^ 15) mod 2 ^ 16 - 2 ^ 15.
Definition s32 (x : Z) : Z := (x + 2 ^ 31) mod 2 ^ 32 - 2 ^ 31.

Lemma w8_range x : 0 <= w8 x < 256.
Proof. apply Z.mod_pos_bound; lia. Qed.
Lemma w32_range x : 0 <= w32 x < 2 ^ 32.
Proof. apply Z.mod_pos_bound; lia. Qed.
Lemma w64_range x : 0 <= w64 x < 2 ^ 64.
Proof. apply Z.mod_pos_bound; lia. Qed.
Lemma w8_id x : 0 <= x < 256 -> w8 x = x.
Proof. intros; apply Z.mod_small; lia. Qed.
Lemma w32_id x : 0 <= x < 2 ^ 32 -> w32 x = x.
Proof. intros; apply Z.mod_small; lia. Qed.
Lemma w64_id x : 0 <= x < 2 ^ 64 -> w64 x = x.
Proof. intros; apply Z.mod_small; lia. Qed.
Lemma s32_id x : - 2 ^ 31 <= x < 2 ^ 31 -> s32 x = x.
Proof. intros; unfold s32; rewrite Z.mod_small; lia. Qed.
Lemma w8_idem x : w8 (w8 x) = w8 x.
Proof. apply w8_id, w8_range. Qed.

(** ** Bit facts shared by the PTE, bitmap and address code *)

(** Clearing the low [n] bits rounds down to a multiple of [2^n]. *)
Lemma land_lnot_ones a n : 0 <= n -> Z.land a (Z.lnot (Z.ones n)) = a / 2 ^ n * 2 ^ n.
Proof.
  intros Hn. rewrite <- Z.ldiff_land, Z.ldiff_ones_r by lia.
  by rewrite Z.shiftr_div_pow2, Z.shiftl_mul_pow2 by lia.
Qed.

Lemma testbit_high f n i : 0 <= f < 2 ^ n -> 0 <= n <= i -> Z.testbit f i = false.
Proof.
  intros Hf Hn. rewrite <- (Z.mod_small f (2 ^ n)) by lia.
  apply Z.mod_pow2_bits_high; lia.
Qed.

(** A bitwise or of a multiple of [2^n] with a value below [2^n] is a sum. *)
Lemma lor_disjoint_add k f n :
  0 <= n -> 0 <= f < 2 ^ n -> Z.lor (k * 2 ^ n) f = k * 2 ^ n + f.
Proof.
  intros Hn Hf.
  assert (Z.land (k * 2 ^ n) f = 0) as E.
  { apply Z.bits_inj'; intros i Hi. rewrite Z.land_spec, Z.bits_0.
    destruct (Z.lt_ge_cases i n).
    - by rewrite Z.mul_pow2_bits_low.
    - by rewrite (testbit_high f n i), andb_false_r by lia. }
  rewrite Z.add_nocarry_lxor, Z.lxor_lor by done. done.
Qed.

(** A test against the single-bit mask [1 << n] is a test of bit [n]. *)
Lemma land_bit_zero x n : 0 <= n -> (Z.land x (Z.shiftl 1 n) =? 0) = negb (Z.testbit x n).
Proof.
  intros Hn. rewrite Z.shiftl_1_l. destruct (Z.testbit x n) eqn:E; simpl.
  - apply Z.eqb_neq. intros H.
    assert (Z.testbit (Z.land x (2 ^ n)) n = true) as C.
    { by rewrite Z.land_spec, E, Z.pow2_bits_true by lia. }
    by rewrite H, Z.bits_0 in C.
  - apply Z.eqb_eq, Z.bits_inj'. intros i Hi. rewrite Z.land_spec, Z.bits_0.
    destruct (decide (i = n)) as [->|Hne]; [by rewrite E|].
    by rewrite Z.pow2_bits_false, andb_false_r by lia.
Qed.

(** ** A state and error monad

    A kernel operation runs on a state and either returns a value with the
    new state, calls the kernel's [panic], or (for a loop that is modelled
    with fuel) runs out of fuel. *)

Inductive res (S A : Type) : Type :=
  | Ret (a : A) (s : S)
  | Panic (msg : string)
  | NoFuel.
Arguments Ret {S A}.
Arguments Panic {S A}.
Arguments NoFuel {S A}.

Definition M (S A : Type) : Type := S -> res S A.

#[export] Instance M_ret S : MRet (M S) := fun A a s => Ret a s.
#[export] Instance M_bind S : MBind (M S) := fun A B f c s =>
  match c s with
  | Ret a s' => f a s'
  | Panic msg => Panic msg
  | NoFuel => NoFuel
  end.

Definition panic {S A} (msg : string) : M S A := fun _ => Panic msg.
Definition nofuel {S A} : M S A := fun _ => NoFuel.
Definition gets {S A} (f : S -> A) : M S A := fun s => Ret (f s) s.
Definition modify {S} (f : S -> S) : M S unit := fun s => Ret tt (f s).
Definition skip {S} : M S unit := mret ().

(** Run an operation on a component [T] of a larger state [S]. *)
Definition zoom {S T A} (g : S -> T) (u : T -> S -> S) (c : M T A) : M S A := fun s =>
  match c (g s) with
  | Ret a t => Ret a (u t s)
  | Panic msg => Panic msg
  | NoFuel => NoFuel
  end.

Notation "'when' b 'do' c" := (if b then c else skip) (at level 100, right associativity).

(** ** Total-correctness weakest precondition

    [wp c Q s] says that [c] started in [s] returns (no panic, enough fuel)
    and the value and state it returns satisfy [Q].  Code that calls code which
    may panic is specified with a [Panics] in the context: then [c] returns
    such a value and state, or panics with one of these messages. *)

Class Panics := may_panic : string -> Prop.
Definition no_panic : Panics := fun _ => False.
#[export] Existing Instance no_panic | 100.

Definition wp {PE : Panics} {S A} (c : M S A) (Q : A -> S -> Prop) (s : S) : Prop :=
  match c s with Ret a s' => Q a s' | Panic msg => may_panic msg | NoFuel => False end.

(** Without such messages it returns. *)
Lemma wp_inv {S A} (c : M S A) Q s :
  wp c Q s -> exists a s', c s = Ret a s' /\ Q a s'.
Proof. unfold wp. destruct (c s); [eauto|intros []|intros []]. Qed.

Section wp.
Context {PE : Panics} {S : Type}.
Implicit Types s : S.

Lemma wp_ret {A} (a : A) Q s : Q a s -> wp (mret a : M S A) Q s.
Proof. done. Qed.

Lemma wp_bind {A B} (c : M S A) (f : A -> M S B) Q s :
  wp c (fun a => wp (f a) Q) s -> wp (c ≫= f) Q s.
Proof. unfold wp, mbind, M_bind. destruct (c s); done. Qed.

Lemma wp_mono {A} (c : M S A) (Q Q' : A -> S -> Prop) s :
  wp c Q s -> (forall a s', Q a s' -> Q' a s') -> wp c Q' s.
Proof. unfold wp. destruct (c s); eauto. Qed.

(** The rule used at every call: the callee's specification, then the rest. *)
Lemma wp_call {A B} (c : M S A) (f : A -> M S B) (P : A -> S -> Prop) Q s :
  wp c P s -> (forall a s', P a s' -> wp (f a) Q s') -> wp (c ≫= f) Q s.
Proof. intros H1 H2. eapply wp_bind, wp_mono; eauto. Qed.

Lemma wp_conj {A} (c : M S A) (Q Q' : A -> S -> Prop) s :
  wp c Q s -> wp c Q' s -> wp c (fun a s' => Q a s' /\ Q' a s') s.
Proof. unfold wp. destruct (c s); eauto. Qed.

(** Code that does not panic may be called anywhere. *)
Lemma wp_any_panics {A} (c : M S A) (Q : A -> S -> Prop) s : wp (PE := no_panic) c Q s -> wp c Q s.
Proof. unfold wp. by destruct (c s). Qed.

(** ... and the run it is about. *)
Lemma wp_run {A} (c : M S A) (Q : A -> S -> Prop) s : wp c Q s -> wp c (fun a s' => Q a s' /\ c s = Ret a s') s.
Proof. unfold wp. by destruct (c s). Qed.

Lemma wp_intro {A} (c : M S A) (Q : A -> S -> Prop) s a s' :
  c s = Ret a s' -> Q a s' -> wp c Q s.
Proof. unfold wp. by intros ->. Qed.

Lemma wp_gets {A} (f : S -> A) Q s : Q (f s) s -> wp (gets f) Q s.
Proof. done. Qed.

Lemma wp_modify (f : S -> S) Q s : Q () (f s) -> wp (modify f) Q s.
Proof. done. Qed.

Lemma wp_skip Q s : Q () s -> wp skip Q s.
Proof. done. Qed.

Lemma bind_ok {A B} (c : M S A) (f : A -> M S B) s a s' :
  c s = Ret a s' -> (c ≫= f) s = f a s'.
Proof. unfold mbind, M_bind. by intros ->. Qed.

Lemma bind_panic {A B} (c : M S A) (f : A -> M S B) s msg :
  c s = Panic msg -> (c ≫= f) s = Panic msg.
Proof. unfold mbind, M_bind. by intros ->. Qed.
End wp.

Lemma wp_zoom {PE : Panics} {S T A} (g : S -> T) u (c : M T A) (Q : A -> S -> Prop) s :
  wp c (fun a t => Q a (u t s)) (g s) -> wp (zoom g u c) Q s.
Proof. unfold wp, zoom. destruct (c (g s)); done. Qed.

(** Step through the state-independent glue of a monadic program. *)
Ltac wp_step :=
  lazymatch goal with
  | |- wp (mbind _ _) _ _ => apply wp_bind
  | |- wp (mret _) _ _ => apply wp_ret
  | |- wp (gets _) _ _ => apply wp_gets
  | |- wp (modify _) _ _ => apply wp_modify
  | |- wp skip _ _ => apply wp_skip
  end.
Ltac wp_steps := repeat (wp_step; cbv beta zeta).

(** *** Partial correctness

    [wlp c Q s]: if [c] returns, the result satisfies [Q].  Used for what an
    operation leaves alone whether or not the allocators and the file layer
    it calls can go on, never for a claim that it returns. *)
Definition wlp {S A} (c : M S A) (Q : A -> S -> Prop) (s : S) : Prop :=
  match c s with Ret a s' => Q a s' | _ => True end.

Lemma wlp_bind {S A B} (c : M S A) (f : A -> M S B) Q s :
  wlp c (fun a => wlp (f a) Q) s -> wlp (c ≫= f) Q s.
Proof. unfold wlp, mbind, M_bind. destruct (c s); done. Qed.
Lemma wlp_mono {S A} (c : M S A) (Q Q' : A -> S -> Prop) s :
  wlp c Q s -> (forall a s', Q a s' -> Q' a s') -> wlp c Q' s.
Proof. unfold wlp. destruct (c s); eauto. Qed.
Lemma wlp_call {S A B} (c : M S A) (f : A -> M S B) (P : A -> S -> Prop) Q s :
  wlp c P s -> (forall a s', P a s' -> wlp (f a) Q s') -> wlp (c ≫= f) Q s.
Proof. intros H1 H2. eapply wlp_bind, wlp_mono; eauto. Qed.
Lemma wlp_ret {S A} (a : A) Q (s : S) : Q a s -> wlp (mret a : M S A) Q s.
Proof. done. Qed.
Lemma wlp_gets {S A} (f : S -> A) Q s : Q (f s) s -> wlp (gets f) Q s.
Proof. done. Qed.
Lemma wlp_modify {S} (f : S -> S) Q s : Q () (f s) -> wlp (modify f) Q s.
Proof. done. Qed.
Lemma wlp_skip {S} Q (s : S) : Q () s -> wlp skip Q s.
Proof. done. Qed.
Lemma wlp_panic {S A} msg (Q : A -> S -> Prop) s : wlp (panic msg) Q s.
Proof. done. Qed.
Lemma wlp_nofuel {S A} (Q : A -> S -> Prop) s : wlp nofuel Q s.
Proof. done. Qed.
Lemma wlp_zoom {S T A} (g : S -> T) u (c : M T A) (Q : A -> S -> Prop) s :
  wlp c (fun a t => Q a (u t s)) (g s) -> wlp (zoom g u c) Q s.
Proof. unfold wlp, zoom. destruct (c (g s)); done. Qed.
Lemma wlp_any {S A} (c : M S A) (Q : A -> S -> Prop) s : (forall a s', Q a s') -> wlp c Q s.
Proof. unfold wlp. destruct (c s); eauto. Qed.
(** The state that a run returns with. *)
Definition final {S A} (c : M S A) (s : S) : S := match c s with Ret _ s' => s' | _ => s end.
Lemma final_wp {S A} (c : M S A) (Q : A -> S -> Prop) s : wp c Q s -> exists x, Q x (final c s).
Proof. unfold wp, final. destruct (c s); [eauto|done|done]. Qed.

Lemma wp_wlp {PE : Panics} {S A} (c : M S A) (Q : A -> S -> Prop) s : wp c Q s -> wlp c Q s.
Proof. unfold wp, wlp. destruct (c s); done. Qed.
Lemma wlp_ret_inv {S A} (c : M S A) (Q : A -> S -> Prop) s a s' : wlp c Q s -> c s = Ret a s' -> Q a s'.
Proof. unfold wlp. intros H E. by rewrite E in H. Qed.

Ltac wlp_step :=
  lazymatch goal with
  | |- wlp (mbind _ _) _ _ => apply wlp_bind
  | |- wlp (mret _) _ _ => apply wlp_ret
  | |- wlp (gets _) _ _ => apply wlp_gets
  | |- wlp (modify _) _ _ => apply wlp_modify
  | |- wlp skip _ _ => apply wlp_skip
  | |- wlp (panic _) _ _ => apply wlp_panic
  | |- wlp nofuel _ _ => apply wlp_nofuel
  end.
Ltac wlp_steps := repeat (wlp_step; cbv beta zeta).

(** Split a boolean test of the code into its two arithmetic cases. *)
Ltac case_bool :=
  match goal with
  | |- context [Z.eqb ?a ?b] => destruct (Z.eqb_spec a b)
  | |- context [Z.ltb ?a ?b] => destruct (Z.ltb_spec a b)
  | |- context [Z.leb ?a ?b] => destruct (Z.leb_spec a b)
  end; simpl.

(** ** Counting loops *)

(** [for (i = lo; i < lo + n; i++) body] with an early exit: the body
    returns [Some v] to leave the loop with [v]. *)
Fixpoint for_upto {S A} (n : nat) (i : Z) (body : Z -> M S (option A)) : M S (option A) :=
  match n with
  | O => mret None
  | Datatypes.S n' =>
      r ← body i;
      match r with
      | Some v => mret (Some v)
      | None => for_upto n' (i + 1) body
      end
  end.

(** [for (i = lo; i < lo + n; i++) body] without an early exit, and its
    invariant rule. *)
Fixpoint for_z {S} (n : nat) (i : Z) (body : Z -> M S unit) : M S unit :=
  match n with
  | O => skip
  | Datatypes.S n' => body i;; for_z n' (i + 1) body
  end.

Lemma wp_for_z {PE : Panics} {S} (P : Z -> S -> Prop) n lo (body : Z -> M S unit) s :
  P lo s ->
  (forall i s, lo <= i < lo + Z.of_nat n -> P i s -> wp (body i) (fun _ s' => P (i + 1) s') s) ->
  wp (for_z n lo body) (fun _ s' => P (lo + Z.of_nat n) s') s.
Proof.
  revert lo s. induction n as [|n IH]; intros lo s H0 Hstep; cbn [for_z].
  - apply wp_skip. by replace (lo + Z.of_nat 0) with lo by lia.
  - eapply wp_call; [apply Hstep; [lia|done]|]. intros u s' HP. eapply wp_mono.
    + apply (IH (lo + 1) s' HP). intros i s'' Hi. apply Hstep. lia.
    + intros v s''. by replace (lo + 1 + Z.of_nat n) with (lo + Z.of_nat (Datatypes.S n)) by lia.
Qed.

Lemma wlp_for_z {S} (P : Z -> S -> Prop) n lo (body : Z -> M S unit) s :
  P lo s ->
  (forall i s, lo <= i < lo + Z.of_nat n -> P i s -> wlp (body i) (fun _ s' => P (i + 1) s') s) ->
  wlp (for_z n lo body) (fun _ s' => P (lo + Z.of_nat n) s') s.
Proof.
  revert lo s. induction n as [|n IH]; intros lo s H0 Hstep; cbn [for_z].
  - apply wlp_skip. by replace (lo + Z.of_nat 0) with lo by lia.
  - eapply wlp_call; [apply Hstep; [lia|done]|]. intros u s' HP. eapply wlp_mono.
    + apply (IH (lo + 1) s' HP). intros i s'' Hi. apply Hstep. lia.
    + intros v s''. by replace (lo + 1 + Z.of_nat n) with (lo + Z.of_nat (Datatypes.S n)) by lia.
Qed.

(** ** List facts *)

Lemma lookup_insert_Z {A} (l : list A) i j x :
  0 <= i < Z.of_nat (length l) -> 0 <= j ->
  <[Z.to_nat i := x]> l !! Z.to_nat j = if decide (i = j) then Some x else l !! Z.to_nat j.
Proof.
  intros Hi Hj. case_decide as E.
  - subst. apply list_lookup_insert_eq. lia.
  - apply list_lookup_insert_ne. lia.
Qed.
