(* ===== verification/Mem.v ===== *)
(** * Physical memory and the string routines (kernel/string.c)

    Physical memory is a map from byte addresses to bytes.  [load64] and
    [store64] are the little-endian accesses the kernel makes through
    [uint64 *] pointers.  The loops of string.c are translated as loops over
    this memory; the lemmas give each routine its pointwise meaning, which is
    all that the allocator, page-table and paging files use. *)
From S2P Require Import Prelude.
From stdpp Require Import base tactics numbers list strings gmap.
From Stdlib Require Import ZArith Lia.

Open Scope Z_scope.

Create HintDb mem discriminated.

(** ** Bytes *)

Definition mget (m : gmap Z Z) (a : Z) : Z := w8 (default 0 (m !! a)).
Definition mset (m : gmap Z Z) (a v : Z) : gmap Z Z := <[a := w8 v]> m.

Lemma mget_range m a : 0 <= mget m a < 256.
Proof. apply w8_range. Qed.

Lemma mget_mset m a v x : mget (mset m a v) x = if decide (a = x) then w8 v else mget m x.
Proof.
  unfold mget, mset. rewrite lookup_insert. case_decide; simpl; [apply w8_idem|done].
Qed.

Lemma w8_mget m a : w8 (mget m a) = mget m a.
Proof. apply w8_idem. Qed.

(** ** Little-endian words *)

Fixpoint loadn (n : nat) (m : gmap Z Z) (a : Z) : Z :=
  match n with
  | O => 0
  | S n => mget m a + 256 * loadn n m (a + 1)
  end.

Fixpoint storen (n : nat) (m : gmap Z Z) (a v : Z) : gmap Z Z :=
  match n with
  | O => m
  | S n => storen n (mset m a v) (a + 1) (v / 256)
  end.

Definition load64 := loadn 8.
Definition store64 := storen 8.
Definition load32 := loadn 4.
Definition store32 := storen 4.

Lemma loadn_ext n m m' a :
  (forall x, a <= x < a + Z.of_nat n -> mget m x = mget m' x) -> loadn n m a = loadn n m' a.
Proof.
  revert a. induction n as [|n IH]; intros a H; simpl; [done|].
  rewrite (H a) by lia. rewrite (IH (a + 1)); [done|]. intros; apply H; lia.
Qed.

Lemma loadn_range n m a : 0 <= loadn n m a < 256 ^ Z.of_nat n.
Proof.
  revert a. induction n as [|n IH]; intros a; [simpl; lia|].
  cbn [loadn]. rewrite Nat2Z.inj_succ, Z.pow_succ_r by lia.
  pose proof (mget_range m a). specialize (IH (a + 1)). lia.
Qed.

Lemma mget_storen n m a v x :
  mget (storen n m a v) x =
  if decide (a <= x < a + Z.of_nat n) then w8 (v / 256 ^ (x - a)) else mget m x.
Proof.
  revert m a v. induction n as [|n IH]; intros m a v.
  { simpl. case_decide; [lia|done]. }
  cbn [storen]. rewrite IH, mget_mset.
  destruct (decide (a = x)) as [->|Hne].
  - rewrite decide_False, decide_True by lia.
    by rewrite Z.sub_diag, Z.pow_0_r, Z.div_1_r.
  - destruct (decide (a <= x < a + Z.of_nat (S n))).
    + rewrite decide_True by lia. f_equal.
      rewrite Z.div_div by lia. f_equal.
      replace (x - a) with (Z.succ (x - (a + 1))) by lia.
      by rewrite Z.pow_succ_r by lia.
    + by rewrite decide_False by lia.
Qed.

Lemma loadn_value n m a v :
  (forall i, 0 <= i < Z.of_nat n -> mget m (a + i) = w8 (v / 256 ^ i)) ->
  loadn n m a = v mod 256 ^ Z.of_nat n.
Proof.
  revert a v. induction n as [|n IH]; intros a v H.
  { by rewrite Z.mod_1_r. }
  cbn [loadn]. rewrite (IH (a + 1) (v / 256)).
  - pose proof (H 0 ltac:(lia)) as H0. rewrite Z.add_0_r, Z.pow_0_r, Z.div_1_r in H0.
    rewrite H0, Nat2Z.inj_succ, Z.pow_succ_r by lia.
    rewrite Z.rem_mul_r by lia. done.
  - intros i Hi. replace (a + 1 + i) with (a + Z.succ i) by lia.
    rewrite H by lia. f_equal. rewrite Z.pow_succ_r, Z.div_div by lia. done.
Qed.

Lemma loadn_storen n m a v : loadn n (storen n m a v) a = v mod 256 ^ Z.of_nat n.
Proof.
  apply loadn_value. intros i Hi. rewrite mget_storen, decide_True by lia.
  f_equal. f_equal. f_equal. lia.
Qed.

Lemma load64_store64_eq m a v : 0 <= v < 2 ^ 64 -> load64 (store64 m a v) a = v.
Proof. intros. unfold load64, store64. rewrite loadn_storen. apply Z.mod_small. lia. Qed.

Lemma load64_store64_ne m a v b :
  b + 8 <= a \/ a + 8 <= b -> load64 (store64 m a v) b = load64 m b.
Proof.
  intros H. apply loadn_ext. intros x Hx. unfold store64.
  rewrite mget_storen, decide_False by lia. done.
Qed.

Lemma mget_store64_ne m a v x : x < a \/ a + 8 <= x -> mget (store64 m a v) x = mget m x.
Proof. intros. unfold store64. rewrite mget_storen, decide_False by lia. done. Qed.

Lemma load64_ext m m' a :
  (forall x, a <= x < a + 8 -> mget m x = mget m' x) -> load64 m a = load64 m' a.
Proof. intros H. apply loadn_ext. intros; apply H; lia. Qed.

Lemma load64_zero m a : (forall x, a <= x < a + 8 -> mget m x = 0) -> load64 m a = 0.
Proof.
  intros H. unfold load64. rewrite (loadn_value 8 m a 0); [done|].
  intros j Hj. rewrite H by lia. by rewrite Z.div_0_l by lia.
Qed.

Lemma load64_range m a : 0 <= load64 m a < 2 ^ 64.
Proof. pose proof (loadn_range 8 m a). unfold load64. lia. Qed.
#[export] Hint Resolve load64_range mget_range : mem.

(** ** memset, memmove, memcmp *)

(** [for(i = 0; i < n; i++) cdst[i] = c;] *)
Fixpoint memset_loop (n : nat) (m : gmap Z Z) (cdst i c : Z) : gmap Z Z :=
  match n with
  | O => m
  | S n => memset_loop n (mset m (cdst + i) c) cdst (i + 1) c
  end.
Definition memset (m : gmap Z Z) (dst c n : Z) : gmap Z Z :=
  memset_loop (Z.to_nat n) m dst 0 c.

(** [while(n-- > 0) *--d = *--s;] *)
Fixpoint memmove_down (n : nat) (m : gmap Z Z) (d s : Z) : gmap Z Z :=
  match n with
  | O => m
  | S n => memmove_down n (mset m (d - 1) (mget m (s - 1))) (d - 1) (s - 1)
  end.
(** [while(n-- > 0) *d++ = *s++;] *)
Fixpoint memmove_up (n : nat) (m : gmap Z Z) (d s : Z) : gmap Z Z :=
  match n with
  | O => m
  | S n => memmove_up n (mset m d (mget m s)) (d + 1) (s + 1)
  end.
Definition memmove (m : gmap Z Z) (dst src n : Z) : gmap Z Z :=
  if n =? 0 then m
  else if (src <? dst) && (dst <? src + n)
  then memmove_down (Z.to_nat n) m (dst + n) (src + n)
  else memmove_up (Z.to_nat n) m dst src.

(** memcpy is memmove. *)
Definition memcpy (m : gmap Z Z) (dst src n : Z) : gmap Z Z := memmove m dst src n.

Fixpoint memcmp_loop (n : nat) (m : gmap Z Z) (s1 s2 : Z) : Z :=
  match n with
  | O => 0
  | S n =>
      if negb (mget m s1 =? mget m s2) then mget m s1 - mget m s2
      else memcmp_loop n m (s1 + 1) (s2 + 1)
  end.
Definition memcmp (m : gmap Z Z) (v1 v2 n : Z) : Z := memcmp_loop (Z.to_nat n) m v1 v2.

Lemma mget_memset_loop n m dst i c x :
  mget (memset_loop n m dst i c) x =
  if decide (dst + i <= x < dst + i + Z.of_nat n) then w8 c else mget m x.
Proof.
  revert m i. induction n as [|n IH]; intros m i.
  { simpl. case_decide; [lia|done]. }
  cbn [memset_loop]. rewrite IH, mget_mset.
  destruct (decide (dst + i = x)), (decide (dst + i <= x < dst + i + Z.of_nat (S n)));
    try lia; repeat case_decide; try lia; done.
Qed.

Lemma mget_memset m dst c n x :
  0 <= n -> mget (memset m dst c n) x = if decide (dst <= x < dst + n) then w8 c else mget m x.
Proof.
  intros Hn. unfold memset. rewrite mget_memset_loop.
  rewrite Z2Nat.id by lia. rewrite Z.add_0_r. done.
Qed.

Lemma mget_memmove_up n m d s x :
  d <= s \/ s + Z.of_nat n <= d ->
  mget (memmove_up n m d s) x =
  if decide (d <= x < d + Z.of_nat n) then mget m (s + (x - d)) else mget m x.
Proof.
  revert m d s. induction n as [|n IH]; intros m d s H.
  { simpl. case_decide; [lia|done]. }
  cbn [memmove_up]. rewrite IH by lia. rewrite !mget_mset, w8_mget.
  destruct (decide (d = x)) as [->|].
  - rewrite decide_False, decide_True by lia. f_equal; lia.
  - destruct (decide (d <= x < d + Z.of_nat (S n))).
    + rewrite decide_True by lia. rewrite decide_False by lia. f_equal; lia.
    + rewrite decide_False by lia. done.
Qed.

Lemma mget_memmove_down n m d s x :
  s < d ->
  mget (memmove_down n m d s) x =
  if decide (d - Z.of_nat n <= x < d) then mget m (s - (d - x)) else mget m x.
Proof.
  revert m d s. induction n as [|n IH]; intros m d s H.
  { simpl. case_decide; [lia|done]. }
  cbn [memmove_down]. rewrite IH by lia. rewrite !mget_mset, w8_mget.
  destruct (decide (d - 1 = x)) as [<-|].
  - rewrite decide_False, decide_True by lia. f_equal; lia.
  - destruct (decide (d - Z.of_nat (S n) <= x < d)).
    + rewrite decide_True by lia. rewrite decide_False by lia. f_equal; lia.
    + rewrite decide_False by lia. done.
Qed.

(** memmove copies the source as it was before the call, even when the two
    ranges overlap in either direction. *)
Lemma mget_memmove m dst src n x :
  0 <= n ->
  mget (memmove m dst src n) x =
  if decide (dst <= x < dst + n) then mget m (src + (x - dst)) else mget m x.
Proof.
  intros Hn. unfold memmove.
  case_bool. { subst. rewrite decide_False by lia. done. }
  destruct (Z.ltb_spec src dst), (Z.ltb_spec dst (src + n)); simpl.
  - rewrite mget_memmove_down by lia. rewrite Z2Nat.id by lia.
    repeat case_decide; try lia; try done; f_equal; lia.
  - rewrite mget_memmove_up by lia. rewrite Z2Nat.id by lia. done.
  - rewrite mget_memmove_up by lia. rewrite Z2Nat.id by lia. done.
  - rewrite mget_memmove_up by lia. rewrite Z2Nat.id by lia. done.
Qed.

Lemma memcmp_loop_0 n m a b :
  memcmp_loop n m a b = 0 <-> (forall i, 0 <= i < Z.of_nat n -> mget m (a + i) = mget m (b + i)).
Proof.
  revert a b. induction n as [|n IH]; intros a b; cbn [memcmp_loop].
  { split; [lia|done]. }
  case_bool.
  - rewrite IH. split; intros H i Hi.
    + destruct (decide (i = 0)) as [->|]; [by rewrite !Z.add_0_r|].
      replace (a + i) with (a + 1 + (i - 1)) by lia.
      replace (b + i) with (b + 1 + (i - 1)) by lia. apply H; lia.
    + rewrite <- !Z.add_assoc. apply H. lia.
  - split; [lia|]. intros H. specialize (H 0 ltac:(lia)).
    rewrite !Z.add_0_r in H. lia.
Qed.

(** ** NUL-terminated strings *)

(** The bytes of the C string at [p], cut at a NUL or after [n] bytes. *)
Fixpoint cstr (n : nat) (m : gmap Z Z) (p : Z) : list Z :=
  match n with
  | O => []
  | S n => if mget m p =? 0 then [] else mget m p :: cstr n m (p + 1)
  end.

Fixpoint strncmp_loop (n : nat) (m : gmap Z Z) (p q : Z) : Z :=
  match n with
  | O => 0
  | S n' =>
      if negb (mget m p =? 0) && (mget m p =? mget m q)
      then strncmp_loop n' m (p + 1) (q + 1)
      else mget m p - mget m q
  end.
Definition strncmp (m : gmap Z Z) (p q n : Z) : Z := strncmp_loop (Z.to_nat n) m p q.

(** [while(n-- > 0 && ( *s++ = *t++) != 0);]: the memory, and the [s] and the
    [n] with which the second loop starts. *)
Fixpoint strncpy_copy (n : nat) (m : gmap Z Z) (s t : Z) : gmap Z Z * Z * nat :=
  match n with
  | O => (m, s, O)
  | S n =>
      let c := mget m t in
      let m := mset m s c in
      if c =? 0 then (m, s + 1, n) else strncpy_copy n m (s + 1) (t + 1)
  end.
(** [while(n-- > 0) *s++ = 0;] *)
Fixpoint strncpy_pad (n : nat) (m : gmap Z Z) (s : Z) : gmap Z Z :=
  match n with
  | O => m
  | S n => strncpy_pad n (mset m s 0) (s + 1)
  end.
Definition strncpy (m : gmap Z Z) (s t n : Z) : gmap Z Z :=
  let '(m, s, k) := strncpy_copy (Z.to_nat n) m s t in strncpy_pad k m s.

(** [while(--n > 0 && ( *s++ = *t++) != 0);]: the memory and the final [s]. *)
Fixpoint safestrcpy_loop (k : nat) (m : gmap Z Z) (s t : Z) : gmap Z Z * Z :=
  match k with
  | O => (m, s)
  | S k =>
      let c := mget m t in
      let m := mset m s c in
      if c =? 0 then (m, s + 1) else safestrcpy_loop k m (s + 1) (t + 1)
  end.
Definition safestrcpy (m : gmap Z Z) (s t n : Z) : gmap Z Z :=
  if n <=? 0 then m
  else let '(m, s) := safestrcpy_loop (Z.to_nat (n - 1)) m s t in mset m s 0.

(** [for(n = 0; s[n]; n++);] with [fuel] bounding the scan. *)
Fixpoint strlen_loop (fuel : nat) (m : gmap Z Z) (s n : Z) : option Z :=
  match fuel with
  | O => None
  | S fuel => if mget m (s + n) =? 0 then Some n else strlen_loop fuel m s (n + 1)
  end.
Definition strlen (fuel : nat) (m : gmap Z Z) (s : Z) : option Z := strlen_loop fuel m s 0.

Lemma cstr_ext n m m' p :
  (forall i, 0 <= i < Z.of_nat n -> mget m (p + i) = mget m' (p + i)) -> cstr n m p = cstr n m' p.
Proof.
  revert p. induction n as [|n IH]; intros p H; simpl; [done|].
  pose proof (H 0 ltac:(lia)) as H0. rewrite Z.add_0_r in H0. rewrite H0.
  case_bool; [done|]. f_equal. apply IH. intros i Hi.
  rewrite <- !Z.add_assoc. apply H. lia.
Qed.

Lemma strncmp_loop_0 n m p q : strncmp_loop n m p q = 0 <-> cstr n m p = cstr n m q.
Proof.
  revert p q. induction n as [|n IH]; intros p q; cbn [strncmp_loop cstr]; [done|].
  destruct (Z.eqb_spec (mget m p) 0) as [E|E], (Z.eqb_spec (mget m p) (mget m q)) as [E'|E'];
    destruct (Z.eqb_spec (mget m q) 0); simpl; try lia.
  - rewrite E'. split; intros; [done|lia].
  - split; [lia|discriminate].
  - rewrite IH, E'. split; [congruence|by intros [=]].
  - split; [lia|discriminate].
  - split; [lia|]. by intros [=].
Qed.

(** strncmp returns 0 exactly when the two strings agree up to the first NUL
    or the [n]th byte. *)
Lemma strncmp_0 m p q n : strncmp m p q n = 0 <-> cstr (Z.to_nat n) m p = cstr (Z.to_nat n) m q.
Proof. apply strncmp_loop_0. Qed.

Lemma mget_strncpy_pad n m s x :
  mget (strncpy_pad n m s) x = if decide (s <= x < s + Z.of_nat n) then 0 else mget m x.
Proof.
  revert m s. induction n as [|n IH]; intros m s.
  { simpl. case_decide; [lia|done]. }
  cbn [strncpy_pad]. rewrite IH, mget_mset. repeat case_decide; try lia; done.
Qed.

(** Byte [i] of an [n]-byte field that holds the string [l], padded with NULs. *)
Definition padded (l : list Z) (i : Z) : Z := default 0 (l !! Z.to_nat i).

Lemma strncpy_copy_spec n m s t m' s' k x :
  s + Z.of_nat n <= t \/ t + Z.of_nat n <= s ->
  strncpy_copy n m s t = (m', s', k) ->
  s' + Z.of_nat k = s + Z.of_nat n /\
  Z.of_nat (length (cstr n m t)) <= s' - s <= Z.of_nat n /\
  mget m' x = if decide (s <= x < s') then padded (cstr n m t) (x - s) else mget m x.
Proof.
  revert m s t. induction n as [|n IH]; intros m s t Hd E; cbn [strncpy_copy] in E.
  { simplify_eq. split_and!; simpl; try lia. case_decide; [lia|done]. }
  destruct (Z.eqb_spec (mget m t) 0) as [E0|E0].
  - simplify_eq. cbn [cstr]. rewrite E0. cbn. split_and!; try lia. rewrite mget_mset.
    destruct (decide (s = x)).
    + rewrite decide_True by lia. done.
    + rewrite decide_False by lia. done.
  - apply IH in E as (E1 & E2 & E3); [|lia].
    cbn [cstr]. destruct (Z.eqb_spec (mget m t) 0); [lia|].
    assert (cstr n (mset m s (mget m t)) (t + 1) = cstr n m (t + 1)) as Hc.
    { apply cstr_ext. intros i Hi. rewrite mget_mset, decide_False by lia. done. }
    rewrite Hc in E2, E3. simpl length. split_and!; try lia.
    rewrite E3, mget_mset, w8_mget. unfold padded. destruct (decide (s + 1 <= x < s')).
    + rewrite (decide_True (P := s <= x < s')) by lia.
      replace (Z.to_nat (x - s)) with (S (Z.to_nat (x - (s + 1)))) by lia. done.
    + destruct (decide (s = x)) as [->|].
      * rewrite decide_True by lia. by rewrite Z.sub_diag.
      * rewrite decide_False by lia. done.
Qed.

Lemma cstr_length n m p : (length (cstr n m p) <= n)%nat.
Proof. revert p. induction n as [|n IH]; intros p; simpl; [lia|]. case_bool; simpl; [lia|].
  specialize (IH (p + 1)). lia. Qed.

(** strncpy fills the [n]-byte field with the string and NUL padding, and
    touches nothing else. *)
Lemma mget_strncpy m s t n x :
  0 <= n -> s + n <= t \/ t + n <= s ->
  mget (strncpy m s t n) x =
  if decide (s <= x < s + n) then padded (cstr (Z.to_nat n) m t) (x - s) else mget m x.
Proof.
  intros Hn Hd. unfold strncpy.
  destruct (strncpy_copy (Z.to_nat n) m s t) as [[m' s'] k] eqn:E.
  apply (strncpy_copy_spec _ _ _ _ _ _ _ x) in E as (H1 & H2 & H3); [|lia].
  rewrite mget_strncpy_pad, H3.
  destruct (decide (s' <= x < s' + Z.of_nat k)).
  - rewrite decide_True by lia. unfold padded. rewrite lookup_ge_None_2; [done|]. lia.
  - destruct (decide (s <= x < s')).
    + rewrite decide_True by lia. done.
    + rewrite decide_False by lia. done.
Qed.

Lemma safestrcpy_loop_spec k m s t m' s' x :
  s + Z.of_nat k <= t \/ t + Z.of_nat k <= s ->
  safestrcpy_loop k m s t = (m', s') ->
  s <= s' <= s + Z.of_nat k /\
  Z.of_nat (length (cstr k m t)) <= s' - s /\
  mget m' x = if decide (s <= x < s') then padded (cstr k m t) (x - s) else mget m x.
Proof.
  intros Hd E.
  assert (exists j, strncpy_copy k m s t = (m', s', j)) as [j Ej].
  { clear Hd. revert m s t E. induction k as [|k IH]; intros m s t E;
      cbn [safestrcpy_loop strncpy_copy] in *; [simplify_eq; eauto|].
    case_match; [simplify_eq; eauto|]. by apply IH. }
  apply (strncpy_copy_spec _ _ _ _ _ _ _ x Hd) in Ej as (? & ? & ?).
  split_and!; [lia|lia|lia|done].
Qed.

(** safestrcpy always leaves a NUL-terminated string of at most [n - 1]
    bytes in the [n]-byte destination. *)
Lemma mget_safestrcpy m s t n x :
  0 < n -> s + n <= t \/ t + n <= s -> s <= x < s + n ->
  x - s <= Z.of_nat (length (cstr (Z.to_nat (n - 1)) m t)) ->
  mget (safestrcpy m s t n) x = padded (cstr (Z.to_nat (n - 1)) m t) (x - s).
Proof.
  intros Hn Hd Hx Hl. unfold safestrcpy. destruct (Z.leb_spec n 0); [lia|].
  destruct (safestrcpy_loop (Z.to_nat (n - 1)) m s t) as [m' s'] eqn:E.
  apply (safestrcpy_loop_spec _ _ _ _ _ _ x) in E as (H1 & H2 & H3); [|lia].
  rewrite mget_mset, H3. destruct (decide (s' = x)).
  - unfold padded. rewrite lookup_ge_None_2 by lia. done.
  - rewrite decide_True by lia. done.
Qed.

Lemma strlen_loop_spec fuel m s n :
  (exists k, n <= k < n + Z.of_nat fuel /\ mget m (s + k) = 0 /\
             forall i, n <= i < k -> mget m (s + i) <> 0) ->
  exists k, strlen_loop fuel m s n = Some k /\ n <= k /\ mget m (s + k) = 0 /\
            forall i, n <= i < k -> mget m (s + i) <> 0.
Proof.
  revert n. induction fuel as [|fuel IH]; intros n (k & Hk & H0 & Hne); [lia|].
  cbn [strlen_loop]. case_bool.
  - exists n. split_and!; try done; lia.
  - destruct (IH (n + 1)) as (k' & E & Hle & H0' & Hne').
    { exists k. assert (k <> n) by (intros ->; done). split_and!; try lia; try done.
      intros; apply Hne; lia. }
    exists k'. split_and!; try done; try lia.
    intros i Hi. destruct (decide (i = n)) as [->|]; [done|]. apply Hne'; lia.
Qed.

(** The lemmas above are the interface of these routines; evaluation by the
    kernel's machines is not affected. *)
#[global] Opaque mget mset load64 store64 load32 store32 memset memmove memcmp strncmp strncpy
  safestrcpy strlen.
