(* ===== verification/Riscv.v ===== *)
(** * Address and page-table-entry arithmetic

    The macros of kernel/riscv.h (page rounding, Sv39 page-table entries and
    indices) and the physical and virtual layout of kernel/memlayout.h, with
    the arithmetic facts the page-table code relies on. *)
From S2P Require Import Prelude.
From stdpp Require Import base tactics numbers list strings gmap.
From Stdlib Require Import ZArith Lia.

Open Scope Z_scope.

Definition PGSIZE : Z := 4096.
Definition PGSHIFT : Z := 12.

Definition PGROUNDUP (sz : Z) : Z := Z.land (w64 (sz + PGSIZE - 1)) (Z.lnot (PGSIZE - 1)).
Definition PGROUNDDOWN (a : Z) : Z := Z.land a (Z.lnot (PGSIZE - 1)).

Definition PTE_V : Z := Z.shiftl 1 0.
Definition PTE_R : Z := Z.shiftl 1 1.
Definition PTE_W : Z := Z.shiftl 1 2.
Definition PTE_X : Z := Z.shiftl 1 3.
Definition PTE_U : Z := Z.shiftl 1 4.

Definition PA2PTE (pa : Z) : Z := w64 (Z.shiftl (Z.shiftr pa 12) 10).
Definition PTE2PA (pte : Z) : Z := w64 (Z.shiftl (Z.shiftr pte 10) 12).
Definition PTE_FLAGS (pte : Z) : Z := Z.land pte 0x3FF.

Definition PXMASK : Z := 0x1FF.
Definition PXSHIFT (level : Z) : Z := PGSHIFT + 9 * level.
Definition PX (level va : Z) : Z := Z.land (Z.shiftr va (PXSHIFT level)) PXMASK.

Definition MAXVA : Z := Z.shiftl 1 (9 + 9 + 9 + 12 - 1).

(** kernel/memlayout.h *)
Definition UART0 : Z := 0x10000000.
Definition VIRTIO0 : Z := 0x10001000.
Definition PLIC : Z := 0x0c000000.
Definition KERNBASE : Z := 0x80000000.
Definition PHYSTOP : Z := KERNBASE + 128 * 1024 * 1024.
Definition TRAMPOLINE : Z := MAXVA - PGSIZE.
Definition KSTACK (p : Z) : Z := TRAMPOLINE - (p + 1) * 2 * PGSIZE.
Definition TRAPFRAME : Z := TRAMPOLINE - PGSIZE.

(** Test of a flag bit: [pte & PTE_x]. *)
Definition has (pte flag : Z) : bool := negb (Z.land pte flag =? 0).

(** [lia] after replacing the layout constants by their values. *)
Ltac pg :=
  unfold TRAPFRAME, KSTACK, TRAMPOLINE, PHYSTOP, KERNBASE, PGSHIFT in *;
  change MAXVA with (2 ^ 38) in *; unfold PGSIZE in *; lia.

(** [lia] on goals about flag values. *)
Ltac flags :=
  change PTE_V with 1 in *; change PTE_R with 2 in *; change PTE_W with 4 in *;
  change PTE_X with 8 in *; change PTE_U with 16 in *; lia.

Definition aligned (a : Z) : Prop := a mod PGSIZE = 0.
(** The address of the page that contains [x]. *)
Definition page_of (x : Z) : Z := x / PGSIZE * PGSIZE.

Lemma PGROUNDDOWN_page_of a : PGROUNDDOWN a = page_of a.
Proof. unfold PGROUNDDOWN, page_of. apply (land_lnot_ones a 12). lia. Qed.

Lemma page_of_spec a : page_of a <= a < page_of a + PGSIZE /\ aligned (page_of a).
Proof.
  unfold page_of, aligned, PGSIZE. split; [|by rewrite Z.mod_mul].
  pose proof (Z.div_mod a 4096). pose proof (Z.mod_pos_bound a 4096). lia.
Qed.

Lemma page_of_unique p x : aligned p -> p <= x < p + PGSIZE -> page_of x = p.
Proof.
  unfold page_of, aligned, PGSIZE. intros Hp Hx.
  apply Z.div_exact in Hp; [|lia]. rewrite Hp.
  rewrite (Z.mul_comm 4096). f_equal. symmetry.
  apply Z.div_unique with (x - p); lia.
Qed.

Lemma page_of_aligned p : aligned p -> page_of p = p.
Proof. intros. apply page_of_unique; [done|]. unfold PGSIZE; lia. Qed.

Lemma page_of_iff p x : aligned p -> page_of x = p <-> p <= x < p + PGSIZE.
Proof.
  intros Hp. split; [|by apply page_of_unique]. intros <-. apply page_of_spec.
Qed.

Lemma aligned_add p k : aligned p -> aligned (p + k * PGSIZE).
Proof. unfold aligned, PGSIZE. intros. by rewrite Z.mod_add. Qed.

Lemma aligned_mult p : aligned p <-> exists k, p = k * PGSIZE.
Proof.
  unfold aligned, PGSIZE. split.
  - intros H. exists (p / 4096). apply Z.div_exact in H; lia.
  - intros [k ->]. by rewrite Z.mod_mul.
Qed.

(** PGROUNDUP is the least page boundary not below its argument. *)
Lemma PGROUNDUP_spec sz :
  0 <= sz <= 2 ^ 64 - PGSIZE ->
  aligned (PGROUNDUP sz) /\ sz <= PGROUNDUP sz < sz + PGSIZE.
Proof.
  unfold PGSIZE. intros H. unfold PGROUNDUP, PGSIZE. rewrite w64_id by lia.
  change (Z.lnot (4096 - 1)) with (Z.lnot (Z.ones 12)).
  rewrite land_lnot_ones by lia. change (2 ^ 12) with 4096.
  unfold aligned, PGSIZE. split; [by rewrite Z.mod_mul|].
  pose proof (Z.div_mod (sz + 4096 - 1) 4096). pose proof (Z.mod_pos_bound (sz + 4096 - 1) 4096). lia.
Qed.

Lemma PGROUNDUP_aligned p : aligned p -> 0 <= p <= 2 ^ 64 - PGSIZE -> PGROUNDUP p = p.
Proof.
  intros Ha Hp. destruct (PGROUNDUP_spec p Hp) as [Hu Hr].
  apply aligned_mult in Ha as [k ->]. apply aligned_mult in Hu as [j E]. rewrite E in *.
  unfold PGSIZE in *. lia.
Qed.

Lemma PGROUNDUP_mono a b :
  0 <= a -> a <= b -> b <= 2 ^ 64 - PGSIZE -> PGROUNDUP a <= PGROUNDUP b.
Proof.
  intros. destruct (PGROUNDUP_spec a) as [Ha1 Ha2]; [lia|].
  destruct (PGROUNDUP_spec b) as [Hb1 Hb2]; [lia|].
  apply aligned_mult in Ha1 as [i Ei]. apply aligned_mult in Hb1 as [j Ej].
  rewrite Ei, Ej in *. unfold PGSIZE in *. lia.
Qed.

(** ** Page-table entries *)

(** The PTE that maps physical page [pa] with the flags [f]. *)
Lemma pte_make pa f :
  aligned pa -> 0 <= pa < 2 ^ 56 -> 0 <= f < 1024 ->
  Z.lor (PA2PTE pa) f = pa / 4096 * 1024 + f.
Proof.
  intros Ha Hp Hf. unfold PA2PTE. rewrite Z.shiftr_div_pow2, Z.shiftl_mul_pow2 by lia.
  change (2 ^ 12) with 4096. rewrite w64_id.
  - apply (lor_disjoint_add _ _ 10); lia.
  - change (2 ^ 10) with 1024.
    assert (0 <= pa / 4096 <= 2 ^ 44) by (split; [apply Z.div_pos; lia|apply Z.div_le_upper_bound; lia]).
    lia.
Qed.

Lemma PTE2PA_make pa f :
  aligned pa -> 0 <= pa < 2 ^ 56 -> 0 <= f < 1024 -> PTE2PA (Z.lor (PA2PTE pa) f) = pa.
Proof.
  intros Ha Hp Hf. rewrite pte_make by done. unfold PTE2PA.
  rewrite Z.shiftr_div_pow2, Z.shiftl_mul_pow2 by lia. change (2 ^ 10) with 1024.
  rewrite (Z.add_comm (_ * 1024)), Z.div_add, (Z.div_small f) by lia.
  change (2 ^ 12) with 4096. unfold aligned, PGSIZE in Ha.
  pose proof (Z.div_mod pa 4096). rewrite w64_id by lia. lia.
Qed.

Lemma PTE_FLAGS_make pa f :
  aligned pa -> 0 <= pa < 2 ^ 56 -> 0 <= f < 1024 -> PTE_FLAGS (Z.lor (PA2PTE pa) f) = f.
Proof.
  intros Ha Hp Hf. rewrite pte_make by done. unfold PTE_FLAGS.
  change 0x3FF with (Z.ones 10). rewrite Z.land_ones by lia. change (2 ^ 10) with 1024.
  rewrite (Z.add_comm (_ * 1024)), Z.mod_add, Z.mod_small by lia. done.
Qed.

Lemma pte_make_range pa f :
  aligned pa -> 0 <= pa < 2 ^ 56 -> 0 <= f < 1024 -> 0 <= Z.lor (PA2PTE pa) f < 2 ^ 64.
Proof.
  intros. rewrite pte_make by done.
  assert (0 <= pa / 4096 <= 2 ^ 44) by (split; [apply Z.div_pos; lia|apply Z.div_le_upper_bound; lia]).
  lia.
Qed.

(** A flag test sees only the flag bits of the entry. *)
Lemma has_flags pte flag : 0 <= flag < 1024 -> has pte flag = has (PTE_FLAGS pte) flag.
Proof.
  intros Hf. unfold has, PTE_FLAGS. rewrite <- Z.land_assoc.
  change 0x3FF with (Z.ones 10). rewrite (Z.land_comm (Z.ones 10)), Z.land_ones by lia.
  by rewrite Z.mod_small by lia.
Qed.

Lemma PTE_FLAGS_range pte : 0 <= PTE_FLAGS pte < 1024.
Proof.
  unfold PTE_FLAGS. change 0x3FF with (Z.ones 10). rewrite Z.land_ones by lia.
  apply Z.mod_pos_bound. lia.
Qed.

Lemma PTE2PA_aligned pte : aligned (PTE2PA pte).
Proof.
  unfold PTE2PA, aligned, PGSIZE, w64. rewrite Z.shiftl_mul_pow2 by lia.
  set (k := Z.shiftr pte 10). change (2 ^ 12) with 4096.
  change (2 ^ 64) with (2 ^ 52 * 4096). rewrite Z.mul_mod_distr_r by lia.
  by rewrite Z.mod_mul.
Qed.

Lemma has_lor pte f flag : has (Z.lor pte f) flag = has pte flag || has f flag.
Proof.
  unfold has. rewrite Z.land_lor_distr_l.
  destruct (Z.eqb_spec (Z.land pte flag) 0) as [E|E]; [by rewrite E, Z.lor_0_l|].
  simpl. destruct (Z.eqb_spec (Z.lor (Z.land pte flag) (Z.land f flag)) 0) as [E'|]; [|done].
  apply Z.lor_eq_0_iff in E' as [? _]. done.
Qed.

(** ** Sv39 indices *)

Lemma PX_div level va : 0 <= level -> PX level va = va / 2 ^ (12 + 9 * level) mod 512.
Proof.
  intros. unfold PX, PXSHIFT, PGSHIFT, PXMASK. change 0x1FF with (Z.ones 9).
  by rewrite Z.land_ones, Z.shiftr_div_pow2 by lia.
Qed.

Lemma PX_range level va : 0 <= level -> 0 <= PX level va < 512.
Proof. intros. rewrite PX_div by done. apply Z.mod_pos_bound. lia. Qed.

(** The virtual page number of an address, and the two levels of prefixes
    that select the page-table pages on the way to its leaf entry. *)
Definition vpn (va : Z) : Z := va / PGSIZE.

Lemma PX0_vpn va : PX 0 va = vpn va mod 512.
Proof. rewrite PX_div by lia. done. Qed.
Lemma PX1_vpn va : PX 1 va = vpn va / 512 mod 512.
Proof. rewrite PX_div by lia. unfold vpn, PGSIZE. by rewrite Z.div_div by lia. Qed.
Lemma PX2_vpn va : 0 <= va < MAXVA -> PX 2 va = vpn va / 512 / 512.
Proof.
  intros H. rewrite PX_div by lia. unfold vpn, PGSIZE. rewrite !Z.div_div by lia.
  change (2 ^ (12 + 9 * 2)) with (4096 * 512 * 512). rewrite Z.mod_small; [done|].
  change MAXVA with (2 ^ 38) in H.
  split; [apply Z.div_pos; lia|apply Z.div_lt_upper_bound; lia].
Qed.

Lemma vpn_aligned_inj a b : aligned a -> aligned b -> vpn a = vpn b -> a = b.
Proof.
  unfold vpn, aligned, PGSIZE. intros Ha Hb E.
  apply Z.div_exact in Ha, Hb; [|lia..]. congruence.
Qed.

Lemma vpn_page_of a : vpn (page_of a) = vpn a.
Proof. unfold vpn, page_of, PGSIZE. by rewrite Z.div_mul. Qed.
