(* ===== verification/Kalloc.v ===== *)
(** * The physical page allocator (kernel/kalloc.c)

    The free pages form a linked list threaded through the pages themselves:
    the first eight bytes of a free page hold the address of the next one.
    [is_freelist] relates that list in memory to a list of page addresses,
    and the specifications of kalloc and kfree are stated on it.

    A critical section (acquire(&kmem.lock) ... release(&kmem.lock)) is one
    step of the model; Spinlock.v shows the mutual exclusion this rests on. *)
From S2P Require Import Prelude Mem Riscv.
From stdpp Require Import base tactics numbers list strings gmap.
From Stdlib Require Import ZArith Lia.

Open Scope Z_scope.

(** The symbols of kernel.ld and trampoline.S the code refers to. *)
Class KernelLayout := {
  kend : Z;         (* end[]: first address after the kernel *)
  etext : Z;        (* etext[]: end of kernel text *)
  trampoline : Z;   (* trampoline[]: the page of trampoline.S *)
  kend_range : KERNBASE < kend <= PHYSTOP - PGSIZE;
  etext_range : KERNBASE < etext <= kend;
  etext_aligned : aligned etext;
  trampoline_aligned : aligned trampoline;
  trampoline_range : KERNBASE <= trampoline < etext
}.

(** Physical memory and [kmem.freelist]. *)
Record kmem := KMem { phys : gmap Z Z; freelist : Z }.

Definition set_phys (f : gmap Z Z -> gmap Z Z) (s : kmem) : kmem :=
  KMem (f (phys s)) (freelist s).
Definition set_freelist (r : Z) (s : kmem) : kmem := KMem (phys s) r.

(** Memory accesses of the kernel, as steps. *)
Definition ld64 (a : Z) : M kmem Z := gets (fun s => load64 (phys s) a).
Definition st64 (a v : Z) : M kmem unit := modify (set_phys (fun m => store64 m a v)).
Definition do_memset (dst c n : Z) : M kmem unit := modify (set_phys (fun m => memset m dst c n)).
Definition do_memmove (dst src n : Z) : M kmem unit :=
  modify (set_phys (fun m => memmove m dst src n)).

Lemma wp_ld64 a Q s : Q (load64 (phys s) a) s -> wp (ld64 a) Q s.
Proof. done. Qed.
Lemma wp_st64 a v Q s : Q () (set_phys (fun m => store64 m a v) s) -> wp (st64 a v) Q s.
Proof. done. Qed.
Lemma wp_memset d c n Q s :
  Q () (set_phys (fun m => memset m d c n) s) -> wp (do_memset d c n) Q s.
Proof. done. Qed.
Lemma wp_memmove d src n Q s :
  Q () (set_phys (fun m => memmove m d src n) s) -> wp (do_memmove d src n) Q s.
Proof. done. Qed.

(** Step through memory accesses too. *)
Ltac km_step :=
  first
    [ wp_step
    | lazymatch goal with
      | |- wp (ld64 _) _ _ => apply wp_ld64
      | |- wp (st64 _ _) _ _ => apply wp_st64
      | |- wp (do_memset _ _ _) _ _ => apply wp_memset
      | |- wp (do_memmove _ _ _) _ _ => apply wp_memmove
      end ].
Ltac km_steps := repeat (km_step; cbv beta zeta).

Section kalloc.
Context {KL : KernelLayout}.

Definition kfree (pa : Z) : M kmem unit :=
  if negb (pa mod PGSIZE =? 0) || (pa <? kend) || (PHYSTOP <=? pa)
  then panic "kfree"
  else
    do_memset pa 1 PGSIZE;;
    next ← gets freelist;
    st64 pa next;;
    modify (set_freelist pa).

Definition kalloc : M kmem Z :=
  r ← gets freelist;
  (when negb (r =? 0) do (next ← ld64 r; modify (set_freelist next)));;
  (when negb (r =? 0) do do_memset r 5 PGSIZE);;
  mret r.

(** [for(; p + PGSIZE <= pa_end; p += PGSIZE) kfree(p);] *)
Fixpoint freerange_loop (fuel : nat) (p pa_end : Z) : M kmem unit :=
  if p + PGSIZE <=? pa_end then
    match fuel with
    | O => nofuel
    | S fuel => kfree p;; freerange_loop fuel (p + PGSIZE) pa_end
    end
  else skip.

Definition freerange (pa_start pa_end : Z) : M kmem unit :=
  let p := PGROUNDUP pa_start in
  freerange_loop (Z.to_nat ((pa_end - p) / PGSIZE)) p pa_end.

Definition kinit : M kmem unit := freerange kend PHYSTOP.
End kalloc.

(** ** Ownership and frames at page granularity *)

Definition page_ok {KL : KernelLayout} (pa : Z) : Prop := aligned pa /\ kend <= pa < PHYSTOP.

(** [m'] differs from [m] at most in the pages satisfying [P]. *)
Definition frame (P : Z -> Prop) (m m' : gmap Z Z) : Prop :=
  forall x, ~ P (page_of x) -> mget m' x = mget m x.

Lemma frame_refl P m : frame P m m.
Proof. done. Qed.
Lemma frame_trans (P Q : Z -> Prop) m1 m2 m3 :
  frame P m1 m2 -> frame Q m2 m3 -> frame (fun p => P p \/ Q p) m1 m3.
Proof. intros H1 H2 x Hx. rewrite H2, H1; [done|tauto..]. Qed.
Lemma frame_mono (P Q : Z -> Prop) m m' : frame P m m' -> (forall p, P p -> Q p) -> frame Q m m'.
Proof. intros H HQ x Hx. apply H. eauto. Qed.
Lemma frame_seq P m1 m2 m3 : frame P m1 m2 -> frame P m2 m3 -> frame P m1 m3.
Proof. intros H1 H2 x Hx. by rewrite H2, H1. Qed.

Lemma page_of_word pa x : aligned pa -> pa <= x < pa + PGSIZE -> page_of x = pa.
Proof. apply page_of_unique. Qed.

(** A 64-bit load inside an untouched page is unchanged. *)
Lemma load64_frame P m m' pa i :
  frame P m m' -> aligned pa -> 0 <= i -> i + 8 <= PGSIZE -> ~ P pa ->
  load64 m' (pa + i) = load64 m (pa + i).
Proof.
  intros H Ha Hi Hi' HP. apply load64_ext. intros x Hx. apply H.
  rewrite (page_of_unique pa x Ha); [done|lia].
Qed.

Lemma frame_store64 m pa i v :
  aligned pa -> 0 <= i -> i + 8 <= PGSIZE -> frame (eq pa) m (store64 m (pa + i) v).
Proof.
  intros Ha Hi Hi' x Hx. apply mget_store64_ne.
  destruct (decide (pa + i <= x < pa + i + 8)); [|lia].
  exfalso. apply Hx. symmetry. apply page_of_unique; [done|lia].
Qed.

Lemma frame_store64_0 m pa v : aligned pa -> frame (eq pa) m (store64 m pa v).
Proof.
  intros Ha. pose proof (frame_store64 m pa 0 v Ha) as H. rewrite Z.add_0_r in H.
  apply H; unfold PGSIZE; lia.
Qed.

Lemma frame_memset m pa c : aligned pa -> frame (eq pa) m (memset m pa c PGSIZE).
Proof.
  intros Ha x Hx. rewrite mget_memset by (unfold PGSIZE; lia).
  rewrite decide_False; [done|]. intros Hin. apply Hx. symmetry. by apply page_of_unique.
Qed.

Lemma frame_memmove m pa src n :
  aligned pa -> 0 <= n <= PGSIZE -> frame (eq pa) m (memmove m pa src n).
Proof.
  intros Ha Hn x Hx. rewrite mget_memmove by lia.
  rewrite decide_False; [done|]. intros Hin. apply Hx. symmetry. apply page_of_unique; [done|lia].
Qed.

(** A page full of zero bytes, as left by memset(pa, 0, PGSIZE). *)
Definition zero_page (m : gmap Z Z) (pa : Z) : Prop :=
  forall x, pa <= x < pa + PGSIZE -> mget m x = 0.

Lemma memset_zero_page m pa : zero_page (memset m pa 0 PGSIZE) pa.
Proof. intros x Hx. rewrite mget_memset by (unfold PGSIZE; lia). by rewrite decide_True. Qed.

Lemma zero_page_load64 m pa i :
  zero_page m pa -> 0 <= i -> i + 8 <= PGSIZE -> load64 m (pa + i) = 0.
Proof.
  intros H Hi Hi'. apply load64_zero. intros x Hx. apply H. lia.
Qed.

(** ** The free list *)

Section freelist.
Context {KL : KernelLayout}.

Fixpoint is_freelist (m : gmap Z Z) (head : Z) (l : list Z) : Prop :=
  match l with
  | [] => head = 0
  | pa :: l => head = pa /\ page_ok pa /\ is_freelist m (load64 m pa) l
  end.

(** The allocator's invariant, with the list of the free pages. *)
Definition kmem_inv (s : kmem) (l : list Z) : Prop :=
  is_freelist (phys s) (freelist s) l /\ NoDup l.

Lemma page_ok_pos pa : page_ok pa -> 0 < pa.
Proof. intros [_ H]. pose proof kend_range. pg. Qed.
Lemma page_ok_range pa : page_ok pa -> 0 <= pa < 2 ^ 56.
Proof. intros [_ H]. pose proof kend_range. pg. Qed.
Lemma page_ok_aligned pa : page_ok pa -> aligned pa.
Proof. by intros []. Qed.

Lemma is_freelist_frame P m m' head l :
  frame P m m' -> (forall pa, pa ∈ l -> ~ P pa) -> is_freelist m head l -> is_freelist m' head l.
Proof.
  intros HF. revert head. induction l as [|pa l IH]; intros head Hl; simpl; [done|].
  intros (-> & Hok & Hrest). split_and!; [done..|].
  rewrite <- (Z.add_0_r pa), (load64_frame P m m').
  - rewrite Z.add_0_r. apply IH; [|done]. intros p Hp. apply Hl. set_solver.
  - done.
  - by apply page_ok_aligned.
  - lia.
  - unfold PGSIZE; lia.
  - apply Hl. set_solver.
Qed.

Lemma is_freelist_ok m head l pa : is_freelist m head l -> pa ∈ l -> page_ok pa.
Proof.
  revert head. induction l as [|p l IH]; intros head; simpl; [set_solver|].
  intros (-> & Hok & Hrest) Hin. apply elem_of_cons in Hin as [->|]; eauto.
Qed.

Lemma is_freelist_fun m head l l' : is_freelist m head l -> is_freelist m head l' -> l = l'.
Proof.
  revert head l'. induction l as [|p l IH]; intros head [|p' l']; simpl; try done.
  - intros E (E' & Hok%page_ok_pos & _). lia.
  - intros (E & Hok%page_ok_pos & _) E'. lia.
  - intros (E & _ & H) (E' & _ & H'). subst. f_equal. eauto.
Qed.

Lemma kmem_inv_frame P s s' l :
  freelist s' = freelist s -> frame P (phys s) (phys s') -> (forall pa, pa ∈ l -> ~ P pa) ->
  kmem_inv s l -> kmem_inv s' l.
Proof.
  intros E HF Hl [H Hnd]. split; [|done]. rewrite E. by eapply is_freelist_frame.
Qed.

Lemma kmem_inv_ok s l pa : kmem_inv s l -> pa ∈ l -> page_ok pa.
Proof. intros [H _]. by eapply is_freelist_ok. Qed.

(** ** Specifications *)

Lemma kfree_wp s l pa :
  kmem_inv s l -> page_ok pa -> pa ∉ l ->
  wp (kfree pa) (fun _ s' => kmem_inv s' (pa :: l) /\ frame (eq pa) (phys s) (phys s')) s.
Proof.
  intros [Hl Hnd] Hok Hni. pose proof Hok as [Ha Hr]. unfold kfree.
  destruct (Z.eqb_spec (pa mod PGSIZE) 0) as [_|E]; [|done].
  destruct (Z.ltb_spec pa kend); [lia|]. destruct (Z.leb_spec PHYSTOP pa); [lia|]. simpl.
  km_steps. set (m1 := memset (phys s) pa 1 PGSIZE).
  assert (frame (eq pa) (phys s) (store64 m1 pa (freelist s))) as HF.
  { eapply frame_seq; [by apply frame_memset|].
    apply frame_store64_0. done. }
  split; [|done]. split; [|by constructor].
  simpl. split_and!; [done..|].
  rewrite load64_store64_eq.
  - eapply is_freelist_frame; [done|congruence|done].
  - destruct l as [|p l]; simpl in Hl.
    + rewrite Hl. lia.
    + destruct Hl as (-> & Hp & _). apply page_ok_range in Hp. lia.
Qed.

Lemma kalloc_wp s pa l :
  kmem_inv s (pa :: l) ->
  wp kalloc (fun r s' => r = pa /\ kmem_inv s' l /\ frame (eq pa) (phys s) (phys s') /\
               (forall x, pa <= x < pa + PGSIZE -> mget (phys s') x = 5)) s.
Proof.
  intros [(E & Hok & Hl) Hnd]. apply NoDup_cons in Hnd as [Hni Hnd].
  pose proof (page_ok_pos _ Hok). unfold kalloc. km_steps. rewrite E.
  destruct (Z.eqb_spec pa 0); [lia|]. simpl. km_steps. simpl.
  assert (frame (eq pa) (phys s) (memset (phys s) pa 5 PGSIZE)) as HF
    by (apply frame_memset; apply Hok).
  split_and!; [done| |done|].
  - split; [|done]. simpl. eapply is_freelist_frame; [exact HF| |exact Hl]. congruence.
  - intros x Hx. rewrite mget_memset by (unfold PGSIZE; lia). by rewrite decide_True.
Qed.

Lemma kalloc_none s : kmem_inv s [] -> kalloc s = Ret 0 s.
Proof. intros [E _]. simpl in E. unfold kalloc, mbind, M_bind, gets. simpl. by rewrite E. Qed.

(** Every call of kalloc, whether or not a page is left. *)
Lemma kalloc_cases s l :
  kmem_inv s l ->
  wp kalloc (fun r s' =>
    (r = 0 /\ l = [] /\ s' = s) \/
    (exists l', l = r :: l' /\ page_ok r /\ kmem_inv s' l' /\ frame (eq r) (phys s) (phys s'))) s.
Proof.
  intros H. destruct l as [|pa l].
  - eapply wp_intro; [by apply kalloc_none|]. left. done.
  - eapply wp_mono; [by apply kalloc_wp|]. intros r s' (-> & Hi & HF & _). right.
    exists l. split_and!; try done. eapply kmem_inv_ok; [exact H|]. apply elem_of_cons. by left.
Qed.

(** ** freerange and kinit *)

(** The pages [p, p + PGSIZE, ...], [n] of them, in the order the free
    list ends up with: the last one freed comes first. *)
Fixpoint pages_rev (n : nat) (p : Z) (acc : list Z) : list Z :=
  match n with
  | O => acc
  | S n => pages_rev n (p + PGSIZE) (p :: acc)
  end.

Lemma elem_of_pages_rev n p acc x :
  x ∈ pages_rev n p acc <-> x ∈ acc \/ exists k, 0 <= k < Z.of_nat n /\ x = p + k * PGSIZE.
Proof.
  revert p acc. induction n as [|n IH]; intros p acc; cbn [pages_rev].
  { split; [by left|]. intros [?|(k & ? & _)]; [done|lia]. }
  rewrite IH, elem_of_cons. split.
  - intros [[->|?]|(k & Hk & ->)]; [right|by left|right].
    + exists 0. lia.
    + exists (k + 1). lia.
  - intros [?|(k & Hk & ->)]; [by left; right|].
    destruct (decide (k = 0)) as [->|]; [left; left; lia|].
    right. exists (k - 1). lia.
Qed.

Lemma freerange_loop_wp n p pa_end s l :
  kmem_inv s l -> aligned p -> kend <= p -> pa_end <= PHYSTOP ->
  p + Z.of_nat n * PGSIZE <= pa_end < p + (Z.of_nat n + 1) * PGSIZE ->
  (forall q, q ∈ l -> q < p) ->
  wp (freerange_loop n p pa_end) (fun _ s' => kmem_inv s' (pages_rev n p l)) s.
Proof.
  revert p s l. induction n as [|n IH]; intros p s l Hi Ha Hk He Hn Hl.
  - simpl. destruct (Z.leb_spec (p + PGSIZE) pa_end); [lia|]. by apply wp_skip.
  - cbn [freerange_loop pages_rev]. destruct (Z.leb_spec (p + PGSIZE) pa_end); [|unfold PGSIZE in *; lia].
    eapply wp_call.
    + apply kfree_wp; [done| |].
      * split; [done|]. unfold PGSIZE in *. lia.
      * intros Hin. apply Hl in Hin. lia.
    + intros _ s' [Hi' _]. apply IH; try done.
      * pose proof (aligned_add p 1 Ha) as Ha'. by rewrite Z.mul_1_l in Ha'.
      * unfold PGSIZE; lia.
      * unfold PGSIZE in *; lia.
      * intros q [->|Hq]%elem_of_cons; [unfold PGSIZE; lia|].
        apply Hl in Hq. unfold PGSIZE; lia.
Qed.

(** Every page between [end] and [PHYSTOP]. *)
Definition all_pages : list Z :=
  let p := PGROUNDUP kend in pages_rev (Z.to_nat ((PHYSTOP - p) / PGSIZE)) p [].

Lemma kinit_wp s :
  freelist s = 0 -> wp kinit (fun _ s' => kmem_inv s' all_pages) s.
Proof.
  intros E. unfold kinit, freerange, all_pages.
  pose proof kend_range as Hk. destruct (PGROUNDUP_spec kend) as [Ha Hr]; [pg|].
  apply freerange_loop_wp.
  - split; [done|constructor].
  - done.
  - lia.
  - lia.
  - assert (0 <= PHYSTOP - PGROUNDUP kend) by pg.
    pose proof (Z.div_mod (PHYSTOP - PGROUNDUP kend) PGSIZE).
    pose proof (Z.mod_pos_bound (PHYSTOP - PGROUNDUP kend) PGSIZE).
    pose proof (Z.div_pos (PHYSTOP - PGROUNDUP kend) PGSIZE).
    rewrite Z2Nat.id by pg. pg.
  - set_solver.
Qed.

Lemma elem_of_all_pages pa : pa ∈ all_pages <-> page_ok pa.
Proof.
  unfold all_pages, page_ok. rewrite elem_of_pages_rev.
  pose proof kend_range as Hk. destruct (PGROUNDUP_spec kend) as [Ha Hr]; [pg|].
  pose proof (Z.div_mod (PHYSTOP - PGROUNDUP kend) PGSIZE ltac:(pg)).
  pose proof (Z.mod_pos_bound (PHYSTOP - PGROUNDUP kend) PGSIZE ltac:(pg)).
  assert (0 <= (PHYSTOP - PGROUNDUP kend) / PGSIZE) by (apply Z.div_pos; pg).
  rewrite Z2Nat.id by lia. split.
  - intros [Hin|(k & Hk' & ->)]; [set_solver|].
    split; [by apply aligned_add|]. split; [pg|]. pg.
  - intros [Ha' Hr']. right.
    apply aligned_mult in Ha as [i Ei]. apply aligned_mult in Ha' as [j ->].
    exists (j - i). rewrite Ei in *. pg.
Qed.
End freelist.
