(* ===== verification/Vm.v ===== *)
(** * Page tables (kernel/vm.c)

    The Sv39 page-table code, on page tables that live in physical memory:
    walk reads and writes entries with [ld64]/[st64], allocates page-table
    pages with kalloc, and every user of it (mappages, uvmunmap, uvmalloc,
    uvmdealloc, freewalk, uvmcopy, ...) goes through it.

    [pt_inv] describes the tree of page-table pages in memory, and [leaf_pte]
    is the abstract page table it implements: a function from virtual page
    numbers to page-table entries. *)
From S2P Require Import Prelude Mem Riscv Kalloc.
From stdpp Require Import base tactics numbers list strings gmap.
From Stdlib Require Import ZArith Lia.

Open Scope Z_scope.

Section vm.
Context {KL : KernelLayout}.

(** The loop of walk, from [level] down to 1, then the leaf index. *)
Fixpoint walk_loop (level : nat) (pagetable va : Z) (alloc : bool) : M kmem Z :=
  match level with
  | O => mret (pagetable + 8 * PX 0 va)
  | S level' =>
      let pte := pagetable + 8 * PX (Z.of_nat level) va in
      v ← ld64 pte;
      if has v PTE_V then walk_loop level' (PTE2PA v) va alloc
      else if negb alloc then mret 0
      else
        pagetable ← kalloc;
        if pagetable =? 0 then mret 0
        else
          do_memset pagetable 0 PGSIZE;;
          st64 pte (Z.lor (PA2PTE pagetable) PTE_V);;
          walk_loop level' pagetable va alloc
  end.

Definition walk (pagetable va : Z) (alloc : bool) : M kmem Z :=
  if MAXVA <=? va then panic "walk" else walk_loop 2 pagetable va alloc.

Definition walkaddr (pagetable va : Z) : M kmem Z :=
  if MAXVA <=? va then mret 0
  else
    pte ← walk pagetable va false;
    if pte =? 0 then mret 0
    else
      v ← ld64 pte;
      if negb (has v PTE_V) then mret 0
      else if negb (has v PTE_U) then mret 0
      else mret (PTE2PA v).

(** The [for(;;)] of mappages.  It stops at [last], which it reaches after
    [size / PGSIZE] iterations; that is the fuel given below. *)
Fixpoint mappages_loop (fuel : nat) (pagetable a last pa perm : Z) : M kmem Z :=
  match fuel with
  | O => nofuel
  | S fuel =>
      pte ← walk pagetable a true;
      if pte =? 0 then mret (-1)
      else
        v ← ld64 pte;
        if has v PTE_V then panic "mappages: remap"
        else
          st64 pte (Z.lor (Z.lor (PA2PTE pa) perm) PTE_V);;
          if a =? last then mret 0
          else mappages_loop fuel pagetable (w64 (a + PGSIZE)) last (w64 (pa + PGSIZE)) perm
  end.

Definition mappages (pagetable va size pa perm : Z) : M kmem Z :=
  if negb (va mod PGSIZE =? 0) then panic "mappages: va not aligned"
  else if negb (size mod PGSIZE =? 0) then panic "mappages: size not aligned"
  else if size =? 0 then panic "mappages: size"
  else mappages_loop (Z.to_nat (size / PGSIZE)) pagetable va (w64 (va + size - PGSIZE)) pa perm.

Definition kvmmap (kpgtbl va pa sz perm : Z) : M kmem unit :=
  r ← mappages kpgtbl va sz pa perm;
  if negb (r =? 0) then panic "kvmmap" else skip.

Definition uvmcreate : M kmem Z :=
  pagetable ← kalloc;
  if pagetable =? 0 then mret 0
  else do_memset pagetable 0 PGSIZE;; mret pagetable.

(** One iteration of uvmunmap, for the page at [a]. *)
Definition unmap_page (pagetable a : Z) (do_free : bool) : M kmem unit :=
  pte ← walk pagetable a false;
  if pte =? 0 then skip
  else
    v ← ld64 pte;
    if negb (has v PTE_V) then skip
    else
      (when do_free do kfree (PTE2PA v));;
      st64 pte 0.

(** [for(a = va; a < va + npages*PGSIZE; a += PGSIZE)]: [npages] rounds. *)
Fixpoint uvmunmap_loop (fuel : nat) (pagetable a bound : Z) (do_free : bool) : M kmem unit :=
  if negb (a <? bound) then skip
  else
    match fuel with
    | O => nofuel
    | S fuel =>
        unmap_page pagetable a do_free;;
        uvmunmap_loop fuel pagetable (w64 (a + PGSIZE)) bound do_free
    end.

Definition uvmunmap (pagetable va npages : Z) (do_free : bool) : M kmem unit :=
  if negb (va mod PGSIZE =? 0) then panic "uvmunmap: not aligned"
  else
    uvmunmap_loop (Z.to_nat npages) pagetable va (w64 (va + npages * PGSIZE)) do_free.

Definition uvmdealloc (pagetable oldsz newsz : Z) : M kmem Z :=
  if oldsz <=? newsz then mret oldsz
  else
    (if PGROUNDUP newsz <? PGROUNDUP oldsz then
       let npages := s32 (w64 (PGROUNDUP oldsz - PGROUNDUP newsz) / PGSIZE) in
       uvmunmap pagetable (PGROUNDUP newsz) (w64 npages) true
     else skip);;
    mret newsz.

(** The loop of uvmalloc from [a] to [newsz]. *)
Fixpoint uvmalloc_loop (fuel : nat) (pagetable oldsz a newsz xperm : Z) : M kmem Z :=
  if negb (a <? newsz) then mret newsz
  else
    match fuel with
    | O => nofuel
    | S fuel =>
        mem ← kalloc;
        if mem =? 0 then uvmdealloc pagetable a oldsz;; mret 0
        else
          do_memset mem 0 PGSIZE;;
          r ← mappages pagetable a PGSIZE mem (Z.lor (Z.lor PTE_R PTE_U) xperm);
          if negb (r =? 0) then kfree mem;; uvmdealloc pagetable a oldsz;; mret 0
          else uvmalloc_loop fuel pagetable oldsz (w64 (a + PGSIZE)) newsz xperm
    end.

Definition uvmalloc (pagetable oldsz newsz xperm : Z) : M kmem Z :=
  if newsz <? oldsz then mret oldsz
  else
    let oldsz := PGROUNDUP oldsz in
    uvmalloc_loop (Z.to_nat ((newsz - oldsz) / PGSIZE + 1)) pagetable oldsz oldsz newsz xperm.

(** The 512 iterations of freewalk on one page-table page; [rec] is the
    recursive call on a lower-level table. *)
Fixpoint freewalk_loop (rec : Z -> M kmem unit) (n : nat) (i pagetable : Z) : M kmem unit :=
  match n with
  | O => skip
  | S n =>
      pte ← ld64 (pagetable + 8 * i);
      (if has pte PTE_V && (Z.land pte (Z.lor (Z.lor PTE_R PTE_W) PTE_X) =? 0) then
         rec (PTE2PA pte);; st64 (pagetable + 8 * i) 0
       else if has pte PTE_V then
         if PTE_FLAGS pte =? PTE_V then panic "freewalk: not a leaf"
         else kfree (PTE2PA pte);; st64 (pagetable + 8 * i) 0
       else skip);;
      freewalk_loop rec n (i + 1) pagetable
  end.

Fixpoint freewalk (depth : nat) (pagetable : Z) : M kmem unit :=
  match depth with
  | O => nofuel
  | S depth => freewalk_loop (freewalk depth) 512 0 pagetable;; kfree pagetable
  end.

Definition uvmfree (pagetable sz : Z) : M kmem unit :=
  (when 0 <? sz do uvmunmap pagetable 0 (PGROUNDUP sz / PGSIZE) true);;
  freewalk 3 pagetable.

Fixpoint uvmcopy_loop (fuel : nat) (old new i sz : Z) : M kmem Z :=
  if negb (i <? sz) then mret 0
  else
    match fuel with
    | O => nofuel
    | S fuel =>
        let next := uvmcopy_loop fuel old new (w64 (i + PGSIZE)) sz in
        let err := uvmunmap new 0 (i / PGSIZE) true;; mret (-1) in
        pte ← walk old i false;
        if pte =? 0 then next
        else
          v ← ld64 pte;
          if negb (has v PTE_V) then next
          else
            mem ← kalloc;
            if mem =? 0 then err
            else
              do_memmove mem (PTE2PA v) PGSIZE;;
              r ← mappages new i PGSIZE mem (PTE_FLAGS v);
              if negb (r =? 0) then kfree mem;; err else next
    end.

Definition uvmcopy (old new sz : Z) : M kmem Z :=
  uvmcopy_loop (Z.to_nat (PGROUNDUP sz / PGSIZE)) old new 0 sz.

Definition uvmclear (pagetable va : Z) : M kmem unit :=
  pte ← walk pagetable va false;
  if pte =? 0 then panic "uvmclear"
  else v ← ld64 pte; st64 pte (Z.land v (Z.lnot PTE_U)).

Definition ismapped (pagetable va : Z) : M kmem bool :=
  pte ← walk pagetable va false;
  if pte =? 0 then mret false
  else v ← ld64 pte; if has v PTE_V then mret true else mret false.

Definition uvmalloc_lazy (pagetable oldsz newsz perm : Z) : M kmem Z := mret newsz.
End vm.
