(* ===== verification/PageTable.v ===== *)
(** * The page-table tree and the abstract page table

    [pt_inv m root N] says that the page-table pages recorded in [N] form, in
    memory [m], the Sv39 tree rooted at [root].  A key [(level, k)] of [N] is
    the table that walk visits at that level for the addresses whose page
    number has prefix [k].  [leaf_pte m N v] is the entry for page number [v].
    The lemmas here give walk its meaning on that abstraction. *)
From S2P Require Import Prelude Mem Riscv Kalloc Vm.
From stdpp Require Import base tactics numbers list strings gmap.
From Stdlib Require Import ZArith Lia.

Open Scope Z_scope.

Abbreviation nodemap := (gmap (Z * Z) Z).

Definition is_node (N : nodemap) (p : Z) : Prop := exists key, N !! key = Some p.

Definition valid_key (key : Z * Z) : Prop :=
  match key with
  | (l, k) => (l = 2 /\ k = 0) \/ (l = 1 /\ 0 <= k < 512) \/ (l = 0 /\ 0 <= k < 512 * 512)
  end.

Definition leaf_addr (N : nodemap) (v : Z) : option Z :=
  (fun t => t + 8 * (v mod 512)) <$> N !! (0, v / 512).

Definition leaf_pte (m : gmap Z Z) (N : nodemap) (v : Z) : Z :=
  match leaf_addr N v with Some a => load64 m a | None => 0 end.

Section pagetable.
Context {KL : KernelLayout}.

Record pt_inv (m : gmap Z Z) (root : Z) (N : nodemap) : Prop := {
  pt_root : N !! (2, 0) = Some root;
  pt_dom : forall key t, N !! key = Some t -> valid_key key;
  pt_ok : forall key t, N !! key = Some t -> page_ok t;
  pt_inj : forall k1 k2 t, N !! k1 = Some t -> N !! k2 = Some t -> k1 = k2;
  pt_parent : forall l k t, l < 2 -> N !! (l, k) = Some t -> is_Some (N !! (l + 1, k / 512));
  pt_child : forall l k t i, 0 < l -> N !! (l, k) = Some t -> 0 <= i < 512 ->
    let pte := load64 m (t + 8 * i) in
    if has pte PTE_V
    then N !! (l - 1, k * 512 + i) = Some (PTE2PA pte) /\ PTE_FLAGS pte = PTE_V
    else N !! (l - 1, k * 512 + i) = None
}.

Lemma word_in_page i : 0 <= i < 512 -> 0 <= 8 * i /\ 8 * i + 8 <= PGSIZE.
Proof. unfold PGSIZE. lia. Qed.

(** ** Frame: writes outside the interior tables keep the tree *)

Lemma pt_inv_frame P m m' root N :
  frame P m m' -> (forall l k t, 0 < l -> N !! (l, k) = Some t -> ~ P t) ->
  pt_inv m root N -> pt_inv m' root N.
Proof.
  intros HF HP [? ? Hok ? ? Hc]. constructor; try done.
  intros l k t i Hl Ht Hi. rewrite (load64_frame P m m' t (8 * i)); try apply word_in_page; try done.
  - by eapply Hc.
  - by eapply page_ok_aligned, Hok.
  - by eapply HP.
Qed.

Lemma leaf_pte_frame P m m' root N v :
  frame P m m' -> (forall k t, N !! (0, k) = Some t -> ~ P t) ->
  pt_inv m root N -> leaf_pte m' N v = leaf_pte m N v.
Proof.
  intros HF HP Hpt. unfold leaf_pte, leaf_addr.
  destruct (N !! (0, v / 512)) as [t|] eqn:E; simpl; [|done].
  pose proof (word_in_page (v mod 512) (Z.mod_pos_bound v 512 ltac:(lia))).
  eapply load64_frame; try done; try lia; [|by eapply HP].
  eapply page_ok_aligned, pt_ok; done.
Qed.

(** ** Writing a leaf entry *)

Lemma leaf_addr_Some N v a :
  leaf_addr N v = Some a -> exists t, N !! (0, v / 512) = Some t /\ a = t + 8 * (v mod 512).
Proof. unfold leaf_addr. destruct (N !! (0, v / 512)); simpl; naive_solver. Qed.

Lemma leaf_addr_pos m root N v a : pt_inv m root N -> leaf_addr N v = Some a -> 0 < a.
Proof.
  intros Hpt (t & Ht & ->)%leaf_addr_Some.
  pose proof (page_ok_pos _ (pt_ok _ _ _ Hpt _ _ Ht)).
  pose proof (Z.mod_pos_bound v 512 ltac:(lia)). lia.
Qed.

Lemma leaf_store_frame m root N v a pte :
  pt_inv m root N -> leaf_addr N v = Some a ->
  exists t, N !! (0, v / 512) = Some t /\ frame (eq t) m (store64 m a pte).
Proof.
  intros Hpt (t & Ht & ->)%leaf_addr_Some. exists t. split; [done|].
  pose proof (word_in_page (v mod 512) (Z.mod_pos_bound v 512 ltac:(lia))).
  apply frame_store64; [|lia..]. eapply page_ok_aligned, pt_ok; done.
Qed.

Lemma leaf_store_inv m root N v a pte :
  pt_inv m root N -> leaf_addr N v = Some a -> pt_inv (store64 m a pte) root N.
Proof.
  intros Hpt Ha. destruct (leaf_store_frame m root N v a pte Hpt Ha) as (t & Ht & HF).
  eapply pt_inv_frame; [done| |done].
  intros l k t' Hl Ht' <-. pose proof (pt_inj _ _ _ Hpt _ _ _ Ht Ht') as [=]. lia.
Qed.

Lemma leaf_store_pte m root N v a pte u :
  pt_inv m root N -> leaf_addr N v = Some a -> 0 <= pte < 2 ^ 64 ->
  leaf_pte (store64 m a pte) N u = if decide (u = v) then pte else leaf_pte m N u.
Proof.
  intros Hpt Ha Hp. case_decide as E.
  { subst. unfold leaf_pte. rewrite Ha. by apply load64_store64_eq. }
  destruct (leaf_store_frame m root N v a pte Hpt Ha) as (t & Ht & HF).
  apply leaf_addr_Some in Ha as (t' & Ht' & ->). rewrite Ht' in Ht. simplify_eq.
  unfold leaf_pte. destruct (leaf_addr N u) as [b|] eqn:Eb; [|done].
  apply leaf_addr_Some in Eb as (t' & Ht & ->).
  pose proof (Z.mod_pos_bound u 512 ltac:(lia)). pose proof (Z.mod_pos_bound v 512 ltac:(lia)).
  destruct (decide (u / 512 = v / 512)) as [Ed|Ed].
  - rewrite Ed in Ht. rewrite Ht' in Ht. simplify_eq.
    apply load64_store64_ne. pose proof (Z.div_mod u 512). pose proof (Z.div_mod v 512). lia.
  - pose proof (word_in_page (u mod 512) ltac:(lia)).
    eapply load64_frame; [done| |lia..|].
    + eapply page_ok_aligned, pt_ok; done.
    + intros ->. pose proof (pt_inj _ _ _ Hpt _ _ _ Ht' Ht). by simplify_eq.
Qed.

(** ** Hooking a fresh, zeroed table into the tree *)

Lemma has_make_V pa f : has (Z.lor (Z.lor (PA2PTE pa) f) PTE_V) PTE_V = true.
Proof. rewrite has_lor. apply orb_true_r. Qed.

Lemma link_pte pa : page_ok pa ->
  let pte := Z.lor (PA2PTE pa) PTE_V in
  0 <= pte < 2 ^ 64 /\ has pte PTE_V = true /\ PTE2PA pte = pa /\ PTE_FLAGS pte = PTE_V.
Proof.
  intros Hok. pose proof (page_ok_range _ Hok). destruct Hok as [Ha _]. split_and!.
  - apply pte_make_range; [done|lia|flags].
  - apply pte_make_range; [done|lia|flags].
  - rewrite has_lor. apply orb_true_r.
  - apply PTE2PA_make; [done|lia|flags].
  - apply PTE_FLAGS_make; [done|lia|flags].
Qed.

Section link.
Context (m m1 : gmap Z Z) (root : Z) (N : nodemap) (l k t i p : Z).
Hypothesis Hpt : pt_inv m root N.
Hypothesis Hl : 0 < l <= 2.
Hypothesis Ht : N !! (l, k) = Some t.
Hypothesis Hi : 0 <= i < 512.
Hypothesis Hmax : l = 2 -> i < 512.
Hypothesis Hnone : N !! (l - 1, k * 512 + i) = None.
Hypothesis Hok : page_ok p.
Hypothesis Hfresh : ~ is_node N p.
Hypothesis HF : frame (eq p) m m1.
Hypothesis Hz : zero_page m1 p.
Let N' : nodemap := <[(l - 1, k * 512 + i) := p]> N.
Let m' := store64 m1 (t + 8 * i) (Z.lor (PA2PTE p) PTE_V).

Lemma link_t_ne : t <> p.
Proof using All. intros ->. apply Hfresh. by eexists. Qed.

Lemma link_zero : zero_page m' p.
Proof using All.
  intros x Hx. unfold m'. rewrite mget_store64_ne; [by apply Hz|].
  pose proof (word_in_page i Hi). pose proof link_t_ne.
  assert (aligned t) by (eapply page_ok_aligned, pt_ok; done).
  destruct (decide (t + 8 * i <= x < t + 8 * i + 8)); [|lia]. exfalso.
  apply link_t_ne. rewrite <- (page_of_unique t x) by (done || lia).
  apply page_of_unique; [apply Hok|lia].
Qed.

Lemma link_frame : frame (fun q => q = p \/ q = t) m m'.
Proof using All.
  intros x Hx. unfold m'. rewrite mget_store64_ne.
  - apply HF. naive_solver.
  - pose proof (word_in_page i Hi).
    assert (aligned t) by (eapply page_ok_aligned, pt_ok; done).
    destruct (decide (t + 8 * i <= x < t + 8 * i + 8)); [|lia]. exfalso.
    apply Hx. right. apply page_of_unique; [done|lia].
Qed.

(** Entries of the tables of [N] other than the one written. *)
Lemma link_load key q j :
  N !! key = Some q -> 0 <= j < 512 -> (q, j) <> (t, i) ->
  load64 m' (q + 8 * j) = load64 m (q + 8 * j).
Proof using All.
  intros Hq Hj Hne. pose proof (word_in_page j Hj). pose proof (word_in_page i Hi).
  assert (aligned q) by (eapply page_ok_aligned, pt_ok; done).
  assert (aligned t) by (eapply page_ok_aligned, pt_ok; done).
  assert (q <> p) by (intros ->; apply Hfresh; by eexists).
  unfold m'. rewrite load64_store64_ne.
  - eapply load64_frame; try done; lia.
  - destruct (decide (q = t)) as [->|Hqt].
    + assert (j <> i) by congruence. lia.
    + apply aligned_mult in H1 as [a ->], H2 as [b ->]. unfold PGSIZE in *. lia.
Qed.

Lemma link_leaf_pte u : leaf_pte m' N' u = leaf_pte m N u.
Proof using All.
  unfold leaf_pte, leaf_addr, N'. pose proof (Z.mod_pos_bound u 512 ltac:(lia)).
  rewrite lookup_insert. case_decide as E; simpl.
  - injection E as E1 E2. pose proof Hnone as Hn. rewrite E1, E2 in Hn. rewrite Hn. simpl.
    pose proof (word_in_page (u mod 512) ltac:(lia)).
    apply zero_page_load64; [apply link_zero|lia..].
  - destruct (N !! (0, u / 512)) as [q|] eqn:Eq; simpl; [|done].
    eapply link_load; [done|lia|]. intros [= -> _].
    pose proof (pt_inj _ _ _ Hpt _ _ _ Ht Eq) as [=]. lia.
Qed.

Lemma link_pt_inv : pt_inv m' root N'.
Proof using All.
  destruct (link_pte p Hok) as (Hr & HV & HPA & HFL).
  pose proof (pt_dom _ _ _ Hpt _ _ Ht) as Hvk.
  constructor.
  - unfold N'. rewrite lookup_insert_ne; [apply Hpt|]. intros [=]. lia.
  - intros key q. unfold N'. rewrite lookup_insert. case_decide as E.
    + intros [= <-]. subst key. simpl in Hvk |- *. lia.
    + apply Hpt.
  - intros key q. unfold N'. rewrite lookup_insert. case_decide; [naive_solver|]. apply Hpt.
  - intros k1 k2 q. unfold N'. rewrite !lookup_insert. repeat case_decide; intros; simplify_eq; try done.
    + exfalso. apply Hfresh. by eexists.
    + exfalso. apply Hfresh. by eexists.
    + by eapply pt_inj.
  - intros l' k' q Hl'. unfold N'. rewrite lookup_insert. case_decide as E.
    + intros [= <-]. injection E as <- <-.
      rewrite lookup_insert_ne by (intros [=]; lia).
      replace (l - 1 + 1) with l by lia.
      rewrite Z.div_add_l, (Z.div_small i), Z.add_0_r by lia. by eexists.
    + intros Hq. destruct (pt_parent _ _ _ Hpt _ _ _ Hl' Hq) as [q' Hq'].
      rewrite lookup_insert. case_decide; by eexists.
  - intros l' k' q j Hl' Hq Hj. cbv zeta. unfold N' in Hq. rewrite lookup_insert in Hq.
    case_decide as E.
    + injection E as <- <-. injection Hq as <-.
      pose proof (word_in_page j Hj).
      rewrite (zero_page_load64 m' p (8 * j)); [|apply link_zero|lia..].
      change (has 0 PTE_V) with false. cbv iota. unfold N'.
      rewrite lookup_insert_ne by (intros [=]; lia).
      destruct (N !! (l - 1 - 1, (k * 512 + i) * 512 + j)) as [q'|] eqn:Eq'; [|done]. exfalso.
      apply (pt_parent _ _ _ Hpt) in Eq'; [|lia].
      replace (l - 1 - 1 + 1) with (l - 1) in Eq' by lia.
      rewrite Z.div_add_l, (Z.div_small j), Z.add_0_r in Eq' by lia.
      rewrite Hnone in Eq'. by destruct Eq'.
    + destruct (decide ((q, j) = (t, i))) as [Eqj|Hne].
      * injection Eqj as -> ->. pose proof (pt_inj _ _ _ Hpt _ _ _ Ht Hq) as Ek.
        injection Ek as <- <-. unfold m'. rewrite load64_store64_eq by done.
        rewrite HV, HPA, HFL. unfold N'. by rewrite lookup_insert_eq.
      * rewrite (link_load _ _ _ Hq Hj Hne).
        pose proof (pt_child _ _ _ Hpt l' k' q j Hl' Hq Hj) as Hc. cbv zeta in Hc.
        unfold N'. rewrite lookup_insert. case_decide as E2; [|done].
        injection E2 as E3 E4.
        assert (l' = l /\ k' = k /\ j = i) as (-> & -> & ->) by lia.
        rewrite Ht in Hq. naive_solver.
Qed.
End link.

(** ** The state of one address space *)

(** Page table and allocator together: table pages are not free. *)
Record pt_world (s : kmem) (root : Z) (N : nodemap) (l : list Z) : Prop := {
  pw_pt : pt_inv (phys s) root N;
  pw_km : kmem_inv s l;
  pw_disj : forall p, is_node N p -> p ∉ l
}.

(** What an operation that may allocate table pages leaves unchanged: the
    tree only grows, by pages from the free list, and only table pages are
    written. *)
Record pt_grows (s : kmem) (N : nodemap) (l : list Z) (s' : kmem) (N' : nodemap) (l' : list Z)
  : Prop := {
  pg_sub : N ⊆ N';
  pg_suffix : exists taken, l = taken ++ l';
  pg_from : forall p, is_node N' p -> is_node N p \/ (p ∈ l /\ p ∉ l');
  pg_taken : forall p, p ∈ l -> p ∈ l' \/ is_node N' p;
  pg_frame : frame (is_node N') (phys s) (phys s')
}.

Lemma is_node_mono (N N' : nodemap) p : N ⊆ N' -> is_node N p -> is_node N' p.
Proof. intros Hs [key Hk]. exists key. by eapply lookup_weaken. Qed.

Lemma pt_grows_refl s N l : pt_grows s N l s N l.
Proof. constructor; [done|by exists []|by left|by left|by apply frame_refl]. Qed.

Lemma pt_grows_trans s1 N1 l1 s2 N2 l2 s3 N3 l3 :
  NoDup l1 ->
  pt_grows s1 N1 l1 s2 N2 l2 -> pt_grows s2 N2 l2 s3 N3 l3 -> pt_grows s1 N1 l1 s3 N3 l3.
Proof.
  intros Hnd [A1 [t1 ->] C1 T1 D1] [A2 [t2 ->] C2 T2 D2].
  apply NoDup_app in Hnd as (_ & Hd & _). constructor.
  - by etrans.
  - exists (t1 ++ t2). by rewrite app_assoc.
  - intros p Hp. apply C2 in Hp as [Hp|Hp].
    + apply C1 in Hp as [Hp|[Hp1 Hp2]]; [by left|right]. set_solver.
    + right. split; [set_solver|]. apply Hp.
  - intros p [Hp|Hp]%T1; [by apply T2|right]. by eapply is_node_mono.
  - eapply frame_seq; [|exact D2]. eapply frame_mono; [exact D1|].
    intros p. by apply is_node_mono.
Qed.

(** Prefix of a page number at a level of the walk. *)
Definition prefix (level : nat) (va : Z) : Z := vpn va / 512 ^ (Z.of_nat level + 1).

Lemma prefix_step level va :
  0 <= va < MAXVA -> (level < 2)%nat ->
  prefix (S level) va * 512 + PX (Z.of_nat (S level)) va = prefix level va.
Proof.
  intros Hva Hl. unfold prefix.
  replace (PX (Z.of_nat (S level)) va)
    with (vpn va / 512 ^ (Z.of_nat level + 1) mod 512).
  - replace (Z.of_nat (S level) + 1) with (Z.of_nat level + 1 + 1) by lia.
    rewrite (Z.pow_add_r 512 (Z.of_nat level + 1) 1) by lia. rewrite Z.pow_1_r.
    rewrite <- Z.div_div by lia.
    pose proof (Z.div_mod (vpn va / 512 ^ (Z.of_nat level + 1)) 512). lia.
  - destruct level as [|[|]]; [..|lia].
    + change (Z.of_nat 1) with 1. by rewrite PX1_vpn.
    + change (Z.of_nat 2) with 2. rewrite PX2_vpn by done.
      change (512 ^ (Z.of_nat 1 + 1)) with (512 * 512).
      rewrite <- Z.div_div by lia. rewrite Z.mod_small; [done|].
      unfold vpn, PGSIZE. rewrite !Z.div_div by lia. change MAXVA with (2 ^ 38) in Hva.
      split; [apply Z.div_pos; lia|apply Z.div_lt_upper_bound; lia].
Qed.

Lemma prefix_0 va : prefix 0 va = vpn va / 512.
Proof. done. Qed.
Lemma prefix_2 va : 0 <= va < MAXVA -> prefix 2 va = 0.
Proof.
  intros Hva. unfold prefix, vpn, PGSIZE. change (512 ^ (Z.of_nat 2 + 1)) with (512 * 512 * 512).
  rewrite Z.div_div by lia. apply Z.div_small. change MAXVA with (2 ^ 38) in Hva. lia.
Qed.

(** ** walk *)

Lemma walk_child m root N level va t :
  pt_inv m root N -> 0 <= va < MAXVA -> (level < 2)%nat ->
  N !! (Z.of_nat (S level), prefix (S level) va) = Some t ->
  let pte := load64 m (t + 8 * PX (Z.of_nat (S level)) va) in
  if has pte PTE_V then N !! (Z.of_nat level, prefix level va) = Some (PTE2PA pte)
  else N !! (Z.of_nat level, prefix level va) = None.
Proof.
  intros Hpt Hva Hl Ht pte.
  assert (0 < Z.of_nat (S level)) as Hpos by lia.
  assert (0 <= Z.of_nat (S level)) as Hpos' by lia.
  pose proof (pt_child _ _ _ Hpt _ _ _ _ Hpos Ht (PX_range _ va Hpos')) as Hc. cbv zeta in Hc.
  rewrite prefix_step in Hc by done.
  replace (Z.of_nat (S level) - 1) with (Z.of_nat level) in Hc by lia.
  fold pte in Hc. destruct (has pte PTE_V); [apply Hc|done].
Qed.

Lemma walk_no_leaf m root N level va :
  pt_inv m root N -> (level < 2)%nat -> N !! (Z.of_nat level, prefix level va) = None ->
  leaf_addr N (vpn va) = None.
Proof.
  intros Hpt Hl Hc. unfold leaf_addr.
  destruct (N !! (0, vpn va / 512)) as [t0|] eqn:E0; [|done]. exfalso.
  destruct level as [|[|]]; [..|lia].
  - rewrite prefix_0 in Hc. change (Z.of_nat 0) with 0 in Hc. congruence.
  - apply (pt_parent _ _ _ Hpt) in E0 as [t1 E1]; [|lia].
    change (0 + 1) with 1 in E1. change (Z.of_nat 1) with 1 in Hc.
    unfold prefix in Hc. change (512 ^ (Z.of_nat 1 + 1)) with (512 * 512) in Hc.
    rewrite <- Z.div_div in Hc by lia. congruence.
Qed.

(** The address walk returns without allocating. *)
Definition leaf_ptr (N : nodemap) (v : Z) : Z := default 0 (leaf_addr N v).

Lemma walk_loop_noalloc level va t s root N :
  pt_inv (phys s) root N -> 0 <= va < MAXVA -> (level <= 2)%nat ->
  N !! (Z.of_nat level, prefix level va) = Some t ->
  walk_loop level t va false s = Ret (leaf_ptr N (vpn va)) s.
Proof.
  intros Hpt Hva. revert t. induction level as [|level IH]; intros t Hl Ht.
  - cbn [walk_loop]. unfold leaf_ptr, leaf_addr. rewrite prefix_0 in Ht.
    change (Z.of_nat 0) with 0 in Ht. rewrite Ht. simpl. by rewrite PX0_vpn.
  - cbn [walk_loop]. unfold mbind, M_bind, ld64, gets. cbv beta iota zeta.
    pose proof (walk_child _ _ _ level va t Hpt Hva ltac:(lia) Ht) as Hc. cbv zeta in Hc.
    destruct (has _ PTE_V).
    + by rewrite IH by (done || lia).
    + simpl. unfold leaf_ptr. erewrite walk_no_leaf; [done..| |done]. lia.
Qed.

Lemma walk_noalloc va s root N :
  pt_inv (phys s) root N -> 0 <= va < MAXVA ->
  walk root va false s = Ret (leaf_ptr N (vpn va)) s.
Proof.
  intros Hpt Hva. unfold walk. destruct (Z.leb_spec MAXVA va); [lia|].
  apply (walk_loop_noalloc 2 va root s root); try done.
  rewrite prefix_2 by done. apply Hpt.
Qed.

(** walk hooks the fresh page [p] under [t] and goes on. *)
Lemma walk_link s s1 root N p l1 level va t :
  pt_world s root N (p :: l1) -> 0 <= va < MAXVA -> (level < 2)%nat ->
  N !! (Z.of_nat (S level), prefix (S level) va) = Some t ->
  N !! (Z.of_nat level, prefix level va) = None ->
  page_ok p -> kmem_inv s1 l1 -> frame (eq p) (phys s) (phys s1) ->
  let s2 := set_phys (fun m => store64 m (t + 8 * PX (Z.of_nat (S level)) va) (Z.lor (PA2PTE p) PTE_V))
              (set_phys (fun m => memset m p 0 PGSIZE) s1) in
  let N2 := <[(Z.of_nat level, prefix level va) := p]> N in
  pt_world s2 root N2 l1 /\ pt_grows s N (p :: l1) s2 N2 l1 /\
  (forall v, leaf_pte (phys s2) N2 v = leaf_pte (phys s) N v).
Proof.
  intros [Hpt Hkm Hdj] Hva Hl Ht Hn Hok Hkm1 HF. cbv zeta. simpl.
  set (i := PX (Z.of_nat (S level)) va).
  assert (0 <= i < 512) as Hi by (apply PX_range; lia).
  assert (~ is_node N p) as Hfresh by (intros Hnp; apply (Hdj p Hnp), elem_of_cons; by left).
  assert (frame (eq p) (phys s) (memset (phys s1) p 0 PGSIZE)) as HF'
    by (eapply frame_seq; [exact HF|apply frame_memset, Hok]).
  pose proof (memset_zero_page (phys s1) p) as Hz.
  assert (0 < Z.of_nat (S level) <= 2) as Hlev by lia.
  assert (Z.of_nat (S level) - 1 = Z.of_nat level) as Elev by lia.
  assert (N !! (Z.of_nat (S level) - 1, prefix (S level) va * 512 + i) = None) as Hn'
    by (unfold i; rewrite prefix_step by done; by rewrite Elev).
  pose proof (link_pt_inv _ _ _ _ _ _ _ _ _ Hpt Hlev Ht Hi (fun _ => proj2 Hi) Hn' Hok Hfresh HF' Hz) as L1.
  pose proof (link_leaf_pte _ _ _ _ _ _ _ _ _ Hpt Hlev Ht Hi (fun _ => proj2 Hi) Hn' Hok Hfresh HF' Hz) as L2.
  pose proof (link_frame _ _ _ _ _ _ _ _ _ Hpt Hlev Ht Hi (fun _ => proj2 Hi) Hn' Hok Hfresh HF' Hz) as L3.
  unfold i in L1, L2. rewrite prefix_step in L1, L2 by done. rewrite Elev in L1, L2.
  assert (is_node N t) as Hnt by by eexists.
  assert (forall q, is_node (<[(Z.of_nat level, prefix level va) := p]> N) q -> is_node N q \/ q = p) as Hnew.
  { intros q [key Hq]. rewrite lookup_insert in Hq. case_decide; [right; congruence|left; by eexists]. }
  destruct Hkm as [_ Hnd]. apply NoDup_cons in Hnd as [Hpl Hnd].
  split_and!; [constructor|constructor|]; try done.
  - eapply (kmem_inv_frame (fun q => q = p \/ q = t) s1); simpl; [done| |intros q Hq|done].
    + intros x Hx. etrans; [apply L3; done|]. symmetry. apply HF. naive_solver.
    + intros [->| ->]; [done|]. apply (Hdj t Hnt), elem_of_cons. by right.
  - intros q Hq. apply Hnew in Hq as [Hq| ->]; [|done].
    intros Hql. apply (Hdj q Hq), elem_of_cons. by right.
  - by apply insert_subseteq.
  - by exists [p].
  - intros q Hq. apply Hnew in Hq as [Hq| ->]; [by left|right]. split; [apply elem_of_cons; by left|done].
  - intros q [->|Hq]%elem_of_cons; [right|by left]. eexists. apply lookup_insert_eq.
  - eapply frame_mono; [exact L3|]. simpl. intros q [->| ->].
    + eexists. apply lookup_insert_eq.
    + eapply is_node_mono; [by apply insert_subseteq|done].
Qed.

(** What walk with [alloc] set guarantees. *)
Definition walk_post (root va : Z) (s : kmem) (N : nodemap) (l : list Z) (r : Z) (s' : kmem) : Prop :=
  exists N' l',
    pt_world s' root N' l' /\ pt_grows s N l s' N' l' /\
    (forall v, leaf_pte (phys s') N' v = leaf_pte (phys s) N v) /\
    ((r = 0 /\ l' = [] /\ leaf_addr N' (vpn va) = None) \/ leaf_addr N' (vpn va) = Some r).

Lemma walk_post_trans root va s1 N1 l1 s2 N2 l2 r s' :
  NoDup l1 -> pt_grows s1 N1 l1 s2 N2 l2 ->
  (forall v, leaf_pte (phys s2) N2 v = leaf_pte (phys s1) N1 v) ->
  walk_post root va s2 N2 l2 r s' -> walk_post root va s1 N1 l1 r s'.
Proof.
  intros Hnd HG HL (N' & l' & A & B & C & D). exists N', l'. split_and!; try done.
  - by eapply pt_grows_trans.
  - intros v. by rewrite C.
Qed.

Lemma walk_loop_alloc level va t s root N l :
  pt_world s root N l -> 0 <= va < MAXVA -> (level <= 2)%nat ->
  N !! (Z.of_nat level, prefix level va) = Some t ->
  wp (walk_loop level t va true) (walk_post root va s N l) s.
Proof.
  revert t s N l. induction level as [|level IH]; intros t s N l HW Hva Hl Ht.
  - cbn [walk_loop]. apply wp_ret. exists N, l.
    split_and!; [done|apply pt_grows_refl|done|right].
    unfold leaf_addr. rewrite prefix_0 in Ht. change (Z.of_nat 0) with 0 in Ht. rewrite Ht.
    simpl. by rewrite PX0_vpn.
  - pose proof HW as [Hpt Hkm Hdj].
    pose proof (walk_child _ _ _ level va t Hpt Hva ltac:(lia) Ht) as Hc. cbv zeta in Hc.
    cbn [walk_loop]. km_steps. destruct (has _ PTE_V) eqn:EV.
    + apply IH; [done..|lia|done].
    + cbn [negb]. km_steps. eapply wp_mono; [by apply kalloc_cases|].
      intros p s1 [(-> & -> & ->)|(l1 & -> & Hpok & Hkm1 & HF1)].
      * simpl. apply wp_ret. exists N, []. split_and!; [done|apply pt_grows_refl|done|left].
        split_and!; try done. eapply walk_no_leaf; [done| |done]. lia.
      * pose proof (page_ok_pos _ Hpok). destruct (Z.eqb_spec p 0); [lia|]. km_steps.
        destruct (walk_link s s1 root N p l1 level va t) as (W2 & G2 & L2); try done; try lia.
        eapply wp_mono; [apply IH; [exact W2|done|lia|apply lookup_insert_eq]|].
        intros r s'. apply walk_post_trans; [apply Hkm|done|done].
Qed.

Lemma walk_alloc va s root N l :
  pt_world s root N l -> 0 <= va < MAXVA ->
  wp (walk root va true) (walk_post root va s N l) s.
Proof.
  intros HW Hva. unfold walk. destruct (Z.leb_spec MAXVA va); [lia|].
  apply walk_loop_alloc; try done. rewrite prefix_2 by done. apply HW.
Qed.
End pagetable.
