(* ===== verification/VmSpec.v ===== *)
(** * Specifications of the page-table operations

    [as_inv] is the invariant of a user address space: its page-table tree,
    the allocator's free list, and the map [F] from virtual page numbers to
    the physical pages the address space owns.  Each operation of vm.c that
    changes a page table preserves it, with its effect on [F], on the leaf
    entries and on the free list. *)
From S2P Require Import Prelude Mem Riscv Kalloc Vm PageTable.
From stdpp Require Import base tactics numbers list strings gmap.
From Stdlib Require Import ZArith Lia.

Open Scope Z_scope.

(** The entry mappages writes. *)
Definition mapped_pte (pa perm : Z) : Z := Z.lor (Z.lor (PA2PTE pa) perm) PTE_V.

Section vmspec.
Context {KL : KernelLayout}.

Lemma lor_V_range perm : 0 <= perm < 1024 -> 0 <= Z.lor perm PTE_V < 1024.
Proof.
  intros H. assert (0 <= Z.lor perm PTE_V) by (apply Z.lor_nonneg; flags).
  split; [done|]. apply Z.log2_lt_cancel. change (Z.log2 1024) with 10.
  rewrite Z.log2_lor by flags. change (Z.log2 PTE_V) with 0.
  apply Z.max_lub_lt; [|lia]. destruct (decide (perm = 0)) as [->|]; [simpl; lia|].
  apply Z.log2_lt_pow2; lia.
Qed.

Lemma mapped_pte_spec pa perm :
  aligned pa -> 0 <= pa < 2 ^ 56 -> 0 <= perm < 1024 ->
  0 <= mapped_pte pa perm < 2 ^ 64 /\ has (mapped_pte pa perm) PTE_V = true /\
  PTE2PA (mapped_pte pa perm) = pa /\ PTE_FLAGS (mapped_pte pa perm) = Z.lor perm PTE_V.
Proof.
  intros Ha Hpa Hperm. unfold mapped_pte. rewrite <- Z.lor_assoc.
  pose proof (lor_V_range perm Hperm). split_and!.
  - by apply pte_make_range.
  - by apply pte_make_range.
  - rewrite !has_lor. by rewrite !orb_true_r.
  - by apply PTE2PA_make.
  - by apply PTE_FLAGS_make.
Qed.

(** A valid entry already has the V bit among its flags. *)
Lemma flags_V pte : has pte PTE_V = true -> Z.lor (PTE_FLAGS pte) PTE_V = PTE_FLAGS pte.
Proof.
  intros H. apply Z.bits_inj'. intros i Hi. rewrite Z.lor_spec.
  destruct (decide (i = 0)) as [->|].
  - rewrite (has_flags pte PTE_V ltac:(flags)) in H. unfold has in H.
    unfold PTE_V in H. rewrite land_bit_zero, negb_involutive in H by lia. by rewrite H.
  - replace (Z.testbit PTE_V i) with false; [by rewrite orb_false_r|].
    symmetry. apply (testbit_high _ 1); flags.
Qed.

Lemma vpn_range va : 0 <= va < MAXVA -> 0 <= vpn va < 2 ^ 26.
Proof.
  intros H. unfold vpn, PGSIZE. change MAXVA with (2 ^ 38) in H.
  split; [apply Z.div_pos; lia|apply Z.div_lt_upper_bound; lia].
Qed.

Lemma vpn_add a k : vpn (a + k * PGSIZE) = vpn a + k.
Proof. unfold vpn, PGSIZE. by rewrite Z.div_add by lia. Qed.
Lemma vpn_succ a : vpn (a + PGSIZE) = vpn a + 1.
Proof. by rewrite <- (vpn_add a 1). Qed.
Lemma aligned_succ a : aligned a -> aligned (a + PGSIZE).
Proof. intros Ha. pose proof (aligned_add a 1 Ha) as H. by rewrite Z.mul_1_l in H. Qed.
Lemma aligned_vpn a : aligned a -> a = vpn a * PGSIZE.
Proof. intros [k ->]%aligned_mult. unfold vpn, PGSIZE. by rewrite Z.div_mul. Qed.

Lemma walk_wp va s root N :
  pt_inv (phys s) root N -> 0 <= va < MAXVA ->
  wp (walk root va false) (fun r s' => r = leaf_ptr N (vpn va) /\ s' = s) s.
Proof. intros. eapply wp_intro; [by eapply walk_noalloc|done]. Qed.

(** The test [pte == 0] of walk's callers. *)
Lemma leaf_ptr_cases m root N v :
  pt_inv m root N ->
  (leaf_ptr N v = 0 /\ leaf_addr N v = None /\ leaf_pte m N v = 0) \/
  (exists a, leaf_ptr N v = a /\ 0 < a /\ leaf_addr N v = Some a /\ load64 m a = leaf_pte m N v).
Proof.
  intros Hpt. unfold leaf_ptr, leaf_pte. destruct (leaf_addr N v) as [a|] eqn:E; [right|by left].
  exists a. pose proof (leaf_addr_pos _ _ _ _ _ Hpt E). done.
Qed.

(** ** walkaddr and ismapped *)

Definition translate (pte : Z) : Z :=
  if has pte PTE_V && has pte PTE_U then PTE2PA pte else 0.

Lemma walkaddr_run va s root N :
  pt_inv (phys s) root N -> 0 <= va ->
  walkaddr root va s = Ret (if va <? MAXVA then translate (leaf_pte (phys s) N (vpn va)) else 0) s.
Proof.
  intros Hpt Hva. unfold walkaddr.
  destruct (Z.leb_spec MAXVA va), (Z.ltb_spec va MAXVA); try lia; [done|].
  unfold mbind, M_bind. rewrite (walk_noalloc va s root N) by done. unfold translate.
  destruct (leaf_ptr_cases (phys s) root N (vpn va) Hpt)
    as [(-> & _ & ->)|(a & -> & Hpos & Ha & <-)]; [done|].
  destruct (Z.eqb_spec a 0); [lia|]. unfold ld64, gets.
  destruct (has _ PTE_V); [|done]. by destruct (has _ PTE_U).
Qed.

Lemma ismapped_run va s root N :
  pt_inv (phys s) root N -> 0 <= va < MAXVA ->
  ismapped root va s = Ret (has (leaf_pte (phys s) N (vpn va)) PTE_V) s.
Proof.
  intros Hpt Hva. unfold ismapped, mbind, M_bind. rewrite (walk_noalloc va s root N) by done.
  destruct (leaf_ptr_cases (phys s) root N (vpn va) Hpt)
    as [(-> & _ & ->)|(a & -> & Hpos & Ha & <-)]; [done|].
  destruct (Z.eqb_spec a 0); [lia|]. unfold ld64, gets. by destruct (has _ PTE_V).
Qed.

(** ** mappages *)

Lemma leaf_store_world s root N l v a pte :
  pt_world s root N l -> leaf_addr N v = Some a ->
  pt_world (set_phys (fun m => store64 m a pte) s) root N l /\
  frame (is_node N) (phys s) (store64 (phys s) a pte).
Proof.
  intros [Hpt Hkm Hdj] Ha.
  destruct (leaf_store_frame _ _ _ _ _ pte Hpt Ha) as (t & Ht & HF).
  assert (frame (is_node N) (phys s) (store64 (phys s) a pte)) as HF'.
  { eapply frame_mono; [exact HF|]. intros p <-. by eexists. }
  split; [constructor|done]; try done.
  - by eapply leaf_store_inv.
  - eapply (kmem_inv_frame _ s); [done|exact HF'|..|done]. intros p Hp Hn. by apply (Hdj p).
Qed.

Lemma pt_grows_frame s N l s' N' l' s'' :
  pt_grows s N l s' N' l' -> frame (is_node N') (phys s') (phys s'') ->
  pt_grows s N l s'' N' l'.
Proof. intros [A B C D E] HF. constructor; try done. by eapply frame_seq. Qed.

(** The state after mapping [k] pages from page number [v0] on. *)
Definition mapped_upto (s : kmem) (root : Z) (N : nodemap) (l : list Z) (v0 k pa perm : Z)
    (s' : kmem) (N' : nodemap) (l' : list Z) : Prop :=
  pt_world s' root N' l' /\ pt_grows s N l s' N' l' /\
  forall v, leaf_pte (phys s') N' v =
    if decide (v0 <= v < v0 + k) then mapped_pte (pa + (v - v0) * PGSIZE) perm
    else leaf_pte (phys s) N v.

Lemma mapped_upto_step s root N l v0 k pa perm s1 N1 l1 s2 N2 l2 :
  0 <= k -> mapped_upto s root N l v0 1 pa perm s1 N1 l1 -> NoDup l ->
  mapped_upto s1 root N1 l1 (v0 + 1) k (pa + PGSIZE) perm s2 N2 l2 ->
  mapped_upto s root N l v0 (k + 1) pa perm s2 N2 l2.
Proof.
  intros Hk (_ & G1 & L1) Hnd (W2 & G2 & L2). split_and!; [done|by eapply pt_grows_trans|].
  intros v. rewrite L2, L1. repeat case_decide; try lia; try done. f_equal. unfold PGSIZE; lia.
Qed.

Lemma mappages_loop_S fuel pagetable a last pa perm :
  mappages_loop (S fuel) pagetable a last pa perm =
  (pte ← walk pagetable a true;
   if pte =? 0 then mret (-1)
   else
     v ← ld64 pte;
     if has v PTE_V then panic "mappages: remap"
     else
       st64 pte (mapped_pte pa perm);;
       if a =? last then mret 0
       else mappages_loop fuel pagetable (w64 (a + PGSIZE)) last (w64 (pa + PGSIZE)) perm).
Proof. done. Qed.

Lemma mappages_loop_wp n s root N l a pa perm :
  pt_world s root N l -> aligned a -> 0 <= a -> a + (Z.of_nat n + 1) * PGSIZE <= MAXVA ->
  aligned pa -> 0 <= pa -> pa + (Z.of_nat n + 1) * PGSIZE <= 2 ^ 56 -> 0 <= perm < 1024 ->
  (forall v, vpn a <= v < vpn a + Z.of_nat n + 1 -> has (leaf_pte (phys s) N v) PTE_V = false) ->
  wp (mappages_loop (S n) root a (a + Z.of_nat n * PGSIZE) pa perm)
    (fun r s' => exists k N' l', mapped_upto s root N l (vpn a) k pa perm s' N' l' /\
       ((r = 0 /\ k = Z.of_nat n + 1) \/ (r = -1 /\ 0 <= k <= Z.of_nat n /\ l' = []))) s.
Proof.
  revert s N l a pa. induction n as [|n IH]; intros s N l a pa HW Ha Ha0 Hb Hpa Hpa0 Hpb Hperm Hfree.
  all: rewrite mappages_loop_S.
  all: eapply wp_call; [apply walk_alloc; [exact HW|pg]|].
  all: intros r s1 (N1 & l1 & W1 & G1 & L1 & [(-> & -> & Hnone)|Hr]).
  1, 3: simpl; apply wp_ret; exists 0, N1, []; split; [split_and!; try done|right; split_and!; (done || lia)];
    intros v; rewrite decide_False by lia; apply L1.
  all: pose proof (leaf_addr_pos _ _ _ _ _ (pw_pt _ _ _ _ W1) Hr); destruct (Z.eqb_spec r 0); [lia|].
  all: km_steps.
  all: assert (load64 (phys s1) r = leaf_pte (phys s) N (vpn a)) as Er
    by (rewrite <- L1; unfold leaf_pte; by rewrite Hr).
  all: rewrite Er, Hfree by lia; km_steps.
  all: destruct (leaf_store_world _ _ _ _ _ _ (mapped_pte pa perm) W1 Hr) as [W2 F2].
  all: destruct (mapped_pte_spec pa perm Hpa ltac:(pg) Hperm) as (Hrange & _).
  all: assert (mapped_upto s root N l (vpn a) 1 pa perm
          (set_phys (fun m => store64 m r (mapped_pte pa perm)) s1) N1 l1) as HM
    by (split_and!; [done|by eapply pt_grows_frame|];
        intros v; simpl; erewrite leaf_store_pte; [|apply W1|exact Hr|done];
        rewrite L1; repeat case_decide; try lia; try done; f_equal; unfold PGSIZE; lia).
  - rewrite Z.add_0_r, Z.eqb_refl. apply wp_ret. exists 1, N1, l1. split; [exact HM|]. lia.
  - destruct (Z.eqb_spec a (a + Z.of_nat (S n) * PGSIZE)); [unfold PGSIZE in *; lia|].
    rewrite !w64_id by pg.
    replace (a + Z.of_nat (S n) * PGSIZE) with (a + PGSIZE + Z.of_nat n * PGSIZE) by lia.
    eapply wp_mono.
    + apply IH; try done; try (by apply aligned_succ); try pg.
      intros v Hv. rewrite vpn_succ in Hv. destruct HM as (_ & _ & ->).
      rewrite decide_False by lia. apply Hfree. lia.
    + intros r' s' (k & N' & l' & HM' & Hcase). rewrite vpn_succ in HM'.
      exists (k + 1), N', l'. split; [|naive_solver lia].
      eapply mapped_upto_step; [lia|exact HM|apply HW|done].
Qed.

Lemma mappages_wp s root N l va size pa perm :
  pt_world s root N l -> aligned va -> 0 <= va -> aligned size -> 0 < size ->
  va + size <= MAXVA -> aligned pa -> 0 <= pa -> pa + size <= 2 ^ 56 -> 0 <= perm < 1024 ->
  (forall v, vpn va <= v < vpn va + size / PGSIZE -> has (leaf_pte (phys s) N v) PTE_V = false) ->
  wp (mappages root va size pa perm)
    (fun r s' => exists k N' l', mapped_upto s root N l (vpn va) k pa perm s' N' l' /\
       ((r = 0 /\ k = size / PGSIZE) \/ (r = -1 /\ 0 <= k < size / PGSIZE /\ l' = []))) s.
Proof.
  intros HW Ha Ha0 Hsz Hsz0 Hb Hpa Hpa0 Hpb Hperm Hfree.
  assert (size = size / PGSIZE * PGSIZE) as Es
    by (rewrite Z.mul_comm; apply Z.div_exact; [pg|done]).
  assert (0 < size / PGSIZE) by (unfold PGSIZE in *; lia).
  unfold mappages. unfold aligned in Ha, Hsz.
  rewrite Ha, Hsz. simpl. destruct (Z.eqb_spec size 0); [lia|].
  replace (Z.to_nat (size / PGSIZE)) with (S (Z.to_nat (size / PGSIZE - 1))) by lia.
  replace (w64 (va + size - PGSIZE)) with (va + Z.of_nat (Z.to_nat (size / PGSIZE - 1)) * PGSIZE)
    by (rewrite w64_id by pg; pg).
  eapply wp_mono; [apply mappages_loop_wp; try done; try pg|].
  - intros v Hv. apply Hfree. lia.
  - intros r s' (k & N' & l' & HM & Hc). exists k, N', l'. split; [done|]. naive_solver lia.
Qed.
End vmspec.
