(* ===== verification/AddrSpace.v ===== *)
(** * User address spaces: growing, shrinking, copying

    [as_inv] is the invariant of a user address space: its page-table tree,
    the allocator's free list, and the map [F] from virtual page numbers to
    the physical pages the address space owns.  The pages from TRAPFRAME up
    (trapframe and trampoline) are mapped but not owned.  uvmunmap,
    uvmdealloc, uvmalloc and uvmcopy preserve it. *)
From S2P Require Import Prelude Mem Riscv Kalloc Vm PageTable VmSpec.
From stdpp Require Import base tactics numbers list strings gmap.
From Stdlib Require Import ZArith Lia.

Open Scope Z_scope.

Section addrspace.
Context {KL : KernelLayout}.

(** Page numbers below [uvpn] belong to user memory. *)
Definition uvpn : Z := vpn TRAPFRAME.

Lemma vpn_lt_uvpn a : aligned a -> vpn a < uvpn <-> a < TRAPFRAME.
Proof.
  intros Ha. rewrite (aligned_vpn a Ha) at 2.
  assert (TRAPFRAME = uvpn * PGSIZE) as -> by done. unfold PGSIZE. lia.
Qed.

(** The pages of an address space: table pages and owned frames. *)
Definition owns (N : nodemap) (F : gmap Z Z) (p : Z) : Prop :=
  is_node N p \/ exists v, F !! v = Some p.

Record as_inv (s : kmem) (root : Z) (N : nodemap) (l : list Z) (F : gmap Z Z) : Prop := {
  as_world : pt_world s root N l;
  as_frame : forall v pa, F !! v = Some pa ->
    0 <= v < uvpn /\ has (leaf_pte (phys s) N v) PTE_V = true /\
    PTE2PA (leaf_pte (phys s) N v) = pa /\ page_ok pa;
  as_all : forall v, 0 <= v < uvpn -> has (leaf_pte (phys s) N v) PTE_V = true -> is_Some (F !! v);
  as_inj : forall v1 v2 pa, F !! v1 = Some pa -> F !! v2 = Some pa -> v1 = v2;
  as_disj : forall v pa, F !! v = Some pa -> pa ∉ l /\ (~ is_node N pa)
}.

Lemma as_unmapped s root N l F v :
  as_inv s root N l F -> 0 <= v < uvpn -> F !! v = None -> has (leaf_pte (phys s) N v) PTE_V = false.
Proof.
  intros HA Hv Hn. destruct (has _ PTE_V) eqn:E; [|done].
  destruct (as_all _ _ _ _ _ HA v Hv E). congruence.
Qed.

Lemma as_frame_aligned s root N l F v q : as_inv s root N l F -> F !! v = Some q -> aligned q.
Proof. intros HA Hq. apply (as_frame _ _ _ _ _ HA) in Hq as (_ & _ & _ & Hq). apply Hq. Qed.

Lemma owns_not_free s root N l F p : as_inv s root N l F -> owns N F p -> p ∉ l.
Proof.
  intros HA [Hn|[v Hv]]; [by apply (as_world _ _ _ _ _ HA)|]. by eapply as_disj.
Qed.

Lemma owns_page_ok s root N l F p : as_inv s root N l F -> owns N F p -> page_ok p.
Proof.
  intros HA [[k Hn]|[v Hv]].
  - eapply pt_ok; [apply (as_world _ _ _ _ _ HA)|done].
  - eapply as_frame in Hv; [apply Hv|done].
Qed.

(** An address space is not disturbed by writes to pages it does not own. *)
Lemma as_inv_other P s s' root N l l' F :
  as_inv s root N l F -> frame P (phys s) (phys s') -> kmem_inv s' l' ->
  (forall p, owns N F p -> (~ P p) /\ p ∉ l') -> as_inv s' root N l' F.
Proof.
  intros HA HF Hkm Ho. pose proof HA as [[Hpt _ Hdj] Hfr Hall Hinj Hds].
  assert (forall v, leaf_pte (phys s') N v = leaf_pte (phys s) N v) as HL.
  { intros v. eapply leaf_pte_frame; [done| |done]. intros k t Ht. apply Ho. left. by eexists. }
  constructor.
  - constructor; [|done|].
    + eapply pt_inv_frame; [done| |done]. intros lv k t _ Ht. apply Ho. left. by eexists.
    + intros p Hp. apply Ho. by left.
  - intros v pa. rewrite HL. apply Hfr.
  - intros v. rewrite HL. apply Hall.
  - done.
  - intros v pa Hv. split; [apply Ho; right; by eexists|]. by eapply Hds.
Qed.

(** ** Removing one page *)

(** Free list after removing the page mapped at [v], if any. *)
Definition freed (F : gmap Z Z) (v : Z) (l : list Z) : list Z :=
  match F !! v with Some pa => pa :: l | None => l end.

Lemma elem_of_freed F v l p : p ∈ freed F v l <-> p ∈ l \/ F !! v = Some p.
Proof. unfold freed. destruct (F !! v); [rewrite elem_of_cons|]; naive_solver. Qed.

Definition unmapped_entry (F : gmap Z Z) (v pte : Z) : Z :=
  match F !! v with Some _ => 0 | None => pte end.

Lemma unmap_page_wp s root N l F a :
  as_inv s root N l F -> 0 <= a < TRAPFRAME -> aligned a ->
  wp (unmap_page root a true) (fun _ s' =>
    as_inv s' root N (freed F (vpn a) l) (delete (vpn a) F) /\
    frame (fun p => is_node N p \/ F !! vpn a = Some p) (phys s) (phys s') /\
    forall v, leaf_pte (phys s') N v =
      if decide (v = vpn a) then unmapped_entry F v (leaf_pte (phys s) N v)
      else leaf_pte (phys s) N v) s.
Proof.
  intros HA Ha Hal. pose proof HA as [[Hpt Hkm Hdj] Hfr Hall Hinj Hds].
  assert (0 <= vpn a < uvpn) as Hv.
  { split; [apply vpn_range; pg|]. apply vpn_lt_uvpn; [done|lia]. }
  assert (F !! vpn a = None -> forall v, leaf_pte (phys s) N v =
      if decide (v = vpn a) then unmapped_entry F v (leaf_pte (phys s) N v)
      else leaf_pte (phys s) N v) as Hsame.
  { intros E v. case_decide; [|done]. subst. unfold unmapped_entry. by rewrite E. }
  unfold unmap_page. eapply wp_call; [apply walk_wp; [done|pg]|]. intros r s1 [-> ->].
  destruct (leaf_ptr_cases (phys s) root N (vpn a) Hpt) as [(-> & _ & E0)|(b & -> & Hb & Hlb & Eb)].
  { simpl. apply wp_skip.
    assert (F !! vpn a = None) as EF.
    { destruct (F !! vpn a) eqn:E; [|done]. apply Hfr in E as (_ & E & _).
      by rewrite E0 in E. }
    unfold freed. rewrite EF, delete_id by done. split_and!; [done|by apply frame_refl|auto]. }
  destruct (Z.eqb_spec b 0); [lia|]. km_steps. rewrite Eb.
  destruct (has (leaf_pte (phys s) N (vpn a)) PTE_V) eqn:EV; simpl.
  2: { apply wp_skip.
    assert (F !! vpn a = None) as EF.
    { destruct (F !! vpn a) eqn:E; [|done]. apply Hfr in E as (_ & E & _). congruence. }
    unfold freed. rewrite EF, delete_id by done. split_and!; [done|by apply frame_refl|auto]. }
  destruct (Hall _ Hv EV) as [pa Hpa].
  pose proof (Hfr _ _ Hpa) as (_ & _ & -> & Hok). pose proof (Hds _ _ Hpa) as [Hpl Hpn].
  km_steps. eapply wp_mono; [by apply kfree_wp|]. intros _ s1 [Hkm1 HF1]. km_steps.
  assert (pt_inv (phys s1) root N) as Hpt1.
  { eapply pt_inv_frame; [exact HF1| |done]. intros lv k t _ Ht <-. apply Hpn. by eexists. }
  assert (forall v, leaf_pte (phys s1) N v = leaf_pte (phys s) N v) as HL1.
  { intros v. eapply leaf_pte_frame; [exact HF1| |done]. intros k t Ht <-. apply Hpn. by eexists. }
  assert (pt_world s1 root N (pa :: l)) as W1.
  { constructor; [done..|]. intros p Hp [->|Hin]%elem_of_cons; [done|by apply (Hdj p)]. }
  destruct (leaf_store_world _ _ _ _ _ _ 0 W1 Hlb) as [W2 F2].
  assert (forall v, leaf_pte (store64 (phys s1) b 0) N v =
      if decide (v = vpn a) then 0 else leaf_pte (phys s) N v) as HL2.
  { intros v. erewrite leaf_store_pte; [|done|exact Hlb|lia]. by rewrite HL1. }
  unfold freed. rewrite Hpa. split_and!.
  - constructor.
    + exact W2.
    + intros v q. simpl. rewrite lookup_delete, HL2. case_decide; [done|]. case_decide; [congruence|]. apply Hfr.
    + intros v Hv'. simpl. rewrite lookup_delete, HL2. case_decide; [done|].
      rewrite decide_False by congruence. by apply Hall.
    + intros v1 v2 q. rewrite !lookup_delete. repeat case_decide; try done. apply Hinj.
    + intros v q. rewrite lookup_delete. case_decide; [done|]. intros Hq. split; [|by eapply Hds].
      intros [->|Hin]%elem_of_cons; [by pose proof (Hinj _ _ _ Hpa Hq)|].
      destruct (Hds _ _ Hq). done.
  - eapply frame_mono; [eapply frame_trans; [exact HF1|exact F2]|]. simpl.
    intros p [<-|Hp]; [by right|by left].
  - intros v. simpl. rewrite HL2. case_decide; [|done]. subst. unfold unmapped_entry. by rewrite Hpa.
Qed.

(** ** uvmunmap *)

(** The map without the pages [v0 .. v0 + n - 1]. *)
Fixpoint remove_range (n : nat) (v0 : Z) (F : gmap Z Z) : gmap Z Z :=
  match n with O => F | S n => remove_range n (v0 + 1) (delete v0 F) end.

Lemma lookup_remove_range n v0 F v :
  remove_range n v0 F !! v = if decide (v0 <= v < v0 + Z.of_nat n) then None else F !! v.
Proof.
  revert v0 F. induction n as [|n IH]; intros v0 F; cbn [remove_range].
  { rewrite decide_False by lia. done. }
  rewrite IH, lookup_delete. repeat case_decide; try lia; done.
Qed.

(** What removing the pages [v0 .. v0 + n - 1] does to the address space. *)
Definition removed (s : kmem) (root : Z) (N : nodemap) (l : list Z) (F : gmap Z Z) (v0 : Z) (n : nat)
    (s' : kmem) : Prop :=
  exists l', as_inv s' root N l' (remove_range n v0 F) /\
    (forall p, p ∈ l' <-> p ∈ l \/ exists v, v0 <= v < v0 + Z.of_nat n /\ F !! v = Some p) /\
    frame (fun p => is_node N p \/ exists v, v0 <= v < v0 + Z.of_nat n /\ F !! v = Some p)
      (phys s) (phys s') /\
    forall v, leaf_pte (phys s') N v =
      if decide (v0 <= v < v0 + Z.of_nat n) then unmapped_entry F v (leaf_pte (phys s) N v)
      else leaf_pte (phys s) N v.

Lemma uvmunmap_loop_wp n s root N l F a :
  as_inv s root N l F -> 0 <= a -> aligned a -> a + Z.of_nat n * PGSIZE <= TRAPFRAME ->
  wp (uvmunmap_loop n root a (a + Z.of_nat n * PGSIZE) true)
     (fun _ s' => removed s root N l F (vpn a) n s') s.
Proof.
  revert s l F a. induction n as [|n IH]; intros s l F a HA Ha0 Ha Hb.
  - cbn [uvmunmap_loop]. rewrite Z.add_0_r. destruct (Z.ltb_spec a a); [lia|]. simpl. apply wp_skip.
    exists l. split_and!; [done| |by apply frame_refl|].
    + intros p. split; [by left|]. intros [?|(v & ? & _)]; [done|lia].
    + intros v. rewrite decide_False by lia. done.
  - cbn [uvmunmap_loop]. destruct (Z.ltb_spec a (a + Z.of_nat (S n) * PGSIZE)); [|pg]. cbn [negb].
    eapply wp_call; [apply unmap_page_wp; [done|pg|done]|].
    intros _ s1 (HA1 & HF1 & HL1). rewrite w64_id by pg.
    replace (a + Z.of_nat (S n) * PGSIZE) with (a + PGSIZE + Z.of_nat n * PGSIZE) by pg.
    eapply wp_mono; [apply IH; [exact HA1|pg|by apply aligned_succ|pg]|].
    intros _ s2 (l2 & HA2 & Hl2 & HF2 & HL2). rewrite vpn_succ in *. exists l2. split_and!.
    + done.
    + intros p. rewrite Hl2, elem_of_freed. split.
      * intros [[?|?]|(v & Hv & [_ ?]%lookup_delete_Some)]; [by left|right..].
        -- exists (vpn a). split; [lia|done].
        -- exists v. split; [lia|done].
      * intros [?|(v & Hv & ?)]; [by left; left|].
        destruct (decide (v = vpn a)) as [->|]; [by left; right|right].
        exists v. rewrite lookup_delete_ne by done. split; [lia|done].
    + eapply frame_mono; [eapply frame_trans; [exact HF1|exact HF2]|]. simpl.
      intros p [[?|?]|[?|(v & Hv & [_ ?]%lookup_delete_Some)]]; [by left|right|by left|right].
      * exists (vpn a). split; [lia|done].
      * exists v. split; [lia|done].
    + intros v. rewrite HL2, HL1. unfold unmapped_entry.
      destruct (decide (v = vpn a)) as [->|].
      * rewrite decide_False, decide_True by lia. done.
      * rewrite lookup_delete_ne by done. repeat case_decide; try lia; done.
Qed.

Lemma uvmunmap_wp s root N l F va n :
  as_inv s root N l F -> 0 <= va -> aligned va -> 0 <= n -> va + n * PGSIZE <= TRAPFRAME ->
  wp (uvmunmap root va n true) (fun _ s' => removed s root N l F (vpn va) (Z.to_nat n) s') s.
Proof.
  intros HA Hva Ha Hn Hb. unfold uvmunmap. unfold aligned in Ha. rewrite Ha. simpl.
  rewrite w64_id by pg. rewrite <- (Z2Nat.id n) at 2 by lia.
  apply uvmunmap_loop_wp; try done. rewrite Z2Nat.id by lia. done.
Qed.

(** ** uvmdealloc *)

(** Number of the first page at or above [sz]. *)
Definition vpn_up (sz : Z) : Z := vpn (PGROUNDUP sz).

Lemma roundup_vpn sz : 0 <= sz <= TRAPFRAME ->
  PGROUNDUP sz = vpn_up sz * PGSIZE /\ 0 <= vpn_up sz <= uvpn /\ aligned (PGROUNDUP sz) /\
  sz <= PGROUNDUP sz <= TRAPFRAME.
Proof.
  intros Hsz. destruct (PGROUNDUP_spec sz) as [Ha Hr]; [pg|].
  pose proof (aligned_vpn _ Ha) as E. unfold vpn_up.
  assert (TRAPFRAME = uvpn * PGSIZE) as ET by done.
  split_and!; try done; unfold PGSIZE in *; lia.
Qed.

Lemma uvmdealloc_wp s root N l F oldsz newsz :
  as_inv s root N l F -> 0 <= newsz -> 0 <= oldsz <= TRAPFRAME ->
  wp (uvmdealloc root oldsz newsz) (fun r s' =>
    r = Z.min oldsz newsz /\
    removed s root N l F (vpn_up (Z.min oldsz newsz)) (Z.to_nat (vpn_up oldsz - vpn_up (Z.min oldsz newsz))) s') s.
Proof.
  intros HA Hn Ho. unfold uvmdealloc. destruct (Z.leb_spec oldsz newsz).
  - apply wp_ret. rewrite Z.min_l, Z.sub_diag by lia. split; [done|].
    exists l. split_and!; [done| |by apply frame_refl|].
    + intros p. split; [by left|]. intros [?|(v & ? & _)]; [done|lia].
    + intros v. rewrite decide_False by lia. done.
  - rewrite Z.min_r by lia.
    destruct (roundup_vpn newsz) as (En & Hvn & Han & Hrn); [lia|].
    destruct (roundup_vpn oldsz) as (Eo & Hvo & Hao & Hro); [lia|].
    assert (uvpn = 2 ^ 26 - 2) as Eu by done.
    destruct (Z.ltb_spec (PGROUNDUP newsz) (PGROUNDUP oldsz)).
    + replace (w64 (s32 (w64 (PGROUNDUP oldsz - PGROUNDUP newsz) / PGSIZE)))
        with (vpn_up oldsz - vpn_up newsz).
      2: { rewrite (w64_id (_ - _)) by pg. rewrite Eo, En, <- Z.mul_sub_distr_r.
           rewrite Z.div_mul by pg. rewrite s32_id, w64_id; [done|..]; unfold PGSIZE in *; lia. }
      eapply wp_call; [apply uvmunmap_wp; [exact HA|lia|done|unfold PGSIZE in *; lia|unfold PGSIZE in *; lia]|].
      intros u s1 H1. apply wp_ret. done.
    + assert (vpn_up oldsz - vpn_up newsz <= 0) by (unfold PGSIZE in *; lia).
      apply wp_bind, wp_skip, wp_ret. split; [done|].
      replace (Z.to_nat (vpn_up oldsz - vpn_up newsz)) with O by lia.
      exists l. split_and!; [done| |by apply frame_refl|].
      * intros p. split; [by left|]. intros [?|(v & ? & _)]; [done|lia].
      * intros v. rewrite decide_False by lia. done.
Qed.

(** ** Adding one page *)

(** The bytes of page [p] are the same in [m] and [m']. *)
Definition same_page (m m' : gmap Z Z) (p : Z) : Prop :=
  forall x, p <= x < p + PGSIZE -> mget m' x = mget m x.

Lemma frame_same_page P m m' p : frame P m m' -> aligned p -> ~ P p -> same_page m m' p.
Proof. intros HF Ha HP x Hx. apply HF. by rewrite (page_of_unique p x). Qed.

Lemma same_page_trans m1 m2 m3 p : same_page m1 m2 p -> same_page m2 m3 p -> same_page m1 m3 p.
Proof. intros H1 H2 x Hx. by rewrite H2, H1. Qed.

(** A page outside the tree and the free list is untouched when the tree grows. *)
Lemma grows_same_page s N l s' N' l' p :
  pt_grows s N l s' N' l' -> aligned p -> ~ is_node N p -> p ∉ l -> same_page (phys s) (phys s') p.
Proof.
  intros [A B C _ D] Ha Hn Hl. eapply frame_same_page; [done..|].
  intros Hp. apply C in Hp as [?|[? ?]]; done.
Qed.

Definition map_one_post (s : kmem) (root : Z) (N : nodemap) (l : list Z) (F : gmap Z Z) (v pa perm : Z)
    (r : Z) (s' : kmem) : Prop :=
  exists N' l', pt_grows s N l s' N' l' /\
    ((r = 0 /\ as_inv s' root N' l' (<[v := pa]> F) /\
      forall u, leaf_pte (phys s') N' u =
        if decide (u = v) then mapped_pte pa perm else leaf_pte (phys s) N u) \/
     (r = -1 /\ l' = [] /\ as_inv s' root N' l' F /\
      forall u, leaf_pte (phys s') N' u = leaf_pte (phys s) N u)).

Lemma map_page_wp s root N l F a pa perm :
  as_inv s root N l F -> 0 <= a < TRAPFRAME -> aligned a -> F !! vpn a = None ->
  page_ok pa -> pa ∉ l -> ~ owns N F pa -> 0 <= perm < 1024 ->
  wp (mappages root a PGSIZE pa perm) (map_one_post s root N l F (vpn a) pa perm) s.
Proof.
  intros HA Ha Hal Hn Hok Hpl Hno Hperm. pose proof HA as [HW Hfr Hall Hinj Hds].
  pose proof (page_ok_range _ Hok). pose proof (page_ok_aligned _ Hok).
  assert (0 <= vpn a < uvpn) as Hv.
  { split; [apply vpn_range; pg|]. apply vpn_lt_uvpn; [done|lia]. }
  assert (PGSIZE / PGSIZE = 1) as E1 by done.
  pose proof kend_range. destruct (Hok) as [_ Hpr].
  eapply wp_mono; [eapply mappages_wp; try done; try pg|].
  { intros v Hv'. rewrite E1 in Hv'. replace v with (vpn a) by lia. by eapply as_unmapped. }
  rewrite E1. intros r s' (k & N' & l' & (W' & G' & L') & Hc). exists N', l'. split; [done|].
  assert (~ is_node N' pa) as Hnn.
  { intros Hp. apply (pg_from _ _ _ _ _ _ G') in Hp as [?|[? ?]]; [|done]. apply Hno. by left. }
  assert (forall q, q ∈ l' -> q ∈ l) as Hsuf.
  { destruct (pg_suffix _ _ _ _ _ _ G') as [tk ->]. set_solver. }
  assert (forall v q, F !! v = Some q -> ~ is_node N' q) as Hfn.
  { intros v q Hq Hp. apply Hds in Hq as [Hq1 Hq2].
    apply (pg_from _ _ _ _ _ _ G') in Hp as [?|[? ?]]; done. }
  destruct Hc as [[-> ->]|(-> & Hk & ->)]; [left|right].
  - assert (forall u, leaf_pte (phys s') N' u =
        if decide (u = vpn a) then mapped_pte pa perm else leaf_pte (phys s) N u) as HL.
    { intros u. rewrite L'. repeat case_decide; try lia; try done. f_equal. lia. }
    destruct (mapped_pte_spec pa perm) as (_ & M1 & M2 & _); [done..|].
    split_and!; [done| |done]. constructor.
    + done.
    + intros v q. rewrite lookup_insert, HL. case_decide as E.
      * intros [= <-]. subst. by rewrite decide_True by done.
      * rewrite decide_False by congruence. apply Hfr.
    + intros v Hv'. rewrite HL. case_decide; subst.
      * intros _. rewrite lookup_insert_eq. by eexists.
      * rewrite lookup_insert_ne by done. by apply Hall.
    + intros v1 v2 q. rewrite !lookup_insert. repeat case_decide; intros; simplify_eq; try done.
      * exfalso. apply Hno. right. by eexists.
      * exfalso. apply Hno. right. by eexists.
      * by eapply Hinj.
    + intros v q. rewrite lookup_insert. case_decide.
      * intros [= <-]. split; [|done]. intros ?%Hsuf. done.
      * intros Hq. split; [|by eapply Hfn]. intros ?%Hsuf. by apply Hds in Hq as [? _].
  - assert (forall u, leaf_pte (phys s') N' u = leaf_pte (phys s) N u) as HL.
    { intros u. rewrite L'. by rewrite decide_False by lia. }
    split_and!; [done..| |done]. constructor; [done| | |done|].
    + intros v q. rewrite HL. apply Hfr.
    + intros v. rewrite HL. apply Hall.
    + intros v q Hq. split; [set_solver|]. by eapply Hfn.
Qed.

(** A fresh page from kalloc, then a write to it: the address space is as before. *)
Lemma alloc_page_as s s1 s2 root N l pa l1 F :
  as_inv s root N l F -> l = pa :: l1 -> kmem_inv s1 l1 -> frame (eq pa) (phys s) (phys s1) ->
  freelist s2 = freelist s1 -> frame (eq pa) (phys s1) (phys s2) ->
  as_inv s2 root N l1 F /\ pa ∉ l1 /\ (~ owns N F pa) /\ frame (eq pa) (phys s) (phys s2).
Proof.
  intros HA -> Hkm HF Hfl HF2.
  pose proof (pw_km _ _ _ _ (as_world _ _ _ _ _ HA)) as [_ Hnd]. apply NoDup_cons in Hnd as [Hnd _].
  assert (~ owns N F pa) as Hno.
  { intros Ho. eapply owns_not_free in Ho; [|done]. set_solver. }
  assert (frame (eq pa) (phys s) (phys s2)) as HF' by by eapply frame_seq.
  split_and!; try done. eapply as_inv_other; [done|exact HF'| |].
  - eapply (kmem_inv_frame _ s1); [done|exact HF2| |done]. congruence.
  - intros p Hp. split; [congruence|]. eapply owns_not_free in Hp; [|done]. set_solver.
Qed.

(** Mapping a page that is mapped already. *)
Lemma mappages_mapped_panic s root N l F va pa perm :
  as_inv s root N l F -> 0 <= va < TRAPFRAME -> aligned va -> is_Some (F !! vpn va) ->
  mappages root va PGSIZE pa perm s = Panic "mappages: remap".
Proof.
  intros A Hva Hal [q Hq]. unfold mappages.
  unfold aligned in Hal. rewrite Hal. change (PGSIZE mod PGSIZE) with 0. change (PGSIZE =? 0) with false.
  change (Z.to_nat (PGSIZE / PGSIZE)) with 1%nat. cbn [negb Z.eqb]. rewrite mappages_loop_S.
  destruct (wp_inv _ _ _ (walk_alloc va s root N l (as_world _ _ _ _ _ A) ltac:(pg))) as (r & s' & Ew & Hp).
  rewrite (bind_ok _ _ _ _ _ Ew). destruct Hp as (N' & l' & W' & _ & HL & Hr).
  destruct (as_frame _ _ _ _ _ A _ _ Hq) as (_ & HV & _). rewrite <- HL in HV.
  unfold leaf_pte in HV. destruct Hr as [(_ & _ & E)|E]; rewrite E in HV; [done|].
  pose proof (leaf_addr_pos _ _ _ _ _ (pw_pt _ _ _ _ W') E).
  destruct (Z.eqb_spec r 0); [lia|]. rewrite (bind_ok (ld64 r) _ s' (load64 (phys s') r) s') by done.
  by rewrite HV.
Qed.
End addrspace.
