(* ===== verification/UvmSpec.v ===== *)
(** * uvmcreate, uvmalloc and uvmcopy

    Creating an address space, growing it by zeroed pages, and copying one
    into another, each with its failure path when memory runs out. *)
From S2P Require Import Prelude Mem Riscv Kalloc Vm PageTable VmSpec AddrSpace.
From stdpp Require Import base tactics numbers list strings gmap.
From Stdlib Require Import ZArith Lia.

Open Scope Z_scope.

Section uvm.
Context {KL : KernelLayout}.

(** ** uvmcreate *)

Lemma root_pt_inv m root :
  page_ok root -> zero_page m root -> pt_inv m root {[(2, 0) := root]}.
Proof.
  intros Hok Hz.
  assert (forall key t, ({[(2, 0) := root]} : nodemap) !! key = Some t -> key = (2, 0) /\ t = root) as HN.
  { intros key t [<- <-]%lookup_singleton_Some. done. }
  constructor.
  - apply lookup_singleton_eq.
  - intros key t [-> ->]%HN. simpl. lia.
  - intros key t [-> ->]%HN. done.
  - intros k1 k2 t [-> _]%HN [-> _]%HN. done.
  - intros l k t Hl [[= -> ->] ->]%HN. lia.
  - intros l k t i Hl [[= -> ->] ->]%HN Hi. cbv zeta.
    pose proof (word_in_page i Hi). rewrite zero_page_load64 by (done || lia).
    change (has 0 PTE_V) with false. cbv iota. rewrite lookup_singleton_ne; [done|]. intros [=]; lia.
Qed.

Lemma leaf_pte_root m (root v : Z) : leaf_pte m {[(2, 0) := root]} v = 0.
Proof. unfold leaf_pte, leaf_addr. rewrite lookup_singleton_ne; [done|]. intros [=]. Qed.

(** A page table with no entries. *)
Definition empty_as (s : kmem) (root : Z) (l : list Z) : Prop :=
  as_inv s root {[(2, 0) := root]} l ∅.

Lemma root_as_inv s root l :
  page_ok root -> zero_page (phys s) root -> kmem_inv s l -> root ∉ l -> empty_as s root l.
Proof.
  intros Hok Hz Hkm Hl. constructor; try (intros *; by rewrite lookup_empty).
  - constructor; [by apply root_pt_inv|done|].
    intros p [key Hk]. apply lookup_singleton_Some in Hk as [_ <-]. done.
  - intros v _. by rewrite leaf_pte_root.
Qed.

Lemma uvmcreate_wp s l :
  kmem_inv s l ->
  wp uvmcreate (fun root s' =>
    (root = 0 /\ l = [] /\ s' = s) \/
    (exists l', l = root :: l' /\ empty_as s' root l' /\ frame (eq root) (phys s) (phys s'))) s.
Proof.
  intros Hkm. unfold uvmcreate. eapply wp_call; [by apply kalloc_cases|].
  intros r s1 [(-> & -> & ->)|(l1 & -> & Hok & Hkm1 & HF1)].
  { simpl. apply wp_ret. by left. }
  pose proof (page_ok_pos _ Hok). destruct (Z.eqb_spec r 0); [lia|]. km_steps.
  destruct Hkm as [_ Hnd]. apply NoDup_cons in Hnd as [Hnd _].
  pose proof (page_ok_aligned _ Hok) as Ha.
  right. exists l1. split_and!; [done| |].
  - apply root_as_inv; try done; [apply memset_zero_page|].
    eapply (kmem_inv_frame _ s1); [done|by apply frame_memset| |done]. congruence.
  - simpl. eapply frame_seq; [exact HF1|by apply frame_memset].
Qed.

(** ** uvmalloc *)

Definition perm_ok (xperm : Z) : Prop := 0 <= Z.lor (Z.lor PTE_R PTE_U) xperm < 1024.

(** The address space has gained the zeroed pages [v0 .. v1 - 1]. *)
Definition extended (s : kmem) (N : nodemap) (F : gmap Z Z) (v0 v1 perm : Z)
    (s' : kmem) (N' : nodemap) (F' : gmap Z Z) : Prop :=
  (forall v, ~ (v0 <= v < v1) -> F' !! v = F !! v /\ leaf_pte (phys s') N' v = leaf_pte (phys s) N v) /\
  (forall v, v0 <= v < v1 -> exists pa, F' !! v = Some pa /\ zero_page (phys s') pa /\
      leaf_pte (phys s') N' v = mapped_pte pa perm) /\
  (forall v pa, F !! v = Some pa -> same_page (phys s) (phys s') pa).

Lemma extended_refl s N F v0 v1 perm : v1 <= v0 -> extended s N F v0 v1 perm s N F.
Proof. intros H. split_and!; [done|lia|]. by intros v pa _ x _. Qed.

Lemma extended_step s root N l F v0 v1 perm pa s1 N1 l1 s2 N2 F2 :
  v0 < v1 -> F !! v0 = None ->
  (forall v q, F !! v = Some q -> same_page (phys s) (phys s1) q) ->
  (forall v, leaf_pte (phys s1) N1 v = if decide (v = v0) then mapped_pte pa perm else leaf_pte (phys s) N v) ->
  zero_page (phys s1) pa -> as_inv s1 root N1 l1 (<[v0 := pa]> F) ->
  extended s1 N1 (<[v0 := pa]> F) (v0 + 1) v1 perm s2 N2 F2 ->
  as_inv s root N l F -> extended s N F v0 v1 perm s2 N2 F2.
Proof.
  intros Hlt Hn Hsame HL Hz HA1 (E1 & E2 & E3) HA. split_and!.
  - intros v Hv. destruct (E1 v) as [-> ->]; [lia|].
    rewrite HL, lookup_insert_ne, decide_False by lia. done.
  - intros v Hv. destruct (decide (v = v0)) as [->|]; [|apply E2; lia].
    destruct (E1 v0) as [-> ->]; [lia|]. exists pa.
    rewrite lookup_insert_eq, HL, decide_True by done. split_and!; try done.
    intros x Hx. rewrite (E3 v0 pa); [by apply Hz|apply lookup_insert_eq|done].
  - intros v q Hq. eapply same_page_trans; [by eapply Hsame|].
    apply (E3 v). rewrite lookup_insert_ne; congruence.
Qed.

(** [F] is [F0] with pages added between [v0] and [v1]. *)
Definition added (F0 F : gmap Z Z) (v0 v1 : Z) : Prop :=
  forall v, F0 !! v = if decide (v0 <= v < v1) then None else F !! v.

Lemma added_remove F0 F v0 v1 :
  v0 <= v1 -> added F0 F v0 v1 -> remove_range (Z.to_nat (v1 - v0)) v0 F = F0.
Proof.
  intros Hle H. apply map_eq. intros v. rewrite lookup_remove_range, H, Z2Nat.id by lia.
  repeat case_decide; try lia; done.
Qed.

(** Undoing a partial uvmalloc. *)
Lemma uvmalloc_undo_wp s root N l F F0 oldsz a :
  as_inv s root N l F -> aligned oldsz -> aligned a -> 0 <= oldsz <= a -> a <= TRAPFRAME ->
  added F0 F (vpn oldsz) (vpn a) ->
  wp (uvmdealloc root a oldsz;; mret 0) (fun r s' => r = 0 /\ exists l', as_inv s' root N l' F0 /\
     (forall p, p ∈ l' <-> p ∈ l \/ exists v, vpn oldsz <= v < vpn a /\ F !! v = Some p)) s.
Proof.
  intros HA Ho Ha Hle Hb Hadd.
  eapply wp_call; [apply uvmdealloc_wp; [exact HA|lia|lia]|].
  intros r s' [-> (l' & HA' & Hl' & _ & _)]. apply wp_ret. split; [done|]. exists l'.
  rewrite Z.min_r in * by lia. unfold vpn_up in *. rewrite !PGROUNDUP_aligned in * by (done || pg).
  assert (vpn oldsz <= vpn a) by (apply Z.div_le_mono; pg).
  rewrite (added_remove F0) in HA' by done. split; [done|]. intros p. rewrite Hl'.
  by rewrite Z2Nat.id, Z.add_sub_assoc, Z.add_simpl_l by lia.
Qed.

Definition uvmalloc_post (s : kmem) (root : Z) (N : nodemap) (F F0 : gmap Z Z) (v0 newsz perm : Z)
    (r : Z) (s' : kmem) : Prop :=
  (r = newsz /\ exists N' l' F', as_inv s' root N' l' F' /\
     extended s N F v0 (vpn_up newsz) perm s' N' F') \/
  (r = 0 /\ exists N' l', as_inv s' root N' l' F0).

Lemma vpn_lt_up a newsz : aligned a -> 0 <= a -> 0 <= newsz <= TRAPFRAME ->
  a < newsz <-> vpn a < vpn_up newsz.
Proof.
  intros Ha Ha0 Hn. destruct (PGROUNDUP_spec newsz) as [Hal Hr]; [pg|].
  pose proof (aligned_vpn _ Ha) as E. pose proof (aligned_vpn _ Hal) as E'.
  unfold vpn_up. unfold PGSIZE in *. lia.
Qed.

Lemma aligned_lt_trapframe a : aligned a -> a < TRAPFRAME -> a + PGSIZE <= TRAPFRAME.
Proof.
  intros Ha Hlt. pose proof (aligned_vpn _ Ha) as E.
  assert (TRAPFRAME = uvpn * PGSIZE) as E' by done. unfold PGSIZE in *. lia.
Qed.

(** After a failed mappages the page is still not part of the address space. *)
Lemma map_fail_as s root N l F s' N' r :
  as_inv s root N l F -> pt_grows s N l s' N' [] -> as_inv s' root N' [] F ->
  ~ owns N F r -> r ∉ l -> (~ owns N' F r) /\ r ∉ ([] : list Z).
Proof.
  intros HA G HA' Hno Hl. split; [|set_solver]. intros [Hp|Hp]; [|apply Hno; by right].
  apply (pg_from _ _ _ _ _ _ G) in Hp as [?|[? _]]; [|done]. apply Hno. by left.
Qed.

Lemma uvmalloc_loop_wp n s root N l F F0 oldsz a newsz xperm :
  let perm := Z.lor (Z.lor PTE_R PTE_U) xperm in
  as_inv s root N l F -> aligned oldsz -> aligned a -> 0 <= oldsz <= a -> a <= TRAPFRAME ->
  0 <= newsz <= TRAPFRAME -> perm_ok xperm -> newsz - a <= Z.of_nat n * PGSIZE ->
  added F0 F (vpn oldsz) (vpn a) -> (forall v, vpn oldsz <= v < vpn_up newsz -> F0 !! v = None) ->
  wp (uvmalloc_loop n root oldsz a newsz xperm) (uvmalloc_post s root N F F0 (vpn a) newsz perm) s.
Proof.
  intros perm. revert s N l F a.
  induction n as [|n IH]; intros s N l F a HA Ho Ha Hle Hb Hn Hp Hfuel Hadd HF0; cbn [uvmalloc_loop].
  all: destruct (Z.ltb_spec a newsz) as [Hlt|Hge]; cbn [negb].
  1: unfold PGSIZE in *; lia.
  1, 3: apply wp_ret; left; split; [done|]; exists N, l, F; split; [done|]; apply extended_refl;
    apply Z.nlt_ge; rewrite <- vpn_lt_up by (done || lia); lia.
  assert (vpn oldsz <= vpn a) as Hva by (apply Z.div_le_mono; pg).
  assert (vpn a < vpn_up newsz) as Hvlt by (rewrite <- vpn_lt_up; (done || lia)).
  assert (F !! vpn a = None) as Hnone.
  { pose proof (Hadd (vpn a)) as E. rewrite decide_False in E by lia. rewrite <- E. apply HF0. lia. }
  eapply wp_call; [apply kalloc_cases; apply HA|].
  intros r s1 [(-> & -> & ->)|(l1 & El & Hok & Hkm1 & HF1)].
  { simpl. eapply wp_mono; [by eapply uvmalloc_undo_wp|].
    intros r s' [-> (l' & HA' & _)]. right. eauto. }
  pose proof (page_ok_pos _ Hok). destruct (Z.eqb_spec r 0); [lia|]. km_steps.
  pose proof (page_ok_aligned _ Hok) as Hra.
  destruct (alloc_page_as s s1 (set_phys (fun m => memset m r 0 PGSIZE) s1) root N l r l1 F)
    as (HA2 & Hr1 & Hno & HF2); try done; [by apply frame_memset|].
  eapply wp_mono; [apply map_page_wp; try done; pg|].
  intros ret s3 (N3 & l3 & G3 & Hc). destruct Hc as [(-> & HA3 & HL3)|(-> & -> & HA3 & HL3)].
  - simpl. rewrite w64_id by pg. eapply wp_mono.
    + apply (IH s3 N3 l3 (<[vpn a := r]> F) (a + PGSIZE));
        [exact HA3|done|by apply aligned_succ|unfold PGSIZE; lia|by apply aligned_lt_trapframe; [|lia]|
         done|done|lia| |done].
      rewrite vpn_succ. intros v. rewrite Hadd, lookup_insert. repeat case_decide; try lia; try done.
      assert (v = vpn a) as -> by lia. done.
    + rewrite vpn_succ. intros r' s' [(-> & N' & l' & F' & HA' & HE)|(-> & N' & l' & HA')];
        [left|right; eauto]. split; [done|]. exists N', l', F'. split; [done|].
      eapply (extended_step s root N l F (vpn a) (vpn_up newsz) perm r s3 N3 l3);
        [done|done| | | |exact HA3|exact HE|exact HA].
      * intros v q Hq. eapply same_page_trans.
        -- eapply frame_same_page; [exact HF2| |].
           ++ by eapply (as_frame_aligned s).
           ++ intros <-. apply Hno. right. by eexists.
        -- eapply grows_same_page; [exact G3| | |].
           ++ by eapply (as_frame_aligned s).
           ++ by eapply (as_disj _ _ _ _ _ HA2).
           ++ by eapply (as_disj _ _ _ _ _ HA2).
      * intros v. rewrite HL3. case_decide; [done|]. eapply leaf_pte_frame; [exact HF2| |apply HA].
        intros k t Ht <-. apply Hno. left. by eexists.
      * intros x Hx. rewrite (grows_same_page _ _ _ _ _ _ r G3); [by apply memset_zero_page|done| |done|done].
        intros Hnd. apply Hno. by left.
  - cbn. assert (r ∉ ([] : list Z)) by set_solver.
    destruct (map_fail_as _ _ _ _ _ _ _ _ HA2 G3 HA3 Hno Hr1) as [Hno3 _].
    eapply wp_call; [apply kfree_wp; [apply HA3|done|done]|].
    intros _ s4 [Hkm4 HF4]. eapply wp_mono.
    + eapply uvmalloc_undo_wp; [|done..].
      eapply as_inv_other; [exact HA3|exact HF4|exact Hkm4|].
      intros p Ho3. assert (p <> r) by (intros ->; done). split; [congruence|]. set_solver.
    + intros r' s' [-> (l' & HA' & _)]. right. eauto.
Qed.

Lemma uvmalloc_wp s root N l F oldsz newsz xperm :
  as_inv s root N l F -> 0 <= oldsz -> 0 <= newsz <= TRAPFRAME -> perm_ok xperm ->
  (forall v, vpn_up oldsz <= v < vpn_up newsz -> F !! v = None) -> oldsz <= newsz ->
  wp (uvmalloc root oldsz newsz xperm)
    (uvmalloc_post s root N F F (vpn_up oldsz) newsz (Z.lor (Z.lor PTE_R PTE_U) xperm)) s.
Proof.
  intros HA Ho Hn Hp Hfree Hle. unfold uvmalloc. destruct (Z.ltb_spec newsz oldsz); [lia|].
  destruct (roundup_vpn oldsz) as (E & Hv & Ha & Hr); [lia|].
  apply (uvmalloc_loop_wp _ s root N l F F (PGROUNDUP oldsz) (PGROUNDUP oldsz)); try done; try lia.
  - pose proof (Z.div_mod (newsz - PGROUNDUP oldsz) PGSIZE ltac:(pg)).
    pose proof (Z.mod_pos_bound (newsz - PGROUNDUP oldsz) PGSIZE ltac:(pg)). unfold PGSIZE in *. lia.
  - intros v. rewrite decide_False by lia. done.
Qed.

(** ** uvmcopy *)

(** Growing one page table does not disturb another address space. *)
Lemma other_grows s r1 N1 l F1 N s' N' l' :
  as_inv s r1 N1 l F1 -> pt_grows s N l s' N' l' -> kmem_inv s' l' ->
  (forall p, owns N1 F1 p -> ~ is_node N p) -> as_inv s' r1 N1 l' F1.
Proof.
  intros HA G Hkm Hd. eapply as_inv_other; [exact HA|apply G|done|].
  intros p Hp. pose proof (owns_not_free _ _ _ _ _ _ HA Hp). split.
  - intros [?|[? _]]%(pg_from _ _ _ _ _ _ G); [by apply (Hd p)|done].
  - destruct (pg_suffix _ _ _ _ _ _ G) as [tk ->]. set_solver.
Qed.

(** Page [v] of the child holds what page [v] of the parent holds, with the
    same permissions. *)
Definition page_copied (m : gmap Z Z) (No Nn : nodemap) (Fo Fn : gmap Z Z) (v : Z) : Prop :=
  match Fo !! v with
  | None => Fn !! v = None
  | Some pa => exists pa', Fn !! v = Some pa' /\
      (forall i, 0 <= i < PGSIZE -> mget m (pa' + i) = mget m (pa + i)) /\
      PTE_FLAGS (leaf_pte m Nn v) = PTE_FLAGS (leaf_pte m No v)
  end.

(** The pages at the disposal of an address space: the free ones, its
    page-table pages and its frames. *)
Definition stock (l : list Z) (N : nodemap) (F : gmap Z Z) (p : Z) : Prop := p ∈ l \/ owns N F p.

Lemma owns_empty N p : owns N ∅ p <-> is_node N p.
Proof. unfold owns. split; [intros [?|[v Hv]]; [done|by rewrite lookup_empty in Hv]|by left]. Qed.

Lemma stock_grows s N l s' N' l' F p : pt_grows s N l s' N' l' -> stock l' N' F p <-> stock l N F p.
Proof.
  intros [A [tk ->] C T _]. unfold stock, owns. split.
  - intros [Hp|[Hp|Hp]]; [left; set_solver| |auto]. apply C in Hp as [?|[? _]]; auto.
  - intros [Hp|[Hp|Hp]]; [apply T in Hp as [?|?]; auto| |auto]. right; left. by eapply is_node_mono.
Qed.

(** A frame moves from the free list into the address space. *)
Lemma stock_insert l N F v q p : F !! v = None -> stock l N (<[v := q]> F) p <-> stock (q :: l) N F p.
Proof.
  intros Hv. unfold stock, owns. rewrite elem_of_cons. split.
  - intros [Hp|[Hp|[w Hw]]]; [auto..|]. rewrite lookup_insert in Hw. case_decide; simplify_eq; [auto|]. right; right. eauto.
  - intros [[->|Hp]|[Hp|[w Hw]]]; [|auto..|].
    + right; right. exists v. apply lookup_insert_eq.
    + right; right. exists w. rewrite lookup_insert_ne; congruence.
Qed.

(** Invariant of the copying loop before page [k]; [K] is the stock of the
    child, which no step changes. *)
Record copy_inv (K : Z -> Prop) (s0 s : kmem) (old new : Z) (No Nn : nodemap) (l : list Z) (Fo Fn : gmap Z Z) (k : Z)
  : Prop := {
  ci_old : as_inv s old No l Fo;
  ci_new : as_inv s new Nn l Fn;
  ci_disj : forall p, owns No Fo p -> ~ owns Nn Fn p;
  ci_same : forall v pa, Fo !! v = Some pa -> same_page (phys s0) (phys s) pa;
  ci_leaf : forall v, leaf_pte (phys s) No v = leaf_pte (phys s0) No v;
  ci_done : forall v, 0 <= v < k -> page_copied (phys s) No Nn Fo Fn v;
  ci_todo : forall v, k <= v -> Fn !! v = None;
  ci_stock : forall p, stock l Nn Fn p <-> K p
}.

Lemma copy_inv_skip K s0 s old new No Nn l Fo Fn k :
  copy_inv K s0 s old new No Nn l Fo Fn k -> Fo !! k = None ->
  copy_inv K s0 s old new No Nn l Fo Fn (k + 1).
Proof.
  intros [A B C D E F G St] Hn. constructor; try done.
  - intros v Hv. destruct (decide (v = k)) as [->|]; [|apply F; lia].
    unfold page_copied. rewrite Hn. apply G. lia.
  - intros v Hv. apply G. lia.
Qed.

Lemma page_copied_same m m' No Nn Nn' Fo Fn v :
  page_copied m No Nn Fo Fn v ->
  (forall pa, Fo !! v = Some pa -> same_page m m' pa) ->
  (forall pa, Fn !! v = Some pa -> same_page m m' pa) ->
  leaf_pte m' No v = leaf_pte m No v -> leaf_pte m' Nn' v = leaf_pte m Nn v ->
  page_copied m' No Nn' Fo Fn v.
Proof.
  unfold page_copied. intros H Ho Hn Elo Eln. destruct (Fo !! v) as [pa|]; [|done].
  destruct H as (pa' & E & Hc & Hf). exists pa'. split_and!; [done| |congruence].
  intros i Hi. rewrite (Hn pa' E) by lia. rewrite (Ho pa) by (done || lia). by apply Hc.
Qed.

(** One page copied: the child's table grew by page [k], holding a copy. *)
Lemma copy_inv_step K s0 s old new No Nn l Fo Fn k pa p l1 s2 s3 N3 l3 :
  copy_inv K s0 s old new No Nn l Fo Fn k -> 0 <= k -> Fo !! k = Some pa -> l = p :: l1 ->
  as_inv s2 new Nn l1 Fn -> as_inv s2 old No l1 Fo -> (~ owns Nn Fn p) -> (~ owns No Fo p) -> page_ok p ->
  frame (eq p) (phys s) (phys s2) -> p ∉ l1 ->
  (forall i, 0 <= i < PGSIZE -> mget (phys s2) (p + i) = mget (phys s) (pa + i)) ->
  pt_grows s2 Nn l1 s3 N3 l3 -> as_inv s3 new N3 l3 (<[k := p]> Fn) -> Fn !! k = None ->
  (forall u, leaf_pte (phys s3) N3 u =
     if decide (u = k) then mapped_pte p (PTE_FLAGS (leaf_pte (phys s) No k)) else leaf_pte (phys s2) Nn u) ->
  copy_inv K s0 s3 old new No N3 l3 Fo (<[k := p]> Fn) (k + 1).
Proof.
  intros [A B C D E F G St] Hk Hpa El HAn HAo Hpn Hpo Hok HF2 Hpl Hcopy G3 HA3 Hnone HL3.
  assert (as_inv s3 old No l3 Fo) as HAo3.
  { eapply other_grows; [exact HAo|exact G3|apply HA3|]. intros q Hq Hn. apply (C q Hq). by left. }
  assert (forall v q, Fo !! v = Some q -> same_page (phys s) (phys s3) q) as Hso.
  { intros v q Hq. eapply same_page_trans.
    - eapply frame_same_page; [exact HF2|exact (as_frame_aligned _ _ _ _ _ _ _ A Hq)|].
      intros <-. apply Hpo. right. by eexists.
    - eapply grows_same_page; [exact G3|exact (as_frame_aligned _ _ _ _ _ _ _ A Hq)| |].
      + intros Hn. apply (C q); [right; by eexists|by left].
      + by eapply (as_disj _ _ _ _ _ HAo). }
  assert (forall v q, Fn !! v = Some q -> same_page (phys s) (phys s3) q) as Hsn.
  { intros v q Hq. eapply same_page_trans.
    - eapply frame_same_page; [exact HF2|exact (as_frame_aligned _ _ _ _ _ _ _ B Hq)|].
      intros <-. apply Hpn. right. by eexists.
    - eapply grows_same_page; [exact G3|exact (as_frame_aligned _ _ _ _ _ _ _ B Hq)| |];
        by eapply (as_disj _ _ _ _ _ HAn). }
  assert (same_page (phys s2) (phys s3) p) as Hsp.
  { eapply grows_same_page; [exact G3|by apply page_ok_aligned| |done].
    intros Hn. apply Hpn. by left. }
  assert (forall v, leaf_pte (phys s2) No v = leaf_pte (phys s) No v) as HLo.
  { intros v. eapply leaf_pte_frame; [exact HF2| |apply A]. intros j t Ht <-. apply Hpo. left. by eexists. }
  assert (forall v, leaf_pte (phys s3) No v = leaf_pte (phys s) No v) as HLo3.
  { intros v. rewrite <- HLo. eapply leaf_pte_frame; [apply G3| |apply HAo].
    intros j t Ht [Hn|[Hn _]]%(pg_from _ _ _ _ _ _ G3).
    - apply (C t); [left; by eexists|by left].
    - eapply owns_not_free; [exact HAo| |done]. left. by eexists. }
  constructor; try done.
  - intros q Hq [Hn|[v Hv]].
    + apply (pg_from _ _ _ _ _ _ G3) in Hn as [Hn|[Hn _]]; [by apply (C q Hq); left|].
      by eapply owns_not_free in Hq; [|exact HAo].
    + rewrite lookup_insert in Hv. case_decide; [simplify_eq; done|]. apply (C q Hq). right. by eexists.
  - intros v q Hq. eapply same_page_trans; [by eapply D|by eapply Hso].
  - intros v. by rewrite HLo3.
  - intros v Hv. destruct (decide (v = k)) as [->|Hne].
    + unfold page_copied. rewrite Hpa. exists p. rewrite lookup_insert_eq. split_and!; [done| |].
      * intros i Hi. rewrite Hsp by lia. rewrite (Hso k pa Hpa) by lia. by apply Hcopy.
      * rewrite HL3, decide_True, HLo3 by done.
        pose proof (PTE_FLAGS_range (leaf_pte (phys s) No k)).
        destruct (mapped_pte_spec p (PTE_FLAGS (leaf_pte (phys s) No k))) as (_ & _ & _ & ->);
          [by apply page_ok_aligned|by apply page_ok_range|done|].
        apply flags_V. by apply (as_frame _ _ _ _ _ A) in Hpa as (_ & ? & _).
    + assert (page_copied (phys s) No Nn Fo Fn v) as Hc by (apply F; lia).
      assert (page_copied (phys s3) No N3 Fo Fn v) as Hc3.
      { eapply page_copied_same; [exact Hc|by intros; eapply Hso|by intros; eapply Hsn|apply HLo3|].
        rewrite HL3, decide_False by done. eapply leaf_pte_frame; [exact HF2| |apply B].
        intros j t Ht <-. apply Hpn. left. by eexists. }
      unfold page_copied in *. by rewrite lookup_insert_ne by done.
  - intros v Hv. rewrite lookup_insert_ne by lia. apply G. lia.
  - intros q. rewrite (stock_grows _ _ _ _ _ _ _ _ G3), stock_insert, <- El by done. apply St.
Qed.

(** Changes outside both address spaces keep the invariant of the loop. *)
Lemma copy_inv_keep K s0 s old new No Nn l Fo Fn k s' N' l' p :
  copy_inv K s0 s old new No Nn l Fo Fn k ->
  as_inv s' old No l' Fo -> as_inv s' new N' l' Fn ->
  frame (fun q => q = p \/ is_node N' q) (phys s) (phys s') ->
  (forall q, owns No Fo q -> q <> p) -> (forall q, owns No Fo q -> ~ is_node N' q) ->
  (forall q, (exists v, Fn !! v = Some q) -> q <> p) ->
  (forall v, leaf_pte (phys s') N' v = leaf_pte (phys s) Nn v) -> (forall q, stock l' N' Fn q <-> stock l Nn Fn q) ->
  copy_inv K s0 s' old new No N' l' Fo Fn k.
Proof.
  intros [A B C D E F G St] HAo HAn HF Ho1 Ho2 Hn1 HLn HSt.
  assert (forall v q, Fo !! v = Some q -> same_page (phys s) (phys s') q) as Hso.
  { intros v q Hq. eapply frame_same_page; [exact HF|exact (as_frame_aligned _ _ _ _ _ _ _ A Hq)|].
    assert (owns No Fo q) by (right; by eexists). intros [?|?]; [by apply (Ho1 q)|by apply (Ho2 q)]. }
  assert (forall v q, Fn !! v = Some q -> same_page (phys s) (phys s') q) as Hsn.
  { intros v q Hq. eapply frame_same_page; [exact HF|exact (as_frame_aligned _ _ _ _ _ _ _ B Hq)|].
    intros [?|?]; [apply (Hn1 q); [by eexists|done]|]. by apply (as_disj _ _ _ _ _ HAn) in Hq as [_ ?]. }
  assert (forall v, leaf_pte (phys s') No v = leaf_pte (phys s) No v) as HLo.
  { intros v. eapply leaf_pte_frame; [exact HF| |apply A]. intros j t Ht.
    assert (owns No Fo t) by (left; by eexists). intros [?|?]; [by apply (Ho1 t)|by apply (Ho2 t)]. }
  constructor; try done.
  - intros q Hq [Hn|[v Hv]]; [by apply (Ho2 q)|]. apply (C q Hq). right. by eexists.
  - intros v q Hq. eapply same_page_trans; [by eapply D|by eapply Hso].
  - intros v. by rewrite HLo.
  - intros v Hv. eapply page_copied_same; [by apply F|by intros; eapply Hso|by intros; eapply Hsn|apply HLo|done].
  - intros q. by rewrite HSt.
Qed.

(** The child has only copies of the parent's pages. *)
Lemma copy_inv_dom K s0 s old new No Nn l Fo Fn k v :
  copy_inv K s0 s old new No Nn l Fo Fn k -> 0 <= k -> is_Some (Fn !! v) -> is_Some (Fo !! v) /\ v < k.
Proof.
  intros [A B C D E F G St] Hk [q Hq]. destruct (decide (k <= v)); [by rewrite G in Hq by done|]. split; [|lia].
  pose proof (as_frame _ _ _ _ _ B _ _ Hq) as (? & _). specialize (F v ltac:(lia)). unfold page_copied in F.
  destruct (Fo !! v); [done|congruence].
Qed.

Lemma copy_room K s0 s old new No Nn l Fo Fn k :
  copy_inv K s0 s old new No Nn l Fo Fn k -> 0 <= k -> is_Some (Fo !! k) -> (size Fn < size Fo)%nat.
Proof.
  intros HC Hk Hm. rewrite <- !size_dom. apply subset_size. split.
  - intros v. rewrite !elem_of_dom. intros Hv. by eapply (copy_inv_dom _ _ _ _ _ _ _ _ _ _ _ v HC).
  - intros Hs. specialize (Hs k). rewrite !elem_of_dom in Hs. destruct (copy_inv_dom _ _ _ _ _ _ _ _ _ _ _ k HC Hk (Hs Hm)). lia.
Qed.

(** Pages that are free once the child's have been released. *)
Lemma freed_length (l l' : list Z) (F : gmap Z Z) :
  NoDup l' -> (forall p, p ∈ l' <-> p ∈ l \/ exists v, F !! v = Some p) -> (length l' <= length l + size F)%nat.
Proof.
  intros Hnd H. assert (l' ⊆+ l ++ (map_to_list F).*2) as Hs.
  { apply NoDup_submseteq; [done|]. intros p [Hp|[v Hv]]%H; apply elem_of_app; [by left|right].
    apply list_elem_of_fmap. exists (v, p). split; [done|]. by apply elem_of_map_to_list. }
  apply submseteq_length in Hs. by rewrite length_app, length_fmap, length_map_to_list in Hs.
Qed.

(** The error exit: every page already given to the child is freed again. *)
Lemma copy_undo_wp K s0 s old new No Nn l Fo Fn k i :
  copy_inv K s0 s old new No Nn l Fo Fn k -> aligned i -> 0 <= i <= TRAPFRAME -> k = vpn i ->
  wp (uvmunmap new 0 (i / PGSIZE) true;; mret (-1)) (fun r s' => r = -1 /\ exists l',
     as_inv s' old No l' Fo /\ as_inv s' new Nn l' ∅ /\
     (forall p, p ∈ l' <-> p ∈ l \/ exists v, Fn !! v = Some p) /\
     (forall v pa, Fo !! v = Some pa -> same_page (phys s0) (phys s') pa)) s.
Proof.
  intros [A B C D E F G St] Ha Hi ->.
  assert (0 <= i / PGSIZE) by (apply Z.div_pos; pg).
  pose proof (aligned_vpn _ Ha) as Ei. unfold vpn in Ei.
  eapply wp_call; [apply uvmunmap_wp; [exact B|lia|done|lia|rewrite <- Ei; lia]|].
  intros u s' (l' & HA' & Hl' & HF' & _). apply wp_ret. split; [done|]. exists l'.
  change (vpn 0) with 0 in *. rewrite Z2Nat.id in * by lia. rewrite Z.add_0_l in *.
  assert (remove_range (Z.to_nat (i / PGSIZE)) 0 Fn = ∅) as Eempty.
  { apply map_eq. intros v. rewrite lookup_empty, lookup_remove_range, Z2Nat.id by lia.
    case_decide; [done|]. destruct (Fn !! v) eqn:EF; [|done].
    destruct (decide (vpn i <= v)) as [Hv|Hv]; [rewrite G in EF by done; done|].
    apply (as_frame _ _ _ _ _ B) in EF as (? & _). unfold vpn in *. lia. }
  rewrite Eempty in HA'.
  assert (forall p, p ∈ l' <-> p ∈ l \/ exists v, Fn !! v = Some p) as Hl2.
  { intros p. rewrite Hl'. split; intros [?|(v & Hv)]; [by left|right; exists v; apply Hv|by left|].
    right. exists v. split; [|done]. destruct (decide (vpn i <= v)) as [Hv'|Hv'].
    - rewrite G in Hv by done. done.
    - apply (as_frame _ _ _ _ _ B) in Hv as (? & _). unfold vpn in *. lia. }
  assert (forall p, owns No Fo p -> ~ (is_node Nn p \/ exists v, 0 <= v < i / PGSIZE /\ Fn !! v = Some p)) as Hfr.
  { intros p Hp [?|(v & _ & Hv)]; apply (C p Hp); [by left|right; by eexists]. }
  split_and!; [|done|done|].
  - eapply as_inv_other; [exact A|exact HF'|apply HA'|].
    intros p Hp. split; [by apply Hfr|]. rewrite Hl2. intros [?|(v & Hv)].
    + by eapply owns_not_free in Hp; [|exact A].
    + apply (C p Hp). right. by eexists.
  - intros v pa Hv. eapply same_page_trans; [by eapply D|].
    eapply frame_same_page; [exact HF'|exact (as_frame_aligned _ _ _ _ _ _ _ A Hv)|].
    apply Hfr. right. by eexists.
Qed.

(** On failure the child is empty again; what it had, and what is free, is as
    before but for pages that have become part of its page table, and there
    was not enough memory for a copy of the parent. *)
Definition uvmcopy_post (K : Z -> Prop) (s0 : kmem) (old new : Z) (No : nodemap) (Fo : gmap Z Z) (sz : Z)
    (r : Z) (s' : kmem) : Prop :=
  exists Nn' l' Fn', as_inv s' old No l' Fo /\ as_inv s' new Nn' l' Fn' /\
    (forall v pa, Fo !! v = Some pa -> same_page (phys s0) (phys s') pa) /\
    (forall p, stock l' Nn' Fn' p <-> K p) /\
    ((r = 0 /\
       (forall p, owns No Fo p -> ~ owns Nn' Fn' p) /\
       (forall v, 0 <= v < vpn_up sz -> page_copied (phys s') No Nn' Fo Fn' v) /\
       (forall v, vpn_up sz <= v -> Fn' !! v = None)) \/
     (r = -1 /\ Fn' = ∅ /\ (length l' <= size Fo)%nat)).

Lemma uvmcopy_loop_wp n K s0 s old new No Nn l Fo Fn i sz :
  copy_inv K s0 s old new No Nn l Fo Fn (vpn i) -> aligned i -> 0 <= i <= PGROUNDUP sz ->
  0 <= sz <= TRAPFRAME -> sz - i <= Z.of_nat n * PGSIZE ->
  wp (uvmcopy_loop n old new i sz) (uvmcopy_post K s0 old new No Fo sz) s.
Proof.
  revert s Nn l Fn i. induction n as [|n IH]; intros s Nn l Fn i HC Ha Hi Hsz Hfuel; cbn [uvmcopy_loop].
  all: destruct (roundup_vpn sz Hsz) as (Eup & Hup & Haup & Hrup).
  all: destruct (Z.ltb_spec i sz) as [Hlt|Hge]; cbn [negb].
  1: unfold PGSIZE in *; lia.
  1, 3: assert (i = PGROUNDUP sz) as -> by
      (destruct (PGROUNDUP_spec sz) as [_ Hr]; [pg|];
       apply aligned_mult in Ha as [j ->]; apply aligned_mult in Haup as [j' E']; rewrite E' in *;
       unfold PGSIZE in *; lia);
    apply wp_ret; exists Nn, l, Fn; split_and!; [apply HC..|left; split; [done|]]; split_and!; apply HC.
  pose proof HC as [A B C D E F G St].
  assert (i + PGSIZE <= PGROUNDUP sz) as Hstep.
  { pose proof (aligned_vpn _ Ha) as Ei. rewrite Eup, Ei.
    assert (vpn i < vpn_up sz) by (rewrite <- vpn_lt_up; (done || lia)). unfold PGSIZE. lia. }
  assert (0 <= vpn i < uvpn) as Hv.
  { split; [apply vpn_range; pg|]. apply vpn_lt_uvpn; [done|lia]. }
  assert (forall s' Nn' l' Fn', copy_inv K s0 s' old new No Nn' l' Fo Fn' (vpn i + 1) ->
     wp (uvmcopy_loop n old new (w64 (i + PGSIZE)) sz) (uvmcopy_post K s0 old new No Fo sz) s') as Hnext.
  { intros s' Nn' l' Fn' HC'. rewrite w64_id by pg. eapply IH; [|by apply aligned_succ|pg|done|lia].
    rewrite vpn_succ. exact HC'. }
  assert (forall s' Nn' l' Fn', is_Some (Fo !! vpn i) -> (length l' <= 1)%nat -> copy_inv K s0 s' old new No Nn' l' Fo Fn' (vpn i) ->
     wp (uvmunmap new 0 (i / PGSIZE) true;; mret (-1)) (uvmcopy_post K s0 old new No Fo sz) s') as Herr.
  { intros s' Nn' l' Fn' Hm Hl1 HC'. eapply wp_mono; [eapply copy_undo_wp; [exact HC'|done|lia|done]|].
    intros r s2 (-> & l2 & HAo & HAn & Hl2 & Hsame). exists Nn', l2, ∅. split_and!; [done..| |].
    - intros p. rewrite <- (ci_stock _ _ _ _ _ _ _ _ _ _ _ HC' p). unfold stock, owns. rewrite Hl2.
      split; [intros [[?|?]|[?|[w Hw]]]; [auto..|by rewrite lookup_empty in Hw]|intros [?|[?|?]]; auto].
    - right. split_and!; [done..|]. pose proof (freed_length _ _ _ ltac:(apply HAo) Hl2).
      pose proof (copy_room _ _ _ _ _ _ _ _ _ _ _ HC' ltac:(lia) Hm). lia. }
  assert (has (leaf_pte (phys s) No (vpn i)) PTE_V = false -> Fo !! vpn i = None) as Hnm.
  { intros Hf. destruct (Fo !! vpn i) eqn:EF; [|done].
    apply (as_frame _ _ _ _ _ A) in EF as (_ & ? & _). congruence. }
  eapply wp_call; [apply walk_wp; [apply A|pg]|]. intros r s1 [-> ->].
  destruct (leaf_ptr_cases (phys s) old No (vpn i)) as [(-> & _ & E0)|(b & -> & Hb & Hlb & Eb)]; [apply A| |].
  { simpl. apply (Hnext s Nn l Fn). apply copy_inv_skip; [done|]. apply Hnm. by rewrite E0. }
  destruct (Z.eqb_spec b 0); [lia|]. km_steps. rewrite Eb.
  destruct (has (leaf_pte (phys s) No (vpn i)) PTE_V) eqn:EV; cbn [negb].
  2: { apply (Hnext s Nn l Fn). apply copy_inv_skip; [done|]. by apply Hnm. }
  destruct (as_all _ _ _ _ _ A (vpn i) Hv EV) as [pa Hpa].
  pose proof (as_frame _ _ _ _ _ A _ _ Hpa) as (_ & _ & -> & Hokpa).
  apply wp_bind. eapply wp_mono; [apply kalloc_cases; apply A|].
  intros p s1 [(-> & El & ->)|(l1 & El & Hok & Hkm1 & HF1)].
  { simpl. apply (Herr s Nn l Fn); [by eexists|rewrite El; cbn; lia|exact HC]. }
  pose proof (page_ok_pos _ Hok). destruct (Z.eqb_spec p 0); [lia|]. apply wp_bind, wp_memmove.
  pose proof (page_ok_aligned _ Hok) as Hpal.
  set (s2 := set_phys (fun m => memmove m p pa PGSIZE) s1).
  assert (frame (eq p) (phys s1) (phys s2)) as HF12 by (apply frame_memmove; [done|unfold PGSIZE; lia]).
  destruct (alloc_page_as s s1 s2 old No l p l1 Fo) as (HA2o & Hpl & Hpo & HF2); try done.
  destruct (alloc_page_as s s1 s2 new Nn l p l1 Fn) as (HA2n & _ & Hpn & _); try done.
  apply wp_bind. eapply wp_mono.
  { apply map_page_wp; [exact HA2n|pg|done|apply G; lia|done|done|done|apply PTE_FLAGS_range]. }
  intros ret s3 (N3 & l3 & G3 & Hc).
  assert (forall j, 0 <= j < PGSIZE -> mget (phys s2) (p + j) = mget (phys s) (pa + j)) as Hcopy.
  { intros j Hj. simpl. rewrite mget_memmove by (unfold PGSIZE; lia). rewrite decide_True by lia.
    rewrite Z.add_simpl_l. apply HF1.
    rewrite (page_of_unique pa); [|apply Hokpa|lia]. intros ->. apply Hpo. right. by eexists. }
  destruct Hc as [(-> & HA3 & HL3)|(-> & -> & HA3 & HL3)].
  - simpl. apply (Hnext s3 N3 l3 (<[vpn i := p]> Fn)).
    eapply (copy_inv_step K s0 s old new No Nn l Fo Fn (vpn i) pa p l1 s2 s3); try done; [lia|apply G; lia].
  - cbn [Z.eqb negb]. apply wp_bind.
    destruct (map_fail_as _ _ _ _ _ _ _ _ HA2n G3 HA3 Hpn Hpl) as [Hpn3 Hpl3].
    eapply wp_mono; [apply kfree_wp; [apply HA3|done|done]|]. intros u s4 [Hkm4 HF4].
    apply (Herr s4 N3 [p] Fn); [by eexists|cbn; lia|].
    assert (forall q, owns No Fo q -> q <> p) as Hqo by (intros q Hq ->; done).
    assert (forall q, owns N3 Fn q -> q <> p) as Hqn by (intros q Hq ->; done).
    assert (as_inv s3 old No [] Fo) as HAo3.
    { eapply other_grows; [exact HA2o|exact G3|apply HA3|]. intros q Hq Hn. apply (C q Hq). by left. }
    assert (forall q, owns No Fo q -> ~ is_node N3 q) as Hon.
    { intros q Hq [Hn|[Hn _]]%(pg_from _ _ _ _ _ _ G3); [by apply (C q Hq); left|].
      by eapply owns_not_free in Hq; [|exact HA2o]. }
    apply (copy_inv_keep K s0 s old new No Nn l Fo Fn (vpn i) s4 N3 [p] p); try done.
    + eapply as_inv_other; [exact HAo3|exact HF4|done|]. intros q Hq. pose proof (Hqo q Hq). set_solver.
    + eapply as_inv_other; [exact HA3|exact HF4|done|]. intros q Hq. pose proof (Hqn q Hq). set_solver.
    + eapply frame_mono; [eapply frame_trans; [eapply frame_trans; [exact HF2|apply G3]|exact HF4]|].
      simpl. intros q [[?|?]|?]; auto.
    + intros q Hq. eapply Hqn. by right.
    + intros v. etrans; [eapply (leaf_pte_frame (eq p)); [exact HF4| |apply HA3]|].
      { intros j t Ht <-. apply Hpn3. left. by eexists. }
      rewrite HL3. eapply (leaf_pte_frame (eq p)); [exact HF2| |apply B].
      intros j t Ht <-. apply Hpn. left. by eexists.
    + intros q. pose proof (stock_grows _ _ _ _ _ _ Fn q G3) as HS. unfold stock in *. rewrite El, !elem_of_cons.
      split; [intros [[->|?%elem_of_nil]|Hq]; [by left; left|done|]|intros [[->|Hq]|Hq]; [by left; left|..]].
      * destruct (proj1 HS (or_intror Hq)); auto.
      * destruct (proj2 HS (or_introl Hq)) as [?|?]; [set_solver|by right].
      * destruct (proj2 HS (or_intror Hq)) as [?|?]; [set_solver|by right].
Qed.

Lemma uvmcopy_wp s old new No Nn l Fo sz :
  as_inv s old No l Fo -> as_inv s new Nn l ∅ -> (forall p, owns No Fo p -> ~ is_node Nn p) ->
  0 <= sz <= TRAPFRAME ->
  wp (uvmcopy old new sz) (uvmcopy_post (stock l Nn ∅) s old new No Fo sz) s.
Proof.
  intros Ho Hn Hd Hsz. unfold uvmcopy.
  destruct (roundup_vpn sz Hsz) as (Eup & Hup & Haup & Hrup).
  eapply (uvmcopy_loop_wp _ _ s s old new No Nn l Fo ∅ 0 sz); [|done|lia|done|].
  - constructor; try done.
    + intros p Hp [?|[v Hv]]; [by apply (Hd p)|]. by rewrite lookup_empty in Hv.
    + intros v Hv. change (vpn 0) with 0 in Hv. lia.
  - rewrite Z2Nat.id by (apply Z.div_pos; pg). rewrite Eup, Z.div_mul by pg. lia.
Qed.
End uvm.
