(* ===== verification/Paging.v ===== *)
(** * Demand paging (kernel/vm.c, kernel/paging.h, kernel/memstat.h)

    The per-process paging state (struct paging_info), the swap-slot bitmap,
    the page-fault handler with its text, data and heap cases, FIFO eviction,
    swap-out and swap-in.  The operations of the file system that the paging
    code calls are the interface [FsOps].  The lines the kernel prints
    ("[pid n] PAGEFAULT ...") are recorded, newest first, as [event]s. *)
From S2P Require Import Prelude Mem Riscv Kalloc Vm.
From stdpp Require Import base tactics numbers list strings gmap.
From Stdlib Require Import ZArith Lia.

Open Scope Z_scope.

Definition MAX_SWAP_PAGES : Z := 1024.
Definition SWAP_BITMAP_SIZE : Z := (MAX_SWAP_PAGES + 7) / 8.
Definition MAX_TRACKED_PAGES : Z := 35000.

Definition UNMAPPED : Z := 0.
Definition RESIDENT : Z := 1.
Definition SWAPPED : Z := 2.

(** struct page_info *)
Record page_info := PageInfo {
  pi_va : Z;
  pi_state : Z;
  pi_dirty : Z;
  pi_fifo_seq : Z;
  pi_swap_slot : Z;
  pi_exec_offset : Z;
  pi_from_exec : Z
}.

Definition pi_zero : page_info := PageInfo 0 0 0 0 0 0 0.

(** struct paging_info *)
Record paging_info := PagingInfo {
  swapfile : Z;              (* struct file *, 0 when there is none *)
  swappath : list Z;         (* char swappath[32] *)
  swap_bitmap : list Z;      (* uint8 swap_bitmap[SWAP_BITMAP_SIZE] *)
  swap_used : Z;
  next_fifo_seq : Z;
  pages : list page_info;    (* pages[MAX_TRACKED_PAGES] *)
  num_pages : Z;
  text_start : Z; text_end : Z;
  data_start : Z; data_end : Z;
  heap_start : Z; stack_top : Z;
  text_offset : Z; data_offset : Z;
  text_filesz : Z; data_filesz : Z;
  exec_ip : Z                (* struct inode *, 0 when there is none *)
}.

(** The fields of struct proc the paging code reads and writes. *)
Record pproc := PProc {
  p_pid : Z;
  p_sz : Z;
  p_pagetable : Z;
  p_killed : Z;
  p_paging : paging_info
}.

(** ** Record updates *)

Definition set_swapfile f g := PagingInfo f (swappath g) (swap_bitmap g) (swap_used g) (next_fifo_seq g)
  (pages g) (num_pages g) (text_start g) (text_end g) (data_start g) (data_end g) (heap_start g)
  (stack_top g) (text_offset g) (data_offset g) (text_filesz g) (data_filesz g) (exec_ip g).
Definition set_swappath x g := PagingInfo (swapfile g) x (swap_bitmap g) (swap_used g) (next_fifo_seq g)
  (pages g) (num_pages g) (text_start g) (text_end g) (data_start g) (data_end g) (heap_start g)
  (stack_top g) (text_offset g) (data_offset g) (text_filesz g) (data_filesz g) (exec_ip g).
Definition set_swap b u g := PagingInfo (swapfile g) (swappath g) b u (next_fifo_seq g)
  (pages g) (num_pages g) (text_start g) (text_end g) (data_start g) (data_end g) (heap_start g)
  (stack_top g) (text_offset g) (data_offset g) (text_filesz g) (data_filesz g) (exec_ip g).
Definition set_next_seq n g := PagingInfo (swapfile g) (swappath g) (swap_bitmap g) (swap_used g) n
  (pages g) (num_pages g) (text_start g) (text_end g) (data_start g) (data_end g) (heap_start g)
  (stack_top g) (text_offset g) (data_offset g) (text_filesz g) (data_filesz g) (exec_ip g).
Definition set_pages l g := PagingInfo (swapfile g) (swappath g) (swap_bitmap g) (swap_used g) (next_fifo_seq g)
  l (num_pages g) (text_start g) (text_end g) (data_start g) (data_end g) (heap_start g)
  (stack_top g) (text_offset g) (data_offset g) (text_filesz g) (data_filesz g) (exec_ip g).

(** The segment fields that exec fills in. *)
Definition set_segs ts te ds de hs st to d_o tf df ip g := PagingInfo (swapfile g) (swappath g) (swap_bitmap g)
  (swap_used g) (next_fifo_seq g) (pages g) (num_pages g) ts te ds de hs st to d_o tf df ip.

Definition pi_set_state x i := PageInfo (pi_va i) x (pi_dirty i) (pi_fifo_seq i) (pi_swap_slot i)
  (pi_exec_offset i) (pi_from_exec i).
Definition pi_set_slot x i := PageInfo (pi_va i) (pi_state i) (pi_dirty i) (pi_fifo_seq i) x
  (pi_exec_offset i) (pi_from_exec i).
Definition pi_set_dirty x i := PageInfo (pi_va i) (pi_state i) x (pi_fifo_seq i) (pi_swap_slot i)
  (pi_exec_offset i) (pi_from_exec i).
Definition pi_set_seq x i := PageInfo (pi_va i) (pi_state i) (pi_dirty i) x (pi_swap_slot i)
  (pi_exec_offset i) (pi_from_exec i).
Definition pi_set_from_exec x i := PageInfo (pi_va i) (pi_state i) (pi_dirty i) (pi_fifo_seq i)
  (pi_swap_slot i) (pi_exec_offset i) x.
Definition pi_set_va x i := PageInfo x (pi_state i) (pi_dirty i) (pi_fifo_seq i) (pi_swap_slot i)
  (pi_exec_offset i) (pi_from_exec i).

(** ** Swap slots *)

(** [for (int i = 0; i < MAX_SWAP_PAGES; i++)]: the first clear bit at or after [i]. *)
Fixpoint first_free (n : nat) (i : Z) (bitmap : list Z) : option Z :=
  match n with
  | O => None
  | S n =>
      let byte_idx := i / 8 in
      let bit_idx := i mod 8 in
      if Z.land (nth (Z.to_nat byte_idx) bitmap 0) (Z.shiftl 1 bit_idx) =? 0 then Some i
      else first_free n (i + 1) bitmap
  end.

Definition alloc_swap_slot (g : paging_info) : Z * paging_info :=
  match first_free (Z.to_nat MAX_SWAP_PAGES) 0 (swap_bitmap g) with
  | Some i =>
      let b := Z.to_nat (i / 8) in
      let byte := w8 (Z.lor (nth b (swap_bitmap g) 0) (Z.shiftl 1 (i mod 8))) in
      (i, set_swap (<[b := byte]> (swap_bitmap g)) (s32 (swap_used g + 1)) g)
  | None => (-1, g)
  end.

Definition free_swap_slot (slot : Z) (g : paging_info) : paging_info :=
  if (slot <? 0) || (MAX_SWAP_PAGES <=? slot) then g
  else
    let b := Z.to_nat (slot / 8) in
    if negb (Z.land (nth b (swap_bitmap g) 0) (Z.shiftl 1 (slot mod 8)) =? 0) then
      let byte := w8 (Z.land (nth b (swap_bitmap g) 0) (Z.lnot (Z.shiftl 1 (slot mod 8)))) in
      set_swap (<[b := byte]> (swap_bitmap g)) (s32 (swap_used g - 1)) g
    else g.

(** ** Page tracking *)

(** [&p->paging.pages[page_num]] as the index, or the null pointer. *)
Definition get_page_info (va : Z) : option Z :=
  let va := PGROUNDDOWN va in
  let page_num := va / PGSIZE in
  if MAX_TRACKED_PAGES <=? page_num then None else Some page_num.

Definition page_at (g : paging_info) (i : Z) : page_info := nth (Z.to_nat i) (pages g) pi_zero.
Definition upd_page (i : Z) (f : page_info -> page_info) (g : paging_info) : paging_info :=
  set_pages (<[Z.to_nat i := f (page_at g i)]> (pages g)) g.

(** memset(&p->paging, 0, sizeof) and the initial values. *)
Definition paging_zero : paging_info :=
  PagingInfo 0 (replicate 32 0) (replicate (Z.to_nat SWAP_BITMAP_SIZE) 0) 0 0
    (replicate (Z.to_nat MAX_TRACKED_PAGES) pi_zero) 0 0 0 0 0 0 0 0 0 0 0 0.

(** The body of the loop over the first 512 pages. *)
Definition init_page (i : page_info) : page_info :=
  pi_set_from_exec 0 (pi_set_seq 0 (pi_set_slot (-1) (pi_set_state UNMAPPED i))).

Definition init_paging_info (g : paging_info) : paging_info :=
  let g := set_next_seq 1 paging_zero in
  let g := set_swapfile 0 g in
  let g := set_swap (swap_bitmap g) 0 g in
  let g := set_pages (map init_page (take 512 (pages g)) ++ drop 512 (pages g)) g in
  set_swap (replicate (Z.to_nat SWAP_BITMAP_SIZE) 0) (swap_used g) g.

(** cleanup_paging_info has an empty body. *)
Definition cleanup_paging_info (g : paging_info) : paging_info := g.

(** The scan of evict_page_fifo over [pages[0 .. 34999]]: victim_idx and min_seq. *)
Fixpoint find_victim (l : list page_info) (i victim_idx min_seq : Z) : Z * Z :=
  match l with
  | [] => (victim_idx, min_seq)
  | x :: l =>
      if (pi_state x =? RESIDENT) && (pi_fifo_seq x <? min_seq)
      then find_victim l (i + 1) i (pi_fifo_seq x)
      else find_victim l (i + 1) victim_idx min_seq
  end.

(** ** What the kernel prints *)

Inductive access := Aread | Awrite | Aexec.
Inductive fault_cause := Cswap | Cexec | Cheap | Cinvalid.

Inductive event :=
  | EPagefault (pid va : Z) (a : access) (c : fault_cause)
  | EMemfull (pid : Z)
  | EKillOom (pid : Z)
  | EKillRead (pid : Z)
  | EKillMap (pid : Z)
  | EKillInvalid (pid va : Z) (a : access)
  | EKillSwap (pid : Z)
  | ELoadexec (pid va : Z)
  | EAlloc (pid va : Z)
  | EResident (pid va seq : Z)
  | EVictim (pid va seq : Z)
  | EEvict (pid va : Z) (clean : bool)
  | EDiscard (pid va : Z)
  | ESwapfull (pid : Z)
  | ESwapout (pid va slot : Z)
  | ESwapin (pid va slot : Z)
  | ESwapcleanup (pid freed_slots : Z)
  | EInitLazymap (pid ts te ds de hs st : Z)
  | ESwapfileError (pid : Z).

(** ** The file system as the paging code uses it

    Inodes and files are the addresses the C code holds.  [fs_readi] returns
    the bytes readi copied to the kernel buffer (their number is readi's
    result), [fs_writei] takes the bytes of the kernel buffer. *)
Class FsOps := {
  fs : Type;
  fs_begin_op : M fs unit;
  fs_end_op : M fs unit;
  fs_ilock : Z -> M fs unit;
  fs_iunlock : Z -> M fs unit;
  fs_iunlockput : Z -> M fs unit;
  fs_clear_nlink : Z -> M fs unit;            (* ip->nlink = 0 *)
  fs_iupdate : Z -> M fs unit;
  fs_readi : Z -> Z -> Z -> M fs (list Z);    (* ip, off, n *)
  fs_writei : Z -> Z -> list Z -> M fs Z;     (* ip, off, bytes *)
  fs_create : list Z -> M fs Z;               (* create(name, T_FILE, 0, 0) *)
  fs_filealloc : M fs Z;
  fs_file_open_inode : Z -> Z -> M fs unit;   (* f->type = FD_INODE; off = 0; readable, writable = 1; f->ip = ip *)
  fs_file_ip : Z -> M fs Z                    (* f->ip *)
}.

(** The bytes of kernel memory from [a] on, and storing bytes there. *)
Definition bytes_at (m : gmap Z Z) (a : Z) (n : nat) : list Z :=
  map (fun i => mget m (a + Z.of_nat i)) (seq 0 n).
Fixpoint store_bytes (m : gmap Z Z) (a : Z) (l : list Z) : gmap Z Z :=
  match l with [] => m | b :: l => store_bytes (mset m a b) (a + 1) l end.

Section paging.
Context {KL : KernelLayout} {FS : FsOps}.

(** Memory, the current process, the file system and the console. *)
Record pstate := PState { ps_km : kmem; ps_proc : pproc; ps_fs : fs; ps_out : list event }.

Definition on_km {A} (c : M kmem A) : M pstate A :=
  zoom ps_km (fun k s => PState k (ps_proc s) (ps_fs s) (ps_out s)) c.
Definition on_fs {A} (c : M fs A) : M pstate A :=
  zoom ps_fs (fun f s => PState (ps_km s) (ps_proc s) f (ps_out s)) c.
Definition my {A} (f : pproc -> A) : M pstate A := gets (fun s => f (ps_proc s)).
Definition upd_proc (f : pproc -> pproc) : M pstate unit :=
  modify (fun s => PState (ps_km s) (f (ps_proc s)) (ps_fs s) (ps_out s)).
Definition paging {A} (f : paging_info -> A) : M pstate A := my (fun p => f (p_paging p)).
Definition upd_paging (f : paging_info -> paging_info) : M pstate unit :=
  upd_proc (fun p => PProc (p_pid p) (p_sz p) (p_pagetable p) (p_killed p) (f (p_paging p))).
Definition emit (e : Z -> event) : M pstate unit :=
  modify (fun s => PState (ps_km s) (ps_proc s) (ps_fs s) (e (p_pid (ps_proc s)) :: ps_out s)).
Definition setkilled : M pstate unit :=
  upd_proc (fun p => PProc (p_pid p) (p_sz p) (p_pagetable p) 1 (p_paging p)).

(** readi and writei on a kernel buffer. *)
Definition readi_kernel (ip dst off n : Z) : M pstate Z :=
  data ← on_fs (fs_readi ip off n);
  on_km (modify (set_phys (fun m => store_bytes m dst data)));;
  mret (Z.of_nat (length data)).
Definition writei_kernel (ip src off n : Z) : M pstate Z :=
  data ← gets (fun s => bytes_at (phys (ps_km s)) src (Z.to_nat n));
  on_fs (fs_writei ip off data).

(** [*pte], read only when [pte] is not null. *)
Definition ld_pte (pte : Z) : M kmem Z := if pte =? 0 then mret 0 else ld64 pte.

(** "pgswp" and five decimal digits of the pid. *)
Definition swap_name (pid : Z) : list Z :=
  [112; 103; 115; 119; 112] ++
  map (fun k => w8 (48 + Z.rem (Z.quot pid (10 ^ k)) 10)) [4; 3; 2; 1; 0].

(** safestrcpy(p->paging.swappath, name, 32) for a 10-character name. *)
Definition store_swappath (name : list Z) (old : list Z) : list Z := name ++ [0; 0] ++ drop 12 old.

Definition create_swap_file : M pstate Z :=
  f0 ← paging swapfile;
  if negb (f0 =? 0) then mret 0
  else
    pid ← my p_pid;
    let name := swap_name pid in
    upd_paging (fun g => set_swappath (store_swappath name (swappath g)) g);;
    on_fs fs_begin_op;;
    ip ← on_fs (fs_create name);
    if ip =? 0 then on_fs fs_end_op;; mret (-1)
    else
      on_fs (fs_iunlock ip);;
      f ← on_fs fs_filealloc;
      if f =? 0 then
        on_fs fs_begin_op;;
        on_fs (fs_ilock ip);;
        on_fs (fs_clear_nlink ip);;
        on_fs (fs_iupdate ip);;
        on_fs (fs_iunlockput ip);;
        on_fs fs_end_op;;
        on_fs fs_end_op;;
        mret (-1)
      else
        on_fs (fs_file_open_inode f ip);;
        upd_paging (set_swapfile f);;
        on_fs fs_end_op;;
        mret 0.

(** The clean-page branch of swapout_page. *)
Definition discard_page (va i : Z) : M pstate Z :=
  emit (fun pid => EEvict pid va true);;
  emit (fun pid => EDiscard pid va);;
  upd_paging (upd_page i (pi_set_state UNMAPPED));;
  pt ← my p_pagetable;
  pte ← on_km (walk pt va false);
  v ← on_km (ld_pte pte);
  (if negb (pte =? 0) && has v PTE_V then
     on_km (kfree (PTE2PA v));; on_km (st64 pte 0)
   else skip);;
  mret 0.

(** The swap file is there or has been created: allocate a slot, write the
    page, unmap it. *)
Definition swapout_dirty (va i : Z) : M pstate Z :=
  g ← paging id;
  let '(slot, g') := alloc_swap_slot g in
  upd_paging (fun _ => g');;
  if slot <? 0 then
    emit ESwapfull;; emit EKillSwap;; setkilled;; mret (-1)
  else
    pt ← my p_pagetable;
    pte ← on_km (walk pt va false);
    v ← on_km (ld_pte pte);
    if (pte =? 0) || negb (has v PTE_V) then
      upd_paging (free_swap_slot slot);; mret (-1)
    else
      let pa := PTE2PA v in
      on_fs fs_begin_op;;
      f ← paging swapfile;
      ip ← on_fs (fs_file_ip f);
      on_fs (fs_ilock ip);;
      let offset := w64 (slot * PGSIZE) in
      n ← writei_kernel ip pa (w32 offset) PGSIZE;
      if negb (n =? PGSIZE) then
        on_fs (fs_iunlock ip);;
        on_fs fs_end_op;;
        upd_paging (free_swap_slot slot);;
        mret (-1)
      else
        on_fs (fs_iunlock ip);;
        on_fs fs_end_op;;
        emit (fun pid => ESwapout pid va slot);;
        upd_paging (upd_page i (fun x => pi_set_from_exec 0 (pi_set_slot slot (pi_set_state SWAPPED x))));;
        on_km (kfree pa);;
        on_km (st64 pte 0);;
        mret 0.

Definition swapout_page (va : Z) : M pstate Z :=
  let va := PGROUNDDOWN va in
  match get_page_info va with
  | None => mret (-1)
  | Some i =>
      pi ← paging (fun g => page_at g i);
      if negb (pi_state pi =? RESIDENT) then mret (-1)
      else if (pi_dirty pi =? 0) && negb (pi_from_exec pi =? 0) then discard_page va i
      else
        emit (fun pid => EEvict pid va false);;
        f ← paging swapfile;
        ok ← (if f =? 0 then
                r ← create_swap_file;
                if r <? 0 then
                  emit ESwapfull;; emit EKillSwap;; setkilled;; mret false
                else mret true
              else mret true);
        if ok : bool then swapout_dirty va i else mret (-1)
  end.

Definition evict_page_fifo : M pstate Z :=
  l ← paging pages;
  let '(victim_idx, min_seq) := find_victim (take (Z.to_nat 35000) l) 0 (-1) 0x7FFFFFFF in
  if victim_idx <? 0 then mret (-1)
  else
    let victim_va := victim_idx * PGSIZE in
    emit (fun pid => EVictim pid victim_va min_seq);;
    swapout_page victim_va.

(** "kalloc, and if that fails evict a page and try again": the block that
    swapin_page and the three cases of handle_page_fault share.  0 means
    that no page could be found; [oom] is what the caller prints then. *)
Definition kalloc_evict (oom : M pstate unit) : M pstate Z :=
  mem ← on_km kalloc;
  if negb (mem =? 0) then mret mem
  else
    emit EMemfull;;
    r ← evict_page_fifo;
    if r <? 0 then oom;; mret 0
    else
      mem ← on_km kalloc;
      if mem =? 0 then oom;; mret 0 else mret mem.

(** pi->fifo_seq = p->paging.next_fifo_seq++, together with the other
    fields that are set when a page becomes resident. *)
Definition make_resident (i : Z) (f : page_info -> page_info) : M pstate Z :=
  seq ← paging next_fifo_seq;
  upd_paging (fun g => upd_page i (fun x => pi_set_seq seq (f x)) (set_next_seq (s32 (seq + 1)) g));;
  mret seq.

(** The end of swapin_page, once the page has been read into [mem]. *)
Definition swapin_finish (va i slot mem : Z) : M pstate Z :=
  emit (fun pid => ESwapin pid va slot);;
  upd_paging (free_swap_slot slot);;
  upd_paging (upd_page i (pi_set_slot (-1)));;
  pt ← my p_pagetable;
  r ← on_km (mappages pt va PGSIZE mem (Z.lor (Z.lor PTE_U PTE_R) PTE_W));
  if r <? 0 then on_km (kfree mem);; mret (-1)
  else
    seq ← make_resident i (fun x => pi_set_dirty 0 (pi_set_state RESIDENT x));
    emit (fun pid => EResident pid va seq);;
    mret 0.

Definition swapin_page (va : Z) : M pstate Z :=
  let va := PGROUNDDOWN va in
  match get_page_info va with
  | None => mret (-1)
  | Some i =>
      pi ← paging (fun g => page_at g i);
      if negb (pi_state pi =? SWAPPED) || (pi_swap_slot pi <? 0) then mret (-1)
      else
        let slot := pi_swap_slot pi in
        mem ← kalloc_evict skip;
        if mem =? 0 then mret (-1)
        else
          on_fs fs_begin_op;;
          f ← paging swapfile;
          ip ← on_fs (fs_file_ip f);
          on_fs (fs_ilock ip);;
          let offset := w64 (slot * PGSIZE) in
          n ← readi_kernel ip mem (w32 offset) PGSIZE;
          if negb (n =? PGSIZE) then
            on_fs (fs_iunlock ip);; on_fs fs_end_op;; on_km (kfree mem);; mret (-1)
          else
            on_fs (fs_iunlock ip);;
            on_fs fs_end_op;;
            swapin_finish va i slot mem
  end.

Definition access_of (cause : Z) : access :=
  if cause =? 13 then Aread else if cause =? 15 then Awrite else Aexec.

(** How many bytes of the page at [off] in a segment come from the file. *)
Definition read_size (page_offset_in_segment filesz : Z) : Z :=
  if filesz <=? page_offset_in_segment then 0
  else if filesz <? w64 (page_offset_in_segment + PGSIZE) then w64 (filesz - page_offset_in_segment)
  else PGSIZE.

(** The text and data cases of handle_page_fault, which differ in the
    segment they read and the permissions they map with. *)
Definition fault_exec (va : Z) (acc : access) (pi : option Z) (start offset filesz perm : Z)
    : M pstate Z :=
  emit (fun pid => EPagefault pid va acc Cexec);;
  mem ← kalloc_evict (emit EKillOom);
  if mem =? 0 then mret (-1)
  else
    on_km (do_memset mem 0 PGSIZE);;
    let page_offset_in_segment := w64 (va - start) in
    let file_offset := w64 (offset + page_offset_in_segment) in
    let read_size := read_size page_offset_in_segment filesz in
    ip ← paging exec_ip;
    ok ← (if (0 <? read_size) && negb (ip =? 0) then
            on_fs fs_begin_op;;
            on_fs (fs_ilock ip);;
            n ← readi_kernel ip mem (w32 file_offset) (w32 read_size);
            on_fs (fs_iunlock ip);;
            on_fs fs_end_op;;
            if negb (n =? read_size) then
              on_km (kfree mem);; emit EKillRead;; mret false
            else mret true
          else mret true);
    if negb ok then mret (-1)
    else
      pt ← my p_pagetable;
      r ← on_km (mappages pt va PGSIZE mem perm);
      if r <? 0 then on_km (kfree mem);; emit EKillMap;; mret (-1)
      else
        emit (fun pid => ELoadexec pid va);;
        match pi with
        | None => skip
        | Some i =>
            seq ← make_resident i (fun x =>
              pi_set_from_exec 1 (pi_set_dirty 0 (pi_set_state RESIDENT (pi_set_va va x))));
            emit (fun pid => EResident pid va seq)
        end;;
        mret 0.

Definition fault_heap (va : Z) (acc : access) (pi : option Z) : M pstate Z :=
  emit (fun pid => EPagefault pid va acc Cheap);;
  mem ← kalloc_evict (emit EKillOom);
  if mem =? 0 then mret (-1)
  else
    on_km (do_memset mem 0 PGSIZE);;
    pt ← my p_pagetable;
    r ← on_km (mappages pt va PGSIZE mem (Z.lor (Z.lor PTE_U PTE_R) PTE_W));
    if r <? 0 then on_km (kfree mem);; emit EKillMap;; mret (-1)
    else
      emit (fun pid => EAlloc pid va);;
      match pi with
      | None => skip
      | Some i =>
          seq ← make_resident i (fun x =>
            pi_set_slot (-1) (pi_set_from_exec 0 (pi_set_dirty 1 (pi_set_state RESIDENT (pi_set_va va x)))));
          emit (fun pid => EResident pid va seq)
      end;;
      mret 0.

Definition in_text (g : paging_info) (va : Z) : bool := (text_start g <=? va) && (va <? text_end g).
Definition in_data (g : paging_info) (va : Z) : bool := (data_start g <=? va) && (va <? data_end g).
Definition in_heap (p : pproc) (va : Z) : bool := (heap_start (p_paging p) <=? va) && (va <? p_sz p).

Definition handle_page_fault (va cause : Z) : M pstate Z :=
  let va := PGROUNDDOWN va in
  if MAXVA <=? va then
    emit (fun pid => EKillInvalid pid va (if cause =? 15 then Awrite else Aread));; mret (-1)
  else
    let acc := access_of cause in
    p ← my id;
    let g := p_paging p in
    if in_text g va && (cause =? 15) then setkilled;; mret 0
    else
      let pi := get_page_info va in
      if match pi with Some i => pi_state (page_at g i) =? SWAPPED | None => false end then
        emit (fun pid => EPagefault pid va acc Cswap);; swapin_page va
      else if in_text g va then
        fault_exec va acc pi (text_start g) (text_offset g) (text_filesz g)
          (Z.lor (Z.lor PTE_U PTE_R) PTE_X)
      else if in_data g va then
        fault_exec va acc pi (data_start g) (data_offset g) (data_filesz g)
          (Z.lor (Z.lor PTE_U PTE_R) PTE_W)
      else if in_heap p va then fault_heap va acc pi
      else
        emit (fun pid => EPagefault pid va acc Cinvalid);;
        emit (fun pid => EKillInvalid pid va acc);;
        setkilled;;
        mret (-1).

(** Not implemented in the kernel. *)
Definition alloc_zero_page (pagetable va perm : Z) : Z := 0.
Definition load_exec_page (pagetable va ip offset sz perm : Z) : Z := 0.

(** Faults taken on behalf of the kernel (copyin, copyout). *)
Definition handle_kernel_pagefault (pagetable va : Z) (is_write : bool) : M pstate Z :=
  let va := PGROUNDDOWN va in
  if TRAPFRAME <=? va then mret 0
  else
    p ← my id;
    let is_valid := in_text (p_paging p) va || in_data (p_paging p) va || in_heap p va in
    if negb is_valid then mret 0
    else
      r ← handle_page_fault va (if is_write then 15 else 13);
      if negb (r =? 0) then mret 0
      else
        pa ← on_km (walkaddr pagetable va);
        if pa =? 0 then mret 0
        else if is_write then
          pte ← on_km (walk pagetable va false);
          v ← on_km (ld_pte pte);
          if (pte =? 0) || negb (has v PTE_W) then mret 0 else mret pa
        else mret pa.

(** vmfault (unused by the rest of the kernel). *)
Definition vmfault (pagetable va : Z) : M pstate Z :=
  sz ← my p_sz;
  if sz <=? va then mret 0
  else
    let va := PGROUNDDOWN va in
    b ← on_km (ismapped pagetable va);
    if b : bool then mret 0
    else
      mem ← on_km kalloc;
      if mem =? 0 then mret 0
      else
        on_km (do_memset mem 0 PGSIZE);;
        pt ← my p_pagetable;
        r ← on_km (mappages pt va PGSIZE mem (Z.lor (Z.lor PTE_W PTE_U) PTE_R));
        if negb (r =? 0) then on_km (kfree mem);; mret 0 else mret mem.
End paging.
