(* ===== verification/SwapSpec.v ===== *)
(** * Swap slots and the choice of a victim

    The bitmap as a set of slots, alloc_swap_slot and free_swap_slot on it,
    and what the scan of evict_page_fifo returns. *)
From S2P Require Import Prelude Mem Riscv Kalloc Vm Paging.
From stdpp Require Import base tactics numbers list strings gmap.
From Stdlib Require Import ZArith Lia.

Open Scope Z_scope.

(** ** The bitmap as a set *)

(** Slot [i] is in use. *)
Definition slot_used (bm : list Z) (i : Z) : bool :=
  Z.testbit (nth (Z.to_nat (i / 8)) bm 0) (i mod 8).

Definition bitmap_ok (bm : list Z) : Prop :=
  length bm = Z.to_nat SWAP_BITMAP_SIZE /\ Forall (fun b => 0 <= b < 256) bm.

(** How many of the first [n] slots are in use. *)
Fixpoint count_used (n : nat) (bm : list Z) : Z :=
  match n with
  | O => 0
  | S n => count_used n bm + (if slot_used bm (Z.of_nat n) then 1 else 0)
  end.

Lemma slot_test bm i :
  (Z.land (nth (Z.to_nat (i / 8)) bm 0) (Z.shiftl 1 (i mod 8)) =? 0) = negb (slot_used bm i).
Proof. apply land_bit_zero. apply Z.mod_pos_bound. lia. Qed.

Lemma first_free_spec n i bm :
  match first_free n i bm with
  | Some k => i <= k < i + Z.of_nat n /\ slot_used bm k = false /\
              forall j, i <= j < k -> slot_used bm j = true
  | None => forall j, i <= j < i + Z.of_nat n -> slot_used bm j = true
  end.
Proof.
  revert i. induction n as [|n IH]; intros i; cbn [first_free]; [lia|].
  rewrite slot_test. destruct (slot_used bm i) eqn:E; cbn [negb].
  - specialize (IH (i + 1)). destruct (first_free n (i + 1) bm) as [k|].
    + destruct IH as (Hk & Hf & Hb). split_and!; [lia|lia|done|].
      intros j Hj. destruct (decide (j = i)) as [->|]; [done|]. apply Hb. lia.
    + intros j Hj. destruct (decide (j = i)) as [->|]; [done|]. apply IH. lia.
  - split_and!; [lia|lia|done|lia].
Qed.

Lemma byte_bit_high b k : 0 <= b < 256 -> 8 <= k -> Z.testbit b k = false.
Proof. intros. apply (testbit_high _ 8); lia. Qed.

Lemma w8_byte_lor b k : 0 <= b < 256 -> 0 <= k < 8 ->
  forall j, 0 <= j -> Z.testbit (w8 (Z.lor b (Z.shiftl 1 k))) j = (Z.eqb j k) || Z.testbit b j.
Proof.
  intros Hb Hk j Hj. unfold w8. destruct (Z.lt_ge_cases j 8).
  - rewrite Z.mod_pow2_bits_low by lia. rewrite Z.lor_spec, Z.shiftl_1_l, Z.pow2_bits_eqb by lia.
    rewrite orb_comm. f_equal. apply Z.eqb_sym.
  - rewrite Z.mod_pow2_bits_high by lia. rewrite byte_bit_high by lia.
    destruct (Z.eqb_spec j k); [lia|done].
Qed.

Lemma w8_byte_clear b k : 0 <= b < 256 -> 0 <= k < 8 ->
  forall j, 0 <= j -> Z.testbit (w8 (Z.land b (Z.lnot (Z.shiftl 1 k)))) j = negb (Z.eqb j k) && Z.testbit b j.
Proof.
  intros Hb Hk j Hj. unfold w8. destruct (Z.lt_ge_cases j 8).
  - rewrite Z.mod_pow2_bits_low by lia.
    rewrite Z.land_spec, Z.lnot_spec, Z.shiftl_1_l, Z.pow2_bits_eqb by lia.
    rewrite andb_comm. f_equal. f_equal. apply Z.eqb_sym.
  - rewrite Z.mod_pow2_bits_high by lia. rewrite byte_bit_high by lia. by rewrite andb_false_r.
Qed.

Section bitmap.
Context (bm : list Z) (i : Z).
Hypothesis Hbm : bitmap_ok bm.
Hypothesis Hi : 0 <= i < MAX_SWAP_PAGES.

Lemma slot_byte_lt : (Z.to_nat (i / 8) < length bm)%nat.
Proof using Hbm Hi.
  destruct Hbm as [-> _]. change SWAP_BITMAP_SIZE with 128. unfold MAX_SWAP_PAGES in Hi.
  pose proof (Z.div_mod i 8). pose proof (Z.mod_pos_bound i 8). lia.
Qed.

Lemma slot_byte_range : 0 <= nth (Z.to_nat (i / 8)) bm 0 < 256.
Proof using Hbm Hi.
  pose proof slot_byte_lt. destruct Hbm as [_ HF]. rewrite List.Forall_forall in HF. apply HF.
  by apply nth_In.
Qed.

(** Replacing the byte of slot [i] changes at most the slots of that byte. *)
Lemma slot_used_insert b j :
  0 <= j ->
  slot_used (<[Z.to_nat (i / 8) := b]> bm) j =
  if decide (j / 8 = i / 8) then Z.testbit b (j mod 8) else slot_used bm j.
Proof using Hbm Hi.
  intros Hj. unfold slot_used. rewrite !nth_lookup. pose proof slot_byte_lt.
  pose proof (Z.div_pos i 8). pose proof (Z.div_pos j 8). case_decide as E.
  - rewrite E, list_lookup_insert_eq by done. done.
  - rewrite list_lookup_insert_ne by lia. done.
Qed.

Lemma bitmap_ok_insert b : 0 <= b < 256 -> bitmap_ok (<[Z.to_nat (i / 8) := b]> bm).
Proof using Hbm Hi.
  intros Hb. destruct Hbm as [Hl HF]. split; [by rewrite length_insert|].
  by apply Forall_insert.
Qed.

Lemma same_slot j : 0 <= j -> (j / 8 = i / 8 /\ j mod 8 = i mod 8) <-> j = i.
Proof using Hi.
  intros. pose proof (Z.div_mod i 8). pose proof (Z.div_mod j 8). split; [lia|by intros ->].
Qed.

Lemma slot_used_set j : 0 <= j ->
  slot_used (<[Z.to_nat (i / 8) := w8 (Z.lor (nth (Z.to_nat (i / 8)) bm 0) (Z.shiftl 1 (i mod 8)))]> bm) j
  = (j =? i) || slot_used bm j.
Proof using Hbm Hi.
  intros Hj. rewrite slot_used_insert by done. pose proof (same_slot j Hj).
  pose proof (Z.mod_pos_bound j 8). pose proof (Z.mod_pos_bound i 8). case_decide as E.
  - rewrite w8_byte_lor by (apply slot_byte_range || lia). unfold slot_used. rewrite E.
    f_equal. destruct (Z.eqb_spec (j mod 8) (i mod 8)), (Z.eqb_spec j i); naive_solver.
  - destruct (Z.eqb_spec j i); [naive_solver|done].
Qed.

Lemma slot_used_clear j : 0 <= j ->
  slot_used (<[Z.to_nat (i / 8) := w8 (Z.land (nth (Z.to_nat (i / 8)) bm 0) (Z.lnot (Z.shiftl 1 (i mod 8))))]> bm) j
  = negb (j =? i) && slot_used bm j.
Proof using Hbm Hi.
  intros Hj. rewrite slot_used_insert by done. pose proof (same_slot j Hj).
  pose proof (Z.mod_pos_bound j 8). pose proof (Z.mod_pos_bound i 8). case_decide as E.
  - rewrite w8_byte_clear by (apply slot_byte_range || lia). unfold slot_used. rewrite E.
    f_equal. f_equal. destruct (Z.eqb_spec (j mod 8) (i mod 8)), (Z.eqb_spec j i); naive_solver.
  - destruct (Z.eqb_spec j i); [naive_solver|done].
Qed.
End bitmap.

(** ** Counting *)

Lemma count_used_bound n bm : 0 <= count_used n bm <= Z.of_nat n.
Proof. induction n as [|n IH]; cbn [count_used]; [lia|]. case_match; lia. Qed.

Lemma count_used_ext n bm bm' :
  (forall j, 0 <= j < Z.of_nat n -> slot_used bm' j = slot_used bm j) ->
  count_used n bm' = count_used n bm.
Proof.
  induction n as [|n IH]; intros H; cbn [count_used]; [done|].
  rewrite IH by (intros; apply H; lia). by rewrite H by lia.
Qed.

(** Marking one free slot adds one to the count. *)
Lemma count_used_mark n bm bm' i :
  0 <= i < Z.of_nat n -> slot_used bm i = false ->
  (forall j, 0 <= j -> slot_used bm' j = (j =? i) || slot_used bm j) ->
  count_used n bm' = count_used n bm + 1.
Proof.
  intros Hi Hf H. induction n as [|n IH]; [lia|]. cbn [count_used].
  rewrite H by lia. destruct (Z.eqb_spec (Z.of_nat n) i) as [E|Hne].
  - rewrite E, Hf. cbn [orb]. cbv iota. rewrite (count_used_ext n bm bm'); [lia|].
    intros j Hj. rewrite H by lia. destruct (Z.eqb_spec j i); [lia|done].
  - rewrite IH by lia. cbn [orb]. lia.
Qed.

(** ** The allocator of swap slots *)

(** The bitmap is well formed and [swap_used] counts its set bits. *)
Definition swap_ok (g : paging_info) : Prop :=
  bitmap_ok (swap_bitmap g) /\
  swap_used g = count_used (Z.to_nat MAX_SWAP_PAGES) (swap_bitmap g).

Lemma alloc_swap_slot_cases g :
  swap_ok g ->
  (alloc_swap_slot g = (-1, g) /\ (forall j, 0 <= j < MAX_SWAP_PAGES -> slot_used (swap_bitmap g) j = true)) \/
  (exists slot bm, alloc_swap_slot g = (slot, set_swap bm (swap_used g + 1) g) /\
     0 <= slot < MAX_SWAP_PAGES /\ slot_used (swap_bitmap g) slot = false /\
     (forall j, 0 <= j < slot -> slot_used (swap_bitmap g) j = true) /\
     (forall j, 0 <= j -> slot_used bm j = (j =? slot) || slot_used (swap_bitmap g) j) /\
     swap_ok (set_swap bm (swap_used g + 1) g)).
Proof.
  intros [Hbm Hcnt]. unfold alloc_swap_slot.
  pose proof (first_free_spec (Z.to_nat MAX_SWAP_PAGES) 0 (swap_bitmap g)) as H.
  destruct (first_free _ _ _) as [i|]; [right|left; split; [done|]; intros; apply H; unfold MAX_SWAP_PAGES in *; lia].
  destruct H as (Hi & Hf & Hb). rewrite Z2Nat.id in Hi by (unfold MAX_SWAP_PAGES; lia).
  pose proof (count_used_bound (Z.to_nat MAX_SWAP_PAGES) (swap_bitmap g)) as Hc.
  rewrite <- Hcnt in Hc. unfold MAX_SWAP_PAGES in Hc.
  rewrite s32_id by lia. eexists i, _. split_and!; [done|lia|lia|done|done| |].
  - intros j Hj. apply slot_used_set; (done || lia).
  - split; cbn [swap_bitmap swap_used set_swap].
    + apply bitmap_ok_insert; [done|lia|apply w8_range].
    + rewrite Hcnt. symmetry. apply (count_used_mark _ _ _ i); [unfold MAX_SWAP_PAGES in *; lia|done|].
      intros j Hj. apply slot_used_set; (done || lia).
Qed.

Lemma free_swap_slot_used g slot :
  swap_ok g -> 0 <= slot < MAX_SWAP_PAGES -> slot_used (swap_bitmap g) slot = true ->
  exists bm, free_swap_slot slot g = set_swap bm (swap_used g - 1) g /\
     (forall j, 0 <= j -> slot_used bm j = negb (j =? slot) && slot_used (swap_bitmap g) j) /\
     swap_ok (set_swap bm (swap_used g - 1) g).
Proof.
  intros [Hbm Hcnt] Hs Hu. unfold free_swap_slot.
  destruct (Z.ltb_spec slot 0); [lia|]. destruct (Z.leb_spec MAX_SWAP_PAGES slot); [lia|]. cbn [orb].
  rewrite slot_test, Hu. cbn [negb].
  pose proof (count_used_bound (Z.to_nat MAX_SWAP_PAGES) (swap_bitmap g)) as Hc.
  rewrite <- Hcnt in Hc. unfold MAX_SWAP_PAGES in Hc.
  rewrite s32_id by lia. eexists. split_and!; [done| |].
  - intros j Hj. apply slot_used_clear; (done || lia).
  - split; cbn [swap_bitmap swap_used set_swap].
    + apply bitmap_ok_insert; [done|lia|apply w8_range].
    + assert (count_used (Z.to_nat MAX_SWAP_PAGES) (swap_bitmap g) =
        count_used (Z.to_nat MAX_SWAP_PAGES)
          (<[Z.to_nat (slot / 8) := w8 (Z.land (nth (Z.to_nat (slot / 8)) (swap_bitmap g) 0)
             (Z.lnot (Z.shiftl 1 (slot mod 8))))]> (swap_bitmap g)) + 1) as E; [|lia].
      apply (count_used_mark _ _ _ slot); [unfold MAX_SWAP_PAGES in *; lia| |].
      * rewrite slot_used_clear by (done || lia). by rewrite Z.eqb_refl.
      * intros j Hj. rewrite slot_used_clear by (done || lia).
        destruct (Z.eqb_spec j slot) as [->|]; [by rewrite Hu|done].
Qed.

Lemma free_swap_slot_unused g slot :
  0 <= slot -> slot_used (swap_bitmap g) slot = false -> free_swap_slot slot g = g.
Proof.
  intros Hs Hu. unfold free_swap_slot. destruct (_ || _); [done|]. by rewrite slot_test, Hu.
Qed.

(** ** FIFO victim *)

(** Page [k] of the list [l] (numbered from [i]) is resident with [seq]. *)
Definition resident_at (l : list page_info) (k seq : Z) : Prop :=
  exists x, l !! Z.to_nat k = Some x /\ 0 <= k /\ pi_state x = RESIDENT /\ pi_fifo_seq x = seq.

Lemma find_victim_spec l i v0 m0 v m :
  0 <= i -> find_victim l i v0 m0 = (v, m) ->
  m <= m0 /\
  (forall k seq, resident_at l k seq -> m <= seq) /\
  ((v = v0 /\ m = m0) \/ (i <= v < i + Z.of_nat (length l) /\ m < m0 /\ resident_at l (v - i) m)).
Proof.
  revert i v0 m0. induction l as [|x l IH]; intros i v0 m0 Hi E; cbn [find_victim] in E.
  { simplify_eq. split_and!; [lia| |by left]. intros k seq (y & Hy & _). by rewrite lookup_nil in Hy. }
  assert (forall k seq, resident_at (x :: l) k seq ->
    (k = 0 /\ pi_state x = RESIDENT /\ pi_fifo_seq x = seq) \/ resident_at l (k - 1) seq) as Hcons.
  { intros k seq (y & Hy & Hk & Hst & Hsq). destruct (decide (k = 0)) as [->|].
    - left. simpl in Hy. naive_solver.
    - right. replace (Z.to_nat k) with (S (Z.to_nat (k - 1))) in Hy by lia. exists y. split_and!; (done || lia). }
  assert (forall k seq, resident_at l k seq -> resident_at (x :: l) (k + 1) seq) as Hshift.
  { intros k seq (y & Hy & Hk & Hst & Hsq). exists y.
    replace (Z.to_nat (k + 1)) with (S (Z.to_nat k)) by lia. split_and!; (done || lia). }
  destruct ((pi_state x =? RESIDENT) && (pi_fifo_seq x <? m0)) eqn:C.
  - apply andb_prop in C as [C1%Z.eqb_eq C2%Z.ltb_lt].
    apply IH in E as (H1 & H2 & H3); [|lia]. split_and!; [lia| |right].
    + intros k seq [(-> & _ & <-)|Hr]%Hcons; [lia|by eapply H2].
    + simpl length. destruct H3 as [[-> ->]|(Hv & Hm & Hr)].
      * split_and!; [lia|lia|lia|]. rewrite Z.sub_diag. exists x. done.
      * split_and!; [lia|lia|lia|]. apply Hshift in Hr. by replace (v - (i + 1) + 1) with (v - i) in Hr by lia.
  - apply IH in E as (H1 & H2 & H3); [|lia]. split_and!; [lia| |].
    + intros k seq [(-> & Hst & <-)|Hr]%Hcons; [|by eapply H2].
      rewrite Hst, Z.eqb_refl in C. apply Z.ltb_ge in C. lia.
    + simpl length. destruct H3 as [[-> ->]|(Hv & Hm & Hr)]; [by left|right].
      split_and!; [lia|lia|lia|]. apply Hshift in Hr. by replace (v - (i + 1) + 1) with (v - i) in Hr by lia.
Qed.

(** The page evict_page_fifo picks, when some page is resident. *)
Definition fifo_victim (l : list page_info) (v seq : Z) : Prop :=
  0 <= v < Z.of_nat (length l) /\ resident_at l v seq /\ forall k q, resident_at l k q -> seq <= q.

Lemma find_victim_fifo l v m :
  find_victim l 0 (-1) 0x7FFFFFFF = (v, m) ->
  (v = -1 /\ forall k q, resident_at l k q -> 0x7FFFFFFF <= q) \/ fifo_victim l v m.
Proof.
  intros E. apply find_victim_spec in E as (_ & H2 & [[-> ->]|(Hv & Hm & Hr)]); [by left|right|lia].
  rewrite Z.sub_0_r in Hr. split_and!; (done || lia).
Qed.
