(* ===== verification/PagingInv.v ===== *)
(** * The invariant of demand paging and logical page contents

    [FsLaws] is what the paging code relies on from the file system (inodes
    hold bytes; writei stores them and readi gives them back; the calls come
    in the order begin_op, ilock, ..., iunlock, end_op).  A call may also
    panic, with a message that the [Panics] of the context allows: end_op does
    when the transaction has filled the log (StorageTheorems).  [pg_inv] ties the
    per-page records of struct paging_info to the page table and the swap
    bitmap, and [page_byte] is the logical content of a page, wherever it
    currently lives: in its frame or in its slot of the swap file. *)
From S2P Require Import Prelude Mem Riscv Kalloc Vm PageTable VmSpec AddrSpace Paging SwapSpec.
From stdpp Require Import base tactics numbers list strings gmap.
From Stdlib Require Import ZArith Lia.

Open Scope Z_scope.

(** ** What the file system promises *)

Class FsLaws {PE : Panics} (FS : FsOps) := {
  fs_byte : fs -> Z -> Z -> option Z;      (* byte of an inode's content *)
  fs_fip : fs -> Z -> Z;                   (* the inode of an open file *)
  fs_ref : fs -> Z -> Z;                   (* references to an in-memory inode *)
  fs_op : fs -> nat -> Prop;               (* inside that many begin_op()s *)
  fs_locked : fs -> nat -> Z -> Prop;      (* ... and holding an inode's lock *)
  fs_same (s s' : fs) : Prop :=
    (forall ip o, fs_byte s' ip o = fs_byte s ip o) /\
    (forall f, fs_fip s' f = fs_fip s f) /\ (forall ip, fs_ref s' ip = fs_ref s ip);
  law_begin s k : fs_op s k -> (k < 2)%nat ->
    wp fs_begin_op (fun _ s' => fs_op s' (S k) /\ fs_same s s') s;
  law_end s k : fs_op s (S k) -> wp fs_end_op (fun _ s' => fs_op s' k /\ fs_same s s') s;
  law_ilock s k ip : fs_op s (S k) -> 0 < fs_ref s ip ->
    wp (fs_ilock ip) (fun _ s' => fs_locked s' (S k) ip /\ fs_same s s') s;
  law_iunlock s k ip : fs_locked s k ip ->
    wp (fs_iunlock ip) (fun _ s' => fs_op s' k /\ fs_same s s') s;
  law_iunlockput s k ip : fs_locked s k ip ->
    wp (fs_iunlockput ip) (fun _ s' => fs_op s' k /\
      forall i, fs_ref s' i = if decide (i = ip) then fs_ref s i - 1 else fs_ref s i) s;
  law_clear_nlink s k ip : fs_locked s k ip ->
    wp (fs_clear_nlink ip) (fun _ s' => fs_locked s' k ip /\ fs_same s s') s;
  law_iupdate s k ip : fs_locked s k ip ->
    wp (fs_iupdate ip) (fun _ s' => fs_locked s' k ip /\ fs_same s s') s;
  law_readi s k ip off n : fs_locked s k ip -> 0 <= off -> 0 <= n ->
    wp (fs_readi ip off n) (fun data s' => fs_locked s' k ip /\ fs_same s s' /\
      Z.of_nat (length data) <= n /\
      forall j b, data !! Z.to_nat j = Some b -> 0 <= j ->
        fs_byte s ip (off + j) = Some b /\ 0 <= b < 256) s;
  law_writei s k ip off data : fs_locked s k ip -> 0 <= off ->
    wp (fs_writei ip off data) (fun n s' => fs_locked s' k ip /\
      (forall f, fs_fip s' f = fs_fip s f) /\ (forall i, fs_ref s' i = fs_ref s i) /\
      (forall i o, (i <> ip \/ o < off \/ off + Z.of_nat (length data) <= o) -> is_Some (fs_byte s i o) ->
         fs_byte s' i o = fs_byte s i o) /\
      (n = Z.of_nat (length data) ->
         forall j b, data !! Z.to_nat j = Some b -> 0 <= j -> fs_byte s' ip (off + j) = Some (w8 b))) s;
  law_create s k name : fs_op s (S k) ->
    wp (fs_create name) (fun ip s' =>
      (ip = 0 /\ fs_op s' (S k) /\ forall i, fs_ref s' i = fs_ref s i) \/
      (ip <> 0 /\ fs_locked s' (S k) ip /\ 0 < fs_ref s' ip /\
       forall i, fs_ref s' i = if decide (i = ip) then fs_ref s i + 1 else fs_ref s i)) s;
  law_filealloc s k : fs_op s k -> wp fs_filealloc (fun f s' => fs_op s' k /\
    (forall ip o, fs_byte s' ip o = fs_byte s ip o) /\ (forall ip, fs_ref s' ip = fs_ref s ip)) s;
  law_open_inode s k f ip : fs_op s k ->
    wp (fs_file_open_inode f ip) (fun _ s' => fs_op s' k /\ fs_fip s' f = ip /\
      forall i, fs_ref s' i = fs_ref s i) s;
  law_file_ip s f : wp (fs_file_ip f) (fun ip s' => ip = fs_fip s f /\ s' = s) s
}.

Lemma fs_same_refl {PE : Panics} {FS : FsOps} {FL : FsLaws FS} s : fs_same s s.
Proof. split_and!; done. Qed.
Lemma fs_same_trans {PE : Panics} {FS : FsOps} {FL : FsLaws FS} s1 s2 s3 :
  fs_same s1 s2 -> fs_same s2 s3 -> fs_same s1 s3.
Proof. intros (A & B & C) (A' & B' & C'). split_and!; intros; [by rewrite A', A|by rewrite B', B|by rewrite C', C]. Qed.

(** ** Kernel buffers *)

Lemma bytes_at_lookup m a n j :
  0 <= j < Z.of_nat n -> bytes_at m a n !! Z.to_nat j = Some (mget m (a + j)).
Proof.
  intros Hj. unfold bytes_at. rewrite list_lookup_fmap, lookup_seq_lt by lia. simpl.
  by rewrite Z2Nat.id by lia.
Qed.

Lemma bytes_at_length m a n : length (bytes_at m a n) = n.
Proof. unfold bytes_at. by rewrite length_map, length_seq. Qed.

Lemma mget_store_bytes m a l x :
  mget (store_bytes m a l) x =
  if decide (a <= x < a + Z.of_nat (length l)) then w8 (default 0 (l !! Z.to_nat (x - a))) else mget m x.
Proof.
  revert m a. induction l as [|b l IH]; intros m a; cbn [store_bytes length].
  { rewrite decide_False by lia. done. }
  rewrite IH, mget_mset. destruct (decide (a = x)) as [->|Hne].
  - rewrite decide_False, decide_True by lia. by rewrite Z.sub_diag.
  - destruct (decide (a <= x < a + Z.of_nat (S (length l)))).
    + rewrite decide_True by lia.
      by replace (Z.to_nat (x - a)) with (S (Z.to_nat (x - (a + 1)))) by lia.
    + rewrite decide_False by lia. done.
Qed.

Lemma frame_store_bytes m pa l :
  aligned pa -> Z.of_nat (length l) <= PGSIZE -> frame (eq pa) m (store_bytes m pa l).
Proof.
  intros Ha Hl x Hx. rewrite mget_store_bytes, decide_False; [done|].
  intros Hin. apply Hx. symmetry. apply page_of_unique; [done|lia].
Qed.

(** ** Paging records *)

Definition tracked (i : Z) : Prop := 0 <= i < MAX_TRACKED_PAGES.

Lemma get_page_info_vpn va : 0 <= va -> aligned va ->
  get_page_info va = if decide (tracked (vpn va)) then Some (vpn va) else None.
Proof.
  intros H0 Ha. unfold get_page_info. rewrite PGROUNDDOWN_page_of, page_of_aligned by done.
  fold (vpn va). assert (0 <= vpn va) by (apply Z.div_pos; pg).
  destruct (Z.leb_spec MAX_TRACKED_PAGES (vpn va)); case_decide; unfold tracked in *; (done || lia).
Qed.

Lemma page_at_set_swap b u g i : page_at (set_swap b u g) i = page_at g i.
Proof. done. Qed.

Lemma page_at_upd g i j f :
  length (pages g) = Z.to_nat MAX_TRACKED_PAGES -> tracked i -> 0 <= j ->
  page_at (upd_page i f g) j = if decide (j = i) then f (page_at g i) else page_at g j.
Proof.
  intros Hl Hi Hj. unfold page_at at 1, upd_page. cbn [pages set_pages]. rewrite nth_lookup.
  unfold tracked in Hi. rewrite lookup_insert_Z by (rewrite ?Hl; lia).
  case_decide; case_decide; try lia; [done|]. unfold page_at. by rewrite nth_lookup.
Qed.

Lemma upd_page_length g i f : length (pages (upd_page i f g)) = length (pages g).
Proof. unfold upd_page. cbn [pages set_pages]. apply length_insert. Qed.

Section inv.
Context {KL : KernelLayout} {PE : Panics} {FS : FsOps} {FL : FsLaws FS}.

(** The records of struct paging_info agree with the page table ([F]) and
    with the swap bitmap. *)
Record records_ok (g : paging_info) (F : gmap Z Z) : Prop := {
  ro_len : length (pages g) = Z.to_nat MAX_TRACKED_PAGES;
  ro_swap : swap_ok g;
  ro_res : forall i, tracked i -> pi_state (page_at g i) = RESIDENT -> is_Some (F !! i);
  ro_swp : forall i, tracked i -> pi_state (page_at g i) = SWAPPED -> F !! i = None;
  ro_slot : forall i, tracked i -> pi_state (page_at g i) = SWAPPED -> 0 <= pi_swap_slot (page_at g i) ->
    pi_swap_slot (page_at g i) < MAX_SWAP_PAGES /\
    slot_used (swap_bitmap g) (pi_swap_slot (page_at g i)) = true /\ swapfile g <> 0;
  ro_inj : forall i j, tracked i -> tracked j ->
    pi_state (page_at g i) = SWAPPED -> pi_state (page_at g j) = SWAPPED ->
    0 <= pi_swap_slot (page_at g i) -> pi_swap_slot (page_at g i) = pi_swap_slot (page_at g j) -> i = j
}.

Definition pgi (s : pstate) : paging_info := p_paging (ps_proc s).
Definition proot (s : pstate) : Z := p_pagetable (ps_proc s).

(** Byte [j] of the slot that holds page [i]. *)
Definition slot_byte (s : pstate) (i j : Z) : option Z :=
  fs_byte (ps_fs s) (fs_fip (ps_fs s) (swapfile (pgi s))) (pi_swap_slot (page_at (pgi s) i) * PGSIZE + j).

Record pg_inv (s : pstate) (N : nodemap) (l : list Z) (F : gmap Z Z) : Prop := {
  gi_as : as_inv (ps_km s) (proot s) N l F;
  gi_rec : records_ok (pgi s) F;
  gi_fs : fs_op (ps_fs s) 0;
  gi_file : swapfile (pgi s) <> 0 -> 0 < fs_ref (ps_fs s) (fs_fip (ps_fs s) (swapfile (pgi s)));
  gi_exec : exec_ip (pgi s) <> 0 -> 0 < fs_ref (ps_fs s) (exec_ip (pgi s));
  gi_slot : forall i j, tracked i -> pi_state (page_at (pgi s) i) = SWAPPED ->
    0 <= pi_swap_slot (page_at (pgi s) i) -> 0 <= j < PGSIZE -> is_Some (slot_byte s i j)
}.

(** Logical content: byte [j] of page [i], in memory or in the swap file. *)
Definition page_byte (s : pstate) (F : gmap Z Z) (i j : Z) : option Z :=
  match F !! i with
  | Some pa => Some (mget (phys (ps_km s)) (pa + j))
  | None =>
      if (pi_state (page_at (pgi s) i) =? SWAPPED) && (0 <=? pi_swap_slot (page_at (pgi s) i))
      then slot_byte s i j else None
  end.

(** ** Stepping through the state *)

Lemma wp_on_km {A} (c : M kmem A) (Q : A -> pstate -> Prop) s :
  wp (PE := no_panic) c (fun a k => Q a (PState k (ps_proc s) (ps_fs s) (ps_out s))) (ps_km s) -> wp (on_km c) Q s.
Proof. intros Hc. apply (wp_zoom ps_km), wp_any_panics, Hc. Qed.
Lemma wp_on_fs {A} (c : M fs A) (Q : A -> pstate -> Prop) s :
  wp c (fun a f => Q a (PState (ps_km s) (ps_proc s) f (ps_out s))) (ps_fs s) -> wp (on_fs c) Q s.
Proof. intros Hc. apply (wp_zoom ps_fs), Hc. Qed.
Lemma wp_my {A} (f : pproc -> A) Q s : Q (f (ps_proc s)) s -> wp (my f) Q s.
Proof. done. Qed.
Lemma wp_paging {A} (f : paging_info -> A) Q s : Q (f (pgi s)) s -> wp (paging f) Q s.
Proof. done. Qed.
Lemma wp_emit e Q s :
  Q () (PState (ps_km s) (ps_proc s) (ps_fs s) (e (p_pid (ps_proc s)) :: ps_out s)) -> wp (emit e) Q s.
Proof. done. Qed.
Lemma wp_upd_proc f Q s :
  Q () (PState (ps_km s) (f (ps_proc s)) (ps_fs s) (ps_out s)) -> wp (upd_proc f) Q s.
Proof. done. Qed.
Lemma wp_upd_paging f Q s :
  Q () (PState (ps_km s)
     (PProc (p_pid (ps_proc s)) (p_sz (ps_proc s)) (p_pagetable (ps_proc s)) (p_killed (ps_proc s)) (f (pgi s)))
     (ps_fs s) (ps_out s)) -> wp (upd_paging f) Q s.
Proof. done. Qed.
Lemma wp_setkilled Q s :
  Q () (PState (ps_km s)
     (PProc (p_pid (ps_proc s)) (p_sz (ps_proc s)) (p_pagetable (ps_proc s)) 1 (p_paging (ps_proc s)))
     (ps_fs s) (ps_out s)) -> wp setkilled Q s.
Proof. done. Qed.

(** Two states that agree on everything the invariant and [page_byte] see:
    printing and killing do not matter. *)
Definition quiet (s s' : pstate) : Prop :=
  ps_km s' = ps_km s /\ proot s' = proot s /\ pgi s' = pgi s /\ ps_fs s' = ps_fs s /\
  p_sz (ps_proc s') = p_sz (ps_proc s) /\ p_pid (ps_proc s') = p_pid (ps_proc s).

Lemma quiet_refl s : quiet s s.
Proof. done. Qed.
Lemma quiet_trans s1 s2 s3 : quiet s1 s2 -> quiet s2 s3 -> quiet s1 s3.
Proof. unfold quiet. intuition congruence. Qed.
Lemma pg_inv_quiet s s' N l F : quiet s s' -> pg_inv s N l F -> pg_inv s' N l F.
Proof. intros (E1 & E2 & E3 & E4 & _ & _) [A B C D E G].
  constructor; unfold slot_byte in *; rewrite ?E1, ?E2, ?E3, ?E4; done. Qed.
Lemma page_byte_quiet s s' F i j : quiet s s' -> page_byte s' F i j = page_byte s F i j.
Proof. intros (E1 & E2 & E3 & E4 & _ & _). unfold page_byte, slot_byte. by rewrite E1, E3, E4. Qed.
End inv.

Ltac ps_red :=
  repeat match goal with
  | |- context [pgi (PState ?k (PProc ?a ?b ?c ?d ?g) ?f ?o)] =>
      change (pgi (PState k (PProc a b c d g) f o)) with g
  | |- context [pgi (PState ?k (ps_proc ?s) ?f ?o)] => change (pgi (PState k (ps_proc s) f o)) with (pgi s)
  end;
  cbn [ps_km ps_proc ps_fs ps_out p_pid p_sz p_pagetable p_killed p_paging].

Ltac ps_step :=
  first
    [ wp_step
    | lazymatch goal with
      | |- wp (on_km _) _ _ => apply wp_on_km
      | |- wp (on_fs _) _ _ => apply wp_on_fs
      | |- wp (my _) _ _ => apply wp_my
      | |- wp (paging _) _ _ => apply wp_paging
      | |- wp (emit _) _ _ => apply wp_emit
      | |- wp (upd_proc _) _ _ => apply wp_upd_proc
      | |- wp (upd_paging _) _ _ => apply wp_upd_paging
      | |- wp setkilled _ _ => apply wp_setkilled
      end ];
  cbv beta zeta.
Ltac ps_steps := repeat ps_step; ps_red.
