(* ===== verification/SwapOut.v ===== *)
(** * Eviction: swapout_page, evict_page_fifo and kalloc with eviction

    Evicting a page keeps the paging invariant, returns exactly one frame to
    the free list, and keeps the logical content of every page except a page
    that the kernel takes to be an unmodified copy of the executable. *)
From S2P Require Import Prelude Mem Riscv Kalloc Vm PageTable VmSpec AddrSpace Paging SwapSpec PagingInv.
From stdpp Require Import base tactics numbers list strings gmap.
From Stdlib Require Import ZArith Lia.

Open Scope Z_scope.

(** The parts of struct paging_info that only exec and sbrk change. *)
Definition segs (g : paging_info) :=
  (text_start g, text_end g, data_start g, data_end g, heap_start g,
   text_offset g, data_offset g, text_filesz g, data_filesz g, exec_ip g).

(** swapout_page drops such a page instead of writing it to the swap file. *)
Definition discardable (x : page_info) : bool := (pi_dirty x =? 0) && negb (pi_from_exec x =? 0).

Section records.
Context {KL : KernelLayout}.

Lemma tracked_uvpn i : tracked i -> 0 <= i < uvpn.
Proof.
  unfold tracked, MAX_TRACKED_PAGES. assert (uvpn = 2 ^ 26 - 2) as -> by (by vm_compute). lia.
Qed.

Lemma page_at_out g i :
  length (pages g) = Z.to_nat MAX_TRACKED_PAGES -> 0 <= i -> ~ tracked i -> page_at g i = pi_zero.
Proof. intros Hl Hi Ht. unfold page_at. apply nth_overflow. unfold tracked in Ht. lia. Qed.

(** Changing the bitmap where no swapped page has its slot. *)
Lemma records_bitmap g F bm u :
  records_ok g F -> swap_ok (set_swap bm u g) ->
  (forall i, tracked i -> pi_state (page_at g i) = SWAPPED -> 0 <= pi_swap_slot (page_at g i) ->
     slot_used bm (pi_swap_slot (page_at g i)) = true) ->
  records_ok (set_swap bm u g) F.
Proof.
  intros [A B C D E G] Hs Hb. constructor; try done. intros i Hi Hst Hsl.
  change (page_at (set_swap bm u g) i) with (page_at g i) in *.
  pose proof (E i Hi Hst Hsl) as (E1 & _ & E3). split_and!; [done|by apply Hb|done].
Qed.

(** The record of a page that is not swapped, with its mapping. *)
Lemma records_upd g F F' i f :
  records_ok g F -> tracked i -> (forall k, k <> i -> F' !! k = F !! k) ->
  (pi_state (f (page_at g i)) = RESIDENT -> is_Some (F' !! i)) ->
  pi_state (f (page_at g i)) <> SWAPPED ->
  records_ok (upd_page i f g) F'.
Proof.
  intros [A B C D E G] Hi HF Hr Hns.
  assert (forall k, tracked k -> page_at (upd_page i f g) k = if decide (k = i) then f (page_at g i) else page_at g k) as P.
  { intros k [Hk _]. by apply page_at_upd. }
  constructor.
  - by rewrite upd_page_length.
  - exact B.
  - intros k Hk. rewrite P by done. case_decide; [by subst|]. rewrite HF by done. by apply C.
  - intros k Hk. rewrite P by done. case_decide; [by subst|]. rewrite HF by done. by apply D.
  - intros k Hk. rewrite P by done. case_decide; [by intros|]. by apply E.
  - intros k1 k2 H1 H2. rewrite !P by done. repeat case_decide; try done. by apply G.
Qed.

(** A page goes to a slot no other page has. *)
Lemma records_swapout g F i f slot bm u :
  records_ok g F -> tracked i -> 0 <= slot < MAX_SWAP_PAGES -> swapfile g <> 0 ->
  slot_used (swap_bitmap g) slot = false ->
  (forall j, 0 <= j -> slot_used bm j = (j =? slot) || slot_used (swap_bitmap g) j) ->
  swap_ok (set_swap bm u g) ->
  pi_state (f (page_at g i)) = SWAPPED -> pi_swap_slot (f (page_at g i)) = slot ->
  records_ok (upd_page i f (set_swap bm u g)) (delete i F).
Proof.
  intros [A B C D E G] Hi Hsl Hf Hfree Hbm Hok Hst Hslot.
  assert (forall k, tracked k -> page_at (upd_page i f (set_swap bm u g)) k =
      if decide (k = i) then f (page_at g i) else page_at g k) as P.
  { intros k [Hk _]. by apply (page_at_upd (set_swap bm u g)). }
  assert (forall k, tracked k -> pi_state (page_at g k) = SWAPPED -> 0 <= pi_swap_slot (page_at g k) ->
      pi_swap_slot (page_at g k) <> slot) as Hne.
  { intros k Hk Hs H0 Heq. destruct (E k Hk Hs H0) as (_ & Hu & _). congruence. }
  constructor.
  - by rewrite upd_page_length.
  - exact Hok.
  - intros k Hk. rewrite P by done. case_decide as Heq; [by rewrite Hst|].
    rewrite lookup_delete_ne by done. by apply C.
  - intros k Hk. rewrite P by done. case_decide as Heq; [subst; by rewrite lookup_delete_eq|].
    rewrite lookup_delete_ne by done. by apply D.
  - intros k Hk. rewrite P by done. cbn [swap_bitmap swapfile set_pages set_swap upd_page].
    case_decide as Heq.
    + rewrite Hslot. intros _ _. rewrite Hbm, Z.eqb_refl by lia. split_and!; [lia|done|done].
    + intros Hs H0. destruct (E k Hk Hs H0) as (E1 & E2 & E3).
      rewrite Hbm, E2, orb_true_r by done. done.
  - intros k1 k2 H1 H2. rewrite !P by done. destruct (decide (k1 = i)) as [->|], (decide (k2 = i)) as [->|]; try done.
    + rewrite Hslot. intros _ Hs2 H0 Heq. exfalso. apply (Hne k2 H2 Hs2); lia.
    + rewrite Hslot. intros Hs1 _ H0 Heq. exfalso. by apply (Hne k1 H1 Hs1).
    + by apply G.
Qed.
End records.

Section swapout.
Context {KL : KernelLayout} {PE : Panics} {FS : FsOps} {FL : FsLaws FS}.

Definition same_proc (s s' : pstate) : Prop :=
  proot s' = proot s /\ p_sz (ps_proc s') = p_sz (ps_proc s) /\
  p_pid (ps_proc s') = p_pid (ps_proc s) /\ segs (pgi s') = segs (pgi s).
Definition same_ctx (s s' : pstate) : Prop :=
  same_proc s s' /\ next_fifo_seq (pgi s') = next_fifo_seq (pgi s).

Lemma same_proc_trans s1 s2 s3 : same_proc s1 s2 -> same_proc s2 s3 -> same_proc s1 s3.
Proof. unfold same_proc. intuition congruence. Qed.

Lemma same_ctx_trans s1 s2 s3 : same_ctx s1 s2 -> same_ctx s2 s3 -> same_ctx s1 s3.
Proof. unfold same_ctx. intros [A B] [C D]. split; [by eapply same_proc_trans|congruence]. Qed.

Lemma page_byte_ext s s' F F' k j :
  F' !! k = F !! k -> page_at (pgi s') k = page_at (pgi s) k ->
  (forall pa, F !! k = Some pa -> mget (phys (ps_km s')) (pa + j) = mget (phys (ps_km s)) (pa + j)) ->
  (F !! k = None -> pi_state (page_at (pgi s) k) = SWAPPED -> 0 <= pi_swap_slot (page_at (pgi s) k) ->
     slot_byte s' k j = slot_byte s k j) ->
  page_byte s' F' k j = page_byte s F k j.
Proof.
  intros E1 E2 E3 E4. unfold page_byte. rewrite E1, E2. destruct (F !! k) as [pa|]; [by rewrite E3|].
  destruct (Z.eqb_spec (pi_state (page_at (pgi s) k)) SWAPPED); [|done].
  destruct (Z.leb_spec 0 (pi_swap_slot (page_at (pgi s) k))); [|done]. simpl. auto.
Qed.

(** What unmapping the frame of a mapped page does. *)
Lemma unmap_resident k root N l F va pa :
  as_inv k root N l F -> 0 <= va < TRAPFRAME -> aligned va -> F !! vpn va = Some pa ->
  exists a, walk root va false k = Ret a k /\ a <> 0 /\
    has (load64 (phys k) a) PTE_V = true /\ PTE2PA (load64 (phys k) a) = pa /\
    wp (PE := no_panic) (kfree pa;; st64 a 0) (fun _ k' => as_inv k' root N (pa :: l) (delete (vpn va) F) /\
      forall u q, u <> vpn va -> F !! u = Some q -> same_page (phys k) (phys k') q) k.
Proof.
  intros A Hva Hal HF. pose proof A as [[Hpt _ _] Hfr _ Hinj Hds].
  pose proof (unmap_page_wp _ _ _ _ _ va A Hva Hal) as W.
  destruct (Hfr _ _ HF) as (Hv & HV & Hpa & _).
  assert (walk root va false k = Ret (leaf_ptr N (vpn va)) k) as Hw by (apply walk_noalloc; [done|pg]).
  destruct (leaf_ptr_cases (phys k) root N (vpn va) Hpt) as [(_ & _ & E0)|(b & Eb & Hb & _ & Elb)].
  { rewrite E0 in HV. done. }
  exists b. rewrite Elb, HV, Hpa, Hw, Eb. split_and!; [done|lia|done|done|].
  assert (unmap_page root va true k = (kfree pa;; st64 b 0) k) as HE.
  { unfold unmap_page. rewrite (bind_ok _ _ _ _ _ Hw), Eb. destruct (Z.eqb_spec b 0); [lia|].
    rewrite (bind_ok (ld64 b) _ k (load64 (phys k) b) k) by done. rewrite Elb, HV, Hpa. done. }
  unfold wp in W |- *. rewrite HE in W. destruct ((kfree pa;; st64 b 0) k) as [u k'| |]; [|done..].
  destruct W as (W1 & W2 & _). unfold freed in W1. rewrite HF in W1. split; [exact W1|].
  intros v q Hne Hq. eapply frame_same_page; [exact W2|exact (as_frame_aligned _ _ _ _ _ _ _ A Hq)|].
  intros [Hn|Hn]; [by apply (Hds _ _ Hq)|]. apply Hne. by eapply Hinj.
Qed.

(** ** create_swap_file *)

Definition kept (s : pstate) (N : nodemap) (l : list Z) (F : gmap Z Z) (s' : pstate) : Prop :=
  pg_inv s' N l F /\ same_ctx s s' /\ ps_km s' = ps_km s /\
  (forall k, page_at (pgi s') k = page_at (pgi s) k) /\
  (forall k j, 0 <= k -> 0 <= j < PGSIZE -> page_byte s' F k j = page_byte s F k j).

(** Nothing is in the swap file before it exists. *)
Lemma no_swapfile s N l F k :
  pg_inv s N l F -> swapfile (pgi s) = 0 -> 0 <= k ->
  pi_state (page_at (pgi s) k) = SWAPPED -> pi_swap_slot (page_at (pgi s) k) < 0.
Proof.
  intros I Hf Hk Hs. destruct (gi_rec _ _ _ _ I) as [A B C D E G].
  destruct (decide (tracked k)) as [Ht|Ht].
  - destruct (decide (0 <= pi_swap_slot (page_at (pgi s) k))); [|lia].
    by destruct (E k Ht Hs) as (_ & _ & ?).
  - rewrite page_at_out in Hs by done. done.
Qed.

(** Installing a swap file (or only its name) and changing the file system
    where no reference is lost. *)
Lemma install_swapfile s N l F f path fs' out :
  pg_inv s N l F -> swapfile (pgi s) = 0 -> fs_op fs' 0 ->
  (forall i, fs_ref (ps_fs s) i <= fs_ref fs' i) ->
  (f <> 0 -> 0 < fs_ref fs' (fs_fip fs' f)) ->
  kept s N l F (PState (ps_km s)
    (PProc (p_pid (ps_proc s)) (p_sz (ps_proc s)) (p_pagetable (ps_proc s)) (p_killed (ps_proc s))
       (set_swapfile f (set_swappath path (pgi s)))) fs' out).
Proof.
  intros I Hf Hop Hr Hfp. pose proof I as [IA [A B C D E G] IF IL IX IS].
  assert (forall k, 0 <= k -> pi_state (page_at (pgi s) k) = SWAPPED -> 0 <= pi_swap_slot (page_at (pgi s) k) -> False) as Hno.
  { intros k Hk H1 H2. pose proof (no_swapfile _ _ _ _ k I Hf Hk H1). lia. }
  split_and!; [|done|done|done|].
  - constructor; try done.
    + constructor; try done. intros i [Hi _] H1 H2. by destruct (Hno i Hi).
    + intros Hx. specialize (IX Hx). specialize (Hr (exec_ip (pgi s))).
      unfold pgi in *. simpl in *. lia.
    + intros i j [Hi _] H1 H2. by destruct (Hno i Hi).
  - intros k j Hk _. apply page_byte_ext; try done. intros _ H1 H2. by destruct (Hno k Hk).
Qed.

Lemma create_swap_file_wp s N l F :
  pg_inv s N l F -> swapfile (pgi s) = 0 ->
  wp create_swap_file (fun r s' => kept s N l F s' /\
    ((r = 0 /\ swapfile (pgi s') <> 0) \/ r = -1)) s.
Proof.
  intros I Hf. pose proof (gi_fs _ _ _ _ I) as Hop.
  unfold create_swap_file. ps_steps. rewrite Hf. simpl. ps_steps. simpl.
  set (g' := set_swappath _ _). set (nm := swap_name _).
  assert (g' = set_swapfile 0 g') as Eg by (unfold g', set_swapfile, set_swappath; f_equal; exact Hf).
  eapply wp_mono; [apply law_begin; [exact Hop|lia]|]. intros _ f1 [H1 S1]. ps_steps. simpl.
  eapply wp_mono; [apply (law_create f1 0), H1|].
  intros ip f2 [(-> & H2 & R2)|(Hip & H2 & P2 & R2)]; ps_steps; simpl.
  { ps_steps. simpl. eapply wp_mono; [apply law_end, H2|]. intros _ f3 [H3 (_ & _ & R3)]. ps_steps. simpl.
    split; [|by right]. destruct S1 as (_ & _ & S1). rewrite Eg.
    apply (install_swapfile s N l F 0 _ f3); try done. intros i. rewrite R3, R2, S1. lia. }
  destruct (Z.eqb_spec ip 0); [done|]. ps_steps. simpl.
  eapply wp_mono; [apply law_iunlock, H2|]. intros _ f3 [H3 S3]. ps_steps. simpl.
  eapply wp_mono; [apply law_filealloc, H3|]. intros f f4 (H4 & _ & R4). ps_steps.
  destruct S1 as (_ & _ & S1), S3 as (_ & _ & S3).
  destruct (Z.eqb_spec f 0) as [->|Hfn]; ps_steps; simpl.
  - eapply wp_mono; [apply law_begin; [exact H4|lia]|]. intros _ f5 [H5 (_ & _ & R5)]. ps_steps. simpl.
    eapply wp_mono; [apply law_ilock; [exact H5|]|]. { rewrite R5, R4, S3. done. }
    intros _ f6 [H6 (_ & _ & R6)]. ps_steps. simpl.
    eapply wp_mono; [apply law_clear_nlink, H6|]. intros _ f7 [H7 (_ & _ & R7)]. ps_steps. simpl.
    eapply wp_mono; [apply law_iupdate, H7|]. intros _ f8 [H8 (_ & _ & R8)]. ps_steps. simpl.
    eapply wp_mono; [apply law_iunlockput, H8|]. intros _ f9 [H9 R9]. ps_steps. simpl.
    eapply wp_mono; [apply law_end, H9|]. intros _ f10 [H10 (_ & _ & R10)]. ps_steps. simpl.
    eapply wp_mono; [apply law_end, H10|]. intros _ f11 [H11 (_ & _ & R11)]. ps_steps. simpl.
    split; [|by right]. rewrite Eg.
    apply (install_swapfile s N l F 0 _ f11); try done. intros i.
    rewrite R11, R10, R9, R8, R7, R6, R5, R4, S3, R2, S1. case_decide; lia.
  - eapply wp_mono; [apply law_open_inode, H4|]. intros _ f5 (H5 & Hfp & R5). ps_steps. simpl.
    eapply wp_mono; [apply law_end, H5|]. intros _ f6 [H6 (_ & R6' & R6)]. ps_steps. simpl.
    split; [|by left].
    apply (install_swapfile s N l F f _ f6); try done.
    + intros i. rewrite R6, R5, R4, S3, R2, S1. case_decide; lia.
    + intros _. rewrite R6', R6, Hfp, R5, R4, S3. done.
Qed.
(** ** swapout_page *)

Definition swapout_post (s : pstate) (N : nodemap) (l : list Z) (F : gmap Z Z) (i : Z)
    (r : Z) (s' : pstate) : Prop :=
  exists l' F', pg_inv s' N l' F' /\ same_ctx s s' /\
    (forall k, 0 <= k -> k <> i -> page_at (pgi s') k = page_at (pgi s) k) /\
    (forall k j, 0 <= k -> k <> i \/ discardable (page_at (pgi s) i) = false -> 0 <= j < PGSIZE ->
       page_byte s' F' k j = page_byte s F k j) /\
    ((r = 0 /\ F' = delete i F /\ (exists pa, F !! i = Some pa /\ l' = pa :: l) /\
      pi_state (page_at (pgi s') i) = if discardable (page_at (pgi s) i) then UNMAPPED else SWAPPED) \/
     (r = -1 /\ F' = F /\ l' = l /\ page_at (pgi s') i = page_at (pgi s) i)).

(** Printing and killing before or after do not matter. *)
Lemma swapout_post_kept s N l F i s1 r s' :
  kept s N l F s1 -> 0 <= i -> swapout_post s1 N l F i r s' -> swapout_post s N l F i r s'.
Proof.
  intros (I1 & C1 & K1 & P1 & B1) Hi (l' & F' & I2 & C2 & P2 & B2 & R2). exists l', F'.
  rewrite P1 in *. split_and!; [done|by eapply same_ctx_trans| | |done].
  - intros k Hk Hne. by rewrite P2, P1.
  - intros k j Hk Hd Hj. by rewrite B2, B1.
Qed.

Lemma kept_quiet s N l F s' : pg_inv s N l F -> quiet s s' -> kept s N l F s'.
Proof.
  intros I Q. pose proof Q as (E1 & E2 & E3 & E4 & E5 & E6).
  split_and!; [by eapply pg_inv_quiet| |done| |].
  - unfold same_ctx, same_proc. by rewrite E3.
  - intros k. by rewrite E3.
  - intros k j _ _. by apply page_byte_quiet.
Qed.

Lemma swapout_fail s N l F i s' : kept s N l F s' -> 0 <= i -> swapout_post s N l F i (-1) s'.
Proof.
  intros (I & C & K & P & B) Hi. exists l, F. split_and!; [done|done|auto|intros; by apply B|].
  right. by rewrite P.
Qed.

Lemma page_va i : tracked i -> 0 <= i * PGSIZE < TRAPFRAME /\ aligned (i * PGSIZE) /\ vpn (i * PGSIZE) = i.
Proof.
  unfold tracked, MAX_TRACKED_PAGES, aligned, vpn. intros Hi. split_and!; [pg|pg| |].
  - apply Z_mod_mult.
  - apply Z.div_mul. pg.
Qed.

Lemma discard_page_wp s N l F i :
  pg_inv s N l F -> tracked i -> pi_state (page_at (pgi s) i) = RESIDENT ->
  discardable (page_at (pgi s) i) = true ->
  wp (discard_page (i * PGSIZE) i) (swapout_post s N l F i) s.
Proof.
  intros I Hi Hst Hd. pose proof I as [IA R IF IL IX IS].
  destruct (page_va i Hi) as (Hva & Hal & Hvp).
  destruct (ro_res _ _ R i Hi Hst) as [pa Hpa].
  destruct (unmap_resident (ps_km s) (proot s) N l F (i * PGSIZE) pa) as (a & Ew & Ha & EV & Epa & W);
    [done..|by rewrite Hvp|]. rewrite Hvp in W.
  unfold discard_page. ps_steps. simpl. eapply wp_intro; [exact Ew|]. ps_steps. simpl.
  unfold ld_pte. destruct (Z.eqb_spec a 0); [done|]. km_steps. rewrite EV, Epa. simpl.
  apply wp_bind, wp_on_km. simpl. apply wp_inv in W as (u & k' & Ek & W1 & W2).
  unfold mbind, M_bind in Ek. unfold wp at 1. destruct (kfree pa (ps_km s)) as [u' k1| |]; [|done..].
  apply wp_on_km. simpl. eapply wp_intro; [exact Ek|]. ps_steps.
  set (g' := upd_page _ _ _).
  assert (forall k, 0 <= k -> page_at g' k = if decide (k = i) then pi_set_state UNMAPPED (page_at (pgi s) i)
     else page_at (pgi s) k) as P by (intros k Hk; apply page_at_upd; [apply R|done..]).
  exists (pa :: l), (delete i F). split_and!.
  - constructor; try done.
    + eapply records_upd; [exact R|done| |done|done]. intros k Hk. by apply lookup_delete_ne.
    + intros k j Hk. unfold slot_byte. unfold pgi at 1 2 4. simpl. fold g'.
      rewrite P by apply Hk. case_decide; [done|]. by apply IS.
  - done.
  - intros k Hk Hne. unfold pgi at 1. simpl. fold g'. rewrite P, decide_False by done. done.
  - intros k j Hk [Hne|Hd'] Hj; [|congruence]. apply page_byte_ext.
    + by apply lookup_delete_ne.
    + unfold pgi at 1. simpl. fold g'. rewrite P, decide_False by done. done.
    + intros q Hq. simpl. apply (W2 k q Hne Hq). lia.
    + intros _ _ _. unfold slot_byte. unfold pgi at 1 2. simpl. fold g'.
      rewrite P, decide_False by done. done.
  - left. split_and!; [done|done|eauto|]. unfold pgi at 1. simpl. fold g'.
    rewrite P, decide_True, Hd by (done || apply Hi). done.
Qed.

(** Allocating a slot and giving it back leaves every slot as it was. *)
Lemma alloc_then_free g slot bm :
  swap_ok g -> alloc_swap_slot g = (slot, set_swap bm (swap_used g + 1) g) ->
  0 <= slot < MAX_SWAP_PAGES -> slot_used (swap_bitmap g) slot = false ->
  (forall j, 0 <= j -> slot_used bm j = (j =? slot) || slot_used (swap_bitmap g) j) ->
  swap_ok (set_swap bm (swap_used g + 1) g) ->
  exists bm' u, free_swap_slot slot (set_swap bm (swap_used g + 1) g) = set_swap bm' u g /\
    swap_ok (set_swap bm' u g) /\ forall j, 0 <= j -> slot_used bm' j = slot_used (swap_bitmap g) j.
Proof.
  intros Hok _ Hs Hfree Hbm Hok'.
  destruct (free_swap_slot_used _ slot Hok' Hs) as (bm' & E & Hb' & Hok'').
  { cbn [swap_bitmap set_swap]. rewrite Hbm, Z.eqb_refl by lia. done. }
  exists bm', (swap_used g + 1 - 1). cbn [set_swap swap_used swap_bitmap] in *.
  split_and!; [exact E|exact Hok''|]. intros j Hj. rewrite Hb', Hbm by done.
  destruct (Z.eqb_spec j slot); simpl; [by subst|done].
Qed.

(** A new bitmap, and a file system in which only free slots changed. *)
Lemma kept_bitmap s N l F bm u fs' out killed :
  pg_inv s N l F -> swap_ok (set_swap bm u (pgi s)) ->
  (forall j, 0 <= j -> slot_used (swap_bitmap (pgi s)) j = true -> slot_used bm j = true) ->
  fs_op fs' 0 -> (forall f, fs_fip fs' f = fs_fip (ps_fs s) f) -> (forall i, fs_ref fs' i = fs_ref (ps_fs s) i) ->
  (forall k j, tracked k -> pi_state (page_at (pgi s) k) = SWAPPED -> 0 <= pi_swap_slot (page_at (pgi s) k) ->
     0 <= j < PGSIZE ->
     fs_byte fs' (fs_fip (ps_fs s) (swapfile (pgi s))) (pi_swap_slot (page_at (pgi s) k) * PGSIZE + j) =
     slot_byte s k j) ->
  kept s N l F (PState (ps_km s)
    (PProc (p_pid (ps_proc s)) (p_sz (ps_proc s)) (p_pagetable (ps_proc s)) killed
       (set_swap bm u (pgi s))) fs' out).
Proof.
  intros I Hok Hbm Hop Hfip Href Hb. pose proof I as [IA R IF IL IX IS].
  set (s' := PState _ _ _ _).
  assert (forall k j, tracked k -> pi_state (page_at (pgi s) k) = SWAPPED -> 0 <= pi_swap_slot (page_at (pgi s) k) ->
     0 <= j < PGSIZE -> slot_byte s' k j = slot_byte s k j) as Hsb.
  { intros k j Hk H1 H2 Hj. rewrite <- Hb by done. unfold slot_byte, s', pgi. simpl. by rewrite Hfip. }
  split_and!; [|done|done|done|].
  - constructor; try done.
    + apply records_bitmap; [done|done|]. intros i Hi H1 H2. apply Hbm; [done|].
      by apply (ro_slot _ _ R i Hi H1 H2).
    + intros Hf. unfold s', pgi. simpl. rewrite Href, Hfip. by apply IL.
    + intros Hx. unfold s', pgi. simpl. rewrite Href. by apply IX.
    + intros k j Hk H1 H2 Hj. rewrite Hsb by done. by apply IS.
  - intros k j Hk Hj. apply page_byte_ext; try done. intros _ H1 H2.
    destruct (decide (tracked k)) as [Ht|Ht]; [by apply Hsb|].
    rewrite page_at_out in H1; [done|apply R|done|done].
Qed.

Lemma slot_offset slot : 0 <= slot < MAX_SWAP_PAGES -> w32 (w64 (slot * PGSIZE)) = slot * PGSIZE.
Proof.
  unfold MAX_SWAP_PAGES. intros H. rewrite w64_id by pg. apply w32_id. pg.
Qed.

Definition to_slot (slot : Z) (x : page_info) : page_info :=
  pi_set_from_exec 0 (pi_set_slot slot (pi_set_state SWAPPED x)).

(** The state after a page has been written to a fresh slot and unmapped. *)
Lemma swapout_done s N l F i pa slot bm k' fs' out :
  pg_inv s N l F -> tracked i -> discardable (page_at (pgi s) i) = false -> swapfile (pgi s) <> 0 ->
  F !! i = Some pa -> 0 <= slot < MAX_SWAP_PAGES -> slot_used (swap_bitmap (pgi s)) slot = false ->
  (forall j, 0 <= j -> slot_used bm j = (j =? slot) || slot_used (swap_bitmap (pgi s)) j) ->
  swap_ok (set_swap bm (swap_used (pgi s) + 1) (pgi s)) ->
  as_inv k' (proot s) N (pa :: l) (delete i F) ->
  (forall u q, u <> i -> F !! u = Some q -> same_page (phys (ps_km s)) (phys k') q) ->
  fs_op fs' 0 -> (forall f, fs_fip fs' f = fs_fip (ps_fs s) f) -> (forall i, fs_ref fs' i = fs_ref (ps_fs s) i) ->
  (forall k j, tracked k -> pi_state (page_at (pgi s) k) = SWAPPED -> 0 <= pi_swap_slot (page_at (pgi s) k) ->
     0 <= j < PGSIZE ->
     fs_byte fs' (fs_fip (ps_fs s) (swapfile (pgi s))) (pi_swap_slot (page_at (pgi s) k) * PGSIZE + j) =
     slot_byte s k j) ->
  (forall j, 0 <= j < PGSIZE ->
     fs_byte fs' (fs_fip (ps_fs s) (swapfile (pgi s))) (slot * PGSIZE + j) =
     Some (mget (phys (ps_km s)) (pa + j))) ->
  swapout_post s N l F i 0 (PState k'
    (PProc (p_pid (ps_proc s)) (p_sz (ps_proc s)) (p_pagetable (ps_proc s)) (p_killed (ps_proc s))
       (upd_page i (to_slot slot) (set_swap bm (swap_used (pgi s) + 1) (pgi s)))) fs' out).
Proof.
  intros I Hi Hd Hf Hpa Hsl Hfree Hbm Hok HA HS Hop Hfip Href Hkeep Hnew. pose proof I as [IA R IF IL IX IS].
  set (g' := upd_page _ _ _). set (s' := PState _ _ _ _).
  assert (forall k, 0 <= k -> page_at (pgi s') k =
     if decide (k = i) then to_slot slot (page_at (pgi s) i) else page_at (pgi s) k) as P.
  { intros k Hk. apply (page_at_upd (set_swap bm _ (pgi s))); [apply R|done..]. }
  assert (forall k j, slot_byte s' k j =
     fs_byte fs' (fs_fip (ps_fs s) (swapfile (pgi s))) (pi_swap_slot (page_at (pgi s') k) * PGSIZE + j)) as Hsb.
  { intros k j. unfold slot_byte. change (ps_fs s') with fs'. rewrite Hfip. done. }
  exists (pa :: l), (delete i F). split_and!.
  - constructor; try done.
    + by apply (records_swapout (pgi s) F i (to_slot slot) slot bm).
    + intros _. change (ps_fs s') with fs'. rewrite Href, Hfip. by apply IL.
    + intros Hx. change (ps_fs s') with fs'. rewrite Href. by apply IX.
    + intros k j Hk. rewrite Hsb, P by apply Hk. case_decide; intros K1 K2 Hj.
      * simpl. rewrite Hnew by done. done.
      * rewrite Hkeep by done. by apply IS.
  - done.
  - intros k Hk Hne. rewrite P, decide_False by done. done.
  - intros k j Hk _ Hj. destruct (decide (k = i)) as [->|Hne].
    + unfold page_byte. rewrite lookup_delete_eq, Hpa, Hsb, P, decide_True by done. simpl.
      destruct (Z.leb_spec 0 slot); [|lia]. by apply Hnew.
    + apply page_byte_ext.
      * by apply lookup_delete_ne.
      * rewrite P, decide_False by done. done.
      * intros q Hq. apply (HS k q Hne Hq). lia.
      * intros _ K1 K2. rewrite Hsb, P, decide_False by done.
        destruct (decide (tracked k)); [by apply Hkeep|]. rewrite page_at_out in K1; [done|apply R|done..].
  - left. split_and!; [done|done|eauto|]. rewrite P, decide_True, Hd by (done || apply Hi). done.
Qed.

Lemma swapout_dirty_wp s N l F i :
  pg_inv s N l F -> tracked i -> pi_state (page_at (pgi s) i) = RESIDENT ->
  discardable (page_at (pgi s) i) = false -> swapfile (pgi s) <> 0 ->
  wp (swapout_dirty (i * PGSIZE) i) (swapout_post s N l F i) s.
Proof.
  intros I Hi Hst Hd Hf. pose proof I as [IA R IF IL IX IS].
  destruct (page_va i Hi) as (Hva & Hal & Hvp).
  destruct (ro_res _ _ R i Hi Hst) as [pa Hpa].
  destruct (unmap_resident (ps_km s) (proot s) N l F (i * PGSIZE) pa) as (a & Ew & Ha & EV & Epa & W);
    [done..|by rewrite Hvp|]. rewrite Hvp in W.
  unfold swapout_dirty. ps_steps. unfold id.
  destruct (alloc_swap_slot_cases (pgi s) (ro_swap _ _ R)) as
    [[-> Hfull]|(slot & bm & Eal & Hsl & Hfree & _ & Hbm & Hok)].
  { cbv beta zeta. ps_steps. simpl. ps_steps. simpl. apply swapout_fail; [|apply Hi].
    by apply kept_quiet. }
  rewrite Eal. ps_steps. destruct (Z.ltb_spec slot 0); [lia|]. ps_steps. simpl.
  eapply wp_intro; [exact Ew|]. ps_steps. simpl.
  unfold ld_pte. destruct (Z.eqb_spec a 0) as [?|_]; [done|]. km_steps. rewrite EV, Epa. simpl. ps_steps. simpl.
  eapply wp_mono; [apply law_begin; [exact IF|lia]|]. intros _ f1 [H1 S1]. ps_steps. simpl.
  eapply wp_mono; [apply law_file_ip|]. intros ip f1' [Eip ->]. ps_steps. simpl.
  destruct S1 as (Sb & Sf & Sr). rewrite Sf in Eip.
  change (swapfile (pgi _)) with (swapfile (pgi s)) in Eip.
  eapply wp_mono; [apply (law_ilock f1 0); [done|]|]. { rewrite Sr, Eip. by apply IL. }
  intros _ f2 [H2 (S2b & S2f & S2r)]. ps_steps. simpl. rewrite slot_offset by done.
  unfold writei_kernel. ps_steps. simpl.
  eapply wp_mono; [apply law_writei; [exact H2|pg]|].
  rewrite bytes_at_length, Z2Nat.id by pg.
  intros n f3 (H3 & S3f & S3r & S3b & S3w). ps_steps. simpl.
  assert (forall k j, tracked k -> pi_state (page_at (pgi s) k) = SWAPPED -> 0 <= pi_swap_slot (page_at (pgi s) k) ->
     0 <= j < PGSIZE ->
     fs_byte f3 (fs_fip (ps_fs s) (swapfile (pgi s))) (pi_swap_slot (page_at (pgi s) k) * PGSIZE + j) =
     slot_byte s k j) as Hkeep.
  { intros k j Hk K1 K2 Hj. destruct (ro_slot _ _ R k Hk K1 K2) as (_ & Hu & _).
    assert (pi_swap_slot (page_at (pgi s) k) <> slot) by congruence.
    rewrite S3b; [by rewrite S2b, Sb|right; unfold PGSIZE in *; lia|]. rewrite S2b, Sb. by apply IS. }
  destruct (Z.eqb_spec n PGSIZE) as [En|En]; simpl; ps_steps; simpl.
  2: { eapply wp_mono; [apply law_iunlock, H3|]. intros _ f4 [H4 (S4b & S4f & S4r)]. ps_steps. simpl.
    eapply wp_mono; [apply law_end, H4|]. intros _ f5 [H5 (S5b & S5f & S5r)]. ps_steps. simpl.
    destruct (alloc_then_free _ _ _ (ro_swap _ _ R) Eal Hsl Hfree Hbm Hok) as (bm' & u & -> & Hok' & Hb').
    apply swapout_fail; [|apply Hi]. apply kept_bitmap; try done.
    - intros j Hj Hu. by rewrite Hb'.
    - intros f. by rewrite S5f, S4f, S3f, S2f, Sf.
    - intros f. by rewrite S5r, S4r, S3r, S2r, Sr.
    - intros k j Hk K1 K2 Hj. rewrite S5b, S4b. by apply Hkeep. }
  eapply wp_mono; [apply law_iunlock, H3|]. intros _ f4 [H4 (S4b & S4f & S4r)]. ps_steps. simpl.
  eapply wp_mono; [apply law_end, H4|]. intros _ f5 [H5 (S5b & S5f & S5r)]. ps_steps. simpl.
  apply wp_inv in W as (u & k' & Ek & W1 & W2).
  unfold mbind, M_bind in Ek. unfold wp at 1. destruct (kfree pa (ps_km s)) as [u' k1| |]; [|done..].
  ps_steps. simpl. eapply wp_intro; [exact Ek|]. ps_steps.
  apply (swapout_done s N l F i pa slot bm); try done.
  - intros f. by rewrite S5f, S4f, S3f, S2f, Sf.
  - intros f. by rewrite S5r, S4r, S3r, S2r, Sr.
  - intros k j Hk K1 K2 Hj. rewrite S5b, S4b. by apply Hkeep.
  - intros j Hj. rewrite S5b, S4b, <- Eip. rewrite <- (w8_id (mget _ _)) by apply mget_range.
    apply S3w; [done| |lia]. apply bytes_at_lookup. lia.
Qed.
Lemma swapout_page_wp s N l F i :
  pg_inv s N l F -> tracked i ->
  wp (swapout_page (i * PGSIZE)) (fun r s' => swapout_post s N l F i r s' /\
    (r = 0 -> pi_state (page_at (pgi s) i) = RESIDENT)) s.
Proof.
  intros I Hi. destruct (page_va i Hi) as (Hva & Hal & Hvp).
  unfold swapout_page. rewrite PGROUNDDOWN_page_of, page_of_aligned, get_page_info_vpn by (done || lia).
  rewrite Hvp, decide_True by done. ps_steps.
  destruct (Z.eqb_spec (pi_state (page_at (pgi s) i)) RESIDENT) as [Hst|Hst]; simpl; ps_steps.
  2: { split; [|done]. apply swapout_fail; [|apply Hi]. by apply kept_quiet. }
  assert (forall r s', swapout_post s N l F i r s' -> swapout_post s N l F i r s' /\
    (r = 0 -> pi_state (page_at (pgi s) i) = RESIDENT)) as Hpost by auto.
  fold (discardable (page_at (pgi s) i)).
  destruct (discardable (page_at (pgi s) i)) eqn:Hd.
  { eapply wp_mono; [by apply discard_page_wp|]. auto. }
  ps_steps. set (s1 := PState _ _ _ _).
  assert (kept s N l F s1) as K1 by (by apply kept_quiet). pose proof K1 as (I1 & _ & _ & P1 & _).
  change (pgi s1) with (pgi s).
  destruct (Z.eqb_spec (swapfile (pgi s)) 0) as [Hf|Hf]; ps_steps.
  2: { eapply wp_mono; [by apply (swapout_dirty_wp s1 N l F i)|]. intros r s' Hs'.
    apply Hpost. eapply swapout_post_kept; [exact K1|apply Hi|exact Hs']. }
  eapply wp_mono; [by apply (create_swap_file_wp s1 N l F)|].
  intros r s2 [K2 [[-> Hf2]| ->]]; ps_steps; simpl; ps_steps.
  - pose proof K2 as (I2 & _ & _ & P2 & _).
    eapply wp_mono; [apply (swapout_dirty_wp s2 N l F i); rewrite ?P2, ?P1; done|]. intros r s' Hs'.
    apply Hpost. eapply swapout_post_kept; [exact K1|apply Hi|].
    eapply swapout_post_kept; [exact K2|apply Hi|exact Hs'].
  - pose proof K2 as (I2 & _). apply Hpost.
    eapply swapout_post_kept; [exact K1|apply Hi|].
    eapply swapout_post_kept; [exact K2|apply Hi|]. apply swapout_fail; [|apply Hi]. by apply kept_quiet.
Qed.

(** ** evict_page_fifo

    [evicted]: what an eviction may change.  The victim is resident and no
    resident page has been resident for longer. *)
Definition evicted (s : pstate) (N : nodemap) (l : list Z) (F : gmap Z Z)
    (s' : pstate) (l' : list Z) (F' : gmap Z Z) : Prop :=
  pg_inv s' N l' F' /\ same_ctx s s' /\
  (forall k, 0 <= k -> pi_state (page_at (pgi s) k) <> RESIDENT ->
     page_at (pgi s') k = page_at (pgi s) k /\ F' !! k = F !! k) /\
  (forall k j, 0 <= k -> pi_state (page_at (pgi s) k) <> RESIDENT \/ discardable (page_at (pgi s) k) = false ->
     0 <= j < PGSIZE -> page_byte s' F' k j = page_byte s F k j).

Definition oldest (g : paging_info) (i : Z) : Prop :=
  tracked i /\ pi_state (page_at g i) = RESIDENT /\
  forall k, tracked k -> pi_state (page_at g k) = RESIDENT ->
    pi_fifo_seq (page_at g i) <= pi_fifo_seq (page_at g k).

Lemma resident_page_at g k :
  length (pages g) = Z.to_nat MAX_TRACKED_PAGES -> tracked k ->
  pi_state (page_at g k) = RESIDENT -> resident_at (pages g) k (pi_fifo_seq (page_at g k)).
Proof.
  intros Hl Hk Hs. exists (page_at g k). split_and!; [|apply Hk|done|done].
  unfold page_at. destruct (lookup_lt_is_Some_2 (pages g) (Z.to_nat k)) as [x Hx].
  { unfold tracked in Hk. lia. }
  by rewrite nth_lookup, Hx.
Qed.

Lemma find_victim_oldest g v m :
  length (pages g) = Z.to_nat MAX_TRACKED_PAGES ->
  find_victim (take (Z.to_nat 35000) (pages g)) 0 (-1) 0x7FFFFFFF = (v, m) ->
  v = -1 \/ (0 <= v /\ oldest g v /\ pi_fifo_seq (page_at g v) = m).
Proof.
  intros Hl. rewrite take_ge by (rewrite Hl; done).
  intros [[-> _]|(Hv & (x & Hx & _ & Hs & <-) & Hmin)]%find_victim_fifo; [by left|]. right.
  assert (page_at g v = x) as E by (unfold page_at; by rewrite nth_lookup, Hx).
  split_and!; [lia| |by rewrite E]. split_and!; [unfold tracked; lia|by rewrite E|].
  intros k Hk Hks. rewrite E. eapply Hmin. by apply resident_page_at.
Qed.

Definition evict_post (s : pstate) (N : nodemap) (l : list Z) (F : gmap Z Z) (r : Z) (s' : pstate) : Prop :=
  exists l' F', evicted s N l F s' l' F' /\
    ((r = 0 /\ exists i pa, oldest (pgi s) i /\ F !! i = Some pa /\ F' = delete i F /\ l' = pa :: l /\
        pi_state (page_at (pgi s') i) = if discardable (page_at (pgi s) i) then UNMAPPED else SWAPPED) \/
     (r = -1 /\ F' = F /\ l' = l)).

Lemma evict_page_fifo_wp s N l F :
  pg_inv s N l F -> wp evict_page_fifo (evict_post s N l F) s.
Proof.
  intros I. pose proof (ro_len _ _ (gi_rec _ _ _ _ I)) as Hl.
  unfold evict_page_fifo. ps_steps.
  destruct (find_victim (take (Z.to_nat 35000) (pages (pgi s))) 0 (-1) 0x7FFFFFFF) as [v m] eqn:E.
  destruct (find_victim_oldest _ _ _ Hl E) as [->|(Hv & Hold & _)].
  { cbv beta zeta. destruct (Z.ltb_spec (-1) 0); [|lia]. ps_steps. exists l, F. split; [|by right].
    split_and!; done. }
  cbv beta zeta. destruct (Z.ltb_spec v 0); [lia|]. ps_steps. set (s1 := PState _ _ _ _).
  assert (kept s N l F s1) as K1 by (by apply kept_quiet). pose proof K1 as (I1 & _ & _ & P1 & _).
  pose proof Hold as (Hvt & Hvs & _).
  eapply wp_mono; [apply (swapout_page_wp s1 N l F v I1 Hvt)|].
  intros r s' [Hp _]. apply (swapout_post_kept s N l F v s1 r s' K1 Hv) in Hp.
  destruct Hp as (l' & F' & I' & C' & P' & B' & R'). exists l', F'. split.
  - split_and!; [done|done| |].
    + intros k Hk Hns. assert (k <> v) by congruence. split; [by apply P'|].
      destruct R' as [(_ & -> & _)|(_ & -> & _)]; [by apply lookup_delete_ne|done].
    + intros k j Hk Hd Hj. apply B'; [done| |done]. destruct (decide (k = v)) as [->|]; [|by left].
      destruct Hd; [done|by right].
  - destruct R' as [(-> & -> & (pa & Hpa & ->) & Hs)|(-> & -> & -> & _)]; [left|by right].
    split; [done|]. by exists v, pa.
Qed.

(** ** kalloc, with eviction when memory is full *)

Definition spare (N : nodemap) (l : list Z) (F : gmap Z Z) (pa : Z) : Prop :=
  page_ok pa /\ (pa ∉ l) /\ (~ owns N F pa).

(** Taking a page off the free list inside the paging state. *)
Lemma kalloc_pg s N l F pa l1 k :
  pg_inv s N l F -> l = pa :: l1 -> kmem_inv k l1 -> page_ok pa -> frame (eq pa) (phys (ps_km s)) (phys k) ->
  let s' := PState k (ps_proc s) (ps_fs s) (ps_out s) in
  pg_inv s' N l1 F /\ spare N l1 F pa /\
  forall i j, 0 <= i -> 0 <= j < PGSIZE -> page_byte s' F i j = page_byte s F i j.
Proof.
  intros I El Hk Hok HF s'. pose proof I as [IA R IF IL IX IS].
  destruct (alloc_page_as _ _ k _ _ _ _ _ _ IA El Hk HF eq_refl (frame_refl _ _)) as (IA' & Hn & Ho & _).
  split_and!; [by constructor|by split_and!|].
  intros i j Hi Hj. apply page_byte_ext; try done. intros q Hq. simpl.
  apply (frame_same_page _ _ _ q HF); [exact (as_frame_aligned _ _ _ _ _ _ _ IA Hq)| |lia].
  intros <-. apply Ho. right. by eexists.
Qed.

Definition kalloc_evict_post (s : pstate) (N : nodemap) (l : list Z) (F : gmap Z Z)
    (r : Z) (s' : pstate) : Prop :=
  exists l' F', evicted s N l F s' l' F' /\ (l <> [] -> F' = F) /\
    ((r = 0 /\ l' = [] /\ F' = F) \/ (r <> 0 /\ spare N l' F' r)).

Lemma evicted_quiet s N l F s1 l1 F1 s2 :
  evicted s N l F s1 l1 F1 -> quiet s1 s2 -> evicted s N l F s2 l1 F1.
Proof.
  intros (I & C & P & B) Q. pose proof (kept_quiet _ _ _ _ _ I Q) as (I2 & C2 & _ & P2 & B2).
  split_and!; [done|by eapply same_ctx_trans| |].
  - intros k Hk Hn. rewrite P2. by apply P.
  - intros k j Hk Hd Hj. rewrite B2 by done. by apply B.
Qed.

Lemma kalloc_evict_wp s N l F oom :
  pg_inv s N l F -> (forall s0, wp oom (fun _ s' => quiet s0 s') s0) ->
  wp (kalloc_evict oom) (kalloc_evict_post s N l F) s.
Proof.
  intros I Hoom. unfold kalloc_evict. ps_steps.
  eapply wp_mono; [apply kalloc_cases, (pw_km _ _ _ _ (as_world _ _ _ _ _ (gi_as _ _ _ _ I)))|].
  intros r k [(-> & -> & ->)|(l1 & El & Hok & Hk & HF)].
  2: { pose proof (page_ok_pos _ Hok). destruct (Z.eqb_spec r 0); [lia|]. simpl. ps_steps.
    destruct (kalloc_pg s N l F r l1 k I El Hk Hok HF) as (I1 & Hfr & B1).
    exists l1, F. split_and!; [|done|by right].
    split_and!; [done|done|done|]. intros i j Hi _ Hj. by apply B1. }
  simpl. ps_steps. set (s1 := PState _ _ _ _).
  assert (quiet s s1) as Q1 by done. pose proof (kept_quiet _ _ _ _ _ I Q1) as (I1 & _ & _ & _ & _).
  eapply wp_mono; [by apply (evict_page_fifo_wp s1 N [] F)|].
  intros r s2 (l2 & F2 & E2 & R2).
  assert (evicted s N [] F s2 l2 F2) as E2'.
  { destruct E2 as (A & B & C & D). split_and!; try done. }
  destruct R2 as [(-> & i & pa & Hold & Hpa & -> & -> & _)|(-> & -> & ->)]; ps_steps; simpl.
  2: { ps_steps. eapply wp_mono; [apply Hoom|]. intros u s3 Q3. ps_steps. exists [], F.
    split_and!; [by eapply evicted_quiet|done|by left]. }
  ps_steps. pose proof E2' as (I2 & C2 & P2 & B2).
  eapply wp_mono; [apply kalloc_wp, (pw_km _ _ _ _ (as_world _ _ _ _ _ (gi_as _ _ _ _ I2)))|].
  intros r k (-> & Hk & HF & _).
  assert (page_ok pa) as Hok by apply (as_frame _ _ _ _ _ (gi_as _ _ _ _ I) _ _ Hpa).
  pose proof (page_ok_pos _ Hok). destruct (Z.eqb_spec pa 0); [lia|]. ps_steps.
  destruct (kalloc_pg s2 N [pa] _ pa [] k I2 eq_refl Hk Hok HF) as (I3 & Hfr & B3).
  exists [], (delete i F). split_and!; [|done|by right].
  split_and!; [done|done|done|]. intros v j Hv Hd Hj. rewrite B3 by done. by apply B2.
Qed.
End swapout.
