(* ===== verification/PagingSpec.v ===== *)
(** * Page faults: swap-in and the three cases of handle_page_fault

    Each handler keeps the paging invariant, keeps the logical content of the
    other pages, and on success leaves the faulting page mapped with the
    content it must have: zeros for the heap, the bytes of the executable for
    text and data, the bytes that were swapped out for a swapped page. *)
From S2P Require Import Prelude Mem Riscv Kalloc Vm PageTable VmSpec AddrSpace UvmSpec Paging SwapSpec PagingInv SwapOut.
From stdpp Require Import base tactics numbers list strings gmap.
From Stdlib Require Import ZArith Lia.

Open Scope Z_scope.

Section fault.
Context {KL : KernelLayout} {PE : Panics} {FS : FsOps} {FL : FsLaws FS}.

Definition same_frames (F : gmap Z Z) (m m' : gmap Z Z) : Prop :=
  forall v q, F !! v = Some q -> same_page m m' q.
Definition same_bytes (s : pstate) (F : gmap Z Z) (s' : pstate) (F' : gmap Z Z) (P : Z -> Prop) : Prop :=
  forall k j, 0 <= k -> P k -> 0 <= j < PGSIZE -> page_byte s' F' k j = page_byte s F k j.
Definition anypage (k : Z) : Prop := True.

(** A change that the frames of the pages do not see. *)
Lemma pg_touch s N l F k N' l' fs' out killed :
  pg_inv s N l F -> as_inv k (proot s) N' l' F -> same_frames F (phys (ps_km s)) (phys k) ->
  fs_same (ps_fs s) fs' -> fs_op fs' 0 ->
  let s' := PState k (PProc (p_pid (ps_proc s)) (p_sz (ps_proc s)) (p_pagetable (ps_proc s)) killed (pgi s)) fs' out in
  pg_inv s' N' l' F /\ same_ctx s s' /\ pgi s' = pgi s /\ same_bytes s F s' F anypage.
Proof.
  intros I HA HS (Sb & Sf & Sr) Hop s'. pose proof I as [IA R IF IL IX IS].
  assert (forall i j, slot_byte s' i j = slot_byte s i j) as Hsb.
  { intros i j. unfold slot_byte, s', pgi. simpl. by rewrite Sf, Sb. }
  split_and!; [|done|done|].
  - constructor; try done.
    + intros Hf. unfold s', pgi. simpl. rewrite Sf, Sr. by apply IL.
    + intros Hf. unfold s', pgi. simpl. rewrite Sr. by apply IX.
    + intros i j. rewrite Hsb. apply IS.
  - intros i j Hi _ Hj. apply page_byte_ext; try done. intros q Hq. apply (HS i q Hq). lia.
Qed.

(** Writing to a fresh page. *)
Lemma fresh_touch k k' root N l F pa :
  as_inv k root N l F -> spare N l F pa -> freelist k' = freelist k -> frame (eq pa) (phys k) (phys k') ->
  as_inv k' root N l F /\ same_frames F (phys k) (phys k').
Proof.
  intros A (Hok & Hl & Ho) Hfl HF. split.
  - eapply as_inv_other; [exact A|exact HF| |].
    + eapply (kmem_inv_frame _ k k'); [done|exact HF| |apply A]. by intros q Hq <-.
    + intros p Hp. split; [by intros <-|]. by eapply owns_not_free.
  - intros v q Hq. eapply frame_same_page; [exact HF|exact (as_frame_aligned _ _ _ _ _ _ _ A Hq)|].
    intros <-. apply Ho. right. by eexists.
Qed.

(** Giving a fresh page back. *)
Lemma kfree_fresh k root N l F pa :
  as_inv k root N l F -> spare N l F pa ->
  wp (PE := no_panic) (kfree pa) (fun _ k' => as_inv k' root N (pa :: l) F /\ same_frames F (phys k) (phys k')) k.
Proof.
  intros A (Hok & Hl & Ho). eapply wp_mono; [apply kfree_wp; [apply A|done|done]|].
  intros _ k' [Hk HF]. split.
  - eapply as_inv_other; [exact A|exact HF|done|].
    intros p Hp. split; [by intros <-|]. intros [->|Hin]%elem_of_cons; [done|].
    by apply (owns_not_free _ _ _ _ _ _ A Hp).
  - intros v q Hq. eapply frame_same_page; [exact HF|exact (as_frame_aligned _ _ _ _ _ _ _ A Hq)|].
    intros <-. apply Ho. right. by eexists.
Qed.

(** Mapping a fresh page. *)
Lemma map_fresh k root N l F va pa perm :
  as_inv k root N l F -> 0 <= va < TRAPFRAME -> aligned va -> F !! vpn va = None -> spare N l F pa ->
  0 <= perm < 1024 ->
  wp (PE := no_panic) (mappages root va PGSIZE pa perm) (fun r k' => exists N' l',
    same_frames F (phys k) (phys k') /\ same_page (phys k) (phys k') pa /\
    ((r = 0 /\ as_inv k' root N' l' (<[vpn va := pa]> F) /\
      leaf_pte (phys k') N' (vpn va) = mapped_pte pa perm) \/
     (r = -1 /\ l' = [] /\ as_inv k' root N' l' F /\ spare N' l' F pa))) k.
Proof.
  intros A Hva Hal HF (Hok & Hl & Ho) Hp.
  eapply wp_mono; [by eapply map_page_wp|]. intros r k' (N' & l' & G & Hr). exists N', l'.
  split_and!.
  - intros v q Hq. eapply grows_same_page; [exact G|exact (as_frame_aligned _ _ _ _ _ _ _ A Hq)|
      apply (as_disj _ _ _ _ _ A _ _ Hq)..].
  - eapply grows_same_page; [exact G|by apply page_ok_aligned| |done]. intros Hn. apply Ho. by left.
  - destruct Hr as [(-> & A' & L)|(-> & -> & A' & L)]; [left|right].
    + split_and!; [done|done|]. by rewrite L, decide_True.
    + destruct (map_fail_as _ _ _ _ _ _ _ pa A G A' Ho Hl) as [Ho' Hl']. split_and!; [done|done|done|by split_and!].
Qed.
(** ** What a fault handler achieves *)

(** Pages whose content must survive a fault on page [v]. *)
Definition others (g : paging_info) (v k : Z) : Prop :=
  k <> v /\ (pi_state (page_at g k) <> RESIDENT \/ discardable (page_at g k) = false).

(** A read of inode [ip] delivers less than it was asked for. *)
Definition short_read (ip : Z) : Prop :=
  exists f off n data f', fs_readi ip off n f = Ret data f' /\ Z.of_nat (length data) < n.

(** The page is there, with the content it should have; or the fault failed:
    memory has run out (even with the page that is given back there is at
    most one free page), or for the reason [why]. *)
Definition fault_post (s : pstate) (F : gmap Z Z) (v perm : Z) (content : pstate -> Z -> option Z) (why : Prop)
    (r : Z) (s' : pstate) : Prop :=
  exists N' l' F', pg_inv s' N' l' F' /\ same_proc s s' /\ same_bytes s F s' F' (others (pgi s) v) /\
    ((r = 0 /\ (exists pa, F' !! v = Some pa /\ leaf_pte (phys (ps_km s')) N' v = mapped_pte pa perm) /\
      (forall j, 0 <= j < PGSIZE -> page_byte s' F' v j = content s' j) /\
      (tracked v -> pi_state (page_at (pgi s') v) = RESIDENT /\
                    pi_fifo_seq (page_at (pgi s') v) = next_fifo_seq (pgi s))) \/
     (r = -1 /\ F' !! v = None /\ ((length l' <= 1)%nat \/ why))).

(** In the middle of a fault on page [v]: a spare page is at hand. *)
Record ready (s : pstate) (F : gmap Z Z) (v mem : Z) (s1 : pstate) (N1 : nodemap) (l1 : list Z) (F1 : gmap Z Z)
  : Prop := {
  rd_inv : pg_inv s1 N1 l1 F1;
  rd_ctx : same_ctx s s1;
  rd_bytes : same_bytes s F s1 F1 (others (pgi s) v);
  rd_none : F1 !! v = None;
  rd_spare : spare N1 l1 F1 mem
}.

Lemma not_resident s N l F v :
  pg_inv s N l F -> 0 <= v -> F !! v = None -> pi_state (page_at (pgi s) v) <> RESIDENT.
Proof.
  intros I Hv HF Hs. pose proof (gi_rec _ _ _ _ I) as R. destruct (decide (tracked v)) as [Ht|Ht].
  - destruct (ro_res _ _ R v Ht Hs). congruence.
  - rewrite page_at_out in Hs; [done|apply R|done..].
Qed.

Lemma ready_evicted s N l F v s1 l1 F1 mem :
  pg_inv s N l F -> 0 <= v -> F !! v = None -> evicted s N l F s1 l1 F1 -> spare N l1 F1 mem ->
  ready s F v mem s1 N l1 F1.
Proof.
  intros I Hv HF (I1 & C1 & P1 & B1) Hsp. constructor; [done|done| | |done].
  - intros k j Hk [_ Ho] Hj. by apply B1.
  - destruct (P1 v Hv (not_resident _ _ _ _ _ I Hv HF)) as [_ ->]. done.
Qed.

(** The spare page is filled and the file system is used. *)
Lemma ready_touch s F v mem s1 N1 l1 F1 k fs' out killed :
  ready s F v mem s1 N1 l1 F1 -> freelist k = freelist (ps_km s1) ->
  frame (eq mem) (phys (ps_km s1)) (phys k) -> fs_same (ps_fs s1) fs' -> fs_op fs' 0 ->
  ready s F v mem (PState k (PProc (p_pid (ps_proc s1)) (p_sz (ps_proc s1)) (p_pagetable (ps_proc s1)) killed (pgi s1)) fs' out)
    N1 l1 F1.
Proof.
  intros [I1 C1 B1 HN Hsp] Hfl HF Hfs Hop.
  destruct (fresh_touch _ _ _ _ _ _ _ (gi_as _ _ _ _ I1) Hsp Hfl HF) as [A S].
  destruct (pg_touch _ _ _ _ k N1 l1 fs' out killed I1 A S Hfs Hop) as (I2 & C2 & _ & B2).
  constructor; [done|by eapply same_ctx_trans| |done|done].
  intros i j Hi Ho Hj. rewrite B2 by done. by apply B1.
Qed.

(** The fault fails and the spare page goes back to the free list. *)
Lemma ready_fail s F v mem s1 N1 l1 F1 perm content (why : Prop) :
  ready s F v mem s1 N1 l1 F1 -> l1 = [] \/ why ->
  wp (PE := no_panic) (kfree mem) (fun _ k => forall out killed,
    fault_post s F v perm content why (-1)
      (PState k (PProc (p_pid (ps_proc s1)) (p_sz (ps_proc s1)) (p_pagetable (ps_proc s1)) killed (pgi s1))
         (ps_fs s1) out)) (ps_km s1).
Proof.
  intros [I1 C1 B1 HN Hsp] Hwhy. eapply wp_mono; [by apply (kfree_fresh _ _ _ _ _ _ (gi_as _ _ _ _ I1))|].
  intros u k [A S] out killed.
  destruct (pg_touch _ _ _ _ k N1 _ (ps_fs s1) out killed I1 A S (fs_same_refl _) (gi_fs _ _ _ _ I1)) as (I2 & C2 & _ & B2).
  exists N1, (mem :: l1), F1. split_and!; [done| | |right; split_and!; [done|done|destruct Hwhy as [->|?]; [left; cbn; lia|by right]]].
  - eapply same_proc_trans; [apply C1|apply C2].
  - intros i j Hi Ho Hj. rewrite B2 by done. by apply B1.
Qed.

Definition resident_rec (pi : option Z) (f : page_info -> page_info) (g : paging_info) : paging_info :=
  match pi with
  | Some i => upd_page i (fun x => pi_set_seq (next_fifo_seq g) (f x)) (set_next_seq (s32 (next_fifo_seq g + 1)) g)
  | None => g
  end.

Lemma records_map g F v pa :
  records_ok g F -> 0 <= v -> ~ tracked v -> records_ok g (<[v := pa]> F).
Proof.
  intros [A B C D E G] Hv Ht. constructor; try done; intros i Hi Hs;
    (destruct (decide (v = i)) as [->|]; [done|]; rewrite lookup_insert_ne by done; auto).
Qed.

(** The spare page has been mapped and recorded. *)
Lemma ready_mapped s F v mem s1 N1 l1 F1 k N' l' f perm content why out :
  ready s F v mem s1 N1 l1 F1 -> 0 <= v ->
  as_inv k (proot s1) N' l' (<[v := mem]> F1) -> leaf_pte (phys k) N' v = mapped_pte mem perm ->
  same_frames F1 (phys (ps_km s1)) (phys k) -> same_page (phys (ps_km s1)) (phys k) mem ->
  (forall x, pi_state (f x) = RESIDENT) ->
  let s' := PState k (PProc (p_pid (ps_proc s1)) (p_sz (ps_proc s1)) (p_pagetable (ps_proc s1)) (p_killed (ps_proc s1))
               (resident_rec (if decide (tracked v) then Some v else None) f (pgi s1))) (ps_fs s1) out in
  (forall j, 0 <= j < PGSIZE -> content s' j = Some (mget (phys (ps_km s1)) (mem + j))) ->
  fault_post s F v perm content why 0 s'.
Proof.
  intros [I1 C1 B1 HN Hsp] Hv HA HL HS HP Hf s' Hc. pose proof I1 as [IA R IF IL IX IS].
  destruct C1 as [Cp Cs].
  assert (forall i, 0 <= i -> page_at (pgi s') i =
    if decide (i = v /\ tracked v) then pi_set_seq (next_fifo_seq (pgi s1)) (f (page_at (pgi s1) v))
    else page_at (pgi s1) i) as P.
  { intros i Hi. unfold s', pgi at 1. simpl. unfold resident_rec. destruct (decide (tracked v)) as [Ht|Ht].
    - rewrite (page_at_upd (set_next_seq _ (pgi s1))) by (done || apply R).
      destruct (decide (i = v)), (decide (i = v /\ tracked v)); tauto || done.
    - rewrite decide_False by tauto. done. }
  assert (forall i j, 0 <= i -> i <> v -> slot_byte s' i j = slot_byte s1 i j) as Hsb.
  { intros i j Hi Hne. unfold slot_byte. rewrite P, decide_False by (done || tauto).
    unfold s', pgi at 1. simpl. unfold resident_rec. by destruct (decide (tracked v)). }
  assert (pg_inv s' N' l' (<[v := mem]> F1)) as I2.
  { constructor; try done.
    - unfold s', pgi. simpl. unfold resident_rec. destruct (decide (tracked v)) as [Ht|Ht].
      + apply (records_upd (set_next_seq _ (pgi s1)) F1); try done.
        * by destruct R.
        * intros i Hi. by apply lookup_insert_ne.
        * intros _. rewrite lookup_insert_eq. done.
        * simpl. rewrite Hf. done.
      + by apply records_map.
    - unfold s', pgi. simpl. unfold resident_rec. by destruct (decide (tracked v)).
    - unfold s', pgi. simpl. unfold resident_rec. by destruct (decide (tracked v)).
    - intros i j [Hi Hi']. rewrite P by done. destruct (decide (i = v /\ tracked v)) as [E|E].
      { simpl. by rewrite Hf. }
      destruct (decide (i = v)) as [->|Hne]; [by destruct E|]. rewrite Hsb by done. by apply IS. }
  exists N', l', (<[v := mem]> F1). split_and!; [done| | |left; split_and!; [done| | |]].
  - eapply same_proc_trans; [exact Cp|]. unfold s', same_proc, pgi. simpl. unfold resident_rec.
    by destruct (decide (tracked v)).
  - intros i j Hi Ho Hj. rewrite <- B1 by done. destruct Ho as [Hne Ho]. apply page_byte_ext.
    + by apply lookup_insert_ne.
    + rewrite P, decide_False by (done || tauto). done.
    + intros q Hq. apply (HS _ _ Hq). lia.
    + intros _ _ _. by apply Hsb.
  - exists mem. by rewrite lookup_insert_eq.
  - intros j Hj. rewrite Hc by done. unfold page_byte. rewrite lookup_insert_eq. f_equal. apply HP. lia.
  - intros Ht. rewrite P, decide_True by done. simpl. split; [apply Hf|done].
Qed.

Lemma make_resident_wp i f Q (s : pstate) :
  Q (next_fifo_seq (pgi s))
    (PState (ps_km s) (PProc (p_pid (ps_proc s)) (p_sz (ps_proc s)) (p_pagetable (ps_proc s)) (p_killed (ps_proc s))
       (resident_rec (Some i) f (pgi s))) (ps_fs s) (ps_out s)) ->
  wp (make_resident i f) Q s.
Proof. done. Qed.

(** Running out of memory: no page to evict either. *)
Lemma fault_oom s N l F v s1 perm content why :
  pg_inv s N l F -> 0 <= v -> F !! v = None -> evicted s N l F s1 [] F -> fault_post s F v perm content why (-1) s1.
Proof.
  intros I Hv HF (I1 & C1 & P1 & B1). exists N, [], F. split_and!; [done|apply C1| |right; split_and!; [done|done|left; cbn; lia]].
  intros k j Hk [_ Ho] Hj. by apply B1.
Qed.

Lemma emit_quiet e s : wp (emit e) (fun _ s' => quiet s s') s.
Proof. done. Qed.

Definition with_km (s : pstate) (k : kmem) (g : paging_info) (out : list event) : pstate :=
  PState k (PProc (p_pid (ps_proc s)) (p_sz (ps_proc s)) (p_pagetable (ps_proc s)) (p_killed (ps_proc s)) g)
    (ps_fs s) out.

Lemma with_km_id s k out : PState k (ps_proc s) (ps_fs s) out = with_km s k (pgi s) out.
Proof. by destruct s as [? [] ? ?]. Qed.

(** The call of mappages that ends every handler. *)
Lemma ready_map_wp s F va mem s1 N1 l1 F1 perm content why :
  ready s F (vpn va) mem s1 N1 l1 F1 -> 0 <= va < TRAPFRAME -> aligned va -> 0 <= perm < 1024 ->
  wp (PE := no_panic) (mappages (proot s1) va PGSIZE mem perm) (fun r k =>
    (r = 0 /\ forall f out, (forall x, pi_state (f x) = RESIDENT) ->
       let s' := with_km s1 k (resident_rec (if decide (tracked (vpn va)) then Some (vpn va) else None) f (pgi s1)) out in
       (forall j, 0 <= j < PGSIZE -> content s' j = Some (mget (phys (ps_km s1)) (mem + j))) ->
       fault_post s F (vpn va) perm content why 0 s') \/
    (r = -1 /\ wp (PE := no_panic) (kfree mem) (fun _ k' => forall out, fault_post s F (vpn va) perm content why (-1)
                                     (with_km s1 k' (pgi s1) out)) k)) (ps_km s1).
Proof.
  intros RD Hva Hal Hperm. pose proof RD as [I1 C1 B1 HN Hsp].
  assert (0 <= vpn va) as Hv by (apply vpn_range; pg).
  eapply wp_mono; [exact (map_fresh _ _ _ _ _ va mem perm (gi_as _ _ _ _ I1) Hva Hal HN Hsp Hperm)|].
  intros r k (N' & l' & HS & HP & [(-> & A' & HL)|(-> & -> & A' & Hsp')]); [left|right]; split; try done.
  - intros f out Hf s' Hc. by eapply (ready_mapped s F (vpn va) mem s1 N1 l1 F1 k N' l').
  - destruct (pg_touch _ _ _ _ k N' [] (ps_fs s1) (ps_out s1) (p_killed (ps_proc s1)) I1 A' HS
      (fs_same_refl _) (gi_fs _ _ _ _ I1)) as (I2 & C2 & _ & B2).
    assert (ready s F (vpn va) mem (with_km s1 k (pgi s1) (ps_out s1)) N' [] F1) as RD2.
    { constructor; [exact I2|by eapply same_ctx_trans| |done|done].
      intros i j Hi Ho Hj. rewrite B2 by done. by apply B1. }
    eapply wp_mono; [exact (ready_fail _ _ _ _ _ _ _ _ perm content why RD2 (or_introl eq_refl))|].
    intros u k' Hk out. exact (Hk out (p_killed (ps_proc s1))).
Qed.

(** kalloc with eviction, as the handlers call it. *)
Lemma fault_alloc_wp s s0 N l F v oom perm content why :
  pg_inv s N l F -> quiet s s0 -> 0 <= v -> F !! v = None ->
  (forall s0, wp oom (fun _ s' => quiet s0 s') s0) ->
  wp (kalloc_evict oom) (fun mem s1 =>
    (mem = 0 /\ fault_post s F v perm content why (-1) s1) \/
    (mem <> 0 /\ exists l1 F1, ready s F v mem s1 N l1 F1 /\ evicted s N l F s1 l1 F1)) s0.
Proof.
  intros I Q Hv HF Hoom. pose proof (kept_quiet _ _ _ _ _ I Q) as (I0 & C0 & _ & P0 & B0).
  eapply wp_mono; [by apply (kalloc_evict_wp s0 N l F)|].
  intros mem s1 (l1 & F1 & (I1 & C1 & P1 & B1) & _ & Hr).
  assert (evicted s N l F s1 l1 F1) as E1.
  { split_and!; [done|by eapply same_ctx_trans| |].
    - intros k Hk Hn. rewrite <- P0. apply P1; [done|by rewrite P0].
    - intros k j Hk Hd Hj. rewrite <- B0 by done. apply B1; [done|by rewrite P0|done]. }
  destruct Hr as [(-> & -> & ->)|(Hm & Hsp)]; [left|right]; split; try done.
  - by eapply fault_oom.
  - exists l1, F1. split; [by eapply ready_evicted|done].
Qed.

(** The heap case: a zeroed page, mapped user-readable and -writable. *)
Lemma fault_heap_wp s N l F va acc :
  pg_inv s N l F -> 0 <= va < TRAPFRAME -> aligned va -> F !! vpn va = None ->
  wp (fault_heap va acc (get_page_info va))
     (fault_post s F (vpn va) (Z.lor (Z.lor PTE_U PTE_R) PTE_W) (fun _ _ => Some 0) False) s.
Proof.
  intros I Hva Hal HF. assert (0 <= vpn va) as Hv by (apply vpn_range; pg).
  unfold fault_heap. ps_steps. set (s0 := PState _ _ _ _).
  eapply wp_mono; [eapply (fault_alloc_wp s s0 N l F (vpn va)); try done; intros; apply emit_quiet|].
  intros mem s1 [(-> & Hp)|(Hm & l1 & F1 & RD & _)]; ps_steps; simpl; ps_steps.
  { exact Hp. }
  destruct (Z.eqb_spec mem 0); [done|]. ps_steps. km_steps. ps_steps.
  set (k1 := set_phys _ _).
  assert (frame (eq mem) (phys (ps_km s1)) (phys k1)) as HFr.
  { apply frame_memset, page_ok_aligned, (rd_spare _ _ _ _ _ _ _ _ RD). }
  pose proof (ready_touch _ _ _ _ _ _ _ _ k1 (ps_fs s1) (ps_out s1) (p_killed (ps_proc s1)) RD eq_refl HFr
    (fs_same_refl _) (gi_fs _ _ _ _ (rd_inv _ _ _ _ _ _ _ _ RD))) as RD1.
  eapply wp_mono; [apply (ready_map_wp _ _ va _ _ _ _ _ (Z.lor (Z.lor PTE_U PTE_R) PTE_W) (fun _ _ => Some 0) False RD1 Hva Hal)|].
  { by vm_compute. }
  intros r k [(-> & Hk)|(-> & Hk)]; cbn [Z.ltb Z.compare]; ps_steps.
  - rewrite get_page_info_vpn by (done || lia).
    assert (forall j, 0 <= j < PGSIZE -> Some 0 = Some (mget (phys k1) (mem + j))) as Hz.
    { intros j Hj. f_equal. symmetry. apply (memset_zero_page (phys (ps_km s1)) mem). lia. }
    destruct (decide (tracked (vpn va))) as [Ht|Ht]; ps_steps.
    + apply make_resident_wp. ps_steps. by apply Hk.
    + rewrite with_km_id. by apply (Hk (pi_set_state RESIDENT)).
  - eapply wp_mono; [exact Hk|]. intros u k' Hp. ps_steps. rewrite with_km_id. apply Hp.
Qed.

(** ** The text and data cases *)

Lemma read_size_range off filesz :
  0 <= off < TRAPFRAME -> 0 <= filesz < 2 ^ 63 ->
  read_size off filesz = Z.max 0 (Z.min PGSIZE (filesz - off)).
Proof.
  intros Ho Hf. unfold read_size. destruct (Z.leb_spec filesz off); [pg|].
  rewrite w64_id by pg. destruct (Z.ltb_spec filesz (off + PGSIZE)); [rewrite w64_id by pg; pg|pg].
Qed.

(** The content of a page of a segment: [filesz - (va - start)] bytes of the
    executable (at most a page), then zeros. *)
Definition exec_byte (start offset filesz va : Z) (s : pstate) (j : Z) : option Z :=
  if decide (j < read_size (va - start) filesz)
  then fs_byte (ps_fs s) (exec_ip (pgi s)) (w32 (offset + (va - start)) + j)
  else Some 0.

Lemma mget_store_zero m mem data j :
  zero_page m mem -> 0 <= j < PGSIZE -> (forall i b, data !! Z.to_nat i = Some b -> 0 <= i -> 0 <= b < 256) ->
  Some (mget (store_bytes m mem data) (mem + j)) =
  if decide (j < Z.of_nat (length data)) then data !! Z.to_nat j else Some 0.
Proof.
  intros Hz Hj Hb. rewrite mget_store_bytes. case_decide as E1; case_decide as E2; try lia.
  - replace (mem + j - mem) with j by lia. destruct (data !! Z.to_nat j) as [b|] eqn:E.
    + simpl. rewrite w8_id; [done|]. eapply Hb; [exact E|lia].
    + apply lookup_ge_None in E. lia.
  - f_equal. apply Hz. lia.
Qed.

Lemma same_proc_exec s s' : same_proc s s' -> exec_ip (pgi s') = exec_ip (pgi s).
Proof. unfold same_proc, segs. intuition congruence. Qed.

(** Filling the spare page from the executable. *)
Lemma exec_read_wp s F va mem s2 N l1 F1 start offset filesz perm :
  ready s F (vpn va) mem s2 N l1 F1 -> zero_page (phys (ps_km s2)) mem ->
  exec_ip (pgi s2) <> 0 -> 0 <= offset -> 0 <= read_size (va - start) filesz <= PGSIZE ->
  let ip := exec_ip (pgi s2) in
  let size := read_size (va - start) filesz in
  wp (if (0 <? size) && negb (ip =? 0) then
        on_fs fs_begin_op;;
        on_fs (fs_ilock ip);;
        n ← readi_kernel ip mem (w32 (offset + (va - start))) (w32 size);
        on_fs (fs_iunlock ip);;
        on_fs fs_end_op;;
        if negb (n =? size) then
          on_km (kfree mem);; emit EKillRead;; mret false
        else mret true
      else mret true)
    (fun (ok : bool) s3 => if ok
      then ready s F (vpn va) mem s3 N l1 F1 /\
        (forall j, 0 <= j < PGSIZE ->
          exec_byte start offset filesz va s3 j = Some (mget (phys (ps_km s3)) (mem + j)))
      else fault_post s F (vpn va) perm (exec_byte start offset filesz va) (short_read (exec_ip (pgi s2))) (-1) s3) s2.
Proof.
  intros RD Hz Hip Hof Hsz ip size. pose proof RD as [I2 C2 B2 HN Hsp].
  destruct (Z.eqb_spec ip 0) as [|_]; [done|]. rewrite andb_true_r.
  destruct (Z.ltb_spec 0 size) as [Hs|Hs]; ps_steps.
  2: { split; [done|]. intros j Hj. unfold exec_byte. rewrite decide_False by lia.
    f_equal. symmetry. apply Hz. lia. }
  eapply wp_mono; [apply law_begin; [apply I2|lia]|]. intros u1 f1 [H1 S1]. ps_steps.
  eapply wp_mono; [apply (law_ilock f1 0); [done|]|].
  { destruct S1 as (_ & _ & ->). by apply I2. }
  intros u2 f2 [H2 S2]. ps_steps. unfold readi_kernel. ps_steps.
  assert (w32 size = size) as -> by (apply w32_id; pg).
  eapply wp_mono; [apply wp_run, law_readi; [exact H2|apply w32_range|lia]|].
  intros data f3 ((H3 & S3 & Hlen & Hdata) & Erun). ps_steps.
  eapply wp_mono; [apply law_iunlock, H3|]. intros u4 f4 [H4 S4]. ps_steps.
  eapply wp_mono; [apply law_end, H4|]. intros u5 f5 [H5 S5]. ps_steps.
  set (k3 := set_phys _ _).
  assert (fs_same (ps_fs s2) f5) as SS by (do 4 (eapply fs_same_trans; [|eassumption]); done).
  assert (frame (eq mem) (phys (ps_km s2)) (phys k3)) as HFr.
  { apply frame_store_bytes; [apply page_ok_aligned, Hsp|lia]. }
  pose proof (ready_touch _ _ _ _ _ _ _ _ k3 f5 (ps_out s2) (p_killed (ps_proc s2)) RD eq_refl HFr SS H5) as RD3.
  destruct (Z.eqb_spec (Z.of_nat (length data)) size) as [El|El]; simpl; ps_steps.
  - split.
    + rewrite (with_km_id (PState (ps_km s2) (ps_proc s2) f5 (ps_out s2))). exact RD3.
    + intros j Hj. unfold k3. cbn [ps_km phys set_phys]. rewrite mget_store_zero; [|done|done|intros i b Hi H0; by eapply Hdata].
      unfold exec_byte. rewrite El. unfold pgi. simpl. fold (pgi s2) ip size.
      case_decide as Ej; [|done]. destruct (data !! Z.to_nat j) as [b|] eqn:Eb.
      * destruct (Hdata j b Eb ltac:(lia)) as [Hb _]. rewrite <- Hb.
        destruct S5 as [-> _], S4 as [-> _], S3 as [-> _]. done.
      * apply lookup_ge_None in Eb. lia.
  - eapply wp_mono; [apply (ready_fail _ _ _ _ _ _ _ _ perm (exec_byte start offset filesz va) (short_read ip) RD3)|].
    { right. do 5 eexists. split; [exact Erun|lia]. }
    intros u k' Hp. ps_steps.
    rewrite (with_km_id (PState (ps_km s2) (ps_proc s2) f5 (ps_out s2))). apply Hp.
Qed.

Lemma fault_exec_wp s N l F va acc start offset filesz perm :
  pg_inv s N l F -> exec_ip (pgi s) <> 0 -> 0 <= start <= va -> va < TRAPFRAME -> aligned va ->
  0 <= filesz < 2 ^ 63 -> 0 <= offset < 2 ^ 63 -> 0 <= perm < 1024 -> F !! vpn va = None ->
  wp (fault_exec va acc (get_page_info va) start offset filesz perm)
     (fault_post s F (vpn va) perm (exec_byte start offset filesz va) (short_read (exec_ip (pgi s)))) s.
Proof.
  intros I Hip Hst Hva Hal Hfs Hof Hperm HF. assert (0 <= vpn va) as Hv by (apply vpn_range; pg).
  assert (w64 (va - start) = va - start) as Eo by (apply w64_id; pg).
  assert (w64 (offset + (va - start)) = offset + (va - start)) as Efo by (apply w64_id; pg).
  pose proof (read_size_range (va - start) filesz ltac:(lia) Hfs) as Ers.
  unfold fault_exec. ps_steps. set (s0 := PState _ _ _ _).
  eapply wp_mono; [eapply (fault_alloc_wp s s0 N l F (vpn va)); try done; intros; apply emit_quiet|].
  intros mem s1 [(-> & Hp)|(Hm & l1 & F1 & RD & _)]; ps_steps; simpl; ps_steps.
  { exact Hp. }
  destruct (Z.eqb_spec mem 0); [done|]. ps_steps. km_steps. ps_steps. rewrite Eo, Efo.
  set (k1 := set_phys _ _).
  assert (frame (eq mem) (phys (ps_km s1)) (phys k1)) as HFr.
  { apply frame_memset, page_ok_aligned, (rd_spare _ _ _ _ _ _ _ _ RD). }
  pose proof (ready_touch _ _ _ _ _ _ _ _ k1 (ps_fs s1) (ps_out s1) (p_killed (ps_proc s1)) RD eq_refl HFr
    (fs_same_refl _) (gi_fs _ _ _ _ (rd_inv _ _ _ _ _ _ _ _ RD))) as RD1.
  set (s2 := PState k1 (PProc _ _ _ _ (pgi s1)) _ _) in RD1.
  rewrite with_km_id. change (with_km s1 k1 (pgi s1) (ps_out s1)) with s2.
  change (exec_ip (pgi s1)) with (exec_ip (pgi s2)).
  eapply (wp_mono _ (fun (ok : bool) s3 => if ok
      then ready s F (vpn va) mem s3 N l1 F1 /\
        (forall j, 0 <= j < PGSIZE ->
          exec_byte start offset filesz va s3 j = Some (mget (phys (ps_km s3)) (mem + j)))
      else fault_post s F (vpn va) perm (exec_byte start offset filesz va) (short_read (exec_ip (pgi s))) (-1) s3)).
  { rewrite <- (same_proc_exec _ _ (proj1 (rd_ctx _ _ _ _ _ _ _ _ RD1))). eapply exec_read_wp; try done; [apply memset_zero_page| |lia|rewrite Ers; pg].
    rewrite (same_proc_exec _ _ (proj1 (rd_ctx _ _ _ _ _ _ _ _ RD1))). exact Hip. }
  intros [] s3; simpl; [|by intros Hp; ps_steps]. intros [RD3 Hc]. ps_steps.
  change (p_pagetable (ps_proc s3)) with (proot s3).
  eapply wp_mono;
    [apply (ready_map_wp _ _ va _ _ _ _ _ perm (exec_byte start offset filesz va) (short_read (exec_ip (pgi s))) RD3); [lia|done|done]|].
  intros r k [(-> & Hk)|(-> & Hk)]; cbn [Z.ltb Z.compare]; ps_steps.
  - rewrite get_page_info_vpn by (done || lia).
    destruct (decide (tracked (vpn va))) as [Ht|Ht]; ps_steps.
    + apply make_resident_wp. ps_steps. by apply Hk.
    + rewrite with_km_id. by apply (Hk (pi_set_state RESIDENT)).
  - eapply wp_mono; [exact Hk|]. intros u k' Hp. ps_steps. rewrite with_km_id. apply Hp.
Qed.

(** ** Swap-in *)

Lemma records_free g F i bm u :
  records_ok g F -> tracked i -> pi_state (page_at g i) = SWAPPED -> 0 <= pi_swap_slot (page_at g i) ->
  (forall j, 0 <= j -> slot_used bm j = negb (j =? pi_swap_slot (page_at g i)) && slot_used (swap_bitmap g) j) ->
  swap_ok (set_swap bm u g) ->
  records_ok (upd_page i (pi_set_slot (-1)) (set_swap bm u g)) F.
Proof.
  intros [A B C D E G] Hi Hs Hsl Hbm Hok.
  assert (forall k, tracked k -> page_at (upd_page i (pi_set_slot (-1)) (set_swap bm u g)) k =
    if decide (k = i) then pi_set_slot (-1) (page_at g i) else page_at g k) as P.
  { intros k [Hk _]. by apply (page_at_upd (set_swap bm u g)). }
  constructor.
  - by rewrite upd_page_length.
  - exact Hok.
  - intros k Hk. rewrite P by done. case_decide; [subst; simpl; by rewrite Hs|by apply C].
  - intros k Hk. rewrite P by done. case_decide; [subst; intros _; by apply D|by apply D].
  - intros k Hk. rewrite P by done. case_decide as Hki; [simpl; lia|]. intros K1 K2.
    destruct (E k Hk K1 K2) as (E1 & E2 & E3). split_and!; [done| |done].
    cbn [swap_bitmap set_pages set_swap upd_page]. rewrite Hbm, E2, andb_true_r by done.
    apply negb_true_iff, Z.eqb_neq. intros Heq. apply Hki. symmetry. by apply (G i k).
  - intros k1 k2 H1 H2. rewrite !P by done.
    destruct (decide (k1 = i)) as [->|], (decide (k2 = i)) as [->|]; simpl; try done; try lia. by apply G.
Qed.

Lemma ready_free s F i mem s1 N1 l1 F1 bm u out :
  ready s F i mem s1 N1 l1 F1 -> tracked i -> pi_state (page_at (pgi s1) i) = SWAPPED ->
  0 <= pi_swap_slot (page_at (pgi s1) i) ->
  (forall j, 0 <= j -> slot_used bm j =
     negb (j =? pi_swap_slot (page_at (pgi s1) i)) && slot_used (swap_bitmap (pgi s1)) j) ->
  swap_ok (set_swap bm u (pgi s1)) ->
  ready s F i mem (with_km s1 (ps_km s1) (upd_page i (pi_set_slot (-1)) (set_swap bm u (pgi s1))) out) N1 l1 F1.
Proof.
  intros [I1 C1 B1 HN Hsp] Hi Hs Hsl Hbm Hok. pose proof I1 as [IA R IF IL IX IS].
  set (s2 := with_km _ _ _ _).
  assert (forall k, 0 <= k -> page_at (pgi s2) k =
    if decide (k = i) then pi_set_slot (-1) (page_at (pgi s1) i) else page_at (pgi s1) k) as P.
  { intros k Hk. apply (page_at_upd (set_swap bm u (pgi s1))); [apply R|done..]. }
  assert (forall k j, 0 <= k -> k <> i -> slot_byte s2 k j = slot_byte s1 k j) as Hsb.
  { intros k j Hk Hne. unfold slot_byte. rewrite P, decide_False by done. done. }
  constructor; [| | |done|done].
  - constructor; try done.
    + by apply records_free.
    + intros k j Hk. rewrite P by apply Hk. case_decide as Hne; [simpl; lia|].
      rewrite Hsb by (done || apply Hk). by apply IS.
  - eapply same_ctx_trans; [exact C1|done].
  - intros k j Hk Ho Hj. rewrite <- B1 by done. destruct Ho as [Hne Ho]. apply page_byte_ext; try done.
    + rewrite P, decide_False by done. done.
    + intros _ _ _. by apply Hsb.
Qed.

Definition swap_perm : Z := Z.lor (Z.lor PTE_U PTE_R) PTE_W.

Lemma swapin_finish_wp s F va mem s1 N1 l1 F1 slot content why :
  pi_swap_slot (page_at (pgi s1) (vpn va)) = slot -> ready s F (vpn va) mem s1 N1 l1 F1 -> 0 <= va < TRAPFRAME -> aligned va -> tracked (vpn va) ->
  pi_state (page_at (pgi s1) (vpn va)) = SWAPPED -> 0 <= slot ->
  (forall s' j, 0 <= j < PGSIZE -> content s' j = Some (mget (phys (ps_km s1)) (mem + j))) ->
  wp (swapin_finish va (vpn va) slot mem) (fault_post s F (vpn va) swap_perm content why) s1.
Proof.
  intros <- RD Hva Hal Ht Hs Hsl Hc. set (i := vpn va) in *. set (slot := pi_swap_slot _) in *.
  pose proof (gi_rec _ _ _ _ (rd_inv _ _ _ _ _ _ _ _ RD)) as R.
  destruct (ro_slot _ _ R i Ht Hs Hsl) as (Hmax & Hu & _).
  destruct (free_swap_slot_used (pgi s1) slot (ro_swap _ _ R) (conj Hsl Hmax) Hu) as (bm & Efr & Hbm & Hok).
  unfold swapin_finish. ps_steps. rewrite Efr.
  pose proof (ready_free _ _ _ _ _ _ _ _ bm _ (ESwapin (p_pid (ps_proc s1)) va slot :: ps_out s1) RD Ht Hs Hsl Hbm Hok) as RD2.
  eapply wp_mono; [apply (ready_map_wp _ _ va _ _ _ _ _ swap_perm content why RD2 Hva Hal); by vm_compute|].
  intros r k [(-> & Hk)|(-> & Hk)]; cbn [Z.ltb Z.compare]; ps_steps.
  - apply make_resident_wp. ps_steps. fold i in Hk. rewrite decide_True in Hk by done. apply Hk; [done|].
    intros j Hj. by apply Hc.
  - eapply wp_mono; [exact Hk|]. intros u k' Hp. ps_steps. apply Hp.
Qed.

(** A full page read from a slot is the content of the page in that slot. *)
Lemma swap_byte_read s F i mem m data j :
  F !! i = None -> pi_state (page_at (pgi s) i) = SWAPPED -> 0 <= pi_swap_slot (page_at (pgi s) i) ->
  Z.of_nat (length data) = PGSIZE -> 0 <= j < PGSIZE ->
  (forall b, data !! Z.to_nat j = Some b ->
     fs_byte (ps_fs s) (fs_fip (ps_fs s) (swapfile (pgi s))) (pi_swap_slot (page_at (pgi s) i) * PGSIZE + j) = Some b /\
     0 <= b < 256) ->
  page_byte s F i j = Some (mget (store_bytes m mem data) (mem + j)).
Proof.
  intros HF Hs Hsl El Hj Hd. unfold page_byte. rewrite HF, Hs. simpl.
  destruct (Z.leb_spec 0 (pi_swap_slot (page_at (pgi s) i))); [|lia].
  destruct (lookup_lt_is_Some_2 data (Z.to_nat j)) as [b Hb]; [lia|]. destruct (Hd b Hb) as [Hby Hr].
  unfold slot_byte. rewrite Hby, mget_store_bytes, decide_True by lia.
  replace (mem + j - mem) with j by lia. rewrite Hb. simpl. by rewrite w8_id.
Qed.

(** The page has no slot, or a read of the swap file came short. *)
Definition no_slot (s : pstate) (v : Z) : Prop := pi_swap_slot (page_at (pgi s) v) < 0 \/ exists ip, short_read ip.

Lemma swapin_page_wp s s0 N l F va :
  pg_inv s N l F -> quiet s s0 -> 0 <= va < TRAPFRAME -> aligned va -> tracked (vpn va) ->
  pi_state (page_at (pgi s) (vpn va)) = SWAPPED -> 
  wp (swapin_page va) (fault_post s F (vpn va) swap_perm (fun _ j => page_byte s F (vpn va) j) (no_slot s (vpn va))) s0.
Proof.
  intros I Q Hva Hal Ht Hs. set (i := vpn va) in *. pose proof I as [IA R IF IL IX IS].
  assert (F !! i = None) as HF by (by apply (ro_swp _ _ R)).
  pose proof (kept_quiet _ _ _ _ _ I Q) as (I0 & C0 & _ & P0 & B0).
  unfold swapin_page. rewrite PGROUNDDOWN_page_of, page_of_aligned, get_page_info_vpn by (done || lia).
  fold i. rewrite decide_True by done. ps_steps. rewrite P0, Hs. simpl.
  destruct (Z.ltb_spec (pi_swap_slot (page_at (pgi s) i)) 0) as [Hneg|Hsl]; ps_steps.
  { exists N, l, F. split_and!; [done|apply C0| |right; split_and!; [done|done|right; by left]]. intros k j Hk _ Hj. by apply B0. }
  set (content := fun (_ : pstate) j => page_byte s F i j). set (slot := pi_swap_slot (page_at (pgi s) i)) in *.
  eapply wp_mono; [eapply (fault_alloc_wp s s0 N l F i skip swap_perm content (no_slot s i)); try done; apply Ht|].
  intros mem s1 [(-> & Hp)|(Hm & l1 & F1 & RD & E1)]; ps_steps; simpl; ps_steps; [exact Hp|].
  destruct (Z.eqb_spec mem 0); [done|]. ps_steps.
  destruct E1 as (I1 & C1 & P1 & B1). destruct (P1 i (proj1 Ht)) as [Ep EF]; [by rewrite Hs|].
  assert (pi_state (page_at (pgi s1) i) = SWAPPED) as Hs1 by (by rewrite Ep).
  assert (pi_swap_slot (page_at (pgi s1) i) = slot) as Esl by (by rewrite Ep).
  destruct (ro_slot _ _ (gi_rec _ _ _ _ I1) i Ht Hs1) as (Hmax & Hu & Hfile); [lia|]. rewrite Esl in Hmax, Hu.
  eapply wp_mono; [apply law_begin; [apply I1|lia]|]. intros u1 f1 [H1 S1]. ps_steps.
  eapply wp_mono; [apply law_file_ip|]. intros ip f1' [Eip ->]. ps_steps.
  change (swapfile (pgi _)) with (swapfile (pgi s1)) in Eip. pose proof S1 as (_ & S1f & S1r). rewrite S1f in Eip.
  eapply wp_mono; [apply (law_ilock f1 0); [done|]|]. { rewrite S1r, Eip. by apply I1. }
  intros u2 f2 [H2 S2]. ps_steps. rewrite slot_offset by lia. unfold readi_kernel. ps_steps.
  eapply wp_mono; [apply wp_run, law_readi; [exact H2|pg|pg]|].
  intros data f3 ((H3 & S3 & Hlen & Hdata) & Erun). ps_steps. set (k3 := set_phys _ _).
  assert (frame (eq mem) (phys (ps_km s1)) (phys k3)) as HFr.
  { apply frame_store_bytes; [apply page_ok_aligned, (rd_spare _ _ _ _ _ _ _ _ RD)|done]. }
  destruct (Z.eqb_spec (Z.of_nat (length data)) PGSIZE) as [El|El]; simpl; ps_steps;
    (eapply wp_mono; [apply law_iunlock, H3|]; intros u4 f4 [H4 S4]; ps_steps;
     eapply wp_mono; [apply law_end, H4|]; intros u5 f5 [H5 S5]; ps_steps;
     assert (fs_same (ps_fs s1) f5) as SS by (do 4 (eapply fs_same_trans; [|eassumption]); done);
     pose proof (ready_touch _ _ _ _ _ _ _ _ k3 f5 (ps_out s1) (p_killed (ps_proc s1)) RD eq_refl HFr SS H5) as RD3).
  - rewrite (with_km_id (PState (ps_km s1) (ps_proc s1) f5 (ps_out s1))).
    eapply swapin_finish_wp; [exact Esl|exact RD3|done..|].
    intros s' j Hj. unfold content. rewrite <- B1 by (done || apply Ht || (left; by rewrite Hs)).
    apply swap_byte_read; try done; [by rewrite EF|lia|]. rewrite <- Eip, Esl. intros b Hb. 
    destruct (Hdata j b Hb) as [Hby Hr]; [lia|]. split; [|done].
    destruct S1 as [S1 _], S2 as [S2 _]. by rewrite <- Hby, S2, S1.
  - eapply wp_mono; [apply (ready_fail _ _ _ _ _ _ _ _ swap_perm content (no_slot s i) RD3)|].
    { right; right. exists ip. do 5 eexists. split; [exact Erun|lia]. }
    intros u k' Hp. ps_steps. rewrite (with_km_id (PState (ps_km s1) (ps_proc s1) f5 (ps_out s1))). apply Hp.
Qed.

(** ** init_paging_info *)

Lemma nth_init i n : nth i (map init_page (take 512 (replicate n pi_zero)) ++ drop 512 (replicate n pi_zero)) pi_zero
   = init_page pi_zero \/
  nth i (map init_page (take 512 (replicate n pi_zero)) ++ drop 512 (replicate n pi_zero)) pi_zero = pi_zero.
Proof.
  rewrite nth_lookup, lookup_app.
  destruct (map init_page (take 512 (replicate n pi_zero)) !! i) as [x|] eqn:E.
  - apply list_lookup_fmap_Some in E as (y & -> & E). apply lookup_take_Some in E as [E _].
    apply lookup_replicate in E as [-> _]. by left.
  - destruct (drop 512 (replicate n pi_zero) !! _) as [x|] eqn:E2; simpl; [|by right].
    rewrite lookup_drop in E2. apply lookup_replicate in E2 as [-> _]. by right.
Qed.

Lemma init_unmapped g i : pi_state (page_at (init_paging_info g) i) = UNMAPPED.
Proof.
  unfold page_at, init_paging_info.
  cbn [pages set_pages set_swap set_swapfile set_next_seq paging_zero].
  by destruct (nth_init (Z.to_nat i) (Z.to_nat MAX_TRACKED_PAGES)) as [-> | ->].
Qed.

Lemma init_records g F : records_ok (init_paging_info g) F.
Proof.
  constructor; try (intros i; intros; rewrite init_unmapped in *; done).
  - unfold init_paging_info. cbn [pages set_pages set_swap set_swapfile set_next_seq paging_zero].
    rewrite length_app, length_map, length_take, length_drop, length_replicate. lia.
  - split; [split; [done|by apply Forall_replicate]|by vm_compute].
Qed.

Lemma records_segs g F ts te ds de hs st to d_o tf df ip :
  records_ok g F -> records_ok (set_segs ts te ds de hs st to d_o tf df ip g) F.
Proof. by intros []. Qed.

(** ** handle_page_fault

    The kinds of fault, in the order in which the handler tells them apart. *)
Inductive fault_kind := KRange | KTextWrite | KSwap | KText | KData | KHeap | KInvalid.

Definition classify (p : pproc) (va cause : Z) : fault_kind :=
  if decide (MAXVA <= va) then KRange
  else if in_text (p_paging p) va && (cause =? 15) then KTextWrite
  else if decide (tracked (vpn va) /\ pi_state (page_at (p_paging p) (vpn va)) = SWAPPED) then KSwap
  else if in_text (p_paging p) va then KText
  else if in_data (p_paging p) va then KData
  else if in_heap p va then KHeap
  else KInvalid.

(** What exec sets up: the segments lie below the trapframe. *)
Record segs_ok (p : pproc) : Prop := {
  so_text : 0 <= text_start (p_paging p) /\ text_end (p_paging p) <= TRAPFRAME;
  so_data : 0 <= data_start (p_paging p) /\ data_end (p_paging p) <= TRAPFRAME;
  so_heap : 0 <= heap_start (p_paging p) /\ p_sz p <= TRAPFRAME;
  so_toff : 0 <= text_offset (p_paging p) < 2 ^ 63 /\ 0 <= text_filesz (p_paging p) < 2 ^ 63;
  so_doff : 0 <= data_offset (p_paging p) < 2 ^ 63 /\ 0 <= data_filesz (p_paging p) < 2 ^ 63;
  so_exec : exec_ip (p_paging p) <> 0
}.

Definition text_perm : Z := Z.lor (Z.lor PTE_U PTE_R) PTE_X.

Definition handle_post (s : pstate) (F : gmap Z Z) (va cause : Z) (r : Z) (s' : pstate) : Prop :=
  let g := pgi s in
  match classify (ps_proc s) va cause with
  | KRange => r = -1 /\ quiet s s'
  | KTextWrite => r = 0 /\ quiet s s' /\ p_killed (ps_proc s') = 1
  | KInvalid => r = -1 /\ quiet s s' /\ p_killed (ps_proc s') = 1
  | KSwap => fault_post s F (vpn va) swap_perm (fun _ j => page_byte s F (vpn va) j) (no_slot s (vpn va)) r s'
  | KText => fault_post s F (vpn va) text_perm
               (exec_byte (text_start g) (text_offset g) (text_filesz g) va) (short_read (exec_ip g)) r s'
  | KData => fault_post s F (vpn va) swap_perm
               (exec_byte (data_start g) (data_offset g) (data_filesz g) va) (short_read (exec_ip g)) r s'
  | KHeap => fault_post s F (vpn va) swap_perm (fun _ _ => Some 0) False r s'
  end.

Lemma rounddown_page va : 0 <= va ->
  aligned (PGROUNDDOWN va) /\ 0 <= PGROUNDDOWN va /\ vpn (PGROUNDDOWN va) = vpn va.
Proof.
  intros Hva. rewrite PGROUNDDOWN_page_of. unfold page_of, aligned, vpn.
  assert (0 < PGSIZE) by pg. split_and!; [apply Z_mod_mult| |by rewrite Z.div_mul by lia].
  apply Z.mul_nonneg_nonneg; [apply Z.div_pos; lia|lia].
Qed.

Lemma swapped_test g a : 0 <= a -> aligned a ->
  match get_page_info a with Some i => pi_state (page_at g i) =? SWAPPED | None => false end =
  if decide (tracked (vpn a) /\ pi_state (page_at g (vpn a)) = SWAPPED) then true else false.
Proof.
  intros Ha Hal. rewrite get_page_info_vpn by done. destruct (decide (tracked (vpn a))) as [Ht|Ht].
  - destruct (Z.eqb_spec (pi_state (page_at g (vpn a))) SWAPPED); case_decide; tauto.
  - by rewrite decide_False by tauto.
Qed.

Lemma handle_page_fault_wp s N l F va cause :
  pg_inv s N l F -> segs_ok (ps_proc s) -> 0 <= va -> F !! vpn va = None ->
  wp (handle_page_fault va cause) (handle_post s F (PGROUNDDOWN va) cause) s.
Proof.
  intros I [S1 S2 S3 S4 S5 S6] Hva HF.
  destruct (rounddown_page va Hva) as (Hal & Ha & Ev).
  unfold handle_page_fault, handle_post, classify. set (a := PGROUNDDOWN va) in *. rewrite <- Ev in HF.
  destruct (Z.leb_spec MAXVA a) as [Hm|Hm]; [rewrite decide_True by done|rewrite decide_False by lia].
  { ps_steps. done. }
  ps_steps. unfold id. change (p_paging (ps_proc s)) with (pgi s).
  destruct (in_text (pgi s) a && (cause =? 15)); [ps_steps; done|].
  rewrite (swapped_test (pgi s) a) by done. case_decide as Hs.
  { destruct Hs as [Ht Hs]. ps_steps. apply (swapin_page_wp s _ N l F a); try done.
    split; [done|]. apply vpn_lt_uvpn; [done|]. by apply tracked_uvpn. }
  destruct (in_text (pgi s) a) eqn:Et; [|destruct (in_data (pgi s) a) eqn:Ed; [|destruct (in_heap (ps_proc s) a) eqn:Eh]].
  - unfold in_text, pgi in Et. apply (fault_exec_wp s N l F a); unfold pgi; try done; try lia; by vm_compute.
  - unfold in_data, pgi in Ed. apply (fault_exec_wp s N l F a); unfold pgi; try done; try lia; by vm_compute.
  - unfold in_heap in Eh. apply (fault_heap_wp s N l F a); try done; lia.
  - ps_steps. done.
Qed.

Lemma vpn_rounddown va : vpn (PGROUNDDOWN va) = vpn va.
Proof.
  rewrite PGROUNDDOWN_page_of. unfold page_of, vpn. apply Z.div_mul. pg.
Qed.

(** What the kinds of fault have in common. *)
Definition fault_keeps (s : pstate) (F : gmap Z Z) (v r : Z) (s' : pstate) : Prop :=
  (r = 0 \/ r = -1) /\
  exists N' l' F', pg_inv s' N' l' F' /\
    p_sz (ps_proc s') = p_sz (ps_proc s) /\ segs (pgi s') = segs (pgi s) /\
    forall k j, 0 <= k -> k <> v -> 0 <= j < PGSIZE ->
      pi_state (page_at (pgi s) k) <> RESIDENT \/ discardable (page_at (pgi s) k) = false ->
      page_byte s' F' k j = page_byte s F k j.

Lemma fault_post_keeps s F v perm content why r s' :
  fault_post s F v perm content why r s' -> fault_keeps s F v r s'.
Proof.
  intros (N' & l' & F' & I & (_ & C1 & _ & C2) & B & R). split; [by destruct R as [[-> _]|[-> _]]; [left|right]|].
  exists N', l', F'. split_and!; [done|done|done|]. intros k j Hk Hne Hj Hd. by apply B.
Qed.

Lemma quiet_keeps s N l F v r s' :
  pg_inv s N l F -> quiet s s' -> r = 0 \/ r = -1 -> fault_keeps s F v r s'.
Proof.
  intros I Q Hr. pose proof (kept_quiet _ _ _ _ _ I Q) as (I' & _ & _ & _ & B). split; [done|].
  pose proof Q as (_ & _ & Eg & _ & Esz & _).
  exists N, l, F. split_and!; [done|done|by rewrite Eg|]. intros k j Hk _ Hj _. by apply B.
Qed.

Lemma handle_post_safe s N l F va cause r s' :
  pg_inv s N l F -> handle_post s F va cause r s' -> fault_keeps s F (vpn va) r s'.
Proof.
  intros I. unfold handle_post.
  destruct (classify (ps_proc s) va cause); intros Hp; try (by eapply fault_post_keeps);
    eapply quiet_keeps; try done; try apply Hp; destruct Hp as [-> _]; auto.
Qed.

(** The faulting page after a fault, as the page table and memory show it. *)
Lemma fault_post_page s F v perm content why r s' :
  fault_post s F v perm content why r s' ->
  exists N' l' F', pg_inv s' N' l' F' /\
    ((r = 0 /\ (exists pa, F' !! v = Some pa /\ leaf_pte (phys (ps_km s')) N' v = mapped_pte pa perm /\
        forall j, 0 <= j < PGSIZE -> Some (mget (phys (ps_km s')) (pa + j)) = content s' j) /\
      (tracked v -> pi_state (page_at (pgi s') v) = RESIDENT /\
         pi_fifo_seq (page_at (pgi s') v) = next_fifo_seq (pgi s))) \/
     (r = -1 /\ F' !! v = None /\ ((length l' <= 1)%nat \/ why))).
Proof.
  intros (N' & l' & F' & I' & _ & _ & [(-> & (pa & Hpa & HL) & Hz & Hr)|(-> & HN & HW)]); exists N', l', F';
    (split; [done|]); [left|by right].
  split; [done|]. split; [|done]. exists pa. split; [done|]. split; [done|].
  intros j Hj. rewrite <- Hz by done. unfold page_byte. by rewrite Hpa.
Qed.

Lemma classify_swap p va cause :
  classify p va cause = KSwap -> tracked (vpn va) /\ pi_state (page_at (p_paging p) (vpn va)) = SWAPPED.
Proof.
  unfold classify. repeat (case_decide || case_match); done.
Qed.

Lemma page_byte_slot s F i j :
  F !! i = None -> is_Some (page_byte s F i j) -> page_byte s F i j = slot_byte s i j.
Proof. intros HF. unfold page_byte. rewrite HF. by destruct (_ && _); [|intros []]. Qed.

(** The heap case on a page that is mapped already. *)
Lemma handle_heap_run s va cause :
  segs_ok (ps_proc s) -> 0 <= va -> classify (ps_proc s) (PGROUNDDOWN va) cause = KHeap ->
  handle_page_fault va cause s = fault_heap (PGROUNDDOWN va) (access_of cause) (get_page_info (PGROUNDDOWN va)) s /\
  PGROUNDDOWN va < TRAPFRAME.
Proof.
  intros SO Hva. destruct (rounddown_page va Hva) as (Hal & Ha & _). unfold classify, handle_page_fault.
  set (a := PGROUNDDOWN va) in *.
  destruct (Z.leb_spec MAXVA a); [by rewrite decide_True by done|rewrite decide_False by lia].
  rewrite (bind_ok (my id) _ s (ps_proc s) s) by done. change (p_paging (ps_proc s)) with (pgi s).
  destruct (in_text (pgi s) a && (cause =? 15)); [done|].
  rewrite (swapped_test (pgi s) a) by done. case_decide; [done|].
  destruct (in_text (pgi s) a); [done|]. destruct (in_data (pgi s) a); [done|].
  destruct (in_heap (ps_proc s) a) eqn:Eh; [|done]. intros _. split; [done|].
  unfold in_heap in Eh. destruct SO as [_ _ [_ ?] _ _ _]. lia.
Qed.

Lemma fault_heap_mapped s N p l F a acc pi :
  pg_inv s N (p :: l) F -> 0 <= a < TRAPFRAME -> aligned a -> is_Some (F !! vpn a) ->
  fault_heap a acc pi s = Panic "mappages: remap".
Proof.
  intros I Ha Hal HF. unfold fault_heap. rewrite (bind_ok (emit _) _ s _ _ eq_refl).
  set (s0 := PState _ _ _ _). pose proof (gi_as _ _ _ _ I) as A.
  pose proof (pw_km _ _ _ _ (as_world _ _ _ _ _ A)) as Hkm.
  destruct (wp_inv _ _ _ (kalloc_wp (ps_km s) p l Hkm)) as (r & k1 & Ek & -> & Hk1 & HF1 & _).
  pose proof (kmem_inv_ok _ _ p Hkm ltac:(by left)) as Hok. pose proof (page_ok_pos _ Hok) as Hp.
  assert (kalloc_evict (emit EKillOom) s0 = Ret p (PState k1 (ps_proc s0) (ps_fs s0) (ps_out s0))) as E0.
  { unfold kalloc_evict. rewrite (bind_ok (on_km kalloc) _ s0 p (PState k1 (ps_proc s0) (ps_fs s0) (ps_out s0)))
      by (unfold on_km, zoom; simpl; by rewrite Ek). by destruct (Z.eqb_spec p 0); [lia|]. }
  rewrite (bind_ok _ _ _ _ _ E0). destruct (Z.eqb_spec p 0); [lia|].
  set (k2 := set_phys (fun m => memset m p 0 PGSIZE) k1).
  rewrite (bind_ok (on_km (do_memset p 0 PGSIZE)) _ _ () (PState k2 (ps_proc s0) (ps_fs s0) (ps_out s0))) by done.
  rewrite (bind_ok (my p_pagetable) _ _ (proot s) (PState k2 (ps_proc s0) (ps_fs s0) (ps_out s0))) by done.
  destruct (alloc_page_as (ps_km s) k1 k2 (proot s) N (p :: l) p l F A eq_refl Hk1 HF1 eq_refl) as (A2 & _).
  { apply frame_memset, page_ok_aligned, Hok. }
  apply bind_panic. unfold on_km, zoom. cbn [ps_km].
  by rewrite (mappages_mapped_panic k2 (proot s) N l F a p _ A2 Ha Hal HF).
Qed.
(** The layout of the segments does not depend on what happens to pages. *)
Lemma segs_ok_same s s' : same_proc s s' -> segs_ok (ps_proc s) -> segs_ok (ps_proc s').
Proof.
  intros (_ & Esz & _ & Es) [S1 S2 S3 S4 S5 S6]. unfold segs, pgi in Es. injection Es as ? ? ? ? ? ? ? ? ? ?.
  constructor; congruence.
Qed.
End fault.

#[export] Instance fault_kind_eq_dec : EqDecision fault_kind.
Proof. solve_decision. Defined.
