(* ===== verification/Demo.v ===== *)
(** * A concrete machine

    A kernel layout with a handful of free pages, the memory that kinit
    builds on it, an address space made by uvmcreate, and a file system kept
    in memory that satisfies [FsLaws].  The witnesses of the theorems run the
    modelled code here. *)
From S2P Require Import Prelude Mem Riscv Kalloc Vm PageTable VmSpec AddrSpace UvmSpec Paging SwapSpec PagingInv SwapOut PagingSpec.
From stdpp Require Import base tactics numbers list strings gmap.
From Stdlib Require Import ZArith Lia.

Open Scope Z_scope.

(** ** Ten free pages at the top of physical memory *)

Definition demo_layout : KernelLayout.
Proof.
  refine {| kend := PHYSTOP - 10 * PGSIZE; etext := KERNBASE + 8 * PGSIZE; trampoline := KERNBASE + 7 * PGSIZE |};
    abstract (vm_compute; first [reflexivity | split; intros H; discriminate H | split; [reflexivity | intros H; discriminate H]
                                | split; [intros H; discriminate H | reflexivity]]).
Defined.
#[export] Existing Instance demo_layout.

(** The state a computation ends in. *)
Definition end_state {S A} (d : S) (r : res S A) : S := match r with Ret _ s => s | _ => d end.
Definition end_value {S A} (d : A) (r : res S A) : A := match r with Ret a _ => a | _ => d end.

Lemma end_wp {S A} (c : M S A) Q s d a0 : wp c Q s -> Q (end_value a0 (c s)) (end_state d (c s)).
Proof. unfold wp. by destruct (c s). Qed.

Definition km_zero : kmem := KMem ∅ 0.
Definition km0 : kmem := end_state km_zero (kinit km_zero).

Lemma km0_inv : kmem_inv km0 all_pages.
Proof. apply (end_wp _ (fun _ s => kmem_inv s all_pages) km_zero km_zero ()). by apply kinit_wp. Qed.

(** The free list after kinit: the highest page first. *)
Definition demo_page (k : Z) : Z := PHYSTOP - (k + 1) * PGSIZE.

Lemma all_pages_demo : all_pages = map demo_page (map Z.of_nat (seq 0 10)).
Proof. by vm_compute. Qed.

(** An empty address space: uvmcreate takes the first page. *)
Definition km1 : kmem := end_state km_zero (uvmcreate km0).
Definition pt1 : Z := demo_page 0.
Definition free1 : list Z := map demo_page (map Z.of_nat (seq 1 9)).
Definition N1 : nodemap := {[(2, 0) := pt1]}.

Lemma km1_empty : as_inv km1 pt1 N1 free1 ∅ /\ end_value 0 (uvmcreate km0) = pt1.
Proof.
  pose proof (end_wp _ _ km0 km_zero 0 (uvmcreate_wp km0 _ km0_inv)) as H.
  fold km1 in H. set (r := end_value 0 (uvmcreate km0)) in *.
  destruct H as [(_ & H & _)|(l' & H & E & _)]; rewrite all_pages_demo in H; [done|].
  assert (r = pt1) as Er by (by injection H).
  assert (l' = free1) as -> by (by injection H). unfold empty_as in E. by rewrite Er in E.
Qed.

(** ** A file system kept in memory *)

Record dfs := Dfs {
  d_data : gmap (Z * Z) Z;     (* inode and offset to byte *)
  d_ref : gmap Z nat;          (* references to an inode *)
  d_fip : gmap Z Z;            (* file to inode *)
  d_depth : nat;               (* begin_op()s *)
  d_lock : option Z;           (* the locked inode *)
  d_next : Z                   (* next inode and file number *)
}.

Definition d_byte (s : dfs) (ip o : Z) : option Z := w8 <$> d_data s !! (ip, o).
Definition d_refs (s : dfs) (ip : Z) : nat := default O (d_ref s !! ip).

Fixpoint d_read (s : dfs) (ip off : Z) (n : nat) : list Z :=
  match n with
  | O => []
  | S n => match d_byte s ip off with Some b => b :: d_read s ip (off + 1) n | None => [] end
  end.
Fixpoint d_write (m : gmap (Z * Z) Z) (ip off : Z) (data : list Z) : gmap (Z * Z) Z :=
  match data with [] => m | b :: data => d_write (<[(ip, off) := b]> m) ip (off + 1) data end.

Definition d_upd (f : dfs -> dfs) : M dfs unit := modify f.
Definition set_depth n s := Dfs (d_data s) (d_ref s) (d_fip s) n (d_lock s) (d_next s).
Definition set_lock l s := Dfs (d_data s) (d_ref s) (d_fip s) (d_depth s) l (d_next s).
Definition set_refs ip n s := Dfs (d_data s) (<[ip := n]> (d_ref s)) (d_fip s) (d_depth s) (d_lock s) (d_next s).
Definition set_next n s := Dfs (d_data s) (d_ref s) (d_fip s) (d_depth s) (d_lock s) n.
Definition set_fip f ip s := Dfs (d_data s) (d_ref s) (<[f := ip]> (d_fip s)) (d_depth s) (d_lock s) (d_next s).
Definition set_data m s := Dfs m (d_ref s) (d_fip s) (d_depth s) (d_lock s) (d_next s).

Definition d_number (s : dfs) : Z := 1 + Z.abs (d_next s).

#[export] Instance demo_fs : FsOps := {|
  fs := dfs;
  fs_begin_op := d_upd (fun s => set_depth (S (d_depth s)) s);
  fs_end_op := d_upd (fun s => set_depth (pred (d_depth s)) s);
  fs_ilock ip := d_upd (set_lock (Some ip));
  fs_iunlock ip := d_upd (set_lock None);
  fs_iunlockput ip := d_upd (fun s => set_lock None (set_refs ip (pred (d_refs s ip)) s));
  fs_clear_nlink ip := skip;
  fs_iupdate ip := skip;
  fs_readi ip off n := gets (fun s => d_read s ip off (Z.to_nat n));
  fs_writei ip off data := d_upd (fun s => set_data (d_write (d_data s) ip off data) s);; mret (Z.of_nat (length data));
  fs_create name :=
    ip ← gets d_number;
    d_upd (fun s => set_lock (Some ip) (set_refs ip (S (d_refs s ip)) (set_next ip s)));;
    mret ip;
  fs_filealloc := f ← gets d_number; d_upd (set_next f);; mret f;
  fs_file_open_inode f ip := d_upd (set_fip f ip);
  fs_file_ip f := gets (fun s => default 0 (d_fip s !! f))
|}.

Lemma d_read_spec s ip n : forall off,
  (length (d_read s ip off n) <= n)%nat /\
  forall j b, d_read s ip off n !! j = Some b -> d_byte s ip (off + Z.of_nat j) = Some b /\ 0 <= b < 256.
Proof.
  induction n as [|n IH]; intros off; simpl; [split; [done|intros j b H; by rewrite lookup_nil in H]|].
  destruct (d_byte s ip off) as [c|] eqn:E; simpl; [|split; [lia|done]].
  destruct (IH (off + 1)) as [Hl Hr]. split; [lia|]. intros [|j] b; simpl.
  - intros [= <-]. rewrite Z.add_0_r, E. split; [done|]. unfold d_byte in E.
    destruct (d_data s !! (ip, off)); [|done]. simpl in E. injection E as <-. apply w8_range.
  - intros [H1 H2]%Hr. split; [|done]. rewrite <- H1. f_equal. lia.
Qed.

Lemma d_write_spec ip data : forall m off i o,
  d_write m ip off data !! (i, o) =
  if decide (i = ip /\ off <= o < off + Z.of_nat (length data)) then data !! Z.to_nat (o - off) else m !! (i, o).
Proof.
  induction data as [|b data IH]; intros m off i o; cbn [d_write length].
  { rewrite decide_False by lia. done. }
  rewrite IH. destruct (decide (i = ip /\ o = off)) as [[-> ->]|Hne].
  - rewrite decide_False, lookup_insert_eq, decide_True by lia. by rewrite Z.sub_diag.
  - rewrite lookup_insert_ne by naive_solver. repeat case_decide; try lia; try done.
    by replace (Z.to_nat (o - off)) with (S (Z.to_nat (o - (off + 1)))) by lia.
Qed.

Lemma d_refs_set ip n s i : d_refs (set_refs ip n s) i = if decide (i = ip) then n else d_refs s i.
Proof. unfold d_refs, set_refs. simpl. rewrite lookup_insert. repeat case_decide; try done; congruence. Qed.

#[export] Instance demo_laws : FsLaws demo_fs.
Proof.
  refine {|
    fs_byte := d_byte : @fs demo_fs -> _;
    fs_fip := (fun s f => default 0 (d_fip s !! f)) : @fs demo_fs -> _;
    fs_ref := (fun s ip => Z.of_nat (d_refs s ip)) : @fs demo_fs -> _;
    fs_op := (fun s k => d_depth s = k /\ d_lock s = None) : @fs demo_fs -> _;
    fs_locked := (fun s k ip => d_depth s = k /\ d_lock s = Some ip /\ (0 < d_refs s ip)%nat) : @fs demo_fs -> _
  |}; simpl; unfold wp; simpl.
  - intros s k [<- Hl] _. done.
  - intros s k [E Hl]. split; [|done]. by rewrite E.
  - intros s k ip [<- Hl] Hr. split; [|done]. split_and!; [done|done|]. unfold d_refs in *. simpl. lia.
  - intros s k ip (<- & Hl & Hr). done.
  - intros s k ip (<- & Hl & Hr). split; [done|]. intros i.
    change (d_refs (set_lock None ?s) i) with (d_refs s i). rewrite d_refs_set. case_decide; subst; lia.
  - intros s k ip H. done.
  - intros s k ip H. done.
  - intros s k ip off n H Ho Hn. destruct (d_read_spec s ip (Z.to_nat n) off) as [Hl Hr].
    unfold fs_same. split_and!; [apply H..|done|done|done|lia|]. intros j b Hj Hj0. apply Hr in Hj. by rewrite Z2Nat.id in Hj by lia.
  - intros s k ip off data H Ho. split_and!; [apply H..|done|done| |].
    + intros i o Hio Hsome. unfold d_byte. simpl. rewrite d_write_spec, decide_False by lia. done.
    + intros _ j b Hj Hj0. unfold d_byte. simpl.
      pose proof (lookup_lt_Some _ _ _ Hj). rewrite d_write_spec, decide_True by lia.
      replace (off + j - off) with j by lia. by rewrite Hj.
  - intros s k name [<- Hl]. right. unfold d_number. split; [lia|]. split_and!.
    + done.
    + done.
    + change (d_refs (set_lock ?l ?s) ?i) with (d_refs s i). rewrite d_refs_set, decide_True by done. lia.
    + change (d_refs (set_lock ?l ?s) ?i) with (d_refs s i). rewrite d_refs_set, decide_True by done. lia.
    + intros i. change (d_refs (set_lock ?l ?s) ?i) with (d_refs s i). rewrite d_refs_set.
      case_decide; subst; unfold d_refs; simpl; lia.
  - intros s k [<- Hl]. done.
  - intros s k f ip [<- Hl]. split_and!; [done|done| |done]. by rewrite lookup_insert_eq.
  - intros s f. done.
Defined.

(** ** A process: one text page, one data page, four heap pages *)

Definition demo_ip : Z := 7.
Definition demo_file : dfs :=
  Dfs (d_write (d_write ∅ demo_ip 4096 [19; 0; 0; 0]) demo_ip 8192 [42; 43]) {[demo_ip := 1%nat]} ∅ 0 None 100.

Definition demo_paging : paging_info :=
  set_segs 0 4096 4096 8192 8192 (6 * PGSIZE) 4096 8192 4 2 demo_ip (init_paging_info paging_zero).
Definition demo_proc : pproc := PProc 3 (6 * PGSIZE) pt1 0 demo_paging.
Definition ps1 : pstate := PState km1 demo_proc demo_file [].

Lemma ps1_inv : pg_inv ps1 N1 free1 ∅.
Proof.
  constructor.
  - apply km1_empty.
  - apply records_segs, init_records.
  - done.
  - done.
  - intros _. done.
  - intros i j _ H. exfalso. revert H. unfold ps1, pgi. cbn [ps_proc demo_proc p_paging].
    change (page_at demo_paging i) with (page_at (init_paging_info paging_zero) i). by rewrite init_unmapped.
Qed.

Lemma ps1_segs : segs_ok (ps_proc ps1).
Proof. constructor; vm_compute; repeat split; try done; intros H; discriminate H. Qed.
