(* ===== verification/MemoryTheorems.v ===== *)
(** * Theorems about the memory components

    The page allocator (kalloc.c), page tables and user address spaces
    (vm.c), with witnesses on the concrete machine of [Demo]. *)
From S2P Require Import Prelude Mem Riscv Kalloc Vm PageTable VmSpec AddrSpace UvmSpec Demo.
From stdpp Require Import base tactics numbers list strings gmap relations.
From Stdlib Require Import ZArith Lia.

Open Scope Z_scope.

(** ** Clients of the allocator

    A state is the allocator and the pages its clients hold. *)
Section clients.
Context {KL : KernelLayout}.

Inductive kstep : kmem * list Z -> kmem * list Z -> Prop :=
  | step_alloc s s' h pa : kalloc s = Ret pa s' -> pa <> 0 -> kstep (s, h) (s', pa :: h)
  | step_alloc_fail s s' h : kalloc s = Ret 0 s' -> kstep (s, h) (s', h)
  | step_free s s' h1 pa h2 : kfree pa s = Ret () s' -> kstep (s, h1 ++ pa :: h2) (s', h1 ++ h2).

Definition clients_inv (x : kmem * list Z) : Prop :=
  exists l, kmem_inv x.1 l /\ l ++ x.2 ≡ₚ all_pages.

Lemma NoDup_all_pages : NoDup all_pages.
Proof.
  destruct (wp_inv _ _ _ (kinit_wp (KMem ∅ 0) eq_refl)) as (u & s & _ & Hinv). apply Hinv.
Qed.

Lemma kstep_inv x y : kstep x y -> clients_inv x -> clients_inv y.
Proof.
  intros [s s' h pa E Hpa|s s' h E|s s' h1 pa h2 E] (l & Hl & Hp); simpl in *.
  - pose proof (kalloc_cases s l Hl) as W. unfold wp in W. rewrite E in W.
    destruct W as [(? & _)|(l' & -> & Hok & Hl' & _)]; [done|]. exists l'. simpl. split; [done|].
    rewrite <- Hp. by rewrite <- Permutation_middle.
  - pose proof (kalloc_cases s l Hl) as W. unfold wp in W. rewrite E in W.
    destruct W as [(_ & -> & ->)|(l' & _ & Hok & _)]; [by exists []|]. by apply page_ok_pos in Hok.
  - assert (page_ok pa) as Hok.
    { apply elem_of_all_pages. rewrite <- Hp. set_solver. }
    assert (pa ∉ l) as Hnl.
    { pose proof NoDup_all_pages as Hnd. rewrite <- Hp in Hnd. apply NoDup_app in Hnd as (_ & Hd & _).
      intros Hin. apply (Hd _ Hin). set_solver. }
    pose proof (kfree_wp s l pa Hl Hok Hnl) as W. unfold wp in W. rewrite E in W. destruct W as [Hl' _].
    exists (pa :: l). simpl. split; [done|]. rewrite <- Hp. solve_Permutation.
Qed.

Lemma kstep_reach x y : rtc kstep x y -> clients_inv x -> clients_inv y.
Proof. induction 1; [done|]. intros Hx. eauto using kstep_inv. Qed.

(** In such a state no call goes wrong. *)
Definition can_go_on (s : kmem) (h : list Z) : Prop :=
  (exists pa s', kalloc s = Ret pa s' /\ kstep (s, h) (s', if decide (pa = 0) then h else pa :: h) /\
     (pa = 0 <-> h ≡ₚ all_pages)) /\
  (forall h1 pa h2, h = h1 ++ pa :: h2 -> exists s', kstep (s, h) (s', h1 ++ h2)).

Lemma clients_progress s h l : kmem_inv s l -> l ++ h ≡ₚ all_pages -> can_go_on s h.
Proof.
  intros Hl Hp. split.
  - destruct (wp_inv _ _ _ (kalloc_cases s l Hl)) as (pa & s' & Ek & Hc). exists pa, s'. split; [done|].
    destruct Hc as [(-> & -> & ->)|(l' & -> & Hok & _ & _)].
    + rewrite decide_True by done. split; [by apply step_alloc_fail|done].
    + pose proof (page_ok_pos _ Hok). rewrite decide_False by lia. split; [apply step_alloc; [done|lia]|].
      split; [lia|]. intros Hh. exfalso. apply Permutation_length in Hp, Hh. simpl in Hp.
      rewrite length_app in Hp. lia.
  - intros h1 pa h2 ->.
    assert (page_ok pa) as Hok by (apply elem_of_all_pages; rewrite <- Hp; set_solver).
    assert (pa ∉ l) as Hnl.
    { pose proof NoDup_all_pages as Hnd. rewrite <- Hp in Hnd. apply NoDup_app in Hnd as (_ & Hd & _).
      intros Hin. apply (Hd _ Hin). set_solver. }
    destruct (wp_inv _ _ _ (kfree_wp s l pa Hl Hok Hnl)) as ([] & s' & Ek & _).
    exists s'. by apply step_free.
Qed.

(** C1: however its clients interleave kalloc and kfree after kinit (freeing
    only pages they hold), the free pages and the held pages always are,
    without repetition, exactly the pages of physical memory: no page is
    ever handed out twice, none is lost.  No call goes wrong in such a state:
    kalloc returns (0 exactly when all pages are held) and kfree of a held
    page returns. *)
Theorem allocator_conserves_pages u s0 s1 s h :
  freelist s0 = 0 -> kinit s0 = Ret u s1 -> rtc kstep (s1, []) (s, h) ->
  (exists l, kmem_inv s l /\ l ++ h ≡ₚ all_pages /\ NoDup (l ++ h) /\
    forall pa, pa ∈ l ++ h <-> page_ok pa) /\ can_go_on s h.
Proof.
  intros H0 E H. pose proof (kinit_wp s0 H0) as W. unfold wp in W. rewrite E in W.
  destruct (kstep_reach _ _ H) as (l & Hl & Hp).
  { exists all_pages. split; [done|]. by rewrite app_nil_r. }
  simpl in *. split; [|by eapply clients_progress]. exists l. split_and!; [done|done| |].
  - rewrite Hp. apply NoDup_all_pages.
  - intros pa. rewrite Hp. apply elem_of_all_pages.
Qed.
End clients.

Lemma run_wp {S A} (c : M S A) Q s d a0 : wp c Q s -> c s = Ret (end_value a0 (c s)) (end_state d (c s)).
Proof. unfold wp. by destruct (c s). Qed.

Lemma kinit_km0 : kinit km_zero = Ret () km0.
Proof. rewrite (run_wp _ _ _ km_zero () (kinit_wp km_zero eq_refl)). by destruct (end_value _ _). Qed.

(** One kalloc after kinit. *)
Definition km0' : kmem := end_state km_zero (kalloc km0).
Lemma kalloc_km0 : kalloc km0 = Ret pt1 km0'.
Proof.
  pose proof km0_inv as I. rewrite all_pages_demo in I. pose proof (kalloc_wp km0 _ _ I) as W.
  destruct (end_wp _ _ _ km_zero 0 W) as [E _]. rewrite (run_wp _ _ _ km_zero 0 W). by rewrite E.
Qed.
Lemma demo_steps : rtc kstep (km0, []) (km0', [pt1]).
Proof. apply rtc_once, step_alloc; [apply kalloc_km0|by vm_compute]. Qed.

Lemma allocator_conserves_pages_witness :
  (exists l, kmem_inv km0' l /\ l ++ [pt1] ≡ₚ all_pages /\ NoDup (l ++ [pt1]) /\
    forall pa, pa ∈ l ++ [pt1] <-> page_ok pa) /\ can_go_on km0' [pt1].
Proof. exact (allocator_conserves_pages () km_zero km0 km0' [pt1] eq_refl kinit_km0 demo_steps). Defined.

(** ** Page tables *)
Section vm.
Context {KL : KernelLayout}.

(** What the hardware-style translation of [a] becomes once [n] pages from
    [va] map to [pa]. *)
Definition translate_mapped (va n pa perm a old : Z) : Z :=
  if decide (vpn va <= vpn a < vpn va + n)
  then (if has perm PTE_U then pa + (vpn a - vpn va) * PGSIZE else 0) else old.

Lemma translate_mapped_pte pa perm :
  aligned pa -> 0 <= pa < 2 ^ 56 -> 0 <= perm < 1024 ->
  translate (mapped_pte pa perm) = if has perm PTE_U then pa else 0.
Proof.
  intros Ha Hr Hp. destruct (mapped_pte_spec pa perm Ha Hr Hp) as (_ & HV & Hpa & Hfl).
  unfold translate. rewrite HV, Hpa. simpl.
  replace (has (mapped_pte pa perm) PTE_U) with (has perm PTE_U); [done|].
  rewrite (has_flags (mapped_pte pa perm)), Hfl by (by vm_compute). rewrite has_lor.
  replace (has PTE_V PTE_U) with false by (by vm_compute). by rewrite orb_false_r.
Qed.
(** C3: mappages maps the pages it is asked to map, in order, and nothing
    else: afterwards walkaddr translates an address in the range to its
    page (or to 0 when PTE_U is not given), every other address as before.
    It fails only when memory for page-table pages runs out. *)
Theorem mappages_translates s root N l va size pa perm :
  pt_world s root N l -> aligned va -> 0 <= va -> aligned size -> 0 < size ->
  va + size <= MAXVA -> aligned pa -> 0 <= pa -> pa + size <= 2 ^ 56 -> 0 <= perm < 1024 ->
  (forall v, vpn va <= v < vpn va + size / PGSIZE -> has (leaf_pte (phys s) N v) PTE_V = false) ->
  wp (mappages root va size pa perm) (fun r s' =>
    (r = 0 /\ forall a old, 0 <= a < MAXVA -> walkaddr root a s = Ret old s ->
       walkaddr root a s' = Ret (translate_mapped va (size / PGSIZE) pa perm a old) s') \/
    (r = -1 /\ kmem_inv s' [])) s.
Proof.
  intros W Ha Ha0 Hs Hs0 Hm Hpa Hpa0 Hpm Hperm Hfree.
  eapply wp_mono; [by apply (mappages_wp s root N l)|].
  intros r s' (k & N' & l' & (W' & _ & HL) & [(-> & ->)|(-> & _ & ->)]); [left|right]; split; try done;
    [|apply W'].
  intros a old Har. rewrite (walkaddr_run a s root N), (walkaddr_run a s' root N') by (apply W || apply W' || lia).
  destruct (Z.ltb_spec a MAXVA); [|lia]. intros [= <-]. f_equal. rewrite HL. unfold translate_mapped.
  case_decide as Hv; [|done]. apply translate_mapped_pte; [|unfold aligned in *|done].
  - apply Z.mod_divide in Hpa as [q ->]; [|pg]. unfold aligned. rewrite <- Z.mul_add_distr_r. apply Z_mod_mult.
  - assert ((vpn a - vpn va) * PGSIZE < size / PGSIZE * PGSIZE) by (unfold PGSIZE in *; lia).
    pose proof (Z_div_exact_full_2 size PGSIZE ltac:(pg) Hs). unfold PGSIZE in *. lia.
Qed.

(** Mapping a page that is already mapped is a kernel panic. *)
Theorem mappages_remap_panics s root N l F va pa perm :
  as_inv s root N l F -> 0 <= va < TRAPFRAME -> aligned va -> is_Some (F !! vpn va) ->
  mappages root va PGSIZE pa perm s = Panic "mappages: remap".
Proof.
  intros A Hva Hal Hq. by apply (mappages_mapped_panic s root N l F).
Qed.

(** C5: uvmalloc grows an address space by zeroed pages with the requested
    permissions and leaves every other page's mapping and content alone; if
    memory runs out it returns 0 with the mapping as it was. *)
Theorem uvmalloc_zeroed s root N l F oldsz newsz xperm :
  as_inv s root N l F -> 0 <= oldsz -> oldsz <= newsz -> 0 <= newsz <= TRAPFRAME -> perm_ok xperm ->
  (forall v, vpn_up oldsz <= v < vpn_up newsz -> F !! v = None) ->
  wp (uvmalloc root oldsz newsz xperm) (fun r s' =>
    (r = newsz /\ exists N' l' F', as_inv s' root N' l' F' /\
       (forall v, ~ (vpn_up oldsz <= v < vpn_up newsz) ->
          F' !! v = F !! v /\ leaf_pte (phys s') N' v = leaf_pte (phys s) N v) /\
       (forall v, vpn_up oldsz <= v < vpn_up newsz -> exists pa, F' !! v = Some pa /\
          zero_page (phys s') pa /\
          leaf_pte (phys s') N' v = mapped_pte pa (Z.lor (Z.lor PTE_R PTE_U) xperm)) /\
       (forall v pa, F !! v = Some pa -> same_page (phys s) (phys s') pa)) \/
    (r = 0 /\ exists N' l', as_inv s' root N' l' F)) s.
Proof.
  intros A H0 Hle Hn Hp HF. exact (uvmalloc_wp s root N l F oldsz newsz xperm A H0 Hn Hp HF Hle).
Qed.

(** Growing an address space and shrinking it back restores its mapping;
    if the growth fails, the mapping never changed. *)
Theorem uvmalloc_dealloc_roundtrip s root N l F oldsz newsz xperm :
  as_inv s root N l F -> 0 <= oldsz -> oldsz <= newsz -> 0 < newsz <= TRAPFRAME -> perm_ok xperm ->
  (forall v, vpn_up oldsz <= v -> F !! v = None) ->
  wp (r ← uvmalloc root oldsz newsz xperm; if r =? 0 then mret oldsz else uvmdealloc root newsz oldsz)
    (fun r s' => r = oldsz /\ exists N' l', as_inv s' root N' l' F) s.
Proof.
  intros A H0 Hle Hn Hp HF. eapply wp_call; [eapply uvmalloc_wp; [exact A|lia|lia|done|intros; apply HF; lia|lia]|].
  intros r s1 [(-> & N' & l' & F' & A' & E1 & E2 & E3)|(-> & N' & l' & A')].
  2: { simpl. wp_steps. eauto. }
  destruct (Z.eqb_spec newsz 0); [lia|].
  eapply wp_mono; [apply (uvmdealloc_wp _ _ _ _ _ newsz oldsz A'); lia|].
  rewrite Z.min_r by lia. intros r s2 (-> & l2 & A2 & _). split; [done|]. exists N', l2.
  replace F with (remove_range (Z.to_nat (vpn_up newsz - vpn_up oldsz)) (vpn_up oldsz) F'); [done|].
  apply map_eq. intros v. rewrite lookup_remove_range. case_decide as Hv.
  - symmetry. apply HF. lia.
  - apply E1. lia.
Qed.

End vm.

(** ** Witnesses on the concrete machine *)

Lemma leaf_N1 v : leaf_pte (phys km1) N1 v = 0.
Proof. apply leaf_pte_root. Qed.

Lemma mappages_translates_witness :
  wp (mappages pt1 0x3000 (2 * PGSIZE) 0x87000000 (Z.lor PTE_R PTE_U)) (fun r s' =>
      (r = 0 /\ forall a old, 0 <= a < MAXVA -> walkaddr pt1 a km1 = Ret old km1 ->
         walkaddr pt1 a s' = Ret (translate_mapped 0x3000 (2 * PGSIZE / PGSIZE) 0x87000000 (Z.lor PTE_R PTE_U) a old) s') \/
      (r = -1 /\ kmem_inv s' [])) km1.
Proof.
  apply (mappages_translates km1 pt1 N1 free1); [apply km1_empty|done|lia|done|by vm_compute|by vm_compute|done|lia|by vm_compute|by vm_compute|].
  intros v _. by rewrite leaf_N1.
Defined.

(** The address space after [uvmalloc(pagetable, 0, 2 * PGSIZE, PTE_W)]. *)
Definition km2 : kmem := end_state km_zero (uvmalloc pt1 0 (2 * PGSIZE) PTE_W km1).

Lemma uvmalloc_zeroed_witness :
  wp (uvmalloc pt1 0 (2 * PGSIZE) PTE_W) (fun r s' =>
      (r = 2 * PGSIZE /\ exists N' l' F', as_inv s' pt1 N' l' F' /\
         (forall v, ~ (vpn_up 0 <= v < vpn_up (2 * PGSIZE)) ->
            F' !! v = (∅ : gmap Z Z) !! v /\ leaf_pte (phys s') N' v = leaf_pte (phys km1) N1 v) /\
         (forall v, vpn_up 0 <= v < vpn_up (2 * PGSIZE) -> exists pa, F' !! v = Some pa /\
            zero_page (phys s') pa /\
            leaf_pte (phys s') N' v = mapped_pte pa (Z.lor (Z.lor PTE_R PTE_U) PTE_W)) /\
         (forall v pa, (∅ : gmap Z Z) !! v = Some pa -> same_page (phys km1) (phys s') pa)) \/
      (r = 0 /\ exists N' l', as_inv s' pt1 N' l' ∅)) km1.
Proof.
  apply (uvmalloc_zeroed km1 pt1 N1 free1); [apply km1_empty|lia|by vm_compute|by vm_compute|by vm_compute|].
  intros v _. apply lookup_empty.
Defined.

Lemma uvmalloc_dealloc_roundtrip_witness :
  wp (r ← uvmalloc pt1 0 (2 * PGSIZE) PTE_W; if r =? 0 then mret 0 else uvmdealloc pt1 (2 * PGSIZE) 0)
    (fun r s' => r = 0 /\ exists N' l', as_inv s' pt1 N' l' ∅) km1.
Proof.
  apply (uvmalloc_dealloc_roundtrip km1 pt1 N1 free1); [apply km1_empty|lia|by vm_compute|by vm_compute|by vm_compute|].
  intros v _. apply lookup_empty.
Defined.

Lemma km2_mapped : exists N l F, as_inv km2 pt1 N l F /\ is_Some (F !! 0) /\ is_Some (F !! 1).
Proof.
  destruct km1_empty as [A _].
  pose proof (end_wp _ _ _ km_zero 0 (uvmalloc_wp km1 pt1 N1 free1 ∅ 0 (2 * PGSIZE) PTE_W A
    ltac:(lia) ltac:(pg) ltac:(by vm_compute) ltac:(done) ltac:(pg))) as W.
  destruct W as [(_ & N & l & F & A' & _ & E & _)|(E & _)].
  - exists N, l, F. split; [exact A'|]. split.
    + destruct (E 0) as (pa & -> & _); [by vm_compute|done].
    + destruct (E 1) as (pa & -> & _); [by vm_compute|done].
  - exfalso. revert E. vm_compute. discriminate.
Qed.

Lemma mappages_remap_panics_witness :
  mappages pt1 0x1000 PGSIZE 0x87000000 (Z.lor PTE_R PTE_U) km2 = Panic "mappages: remap".
Proof.
  destruct km2_mapped as (N & l & F & A & _ & H1).
  apply (mappages_remap_panics km2 pt1 N l F); [exact A|by vm_compute|done|exact H1].
Defined.

(** A second address space, for the child. *)
Definition km3 : kmem := end_state km_zero (uvmcreate km2).
Definition pt3 : Z := end_value 0 (uvmcreate km2).

