(* ===== verification/PagingTheorems.v ===== *)
(** * Theorems about demand paging and swapping

    Page faults, FIFO eviction and the swap file (kernel/vm.c), with
    witnesses on the concrete machine of [Demo]. *)
From S2P Require Import Prelude Mem Riscv Kalloc Vm PageTable VmSpec AddrSpace UvmSpec Paging SwapSpec PagingInv SwapOut PagingSpec Demo.
From stdpp Require Import base tactics numbers list strings gmap.
From Stdlib Require Import ZArith Lia.

Open Scope Z_scope.

Section paging.
Context {KL : KernelLayout} {PE : Panics} {FS : FsOps} {FL : FsLaws FS}.

(** C8: a page fault on a page that is not mapped keeps the paging invariant
    (page table, per-page records, swap bitmap and swap file agree), and
    whatever it evicts, every other page keeps its content, except pages that
    the kernel takes for unmodified copies of the executable.  The handler
    itself never panics (no frame freed twice, no page mapped twice, no walk
    above MAXVA): it panics only when one of its calls of the file system
    does, with that call's message; [may_panic] are the messages with which
    those calls may panic by [FsLaws]. *)
Theorem handle_page_fault_safe s N l F va cause :
  pg_inv s N l F -> segs_ok (ps_proc s) -> 0 <= va -> F !! vpn va = None ->
  match handle_page_fault va cause s with
  | Ret r s' => (r = 0 \/ r = -1) /\
      exists N' l' F', pg_inv s' N' l' F' /\
        p_sz (ps_proc s') = p_sz (ps_proc s) /\ segs (pgi s') = segs (pgi s) /\
        forall k j, 0 <= k -> k <> vpn va -> 0 <= j < PGSIZE ->
          pi_state (page_at (pgi s) k) <> RESIDENT \/ discardable (page_at (pgi s) k) = false ->
          page_byte s' F' k j = page_byte s F k j
  | Panic msg => may_panic msg
  | NoFuel => False
  end.
Proof.
  intros I SO Hva HF. apply (wp_mono (handle_page_fault va cause) _ (fun r s' => fault_keeps s F (vpn va) r s') s
    (handle_page_fault_wp s N l F va cause I SO Hva HF)). intros r s' Hp.
  rewrite <- (vpn_rounddown va). by apply (handle_post_safe s N l F _ cause).
Qed.

(** What a page that was faulted in holds. *)
Definition fault_content (s : pstate) (va : Z) (kind : fault_kind) (s' : pstate) (j : Z) : option Z :=
  let g := pgi s in
  let a := PGROUNDDOWN va in
  match kind with
  | KText => exec_byte (text_start g) (text_offset g) (text_filesz g) a s' j
  | KData => exec_byte (data_start g) (data_offset g) (data_filesz g) a s' j
  | KSwap => slot_byte s (vpn va) j
  | _ => Some 0
  end.
Definition fault_perm (kind : fault_kind) : Z := Z.lor (Z.lor PTE_U PTE_R) (if decide (kind = KText) then PTE_X else PTE_W).

(** Why a fault may fail although there is memory: a read of the executable
    or of the swap file comes short, or the page has no swap slot. *)
Definition fault_why (s : pstate) (va : Z) (kind : fault_kind) : Prop :=
  match kind with
  | KText | KData => short_read (exec_ip (pgi s))
  | KSwap => no_slot s (vpn va)
  | _ => False
  end.

(** The faulting page is there, or there was no memory. *)
Definition brought_in (s : pstate) (va : Z) (kind : fault_kind) (r : Z) (s' : pstate) : Prop :=
  exists N' l' F', pg_inv s' N' l' F' /\
    ((r = 0 /\ (exists pa, F' !! vpn va = Some pa /\
        leaf_pte (phys (ps_km s')) N' (vpn va) = mapped_pte pa (fault_perm kind) /\
        forall j, 0 <= j < PGSIZE -> Some (mget (phys (ps_km s')) (pa + j)) = fault_content s va kind s' j) /\
      (tracked (vpn va) -> pi_state (page_at (pgi s') (vpn va)) = RESIDENT /\
         pi_fifo_seq (page_at (pgi s') (vpn va)) = next_fifo_seq (pgi s))) \/
     (r = -1 /\ F' !! vpn va = None /\ ((length l' <= 1)%nat \/ fault_why s va kind))).

Lemma fault_post_brought_in s F va kind content r s' :
  (forall j, 0 <= j < PGSIZE -> content s' j <> None -> content s' j = fault_content s va kind s' j) ->
  fault_post s F (vpn va) (fault_perm kind) content (fault_why s va kind) r s' -> brought_in s va kind r s'.
Proof.
  intros HC (N' & l' & F' & I' & [(-> & (pa & Hpa & HL & Hz) & Hr)|HN])%fault_post_page; exists N', l', F'; (split; [done|]); [left|by right].
  split_and!; [done| |done]. exists pa. split_and!; [done|done|]. intros j Hj. rewrite Hz by done. apply HC; [done|]. by rewrite <- Hz.
Qed.

(** An access outside every segment, or a write to the text segment,
    changes nothing but the killed flag of the process. *)
Theorem illegal_access_kills s va cause :
  let kind := classify (ps_proc s) (PGROUNDDOWN va) cause in
  kind = KInvalid \/ kind = KTextWrite ->
  0 <= va ->
  wp (handle_page_fault va cause) (fun r s' =>
    r = (if decide (kind = KInvalid) then -1 else 0) /\
    p_killed (ps_proc s') = 1 /\ ps_km s' = ps_km s /\ ps_fs s' = ps_fs s /\ pgi s' = pgi s) s.
Proof.
  intros kind Hk Hva. destruct (rounddown_page va Hva) as (Hal & Ha & _). revert Hk.
  unfold kind, classify, handle_page_fault. clear kind.
  set (a := PGROUNDDOWN va) in *. change (p_paging (ps_proc s)) with (pgi s).
  destruct (Z.leb_spec MAXVA a); [rewrite decide_True by done; by intros [|]|rewrite decide_False by lia].
  intros Hk. ps_steps. unfold id. change (p_paging (ps_proc s)) with (pgi s). revert Hk.
  destruct (in_text (pgi s) a && (cause =? 15)); [intros _; by ps_steps|].
  rewrite (swapped_test (pgi s) a) by done. case_decide; [by intros [|]|].
  destruct (in_text (pgi s) a), (in_data (pgi s) a), (in_heap (ps_proc s) a); 
    try (by intros [|]); intros _; by ps_steps.
Qed.

(** A fault that the handler takes for a heap access although the page is
    mapped makes the kernel panic. *)
Lemma mapped_heap_panics s N l F va cause :
  pg_inv s N l F -> segs_ok (ps_proc s) -> 0 <= va -> is_Some (F !! vpn va) ->
  classify (ps_proc s) (PGROUNDDOWN va) cause = KHeap -> l <> [] ->
  handle_page_fault va cause s = Panic "mappages: remap".
Proof.
  intros I SO Hva HF Hc Hl. destruct l as [|p l]; [done|]. destruct (rounddown_page va Hva) as (Hal & Ha & Ev).
  apply (handle_heap_run s va cause SO Hva) in Hc as [-> Hlt].
  rewrite <- Ev in HF. by eapply fault_heap_mapped.
Qed.



(** C14: swapping a page out and in again gives the process the bytes it had
    (the page is written to the swap file because it is dirty or does not
    come from the executable).  As in C8, it panics only if the file system
    does. *)
Theorem swap_roundtrip s N l F i pa :
  pg_inv s N l F -> tracked i -> F !! i = Some pa -> discardable (page_at (pgi s) i) = false ->
  wp (r ← swapout_page (i * PGSIZE); if r =? 0 then swapin_page (i * PGSIZE) else mret r) (fun r s' =>
    r = 0 -> exists N' l' F' pa', pg_inv s' N' l' F' /\ F' !! i = Some pa' /\
      forall j, 0 <= j < PGSIZE -> mget (phys (ps_km s')) (pa' + j) = mget (phys (ps_km s)) (pa + j)) s.
Proof.
  intros I Ht Hpa Hd. destruct (page_va i Ht) as (Hva & Hal & Hvp).
  eapply wp_call; [by apply swapout_page_wp|].
  intros r s1 [(l1 & F1 & I1 & _ & _ & B1 & [(-> & -> & _ & Hst)|(-> & _)]) _].
  2: { simpl. ps_steps. done. }
  simpl. rewrite Hd in Hst.
  eapply wp_mono; [eapply (swapin_page_wp s1 s1); try done; rewrite Hvp; done|].
  rewrite Hvp. intros r s2 (N' & l' & F' & I2 & [(-> & (pa' & Hpa' & _ & Hz) & _)|(-> & _)])%fault_post_page Hr; [|done].
  exists N', l', F', pa'. split_and!; [done|done|]. intros j Hj. specialize (Hz j Hj).
  rewrite B1 in Hz by (done || apply Ht || by right). unfold page_byte in Hz. rewrite Hpa in Hz. by injection Hz.
Qed.

(** init_paging_info leaves every page unmapped and no swap slot in
    use, which is the paging invariant for any page table. *)
Theorem init_paging_info_ok g F :
  records_ok (init_paging_info g) F /\
  (forall i, pi_state (page_at (init_paging_info g) i) = UNMAPPED) /\
  swapfile (init_paging_info g) = 0 /\ next_fifo_seq (init_paging_info g) = 1.
Proof. split_and!; [apply init_records|apply init_unmapped|done|done]. Qed.

(** A fault that the handler takes for a heap access although the page
    is mapped and resident (an instruction fetch from a heap page, which is
    never executable, is such a fault) makes the kernel panic. *)
Theorem heap_exec_fault_panics s N p l F va :
  pg_inv s N (p :: l) F -> segs_ok (ps_proc s) -> 0 <= va -> is_Some (F !! vpn va) ->
  classify (ps_proc s) (PGROUNDDOWN va) 12 = KHeap ->
  handle_page_fault va 12 s = Panic "mappages: remap".
Proof.
  intros I SO Hva HF Hc. by eapply mapped_heap_panics.
Qed.
End paging.

(** ** Swap slots *)

(** alloc_swap_slot takes the lowest free slot and reports -1 only when all
    1024 are in use; swap_used stays the number of slots in use, and freeing
    the slot again restores the bitmap. *)
Theorem swap_slot_alloc_free g :
  swap_ok g ->
  let '(slot, g') := alloc_swap_slot g in
  (slot = -1 /\ g' = g /\ forall j, 0 <= j < MAX_SWAP_PAGES -> slot_used (swap_bitmap g) j = true) \/
  (0 <= slot < MAX_SWAP_PAGES /\ slot_used (swap_bitmap g) slot = false /\
   (forall j, 0 <= j < slot -> slot_used (swap_bitmap g) j = true) /\ swap_ok g' /\
   (forall j, 0 <= j -> slot_used (swap_bitmap g') j = (j =? slot) || slot_used (swap_bitmap g) j) /\
   forall j, 0 <= j -> slot_used (swap_bitmap (free_swap_slot slot g')) j = slot_used (swap_bitmap g) j).
Proof.
  intros Hok. destruct (alloc_swap_slot_cases g Hok) as [[-> Hfull]|(slot & bm & E & Hs & Hf & Hl & Hbm & Hok')].
  - left. done.
  - rewrite E. right. destruct (alloc_then_free g slot bm Hok E Hs Hf Hbm Hok') as (bm' & u & E' & _ & Hb').
    split; [done|]. split; [done|]. split; [done|]. split; [done|]. split; [done|]. by rewrite E'.
Qed.

(** ** Witnesses on the concrete machine *)

(** [ps2]: after a write fault on the first heap page. *)
Definition ps2 : pstate := end_state ps1 (handle_page_fault 0x2000 15 ps1).

Lemma ps1_heap : classify (ps_proc ps1) (PGROUNDDOWN 0x2000) 15 = KHeap.
Proof. by vm_compute. Qed.

(** What the run that leads to [ps2] returns. *)
Definition check2 (r : res pstate Z) : bool :=
  match r with
  | Ret a s =>
      (a =? 0) && negb (freelist (ps_km s) =? 0) && negb (discardable (page_at (pgi s) 2)) &&
      bool_decide (classify (ps_proc s) 0x2000 12 = KHeap)
  | _ => false
  end.

Lemma run2 : exists s, handle_page_fault 0x2000 15 ps1 = Ret 0 s /\ ps2 = s /\
  freelist (ps_km s) <> 0 /\ discardable (page_at (pgi s) 2) = false /\
  classify (ps_proc s) 0x2000 12 = KHeap.
Proof.
  assert (check2 (handle_page_fault 0x2000 15 ps1) = true) as H by (vm_compute; reflexivity).
  unfold ps2. destruct (handle_page_fault 0x2000 15 ps1) as [a s| |]; [|discriminate H..].
  unfold check2 in H. apply andb_true_iff in H as [H H4]. apply andb_true_iff in H as [H H3].
  apply andb_true_iff in H as [H1 H2]. exists s. apply bool_decide_eq_true in H4.
  apply Z.eqb_eq in H1. apply negb_true_iff, Z.eqb_neq in H2. apply negb_true_iff in H3. subst a. auto.
Qed.

Lemma heap_ps2 : exists N p l F pa, pg_inv ps2 N (p :: l) F /\ F !! 2 = Some pa /\ same_proc ps1 ps2 /\
  zero_page (phys (ps_km ps2)) pa.
Proof.
  pose proof (handle_page_fault_wp ps1 N1 free1 ∅ 0x2000 15 ps1_inv ps1_segs ltac:(lia) eq_refl) as W.
  destruct run2 as (s & E & -> & Hfl & _ & _). unfold wp in W. rewrite E in W.
  unfold handle_post in W. rewrite ps1_heap in W.
  destruct W as (N & l & F & I & C & _ & [(_ & (pa & Hpa & _) & Hz & _)|(Er & _)]); [|discriminate Er].
  destruct l as [|p l].
  { exfalso. apply Hfl. apply (pw_km _ _ _ _ (as_world _ _ _ _ _ (gi_as _ _ _ _ I))). }
  change (vpn (PGROUNDDOWN 0x2000)) with 2 in Hz, Hpa.
  exists N, p, l, F, pa. split; [exact I|]. split; [exact Hpa|]. split; [exact C|]. intros x Hx.
  specialize (Hz (x - pa) ltac:(lia)).
  unfold page_byte in Hz. rewrite Hpa in Hz. injection Hz as Hz.
  by replace (pa + (x - pa)) with x in Hz by lia.
Qed.

(** The file system of [Demo] with an end_op that panics, as that of the
    kernel does when every buffer is in use. *)
Definition no_buffers : Panics := fun msg => msg = "bget: no buffers".
Definition panicky : FsOps := {|
  fs := @fs demo_fs;
  fs_begin_op := @fs_begin_op demo_fs;
  fs_end_op := panic "bget: no buffers";
  fs_ilock := @fs_ilock demo_fs;
  fs_iunlock := @fs_iunlock demo_fs;
  fs_iunlockput := @fs_iunlockput demo_fs;
  fs_clear_nlink := @fs_clear_nlink demo_fs;
  fs_iupdate := @fs_iupdate demo_fs;
  fs_readi := @fs_readi demo_fs;
  fs_writei := @fs_writei demo_fs;
  fs_create := @fs_create demo_fs;
  fs_filealloc := @fs_filealloc demo_fs;
  fs_file_open_inode := @fs_file_open_inode demo_fs;
  fs_file_ip := @fs_file_ip demo_fs
|}.
Definition panicky_laws : @FsLaws no_buffers panicky.
Proof.
  refine (@Build_FsLaws no_buffers panicky (@fs_byte _ demo_fs demo_laws) (@fs_fip _ demo_fs demo_laws) (@fs_ref _ demo_fs demo_laws)
    (@fs_op _ demo_fs demo_laws) (@fs_locked _ demo_fs demo_laws) _ _ _ _ _ _ _ _ _ _ _ _ _); intros.
  - apply wp_any_panics. by apply (law_begin (FS := demo_fs)).
  - reflexivity.
  - apply wp_any_panics. by apply (law_ilock (FS := demo_fs)).
  - apply wp_any_panics. by apply (law_iunlock (FS := demo_fs)).
  - apply wp_any_panics. by apply (law_iunlockput (FS := demo_fs)).
  - apply wp_any_panics. by apply (law_clear_nlink (FS := demo_fs)).
  - apply wp_any_panics. by apply (law_iupdate (FS := demo_fs)).
  - apply wp_any_panics. by apply (law_readi (FS := demo_fs)).
  - apply wp_any_panics. by apply (law_writei (FS := demo_fs)).
  - apply wp_any_panics. by apply (law_create (FS := demo_fs)).
  - apply wp_any_panics. by apply (law_filealloc (FS := demo_fs)).
  - apply wp_any_panics. by apply (law_open_inode (FS := demo_fs)).
  - apply wp_any_panics. by apply (law_file_ip (FS := demo_fs)).
Defined.
Definition ps1' : @pstate panicky := @PState panicky km1 demo_proc demo_file [].

(** The heap page of [ps1] comes in; with the panicking file system a fault
    on the text panics in end_op, and the theorem holds of that run too. *)
Lemma handle_page_fault_safe_witness :
  wp (handle_page_fault 0x2000 15) (fun r s' => (r = 0 \/ r = -1) /\
      exists N' l' F', pg_inv s' N' l' F' /\
        p_sz (ps_proc s') = p_sz (ps_proc ps1) /\ segs (pgi s') = segs (pgi ps1) /\
        forall k j, 0 <= k -> k <> vpn 0x2000 -> 0 <= j < PGSIZE ->
          pi_state (page_at (pgi ps1) k) <> RESIDENT \/ discardable (page_at (pgi ps1) k) = false ->
          page_byte s' F' k j = page_byte ps1 ∅ k j) ps1 /\
  @handle_page_fault _ panicky 0x10 12 ps1' = Panic "bget: no buffers" /\ @may_panic no_buffers "bget: no buffers".
Proof.
  split; [exact (handle_page_fault_safe ps1 N1 free1 ∅ 0x2000 15 ps1_inv ps1_segs ltac:(lia) eq_refl)|].
  assert (@handle_page_fault _ panicky 0x10 12 ps1' = Panic "bget: no buffers") as E by (vm_compute; reflexivity).
  split; [exact E|].
  assert (@pg_inv _ no_buffers panicky panicky_laws ps1' N1 free1 ∅) as I.
  { pose proof ps1_inv as [A1 A2 A3 A4 A5 A6]. constructor; [exact A1|exact A2|exact A3|exact A4|exact A5|exact A6]. }
  pose proof (@handle_page_fault_safe _ no_buffers panicky panicky_laws ps1' N1 free1 ∅ 0x10 12 I ps1_segs ltac:(lia) eq_refl) as W.
  rewrite E in W. exact W.
Defined.

(** The first text page: four bytes of the file, then zeros. *)
Definition ps4 : pstate := end_state ps1 (handle_page_fault 0x10 12 ps1).

Lemma ps4_text : classify (ps_proc ps1) (PGROUNDDOWN 0x10) 12 = KText.
Proof. by vm_compute. Qed.


Lemma illegal_access_kills_witness :
  wp (handle_page_fault 0x900000 13) (fun r s' => r = -1 /\
      p_killed (ps_proc s') = 1 /\ ps_km s' = ps_km ps1 /\ ps_fs s' = ps_fs ps1 /\ pgi s' = pgi ps1) ps1.
Proof.
  assert (classify (ps_proc ps1) (PGROUNDDOWN 0x900000) 13 = KInvalid) as Hk by (by vm_compute).
  pose proof (illegal_access_kills ps1 0x900000 13 (or_introl Hk) ltac:(lia)) as W.
  cbv zeta in W. rewrite Hk in W. exact W.
Defined.


(** Swapping the heap page out and in again succeeds here. *)
Lemma swap_roundtrip_witness :
  exists pa s', (r ← swapout_page (2 * PGSIZE); if r =? 0 then swapin_page (2 * PGSIZE) else mret r) ps2 = Ret 0 s' /\
    exists N' l' F' pa', pg_inv s' N' l' F' /\ F' !! 2 = Some pa' /\
      forall j, 0 <= j < PGSIZE -> mget (phys (ps_km s')) (pa' + j) = mget (phys (ps_km ps2)) (pa + j).
Proof.
  destruct heap_ps2 as (N & p & l & F & pa & I & Hpa & C & _). exists pa.
  assert (tracked 2) as Ht by (split; [lia|reflexivity]).
  assert (discardable (page_at (pgi ps2) 2) = false) as Hd by (destruct run2 as (s & _ & -> & _ & Hd & _); exact Hd).
  pose proof (swap_roundtrip ps2 N (p :: l) F 2 pa I Ht Hpa Hd) as W.
  assert (end_value (-1) ((r ← swapout_page (2 * PGSIZE); if r =? 0 then swapin_page (2 * PGSIZE) else mret r) ps2) = 0)
    as E by (vm_compute; reflexivity).
  unfold wp in W. destruct ((r ← swapout_page (2 * PGSIZE); if r =? 0 then swapin_page (2 * PGSIZE) else mret r) ps2)
    as [r s'| |]; [|contradiction W..].
  exists s'. cbn [end_value] in E. subst r. split; [reflexivity|]. exact (W eq_refl).
Defined.

Lemma ps2_segs : segs_ok (ps_proc ps2).
Proof. destruct heap_ps2 as (N & p & l & F & pa & I & Hpa & C & _). exact (segs_ok_same _ _ C ps1_segs). Qed.

Lemma heap_exec_fault_panics_witness : handle_page_fault 0x2000 12 ps2 = Panic "mappages: remap".
Proof.
  destruct heap_ps2 as (N & p & l & F & pa & I & Hpa & C & _).
  apply (heap_exec_fault_panics ps2 N p l F); [exact I|exact ps2_segs|lia|exists pa; exact Hpa|].
  destruct run2 as (s & _ & -> & _ & _ & Hc). exact Hc.
Defined.

Lemma swap_slot_alloc_free_witness :
  let '(slot, g') := alloc_swap_slot (init_paging_info paging_zero) in slot = 0 /\
  forall j, 0 <= j -> slot_used (swap_bitmap (free_swap_slot slot g')) j =
    slot_used (swap_bitmap (init_paging_info paging_zero)) j.
Proof.
  pose proof (swap_slot_alloc_free _ (ro_swap _ _ (init_records paging_zero ∅))) as W.
  assert (fst (alloc_swap_slot (init_paging_info paging_zero)) = 0) as E0 by (by vm_compute).
  destruct (alloc_swap_slot (init_paging_info paging_zero)) as [slot g']. simpl in E0. subst slot.
  split; [done|]. destruct W as [(H & _)|(_ & _ & _ & _ & _ & H)]; [done|exact H].
Defined.

(** ** A write to the data segment does not survive eviction *)

(** The user's store to a mapped address. *)
Definition user_store (va b : Z) : M pstate unit :=
  pt ← my p_pagetable;
  pa ← on_km (walkaddr pt va);
  on_km (modify (set_phys (fun m => mset m (pa + va mod PGSIZE) b))).
Definition user_load (va : Z) : M pstate Z :=
  pt ← my p_pagetable;
  pa ← on_km (walkaddr pt va);
  gets (fun s => mget (phys (ps_km s)) (pa + va mod PGSIZE)).

(** A data page is mapped writable but recorded as clean and from the
    executable, and no later write marks it dirty: after a data fault, a store
    by the process, an eviction and another fault, the process reads the
    byte of the file (42) and not the one it stored (99). *)
Theorem data_segment_write_lost :
  end_value (0, 0, 0, 0, 0)
    ((r1 ← handle_page_fault 0x1000 13;
      user_store 0x1000 99;;
      b1 ← user_load 0x1000;
      r2 ← evict_page_fifo;
      r3 ← handle_page_fault 0x1000 13;
      b2 ← user_load 0x1000;
      mret (r1, b1, r2, r3, b2)) ps1) = (0, 99, 0, 0, 42).
Proof. vm_compute. reflexivity. Qed.
