(* ===== verification/UserCopy.v ===== *)
(** * Copying between the kernel and user memory (kernel/vm.c)

    copyout, copyin and copyinstr, which fault missing pages in through
    handle_kernel_pagefault.  A kernel buffer is a range of physical addresses
    (the kernel maps memory one to one).  The loops go page by page; the fuel
    [len / PGSIZE + 2] covers the pages a range of [len] bytes can touch. *)
From S2P Require Import Prelude Mem Riscv Kalloc Vm PageTable VmSpec AddrSpace UvmSpec Paging SwapSpec PagingInv SwapOut PagingSpec.
From stdpp Require Import base tactics numbers list strings gmap.
From Stdlib Require Import ZArith Lia.

Open Scope Z_scope.

Section usercopy.
Context {KL : KernelLayout} {FS : FsOps}.

(** [pa0 = walkaddr(...)] with the page fault taken when it is 0. *)
Definition user_page (pagetable va0 : Z) (is_write : bool) : M pstate Z :=
  pa0 ← on_km (walkaddr pagetable va0);
  if pa0 =? 0 then handle_kernel_pagefault pagetable va0 is_write else mret pa0.

Fixpoint copyout_loop (fuel : nat) (pagetable dstva src len : Z) : M pstate Z :=
  if negb (0 <? len) then mret 0
  else
    match fuel with
    | O => nofuel
    | S fuel =>
        let va0 := PGROUNDDOWN dstva in
        pa0 ← user_page pagetable va0 true;
        if pa0 =? 0 then mret (-1)
        else
          pte ← on_km (walk pagetable va0 false);
          if pte =? 0 then mret (-1)
          else
            v ← on_km (ld64 pte);
            if negb (has v PTE_W) then mret (-1)
            else
              let n := w64 (PGSIZE - (dstva - va0)) in
              let n := if len <? n then len else n in
              on_km (do_memmove (w64 (pa0 + (dstva - va0))) src n);;
              copyout_loop fuel pagetable (w64 (va0 + PGSIZE)) (w64 (src + n)) (w64 (len - n))
    end.

Definition copyout (pagetable dstva src len : Z) : M pstate Z :=
  copyout_loop (Z.to_nat (len / PGSIZE + 2)) pagetable dstva src len.

Fixpoint copyin_loop (fuel : nat) (pagetable dst srcva len : Z) : M pstate Z :=
  if negb (0 <? len) then mret 0
  else
    match fuel with
    | O => nofuel
    | S fuel =>
        let va0 := PGROUNDDOWN srcva in
        pa0 ← user_page pagetable va0 false;
        if pa0 =? 0 then mret (-1)
        else
          let n := w64 (PGSIZE - (srcva - va0)) in
          let n := if len <? n then len else n in
          on_km (do_memmove dst (w64 (pa0 + (srcva - va0))) n);;
          copyin_loop fuel pagetable (w64 (dst + n)) (w64 (va0 + PGSIZE)) (w64 (len - n))
    end.

Definition copyin (pagetable dst srcva len : Z) : M pstate Z :=
  copyin_loop (Z.to_nat (len / PGSIZE + 2)) pagetable dst srcva len.

(** The inner loop of copyinstr over the rest of one page; the result is the
    new memory and [got_null]. *)
Fixpoint copyinstr_page (n : nat) (m : gmap Z Z) (p dst : Z) : gmap Z Z * bool :=
  match n with
  | O => (m, false)
  | S n =>
      let c := mget m p in
      if c =? 0 then (mset m dst 0, true)
      else copyinstr_page n (mset m dst c) (p + 1) (dst + 1)
  end.

Fixpoint copyinstr_loop (fuel : nat) (pagetable dst srcva max : Z) : M pstate Z :=
  if negb (0 <? max) then mret (-1)
  else
    match fuel with
    | O => nofuel
    | S fuel =>
        let va0 := PGROUNDDOWN srcva in
        pa0 ← user_page pagetable va0 false;
        if pa0 =? 0 then mret (-1)
        else
          let n := w64 (PGSIZE - (srcva - va0)) in
          let n := if max <? n then max else n in
          m ← on_km (gets phys);
          let '(m', got_null) := copyinstr_page (Z.to_nat n) m (w64 (pa0 + (srcva - va0))) dst in
          on_km (modify (set_phys (fun _ => m')));;
          if got_null : bool then mret 0
          else copyinstr_loop fuel pagetable (w64 (dst + n)) (w64 (va0 + PGSIZE)) (w64 (max - n))
    end.

Definition copyinstr (pagetable dst srcva max : Z) : M pstate Z :=
  copyinstr_loop (Z.to_nat (max / PGSIZE + 2)) pagetable dst srcva max.
End usercopy.
