(* ===== verification/CopyTheorems.v ===== *)
(** * What copyin and copyout do on mapped memory

    The copied bytes are those of the user's address space, nothing else is
    written, and a page that the process may not write stops copyout; the
    round trip. *)
From S2P Require Import Prelude Mem Riscv Kalloc Vm PageTable VmSpec AddrSpace UvmSpec Paging SwapSpec PagingInv SwapOut PagingSpec Demo UserCopy.
From stdpp Require Import base tactics numbers list strings gmap.
From Stdlib Require Import ZArith Lia.

Open Scope Z_scope.

(** The part of a range that lies in the page of its first address. *)
Definition chunk (va len : Z) : Z :=
  let n := w64 (PGSIZE - (va - PGROUNDDOWN va)) in if len <? n then len else n.

Lemma chunk_spec va len :
  0 <= va -> 0 < len ->
  0 < chunk va len <= len /\ chunk va len <= PGSIZE - va mod PGSIZE /\
  va - PGROUNDDOWN va = va mod PGSIZE /\
  (chunk va len = len \/ (PGROUNDDOWN va + PGSIZE = va + chunk va len /\ (va + chunk va len) mod PGSIZE = 0)) /\
  forall i, 0 <= i < chunk va len -> vpn (va + i) = vpn va /\ (va + i) mod PGSIZE = va mod PGSIZE + i.
Proof.
  intros Hva Hlen. unfold chunk. rewrite PGROUNDDOWN_page_of. unfold page_of, vpn.
  pose proof (Z.div_mod va PGSIZE ltac:(pg)) as E. pose proof (Z.mod_pos_bound va PGSIZE ltac:(pg)) as B.
  assert (va - va / PGSIZE * PGSIZE = va mod PGSIZE) as -> by lia.
  rewrite w64_id by (unfold PGSIZE in *; lia).
  assert (forall i, 0 <= i < PGSIZE - va mod PGSIZE ->
    (va + i) / PGSIZE = va / PGSIZE /\ (va + i) mod PGSIZE = va mod PGSIZE + i) as Hi.
  { intros i Hi. split.
    - symmetry. apply (Z.div_unique_pos _ _ _ (va mod PGSIZE + i)); lia.
    - symmetry. apply (Z.mod_unique_pos _ _ (va / PGSIZE)); lia. }
  destruct (Z.ltb_spec len (PGSIZE - va mod PGSIZE)).
  - split_and!; try lia. intros i Hi'. apply Hi. lia.
  - split_and!; try lia; [|intros i Hi'; apply Hi; lia]. right. split; [lia|].
    replace (va + (PGSIZE - va mod PGSIZE)) with ((va / PGSIZE + 1) * PGSIZE) by lia. apply Z_mod_mult.
Qed.

(** The physical address of a mapped user byte. *)
Definition uaddr (F : gmap Z Z) (va : Z) : Z := default 0 (F !! vpn va) + va mod PGSIZE.

Lemma uaddr_chunk F va len i :
  0 <= va -> 0 < len -> 0 <= i < chunk va len -> uaddr F (va + i) = uaddr F va + i.
Proof.
  intros Hva Hl Hi. destruct (chunk_spec va len Hva Hl) as (_ & _ & _ & _ & H). destruct (H i Hi) as [E1 E2].
  unfold uaddr. rewrite E1, E2. lia.
Qed.

Section usercopy.
Context {KL : KernelLayout} {PE : Panics} {FS : FsOps} {FL : FsLaws FS}.

(** The process may access every byte of a range, with permission [flag] too. *)
Definition accessible (k : kmem) (N : nodemap) (F : gmap Z Z) (flag va len : Z) : Prop :=
  forall i, 0 <= i < len -> is_Some (F !! vpn (va + i)) /\
    has (leaf_pte (phys k) N (vpn (va + i))) PTE_U = true /\
    has (leaf_pte (phys k) N (vpn (va + i))) flag = true.

Lemma accessible_sub k N F flag va len va' len' :
  accessible k N F flag va len -> va <= va' -> va' + len' <= va + len -> accessible k N F flag va' len'.
Proof. intros H H1 H2 i Hi. replace (va' + i) with (va + (va' + i - va)) by lia. apply H. lia. Qed.

(** A kernel buffer: neither free memory nor memory of the address space. *)
Definition kbuffer (N : nodemap) (l : list Z) (F : gmap Z Z) (a len : Z) : Prop :=
  0 <= a /\ a + len < 2 ^ 64 /\
  forall x, a <= x < a + len -> (page_of x ∉ l) /\ ~ owns N F (page_of x).

Definition with_phys (s : pstate) (m : gmap Z Z) : pstate :=
  PState (set_phys (fun _ => m) (ps_km s)) (ps_proc s) (ps_fs s) (ps_out s).

Lemma user_page_mapped s root N l F va flag is_write :
  as_inv (ps_km s) root N l F -> 0 <= va -> accessible (ps_km s) N F flag va 1 ->
  user_page root (PGROUNDDOWN va) is_write s = Ret (default 0 (F !! vpn va)) s /\
  page_ok (default 0 (F !! vpn va)).
Proof.
  intros A Hva Hacc. destruct (Hacc 0 ltac:(lia)) as ([pa Hpa] & HU & _). rewrite Z.add_0_r in Hpa, HU.
  destruct (as_frame _ _ _ _ _ A _ _ Hpa) as (Hv & HV & Epa & Hok). rewrite Hpa. simpl. split; [|done].
  destruct (rounddown_page va Hva) as (Hal & H0 & Ev).
  assert (PGROUNDDOWN va < TRAPFRAME) by (apply vpn_lt_uvpn; [done|lia]).
  unfold user_page. rewrite (bind_ok (on_km (walkaddr root (PGROUNDDOWN va))) _ s pa s).
  - pose proof (page_ok_pos _ Hok). destruct (Z.eqb_spec pa 0); [lia|done].
  - unfold on_km, zoom. rewrite (walkaddr_run _ _ _ N) by (apply A || done).
    destruct (Z.ltb_spec (PGROUNDDOWN va) MAXVA); [|pg]. rewrite Ev. unfold translate. rewrite HV, HU, Epa. simpl.
    by destruct s.
Qed.

(** Memory changes outside the address space and the free list. *)
Lemma as_inv_kbuffer k root N l F (P : Z -> Prop) m :
  as_inv k root N l F -> frame P (phys k) m ->
  (forall p, P p -> (p ∉ l) /\ ~ owns N F p) ->
  as_inv (set_phys (fun _ => m) k) root N l F /\ forall v, leaf_pte m N v = leaf_pte (phys k) N v.
Proof.
  intros A HF HP. split.
  - eapply as_inv_other; [exact A|exact HF| |].
    + eapply (kmem_inv_frame _ k); [done|exact HF| |apply A]. intros pa Hpa Hp. destruct (HP pa Hp) as [Hn _]. by apply Hn.
    + intros p Hp. split; [intros H; destruct (HP p H) as [_ Hn]; by apply Hn|by eapply owns_not_free].
  - intros v. eapply leaf_pte_frame; [exact HF| |apply A]. intros kk t Ht Hp.
    destruct (HP t Hp) as [_ Hn]. apply Hn. left. by eexists.
Qed.

(** [len] bytes from [dst] on are replaced by [f]. *)
Definition copied (m m' : gmap Z Z) (dst len : Z) (f : Z -> Z) : Prop :=
  forall x, mget m' x = if decide (dst <= x < dst + len) then f (x - dst) else mget m x.

Lemma copied_trans m1 m2 m3 dst n len f f2 :
  0 <= n <= len -> copied m1 m2 dst n f -> copied m2 m3 (dst + n) (len - n) f2 ->
  (forall i, 0 <= i < len - n -> f2 i = f (n + i)) -> copied m1 m3 dst len f.
Proof.
  intros Hn H1 H2 Hf x. rewrite H2, H1. repeat case_decide; try lia; try done.
  rewrite Hf by lia. f_equal. lia.
Qed.

Lemma uaddr_page k root N l F va :
  as_inv k root N l F -> is_Some (F !! vpn va) -> F !! vpn va = Some (page_of (uaddr F va)).
Proof.
  intros A [pa Hpa]. unfold uaddr. rewrite Hpa. simpl. f_equal. symmetry.
  apply page_of_unique; [exact (as_frame_aligned _ _ _ _ _ _ _ A Hpa)|].
  pose proof (Z.mod_pos_bound va PGSIZE ltac:(pg)). lia.
Qed.

Lemma copyin_loop_0 fuel pt dst va : copyin_loop fuel pt dst va 0 = mret 0.
Proof. by destruct fuel. Qed.

Lemma copyin_loop_wp fuel s root N l F dst srcva len :
  as_inv (ps_km s) root N l F -> 0 <= srcva -> 0 <= len -> srcva + len < 2 ^ 63 ->
  accessible (ps_km s) N F PTE_V srcva len -> kbuffer N l F dst len ->
  len <= Z.of_nat fuel * PGSIZE - srcva mod PGSIZE ->
  wp (copyin_loop fuel root dst srcva len) (fun r s' => r = 0 /\ exists m, s' = with_phys s m /\
    copied (phys (ps_km s)) m dst len (fun i => mget (phys (ps_km s)) (uaddr F (srcva + i)))) s.
Proof.
  revert s dst srcva len. induction fuel as [|fuel IH]; intros s dst srcva len A Hva Hlen Hmax Hacc Hbuf Hfuel;
    cbn [copyin_loop]; destruct (Z.ltb_spec 0 len) as [Hpos|Hz]; cbn [negb].
  1: { pose proof (Z.mod_pos_bound srcva PGSIZE ltac:(pg)). lia. }
  1, 3: ps_steps; split; [done|]; exists (phys (ps_km s)); split; [by destruct s as [[] ? ? ?]|];
    intros x; rewrite decide_False by lia; done.
  destruct (chunk_spec srcva len Hva Hpos) as (Hn & Hn' & Eoff & Hnext & Hin).
  destruct (user_page_mapped s root N l F srcva PTE_V false A Hva) as [Eup Hok]; [intros i Hi; apply Hacc; lia|].
  set (pa := default 0 (F !! vpn srcva)) in *. pose proof (page_ok_range _ Hok). pose proof (page_ok_pos _ Hok).
  destruct Hbuf as (Hd0 & Hd1 & Hbuf).
  apply wp_bind. eapply wp_intro; [exact Eup|]. destruct (Z.eqb_spec pa 0); [lia|]. cbv zeta.
  fold (chunk srcva len). rewrite Eoff. set (n1 := chunk srcva len) in *.
  pose proof (Z.mod_pos_bound srcva PGSIZE ltac:(pg)) as Hmod.
  assert (w64 (pa + srcva mod PGSIZE) = uaddr F srcva) as ->.
  { change (uaddr F srcva) with (pa + srcva mod PGSIZE). apply w64_id. assert (PGSIZE = 4096) by done. lia. }
  rewrite (w64_id (dst + n1)), (w64_id (len - n1)) by lia.
  apply wp_bind, wp_on_km. km_steps. cbn [phys set_phys].
  set (m1 := memmove (phys (ps_km s)) dst (uaddr F srcva) n1).
  assert (copied (phys (ps_km s)) m1 dst n1 (fun i => mget (phys (ps_km s)) (uaddr F (srcva + i)))) as C1.
  { intros x. unfold m1. rewrite mget_memmove by lia. case_decide; [|done]. f_equal.
    rewrite (uaddr_chunk F srcva len) by (done || fold n1; lia). lia. }
  assert (frame (fun p => exists x, dst <= x < dst + n1 /\ p = page_of x) (phys (ps_km s)) m1) as HF.
  { intros x Hx. rewrite C1, decide_False; [done|]. intros Hin'. apply Hx. eauto. }
  destruct (as_inv_kbuffer (ps_km s) _ N l F _ m1 A HF) as [A1 HL].
  { intros p (x & Hx & ->). apply Hbuf. lia. }
  destruct (decide (n1 = len)) as [En|En].
  - replace (len - n1) with 0 by lia. rewrite copyin_loop_0. ps_steps. split; [done|].
    exists m1. split; [reflexivity|]. intros x. rewrite C1. by replace len with n1 by lia.
  - destruct Hnext as [?|[En2 En3]]; [done|]. rewrite En2, w64_id by lia.
    change (set_phys (fun m => memmove m dst (uaddr F srcva) n1) (ps_km s)) with (set_phys (fun _ => m1) (ps_km s)).
    fold (with_phys s m1).
    eapply wp_mono.
    { apply (IH (with_phys s m1) (dst + n1) (srcva + n1) (len - n1)); [exact A1|lia|lia|lia| | |].
      - intros i Hi. replace (srcva + n1 + i) with (srcva + (n1 + i)) by lia. cbn [with_phys ps_km phys set_phys].
        rewrite HL. apply Hacc. lia.
      - split_and!; [lia|lia|]. intros x Hx. apply Hbuf. lia.
      - rewrite En3. lia. }
    intros r s' (-> & m2 & -> & C2). split; [done|]. exists m2. split; [done|].
    eapply copied_trans; [|exact C1|exact C2|]; [lia|]. intros i Hi. cbv beta.
    replace (srcva + n1 + i) with (srcva + (n1 + i)) by lia.
    cbn [with_phys ps_km phys set_phys]. apply HF. intros (x & Hx & E).
    destruct (Hbuf x ltac:(lia)) as [_ Hno]. apply Hno. rewrite <- E. right. exists (vpn (srcva + (n1 + i))).
    apply (uaddr_page _ _ _ _ _ _ A). apply Hacc. lia.
Qed.
(** Writing to user frames keeps the page table and the free list. *)
Lemma as_inv_frames k root N l F m :
  as_inv k root N l F -> frame (fun p => exists v, F !! v = Some p) (phys k) m ->
  as_inv (set_phys (fun _ => m) k) root N l F /\ forall v, leaf_pte m N v = leaf_pte (phys k) N v.
Proof.
  intros A HF. pose proof A as [[Wp Wk Wd] Hfr Hall Hinj Hds].
  assert (forall p v, F !! v = Some p -> is_node N p -> False) as Hno by (intros p v Hv; by apply (Hds _ _ Hv)).
  assert (forall v, leaf_pte m N v = leaf_pte (phys k) N v) as HL.
  { intros v. eapply leaf_pte_frame; [exact HF| |done]. intros kk t Ht [u Hu]. apply (Hno _ _ Hu). by eexists. }
  split; [|done]. constructor; try done.
  - constructor; [| |done].
    2: { eapply (kmem_inv_frame _ k); [done|exact HF| |exact Wk]. intros pa Hpa [u Hu].
      destruct (Hds _ _ Hu) as [Hn _]. by apply Hn. }
    eapply pt_inv_frame; [exact HF| |done]. intros lv kk t _ Ht [u Hu]. apply (Hno _ _ Hu). by eexists.
  - intros v pa Hv. simpl. rewrite HL. by apply Hfr.
  - intros v Hv. simpl. rewrite HL. by apply Hall.
Qed.

Lemma copyout_loop_0 fuel pt va src : copyout_loop fuel pt va src 0 = mret 0.
Proof. by destruct fuel. Qed.

(** The check of PTE_W in copyout. *)
Lemma walk_leaf s root N l F va :
  as_inv (ps_km s) root N l F -> 0 <= va -> is_Some (F !! vpn va) ->
  exists a, on_km (walk root (PGROUNDDOWN va) false) s = Ret a s /\ a <> 0 /\
    load64 (phys (ps_km s)) a = leaf_pte (phys (ps_km s)) N (vpn va).
Proof.
  intros A Hva [pa Hpa]. destruct (as_frame _ _ _ _ _ A _ _ Hpa) as (Hv & HV & _).
  destruct (rounddown_page va Hva) as (Hal & H0 & Ev).
  assert (PGROUNDDOWN va < TRAPFRAME) by (apply vpn_lt_uvpn; [done|lia]).
  exists (leaf_ptr N (vpn va)). split.
  - unfold on_km, zoom. rewrite (walk_noalloc _ _ _ N) by (apply A || (split; [done|pg])). rewrite Ev. by destruct s.
  - destruct (leaf_ptr_cases (phys (ps_km s)) root N (vpn va)) as [(_ & _ & E)|(b & -> & Hb & _ & E)]; [apply A| |].
    + rewrite E in HV. done.
    + split; [lia|done].
Qed.

Lemma copyout_readonly_run fuel s root N l F dstva src len :
  as_inv (ps_km s) root N l F -> 0 <= dstva -> 0 < len -> accessible (ps_km s) N F PTE_V dstva 1 ->
  has (leaf_pte (phys (ps_km s)) N (vpn dstva)) PTE_W = false ->
  copyout_loop (S fuel) root dstva src len s = Ret (-1) s.
Proof.
  intros A Hva Hlen Hacc HW. cbn [copyout_loop]. destruct (Z.ltb_spec 0 len); [|lia]. cbn [negb].
  destruct (user_page_mapped s root N l F dstva PTE_V true A Hva Hacc) as [Eup Hok].
  rewrite (bind_ok _ _ _ _ _ Eup). pose proof (page_ok_pos _ Hok).
  destruct (Z.eqb_spec (default 0 (F !! vpn dstva)) 0); [lia|].
  destruct (walk_leaf s root N l F dstva A Hva) as (a & Ew & Ha & El).
  { destruct (Hacc 0 ltac:(lia)) as [H' _]. by rewrite Z.add_0_r in H'. }
  rewrite (bind_ok _ _ _ _ _ Ew). destruct (Z.eqb_spec a 0); [done|].
  rewrite (bind_ok (on_km (ld64 a)) _ s (load64 (phys (ps_km s)) a) s) by (by destruct s).
  by rewrite El, HW.
Qed.

(** The user range [va .. va + len - 1] has been overwritten by [f]. *)
Definition stored (F : gmap Z Z) (m m' : gmap Z Z) (va len : Z) (f : Z -> Z) : Prop :=
  (forall i, 0 <= i < len -> mget m' (uaddr F (va + i)) = f i) /\
  (forall x, (forall i, 0 <= i < len -> x <> uaddr F (va + i)) -> mget m' x = mget m x).

Lemma uaddr_inj k root N l F va1 va2 :
  as_inv k root N l F -> is_Some (F !! vpn va1) -> is_Some (F !! vpn va2) ->
  uaddr F va1 = uaddr F va2 -> va1 = va2.
Proof.
  intros A H1 H2 E. pose proof (uaddr_page _ _ _ _ _ _ A H1) as P1. pose proof (uaddr_page _ _ _ _ _ _ A H2) as P2.
  rewrite <- E in P2. pose proof (as_inj _ _ _ _ _ A _ _ _ P1 P2) as Ev. unfold uaddr in E. rewrite Ev in E.
  unfold vpn in Ev. pose proof (Z.div_mod va1 PGSIZE ltac:(pg)). pose proof (Z.div_mod va2 PGSIZE ltac:(pg)). lia.
Qed.

Lemma stored_trans k root N l F m1 m2 m3 va n len f :
  as_inv k root N l F -> (forall i, 0 <= i < len -> is_Some (F !! vpn (va + i))) -> 0 <= n <= len ->
  stored F m1 m2 va n f -> stored F m2 m3 (va + n) (len - n) (fun i => f (n + i)) -> stored F m1 m3 va len f.
Proof.
  intros A Hm Hn [S1 K1] [S2 K2]. split.
  - intros i Hi. destruct (decide (i < n)).
    + rewrite K2; [apply S1; lia|]. intros j Hj E.
      replace (va + n + j) with (va + (n + j)) in E by lia.
      apply (uaddr_inj _ _ _ _ _ _ _ A) in E; [lia|apply Hm; lia|apply Hm; lia].
    + replace (va + i) with (va + n + (i - n)) by lia. rewrite S2 by lia. f_equal. lia.
  - intros x Hx. rewrite K2, K1; [done| |].
    + intros i Hi. apply Hx. lia.
    + intros i Hi. replace (va + n + i) with (va + (n + i)) by lia. apply Hx. lia.
Qed.
Lemma copyout_loop_wp fuel s root N l F dstva src len :
  as_inv (ps_km s) root N l F -> 0 <= dstva -> 0 <= len -> dstva + len < 2 ^ 63 ->
  accessible (ps_km s) N F PTE_W dstva len -> kbuffer N l F src len ->
  len <= Z.of_nat fuel * PGSIZE - dstva mod PGSIZE ->
  wp (copyout_loop fuel root dstva src len) (fun r s' => r = 0 /\ exists m, s' = with_phys s m /\
    stored F (phys (ps_km s)) m dstva len (fun i => mget (phys (ps_km s)) (src + i))) s.
Proof.
  revert s dstva src len. induction fuel as [|fuel IH]; intros s dstva src len A Hva Hlen Hmax Hacc Hbuf Hfuel;
    cbn [copyout_loop]; destruct (Z.ltb_spec 0 len) as [Hpos|Hz]; cbn [negb];
    pose proof (Z.mod_pos_bound dstva PGSIZE ltac:(pg)) as Hmod.
  1: lia.
  1, 3: ps_steps; split; [done|]; exists (phys (ps_km s)); split; [by destruct s as [[] ? ? ?]|];
    split; [intros i Hi; lia|done].
  destruct (chunk_spec dstva len Hva Hpos) as (Hn & Hn' & Eoff & Hnext & Hin).
  assert (forall i, 0 <= i < len -> is_Some (F !! vpn (dstva + i))) as Hsome by (intros i Hi; by apply Hacc).
  destruct (user_page_mapped s root N l F dstva PTE_W true A Hva) as [Eup Hok]; [intros i Hi; apply Hacc; lia|].
  destruct (walk_leaf s root N l F dstva A Hva) as (a & Ew & Ha & El).
  { specialize (Hsome 0 ltac:(lia)). by rewrite Z.add_0_r in Hsome. }
  assert (has (leaf_pte (phys (ps_km s)) N (vpn dstva)) PTE_W = true) as HW.
  { destruct (Hacc 0 ltac:(lia)) as (_ & _ & H). by rewrite Z.add_0_r in H. }
  set (pa := default 0 (F !! vpn dstva)) in *. pose proof (page_ok_range _ Hok). pose proof (page_ok_pos _ Hok).
  destruct Hbuf as (Hd0 & Hd1 & Hbuf).
  apply wp_bind. eapply wp_intro; [exact Eup|]. destruct (Z.eqb_spec pa 0); [lia|]. cbv zeta.
  apply wp_bind. eapply wp_intro; [exact Ew|]. destruct (Z.eqb_spec a 0); [done|].
  apply wp_bind, wp_on_km. km_steps. rewrite El, HW. cbn [negb].
  fold (chunk dstva len). rewrite Eoff. set (n1 := chunk dstva len) in *.
  assert (w64 (pa + dstva mod PGSIZE) = uaddr F dstva) as ->.
  { change (uaddr F dstva) with (pa + dstva mod PGSIZE). apply w64_id. assert (PGSIZE = 4096) by done. lia. }
  rewrite (w64_id (src + n1)), (w64_id (len - n1)) by lia.
  apply wp_bind, wp_on_km. km_steps. cbn [phys set_phys ps_km].
  set (m1 := memmove (phys (ps_km s)) (uaddr F dstva) src n1).
  assert (stored F (phys (ps_km s)) m1 dstva n1 (fun i => mget (phys (ps_km s)) (src + i))) as C1.
  { split.
    - intros i Hi. unfold m1. rewrite mget_memmove, (uaddr_chunk F dstva len), decide_True by (done || fold n1; lia).
      f_equal. lia.
    - intros x Hx. unfold m1. rewrite mget_memmove, decide_False; [done| |lia]. intros Hr.
      apply (Hx (x - uaddr F dstva)); [lia|]. rewrite (uaddr_chunk F dstva len) by (done || fold n1; lia). lia. }
  assert (frame (fun p => exists v, F !! v = Some p) (phys (ps_km s)) m1) as HF.
  { intros x Hx. apply C1. intros i Hi ->. apply Hx. exists (vpn (dstva + i)).
    apply (uaddr_page _ _ _ _ _ _ A), Hsome. lia. }
  destruct (as_inv_frames (ps_km s) _ N l F m1 A HF) as [A1 HL].
  change (PState (set_phys (fun m => memmove m (uaddr F dstva) src n1) (ps_km s)) (ps_proc s) (ps_fs s) (ps_out s))
    with (with_phys s m1).
  destruct (decide (n1 = len)) as [En|En].
  - replace (len - n1) with 0 by lia. rewrite copyout_loop_0. ps_steps. split; [done|].
    exists m1. split; [reflexivity|]. by rewrite En in C1.
  - destruct Hnext as [?|[En2 En3]]; [done|]. rewrite En2, w64_id by lia.
    eapply wp_mono.
    { apply (IH (with_phys s m1) (dstva + n1) (src + n1) (len - n1)); [exact A1|lia|lia|lia| | |].
      - intros i Hi. replace (dstva + n1 + i) with (dstva + (n1 + i)) by lia. cbn [with_phys ps_km phys set_phys].
        rewrite HL. apply Hacc. lia.
      - split_and!; [lia|lia|]. intros x Hx. apply Hbuf. lia.
      - rewrite En3. lia. }
    intros r s' (-> & m2 & -> & C2). split; [done|]. exists m2. split; [done|].
    eapply (stored_trans _ _ _ _ _ _ _ _ _ _ _ _ A Hsome); [|exact C1|]; [lia|].
    destruct C2 as [C2 K2]. split; [|exact K2]. intros i Hi. rewrite C2 by done.
    replace (src + n1 + i) with (src + (n1 + i)) by lia. apply HF. intros [v Hv].
    destruct (Hbuf (src + (n1 + i)) ltac:(lia)) as [_ Hno]. apply Hno. right. by exists v.
Qed.
End usercopy.

Section copy.
Context {KL : KernelLayout} {FS : FsOps}.

Lemma copy_fuel va len : 0 <= va -> 0 <= len -> len <= Z.of_nat (Z.to_nat (len / PGSIZE + 2)) * PGSIZE - va mod PGSIZE.
Proof.
  intros Hv Hl. pose proof (Z.mod_pos_bound va PGSIZE ltac:(pg)). pose proof (Z.div_mod len PGSIZE ltac:(pg)).
  pose proof (Z.mod_pos_bound len PGSIZE ltac:(pg)). assert (0 <= len / PGSIZE) by (apply Z.div_pos; pg).
  rewrite Z2Nat.id by lia. lia.
Qed.

(** C33.  Copying a kernel buffer out to a range of user memory that is
    mapped and writable, and copying that range back in to a second buffer,
    both succeed: the loops over pages end within their bound, the second
    buffer then holds the bytes of the first, and no byte of memory changes
    outside of the second buffer and the user range. *)
Theorem copyout_copyin_roundtrip (s : pstate) N l F va src dst len :
  as_inv (ps_km s) (proot s) N l F -> 0 <= va -> 0 <= len -> va + len < 2 ^ 63 ->
  accessible (ps_km s) N F PTE_W va len -> accessible (ps_km s) N F PTE_V va len ->
  kbuffer N l F src len -> kbuffer N l F dst len ->
  wp (r ← copyout (proot s) va src len; if r =? 0 then copyin (proot s) dst va len else mret (-1)) (fun r s' => r = 0 /\
    (forall i, 0 <= i < len -> mget (phys (ps_km s')) (dst + i) = mget (phys (ps_km s)) (src + i)) /\
    (forall x, ~ (dst <= x < dst + len) -> (forall i, 0 <= i < len -> x <> uaddr F (va + i)) ->
       mget (phys (ps_km s')) x = mget (phys (ps_km s)) x)) s.
Proof.
  intros A Hva Hlen Hmax HW HV Hsrc Hdst. eapply wp_call.
  { apply (copyout_loop_wp _ s _ N l F); [done|done|done|done|done|done|by apply copy_fuel]. }
  intros r s1 (-> & m1 & -> & S1 & K1). cbn [Z.eqb].
  assert (forall i, 0 <= i < len -> is_Some (F !! vpn (va + i))) as Hsome by (intros i Hi; by apply HW).
  assert (frame (fun p => exists v, F !! v = Some p) (phys (ps_km s)) m1) as HF.
  { intros x Hx. apply K1. intros i Hi ->. apply Hx. exists (vpn (va + i)). apply (uaddr_page _ _ _ _ _ _ A), Hsome, Hi. }
  destruct (as_inv_frames (ps_km s) _ N l F m1 A HF) as [A1 HL].
  eapply wp_mono; [apply (copyin_loop_wp _ (with_phys s m1) _ N l F); [exact A1|done|done|done| |done|by apply copy_fuel]|].
  { intros i Hi. cbn [with_phys ps_km phys set_phys]. rewrite HL. by apply HV. }
  intros r s2 (-> & m2 & -> & C2). split; [done|]. cbn [with_phys ps_km phys set_phys] in *. split.
  - intros i Hi. rewrite C2, decide_True by lia. replace (dst + i - dst) with i by lia. by apply S1.
  - intros x Hx Hu. rewrite C2, decide_False by done. by apply K1.
Qed.
End copy.

(** *** A process with two writable pages; the buffers are in kernel data *)

Definition copy_km : kmem := end_state km_zero (uvmalloc pt1 0 (2 * PGSIZE) PTE_W km1).
Definition copy_ps : pstate := PState copy_km demo_proc demo_file [].

Lemma kernel_data_buffer k root N l F a len :
  as_inv k root N l F -> 0 <= a -> 0 <= len -> a + len <= kend -> kbuffer N l F a len.
Proof.
  intros A Ha Hl He. pose proof kend_range. assert (PHYSTOP < 2 ^ 32) by (by vm_compute). split_and!; [lia|pg|]. intros x Hx.
  assert (~ page_ok (page_of x)) as Hn.
  { intros [_ [Hk _]]. unfold page_of in Hk. pose proof (Z.div_mod x PGSIZE ltac:(pg)). pose proof (Z.mod_pos_bound x PGSIZE ltac:(pg)). lia. }
  split.
  - intros Hin. apply Hn. destruct A as [[_ [Hf _] _] _ _ _ _]. by eapply is_freelist_ok.
  - intros Ho. apply Hn. by eapply owns_page_ok.
Qed.

Lemma copy_demo : exists N l F, as_inv copy_km pt1 N l F /\
  (forall flag, flag = PTE_V \/ flag = PTE_W -> accessible copy_km N F flag 0 (2 * PGSIZE)).
Proof.
  destruct km1_empty as [A _].
  pose proof (end_wp _ _ _ km_zero 0 (uvmalloc_wp km1 pt1 N1 free1 ∅ 0 (2 * PGSIZE) PTE_W A
    ltac:(lia) ltac:(pg) ltac:(by vm_compute) ltac:(done) ltac:(pg))) as W.
  destruct W as [(_ & N & l & F & A' & _ & E & _)|(E & _)]; [|exfalso; revert E; vm_compute; discriminate].
  exists N, l, F. split; [exact A'|]. intros flag Hf i Hi.
  assert (0 <= vpn (0 + i) < 2) as Hv.
  { unfold vpn. split; [apply Z.div_pos; pg|]. apply Z.div_lt_upper_bound; pg. }
  destruct (E (vpn (0 + i))) as (pa & Hpa & _ & Hpte); [change (vpn_up 0) with 0; change (vpn_up (2 * PGSIZE)) with 2; lia|].
  split; [by rewrite Hpa|]. destruct (as_frame _ _ _ _ _ A' _ _ Hpa) as (_ & _ & _ & Hok).
  pose proof (page_ok_range _ Hok) as Hr. pose proof (page_ok_aligned _ Hok) as Hal. fold copy_km in Hpte. rewrite Hpte.
  destruct (mapped_pte_spec pa (Z.lor (Z.lor PTE_R PTE_U) PTE_W)) as (_ & HV & _ & Hfl); [done|done|by vm_compute|].
  assert (forall f, f = PTE_V \/ f = PTE_W \/ f = PTE_U -> has (mapped_pte pa (Z.lor (Z.lor PTE_R PTE_U) PTE_W)) f = true) as Hf'.
  { intros f Hx. rewrite has_flags, Hfl by (destruct Hx as [->|[->| ->]]; by vm_compute). destruct Hx as [->|[->| ->]]; by vm_compute. }
  split; apply Hf'; tauto.
Qed.

Lemma copyout_copyin_roundtrip_witness : exists F,
  wp (r ← copyout (proot copy_ps) 4090 KERNBASE 12; if r =? 0 then copyin (proot copy_ps) (KERNBASE + 64) 4090 12 else mret (-1))
    (fun r s' => r = 0 /\
      (forall i, 0 <= i < 12 -> mget (phys (ps_km s')) (KERNBASE + 64 + i) = mget (phys copy_km) (KERNBASE + i)) /\
      (forall x, ~ (KERNBASE + 64 <= x < KERNBASE + 64 + 12) -> (forall i, 0 <= i < 12 -> x <> uaddr F (4090 + i)) ->
         mget (phys (ps_km s')) x = mget (phys copy_km) x)) copy_ps.
Proof.
  destruct copy_demo as (N & l & F & A & Hacc). exists F.
  apply (copyout_copyin_roundtrip copy_ps N l F 4090 KERNBASE (KERNBASE + 64) 12);
    [exact A|lia|lia|lia|(eapply accessible_sub; [apply Hacc; by auto|lia|by vm_compute])..|idtac|idtac];
    (eapply kernel_data_buffer; [exact A|by vm_compute|lia|by vm_compute]).
Defined.
