(* ===== verification/Block.v ===== *)
(** * Disk blocks

    The 1024 bytes of a disk block, with the little-endian 16- and 32-bit
    fields that the log header, the dinodes, the indirect blocks and the
    directory entries consist of (kernel/fs.h). *)
From S2P Require Import Prelude.
From stdpp Require Import base tactics numbers list gmap.
From Stdlib Require Import ZArith Lia.

Open Scope Z_scope.

Definition BSIZE : Z := 1024.

Abbreviation block := (list Z) (only parsing).
Definition zero_block : block := replicate (Z.to_nat BSIZE) 0.

(** [n] bytes from offset [off] on, and overwriting bytes there. *)
Definition get_bytes (b : block) (off n : Z) : list Z := take (Z.to_nat n) (drop (Z.to_nat off) b).
Definition set_bytes (b : block) (off : Z) (l : list Z) : block :=
  take (Z.to_nat off) b ++ l ++ drop (Z.to_nat off + length l) b.

(** Little-endian values. *)
Fixpoint le_value (l : list Z) : Z :=
  match l with [] => 0 | x :: l => x + 256 * le_value l end.
Fixpoint le_bytes (n : nat) (v : Z) : list Z :=
  match n with O => [] | S n => v mod 256 :: le_bytes n (v / 256) end.

Definition u16_at (b : block) (off : Z) : Z := le_value (get_bytes b off 2).
Definition u32_at (b : block) (off : Z) : Z := le_value (get_bytes b off 4).
Definition set_u16 (b : block) (off v : Z) : block := set_bytes b off (le_bytes 2 v).
Definition set_u32 (b : block) (off v : Z) : block := set_bytes b off (le_bytes 4 v).

Lemma le_bytes_length n v : length (le_bytes n v) = n.
Proof. revert v. induction n as [|n IH]; intros v; simpl; [done|]. by rewrite IH. Qed.

Lemma le_value_bytes n v : le_value (le_bytes n v) = v mod 256 ^ Z.of_nat n.
Proof.
  revert v. induction n as [|n IH]; intros v; [by rewrite Z.mod_1_r|].
  cbn [le_bytes le_value]. rewrite IH.
  replace (256 ^ Z.of_nat (S n)) with (256 * 256 ^ Z.of_nat n) by (rewrite Nat2Z.inj_succ, Z.pow_succ_r; lia).
  rewrite Z.rem_mul_r by lia. done.
Qed.

Lemma set_bytes_length b off l :
  0 <= off -> off + Z.of_nat (length l) <= Z.of_nat (length b) -> length (set_bytes b off l) = length b.
Proof. intros H0 H. unfold set_bytes. rewrite !length_app, length_take, length_drop. lia. Qed.

Lemma get_set_bytes_eq b off l :
  0 <= off -> off + Z.of_nat (length l) <= Z.of_nat (length b) ->
  get_bytes (set_bytes b off l) off (Z.of_nat (length l)) = l.
Proof.
  intros H0 H. unfold get_bytes, set_bytes.
  rewrite drop_app_length' by (rewrite length_take; lia).
  by rewrite take_app_length' by lia.
Qed.

Lemma get_bytes_lookup b off n i :
  0 <= off -> 0 <= n -> get_bytes b off n !! i = if decide (Z.of_nat i < n) then b !! (Z.to_nat off + i)%nat else None.
Proof.
  intros H0 Hn. unfold get_bytes. case_decide.
  - rewrite lookup_take_lt by lia. by rewrite lookup_drop.
  - apply lookup_take_ge. lia.
Qed.

Lemma set_bytes_lookup b off l i :
  0 <= off -> off + Z.of_nat (length l) <= Z.of_nat (length b) ->
  set_bytes b off l !! i =
  if decide (off <= Z.of_nat i < off + Z.of_nat (length l)) then l !! (i - Z.to_nat off)%nat else b !! i.
Proof.
  intros H0 H. unfold set_bytes. case_decide as E.
  - rewrite lookup_app_r by (rewrite length_take; lia). rewrite length_take.
    rewrite lookup_app_l by lia. f_equal. lia.
  - destruct (decide (i < Z.to_nat off)%nat).
    + rewrite lookup_app_l by (rewrite length_take; lia). apply lookup_take_lt. lia.
    + rewrite lookup_app_r by (rewrite length_take; lia). rewrite length_take.
      rewrite lookup_app_r by lia. rewrite lookup_drop. f_equal. lia.
Qed.

(** Reading bytes that a write did not touch. *)
Lemma get_set_bytes_ne b off l off' n :
  0 <= off -> off + Z.of_nat (length l) <= Z.of_nat (length b) -> 0 <= off' -> 0 <= n ->
  off' + n <= off \/ off + Z.of_nat (length l) <= off' ->
  get_bytes (set_bytes b off l) off' n = get_bytes b off' n.
Proof.
  intros H0 H H1 Hn Hd. apply list_eq. intros i. rewrite !get_bytes_lookup by done.
  case_decide; [|done]. rewrite set_bytes_lookup by done. rewrite decide_False by lia. done.
Qed.

Lemma u32_set_eq b off v :
  0 <= off -> off + 4 <= Z.of_nat (length b) -> u32_at (set_u32 b off v) off = w32 v.
Proof.
  intros H0 H. unfold u32_at, set_u32.
  replace 4 with (Z.of_nat (length (le_bytes 4 v))) at 2 by (by rewrite le_bytes_length).
  rewrite get_set_bytes_eq by (rewrite ?le_bytes_length; lia). by rewrite le_value_bytes.
Qed.

Lemma u32_set_ne b off off' v :
  0 <= off -> off + 4 <= Z.of_nat (length b) -> 0 <= off' -> off' + 4 <= off \/ off + 4 <= off' ->
  u32_at (set_u32 b off v) off' = u32_at b off'.
Proof.
  intros H0 H H1 Hd. unfold u32_at, set_u32. rewrite get_set_bytes_ne; rewrite ?le_bytes_length; (done || lia).
Qed.

Lemma set_u32_length b off v :
  0 <= off -> off + 4 <= Z.of_nat (length b) -> length (set_u32 b off v) = length b.
Proof. intros H0 H. apply set_bytes_length; rewrite ?le_bytes_length; lia. Qed.

(** 16-bit fields. *)
Lemma u16_set_eq b off v :
  0 <= off -> off + 2 <= Z.of_nat (length b) -> u16_at (set_u16 b off v) off = w16 v.
Proof.
  intros H0 H. unfold u16_at, set_u16.
  replace 2 with (Z.of_nat (length (le_bytes 2 v))) at 2 by (by rewrite le_bytes_length).
  rewrite get_set_bytes_eq by (rewrite ?le_bytes_length; lia). by rewrite le_value_bytes.
Qed.

Lemma set_u16_length b off v :
  0 <= off -> off + 2 <= Z.of_nat (length b) -> length (set_u16 b off v) = length b.
Proof. intros H0 H. apply set_bytes_length; rewrite ?le_bytes_length; lia. Qed.

(** Reading inside a written range. *)
Lemma get_set_bytes_in b off l k n :
  0 <= off -> off + Z.of_nat (length l) <= Z.of_nat (length b) -> 0 <= k -> 0 <= n -> k + n <= Z.of_nat (length l) ->
  get_bytes (set_bytes b off l) (off + k) n = get_bytes l k n.
Proof.
  intros H0 H Hk Hn Hb. apply list_eq. intros i. rewrite !get_bytes_lookup by lia.
  case_decide; [|done]. rewrite set_bytes_lookup by lia. rewrite decide_True by lia. f_equal. lia.
Qed.

(** An array of 32-bit values. *)
Definition le_array (l : list Z) : list Z := mjoin (le_bytes 4 <$> l).

Lemma le_array_length l : length (le_array l) = (4 * length l)%nat.
Proof.
  induction l as [|x l IH]; [done|]. change (le_array (x :: l)) with (le_bytes 4 x ++ le_array l).
  rewrite length_app, le_bytes_length, IH. cbn [length]. lia.
Qed.

Lemma le_array_get l i x : l !! i = Some x -> get_bytes (le_array l) (4 * Z.of_nat i) 4 = le_bytes 4 x.
Proof.
  revert i. induction l as [|y l IH]; intros i; [done|]. destruct i as [|i].
  - intros [= ->]. done.
  - cbn [lookup list_lookup]. intros E. rewrite <- (IH i E).
    change (le_array (y :: l)) with (le_bytes 4 y ++ le_array l). unfold get_bytes. f_equal.
    replace (Z.to_nat (4 * Z.of_nat (S i))) with (length (le_bytes 4 y) + Z.to_nat (4 * Z.of_nat i))%nat by (rewrite le_bytes_length; lia).
    apply drop_app_add.
Qed.
