(* ===== verification/Bio.v ===== *)
(** * Buffer cache (kernel/bio.c, kernel/buf.h)

    NBUF buffers on a doubly linked ring, most recently used first, with the
    ring's head as one more buffer structure.  The disk is a map from block
    numbers to blocks; [virtio_disk_rw] is one atomic transfer of a block, and
    every block written is also appended to [bs_writes], which the crash-safety
    theorems of the log look at.

    A buffer's sleep lock is its [b_lock] bit; a call that would wait for a
    lock that no other thread is going to release does not return
    ([blocked]). *)
From stdpp Require Import base tactics numbers list strings gmap.
From Stdlib Require Import ZArith Lia.
From S2P Require Import Prelude Block.

Open Scope Z_scope.

Definition MAXOPBLOCKS : Z := 10.
Definition LOGBLOCKS : Z := MAXOPBLOCKS * 3.
Definition NBUF : Z := MAXOPBLOCKS * 3.
Definition ROOTDEV : Z := 1.

(** struct buf; [b_prev] and [b_next] are indices into the buffer array, with
    [HEAD] for the list head. *)
Record buf := Buf {
  b_valid : Z;
  b_dev : Z;
  b_blockno : Z;
  b_lock : bool;
  b_refcnt : Z;
  b_prev : Z;
  b_next : Z;
  b_data : block
}.

Definition HEAD : Z := NBUF.
Definition buf_zero : buf := Buf 0 0 0 false 0 0 0 zero_block.

(** The buffers 0 .. NBUF-1 and the head, the disk, and the blocks written. *)
Record bstate := BState {
  bs_buf : list buf;
  bs_disk : gmap Z block;
  bs_writes : list (Z * block)
}.

Definition getb (s : bstate) (i : Z) : buf := nth (Z.to_nat i) (bs_buf s) buf_zero.
Definition updb (i : Z) (f : buf -> buf) (s : bstate) : bstate :=
  BState (<[Z.to_nat i := f (getb s i)]> (bs_buf s)) (bs_disk s) (bs_writes s).
Definition disk_block (d : gmap Z block) (b : Z) : block := default zero_block (d !! b).

Definition set_prev x b := Buf (b_valid b) (b_dev b) (b_blockno b) (b_lock b) (b_refcnt b) x (b_next b) (b_data b).
Definition set_next x b := Buf (b_valid b) (b_dev b) (b_blockno b) (b_lock b) (b_refcnt b) (b_prev b) x (b_data b).
Definition set_block_lock x b := Buf (b_valid b) (b_dev b) (b_blockno b) x (b_refcnt b) (b_prev b) (b_next b) (b_data b).
Definition set_refcnt x b := Buf (b_valid b) (b_dev b) (b_blockno b) (b_lock b) x (b_prev b) (b_next b) (b_data b).
Definition set_bdata x b := Buf (b_valid b) (b_dev b) (b_blockno b) (b_lock b) (b_refcnt b) (b_prev b) (b_next b) x.
Definition set_valid x b := Buf x (b_dev b) (b_blockno b) (b_lock b) (b_refcnt b) (b_prev b) (b_next b) (b_data b).
Definition set_tag d n b := Buf 0 d n (b_lock b) 1 (b_prev b) (b_next b) (b_data b).

Definition blocked {S A} : M S A := nofuel.

(** The body of binit's loop: link buffer [b] in after the head. *)
Definition link_front (b : Z) (s : bstate) : bstate :=
  let first := b_next (getb s HEAD) in
  let s := updb b (set_next first) s in
  let s := updb b (set_prev HEAD) s in
  let s := updb first (set_prev b) s in
  updb HEAD (set_next b) s.

Fixpoint binit_loop (n : nat) (b : Z) (s : bstate) : bstate :=
  match n with
  | O => s
  | S n => binit_loop n (b + 1) (link_front b s)
  end.

Definition binit (s : bstate) : bstate :=
  let s := updb HEAD (set_prev HEAD) s in
  let s := updb HEAD (set_next HEAD) s in
  binit_loop (Z.to_nat NBUF) 0 s.

(** [for(b = bcache.head.next; b != &bcache.head; b = b->next)]: the first
    buffer that satisfies [p], following [step]. *)
Fixpoint scan (fuel : nat) (step : buf -> Z) (p : buf -> bool) (s : bstate) (b : Z) : res bstate (option Z) :=
  if b =? HEAD then Ret None s
  else
    match fuel with
    | O => NoFuel
    | S fuel => if p (getb s b) then Ret (Some b) s else scan fuel step p s (step (getb s b))
    end.
Definition scan_fuel : nat := Z.to_nat (NBUF + 1).

Definition acquiresleep_buf (b : Z) : M bstate unit := fun s =>
  if b_lock (getb s b) then NoFuel else Ret () (updb b (set_block_lock true) s).

Definition bget (dev blockno : Z) : M bstate Z :=
  r ← (fun s => scan scan_fuel b_next (fun x => (b_dev x =? dev) && (b_blockno x =? blockno)) s (b_next (getb s HEAD)));
  match r with
  | Some b =>
      modify (updb b (fun x => set_refcnt (w32 (b_refcnt x + 1)) x));;
      acquiresleep_buf b;;
      mret b
  | None =>
      r ← (fun s => scan scan_fuel b_prev (fun x => b_refcnt x =? 0) s (b_prev (getb s HEAD)));
      match r with
      | Some b =>
          modify (updb b (set_tag dev blockno));;
          acquiresleep_buf b;;
          mret b
      | None => panic "bget: no buffers"
      end
  end.

(** One transfer between a buffer and the disk. *)
Definition virtio_disk_rw (b : Z) (write : bool) : M bstate unit := modify (fun s =>
  let n := b_blockno (getb s b) in
  if write
  then BState (bs_buf s) (<[n := b_data (getb s b)]> (bs_disk s)) (bs_writes s ++ [(n, b_data (getb s b))])
  else updb b (set_bdata (disk_block (bs_disk s) n)) s).

Definition bread (dev blockno : Z) : M bstate Z :=
  b ← bget dev blockno;
  v ← gets (fun s => b_valid (getb s b));
  (when v =? 0 do (virtio_disk_rw b false;; modify (updb b (set_valid 1))));;
  mret b.

Definition bwrite (b : Z) : M bstate unit :=
  held ← gets (fun s => b_lock (getb s b));
  if negb held then panic "bwrite" else virtio_disk_rw b true.

(** Unlink [b] and link it in after the head. *)
Definition move_front (b : Z) (s : bstate) : bstate :=
  let s := updb (b_next (getb s b)) (set_prev (b_prev (getb s b))) s in
  let s := updb (b_prev (getb s b)) (set_next (b_next (getb s b))) s in
  link_front b s.

Definition brelse (b : Z) : M bstate unit :=
  held ← gets (fun s => b_lock (getb s b));
  if negb held then panic "brelse"
  else
    modify (updb b (set_block_lock false));;
    modify (updb b (fun x => set_refcnt (w32 (b_refcnt x - 1)) x));;
    r ← gets (fun s => b_refcnt (getb s b));
    when r =? 0 do modify (move_front b).

Definition bpin (b : Z) : M bstate unit :=
  modify (updb b (fun x => set_refcnt (w32 (b_refcnt x + 1)) x)).
Definition bunpin (b : Z) : M bstate unit :=
  modify (updb b (fun x => set_refcnt (w32 (b_refcnt x - 1)) x)).

(** The users' accesses to [b->data]. *)
Definition bdata (b : Z) : M bstate block := gets (fun s => b_data (getb s b)).
Definition bdata_set (b : Z) (f : block -> block) : M bstate unit :=
  modify (updb b (fun x => set_bdata (f (b_data x)) x)).
