(* ===== verification/BioSpec.v ===== *)
(** * The buffer cache: the LRU ring and the contents of blocks

    [seg] describes the doubly linked list; brelse moves a buffer to its
    front.  [cache_inv] says that a block is cached at most once and that an
    unused buffer holds what the disk holds, so that [bview], the content of a
    block as seen through the cache, does not change when buffers are
    recycled. *)
From stdpp Require Import base tactics numbers list strings gmap.
From Stdlib Require Import ZArith Lia.
From S2P Require Import Prelude Block Bio.

Open Scope Z_scope.

(** ** Doubly linked segments *)

Section ring.
Implicit Types nx pv : Z -> Z.

(** From [x] through [l] to [y]. *)
Fixpoint seg nx pv (x : Z) (l : list Z) (y : Z) : Prop :=
  match l with
  | [] => nx x = y /\ pv y = x
  | z :: l => nx x = z /\ pv z = x /\ seg nx pv z l y
  end.

Definition upd (f : Z -> Z) (a v : Z) (x : Z) : Z := if decide (x = a) then v else f x.

Lemma seg_ext nx pv nx' pv' x l y :
  (forall i, i ∈ x :: l -> nx' i = nx i) -> (forall i, i ∈ l ++ [y] -> pv' i = pv i) ->
  seg nx pv x l y -> seg nx' pv' x l y.
Proof.
  revert x. induction l as [|z l IH]; intros x Hn Hp; simpl.
  - intros [E1 E2]. split; [rewrite Hn by set_solver|rewrite Hp by set_solver]; done.
  - intros (E1 & E2 & E3). split_and!; [rewrite Hn by set_solver; done|rewrite Hp by set_solver; done|].
    apply IH; [|intros i Hi; apply Hp; set_solver|done]. intros i Hi. apply Hn. set_solver.
Qed.

Lemma seg_app nx pv x l1 z l2 y : seg nx pv x (l1 ++ z :: l2) y <-> seg nx pv x l1 z /\ seg nx pv z l2 y.
Proof. revert x. induction l1 as [|w l1 IH]; intros x; simpl; [tauto|]. rewrite IH. tauto. Qed.

Lemma seg_next nx pv x l y : seg nx pv x l y -> nx x ∈ l ++ [y].
Proof. destruct l; simpl; intros E; set_solver. Qed.
Lemma seg_prev nx pv x l y : seg nx pv x l y -> pv y ∈ x :: l.
Proof.
  revert x. induction l as [|z l IH]; intros x; simpl; [intros [_ ->]; set_solver|].
  intros (_ & _ & E). specialize (IH _ E). set_solver.
Qed.

(** Redirect the end of a segment from [y] to [c]. *)
Lemma seg_retarget nx pv x l y c :
  seg nx pv x l y -> NoDup (x :: l) -> c ∉ l -> seg (upd nx (pv y) c) (upd pv c (pv y)) x l c.
Proof.
  revert x. induction l as [|z l IH]; intros x; simpl.
  - intros [E1 E2] _ _. unfold upd. rewrite E2, !decide_True by done. done.
  - intros (E1 & E2 & E3) Hnd Hc. pose proof (seg_prev _ _ _ _ _ E3) as Hp.
    apply NoDup_cons in Hnd as [Hx Hnd]. split_and!.
    + unfold upd. rewrite decide_False; [done|]. intros E. apply Hx. by rewrite E.
    + unfold upd. rewrite decide_False; [done|]. intros E. apply Hc. rewrite <- E. by left.
    + apply IH; [done|done|]. intros Hin. apply Hc. by right.
Qed.

(** Unlinking [b]: its neighbours point at each other. *)
Lemma ring_unlink nx pv h o1 b o2 :
  seg nx pv h (o1 ++ b :: o2) h -> NoDup (h :: o1 ++ b :: o2) ->
  seg (upd nx (pv b) (nx b)) (upd pv (nx b) (pv b)) h (o1 ++ o2) h.
Proof.
  intros [S1 S2]%seg_app Hnd. pose proof (seg_prev _ _ _ _ _ S1) as Hp. pose proof (seg_next _ _ _ _ _ S2) as Hn.
  apply NoDup_cons in Hnd as [Hh Hnd]. apply NoDup_app in Hnd as (Hnd1 & Hd & Hnd2).
  apply NoDup_cons in Hnd2 as [Hb Hnd2].
  assert (NoDup (h :: o1)) as Hnd1' by (apply NoDup_cons; split; [set_solver|done]).
  destruct o2 as [|c o2]; simpl in S2.
  - destruct S2 as [E1 E2]. rewrite app_nil_r, E1. apply seg_retarget; [done|done|set_solver].
  - destruct S2 as (E1 & E2 & S2). rewrite E1. apply seg_app. split.
    + apply seg_retarget; [done|done|]. intros Hc. apply (Hd c Hc). set_solver.
    + apply NoDup_cons in Hnd2 as [Hc Hnd2]. eapply seg_ext; [| |exact S2].
      * intros i Hi. unfold upd. rewrite decide_False; [done|]. intros ->.
        apply elem_of_cons in Hp as [Hp|Hp]; [|by apply (Hd _ Hp); set_solver]. set_solver.
      * intros i Hi. unfold upd. rewrite decide_False; [done|]. intros ->. set_solver.
Qed.

(** Linking [b] in after the head. *)
Lemma ring_link nx pv h o b :
  seg nx pv h o h -> NoDup (h :: o) -> b ∉ h :: o ->
  seg (upd (upd nx b (nx h)) h b) (upd (upd pv b h) (nx h) b) h (b :: o) h.
Proof.
  intros S Hnd Hb. assert (b <> h) by set_solver. apply NoDup_cons in Hnd as [Hh Hnd].
  destruct o as [|c o]; simpl in S |- *.
  - destruct S as [E1 E2]. rewrite E1. unfold upd. split_and!; repeat case_decide; congruence.
  - destruct S as (E1 & E2 & S). rewrite E1. assert (b <> c) by set_solver. assert (c <> h) by set_solver.
    split_and!; [unfold upd; repeat case_decide; congruence..|]. eapply seg_ext; [| |exact S].
    + intros i Hi. unfold upd. rewrite !decide_False by set_solver. done.
    + intros i Hi. unfold upd. apply NoDup_cons in Hnd as [Hc Hnd]. rewrite !decide_False by set_solver. done.
Qed.
End ring.

(** ** The ring of buffers *)

Definition nxs (s : bstate) (i : Z) : Z := b_next (getb s i).
Definition pvs (s : bstate) (i : Z) : Z := b_prev (getb s i).

Definition isbuf (i : Z) : Prop := 0 <= i < NBUF.
Definition slot_ok (i : Z) : Prop := 0 <= i <= NBUF.

Record ring (s : bstate) (o : list Z) : Prop := {
  rg_len : length (bs_buf s) = Z.to_nat (NBUF + 1);
  rg_seg : seg (nxs s) (pvs s) HEAD o HEAD;
  rg_dup : NoDup (HEAD :: o);
  rg_all : forall i, i ∈ o <-> isbuf i
}.

Lemma getb_updb s i f j :
  length (bs_buf s) = Z.to_nat (NBUF + 1) -> slot_ok i -> 0 <= j ->
  getb (updb i f s) j = if decide (j = i) then f (getb s i) else getb s j.
Proof.
  intros Hl Hi Hj. unfold getb at 1, updb. cbn [bs_buf]. rewrite nth_lookup. unfold slot_ok in Hi.
  rewrite lookup_insert_Z by (rewrite ?Hl; lia).
  case_decide; case_decide; try congruence; [done|]. unfold getb. by rewrite nth_lookup.
Qed.

Lemma updb_length i f s : length (bs_buf (updb i f s)) = length (bs_buf s).
Proof. apply length_insert. Qed.

(** The fields of a buffer other than its links. *)
Definition payload (x : buf) := (b_valid x, b_dev x, b_blockno x, b_lock x, b_refcnt x, b_data x).
Definition same_payload (s s' : bstate) : Prop :=
  (forall i, 0 <= i -> payload (getb s' i) = payload (getb s i)) /\
  bs_disk s' = bs_disk s /\ bs_writes s' = bs_writes s.

(** An update that keeps the links keeps the ring. *)
Lemma ring_updb s o i f :
  ring s o -> slot_ok i -> (forall x, b_next (f x) = b_next x /\ b_prev (f x) = b_prev x) -> ring (updb i f s) o.
Proof.
  intros [Hl Hs Hd Ha] Hi Hf. constructor; [by rewrite updb_length| |done|done].
  assert (forall j, j = HEAD \/ j ∈ o -> 0 <= j) as H0.
  { intros j [->|Hj]; [done|]. apply Ha in Hj. apply Hj. }
  eapply seg_ext; [| |exact Hs]; intros j Hj; unfold nxs, pvs; rewrite getb_updb by (done || apply H0; set_solver);
    (case_decide; [subst; apply Hf|done]).
Qed.

Lemma HEAD_slot : slot_ok HEAD.
Proof. split; done. Qed.

Lemma ring_elem s o i : ring s o -> i ∈ HEAD :: o -> slot_ok i.
Proof.
  intros R [->|Hi]%elem_of_cons; [apply HEAD_slot|]. apply (rg_all _ _ R) in Hi. destruct Hi. split; lia.
Qed.

(** Pointer updates as function updates. *)
Lemma updb_links s i f :
  length (bs_buf s) = Z.to_nat (NBUF + 1) -> slot_ok i ->
  forall j, 0 <= j ->
    nxs (updb i f s) j = upd (nxs s) i (b_next (f (getb s i))) j /\
    pvs (updb i f s) j = upd (pvs s) i (b_prev (f (getb s i))) j.
Proof.
  intros Hl Hi j Hj. unfold nxs, pvs, upd. rewrite getb_updb by done. by case_decide.
Qed.

Lemma payload_updb s i f :
  length (bs_buf s) = Z.to_nat (NBUF + 1) -> slot_ok i -> (forall x, payload (f x) = payload x) ->
  same_payload s (updb i f s).
Proof.
  intros Hl Hi Hf. split_and!; [|done|done]. intros j Hj. rewrite getb_updb by done.
  case_decide; [subst; apply Hf|done].
Qed.

Lemma same_payload_trans s1 s2 s3 : same_payload s1 s2 -> same_payload s2 s3 -> same_payload s1 s3.
Proof.
  intros (A & B & C) (A' & B' & C'). split_and!; [|congruence|congruence]. intros i Hi. by rewrite A', A.
Qed.

Lemma link_front_spec s o b :
  length (bs_buf s) = Z.to_nat (NBUF + 1) -> slot_ok b ->
  seg (nxs s) (pvs s) HEAD o HEAD -> NoDup (HEAD :: o) -> b ∉ HEAD :: o -> (forall i, i ∈ o -> slot_ok i) ->
  seg (nxs (link_front b s)) (pvs (link_front b s)) HEAD (b :: o) HEAD /\
  length (bs_buf (link_front b s)) = length (bs_buf s) /\ same_payload s (link_front b s).
Proof.
  intros Hl Hb Hs Hd Hnb Ho. unfold link_front. cbv zeta. set (first := b_next (getb s HEAD)).
  assert (slot_ok first) as Hf.
  { pose proof (seg_next _ _ _ _ _ Hs) as H. unfold first. change (b_next (getb s HEAD)) with (nxs s HEAD).
    apply elem_of_app in H as [H|H]; [by apply Ho|]. apply list_elem_of_singleton in H as ->. apply HEAD_slot. }
  set (s1 := updb b (set_next first) s). set (s2 := updb b (set_prev HEAD) s1).
  set (s3 := updb first (set_prev b) s2). set (s4 := updb HEAD (set_next b) s3).
  assert (length (bs_buf s1) = Z.to_nat (NBUF + 1)) as L1 by (unfold s1; by rewrite updb_length).
  assert (length (bs_buf s2) = Z.to_nat (NBUF + 1)) as L2 by (unfold s2; by rewrite updb_length).
  assert (length (bs_buf s3) = Z.to_nat (NBUF + 1)) as L3 by (unfold s3; by rewrite updb_length).
  split_and!.
  - eapply seg_ext; [| |exact (ring_link _ _ _ _ _ Hs Hd Hnb)].
    + intros i Hi. assert (0 <= i) as H0.
      { apply elem_of_cons in Hi as [->|[->|Hi]%elem_of_cons]; [apply HEAD_slot|apply Hb|by apply Ho]. }
      unfold s4. destruct (updb_links s3 HEAD (set_next b) L3 HEAD_slot i H0) as [-> _].
      unfold upd at 1 2. case_decide; [done|].
      unfold s3. destruct (updb_links s2 first (set_prev b) L2 Hf i H0) as [-> _].
      replace (upd (nxs s2) first (b_next (set_prev b (getb s2 first))) i) with (nxs s2 i)
        by (unfold upd; case_decide; subst; done).
      unfold s2. destruct (updb_links s1 b (set_prev HEAD) L1 Hb i H0) as [-> _].
      replace (upd (nxs s1) b (b_next (set_prev HEAD (getb s1 b))) i) with (nxs s1 i)
        by (unfold upd; case_decide; subst; done).
      unfold s1. by destruct (updb_links s b (set_next first) Hl Hb i H0) as [-> _].
    + intros i Hi. assert (0 <= i) as H0.
      { apply elem_of_app in Hi as [[->|Hi]%elem_of_cons|Hi]; [apply Hb|by apply Ho|].
        apply list_elem_of_singleton in Hi as ->. apply HEAD_slot. }
      unfold s4. destruct (updb_links s3 HEAD (set_next b) L3 HEAD_slot i H0) as [_ ->].
      replace (upd (pvs s3) HEAD (b_prev (set_next b (getb s3 HEAD))) i) with (pvs s3 i)
        by (unfold upd; case_decide; subst; done).
      unfold s3. destruct (updb_links s2 first (set_prev b) L2 Hf i H0) as [_ ->].
      change (nxs s HEAD) with first. unfold upd at 1 2. case_decide; [done|].
      unfold s2. destruct (updb_links s1 b (set_prev HEAD) L1 Hb i H0) as [_ ->].
      unfold upd. case_decide; [done|].
      unfold s1. destruct (updb_links s b (set_next first) Hl Hb i H0) as [_ ->].
      unfold upd. by case_decide.
  - unfold s4, s3, s2, s1. by rewrite !updb_length.
  - eapply same_payload_trans; [apply (payload_updb s b (set_next first)); done|].
    eapply same_payload_trans; [apply (payload_updb s1 b (set_prev HEAD)); done|].
    eapply same_payload_trans; [apply (payload_updb s2 first (set_prev b)); done|].
    apply (payload_updb s3 HEAD (set_next b)); done.
Qed.

(** ** Following the ring *)

Lemma seg_rev nx pv x l y : seg nx pv x l y -> seg pv nx y (reverse l) x.
Proof.
  revert x. induction l as [|z l IH]; intros x; [simpl; tauto|].
  rewrite reverse_cons. intros (E1 & E2 & E3). apply seg_app. split; [by apply IH|]. by split.
Qed.

Lemma scan_seg fuel f g step p s x l :
  (forall i, step (getb s i) = f i) -> seg f g x l HEAD -> HEAD ∉ l -> (length l <= fuel)%nat ->
  scan fuel step p s (f x) = Ret (List.find (fun i => p (getb s i)) l) s.
Proof.
  intros Hf. revert x fuel. induction l as [|z l IH]; intros x fuel; simpl.
  - intros [-> _] _ _. destruct fuel; simpl; done.
  - intros (-> & _ & Hs) Hh Hl. destruct fuel as [|fuel]; [lia|]. cbn [scan].
    destruct (Z.eqb_spec z HEAD) as [->|_]; [set_solver|]. destruct (p (getb s z)); [done|].
    rewrite Hf. apply IH; [done|set_solver|lia].
Qed.

Lemma ring_length s o : ring s o -> length o = Z.to_nat NBUF.
Proof.
  intros R. assert (o ≡ₚ seqZ 0 NBUF) as ->.
  { apply NoDup_Permutation; [by eapply NoDup_cons_1_2, R|apply NoDup_seqZ|].
    intros i. rewrite (rg_all _ _ R), elem_of_seqZ. unfold isbuf. lia. }
  by rewrite length_seqZ.
Qed.

(** A scan of the ring finds a buffer satisfying [p], or there is none. *)
Definition scan_result (p : buf -> bool) (s : bstate) (r : option Z) : Prop :=
  match r with
  | Some i => isbuf i /\ p (getb s i) = true
  | None => forall i, isbuf i -> p (getb s i) = false
  end.

Lemma find_result p s l : (forall i, i ∈ l <-> isbuf i) -> scan_result p s (List.find (fun i => p (getb s i)) l).
Proof.
  intros Ha. destruct (List.find _ l) as [i|] eqn:E; simpl.
  - apply List.find_some in E as [Hi Hp]. split; [|done]. apply Ha. by apply list_elem_of_In.
  - intros i Hi. apply (List.find_none _ _ E). by apply list_elem_of_In, Ha.
Qed.

Lemma scan_next s o p :
  ring s o -> exists r, scan scan_fuel b_next p s (b_next (getb s HEAD)) = Ret r s /\ scan_result p s r.
Proof.
  intros R. eexists. split; [|apply (find_result p s o), R].
  apply (scan_seg _ (nxs s) (pvs s)); [done|apply R|by eapply NoDup_cons_1_1, R|].
  rewrite (ring_length _ _ R). unfold scan_fuel. lia.
Qed.

Lemma scan_prev s o p :
  ring s o -> exists r, scan scan_fuel b_prev p s (b_prev (getb s HEAD)) = Ret r s /\ scan_result p s r.
Proof.
  intros R. eexists. split; [|apply (find_result p s (reverse o))].
  - apply (scan_seg _ (pvs s) (nxs s)); [done|apply seg_rev, R| |].
    + rewrite elem_of_reverse. by eapply NoDup_cons_1_1, R.
    + rewrite length_reverse, (ring_length _ _ R). unfold scan_fuel. lia.
  - intros i. rewrite elem_of_reverse. apply R.
Qed.

(** brelse's move to the front of the ring. *)
Lemma move_front_spec s o b :
  ring s o -> isbuf b -> (exists o', ring (move_front b s) o') /\ same_payload s (move_front b s).
Proof.
  intros R Hb. destruct R as [Hl Hs Hd Ha]. pose proof Hb as Hin. apply Ha in Hin.
  apply list_elem_of_split in Hin as (o1 & o2 & ->).
  assert (slot_ok b) as Hbs by (unfold slot_ok, isbuf in *; lia).
  assert (forall i, i ∈ HEAD :: o1 ++ b :: o2 -> slot_ok i) as Hsl.
  { intros i. eapply ring_elem. by constructor. }
  unfold move_front. cbv zeta. set (nb := b_next (getb s b)). set (pb := b_prev (getb s b)).
  assert (slot_ok nb /\ slot_ok pb /\ b <> nb /\ b <> pb) as (Hn & Hp & Hbn & Hbp).
  { apply seg_app in Hs as [S1 S2]. apply seg_next in S2. apply seg_prev in S1.
    change (nxs s b) with nb in S2. change (pvs s b) with pb in S1.
    apply NoDup_cons in Hd as [Hh Hd]. apply NoDup_app in Hd as (_ & Hd1 & Hd2). apply NoDup_cons in Hd2 as [Hd2 _].
    split_and!; [apply Hsl; set_solver..|intros E|intros E].
    - rewrite <- E in S2. set_solver.
    - rewrite <- E in S1. apply elem_of_cons in S1 as [->|S1]; [set_solver|]. apply (Hd1 _ S1). set_solver. }
  set (s1 := updb nb (set_prev pb) s).
  assert (length (bs_buf s1) = Z.to_nat (NBUF + 1)) as L1 by (unfold s1; by rewrite updb_length).
  assert (getb s1 b = getb s b) as Eb.
  { unfold s1. rewrite getb_updb by (done || apply Hbs). by rewrite decide_False. }
  rewrite Eb. fold nb pb. set (s2 := updb pb (set_next nb) s1).
  assert (length (bs_buf s2) = Z.to_nat (NBUF + 1)) as L2 by (unfold s2; by rewrite updb_length).
  assert (seg (nxs s2) (pvs s2) HEAD (o1 ++ o2) HEAD) as S2.
  { eapply seg_ext; [| |exact (ring_unlink _ _ _ _ _ _ Hs Hd)]; intros i Hi;
      assert (0 <= i) as H0 by (apply Hsl; set_solver); unfold s2;
      destruct (updb_links s1 pb (set_next nb) L1 Hp i H0) as [E1 E2];
      destruct (updb_links s nb (set_prev pb) Hl Hn i H0) as [E3 E4].
    - rewrite E1. unfold upd at 1 2. change (nxs s b) with nb. change (pvs s b) with pb. case_decide; [done|].
      unfold s1. rewrite E3. unfold upd. case_decide; subst; done.
    - rewrite E2. change (nxs s b) with nb. change (pvs s b) with pb. transitivity (pvs s1 i); [|exact E4].
      unfold upd. case_decide; subst; done. }
  destruct (link_front_spec s2 (o1 ++ o2) b) as (S3 & L3 & P3); [done|done|done| | | |].
  - eapply sublist_NoDup; [exact Hd|]. apply sublist_skip, sublist_app; [done|by apply sublist_cons].
  - apply NoDup_cons in Hd as [Hh Hd]. apply NoDup_app in Hd as (_ & Hd1 & Hd2). apply NoDup_cons in Hd2 as [Hd2 _].
    set_solver.
  - intros i Hi. apply Hsl. set_solver.
  - split.
    + exists (b :: o1 ++ o2). constructor; [by rewrite L3|done| |].
      * assert (HEAD :: b :: o1 ++ o2 ≡ₚ HEAD :: o1 ++ b :: o2) as -> by (by rewrite Permutation_middle). done.
      * intros i. rewrite <- Ha. assert (b :: o1 ++ o2 ≡ₚ o1 ++ b :: o2) as -> by (by rewrite Permutation_middle). done.
    + eapply same_payload_trans; [|exact P3]. eapply same_payload_trans; [apply (payload_updb s nb (set_prev pb)); done|].
      apply (payload_updb s1 pb (set_next nb)); done.
Qed.
