(* ===== verification/BioCache.v ===== *)
(** * The buffer cache refines a table of held blocks

    [acache] is the abstract cache: the disk, and for each block in use the
    buffer that holds it, its reference count, its lock and its content.
    Nothing of the ring, of recycled buffers or of stale copies is visible in
    it.  [cache_rel] relates it to the buffers of bio.c, and every operation
    of bio.c is shown to act on the abstract cache as the corresponding
    abstract operation. *)
From stdpp Require Import base tactics numbers list strings gmap.
From Stdlib Require Import ZArith Lia.
From S2P Require Import Prelude Block Bio BioSpec.

Open Scope Z_scope.

Record hold := Hold { h_buf : Z; h_ref : Z; h_lock : bool; h_data : block }.
Record acache := ACache { ac_held : gmap Z hold; ac_disk : gmap Z block; ac_writes : list (Z * block) }.

(** The content of a block as its users see it. *)
Definition view (a : acache) (blk : Z) : block :=
  match ac_held a !! blk with Some h => h_data h | None => disk_block (ac_disk a) blk end.

Definition set_held (f : gmap Z hold -> gmap Z hold) (a : acache) : acache :=
  ACache (f (ac_held a)) (ac_disk a) (ac_writes a).

(** The abstract operations. *)
Definition a_get (b blk : Z) (a : acache) : acache :=
  set_held (<[blk := match ac_held a !! blk with
                     | Some h => Hold (h_buf h) (h_ref h + 1) true (h_data h)
                     | None => Hold b 1 true (disk_block (ac_disk a) blk)
                     end]>) a.
Definition a_set (blk : Z) (f : hold -> hold) (a : acache) : acache := set_held (alter f blk) a.
Definition a_put (blk : Z) (a : acache) : acache :=
  match ac_held a !! blk with
  | Some h => if h_ref h =? 1 then set_held (delete blk) a
              else set_held (<[blk := Hold (h_buf h) (h_ref h - 1) false (h_data h)]>) a
  | None => a
  end.
Definition a_write (blk : Z) (a : acache) : acache :=
  ACache (ac_held a) (<[blk := view a blk]> (ac_disk a)) (ac_writes a ++ [(blk, view a blk)]).
Definition hold_ref (d : Z) (h : hold) : hold := Hold (h_buf h) (h_ref h + d) (h_lock h) (h_data h).
Definition hold_data (x : block) (h : hold) : hold := Hold (h_buf h) (h_ref h) (h_lock h) x.

(** bread neither waits for ever nor finds every buffer in use. *)
Definition readable (blk : Z) (a : acache) : Prop :=
  match ac_held a !! blk with
  | Some h => h_lock h = false /\ h_ref h + 1 < 2 ^ 32
  | None => (size (ac_held a) < Z.to_nat NBUF)%nat
  end.

(** The caller holds block [blk] locked in buffer [b]. *)
Definition holding (a : acache) (b blk : Z) : Prop :=
  exists h, ac_held a !! blk = Some h /\ h_buf h = b /\ h_lock h = true.

(** ** The relation *)

Definition holds_in (x : buf) (blk : Z) (h : hold) : Prop :=
  b_valid x = 1 /\ b_dev x = ROOTDEV /\ b_blockno x = blk /\ b_lock x = h_lock h /\
  b_refcnt x = h_ref h /\ b_data x = h_data h /\ 0 < h_ref h < 2 ^ 32.

(** An unused buffer is unlocked and holds nothing the disk does not. *)
Definition clean (d : gmap Z block) (x : buf) : Prop :=
  b_lock x = false /\ (b_dev x = ROOTDEV -> b_valid x <> 0 -> b_valid x = 1 /\ b_data x = disk_block d (b_blockno x)).

Record cache_rel (s : bstate) (a : acache) : Prop := {
  cr_ring : exists o, ring s o;
  cr_held : forall blk h, ac_held a !! blk = Some h -> isbuf (h_buf h) /\ holds_in (getb s (h_buf h)) blk h;
  cr_busy : forall i, isbuf i -> b_refcnt (getb s i) <> 0 ->
    exists h, ac_held a !! b_blockno (getb s i) = Some h /\ h_buf h = i;
  cr_free : forall i, isbuf i -> b_refcnt (getb s i) = 0 -> clean (ac_disk a) (getb s i);
  cr_tags : forall i j, isbuf i -> isbuf j -> b_dev (getb s i) = ROOTDEV -> b_dev (getb s j) = ROOTDEV ->
    b_blockno (getb s i) = b_blockno (getb s j) -> i = j;
  cr_disk : bs_disk s = ac_disk a;
  cr_writes : bs_writes s = ac_writes a
}.

Lemma cr_len s a : cache_rel s a -> length (bs_buf s) = Z.to_nat (NBUF + 1).
Proof. intros R. destruct (cr_ring _ _ R) as [o Ro]. apply Ro. Qed.

Lemma isbuf_slot i : isbuf i -> slot_ok i.
Proof. unfold isbuf, slot_ok. lia. Qed.

Lemma getb_self s i f : length (bs_buf s) = Z.to_nat (NBUF + 1) -> isbuf i -> getb (updb i f s) i = f (getb s i).
Proof. intros Hl Hi. rewrite getb_updb by (done || by apply isbuf_slot || apply Hi). by rewrite decide_True. Qed.

Lemma updb_updb s i f g :
  length (bs_buf s) = Z.to_nat (NBUF + 1) -> isbuf i -> updb i g (updb i f s) = updb i (fun x => g (f x)) s.
Proof.
  intros Hl Hi. unfold updb at 1. rewrite getb_self by done. unfold updb. cbn [bs_buf bs_disk bs_writes].
  by rewrite list_insert_insert_eq.
Qed.

Lemma updb_id s i f : length (bs_buf s) = Z.to_nat (NBUF + 1) -> isbuf i -> f (getb s i) = getb s i -> updb i f s = s.
Proof.
  intros Hl Hi Hf. unfold updb. rewrite Hf, list_insert_id; [by destruct s|].
  unfold getb. rewrite nth_lookup. destruct (lookup_lt_is_Some_2 (bs_buf s) (Z.to_nat i)) as [x Ex].
  { rewrite Hl. unfold isbuf in Hi. lia. }
  by rewrite Ex.
Qed.

Lemma updb_ext s i f g : f (getb s i) = g (getb s i) -> updb i f s = updb i g s.
Proof. intros E. unfold updb. by rewrite E. Qed.

(** Two held blocks are in different buffers. *)
Lemma held_buf_inj s a blk h blk' h' :
  cache_rel s a -> ac_held a !! blk = Some h -> ac_held a !! blk' = Some h' -> h_buf h = h_buf h' -> blk = blk'.
Proof.
  intros R E E' Eb. apply (cr_held _ _ R) in E as [_ (_ & _ & T & _)]. apply (cr_held _ _ R) in E' as [_ (_ & _ & T' & _)].
  congruence.
Qed.

(** The one update lemma: buffer [i] changes, with the entry it has in the
    table. *)
Lemma rel_updb s a i f H' :
  cache_rel s a -> isbuf i -> (forall x, b_next (f x) = b_next x /\ b_prev (f x) = b_prev x) ->
  (forall j, isbuf j -> j <> i -> b_dev (getb s j) = ROOTDEV -> b_dev (f (getb s i)) = ROOTDEV ->
     b_blockno (getb s j) <> b_blockno (f (getb s i))) ->
  (forall blk h, h_buf h <> i -> H' !! blk = Some h <-> ac_held a !! blk = Some h) ->
  (forall blk h, H' !! blk = Some h -> h_buf h = i -> holds_in (f (getb s i)) blk h) ->
  (if b_refcnt (f (getb s i)) =? 0 then clean (ac_disk a) (f (getb s i))
   else exists h, H' !! b_blockno (f (getb s i)) = Some h /\ h_buf h = i) ->
  cache_rel (updb i f s) (set_held (fun _ => H') a).
Proof.
  intros R Hi Hl Ht Hsame Hnew Hst.
  assert (forall j, isbuf j -> getb (updb i f s) j = if decide (j = i) then f (getb s i) else getb s j) as G.
  { intros j Hj. apply getb_updb; [by eapply cr_len|by apply isbuf_slot|apply Hj]. }
  constructor; cbn [ac_held ac_disk ac_writes set_held].
  - destruct (cr_ring _ _ R) as [o Ro]. exists o. apply ring_updb; [done|by apply isbuf_slot|done].
  - intros blk h E. destruct (decide (h_buf h = i)) as [Eb|Nb].
    + split; [by rewrite Eb|]. rewrite Eb, G, decide_True by done. by apply Hnew.
    + apply Hsame in E as E'; [|done]. destruct (cr_held _ _ R _ _ E') as [Hb Hh].
      split; [done|]. by rewrite G, decide_False.
  - intros j Hj. rewrite G by done. case_decide as Ej.
    + subst. intros Hr. destruct (Z.eqb_spec (b_refcnt (f (getb s i))) 0); done.
    + intros Hr. destruct (cr_busy _ _ R _ Hj Hr) as (h & E & Eb). exists h. split; [|done].
      apply Hsame; [congruence|done].
  - intros j Hj. rewrite G by done. case_decide as Ej; [|by apply (cr_free _ _ R)].
    subst. intros Hr. by rewrite Hr in Hst.
  - intros j k Hj Hk. rewrite !G by done. repeat case_decide; subst; try done.
    + intros D1 D2 E. exfalso. by apply (Ht k).
    + intros D1 D2 E. exfalso. by apply (Ht j).
    + by apply (cr_tags _ _ R).
  - apply R.
  - apply R.
Qed.

(** ** The three ways a buffer changes: a held one, one taken, one released *)

Lemma rel_held s a blk h h' f :
  cache_rel s a -> ac_held a !! blk = Some h -> h_buf h' = h_buf h ->
  (forall x, b_next (f x) = b_next x /\ b_prev (f x) = b_prev x) ->
  holds_in (f (getb s (h_buf h))) blk h' ->
  cache_rel (updb (h_buf h) f s) (set_held (<[blk := h']>) a).
Proof.
  intros R E Eb Hl Hh. destruct (cr_held _ _ R _ _ E) as [Hi Ho]. apply rel_updb; [done|done|done| | | |].
  - intros j Hj Nj Dj _ Et. apply Nj. apply (cr_tags _ _ R); [done|done|done|apply Ho|].
    rewrite Et. destruct Hh as (_ & _ & -> & _). by destruct Ho as (_ & _ & -> & _).
  - intros blk' k Nk. rewrite lookup_insert. case_decide as Ek; [|done]. subst.
    split; [naive_solver|]. rewrite E. naive_solver.
  - intros blk' k. rewrite lookup_insert. case_decide; [naive_solver|]. intros Ek Ebk.
    exfalso. by eapply (held_buf_inj s a blk h blk' k) in R.
  - destruct Hh as (_ & _ & T & _ & Rf & _ & Hp). rewrite Rf. destruct (Z.eqb_spec (h_ref h') 0); [lia|].
    exists h'. split; [|done]. by rewrite T, lookup_insert_eq.
Qed.

Lemma rel_take s a blk i h' f :
  cache_rel s a -> isbuf i -> b_refcnt (getb s i) = 0 -> ac_held a !! blk = None -> h_buf h' = i ->
  (forall j, isbuf j -> j <> i -> b_dev (getb s j) = ROOTDEV -> b_blockno (getb s j) <> blk) ->
  (forall x, b_next (f x) = b_next x /\ b_prev (f x) = b_prev x) ->
  holds_in (f (getb s i)) blk h' ->
  cache_rel (updb i f s) (set_held (<[blk := h']>) a).
Proof.
  intros R Hi Hr E Eb Ht Hl Hh.
  assert (forall blk' k, ac_held a !! blk' = Some k -> h_buf k <> i) as Hnot.
  { intros blk' k Ek Ebk. destruct (cr_held _ _ R _ _ Ek) as [_ (_ & _ & _ & _ & Rk & _ & Hp)].
    rewrite Ebk in Rk. lia. }
  pose proof Hh as (_ & _ & T & _ & Rf & _ & Hp).
  apply rel_updb; [done|done|done| | | |].
  - intros j Hj Nj Dj _. rewrite T. by apply Ht.
  - intros blk' k Nk. rewrite lookup_insert. case_decide as Ek; [|done]. subst.
    split; [naive_solver|]. rewrite E. naive_solver.
  - intros blk' k. rewrite lookup_insert. case_decide; [naive_solver|]. intros Ek Ebk. by apply Hnot in Ek.
  - rewrite Rf. destruct (Z.eqb_spec (h_ref h') 0); [lia|]. exists h'. split; [|done]. by rewrite T, lookup_insert_eq.
Qed.

Lemma rel_drop s a blk h f :
  cache_rel s a -> ac_held a !! blk = Some h ->
  (forall x, b_next (f x) = b_next x /\ b_prev (f x) = b_prev x) ->
  (let x := f (getb s (h_buf h)) in b_refcnt x = 0 /\ b_blockno x = blk /\ clean (ac_disk a) x) ->
  cache_rel (updb (h_buf h) f s) (set_held (delete blk) a).
Proof.
  intros R E Hl (Hr & T & Hc). destruct (cr_held _ _ R _ _ E) as [Hi Ho]. apply rel_updb; [done|done|done| | | |].
  - intros j Hj Nj Dj _ Et. apply Nj. apply (cr_tags _ _ R); [done|done|done|apply Ho|].
    rewrite Et, T. by destruct Ho as (_ & _ & -> & _).
  - intros blk' k Nk. rewrite lookup_delete. case_decide as Ek; [|done]. subst. rewrite E. split; naive_solver.
  - intros blk' k. rewrite lookup_delete. case_decide; [done|]. intros Ek Ebk.
    exfalso. by eapply (held_buf_inj s a blk h blk' k) in R.
  - by rewrite Hr.
Qed.

(** Only the links change. *)
Lemma rel_payload s s' a :
  cache_rel s a -> (exists o, ring s' o) -> same_payload s s' -> cache_rel s' a.
Proof.
  intros R Ro (P & Ed & Ew).
  assert (forall i, isbuf i -> payload (getb s' i) = payload (getb s i)) as P' by (intros i [Hi _]; by apply P).
  constructor; [done| | | | |by rewrite Ed; apply R|by rewrite Ew; apply R].
  - intros blk h E. destruct (cr_held _ _ R _ _ E) as [Hi Hh]. split; [done|]. specialize (P' _ Hi).
    injection P' as E1 E2 E3 E4 E5 E6. unfold holds_in. by rewrite E1, E2, E3, E4, E5, E6.
  - intros i Hi. specialize (P' _ Hi). injection P' as E1 E2 E3 E4 E5 E6. rewrite E3, E5. by apply (cr_busy _ _ R).
  - intros i Hi. specialize (P' _ Hi). injection P' as E1 E2 E3 E4 E5 E6. unfold clean.
    rewrite E1, E2, E3, E4, E5, E6. by apply (cr_free _ _ R).
  - intros i j Hi Hj. pose proof (P' _ Hi) as Pi. pose proof (P' _ Hj) as Pj.
    injection Pi as _ -> -> _ _ _. injection Pj as _ -> -> _ _ _. by apply (cr_tags _ _ R).
Qed.

(** A free buffer exists as long as fewer than NBUF blocks are held. *)
Lemma free_buffer s a :
  cache_rel s a -> (size (ac_held a) < Z.to_nat NBUF)%nat ->
  ~ (forall i, isbuf i -> (b_refcnt (getb s i) =? 0) = false).
Proof.
  intros R Hsz Hall. set (tags := (fun i => b_blockno (getb s i)) <$> seqZ 0 NBUF).
  assert (NoDup tags) as Hnd.
  { apply NoDup_fmap_2_strong; [|apply NoDup_seqZ]. intros i j Hi Hj E.
    assert (isbuf i) as Bi by (apply elem_of_seqZ in Hi; unfold isbuf; lia).
    assert (isbuf j) as Bj by (apply elem_of_seqZ in Hj; unfold isbuf; lia).
    pose proof (Hall i Bi) as Ri. pose proof (Hall j Bj) as Rj. apply Z.eqb_neq in Ri, Rj.
    destruct (cr_busy _ _ R i Bi Ri) as (h & Eh & <-). destruct (cr_busy _ _ R j Bj Rj) as (k & Ek & <-).
    rewrite E in Eh. congruence. }
  assert (list_to_set tags ⊆@{gset Z} dom (ac_held a)) as Hsub.
  { intros t Ht. apply elem_of_list_to_set, list_elem_of_fmap in Ht as (i & -> & Hi).
    assert (isbuf i) as Bi by (apply elem_of_seqZ in Hi; unfold isbuf; lia).
    pose proof (Hall i Bi) as Ri. apply Z.eqb_neq in Ri.
    destruct (cr_busy _ _ R i Bi Ri) as (h & Eh & _). by apply elem_of_dom_2 in Eh. }
  apply subseteq_size in Hsub. rewrite size_list_to_set, size_dom in Hsub by done.
  unfold tags in Hsub. rewrite length_fmap, length_seqZ in Hsub. lia.
Qed.

(** ** The operations *)

Definition fill (d : gmap Z block) (x : buf) : buf :=
  if b_valid x =? 0 then set_valid 1 (set_bdata (disk_block d (b_blockno x)) x) else x.

(** The part of bread after bget. *)
Lemma fill_wp s i (Q : Z -> bstate -> Prop) :
  length (bs_buf s) = Z.to_nat (NBUF + 1) -> isbuf i ->
  Q i (updb i (fill (bs_disk s)) s) ->
  wp (v ← gets (fun s => b_valid (getb s i));
      (when v =? 0 do (virtio_disk_rw i false;; modify (updb i (set_valid 1))));; mret i) Q s.
Proof.
  intros Hl Hi HQ. unfold virtio_disk_rw. wp_steps. destruct (b_valid (getb s i) =? 0) eqn:E.
  - wp_steps. rewrite updb_updb by done. erewrite updb_ext; [exact HQ|]. unfold fill. by rewrite E.
  - wp_steps. rewrite updb_id in HQ; [done..|]. unfold fill. by rewrite E.
Qed.

(** bget ends with buffer [i] locked. *)
Lemma bget_lock s i f (Q : Z -> bstate -> Prop) :
  length (bs_buf s) = Z.to_nat (NBUF + 1) -> isbuf i -> b_lock (f (getb s i)) = false ->
  Q i (updb i (fun x => set_block_lock true (f x)) s) ->
  wp (modify (updb i f);; acquiresleep_buf i;; mret i) Q s.
Proof.
  intros Hl Hi Hf HQ. wp_steps. unfold wp, acquiresleep_buf. rewrite getb_self, Hf by done. by rewrite updb_updb.
Qed.

(** How bread's two updates of the buffer it finds compose. *)
Definition took (d : gmap Z block) (f : buf -> buf) (x : buf) : buf := fill d (set_block_lock true (f x)).

Lemma bread_of_bget s dev blk i f (Q : Z -> bstate -> Prop) :
  length (bs_buf s) = Z.to_nat (NBUF + 1) -> isbuf i ->
  bget dev blk s = (modify (updb i f);; acquiresleep_buf i;; mret i) s ->
  b_lock (f (getb s i)) = false ->
  Q i (updb i (took (bs_disk s) f) s) -> wp (bread dev blk) Q s.
Proof.
  intros Hl Hi Eg Hf HQ. unfold bread. wp_step. unfold wp at 1. rewrite Eg.
  change (wp (modify (updb i f);; acquiresleep_buf i;; mret i) (fun b => wp
    (v ← gets (fun s => b_valid (getb s b));
      (when v =? 0 do (virtio_disk_rw b false;; modify (updb b (set_valid 1))));; mret b) Q) s).
  apply bget_lock; [done|done|done|]. apply fill_wp; [by rewrite updb_length|done|].
  by rewrite updb_updb.
Qed.

Lemma held_tag s a i blk :
  cache_rel s a -> isbuf i -> b_dev (getb s i) = ROOTDEV -> b_blockno (getb s i) = blk ->
  match ac_held a !! blk with
  | Some h => h_buf h = i
  | None => b_refcnt (getb s i) = 0
  end.
Proof.
  intros R Hi Hd Hb. destruct (ac_held a !! blk) as [h|] eqn:E.
  - destruct (cr_held _ _ R _ _ E) as [Hh (_ & D & T & _)]. apply (cr_tags _ _ R); (done || congruence).
  - destruct (decide (b_refcnt (getb s i) = 0)) as [|Hr]; [done|].
    destruct (cr_busy _ _ R i Hi Hr) as (h & Eh & _). congruence.
Qed.

Lemma bread_wp s a blk :
  cache_rel s a -> readable blk a ->
  wp (bread ROOTDEV blk) (fun b s' => cache_rel s' (a_get b blk a) /\ holding (a_get b blk a) b blk) s.
Proof.
  intros R Hrd. pose proof (cr_len _ _ R) as Hl. destruct (cr_ring _ _ R) as [o Ro].
  destruct (scan_next s o (fun x => (b_dev x =? ROOTDEV) && (b_blockno x =? blk)) Ro) as (r & Er & Hr).
  assert (forall b, holding (a_get b blk a) b blk <-> match ac_held a !! blk with Some h => h_buf h = b | None => True end) as Hhold.
  { intros b. unfold holding, a_get, set_held. cbn [ac_held]. setoid_rewrite lookup_insert_eq.
    destruct (ac_held a !! blk); naive_solver. }
  destruct r as [i|]; simpl in Hr.
  - destruct Hr as [Hi [Hd Hb]%andb_prop]. apply Z.eqb_eq in Hd, Hb.
    apply (bread_of_bget s _ _ i (fun x => set_refcnt (w32 (b_refcnt x + 1)) x)); [done|done| | |].
    { unfold bget, mbind at 1, M_bind at 1. by rewrite Er. }
    + pose proof (held_tag s a i blk R Hi Hd Hb) as Ht. unfold readable in Hrd.
      destruct (ac_held a !! blk) as [h|] eqn:Eh.
      * subst i. destruct (cr_held _ _ R _ _ Eh) as [_ (_ & _ & _ & Lk & _)]. cbn [set_refcnt b_lock]. rewrite Lk. apply Hrd.
      * by destruct (cr_free _ _ R i Hi Ht).
    + pose proof (held_tag s a i blk R Hi Hd Hb) as Ht. rewrite Hhold. unfold a_get, readable in *.
      destruct (ac_held a !! blk) as [h|] eqn:Eh; (split; [|done]).
      * subst i. destruct (cr_held _ _ R _ _ Eh) as [_ (V & D & T & Lk & Rf & Dt & Hp)].
        apply rel_held with (h' := Hold (h_buf h) (h_ref h + 1) true (h_data h)) (f := took (bs_disk s) _); [done|done|done| |].
        { intros x. unfold took, fill. destruct (b_valid _ =? 0); done. }
        unfold holds_in, took, fill. simpl. rewrite V. simpl. rewrite Rf. rewrite w32_id by lia. split_and!; (done || lia).
      * destruct (cr_free _ _ R i Hi Ht) as [Lk C]. specialize (C Hd).
        apply rel_take with (h' := Hold i 1 true (disk_block (ac_disk a) blk)) (f := took (bs_disk s) _); [done..| | |].
        { intros j Hj Nj Dj Bj. apply Nj. apply (cr_tags _ _ R); (done || congruence). }
        { intros x. unfold took, fill. destruct (b_valid _ =? 0); done. }
        unfold holds_in, took, fill. simpl. rewrite Ht. change (w32 (0 + 1)) with 1. rewrite (cr_disk _ _ R), Hb.
        destruct (Z.eqb_spec (b_valid (getb s i)) 0) as [|Nv]; simpl; [done|].
        destruct (C Nv) as [-> ->]. by rewrite Hb.
  - assert (forall j, isbuf j -> b_dev (getb s j) = ROOTDEV -> b_blockno (getb s j) <> blk) as Hno.
    { intros j Hj Dj Bj. specialize (Hr j Hj). by rewrite Dj, Bj, !Z.eqb_refl in Hr. }
    assert (ac_held a !! blk = None) as Eh.
    { destruct (ac_held a !! blk) as [h|] eqn:E; [|done]. destruct (cr_held _ _ R _ _ E) as [Hi (_ & D & T & _)].
      by destruct (Hno _ Hi D). }
    destruct (scan_prev s o (fun x => b_refcnt x =? 0) Ro) as (r & Er' & Hr').
    unfold readable in Hrd. rewrite Eh in Hrd.
    destruct r as [i|]; simpl in Hr'; [|by destruct (free_buffer s a R Hrd)].
    destruct Hr' as [Hi Hz%Z.eqb_eq]. destruct (cr_free _ _ R i Hi Hz) as [Lk _].
    apply (bread_of_bget s _ _ i (set_tag ROOTDEV blk)); [done|done| |done|].
    { unfold bget, mbind at 1, M_bind at 1. rewrite Er. unfold mbind at 1, M_bind at 1. by rewrite Er'. }
    rewrite Hhold. unfold a_get. rewrite Eh. split; [|done].
    apply rel_take with (h' := Hold i 1 true (disk_block (ac_disk a) blk)) (f := took (bs_disk s) _); [done..| | |].
    { intros j Hj _. by apply Hno. }
    { intros x. unfold took, fill. destruct (b_valid _ =? 0); done. }
    unfold holds_in, took, fill. simpl. by rewrite (cr_disk _ _ R).
Qed.

Lemma a_set_held a blk f h :
  ac_held a !! blk = Some h -> a_set blk f a = set_held (<[blk := f h]>) a.
Proof. intros E. unfold a_set, set_held. f_equal. apply map_eq. intros i.
  destruct (decide (blk = i)) as [<-|N]; [by rewrite lookup_alter_eq, lookup_insert_eq, E|].
  by rewrite lookup_alter_ne, lookup_insert_ne. Qed.

(** A lock holder's change of its own buffer. *)
Lemma rel_a_set s a blk h f g :
  cache_rel s a -> ac_held a !! blk = Some h -> h_buf (g h) = h_buf h ->
  (forall x, b_next (f x) = b_next x /\ b_prev (f x) = b_prev x) ->
  (forall x, holds_in x blk h -> holds_in (f x) blk (g h)) ->
  cache_rel (updb (h_buf h) f s) (a_set blk g a).
Proof.
  intros R E Eb Hl Hh. rewrite (a_set_held _ _ _ _ E). apply rel_held; [done..|]. by apply Hh, (cr_held _ _ R _ _ E).
Qed.

Lemma bdata_wp s a b blk :
  cache_rel s a -> holding a b blk -> wp (bdata b) (fun d s' => d = view a blk /\ s' = s) s.
Proof.
  intros R (h & E & <- & _). unfold bdata. wp_steps. split; [|done]. unfold view. rewrite E.
  by destruct (cr_held _ _ R _ _ E) as [_ (_ & _ & _ & _ & _ & -> & _)].
Qed.

Lemma bdata_set_wp s a b blk f :
  cache_rel s a -> holding a b blk ->
  wp (bdata_set b f) (fun _ s' => cache_rel s' (a_set blk (fun h => hold_data (f (h_data h)) h) a)) s.
Proof.
  intros R (h & E & <- & _). unfold bdata_set. wp_steps. apply (rel_a_set _ _ _ h); [done..|].
  intros x (V & D & T & Lk & Rf & Dt & Hp). unfold holds_in, hold_data. simpl. by rewrite Dt.
Qed.

Lemma bpin_wp s a b blk :
  cache_rel s a -> holding a b blk -> (forall h, ac_held a !! blk = Some h -> h_ref h + 1 < 2 ^ 32) ->
  wp (bpin b) (fun _ s' => cache_rel s' (a_set blk (hold_ref 1) a)) s.
Proof.
  intros R (h & E & <- & _) Hb. specialize (Hb _ E). unfold bpin. wp_steps. apply (rel_a_set _ _ _ h); [done..|].
  intros x (V & D & T & Lk & Rf & Dt & Hp). unfold holds_in, hold_ref. simpl. rewrite Rf, w32_id by lia. split_and!; (done || lia).
Qed.

Lemma bunpin_wp s a b blk h :
  cache_rel s a -> ac_held a !! blk = Some h -> h_buf h = b -> 1 < h_ref h ->
  wp (bunpin b) (fun _ s' => cache_rel s' (a_set blk (hold_ref (-1)) a)) s.
Proof.
  intros R E <- Hr. unfold bunpin. wp_steps. apply (rel_a_set _ _ _ h); [done..|].
  intros x (V & D & T & Lk & Rf & Dt & Hp). unfold holds_in, hold_ref. simpl. rewrite Rf, w32_id by lia. split_and!; (done || lia).
Qed.

Lemma bwrite_wp s a b blk :
  cache_rel s a -> holding a b blk -> wp (bwrite b) (fun _ s' => cache_rel s' (a_write blk a)) s.
Proof.
  intros R (h & E & <- & Lk). destruct (cr_held _ _ R _ _ E) as [Hi (V & D & T & Lb & Rf & Dt & Hp)].
  unfold bwrite, virtio_disk_rw. wp_steps. rewrite Lb, Lk. cbn [negb]. wp_steps. rewrite T, Dt.
  assert (view a blk = h_data h) as Ev by (unfold view; by rewrite E).
  constructor; cbn [bs_buf bs_disk bs_writes ac_held ac_disk ac_writes a_write]; rewrite ?Ev;
    change (getb (BState (bs_buf s) _ _)) with (getb s).
  - destruct (cr_ring _ _ R) as [o [? ? ? ?]]. exists o. by constructor.
  - apply R.
  - apply R.
  - intros i Hi' Hr. destruct (cr_free _ _ R _ Hi' Hr) as [C1 C2]. split; [done|]. intros Dv Nv.
    destruct (C2 Dv Nv) as [C3 C4]. split; [done|]. rewrite C4. unfold disk_block. rewrite lookup_insert_ne; [done|].
    intros Et. assert (h_buf h = i) as <- by (apply (cr_tags _ _ R); (done || congruence)). lia.
  - apply R.
  - by rewrite (cr_disk _ _ R).
  - by rewrite (cr_writes _ _ R).
Qed.

Lemma brelse_wp s a b blk :
  cache_rel s a -> holding a b blk ->
  (forall h, ac_held a !! blk = Some h -> h_ref h = 1 -> h_data h = disk_block (ac_disk a) blk) ->
  wp (brelse b) (fun _ s' => cache_rel s' (a_put blk a)) s.
Proof.
  intros R (h & E & <- & Lk) Hc. pose proof (cr_len _ _ R) as Hl.
  destruct (cr_held _ _ R _ _ E) as [Hi (V & D & T & Lb & Rf & Dt & Hp)].
  unfold brelse. wp_steps. rewrite Lb, Lk. cbn [negb]. wp_steps. rewrite updb_updb, getb_self by done. simpl.
  unfold a_put. rewrite E, Rf, w32_id by lia. destruct (Z.eqb_spec (h_ref h) 1) as [E1|N1].
  - rewrite E1. cbn [Z.sub Z.eqb]. wp_steps.
    assert (cache_rel (updb (h_buf h) (fun x => set_refcnt (w32 (b_refcnt (set_block_lock false x) - 1)) (set_block_lock false x)) s)
      (set_held (delete blk) a)) as R'.
    { apply rel_drop; [done|done|done|]. simpl. rewrite Rf, E1. split_and!; [done|done|].
      split; [done|]. intros _ _. simpl. split; [done|]. rewrite Dt, T. by apply Hc. }
    destruct (cr_ring _ _ R') as [o Ro]. destruct (move_front_spec _ _ _ Ro Hi) as [Ro' P].
    by eapply rel_payload.
  - destruct (Z.eqb_spec (h_ref h - 1) 0); [lia|]. wp_steps. apply rel_held; [done|done|done|done|].
    unfold holds_in. simpl. rewrite Rf, w32_id by lia. split_and!; (done || lia).
Qed.

(** ** binit *)

Lemma binit_loop_spec n b s o :
  length (bs_buf s) = Z.to_nat (NBUF + 1) -> 0 <= b -> b + Z.of_nat n = NBUF ->
  seg (nxs s) (pvs s) HEAD o HEAD -> NoDup (HEAD :: o) -> (forall i, i ∈ o <-> 0 <= i < b) ->
  (exists o', ring (binit_loop n b s) o') /\ same_payload s (binit_loop n b s).
Proof.
  revert b s o. induction n as [|n IH]; intros b s o Hl Hb Hn Hs Hd Ho; cbn [binit_loop].
  - split; [|done]. exists o. constructor; [done..|]. intros i. rewrite Ho. unfold isbuf. lia.
  - assert (HEAD = NBUF) as EH by done.
    destruct (link_front_spec s o b) as (S' & L' & P'); [done|unfold slot_ok; lia|done|done| | |].
    { intros [->|Hi]%elem_of_cons; [lia|]. apply Ho in Hi. lia. }
    { intros i Hi. apply Ho in Hi. unfold slot_ok. lia. }
    destruct (IH (b + 1) (link_front b s) (b :: o)) as [R P].
    + by rewrite L'.
    + lia.
    + lia.
    + done.
    + apply NoDup_cons in Hd as [Hh Hd]. apply NoDup_cons. split; [|apply NoDup_cons; split; [|done]].
      * intros [E|Hi]%elem_of_cons; [lia|done].
      * intros Hi. apply Ho in Hi. lia.
    + intros i. rewrite elem_of_cons, Ho. lia.
    + split; [done|]. by eapply same_payload_trans.
Qed.

Lemma payload_eq x y : payload x = payload y ->
  b_valid x = b_valid y /\ b_dev x = b_dev y /\ b_lock x = b_lock y /\ b_refcnt x = b_refcnt y.
Proof. unfold payload. naive_solver. Qed.

(** The zero-initialised bss of bio.c. *)
Definition bcache_bss (d : gmap Z block) : bstate := BState (replicate (Z.to_nat (NBUF + 1)) buf_zero) d [].

Lemma binit_rel d : cache_rel (binit (bcache_bss d)) (ACache ∅ d []).
Proof.
  set (s := bcache_bss d). unfold binit. set (s2 := updb HEAD (set_next HEAD) (updb HEAD (set_prev HEAD) s)).
  assert (length (bs_buf s) = Z.to_nat (NBUF + 1)) as Hl by (unfold s, bcache_bss; cbn [bs_buf]; apply length_replicate).
  destruct (binit_loop_spec (Z.to_nat NBUF) 0 s2 []) as [[o Ro] P].
  - unfold s2. by rewrite !updb_length.
  - done.
  - done.
  - simpl. by vm_compute.
  - apply NoDup_singleton.
  - intros i. split; [by intros ?%elem_of_nil|lia].
  - assert (same_payload s s2) as P2.
    { unfold s2. eapply same_payload_trans; [|apply payload_updb; [by rewrite updb_length|apply HEAD_slot|done]].
      apply payload_updb; [done|apply HEAD_slot|done]. }
    pose proof (same_payload_trans _ _ _ P2 P) as (Pp & Ed & Ew).
    assert (forall i, isbuf i -> payload (getb (binit_loop (Z.to_nat NBUF) 0 s2) i) = payload buf_zero) as Pz.
    { intros i [Hi _]. rewrite Pp by done. f_equal. unfold s, bcache_bss, getb. cbn [bs_buf]. rewrite nth_lookup.
      destruct (replicate _ buf_zero !! _) as [x|] eqn:E; [|done]. by apply lookup_replicate in E as [-> _]. }
    constructor.
    + by exists o.
    + intros blk h. cbn [ac_held]. by rewrite lookup_empty.
    + intros i Hi. destruct (payload_eq _ _ (Pz i Hi)) as (_ & _ & _ & ->). intros E. by destruct E.
    + intros i Hi _. destruct (payload_eq _ _ (Pz i Hi)) as (E1 & E2 & E4 & _). unfold clean. rewrite E1, E2, E4.
      split; [done|]. intros E. discriminate E.
    + intros i j Hi _. destruct (payload_eq _ _ (Pz i Hi)) as (_ & -> & _). intros E. discriminate E.
    + by rewrite Ed.
    + by rewrite Ew.
Qed.
