(* ===== verification/Log.v ===== *)
(** * The redo log (kernel/log.c)

    A transaction collects the updates of several file-system calls in pinned
    cache buffers; commit copies them to the log area of the disk, writes the
    header block (the commit point), installs them at their home locations and
    erases the header.  [log.lock] protects the in-memory header; one call is
    modelled at a time, and a begin_op that has to sleep until another
    system call commits does not return ([blocked]). *)
From stdpp Require Import base tactics numbers list strings gmap.
From Stdlib Require Import ZArith Lia.
From S2P Require Import Prelude Block Bio.

Open Scope Z_scope.

(** struct log, with its struct logheader [lh] as [lg_n] and [lg_block], and
    the buffer cache that it works on. *)
Record lstate := LState {
  lg_cache : bstate;
  lg_start : Z;
  lg_outstanding : Z;
  lg_committing : Z;
  lg_dev : Z;
  lg_n : Z;
  lg_block : list Z
}.

Definition set_lcache c l := LState c (lg_start l) (lg_outstanding l) (lg_committing l) (lg_dev l) (lg_n l) (lg_block l).
Definition set_outstanding x l := LState (lg_cache l) (lg_start l) x (lg_committing l) (lg_dev l) (lg_n l) (lg_block l).
Definition set_committing x l := LState (lg_cache l) (lg_start l) (lg_outstanding l) x (lg_dev l) (lg_n l) (lg_block l).
Definition set_ln x l := LState (lg_cache l) (lg_start l) (lg_outstanding l) (lg_committing l) (lg_dev l) x (lg_block l).
Definition set_lblock i x l :=
  LState (lg_cache l) (lg_start l) (lg_outstanding l) (lg_committing l) (lg_dev l) (lg_n l) (<[Z.to_nat i := x]> (lg_block l)).
Definition lblock (l : lstate) (i : Z) : Z := nth (Z.to_nat i) (lg_block l) 0.

(** A call of the buffer cache. *)
Definition bc {A} (c : M bstate A) : M lstate A := zoom lg_cache set_lcache c.

(** [for (tail = 0; tail < log.lh.n; tail++)]. *)
Definition for_tail (body : Z -> M lstate unit) : M lstate unit :=
  n ← gets lg_n; for_z (Z.to_nat n) 0 body.

(** The on-disk header: [n], then the block numbers. *)
Definition hdr_n (h : block) : Z := s32 (u32_at h 0).
Definition hdr_block (h : block) (i : Z) : Z := u32_at h (4 + 4 * i).

Definition install_trans (recovering : bool) : M lstate unit :=
  for_tail (fun tail =>
    dev ← gets lg_dev; start ← gets lg_start; dst ← gets (fun l => lblock l tail);
    lbuf ← bc (bread dev (w32 (start + tail + 1)));
    dbuf ← bc (bread dev dst);
    d ← bc (bdata lbuf);
    bc (bdata_set dbuf (fun _ => d));;
    bc (bwrite dbuf);;
    (when negb recovering do bc (bunpin dbuf));;
    bc (brelse lbuf);;
    bc (brelse dbuf)).

(** The in-memory array has LOGBLOCKS entries; a header with a larger count
    makes read_head write past it. *)
Definition read_head : M lstate unit :=
  dev ← gets lg_dev; start ← gets lg_start;
  b ← bc (bread dev start);
  h ← bc (bdata b);
  modify (set_ln (hdr_n h));;
  for_tail (fun i =>
    if LOGBLOCKS <=? i then panic "read_head: write past log.lh.block"
    else modify (set_lblock i (hdr_block h i)));;
  bc (brelse b).

Definition write_head : M lstate unit :=
  dev ← gets lg_dev; start ← gets lg_start;
  b ← bc (bread dev start);
  n ← gets lg_n;
  bc (bdata_set b (fun h => set_u32 h 0 (w32 n)));;
  for_tail (fun i => x ← gets (fun l => lblock l i); bc (bdata_set b (fun h => set_u32 h (4 + 4 * i) x)));;
  bc (bwrite b);;
  bc (brelse b).

Definition recover_from_log : M lstate unit :=
  read_head;;
  install_trans true;;
  modify (set_ln 0);;
  write_head.

(** [sizeof(struct logheader) >= BSIZE] is a constant test that is false. *)
Definition initlog (dev logstart : Z) : M lstate unit :=
  if BSIZE <=? 4 + 4 * LOGBLOCKS then panic "initlog: too big logheader"
  else
    modify (fun l => LState (lg_cache l) logstart (lg_outstanding l) (lg_committing l) dev (lg_n l) (lg_block l));;
    recover_from_log.

Definition begin_op : M lstate unit :=
  c ← gets lg_committing; n ← gets lg_n; o ← gets lg_outstanding;
  if negb (c =? 0) then blocked
  else if LOGBLOCKS <? n + (o + 1) * MAXOPBLOCKS then blocked
  else modify (set_outstanding (o + 1)).

Definition write_log : M lstate unit :=
  for_tail (fun tail =>
    dev ← gets lg_dev; start ← gets lg_start; src ← gets (fun l => lblock l tail);
    to ← bc (bread dev (w32 (start + tail + 1)));
    from ← bc (bread dev src);
    d ← bc (bdata from);
    bc (bdata_set to (fun _ => d));;
    bc (bwrite to);;
    bc (brelse from);;
    bc (brelse to)).

Definition commit : M lstate unit :=
  n ← gets lg_n;
  when 0 <? n do (
    write_log;;
    write_head;;
    install_trans false;;
    modify (set_ln 0);;
    write_head).

Definition end_op : M lstate unit :=
  modify (fun l => set_outstanding (lg_outstanding l - 1) l);;
  c ← gets lg_committing;
  if negb (c =? 0) then panic "log.committing"
  else
    o ← gets lg_outstanding;
    if o =? 0 then
      modify (set_committing 1);;
      commit;;
      modify (set_committing 0)
    else skip.

(** The first index below [n] whose entry is [blockno], or [n]. *)
Fixpoint find_block (n : nat) (i blockno : Z) (l : lstate) : Z :=
  match n with
  | O => i
  | S n => if lblock l i =? blockno then i else find_block n (i + 1) blockno l
  end.

Definition log_write (b : Z) : M lstate unit :=
  n ← gets lg_n; o ← gets lg_outstanding;
  if LOGBLOCKS <=? n then panic "too big a transaction"
  else if o <? 1 then panic "log_write outside of trans"
  else
    blockno ← gets (fun l => b_blockno (getb (lg_cache l) b));
    i ← gets (find_block (Z.to_nat n) 0 blockno);
    modify (set_lblock i blockno);;
    when i =? n do (bc (bpin b);; modify (set_ln (n + 1))).
