(* ===== verification/LogSpec.v ===== *)
(** * The log: commit, crash and recovery

    The specifications are over the abstract buffer cache of [BioCache].  The
    writes that commit and recovery send to the disk are computed exactly, in
    order, so that a crash is a prefix of them. *)
From stdpp Require Import base tactics numbers list strings gmap.
From Stdlib Require Import ZArith Lia.
From S2P Require Import Prelude Block Bio BioSpec BioCache Log.

Open Scope Z_scope.

(** ** Sequences of disk writes *)

Definition apply_writes (ws : list (Z * block)) (d : gmap Z block) : gmap Z block :=
  foldl (fun d p => <[p.1 := p.2]> d) d ws.

Lemma apply_writes_app ws1 ws2 d : apply_writes (ws1 ++ ws2) d = apply_writes ws2 (apply_writes ws1 d).
Proof. apply foldl_app. Qed.

Lemma apply_writes_snoc ws p d : apply_writes (ws ++ [p]) d = <[p.1 := p.2]> (apply_writes ws d).
Proof. by rewrite apply_writes_app. Qed.

Lemma apply_writes_notin ws d blk : blk ∉ ws.*1 -> disk_block (apply_writes ws d) blk = disk_block d blk.
Proof.
  induction ws as [|p ws IH] using rev_ind; [done|]. rewrite fmap_app. intros Hn.
  rewrite apply_writes_snoc. unfold disk_block at 1. rewrite lookup_insert_ne by set_solver. apply IH. set_solver.
Qed.

Lemma apply_writes_in ws d blk x : NoDup ws.*1 -> (blk, x) ∈ ws -> disk_block (apply_writes ws d) blk = x.
Proof.
  induction ws as [|p ws IH] using rev_ind; [by intros _ ?%elem_of_nil|]. rewrite fmap_app.
  intros (Hn & Hd & _)%NoDup_app Hin. rewrite apply_writes_snoc. unfold disk_block at 1.
  apply elem_of_app in Hin as [Hin|Hin%list_elem_of_singleton].
  - assert (blk ∈ ws.*1) as Hb by (apply list_elem_of_fmap; by exists (blk, x)).
    rewrite lookup_insert_ne by (intros E; apply (Hd _ Hb); set_solver). by apply IH.
  - subst p. by rewrite lookup_insert_eq.
Qed.

(** ** Cache operations inside the log *)

Lemma bc_wp {A} (c : M bstate A) Q l :
  wp c (fun x s' => Q x (set_lcache s' l)) (lg_cache l) -> wp (bc c) Q l.
Proof. intros H. by apply wp_zoom. Qed.

Section ops.
Context (l : lstate) (a : acache) (R : cache_rel (lg_cache l) a).

Lemma l_bread blk (Q : Z -> lstate -> Prop) :
  readable blk a ->
  (forall b c, cache_rel c (a_get b blk a) -> holding (a_get b blk a) b blk -> Q b (set_lcache c l)) ->
  wp (bc (bread ROOTDEV blk)) Q l.
Proof. intros Hr HQ. apply bc_wp. eapply wp_mono; [by apply bread_wp|]. intros b c [H1 H2]. by apply HQ. Qed.

Lemma l_bdata b blk (Q : block -> lstate -> Prop) :
  holding a b blk -> Q (view a blk) l -> wp (bc (bdata b)) Q l.
Proof.
  intros Hh HQ. apply bc_wp. eapply wp_mono; [by eapply bdata_wp|]. intros d c [-> ->]. by destruct l.
Qed.

Lemma l_bdata_set b blk f (Q : unit -> lstate -> Prop) :
  holding a b blk ->
  (forall c, cache_rel c (a_set blk (fun h => hold_data (f (h_data h)) h) a) -> Q () (set_lcache c l)) ->
  wp (bc (bdata_set b f)) Q l.
Proof. intros Hh HQ. apply bc_wp. eapply wp_mono; [by eapply bdata_set_wp|]. intros [] c H. by apply HQ. Qed.

Lemma l_bwrite b blk (Q : unit -> lstate -> Prop) :
  holding a b blk -> (forall c, cache_rel c (a_write blk a) -> Q () (set_lcache c l)) -> wp (bc (bwrite b)) Q l.
Proof. intros Hh HQ. apply bc_wp. eapply wp_mono; [by eapply bwrite_wp|]. intros [] c H. by apply HQ. Qed.

Lemma l_brelse b blk (Q : unit -> lstate -> Prop) :
  holding a b blk ->
  (forall h, ac_held a !! blk = Some h -> h_ref h = 1 -> h_data h = disk_block (ac_disk a) blk) ->
  (forall c, cache_rel c (a_put blk a) -> Q () (set_lcache c l)) -> wp (bc (brelse b)) Q l.
Proof. intros Hh Hc HQ. apply bc_wp. eapply wp_mono; [by eapply brelse_wp|]. intros [] c H. by apply HQ. Qed.

Lemma l_bunpin b blk h (Q : unit -> lstate -> Prop) :
  ac_held a !! blk = Some h -> h_buf h = b -> 1 < h_ref h ->
  (forall c, cache_rel c (a_set blk (hold_ref (-1)) a) -> Q () (set_lcache c l)) -> wp (bc (bunpin b)) Q l.
Proof. intros E Eb Hr HQ. apply bc_wp. eapply wp_mono; [by eapply bunpin_wp|]. intros [] c H. by apply HQ. Qed.

Lemma l_bpin b blk (Q : unit -> lstate -> Prop) :
  holding a b blk -> (forall h, ac_held a !! blk = Some h -> h_ref h + 1 < 2 ^ 32) ->
  (forall c, cache_rel c (a_set blk (hold_ref 1) a) -> Q () (set_lcache c l)) -> wp (bc (bpin b)) Q l.
Proof. intros Hh Hr HQ. apply bc_wp. eapply wp_mono; [by eapply bpin_wp|]. intros [] c H. by apply HQ. Qed.
End ops.

(** Lookups in a table after the abstract operations. *)
Lemma hget_get b blk a k :
  ac_held (a_get b blk a) !! k =
  if decide (k = blk) then Some (match ac_held a !! blk with
                                 | Some h => Hold (h_buf h) (h_ref h + 1) true (h_data h)
                                 | None => Hold b 1 true (disk_block (ac_disk a) blk)
                                 end) else ac_held a !! k.
Proof. unfold a_get, set_held. cbn [ac_held]. rewrite lookup_insert. repeat case_decide; congruence. Qed.
Lemma hget_set blk f a k :
  ac_held (a_set blk f a) !! k = if decide (k = blk) then f <$> ac_held a !! k else ac_held a !! k.
Proof.
  unfold a_set, set_held. cbn [ac_held]. case_decide; [subst; apply lookup_alter_eq|by apply lookup_alter_ne].
Qed.
Lemma hget_put blk a k :
  ac_held (a_put blk a) !! k =
  if decide (k = blk)
  then h ← ac_held a !! k; if h_ref h =? 1 then None else Some (Hold (h_buf h) (h_ref h - 1) false (h_data h))
  else ac_held a !! k.
Proof.
  unfold a_put. destruct (ac_held a !! blk) as [h|] eqn:E.
  - destruct (h_ref h =? 1) eqn:E1; unfold set_held; cbn [ac_held].
    + rewrite lookup_delete. repeat case_decide; subst; try done. rewrite E. simpl. by rewrite E1.
    + rewrite lookup_insert. repeat case_decide; subst; try done. rewrite E. simpl. by rewrite E1.
  - case_decide; [|done]. subst. by rewrite E.
Qed.
Lemma hget_write blk a : ac_held (a_write blk a) = ac_held a.
Proof. done. Qed.
Lemma dget_get b blk a : ac_disk (a_get b blk a) = ac_disk a.
Proof. done. Qed.
Lemma dget_set blk f a : ac_disk (a_set blk f a) = ac_disk a.
Proof. done. Qed.
Lemma dget_put blk a : ac_disk (a_put blk a) = ac_disk a.
Proof. unfold a_put. destruct (ac_held a !! blk); [|done]. by destruct (h_ref _ =? 1). Qed.
Lemma dget_write blk a : ac_disk (a_write blk a) = <[blk := view a blk]> (ac_disk a).
Proof. done. Qed.
Lemma wget_get b blk a : ac_writes (a_get b blk a) = ac_writes a.
Proof. done. Qed.
Lemma wget_set blk f a : ac_writes (a_set blk f a) = ac_writes a.
Proof. done. Qed.
Lemma wget_put blk a : ac_writes (a_put blk a) = ac_writes a.
Proof. unfold a_put. destruct (ac_held a !! blk); [|done]. by destruct (h_ref _ =? 1). Qed.
Lemma wget_write blk a : ac_writes (a_write blk a) = ac_writes a ++ [(blk, view a blk)].
Proof. done. Qed.
Lemma disk_block_insert d k x blk :
  disk_block (<[k := x]> d) blk = if decide (blk = k) then x else disk_block d blk.
Proof. unfold disk_block. rewrite lookup_insert. repeat case_decide; (done || congruence). Qed.

Create Rewrite HintDb acache.
#[export] Hint Rewrite hget_get hget_set hget_put hget_write dget_get dget_set dget_put dget_write
  wget_get wget_set wget_put wget_write disk_block_insert : acache.

Lemma acache_eq a H D W :
  (forall k, ac_held a !! k = H !! k) -> ac_disk a = D -> ac_writes a = W -> a = ACache H D W.
Proof. intros E1 E2 E3. destruct a as [H' D' W']. simpl in *. subst. f_equal. by apply map_eq. Qed.

(** Evaluate lookups in a table after abstract operations on blocks that are
    known to be equal or different. *)
Ltac look :=
  repeat ((progress unfold view) || (progress autorewrite with acache) || (rewrite decide_True by done) || (rewrite decide_False by congruence) ||
          (progress cbn [ac_held ac_disk ac_writes fmap option_fmap option_map mbind option_bind
                         h_buf h_ref h_lock h_data hold_data hold_ref]) ||
          match goal with E : _ !! _ = _ |- _ => rewrite E end).
Ltac held := eexists; split; [look; reflexivity|split; reflexivity].

Section steps.
Context (l : lstate) (H : gmap Z hold) (D : gmap Z block) (W : list (Z * block)).
Context (R : cache_rel (lg_cache l) (ACache H D W)) (Hdev : lg_dev l = ROOTDEV).

(** One round of write_log copies a pinned block to its log block. *)
Lemma write_log_step tail blk lb h :
  lblock l tail = blk -> w32 (lg_start l + tail + 1) = lb -> H !! lb = None -> H !! blk = Some h ->
  h_lock h = false -> h_ref h = 1 -> (size H < Z.to_nat NBUF)%nat ->
  wp (dev ← gets lg_dev; start ← gets lg_start; src ← gets (fun l => lblock l tail);
      to ← bc (bread dev (w32 (start + tail + 1)));
      from ← bc (bread dev src);
      d ← bc (bdata from);
      bc (bdata_set to (fun _ => d));;
      bc (bwrite to);;
      bc (brelse from);;
      bc (brelse to))
    (fun _ l' => exists c, l' = set_lcache c l /\       cache_rel c (ACache H (<[lb := h_data h]> D) (W ++ [(lb, h_data h)]))) l.
Proof.
  intros Eblk Elb Hlb Hblk Lk Rf Hsz. assert (blk <> lb) as Hne by congruence. destruct h as [hb hr hl hd]. simpl in *. subst hr hl.
  wp_steps. rewrite Hdev, Eblk, Elb.
  apply (l_bread _ _ R); [unfold readable; by look|]. intros b1 c1 R1 _.
  wp_step. eapply (l_bread (set_lcache c1 l)); [exact R1|unfold readable; look; done|]. intros b2 c2 R2 H2.
  assert (b2 = hb) as ->. { destruct H2 as (h & E & <- & _). revert E. look. naive_solver. }
  wp_step. eapply (l_bdata (set_lcache c2 _)); [exact R2|exact H2|].
  wp_step. apply (l_bdata_set (set_lcache c2 _) _ R2 b1 lb); [held|]. intros c3 R3.
  wp_step. apply (l_bwrite (set_lcache c3 _) _ R3 b1 lb); [held|]. intros c4 R4.
  wp_step. apply (l_brelse (set_lcache c4 _) _ R4 hb blk); [held| |].
  { look. intros h [= <-] [=]. }
  intros c5 R5. apply (l_brelse (set_lcache c5 _) _ R5 b1 lb); [held| |].
  { look. intros h [= <-] _. done. }
  intros c6 R6. exists c6. split; [done|].
  erewrite acache_eq in R6; [exact R6| |by look|by look]. intros k.
  destruct (decide (k = lb)) as [->|]; [by look|]. destruct (decide (k = blk)) as [->|]; by look.
Qed.

(** One round of install_trans copies a log block to its home location. *)
Lemma install_step (recovering : bool) tail blk lb :
  lblock l tail = blk -> w32 (lg_start l + tail + 1) = lb -> H !! lb = None -> blk <> lb ->
  (if recovering then H !! blk = None /\ (S (size H) < Z.to_nat NBUF)%nat
   else exists h, H !! blk = Some h /\ h_lock h = false /\ h_ref h = 1 /\ (size H < Z.to_nat NBUF)%nat) ->
  wp (dev ← gets lg_dev; start ← gets lg_start; dst ← gets (fun l => lblock l tail);
      lbuf ← bc (bread dev (w32 (start + tail + 1)));
      dbuf ← bc (bread dev dst);
      d ← bc (bdata lbuf);
      bc (bdata_set dbuf (fun _ => d));;
      bc (bwrite dbuf);;
      (when negb recovering do bc (bunpin dbuf));;
      bc (brelse lbuf);;
      bc (brelse dbuf))
    (fun _ l' => exists c, l' = set_lcache c l /\
       cache_rel c (ACache (delete blk H) (<[blk := disk_block D lb]> D) (W ++ [(blk, disk_block D lb)]))) l.
Proof.
  intros Eblk Elb Hlb Hne Hrec. wp_steps. rewrite Hdev, Eblk, Elb.
  apply (l_bread _ _ R); [unfold readable; look; destruct recovering; naive_solver lia|]. intros b1 c1 R1 _.
  wp_step. apply (l_bread (set_lcache c1 l) _ R1).
  { unfold readable. destruct recovering.
    - destruct Hrec as [Hn Hsz]. look. unfold a_get, set_held. cbn [ac_held]. by rewrite map_size_insert_None.
    - destruct Hrec as (h & Hh & Lk & Rf & _). look. rewrite Rf. done. }
  intros b2 c2 R2 H2.
  wp_step. apply (l_bdata (set_lcache c2 _) _ R2 b1 lb); [held|].
  replace (view _ lb) with (disk_block D lb) by (by look).
  wp_step. apply (l_bdata_set (set_lcache c2 _) _ R2 b2 blk); [exact H2|]. intros c3 R3.
  destruct recovering; cbn [negb].
  - destruct Hrec as [Hn _].
    wp_step. apply (l_bwrite (set_lcache c3 _) _ R3 b2 blk); [held|]. intros c4 R4.
    wp_step. wp_step. wp_step. apply (l_brelse (set_lcache c4 _) _ R4 b1 lb); [held| |].
    { look. by intros h [= <-] _. }
    intros c5 R5. apply (l_brelse (set_lcache c5 _) _ R5 b2 blk); [held| |].
    { look. by intros h [= <-] _. }
    intros c6 R6. exists c6. split; [done|].
    erewrite acache_eq in R6; [exact R6| |by look|by look]. intros k. rewrite delete_id by done.
    destruct (decide (k = lb)) as [->|]; [by look|]. destruct (decide (k = blk)) as [->|]; by look.
  - destruct Hrec as ([hb hr hl hd] & Hh & Lk & Rf & _). simpl in Lk, Rf. subst hl hr.
    assert (b2 = hb) as ->. { destruct H2 as (h' & E & <- & _). revert E. look. by intros [= <-]. }
    wp_step. apply (l_bwrite (set_lcache c3 _) _ R3 hb blk); [held|]. intros c4 R4.
    wp_step. eapply (l_bunpin (set_lcache c4 _) _ R4 hb blk); [look; reflexivity|done|done|]. intros c4' R4'.
    wp_step. apply (l_brelse (set_lcache c4' _) _ R4' b1 lb); [held| |].
    { look. by intros h [= <-] _. }
    intros c5 R5. apply (l_brelse (set_lcache c5 _) _ R5 hb blk); [held| |].
    { look. by intros h [= <-] _. }
    intros c6 R6. exists c6. split; [done|].
    erewrite acache_eq in R6; [exact R6| |by look|by look]. intros k. rewrite lookup_delete.
    destruct (decide (k = lb)) as [->|]; [by look|]. destruct (decide (k = blk)) as [->|]; by look.
Qed.

(** The header block with [i] entries filled in, from its old content. *)
Definition hdr_fill (h : block) (n : Z) (f : Z -> Z) (i : Z) : block :=
  foldl (fun h j => set_u32 h (4 + 4 * j) (f j)) (set_u32 h 0 (w32 n)) (seqZ 0 i).

Lemma hdr_fill_S h n f i : 0 <= i -> hdr_fill h n f (i + 1) = set_u32 (hdr_fill h n f i) (4 + 4 * i) (f i).
Proof. intros Hi. unfold hdr_fill. rewrite seqZ_app by lia. rewrite foldl_app. done. Qed.

Lemma write_head_wp start :
  lg_start l = start -> H !! start = None -> (size H < Z.to_nat NBUF)%nat ->
  let x := hdr_fill (disk_block D start) (lg_n l) (lblock l) (Z.max 0 (lg_n l)) in
  wp write_head (fun _ l' => exists c, l' = set_lcache c l /\
    cache_rel c (ACache H (<[start := x]> D) (W ++ [(start, x)]))) l.
Proof.
  intros Es Hn Hsz x. unfold write_head. wp_steps. rewrite Hdev, Es.
  apply (l_bread _ _ R); [unfold readable; by look|]. intros b c1 R1 _. wp_step. wp_step. wp_step.
  apply (l_bdata_set (set_lcache c1 _) _ R1 b start); [held|]. intros c2 R2.
  eapply wp_call.
  - unfold for_tail. wp_steps. apply (wp_for_z (fun i l' => 0 <= i /\ exists c, l' = set_lcache c l /\
      cache_rel c (ACache (<[start := Hold b 1 true (hdr_fill (disk_block D start) (lg_n l) (lblock l) i)]> H) D W))).
    + split; [done|]. exists c2. split; [done|]. erewrite acache_eq in R2; [exact R2| |by look|by look].
      intros k. rewrite lookup_insert. destruct (decide (start = k)) as [<-|]; by look.
    + intros i l' Hi (H0 & c & -> & Rc). wp_steps.
      eapply (l_bdata_set (set_lcache c l) _ Rc b start).
      { eexists. cbn [ac_held]. rewrite lookup_insert_eq. split; [reflexivity|done]. }
      intros c' R'. split; [lia|]. exists c'. split; [done|]. rewrite hdr_fill_S by done.
      erewrite acache_eq in R'; [exact R'| |done|done].
      intros k. rewrite hget_set. cbn [ac_held]. rewrite !lookup_insert.
      repeat case_decide; subst; try done.
  - intros u l' (_ & c & -> & Rc). rewrite Z.add_0_l in Rc. cbn [lg_n set_lcache] in Rc.
    replace (Z.of_nat (Z.to_nat (lg_n l))) with (Z.max 0 (lg_n l)) in Rc by lia. fold x in Rc.
    wp_step. apply (l_bwrite (set_lcache c l) _ Rc b start).
    { eexists. cbn [ac_held]. rewrite lookup_insert_eq. split; [reflexivity|done]. }
    intros c3 R3. apply (l_brelse (set_lcache c3 _) _ R3 b start).
    { eexists. look. rewrite lookup_insert_eq. split; [reflexivity|done]. }
    { look. rewrite lookup_insert_eq. by intros h [= <-] _. }
    intros c4 R4. exists c4. split; [done|]. assert (view (ACache (<[start := Hold b 1 true x]> H) D W) start = x) as Ev.
    { unfold view. cbn [ac_held]. by rewrite lookup_insert_eq. }
    erewrite acache_eq in R4; [exact R4| | |].
    + intros k. look. rewrite lookup_insert. destruct (decide (k = start)) as [->|]; repeat case_decide; by simplify_eq.
    + rewrite dget_put, dget_write, Ev. done.
    + rewrite wget_put, wget_write, Ev. done.
Qed.
End steps.

(** ** The header block *)

(** What the header decodes to after [i] entries were stored. *)
Definition hdr_ok (h : block) (n : Z) (f : Z -> Z) (i : Z) : Prop :=
  length h = Z.to_nat BSIZE /\ u32_at h 0 = w32 n /\ forall j, 0 <= j < i -> hdr_block h j = w32 (f j).

Lemma hdr_fill_ok h n f i : length h = Z.to_nat BSIZE -> 0 <= i <= LOGBLOCKS -> hdr_ok (hdr_fill h n f i) n f i.
Proof.
  intros Hl [H0 Hi]. assert (Z.of_nat (Z.to_nat BSIZE) = 1024) as HB by done.
  rewrite <- (Z2Nat.id i) in Hi |- * by done. clear H0. induction (Z.to_nat i) as [|k IH].
  - unfold hdr_fill. change (seqZ 0 (Z.of_nat 0)) with (@nil Z). cbn [foldl]. split_and!; [|unfold w32|lia].
    + rewrite set_u32_length; [done|lia|rewrite Hl; lia].
    + rewrite u32_set_eq; [|lia|rewrite Hl; lia]. apply w32_id, w32_range.
  - destruct IH as (L & N & B); [unfold LOGBLOCKS, MAXOPBLOCKS in *; lia|].
    replace (Z.of_nat (S k)) with (Z.of_nat k + 1) in * by lia. rewrite hdr_fill_S by lia.
    unfold LOGBLOCKS, MAXOPBLOCKS in Hi. split_and!.
    + rewrite set_u32_length; [done|lia|rewrite L; lia].
    + rewrite u32_set_ne; [done|lia|rewrite L; lia|lia|lia].
    + intros j Hj. unfold hdr_block. destruct (decide (j = Z.of_nat k)) as [->|].
      * rewrite u32_set_eq; [done|lia|rewrite L; lia].
      * rewrite u32_set_ne; [apply B; lia|lia|rewrite L; lia|lia|lia].
Qed.

Lemma hdr_ok_n h n f i : hdr_ok h n f i -> 0 <= n < 2 ^ 31 -> hdr_n h = n.
Proof. intros (_ & E & _) Hn. unfold hdr_n. rewrite E, w32_id by lia. apply s32_id. lia. Qed.

(** ** The loops of commit and recovery *)

Definition region (start b : Z) : Prop := start <= b <= start + LOGBLOCKS.
Definition log_fits (start : Z) : Prop := 0 <= start /\ start + LOGBLOCKS < 2 ^ 31.
#[export] Instance region_dec start b : Decision (region start b).
Proof. unfold region. apply _. Defined.

Definition log_writes (start : Z) (data : Z -> block) (n : Z) : list (Z * block) :=
  (fun i => (start + 1 + i, data i)) <$> seqZ 0 n.
Definition home_writes (bl : Z -> Z) (data : Z -> block) (n : Z) : list (Z * block) :=
  (fun i => (bl i, data i)) <$> seqZ 0 n.
Definition remaining (bl : Z -> Z) (H : gmap Z hold) (n : Z) : gmap Z hold :=
  foldl (fun H i => delete (bl i) H) H (seqZ 0 n).

Lemma seqZ_S n : 0 <= n -> seqZ 0 (n + 1) = seqZ 0 n ++ [n].
Proof. intros Hn. rewrite seqZ_app by lia. done. Qed.

Lemma log_writes_S start data n : 0 <= n -> log_writes start data (n + 1) = log_writes start data n ++ [(start + 1 + n, data n)].
Proof. intros Hn. unfold log_writes. by rewrite seqZ_S, fmap_app. Qed.
Lemma home_writes_S bl data n : 0 <= n -> home_writes bl data (n + 1) = home_writes bl data n ++ [(bl n, data n)].
Proof. intros Hn. unfold home_writes. by rewrite seqZ_S, fmap_app. Qed.
Lemma remaining_S bl H n : 0 <= n -> remaining bl H (n + 1) = delete (bl n) (remaining bl H n).
Proof. intros Hn. unfold remaining. by rewrite seqZ_S, foldl_app. Qed.

Lemma log_lb start i : log_fits start -> 0 <= i < LOGBLOCKS -> w32 (start + i + 1) = start + 1 + i.
Proof. intros [H0 H1] Hi. rewrite w32_id by lia. lia. Qed.

Lemma write_log_wp l H D W :
  cache_rel (lg_cache l) (ACache H D W) -> lg_dev l = ROOTDEV -> log_fits (lg_start l) ->
  0 <= lg_n l <= LOGBLOCKS -> (size H < Z.to_nat NBUF)%nat ->
  (forall k, region (lg_start l) k -> H !! k = None) ->
  (forall i, 0 <= i < lg_n l -> exists h, H !! lblock l i = Some h /\ h_lock h = false /\ h_ref h = 1) ->
  let ws := log_writes (lg_start l) (fun i => view (ACache H D W) (lblock l i)) (lg_n l) in
  wp write_log (fun _ l' => exists c, l' = set_lcache c l /\
    cache_rel c (ACache H (apply_writes ws D) (W ++ ws))) l.
Proof.
  intros R Hdev Hf Hn Hsz Hr Hpin ws. unfold write_log, for_tail. wp_steps.
  set (data := fun i => view (ACache H D W) (lblock l i)) in ws.
  eapply wp_mono.
  - apply (wp_for_z (fun i l' => 0 <= i /\ exists c, l' = set_lcache c l /\
      cache_rel c (ACache H (apply_writes (log_writes (lg_start l) data i) D) (W ++ log_writes (lg_start l) data i)))).
    + split; [done|]. exists (lg_cache l). split; [by destruct l|]. by rewrite app_nil_r.
    + intros i l' Hi (H0 & c & -> & Rc). destruct (Hpin i) as (h & Hh & Lk & Rf); [lia|].
      eapply wp_mono; [eapply (write_log_step (set_lcache c l) _ _ _ Rc Hdev i (lblock l i) (lg_start l + 1 + i) h); try done|].
      * apply log_lb; [done|lia].
      * apply Hr. unfold region. lia.
      * intros u l' (c' & -> & R'). split; [lia|]. exists c'. split; [done|].
        rewrite log_writes_S, apply_writes_snoc, app_assoc by done. cbn [fst snd].
        replace (data i) with (h_data h) by (unfold data, view; cbn [ac_held]; by rewrite Hh). done.
  - intros u l' (_ & c & -> & Rc). exists c. split; [done|].
    by rewrite Z.add_0_l, Z2Nat.id in Rc by lia.
Qed.

Lemma install_wp (recovering : bool) l H D W :
  cache_rel (lg_cache l) (ACache H D W) -> lg_dev l = ROOTDEV -> log_fits (lg_start l) ->
  0 <= lg_n l <= LOGBLOCKS ->
  (forall i k, 0 <= i <= lg_n l -> region (lg_start l) k -> remaining (lblock l) H i !! k = None) ->
  (forall i, 0 <= i < lg_n l -> ~ region (lg_start l) (lblock l i)) ->
  (forall i, 0 <= i < lg_n l -> let Hi := remaining (lblock l) H i in
    if recovering then Hi !! lblock l i = None /\ (S (size Hi) < Z.to_nat NBUF)%nat
    else exists h, Hi !! lblock l i = Some h /\ h_lock h = false /\ h_ref h = 1 /\ (size Hi < Z.to_nat NBUF)%nat) ->
  let ws := home_writes (lblock l) (fun i => disk_block D (lg_start l + 1 + i)) (lg_n l) in
  wp (install_trans recovering) (fun _ l' => exists c, l' = set_lcache c l /\
    cache_rel c (ACache (remaining (lblock l) H (lg_n l)) (apply_writes ws D) (W ++ ws))) l.
Proof.
  intros R Hdev Hf Hn Hreg Hhome Hpin ws. unfold install_trans, for_tail. wp_steps.
  set (data := fun i => disk_block D (lg_start l + 1 + i)) in ws. eapply wp_mono.
  - apply (wp_for_z (fun i l' => 0 <= i /\ exists c, l' = set_lcache c l /\
      cache_rel c (ACache (remaining (lblock l) H i) (apply_writes (home_writes (lblock l) data i) D)
                          (W ++ home_writes (lblock l) data i)))).
    + split; [done|]. exists (lg_cache l). split; [by destruct l|]. by rewrite app_nil_r.
    + intros i l' Hi (H0 & c & -> & Rc).
      assert (region (lg_start l) (lg_start l + 1 + i)) as Hlb by (unfold region; lia).
      eapply wp_mono; [eapply (install_step (set_lcache c l) _ _ _ Rc Hdev recovering i (lblock l i) (lg_start l + 1 + i)); try done|].
      * apply log_lb; [done|lia].
      * apply Hreg; [lia|done].
      * intros E. apply (Hhome i); [lia|]. by rewrite E.
      * apply Hpin. lia.
      * intros u l' (c' & -> & R'). split; [lia|]. exists c'. split; [done|].
        rewrite home_writes_S, apply_writes_snoc, remaining_S, app_assoc by done. cbn [fst snd].
        replace (data i) with (disk_block (apply_writes (home_writes (lblock l) data i) D) (lg_start l + 1 + i)); [done|].
        apply apply_writes_notin. unfold home_writes. rewrite <- list_fmap_compose.
        intros (j & Ej & Hj%elem_of_seqZ)%list_elem_of_fmap. cbn in Ej. apply (Hhome j); [lia|]. by rewrite <- Ej.
  - intros u l' (_ & c & -> & Rc). exists c. split; [done|].
    by rewrite Z.add_0_l, Z2Nat.id in Rc by lia.
Qed.

(** ** Recovery *)

Definition with_head (n : Z) (bl : list Z) (l : lstate) : lstate :=
  LState (lg_cache l) (lg_start l) (lg_outstanding l) (lg_committing l) (lg_dev l) n bl.

Lemma read_head_wp l H D W :
  cache_rel (lg_cache l) (ACache H D W) -> lg_dev l = ROOTDEV -> H !! lg_start l = None -> (size H < Z.to_nat NBUF)%nat ->
  length (lg_block l) = Z.to_nat LOGBLOCKS ->
  let h := disk_block D (lg_start l) in
  0 <= hdr_n h <= LOGBLOCKS ->
  wp read_head (fun _ l' => exists c bl, l' = set_lcache c (with_head (hdr_n h) bl l) /\ length bl = Z.to_nat LOGBLOCKS /\
    (forall i, 0 <= i < hdr_n h -> lblock l' i = hdr_block h i) /\ cache_rel c (ACache H D W)) l.
Proof.
  intros R Hdev Hs Hsz Hlen h Hn. unfold read_head. wp_steps. rewrite Hdev.
  apply (l_bread _ _ R); [unfold readable; by look|]. intros b c1 R1 _. wp_step.
  apply (l_bdata (set_lcache c1 _) _ R1 b (lg_start l)); [held|].
  replace (view _ (lg_start l)) with h by (by look). wp_steps. eapply wp_mono.
  - unfold for_tail. wp_steps. cbn [set_ln lg_n].
    apply (wp_for_z (fun i l' => exists bl, l' = set_lcache c1 (with_head (hdr_n h) bl l) /\ length bl = Z.to_nat LOGBLOCKS /\
      forall j, 0 <= j < i -> lblock l' j = hdr_block h j)).
    + exists (lg_block l). split_and!; [done|done|lia].
    + intros i l' Hi (bl & -> & Hl & Hb). destruct (Z.leb_spec LOGBLOCKS i); [lia|]. wp_steps.
      exists (<[Z.to_nat i := hdr_block h i]> bl). split_and!; [done|by rewrite length_insert|].
      intros j Hj. unfold lblock. cbn [set_lblock set_lcache with_head lg_block]. rewrite nth_lookup.
      rewrite lookup_insert_Z by lia. case_decide as E; [by subst|].
      rewrite <- Hb by lia. unfold lblock. cbn [set_lcache with_head lg_block]. by rewrite nth_lookup.
  - intros u l' (bl & -> & Hl & Hb). apply (l_brelse (set_lcache c1 _) _ R1 b (lg_start l)); [held| |].
    { look. by intros k [= <-] _. }
    intros c2 R2. exists c2, bl. split_and!; [done|done|intros i Hi; apply Hb; lia|].
    erewrite acache_eq in R2; [exact R2| |by look|by look].
    intros k. destruct (decide (k = lg_start l)) as [->|]; by look.
Qed.

(** The on-disk log describes blocks outside of the log area. *)
Record log_valid (start : Z) (D : gmap Z block) : Prop := {
  lv_len : length (disk_block D start) = Z.to_nat BSIZE;
  lv_n : 0 <= hdr_n (disk_block D start) <= LOGBLOCKS;
  lv_home : forall i, 0 <= i < hdr_n (disk_block D start) -> ~ region start (hdr_block (disk_block D start) i)
}.

Definition install_writes (start : Z) (D : gmap Z block) : list (Z * block) :=
  home_writes (hdr_block (disk_block D start)) (fun i => disk_block D (start + 1 + i)) (hdr_n (disk_block D start)).
Definition cleared (start : Z) (D : gmap Z block) : block := set_u32 (disk_block D start) 0 0.
Definition recovery_writes (start : Z) (D : gmap Z block) : list (Z * block) :=
  install_writes start D ++ [(start, cleared start D)].

Lemma home_writes_ext bl bl' data n : (forall i, 0 <= i < n -> bl i = bl' i) -> home_writes bl data n = home_writes bl' data n.
Proof.
  intros E. unfold home_writes. apply list_fmap_ext. intros k i Hk. f_equal. apply E.
  apply list_elem_of_lookup_2 in Hk. apply elem_of_seqZ in Hk. lia.
Qed.

Lemma remaining_empty bl n : remaining bl ∅ n = ∅.
Proof. unfold remaining. induction (seqZ 0 n) as [|i t IH]; cbn [foldl]; [done|]. by rewrite delete_empty. Qed.

Lemma home_writes_fst bl data n b : b ∈ (home_writes bl data n).*1 -> exists i, 0 <= i < n /\ b = bl i.
Proof.
  unfold home_writes. rewrite <- list_fmap_compose.
  intros (j & Ej & Hj%elem_of_seqZ)%list_elem_of_fmap. exists j. split; [lia|done].
Qed.

Lemma install_writes_header start D :
  log_valid start D -> disk_block (apply_writes (install_writes start D) D) start = disk_block D start.
Proof.
  intros V. apply apply_writes_notin. intros (i & Hi & E)%home_writes_fst.
  apply (lv_home _ _ V i Hi). rewrite <- E. unfold region, LOGBLOCKS, MAXOPBLOCKS. lia.
Qed.

Lemma empty_room : (size (∅ : gmap Z hold) < Z.to_nat NBUF)%nat.
Proof. vm_compute. lia. Qed.

Lemma recover_wp l D W :
  cache_rel (lg_cache l) (ACache ∅ D W) -> lg_dev l = ROOTDEV -> log_fits (lg_start l) ->
  length (lg_block l) = Z.to_nat LOGBLOCKS -> log_valid (lg_start l) D ->
  let ws := recovery_writes (lg_start l) D in
  wp recover_from_log (fun _ l' => exists c bl, l' = set_lcache c (with_head 0 bl l) /\ length bl = Z.to_nat LOGBLOCKS /\
    cache_rel c (ACache ∅ (apply_writes ws D) (W ++ ws))) l.
Proof.
  intros R Hdev Hf Hlen V ws. pose proof (lv_n _ _ V) as Hn. set (h := disk_block D (lg_start l)) in *.
  unfold recover_from_log. eapply wp_call; [apply (read_head_wp l ∅ D W); try done; apply empty_room|].
  cbv beta. fold h. intros u l1 (c1 & bl & -> & Hl & Hb & R1).
  set (l1 := set_lcache c1 (with_head (hdr_n h) bl l)) in *.
  eapply wp_call; [apply (install_wp true l1 ∅ D W); try done|].
  - intros i k Hi Hk. rewrite remaining_empty. apply lookup_empty.
  - intros i Hi. rewrite Hb by done. by apply (lv_home _ _ V).
  - intros i Hi Hi'. unfold Hi'. rewrite remaining_empty. split; [apply lookup_empty|]. by vm_compute; lia.
  - cbv beta. intros v l2 (c2 & -> & R2). rewrite remaining_empty in R2. wp_step. wp_step.
    eapply wp_mono; [apply (write_head_wp (set_ln 0 (set_lcache c2 l1)) ∅ _ _ R2 Hdev (lg_start l)); try done; apply empty_room|].
    cbv beta. intros w l3 (c3 & -> & R3). exists c3, bl. split_and!; [done|done|].
    assert (home_writes (lblock l1) (fun i => disk_block D (lg_start l1 + 1 + i)) (lg_n l1) = install_writes (lg_start l) D) as E.
    { apply home_writes_ext. exact Hb. }
    rewrite E, <- app_assoc in R3. unfold ws, recovery_writes. rewrite apply_writes_snoc. cbn [fst snd].
    unfold hdr_fill in R3. cbn in R3. rewrite install_writes_header in R3 by done. exact R3.
Qed.
