(* ===== verification/LogCrash.v ===== *)
(** * The log: crash safety

    A crash stops the kernel after some prefix of the disk writes it has
    issued.  [recovered] is the disk that recovery produces; the lemmas here
    compute it after every prefix of the writes of a commit and of a recovery. *)
From stdpp Require Import base tactics numbers list strings gmap.
From Stdlib Require Import ZArith Lia.
From S2P Require Import Prelude Block Bio BioSpec BioCache Log LogSpec.

Open Scope Z_scope.

Definition recovered (start : Z) (D : gmap Z block) : gmap Z block := apply_writes (install_writes start D) D.

(** Two disks with the same blocks outside of the log area. *)
Definition same_home (start : Z) (D D' : gmap Z block) : Prop :=
  forall b, ~ region start b -> disk_block D b = disk_block D' b.

#[export] Instance same_home_equiv start : Equivalence (same_home start).
Proof.
  split.
  - by intros D b _.
  - intros D D' E b Hb. symmetry. by apply E.
  - intros D D' D'' E E' b Hb. rewrite E by done. by apply E'.
Qed.

Lemma apply_writes_cover ws d d' b :
  b ∈ ws.*1 -> disk_block (apply_writes ws d) b = disk_block (apply_writes ws d') b.
Proof.
  induction ws as [|p ws IH] using rev_ind; [by intros ?%elem_of_nil|]. rewrite fmap_app, elem_of_app.
  intros Hb. rewrite !apply_writes_snoc. unfold disk_block. destruct (decide (b = p.1)) as [->|N].
  - by rewrite !lookup_insert_eq.
  - rewrite !lookup_insert_ne by done. apply IH. destruct Hb as [|Hb]; [done|]. set_solver.
Qed.

(** Writes outside of the home area, and overwriting a prefix again. *)
Lemma same_home_region start ws D :
  (forall b, b ∈ ws.*1 -> region start b) -> same_home start (apply_writes ws D) D.
Proof. intros Hw b Hb. apply apply_writes_notin. intros Hin. by apply Hb, Hw. Qed.

Lemma apply_writes_again ws k D b :
  disk_block (apply_writes ws (apply_writes (take k ws) D)) b = disk_block (apply_writes ws D) b.
Proof.
  destruct (decide (b ∈ ws.*1)) as [Hin|Hout]; [by apply apply_writes_cover|].
  rewrite !apply_writes_notin; [done|done| |done]. rewrite fmap_take. intros Hin. apply Hout.
  by eapply elem_of_take in Hin as (i & Hi & _); eapply list_elem_of_lookup_2.
Qed.

Lemma install_outside start D b : log_valid start D -> b ∈ (install_writes start D).*1 -> ~ region start b.
Proof. intros V (i & Hi & ->)%home_writes_fst. by apply (lv_home _ _ V). Qed.

(** A partly done installation leaves the log as it was. *)
Lemma install_prefix start D k :
  log_valid start D ->
  let Dk := apply_writes (take k (install_writes start D)) D in
  log_valid start Dk /\ install_writes start Dk = install_writes start D /\
  forall b, region start b -> disk_block Dk b = disk_block D b.
Proof.
  intros V Dk. assert (forall b, region start b -> disk_block Dk b = disk_block D b) as E.
  { intros b Hb. apply apply_writes_notin. rewrite fmap_take.
    intros (i & Hi & _)%elem_of_take. apply list_elem_of_lookup_2 in Hi. by eapply install_outside. }
  assert (disk_block Dk start = disk_block D start) as Eh.
  { apply E. unfold region, LOGBLOCKS, MAXOPBLOCKS. lia. }
  split_and!; [|unfold install_writes; rewrite Eh|done].
  - destruct V as [V1 V2 V3]. constructor; by rewrite Eh.
  - unfold home_writes. apply list_fmap_ext. intros j i Hj. apply list_elem_of_lookup_2 in Hj. apply elem_of_seqZ in Hj.
    f_equal. apply E. destruct V as [_ V2 _]. unfold region. lia.
Qed.

Lemma cleared_ok start D : length (disk_block D start) = Z.to_nat BSIZE ->
  hdr_n (cleared start D) = 0 /\ length (cleared start D) = Z.to_nat BSIZE.
Proof.
  intros L. assert (Z.of_nat (Z.to_nat BSIZE) = 1024) as HB by done. unfold cleared, hdr_n. split.
  - rewrite u32_set_eq by (rewrite ?L; lia). done.
  - by rewrite set_u32_length by (rewrite ?L; lia).
Qed.

(** A disk whose log is empty. *)
Definition log_empty (start : Z) (D : gmap Z block) : Prop :=
  hdr_n (disk_block D start) = 0 /\ length (disk_block D start) = Z.to_nat BSIZE.

Lemma log_empty_valid start D : log_empty start D -> log_valid start D /\ recovered start D = D.
Proof.
  intros [E L]. split.
  - constructor; rewrite ?E; [done| |lia]. unfold LOGBLOCKS, MAXOPBLOCKS. lia.
  - unfold recovered, install_writes. by rewrite E.
Qed.

(** Recovery can itself be interrupted: after any prefix of its writes the
    disk recovers to the same content. *)
Lemma recovery_prefix start D k :
  log_valid start D ->
  let Dk := apply_writes (take k (recovery_writes start D)) D in
  log_valid start Dk /\ same_home start (recovered start Dk) (recovered start D).
Proof.
  intros V Dk. unfold recovery_writes in Dk.
  destruct (decide (k <= length (install_writes start D))%nat) as [Hk|Hk].
  - unfold Dk. rewrite take_app_le by done. destruct (install_prefix start D k V) as (V' & E & _).
    split; [done|]. intros b Hb. unfold recovered. rewrite E. apply apply_writes_again.
  - assert (Dk = apply_writes [(start, cleared start D)] (recovered start D)) as ED.
    { unfold Dk, recovered. rewrite take_ge by (rewrite length_app; simpl; lia). apply apply_writes_app. }
    assert (log_empty start Dk) as HE.
    { rewrite ED. unfold log_empty. cbn [apply_writes foldl fst snd]. rewrite disk_block_insert, decide_True by done.
      apply cleared_ok, V. }
    destruct (log_empty_valid _ _ HE) as [V' E]. split; [done|]. rewrite E, ED. apply same_home_region.
    cbn. intros b ->%list_elem_of_singleton. unfold region, LOGBLOCKS, MAXOPBLOCKS. lia.
Qed.

(** Two disks with the same blocks. *)
Definition same_disk (D D' : gmap Z block) : Prop := forall b, disk_block D b = disk_block D' b.
(** The whole disk that a recovery leaves. *)
Definition recovery_result (start : Z) (D : gmap Z block) : gmap Z block := apply_writes (recovery_writes start D) D.

Lemma set_bytes_twice b off l : 0 <= off -> off + Z.of_nat (length l) <= Z.of_nat (length b) -> set_bytes (set_bytes b off l) off l = set_bytes b off l.
Proof.
  intros H0 H. apply list_eq. intros i. rewrite (set_bytes_lookup (set_bytes b off l)); [|done|by rewrite set_bytes_length].
  rewrite set_bytes_lookup by done. by destruct (decide _).
Qed.
Lemma result_header start D : log_valid start D -> disk_block (recovery_result start D) start = cleared start D.
Proof. intros V. unfold recovery_result, recovery_writes. rewrite apply_writes_snoc, disk_block_insert. cbn [fst snd]. by rewrite decide_True. Qed.

(** A prefix of the writes of a recovery leaves a disk with a valid log that
    recovers to the very same disk. *)
Lemma recovery_prefix_disk start D k :
  log_valid start D ->
  let Dk := apply_writes (take k (recovery_writes start D)) D in
  log_valid start Dk /\ same_disk (recovery_result start Dk) (recovery_result start D).
Proof.
  intros V Dk. destruct (recovery_prefix start D k V) as [Vk _]. fold Dk in Vk. split; [done|].
  destruct (decide (k <= length (install_writes start D))%nat) as [Hk|Hk].
  - assert (Dk = apply_writes (take k (install_writes start D)) D) as EDk by (unfold Dk, recovery_writes; by rewrite take_app_le).
    destruct (install_prefix start D k V) as (_ & E & Er). rewrite <- EDk in E, Er.
    assert (recovery_writes start Dk = recovery_writes start D) as EW.
    { unfold recovery_writes, cleared. rewrite E, Er; [done|]. unfold region, LOGBLOCKS, MAXOPBLOCKS. lia. }
    intros b. unfold recovery_result. rewrite EW. apply apply_writes_again.
  - assert (Dk = recovery_result start D) as EDk.
    { unfold Dk, recovery_result. rewrite take_ge; [done|]. unfold recovery_writes. rewrite length_app. cbn. lia. }
    pose proof (result_header start D V) as Eh. destruct (cleared_ok start D (lv_len _ _ V)) as [Ec _].
    assert (recovery_writes start Dk = [(start, cleared start Dk)]) as EW by (unfold recovery_writes, install_writes; by rewrite EDk, Eh, Ec).
    intros b. unfold recovery_result at 1. rewrite EW. unfold apply_writes. cbn [foldl fst snd]. rewrite disk_block_insert.
    destruct (decide (b = start)) as [->|]; [|by rewrite EDk]. rewrite Eh. unfold cleared at 1. rewrite EDk, Eh.
    apply set_bytes_twice; [done|]. rewrite le_bytes_length, (lv_len _ _ V). done.
Qed.

(** ** Commit *)

(** The state in which end_op calls commit: the cache holds exactly the
    blocks of the transaction, pinned once each; the log on disk is empty.  A
    commit needs one more buffer for the log block, so at most NBUF - 1 blocks. *)
Record transaction (l : lstate) (H : gmap Z hold) (D : gmap Z block) : Prop := {
  tx_dev : lg_dev l = ROOTDEV;
  tx_fits : log_fits (lg_start l);
  tx_n : 0 <= lg_n l < NBUF;
  tx_pin : forall i, 0 <= i < lg_n l -> exists h, H !! lblock l i = Some h /\ h_lock h = false /\ h_ref h = 1;
  tx_only : forall k h, H !! k = Some h -> exists i, 0 <= i < lg_n l /\ lblock l i = k;
  tx_inj : forall i j, 0 <= i < lg_n l -> 0 <= j < lg_n l -> lblock l i = lblock l j -> i = j;
  tx_home : forall i, 0 <= i < lg_n l -> 0 <= lblock l i < 2 ^ 32 /\ ~ region (lg_start l) (lblock l i);
  tx_empty : log_empty (lg_start l) D
}.

Lemma remaining_spec bl H n k : 0 <= n ->
  remaining bl H n !! k = if decide (k ∈ bl <$> seqZ 0 n) then None else H !! k.
Proof.
  intros Hn. unfold remaining. induction (seqZ 0 n) as [|i t IH] using rev_ind.
  - cbn [foldl fmap list_fmap]. by rewrite decide_False by apply not_elem_of_nil.
  - rewrite foldl_app, fmap_app. cbn [foldl fmap list_fmap]. rewrite lookup_delete. destruct (decide (bl i = k)) as [<-|N].
    + rewrite decide_True by set_solver. done.
    + rewrite IH. destruct (decide (k ∈ bl <$> t)).
      * rewrite decide_True by set_solver. done.
      * rewrite decide_False by set_solver. done.
Qed.

Lemma elem_of_blocks (bl : Z -> Z) k n : k ∈ bl <$> seqZ 0 n <-> exists i, 0 <= i < n /\ bl i = k.
Proof.
  rewrite list_elem_of_fmap. split.
  - intros (i & -> & Hi%elem_of_seqZ). exists i. split; [lia|done].
  - intros (i & Hi & <-). exists i. split; [done|]. apply elem_of_seqZ. lia.
Qed.

Section commit.
Context (l : lstate) (H : gmap Z hold) (D : gmap Z block) (W : list (Z * block)).
Context (R : cache_rel (lg_cache l) (ACache H D W)) (T : transaction l H D).

Let start := lg_start l.
Let a := ACache H D W.
Let data (i : Z) := view a (lblock l i).

(** The writes before and with the commit point. *)
Definition pre_writes (l : lstate) (a : acache) : list (Z * block) :=
  log_writes (lg_start l) (fun i => view a (lblock l i)) (lg_n l).
Definition commit_header (l : lstate) (D : gmap Z block) : block :=
  hdr_fill (disk_block D (lg_start l)) (lg_n l) (lblock l) (lg_n l).
Definition committed (l : lstate) (a : acache) : gmap Z block :=
  apply_writes (pre_writes l a ++ [(lg_start l, commit_header l (ac_disk a))]) (ac_disk a).
Definition commit_writes (l : lstate) (a : acache) : list (Z * block) :=
  pre_writes l a ++ [(lg_start l, commit_header l (ac_disk a))] ++ recovery_writes (lg_start l) (committed l a).

Lemma tx_size : (size H < Z.to_nat NBUF)%nat.
Proof.
  assert (dom H ⊆@{gset Z} list_to_set (lblock l <$> seqZ 0 (lg_n l))) as Hs.
  { intros k [h Hk]%elem_of_dom. apply elem_of_list_to_set, elem_of_blocks. by eapply (tx_only _ _ _ T). }
  apply subseteq_size in Hs. rewrite size_dom, size_list_to_set in Hs.
  - rewrite length_fmap, length_seqZ in Hs. pose proof (tx_n _ _ _ T). lia.
  - apply NoDup_fmap_2_strong; [|apply NoDup_seqZ]. intros i j Hi%elem_of_seqZ Hj%elem_of_seqZ E.
    by apply (tx_inj _ _ _ T); [lia|lia|].
Qed.

Lemma tx_region k : region start k -> H !! k = None.
Proof.
  intros Hk. destruct (H !! k) as [h|] eqn:E; [|done]. apply (tx_only _ _ _ T) in E as (i & Hi & <-).
  by destruct (tx_home _ _ _ T i Hi).
Qed.

Lemma remaining_size bl (G : gmap Z hold) n : (size (remaining bl G n) <= size G)%nat.
Proof.
  unfold remaining. induction (seqZ 0 n) as [|i t IH] using rev_ind; [done|].
  rewrite foldl_app. cbn [foldl]. etrans; [|exact IH]. apply map_subseteq_size, delete_subseteq.
Qed.

(** The commit point: log blocks and header are on disk. *)
Lemma committed_spec :
  log_valid start (committed l a) /\ install_writes start (committed l a) = home_writes (lblock l) data (lg_n l) /\
  forall i, 0 <= i < lg_n l -> disk_block (committed l a) (start + 1 + i) = data i.
Proof.
  pose proof (tx_n _ _ _ T) as Hn. assert (NBUF = 30 /\ LOGBLOCKS = 30) as [EN EL] by done. destruct (tx_empty _ _ _ T) as [_ HL].
  assert (disk_block (committed l a) start = commit_header l D) as Eh.
  { unfold committed. rewrite apply_writes_snoc, disk_block_insert. by rewrite decide_True. }
  destruct (hdr_fill_ok (disk_block D start) (lg_n l) (lblock l) (lg_n l)) as (L & N & B); [done|lia|].
  change (hdr_fill _ _ _ _) with (commit_header l D) in L, N, B.
  assert (hdr_n (commit_header l D) = lg_n l) as En.
  { unfold hdr_n. rewrite N, w32_id by lia. apply s32_id. lia. }
  assert (forall i, 0 <= i < lg_n l -> hdr_block (commit_header l D) i = lblock l i) as Eb.
  { intros i Hi. rewrite B by done. by apply w32_id, (tx_home _ _ _ T). }
  assert (forall i, 0 <= i < lg_n l -> disk_block (committed l a) (start + 1 + i) = data i) as Ed.
  { intros i Hi. unfold committed. rewrite apply_writes_snoc, disk_block_insert. cbn [fst snd].
    rewrite decide_False by (unfold start; lia). apply apply_writes_in; unfold pre_writes, log_writes.
    - rewrite <- list_fmap_compose. apply NoDup_fmap_2_strong; [|apply NoDup_seqZ]. intros x y _ _. cbn. lia.
    - apply list_elem_of_fmap. exists i. split; [done|]. apply elem_of_seqZ. lia. }
  split_and!; [| |done].
  - constructor; rewrite Eh, ?En; [done|lia|]. intros i Hi. rewrite Eb by done. by apply (tx_home _ _ _ T).
  - unfold install_writes. rewrite Eh, En. unfold home_writes. apply list_fmap_ext. intros j i Hj.
    apply list_elem_of_lookup_2 in Hj. apply elem_of_seqZ in Hj. rewrite Eb, Ed by lia. done.
Qed.

Lemma commit_wp :
  0 < lg_n l ->
  wp commit (fun _ l' => exists c, l' = set_lcache c (set_ln 0 l) /\
    cache_rel c (ACache ∅ (apply_writes (commit_writes l a) D) (W ++ commit_writes l a))) l.
Proof.
  intros Hpos. pose proof (tx_n _ _ _ T) as Hn. assert (NBUF = 30 /\ LOGBLOCKS = 30) as [EN EL] by done.
  pose proof (tx_dev _ _ _ T) as Hdev. pose proof (tx_fits _ _ _ T) as Hf.
  assert (region start start) as Hss by (unfold region; lia).
  destruct committed_spec as (V & EI & Ed).
  unfold commit. wp_steps. destruct (Z.ltb_spec 0 (lg_n l)); [|lia]. wp_step.
  eapply wp_mono; [apply (write_log_wp l H D W R Hdev Hf); [lia|apply tx_size|apply tx_region|apply (tx_pin _ _ _ T)]|].
  intros u1 l1 (c1 & -> & R1). change (log_writes _ _ _) with (pre_writes l a) in R1. wp_step.
  eapply wp_mono; [apply (write_head_wp (set_lcache c1 l) _ _ _ R1 Hdev start); [done|by apply tx_region|apply tx_size]|].
  cbv zeta beta. intros u2 l2 (c2 & -> & R2). rewrite (apply_writes_notin (pre_writes l a)), Z.max_r in R2; [|cbn; lia|].
  2: { unfold pre_writes, log_writes. rewrite <- list_fmap_compose.
       intros (i & E & Hi%elem_of_seqZ)%list_elem_of_fmap. cbn in E. unfold start in E. lia. }
  change (hdr_fill _ _ _ _) with (commit_header l (ac_disk a)) in R2.
  assert (<[start := commit_header l (ac_disk a)]> (apply_writes (pre_writes l a) D) = committed l a) as EC.
  { unfold committed. by rewrite apply_writes_snoc. }
  rewrite EC in R2. wp_step.
  assert (forall i, (size (remaining (lblock l) H i) < Z.to_nat NBUF)%nat) as Hsz.
  { intros i. pose proof (remaining_size (lblock l) H i). pose proof tx_size. lia. }
  eapply wp_mono; [apply (install_wp false (set_lcache c2 l) _ _ _ R2 Hdev Hf); [cbn; lia| | |]|].
  - intros i k Hi Hk. rewrite remaining_spec by lia. destruct (decide _); [done|]. by apply tx_region.
  - intros i Hi. by apply (tx_home _ _ _ T).
  - intros i Hi Hi'. destruct (tx_pin _ _ _ T i Hi) as (h & Hh & Lk & Rf). exists h. unfold Hi'.
    rewrite remaining_spec by lia. rewrite decide_False; [by split_and!|].
    intros (j & Hj & E)%elem_of_blocks. apply (tx_inj _ _ _ T) in E; [lia|cbn in *; lia|done].
  - cbv zeta beta. intros u3 l3 (c3 & -> & R3).
    change (lblock (set_lcache c2 l)) with (lblock l) in R3. change (lg_n (set_lcache c2 l)) with (lg_n l) in R3.
    assert (home_writes (lblock l) (fun i => disk_block (committed l a) (lg_start (set_lcache c2 l) + 1 + i)) (lg_n l)
      = install_writes start (committed l a)) as EW.
    { rewrite EI. unfold home_writes. apply list_fmap_ext. intros j i Hj.
      apply list_elem_of_lookup_2 in Hj. apply elem_of_seqZ in Hj. f_equal. apply Ed. lia. }
    assert (remaining (lblock l) H (lg_n l) = ∅) as ER.
    { apply map_eq. intros k. rewrite remaining_spec by lia. rewrite lookup_empty. case_decide as E; [done|].
      destruct (H !! k) eqn:Ek; [|done]. destruct E. apply elem_of_blocks. by eapply (tx_only _ _ _ T). }
    rewrite ER, EW in R3. wp_step. wp_step.
    eapply wp_mono; [apply (write_head_wp (set_ln 0 (set_lcache c3 l)) _ _ _ R3 Hdev start); [done|apply lookup_empty|apply empty_room]|].
    cbv zeta beta. intros u4 l4 (c4 & -> & R4). exists c4. split; [done|].
    change (hdr_fill ?h _ _ _) with (set_u32 h 0 0) in R4. rewrite install_writes_header in R4 by done.
    unfold commit_writes, recovery_writes. rewrite !app_assoc.
    rewrite apply_writes_snoc, (apply_writes_app (pre_writes l a ++ _)). exact R4.
Qed.

(** The disk after the transaction: what the users of the cache saw. *)
Definition after (l : lstate) (a : acache) (E : gmap Z block) : Prop :=
  forall b, ~ region (lg_start l) b -> disk_block E b = view a b.

Lemma committed_after : after l a (recovered start (committed l a)).
Proof.
  destruct committed_spec as (V & EI & Ed). intros b Hb. unfold recovered. rewrite EI.
  destruct (H !! b) as [h|] eqn:E.
  - destruct (tx_only _ _ _ T _ _ E) as (i & Hi & <-). apply apply_writes_in; unfold home_writes.
    + rewrite <- list_fmap_compose. apply NoDup_fmap_2_strong; [|apply NoDup_seqZ].
      intros x y Hx%elem_of_seqZ Hy%elem_of_seqZ. cbn. apply (tx_inj _ _ _ T); lia.
    + apply list_elem_of_fmap. exists i. split; [done|]. apply elem_of_seqZ. lia.
  - rewrite apply_writes_notin.
    + unfold view, a. cbn [ac_held ac_disk]. rewrite E. unfold committed. apply apply_writes_notin.
      rewrite fmap_app, elem_of_app. intros [Hin|Hin%list_elem_of_singleton].
      * unfold pre_writes, log_writes in Hin. rewrite <- list_fmap_compose in Hin.
        apply list_elem_of_fmap in Hin as (i & -> & Hi%elem_of_seqZ). apply Hb. pose proof (tx_n _ _ _ T).
        assert (NBUF = 30 /\ LOGBLOCKS = 30) as [EN EL] by done. unfold region. cbn. lia.
      * subst. apply Hb. unfold region, LOGBLOCKS, MAXOPBLOCKS. cbn. lia.
    + intros (i & Hi & ->)%home_writes_fst. destruct (tx_pin _ _ _ T i Hi) as (h & Hh & _). congruence.
Qed.

(** A crash at any point of the commit recovers to the old or to the new
    contents; to the new ones from the header write on. *)
Lemma commit_prefix k :
  let Dk := apply_writes (take k (commit_writes l a)) D in
  log_valid start Dk /\
  if decide (k <= length (pre_writes l a))%nat then same_home start (recovered start Dk) D
  else after l a (recovered start Dk).
Proof.
  intros Dk. destruct committed_spec as (V & EI & Ed). pose proof (tx_n _ _ _ T) as Hn.
  assert (NBUF = 30 /\ LOGBLOCKS = 30) as [EN EL] by done. destruct (decide _) as [Hk|Hk].
  - assert (forall b, b ∈ (take k (pre_writes l a)).*1 -> start < b <= start + LOGBLOCKS) as Hreg.
    { intros b. rewrite fmap_take. intros (i & Hi & _)%elem_of_take. apply list_elem_of_lookup_2 in Hi.
      unfold pre_writes, log_writes in Hi. rewrite <- list_fmap_compose in Hi.
      apply list_elem_of_fmap in Hi as (j & -> & Hj%elem_of_seqZ). cbn. unfold start. lia. }
    assert (Dk = apply_writes (take k (pre_writes l a)) D) as -> by (unfold Dk, commit_writes; by rewrite take_app_le).
    destruct (log_empty_valid start (apply_writes (take k (pre_writes l a)) D)) as [Vk Ek].
    + unfold log_empty. rewrite apply_writes_notin; [apply (tx_empty _ _ _ T)|]. intros Hin%Hreg. lia.
    + split; [done|]. rewrite Ek. apply same_home_region. intros b Hin%Hreg. unfold region. lia.
  - set (j := (k - length (pre_writes l a) - 1)%nat).
    assert (Dk = apply_writes (take j (recovery_writes start (committed l a))) (committed l a)) as ->.
    { unfold Dk, commit_writes. rewrite app_assoc, take_app_ge by (rewrite length_app; simpl; lia).
      rewrite apply_writes_app. fold (committed l a). f_equal. f_equal. rewrite length_app. simpl. lia. }
    destruct (recovery_prefix start (committed l a) j V) as [Vk Ek]. split; [done|].
    intros b Hb. rewrite Ek by done. by apply committed_after.
Qed.
End commit.
