(* ===== verification/LogInv.v ===== *)
(** * The log: the invariant of an open transaction

    [log_inv] accounts for every reference to a buffer: one for the log if
    the block is in the transaction, one for the holder of its lock.  The file
    system's accesses (bread, modify, log_write, brelse) keep it, and when the
    last operation ends it gives the state that commit starts from. *)
From stdpp Require Import base tactics numbers list strings gmap.
From Stdlib Require Import ZArith Lia.
From S2P Require Import Prelude Block Bio BioSpec BioCache Log LogSpec LogCrash.

Open Scope Z_scope.

Definition logged (l : lstate) : list Z := lblock l <$> seqZ 0 (lg_n l).
Definition home_block (start b : Z) : Prop := 0 <= b < 2 ^ 32 /\ ~ region start b.
Definition bit (b : bool) : Z := if b then 1 else 0.

Record log_inv (l : lstate) (a : acache) : Prop := {
  li_rel : cache_rel (lg_cache l) a;
  li_dev : lg_dev l = ROOTDEV;
  li_fits : log_fits (lg_start l);
  li_len : length (lg_block l) = Z.to_nat LOGBLOCKS;
  li_n : 0 <= lg_n l <= LOGBLOCKS;
  li_dup : NoDup (logged l);
  li_home : forall k, k ∈ logged l -> home_block (lg_start l) k;
  li_pin : forall k, k ∈ logged l -> is_Some (ac_held a !! k);
  li_ref : forall k h, ac_held a !! k = Some h -> h_ref h = bit (bool_decide (k ∈ logged l)) + bit (h_lock h);
  li_range : forall k, is_Some (ac_held a !! k) -> home_block (lg_start l) k;
  li_empty : log_empty (lg_start l) (ac_disk a)
}.

(** Blocks whose lock is held. *)
Definition locked (a : acache) (k : Z) : Prop := exists h, ac_held a !! k = Some h /\ h_lock h = true.

(** The buffers of other blocks stay held as they were. *)
Record keeps_others (blk : Z) (a a' : acache) : Prop := {
  ko_writes : ac_writes a' = ac_writes a;
  ko_held : forall b k, k <> blk -> holding a b k -> holding a' b k
}.

Lemma held_logged l a k h : log_inv l a -> ac_held a !! k = Some h -> k ∈ logged l \/ h_lock h = true.
Proof.
  intros I E. pose proof (li_ref _ _ I _ _ E) as Er.
  destruct (cr_held _ _ (li_rel _ _ I) _ _ E) as [_ (_ & _ & _ & _ & _ & _ & Hp)].
  destruct (decide (k ∈ logged l)) as [|Hn]; [by left|]. right. rewrite bool_decide_false in Er by done.
  destruct (h_lock h); [done|]. simpl in Er. lia.
Qed.

(** Buffers in use: the transaction's blocks and the locked ones. *)
Lemma held_size l a (L : list Z) :
  log_inv l a -> (forall k, locked a k -> k ∈ L) -> Z.of_nat (size (ac_held a)) <= lg_n l + Z.of_nat (length L).
Proof.
  intros I HL. assert (dom (ac_held a) ⊆@{gset Z} list_to_set (logged l) ∪ list_to_set L) as Hs.
  { intros k [h E]%elem_of_dom. apply elem_of_union. rewrite !elem_of_list_to_set.
    destruct (held_logged l a k h I E); [by left|right]. apply HL. by exists h. }
  apply subseteq_size in Hs. rewrite size_dom in Hs.
  assert (forall x : list Z, (size (list_to_set x : gset Z) <= length x)%nat) as Hx.
  { induction x as [|y x IH]; [done|]. cbn [list_to_set length]. rewrite size_union_alt, size_singleton.
    pose proof (subseteq_size (list_to_set x ∖ {[y]}) (list_to_set x : gset Z)). set_solver by lia. }
  rewrite size_union_alt in Hs. pose proof (Hx (logged l)) as H1. pose proof (Hx L) as H2.
  assert (size (list_to_set L ∖ list_to_set (logged l) : gset Z) <= size (list_to_set L : gset Z))%nat.
  { apply subseteq_size. set_solver. }
  unfold logged in H1 at 2. rewrite length_fmap, length_seqZ in H1. pose proof (li_n _ _ I). lia.
Qed.

Lemma logged_cache c l : logged (set_lcache c l) = logged l.
Proof. done. Qed.

(** The parts of [log_inv] that a change of the cache concerns. *)
Lemma log_inv_cache l a c a' :
  log_inv l a -> cache_rel c a' -> ac_disk a' = ac_disk a ->
  (forall k, k ∈ logged l -> is_Some (ac_held a !! k) -> is_Some (ac_held a' !! k)) ->
  (forall k h, ac_held a' !! k = Some h -> h_ref h = bit (bool_decide (k ∈ logged l)) + bit (h_lock h)) ->
  (forall k, is_Some (ac_held a' !! k) -> home_block (lg_start l) k) ->
  log_inv (set_lcache c l) a'.
Proof.
  intros I R Ed Hp Hr Hh. destruct I. constructor; try done.
  - intros k Hk. apply Hp; [done|]. by apply li_pin0.
  - by rewrite Ed.
Qed.

(** ** bread and brelse *)

Lemma log_bread l a blk (L : list Z) :
  log_inv l a -> (forall k, locked a k -> k ∈ L) -> blk ∉ L -> home_block (lg_start l) blk ->
  lg_n l + Z.of_nat (length L) < NBUF ->
  wp (bc (bread ROOTDEV blk)) (fun b l' => exists c a', l' = set_lcache c l /\ log_inv l' a' /\ holding a' b blk /\
    ac_disk a' = ac_disk a /\ (forall k, view a' k = view a k) /\ (forall k, locked a' k <-> locked a k \/ k = blk) /\
    keeps_others blk a a') l.
Proof.
  intros I HL Hnl Hhome Hroom. pose proof (li_rel _ _ I) as R.
  assert (forall h, ac_held a !! blk = Some h -> h_lock h = false) as Hlk.
  { intros h E. destruct (h_lock h) eqn:Lk; [|done]. destruct Hnl. apply HL. by exists h. }
  apply (l_bread _ _ R).
  { unfold readable. destruct (ac_held a !! blk) as [h|] eqn:E.
    - split; [by apply Hlk|]. rewrite (li_ref _ _ I _ _ E), (Hlk h eq_refl). destruct (bool_decide _); simpl; lia.
    - pose proof (held_size l a L I HL). lia. }
  intros b c Rc Hb. exists c, (a_get b blk a). split_and!; [done| |done|done| | |].
  - apply (log_inv_cache l a); [done|done|done| | |].
    + intros k _ Hk. rewrite hget_get. case_decide; [done|done].
    + intros k h. rewrite hget_get. case_decide as Ek; [|apply (li_ref _ _ I)]. subst k. intros [= <-].
      destruct (ac_held a !! blk) as [h|] eqn:E; simpl.
      * rewrite (li_ref _ _ I _ _ E), (Hlk h eq_refl). simpl. lia.
      * rewrite bool_decide_false; [done|]. intros Hin%(li_pin _ _ I). rewrite E in Hin. by destruct Hin.
    + intros k. rewrite hget_get. case_decide; [by subst|]. apply (li_range _ _ I).
  - intros k. unfold view. rewrite hget_get. case_decide; [subst|done]. by destruct (ac_held a !! blk).
  - intros k. unfold locked. setoid_rewrite hget_get. case_decide as Ek.
    + subst k. split; [by right|]. intros _. eexists. split; [done|]. by destruct (ac_held a !! blk).
    + split; [by left|]. by intros [|].
  - split; [done|]. intros b' k N. unfold holding. by rewrite hget_get, decide_False.
Qed.

Lemma log_brelse l a b blk :
  log_inv l a -> holding a b blk -> (blk ∉ logged l -> view a blk = disk_block (ac_disk a) blk) ->
  wp (bc (brelse b)) (fun _ l' => exists c a', l' = set_lcache c l /\ log_inv l' a' /\
    ac_disk a' = ac_disk a /\ (forall k, view a' k = view a k) /\ (forall k, locked a' k <-> locked a k /\ k <> blk) /\
    keeps_others blk a a') l.
Proof.
  intros I Hb Hc. pose proof Hb as (h & E & <- & Lk). pose proof (li_rel _ _ I) as R.
  pose proof (li_ref _ _ I _ _ E) as Er. rewrite Lk in Er. cbn [bit] in Er.
  assert (h_ref h = 1 -> blk ∉ logged l) as Hnl.
  { intros E1 Hin. rewrite bool_decide_true in Er by done. simpl in Er. lia. }
  apply (l_brelse _ _ R (h_buf h) blk); [done| |].
  { intros h' E' E1. rewrite E in E'. simplify_eq. rewrite <- Hc by auto. unfold view. by rewrite E. }
  intros c Rc. exists c, (a_put blk a). split_and!; [done| |by rewrite dget_put| | |].
  - apply (log_inv_cache l a); [done|done|by rewrite dget_put| | |].
    + intros k Hk Hs. rewrite hget_put. destruct (decide (k = blk)) as [Ek|Ek]; [|done]. subst k. rewrite E. simpl.
      destruct (Z.eqb_spec (h_ref h) 1) as [E1|]; [by destruct Hnl|done].
    + intros k h'. rewrite hget_put. destruct (decide (k = blk)) as [Ek|Ek]; [|apply (li_ref _ _ I)]. subst k. rewrite E. simpl.
      destruct (Z.eqb_spec (h_ref h) 1) as [E1|]; [done|]. intros [= <-]. simpl. lia.
    + intros k. rewrite hget_put. destruct (decide (k = blk)) as [Ek|Ek]; [|apply (li_range _ _ I)]. subst k. intros _.
      apply (li_range _ _ I). by rewrite E.
  - intros k. unfold view. rewrite hget_put, dget_put. destruct (decide (k = blk)) as [Ek|Ek]; [|done]. subst k. rewrite E. simpl.
    destruct (Z.eqb_spec (h_ref h) 1) as [E1|]; [|done]. rewrite <- Hc by auto. unfold view. by rewrite E.
  - intros k. unfold locked. setoid_rewrite hget_put. destruct (decide (k = blk)) as [Ek|Ek]; [|naive_solver].
    subst k. rewrite E. simpl. destruct (h_ref h =? 1); naive_solver.
  - split; [unfold a_put; rewrite E; by destruct (h_ref h =? 1)|]. intros b' k N. unfold holding. by rewrite hget_put, decide_False.
Qed.

Lemma log_bdata_set l a b blk f :
  log_inv l a -> holding a b blk ->
  wp (bc (bdata_set b f)) (fun _ l' => exists c a', l' = set_lcache c l /\ log_inv l' a' /\ holding a' b blk /\
    ac_disk a' = ac_disk a /\ (forall k, view a' k = if decide (k = blk) then f (view a blk) else view a k) /\
    (forall k, locked a' k <-> locked a k) /\ keeps_others blk a a') l.
Proof.
  intros I Hb. pose proof Hb as (h & E & <- & Lk). pose proof (li_rel _ _ I) as R.
  apply (l_bdata_set _ _ R (h_buf h) blk); [done|]. intros c Rc. eexists c, _. split; [done|].
  assert (forall k, ac_held (a_set blk (fun h0 => hold_data (f (h_data h0)) h0) a) !! k =
    if decide (k = blk) then Some (hold_data (f (h_data h)) h) else ac_held a !! k) as G.
  { intros k. rewrite hget_set. destruct (decide (k = blk)) as [->|]; [by rewrite E|done]. }
  split_and!.
  - apply (log_inv_cache l a); [done|exact Rc|done| | |].
    + intros k _ Hs. rewrite G. by destruct (decide (k = blk)).
    + intros k h'. rewrite G. destruct (decide (k = blk)) as [->|]; [|apply (li_ref _ _ I)].
      intros [= <-]. apply (li_ref _ _ I _ _ E).
    + intros k. rewrite G. destruct (decide (k = blk)) as [->|]; [|apply (li_range _ _ I)].
      intros _. apply (li_range _ _ I). by rewrite E.
  - exists (hold_data (f (h_data h)) h). rewrite G, decide_True by done. done.
  - done.
  - intros k. unfold view. rewrite G. destruct (decide (k = blk)) as [->|]; [by rewrite E|done].
  - intros k. unfold locked. setoid_rewrite G. destruct (decide (k = blk)) as [->|]; [|done].
    rewrite E. naive_solver.
  - split; [done|]. intros b' k N. unfold holding. by rewrite G, decide_False.
Qed.

Lemma log_bdata l a b blk :
  log_inv l a -> holding a b blk -> wp (bc (bdata b)) (fun d l' => d = view a blk /\ l' = l) l.
Proof. intros I Hb. by apply (l_bdata _ _ (li_rel _ _ I) b blk). Qed.

(** ** log_write *)

Lemma find_block_spec n i blk l :
  let j := find_block n i blk l in
  i <= j <= i + Z.of_nat n /\ (forall x, i <= x < j -> lblock l x <> blk) /\ (j < i + Z.of_nat n -> lblock l j = blk).
Proof.
  revert i. induction n as [|n IH]; intros i; cbn [find_block]; [split_and!; intros; lia|].
  destruct (Z.eqb_spec (lblock l i) blk) as [E|N]; [split_and!; intros; (done || lia)|].
  destruct (IH (i + 1)) as (H1 & H2 & H3). split_and!; [lia|lia| |intros; apply H3; lia].
  intros x Hx. destruct (decide (x = i)) as [->|]; [done|]. apply H2. lia.
Qed.

Lemma elem_of_logged l k : k ∈ logged l <-> exists i, 0 <= i < lg_n l /\ lblock l i = k.
Proof. apply elem_of_blocks. Qed.

(** The in-memory header after block [blk] was appended. *)
Definition appended (blk : Z) (l : lstate) : lstate := set_ln (lg_n l + 1) (set_lblock (lg_n l) blk l).

Lemma logged_appended l blk :
  length (lg_block l) = Z.to_nat LOGBLOCKS -> 0 <= lg_n l < LOGBLOCKS -> logged (appended blk l) = logged l ++ [blk].
Proof.
  intros Hl Hn. unfold logged. cbn [appended set_ln lg_n].
  rewrite seqZ_S, fmap_app by lia. cbn [fmap list_fmap]. f_equal.
  - apply list_fmap_ext. intros j i Hj. apply list_elem_of_lookup_2 in Hj. apply elem_of_seqZ in Hj.
    unfold lblock. cbn [appended set_ln set_lblock lg_block]. rewrite !nth_lookup, lookup_insert_Z by lia.
    by rewrite decide_False by lia.
  - f_equal. unfold lblock. cbn [appended set_ln set_lblock lg_block]. rewrite !nth_lookup, lookup_insert_Z by lia.
    by rewrite decide_True.
Qed.

Lemma set_lblock_same l i :
  length (lg_block l) = Z.to_nat LOGBLOCKS -> 0 <= i < LOGBLOCKS -> set_lblock i (lblock l i) l = l.
Proof.
  intros Hl Hi. destruct (lookup_lt_is_Some_2 (lg_block l) (Z.to_nat i)) as [x Hx]; [lia|].
  unfold set_lblock, lblock. rewrite nth_lookup, Hx. cbn [default]. rewrite list_insert_id by done. by destruct l.
Qed.

Lemma log_write_wp l a b blk :
  log_inv l a -> holding a b blk -> lg_n l < LOGBLOCKS -> 1 <= lg_outstanding l ->
  wp (log_write b) (fun _ l' => exists c a',
    l' = set_lcache c (if decide (blk ∈ logged l) then l else appended blk l) /\
    log_inv l' a' /\ holding a' b blk /\
    ac_disk a' = ac_disk a /\ (forall k, view a' k = view a k) /\ (forall k, locked a' k <-> locked a k) /\
    keeps_others blk a a') l.
Proof.
  intros I Hb Hn Ho. pose proof Hb as (h & E & <- & Lk). pose proof (li_rel _ _ I) as R.
  pose proof (li_n _ _ I) as Hn0. pose proof (li_len _ _ I) as Hlen.
  unfold log_write. wp_steps. destruct (Z.leb_spec LOGBLOCKS (lg_n l)); [lia|]. destruct (Z.ltb_spec (lg_outstanding l) 1); [lia|].
  wp_steps. destruct (cr_held _ _ R _ _ E) as [_ (_ & _ & -> & _)].
  destruct (find_block_spec (Z.to_nat (lg_n l)) 0 blk l) as (F1 & F2 & F3).
  set (j := find_block _ _ _ _) in *. rewrite Z2Nat.id in F1, F3 by lia. rewrite Z.add_0_l in F1, F3.
  destruct (decide (blk ∈ logged l)) as [Hin|Hout].
  - apply elem_of_logged in Hin as (i & Hi & Ei).
    assert (j <= i) by (destruct (decide (i < j)); [by destruct (F2 i ltac:(lia))|lia]).
    destruct (Z.eqb_spec j (lg_n l)); [lia|]. wp_steps. rewrite <- (F3 ltac:(lia)), set_lblock_same by (done || lia).
    exists (lg_cache l), a. rewrite F3 by lia. split_and!; try done; by destruct l.
  - assert (j = lg_n l) as ->.
    { destruct (decide (j = lg_n l)); [done|]. destruct Hout. apply elem_of_logged. exists j. split; [lia|]. apply F3. lia. }
    rewrite Z.eqb_refl. wp_steps. pose proof (li_ref _ _ I _ _ E) as Er. rewrite bool_decide_false, Lk in Er by done. cbn in Er.
    apply (l_bpin (set_lblock (lg_n l) blk l) a R (h_buf h) blk); [done| |].
    { intros h' E'. rewrite E in E'. simplify_eq. lia. }
    intros c Rc. wp_steps. exists c, (a_set blk (hold_ref 1) a).
    assert (forall k, ac_held (a_set blk (hold_ref 1) a) !! k =
      if decide (k = blk) then Some (hold_ref 1 h) else ac_held a !! k) as G.
    { intros k. rewrite hget_set. destruct (decide (k = blk)) as [->|]; [by rewrite E|done]. }
    pose proof (logged_appended l blk Hlen (conj (proj1 Hn0) Hn)) as EL.
    split_and!; [done| | |done| | |].
    + change (set_ln _ _) with (set_lcache c (appended blk l)). constructor; rewrite ?logged_cache, ?EL; try exact (li_dev _ _ I); try exact (li_fits _ _ I); try exact (li_empty _ _ I); try done.
      * cbn [set_lcache appended set_ln set_lblock lg_block]. by rewrite length_insert.
      * cbn. lia.
      * apply NoDup_app. split_and!; [apply I| |apply NoDup_singleton]. intros x Hx ->%list_elem_of_singleton. done.
      * intros k [Hk|Hk%list_elem_of_singleton]%elem_of_app; [by apply (li_home _ _ I)|]. subst k.
        apply (li_range _ _ I). by rewrite E.
      * intros k Hk. rewrite G. destruct (decide (k = blk)); [done|]. apply (li_pin _ _ I). set_solver.
      * intros k h'. rewrite G. destruct (decide (k = blk)) as [->|Nk].
        -- intros [= <-]. rewrite bool_decide_true by set_solver. cbn. rewrite Lk, Er. done.
        -- intros E'. rewrite (li_ref _ _ I _ _ E'). f_equal. f_equal. apply bool_decide_ext. set_solver.
      * intros k. rewrite G. destruct (decide (k = blk)) as [->|]; [|apply (li_range _ _ I)].
        intros _. apply (li_range _ _ I). by rewrite E.
    + exists (hold_ref 1 h). rewrite G, decide_True by done. done.
    + intros k. unfold view. rewrite G. destruct (decide (k = blk)) as [->|]; [by rewrite E|done].
    + intros k. unfold locked. setoid_rewrite G. destruct (decide (k = blk)) as [->|]; [|done]. rewrite E. naive_solver.
    + split; [done|]. intros b' k N. unfold holding. by rewrite G, decide_False.
Qed.

(** ** The end of a transaction *)

Lemma log_inv_transaction l a :
  log_inv l a -> (forall k, ~ locked a k) -> lg_n l < NBUF -> transaction l (ac_held a) (ac_disk a).
Proof.
  intros I Hnl Hn. assert (forall i, 0 <= i < lg_n l -> lblock l i ∈ logged l) as Hin.
  { intros i Hi. apply elem_of_logged. by exists i. }
  constructor; [exact (li_dev _ _ I)|exact (li_fits _ _ I)| | | | | |exact (li_empty _ _ I)].
  - pose proof (li_n _ _ I). lia.
  - intros i Hi. destruct (li_pin _ _ I _ (Hin i Hi)) as [h E]. exists h.
    assert (h_lock h = false) as Lk by (destruct (h_lock h) eqn:Lk; [destruct (Hnl (lblock l i)); by exists h|done]).
    split_and!; [done|done|]. rewrite (li_ref _ _ I _ _ E), bool_decide_true, Lk by auto. done.
  - intros k h E. apply elem_of_logged. destruct (held_logged l a k h I E) as [|Lk]; [done|].
    destruct (Hnl k). by exists h.
  - intros i j Hi Hj E. pose proof (li_dup _ _ I) as Hd. apply NoDup_lookup with (i := Z.to_nat i) (j := Z.to_nat j) (x := lblock l i) in Hd; [lia| |];
      unfold logged; rewrite list_lookup_fmap, lookup_seqZ_lt, Z2Nat.id by lia; cbn; [done|]. by rewrite E.
  - intros i Hi. apply (li_home _ _ I). by apply Hin.
Qed.

Lemma committed_empty l a :
  transaction l (ac_held a) (ac_disk a) ->
  log_empty (lg_start l) (apply_writes (commit_writes l a) (ac_disk a)).
Proof.
  intros T. destruct a as [H D W]. unfold log_empty, commit_writes, recovery_writes. rewrite !app_assoc, apply_writes_snoc, disk_block_insert.
  cbn [fst snd]. rewrite decide_True by done. apply cleared_ok.
  by apply (committed_spec l H D W T).
Qed.

(** A crash after any number of the writes [ws] recovers to the contents
    before the transaction or to those after it. *)
Definition crash_safe (l : lstate) (a : acache) (ws : list (Z * block)) : Prop :=
  forall k, let Dk := apply_writes (take k ws) (ac_disk a) in
  log_valid (lg_start l) Dk /\
  (same_home (lg_start l) (recovered (lg_start l) Dk) (ac_disk a) \/ after l a (recovered (lg_start l) Dk)).

Lemma commit_crash_safe l a : transaction l (ac_held a) (ac_disk a) -> crash_safe l a (commit_writes l a).
Proof.
  intros T k Dk. destruct a as [H D W]. destruct (commit_prefix l H D W T k) as [V HP].
  split; [exact V|]. destruct (decide _); [by left|by right].
Qed.

Lemma no_writes_crash_safe l a : log_empty (lg_start l) (ac_disk a) -> crash_safe l a [].
Proof.
  intros HE k Dk. unfold Dk. rewrite take_nil. destruct (log_empty_valid _ _ HE) as [V E].
  split; [exact V|]. left. cbn [apply_writes foldl]. by rewrite E.
Qed.

(** The last end_op of a transaction: everything is at its home location. *)
Lemma end_op_wp l a :
  log_inv l a -> (forall k, ~ locked a k) -> lg_n l < NBUF -> lg_committing l = 0 -> lg_outstanding l = 1 ->
  wp end_op (fun _ l' => exists ws, log_inv l' (ACache ∅ (apply_writes ws (ac_disk a)) (ac_writes a ++ ws)) /\
    lg_n l' = 0 /\ lg_outstanding l' = 0 /\ lg_committing l' = 0 /\ crash_safe l a ws /\
    after l a (apply_writes ws (ac_disk a))) l.
Proof.
  intros I Hnl Hn Hc Ho. pose proof (log_inv_transaction l a I Hnl Hn) as T. destruct a as [H D W]. cbn [ac_held ac_disk ac_writes] in *.
  unfold end_op. wp_steps. change (lg_committing (set_outstanding _ l)) with (lg_committing l).
  rewrite Hc. cbn [Z.eqb negb]. wp_steps. rewrite Ho. change (lg_outstanding (set_outstanding (1 - 1) l) =? 0) with true.
  cbv iota. wp_steps. change (1 - 1) with 0. set (l1 := set_committing 1 (set_outstanding 0 l)).
  assert (transaction l1 H D) as T1 by (destruct T; by constructor).
  destruct (decide (lg_n l = 0)) as [E0|N0].
  - unfold commit. wp_steps. change (lg_n l1) with (lg_n l). rewrite E0. cbn [Z.ltb Z.compare]. wp_steps.
    assert (H = ∅) as ->.
    { apply map_eq. intros k. rewrite lookup_empty. destruct (H !! k) as [h|] eqn:E; [|done].
      apply (tx_only _ _ _ T) in E as (i & Hi & _). lia. }
    exists []. rewrite app_nil_r. split_and!; [destruct I; by constructor|done|done|done| |].
    + apply no_writes_crash_safe. exact (li_empty _ _ I).
    + intros b Hb. unfold view. cbn [ac_held]. by rewrite lookup_empty.
  - pose proof (li_n _ _ I) as Hn0. eapply wp_mono; [apply (commit_wp l1 H D W (li_rel _ _ I) T1); cbn; lia|].
    cbv beta. intros u l2 (c & -> & Rc). wp_steps. set (a := ACache H D W) in *. exists (commit_writes l1 a).
    pose proof (committed_empty l1 a T1) as HE. split_and!; [|done|done|done|exact (commit_crash_safe l1 a T1)|].
    + constructor; cbn [ac_held ac_disk];
        [exact Rc|exact (li_dev _ _ I)|exact (li_fits _ _ I)|exact (li_len _ _ I)|done|apply NoDup_nil_2| | | | |exact HE].
      * intros k Hk. by apply elem_of_nil in Hk.
      * intros k Hk. by apply elem_of_nil in Hk.
      * intros k h Hk. by rewrite lookup_empty in Hk.
      * intros k [h Hk]. by rewrite lookup_empty in Hk.
    + destruct (log_empty_valid _ _ HE) as [_ ER].
      destruct (commit_prefix l1 H D W T1 (length (commit_writes l1 a))) as [_ HP]. rewrite decide_False in HP.
      * rewrite take_ge in HP by done. intros b Hb. specialize (HP b Hb). etrans; [|exact HP]. f_equal. symmetry. exact ER.
      * unfold commit_writes, a. rewrite length_app. cbn. lia.
Qed.

(** ** Booting *)

(** The kernel's memory before initlog on a machine whose disk is [D]. *)
Definition boot (D : gmap Z block) : lstate :=
  LState (binit (bcache_bss D)) 0 0 0 0 0 (replicate (Z.to_nat LOGBLOCKS) 0).

Lemma initlog_wp D start :
  log_fits start -> log_valid start D ->
  wp (initlog ROOTDEV start) (fun _ l' => exists ws,
    ws = recovery_writes start D /\ log_inv l' (ACache ∅ (apply_writes ws D) ws) /\ lg_n l' = 0 /\
    lg_start l' = start /\ lg_outstanding l' = 0 /\ lg_committing l' = 0) (boot D).
Proof.
  intros Hf V. unfold initlog. change (BSIZE <=? 4 + 4 * LOGBLOCKS) with false. cbv iota. wp_steps.
  set (l1 := LState _ start _ _ _ _ _). eapply wp_mono.
  - apply (recover_wp l1 D []); [apply binit_rel|done|done|apply length_replicate|done].
  - cbv beta zeta. intros u l' (c & bl & -> & Hl & Rc). eexists. split; [reflexivity|]. change (lg_start l1) with start in *.
    split_and!; [|done..]. constructor; cbn [ac_held ac_disk];
      [exact Rc|done|done|exact Hl|done|apply NoDup_nil_2| | | | |].
    + intros k Hk. by apply elem_of_nil in Hk.
    + intros k Hk. by apply elem_of_nil in Hk.
    + intros k h Hk. by rewrite lookup_empty in Hk.
    + intros k [h Hk]. by rewrite lookup_empty in Hk.
    + cbn. unfold log_empty, recovery_writes. rewrite apply_writes_snoc, disk_block_insert. cbn [fst snd].
      rewrite decide_True by done. apply cleared_ok, V.
Qed.

(** The disk after recovery, outside of the log area. *)
Lemma recovery_disk start D : same_home start (apply_writes (recovery_writes start D) D) (recovered start D).
Proof.
  intros b Hb. unfold recovery_writes. rewrite apply_writes_snoc, disk_block_insert. cbn [fst snd].
  rewrite decide_False; [done|]. intros ->. apply Hb. unfold region, LOGBLOCKS, MAXOPBLOCKS. lia.
Qed.

(** ** One update *)

(** The file system's access pattern: read a block, change it, log it and
    release it. *)
Lemma update_block l a blk f :
  log_inv l a -> (forall k, ~ locked a k) -> home_block (lg_start l) blk -> lg_n l < LOGBLOCKS -> 1 <= lg_outstanding l ->
  wp (b ← bc (bread ROOTDEV blk); bc (bdata_set b f);; log_write b;; bc (brelse b))
    (fun _ l' => exists a', log_inv l' a' /\ (forall k, ~ locked a' k) /\ lg_start l' = lg_start l /\
       lg_n l' = lg_n l + bit (bool_decide (blk ∉ logged l)) /\
       logged l' = (if decide (blk ∈ logged l) then logged l else logged l ++ [blk]) /\
       lg_outstanding l' = lg_outstanding l /\ lg_committing l' = lg_committing l /\
       (forall k, view a' k = if decide (k = blk) then f (view a blk) else view a k)) l.
Proof.
  intros I Hnl Hh Hn Ho. assert (NBUF = LOGBLOCKS) as EN by done.
  eapply wp_call; [apply (log_bread l a blk []); try done; [intros k Hk; by destruct (Hnl k)|apply not_elem_of_nil|cbn; lia]|].
  intros b l1 (c1 & a1 & -> & I1 & Hb1 & Ed1 & V1 & L1).
  eapply wp_call; [by apply (log_bdata_set _ a1 b blk)|]. intros u2 l2 (c2 & a2 & -> & I2 & Hb2 & Ed2 & V2 & L2).
  eapply wp_call; [by apply (log_write_wp _ a2 b blk)|]. intros u3 l3 (c3 & a3 & E3 & I3 & Hb3 & Ed3 & V3 & L3).
  rewrite !logged_cache in E3.
  assert (logged l3 = if decide (blk ∈ logged l) then logged l else logged l ++ [blk]) as El.
  { rewrite E3. destruct (decide (blk ∈ logged l)) as [|Nin]; rewrite ?logged_cache; [done|].
    apply (logged_appended (set_lcache c2 (set_lcache c1 l))); [exact (li_len _ _ I)|]. pose proof (li_n _ _ I). cbn. lia. }
  assert (blk ∈ logged l3) as Hin by (rewrite El; destruct (decide _); set_solver).
  eapply wp_mono; [apply (log_brelse _ a3 b blk); [done|done|done]|].
  intros u4 l4 (c4 & a4 & E4 & I4 & Ed4 & V4 & L4). exists a4. subst l4. subst l3.
  split_and!; [done| | | |exact El| | |].
  - intros k Hk. apply L4 in Hk as [Hk Nk]. apply L3, L2, L1 in Hk as [Hk|Hk]; [by apply (Hnl k)|done].
  - by destruct (decide _).
  - destruct (decide (blk ∈ logged l)) as [Hi|Hi]; cbn.
    + rewrite bool_decide_false by (intros H; by apply H). cbn. lia.
    + by rewrite bool_decide_true.
  - by destruct (decide _).
  - by destruct (decide _).
  - intros k. rewrite V4, V3, V2. destruct (decide (k = blk)) as [->|]; by rewrite V1.
Qed.
