(* ===== verification/StorageTheorems.v ===== *)
(** * Properties of the buffer cache and of the log *)
From stdpp Require Import base tactics numbers list strings gmap relations.
From Stdlib Require Import ZArith Lia.
From S2P Require Import Prelude Block Bio BioSpec BioCache Log LogSpec LogCrash LogInv.

Open Scope Z_scope.

(** ** The cache as an abstract data type *)

(** The calls of bio.c's users; a buffer is named by the block it holds. *)
Inductive bio_op :=
  | OpRead (blk : Z)
  | OpSet (blk : Z) (d : block)
  | OpWrite (blk : Z)
  | OpRelse (blk : Z)
  | OpPin (blk : Z)
  | OpUnpin (blk : Z).

Definition handle (a : acache) (blk : Z) : Z := default 0 (h_buf <$> ac_held a !! blk).

Definition exec_op (a : acache) (op : bio_op) : M bstate Z :=
  match op with
  | OpRead blk => bread ROOTDEV blk
  | OpSet blk d => bdata_set (handle a blk) (fun _ => d);; mret 0
  | OpWrite blk => bwrite (handle a blk);; mret 0
  | OpRelse blk => brelse (handle a blk);; mret 0
  | OpPin blk => bpin (handle a blk);; mret 0
  | OpUnpin blk => bunpin (handle a blk);; mret 0
  end.

(** What the abstract cache does, given the buffer that bread chose. *)
Definition abs_op (r : Z) (op : bio_op) (a : acache) : acache :=
  match op with
  | OpRead blk => a_get r blk a
  | OpSet blk d => a_set blk (hold_data d) a
  | OpWrite blk => a_write blk a
  | OpRelse blk => a_put blk a
  | OpPin blk => a_set blk (hold_ref 1) a
  | OpUnpin blk => a_set blk (hold_ref (-1)) a
  end.

Definition held_as (a : acache) (blk : Z) (p : hold -> Prop) : Prop :=
  match ac_held a !! blk with Some h => p h | None => False end.

(** The callers' obligations: hold the lock; release a buffer for good only
    when the disk has its content. *)
Definition enabled (a : acache) (op : bio_op) : Prop :=
  match op with
  | OpRead blk => readable blk a
  | OpSet blk _ | OpWrite blk => held_as a blk (fun h => h_lock h = true)
  | OpRelse blk => held_as a blk (fun h => h_lock h = true /\ (h_ref h = 1 -> h_data h = disk_block (ac_disk a) blk))
  | OpPin blk => held_as a blk (fun h => h_lock h = true /\ h_ref h + 1 < 2 ^ 32)
  | OpUnpin blk => held_as a blk (fun h => 1 < h_ref h)
  end.

Fixpoint run_ops (ops : list bio_op) (a : acache) : M bstate acache :=
  match ops with
  | [] => mret a
  | op :: ops => r ← exec_op a op; run_ops ops (abs_op r op a)
  end.

Fixpoint safe_ops (ops : list bio_op) (a : acache) : Prop :=
  match ops with
  | [] => True
  | op :: ops => enabled a op /\ forall r, safe_ops ops (abs_op r op a)
  end.

Lemma cache_step s a op :
  cache_rel s a -> enabled a op -> wp (exec_op a op) (fun r s' => cache_rel s' (abs_op r op a)) s.
Proof.
  intros R He.
  assert (forall blk p, held_as a blk p -> exists h, ac_held a !! blk = Some h /\ h_buf h = handle a blk /\ p h) as Hh.
  { intros blk p. unfold held_as, handle. destruct (ac_held a !! blk) as [h|]; [|done]. intros Hp. by exists h. }
  destruct op as [blk|blk d|blk|blk|blk|blk]; cbn [exec_op abs_op enabled] in *.
  - eapply wp_mono; [by apply bread_wp|]. by intros b s' [? _].
  - destruct (Hh _ _ He) as (h & E & Eb & Lk). eapply wp_call; [eapply (bdata_set_wp _ _ _ blk); [done|by exists h]|].
    intros u s' R'. wp_step. exact R'.
  - destruct (Hh _ _ He) as (h & E & Eb & Lk). eapply wp_call; [eapply (bwrite_wp _ _ _ blk); [done|by exists h]|].
    intros u s' R'. by wp_step.
  - destruct (Hh _ _ He) as (h & E & Eb & Lk & Hc). eapply wp_call; [eapply (brelse_wp _ _ _ blk); [done|by exists h|]|].
    + intros h' E'. rewrite E in E'. by simplify_eq.
    + intros u s' R'. by wp_step.
  - destruct (Hh _ _ He) as (h & E & Eb & Lk & Hr). eapply wp_call; [eapply (bpin_wp _ _ _ blk); [done|by exists h|]|].
    + intros h' E'. rewrite E in E'. by simplify_eq.
    + intros u s' R'. by wp_step.
  - destruct (Hh _ _ He) as (h & E & Eb & Hr). eapply wp_call; [by eapply (bunpin_wp _ _ _ blk)|].
    intros u s' R'. by wp_step.
Qed.

Lemma cache_steps ops s a :
  cache_rel s a -> safe_ops ops a -> wp (run_ops ops a) (fun a' s' => cache_rel s' a') s.
Proof.
  revert s a. induction ops as [|op ops IH]; intros s a R Hs; cbn [run_ops].
  - by wp_step.
  - destruct Hs as [He Hs]. eapply wp_call; [by apply cache_step|]. cbv beta. intros r s' R'. by apply IH.
Qed.

(** C19.  The LRU cache implements the abstract table of held blocks: any
    sequence of reads, changes, writes, releases, pins and unpins whose
    callers keep their obligations runs to its end after binit (no panic, no
    wait, no loop without end) and the buffers stay related to what the
    abstract operations compute; in particular a block is cached once, and a
    recycled buffer never shows stale contents. *)
Theorem cache_refinement (d : gmap Z block) (ops : list bio_op) :
  safe_ops ops (ACache ∅ d []) ->
  wp (run_ops ops (ACache ∅ d [])) (fun a' s' => cache_rel s' a') (binit (bcache_bss d)).
Proof. intros Hs. apply cache_steps; [apply binit_rel|done]. Qed.

Definition demo_ops : list bio_op :=
  [OpRead 5; OpSet 5 (replicate (Z.to_nat BSIZE) 7); OpWrite 5; OpPin 5; OpRelse 5; OpRead 5; OpUnpin 5; OpRelse 5].

Lemma cache_refinement_witness :
  safe_ops demo_ops (ACache ∅ ∅ []) /\
  wp (run_ops demo_ops (ACache ∅ ∅ [])) (fun a' s' => cache_rel s' a') (binit (bcache_bss ∅)).
Proof.
  assert (safe_ops demo_ops (ACache ∅ ∅ [])) as Hs.
  { unfold demo_ops. generalize (replicate (Z.to_nat BSIZE) 7). intros d. cbn [safe_ops enabled abs_op].
    pose proof (lookup_empty (M := gmap Z) (A := hold) 5) as E0.
    unfold readable, held_as. repeat (split; [|intros ?]). 9: done.
    1: cbn [ac_held]; rewrite E0; apply empty_room.
    all: repeat (progress (look; cbn [Z.eqb Pos.eqb Z.add Z.sub Pos.add Pos.sub])); try done. }
  split; [exact Hs|]. exact (cache_refinement ∅ demo_ops Hs).
Defined.

(** ** Recovery and commit *)

Definition disk_of (l : lstate) : gmap Z block := bs_disk (lg_cache l).

Lemma log_inv_disk l a : log_inv l a -> disk_of l = ac_disk a.
Proof. intros I. apply (cr_disk _ _ (li_rel _ _ I)). Qed.
Lemma log_inv_writes l a : log_inv l a -> bs_writes (lg_cache l) = ac_writes a.
Proof. intros I. apply (cr_writes _ _ (li_rel _ _ I)). Qed.

(** Recovery from a disk with a valid log, by its effect on the home blocks. *)
Lemma initlog_disk D start :
  log_fits start -> log_valid start D ->
  wp (initlog ROOTDEV start) (fun _ l' => log_inv l' (ACache ∅ (disk_of l') (bs_writes (lg_cache l'))) /\ lg_n l' = 0 /\
    same_home start (disk_of l') (recovered start D) /\ bs_writes (lg_cache l') = recovery_writes start D) (boot D).
Proof.
  intros Hf V. eapply wp_mono; [by apply initlog_wp|]. cbv beta. intros u l' (ws & -> & I & En & Es & _).
  rewrite (log_inv_disk _ _ I), (log_inv_writes _ _ I). split_and!; [done|done|apply recovery_disk|done].
Qed.

(** Boot after a crash: initlog returns; every block that the header
    lists gets the content of its log block, every other block outside of the
    log keeps its content, and the log is left empty in memory and on disk. *)
Theorem recovery_installs_log (D : gmap Z block) (start : Z) :
  log_fits start -> log_valid start D ->
  let h := disk_block D start in
  NoDup (hdr_block h <$> seqZ 0 (hdr_n h)) ->
  wp (initlog ROOTDEV start) (fun _ l' =>
    lg_n l' = 0 /\ log_empty start (disk_of l') /\
    (forall i, 0 <= i < hdr_n h -> disk_block (disk_of l') (hdr_block h i) = disk_block D (start + 1 + i)) /\
    (forall b, ~ region start b -> b ∉ hdr_block h <$> seqZ 0 (hdr_n h) -> disk_block (disk_of l') b = disk_block D b))
    (boot D).
Proof.
  intros Hf V h Hnd. eapply wp_mono; [by apply initlog_wp|]. cbv beta. intros u l' (ws & -> & I & En & Es & _).
  pose proof (li_empty _ _ I) as HE. rewrite Es in HE. rewrite (log_inv_disk _ _ I). cbn [ac_disk] in *.
  split_and!; [done|exact HE| |].
  - intros i Hi. rewrite (recovery_disk start D) by (by apply (lv_home _ _ V)). unfold recovered, install_writes.
    apply apply_writes_in; unfold home_writes.
    + rewrite <- list_fmap_compose. exact Hnd.
    + apply list_elem_of_fmap. exists i. split; [done|]. apply elem_of_seqZ. unfold h in Hi. lia.
  - intros b Hb Hn. rewrite (recovery_disk start D) by done. unfold recovered. apply apply_writes_notin.
    intros (i & Hi & ->)%home_writes_fst. apply Hn. apply elem_of_blocks. by exists i.
Qed.

(** The boot from [D] is interrupted by a crash after some of its disk writes,
    which leaves the disk [D']. *)
Definition interrupted (start : Z) (D D' : gmap Z block) : Prop :=
  exists k l1, initlog ROOTDEV start (boot D) = Ret () l1 /\ D' = apply_writes (take k (bs_writes (lg_cache l1))) D.

Lemma initlog_result D start :
  log_fits start -> log_valid start D ->
  wp (initlog ROOTDEV start) (fun _ l' => lg_n l' = 0 /\ log_empty start (disk_of l') /\
    disk_of l' = recovery_result start D /\ bs_writes (lg_cache l') = recovery_writes start D) (boot D).
Proof.
  intros Hf V. eapply wp_mono; [by apply initlog_wp|]. cbv beta. intros u l' (ws & -> & I & En & Es & _).
  pose proof (li_empty _ _ I) as HE. rewrite Es in HE. rewrite (log_inv_disk _ _ I), (log_inv_writes _ _ I). done.
Qed.
Lemma interrupted_once start D D' : log_fits start -> log_valid start D -> interrupted start D D' ->
  log_valid start D' /\ same_disk (recovery_result start D') (recovery_result start D).
Proof.
  intros Hf V (k & l1 & E & ->). destruct (wlp_ret_inv _ _ _ _ _ (wp_wlp _ _ _ (initlog_result D start Hf V)) E) as (_ & _ & _ & ->).
  by apply recovery_prefix_disk.
Qed.

(** C21.  Recovery may itself be interrupted, again and again: after any
    number of boots that are each stopped by a crash after some of their disk
    writes, the log on the disk is still valid, the next boot's recovery
    returns and leaves exactly the disk that one uninterrupted recovery of the
    first disk leaves, block by block, with an empty log and every logged block
    at its home location. *)
Theorem recovery_interrupted (D D' : gmap Z block) (start : Z) :
  log_fits start -> log_valid start D -> rtc (interrupted start) D D' ->
  log_valid start D' /\
  wp (initlog ROOTDEV start) (fun _ l1 => same_home start (disk_of l1) (recovered start D) /\
    wp (initlog ROOTDEV start) (fun _ l2 => same_disk (disk_of l2) (disk_of l1) /\ lg_n l2 = 0 /\ log_empty start (disk_of l2)) (boot D'))
    (boot D).
Proof.
  intros Hf V R. assert (log_valid start D' /\ same_disk (recovery_result start D') (recovery_result start D)) as [V' E].
  { induction R as [D|D D1 D' H R IH]; [done|]. destruct (interrupted_once _ _ _ Hf V H) as [V1 E1]. destruct (IH V1) as [V' E'].
    split; [done|]. intros b. by rewrite E', E1. }
  split; [done|]. eapply wp_mono; [by apply initlog_result|]. cbv beta. intros u l1 (_ & _ & E1 & _). split; [rewrite E1; apply recovery_disk|].
  eapply wp_mono; [by apply initlog_result|]. cbv beta. intros v l2 (En & HE & E2 & _). rewrite E2 in *. rewrite E1. done.
Qed.

(** C22.  Atomicity of a transaction: the end_op that commits returns with the
    log empty and every block at home; and if the machine stops after any
    number [k] of the disk writes of the commit, booting from that disk gives
    either all home blocks as they were before the transaction or all of them
    as the transaction left them. *)
Theorem transaction_atomic (l : lstate) (a : acache) :
  log_inv l a -> (forall b, ~ locked a b) -> lg_n l < NBUF -> lg_committing l = 0 -> lg_outstanding l = 1 ->
  wp end_op (fun _ l' => exists ws,
    bs_writes (lg_cache l') = bs_writes (lg_cache l) ++ ws /\
    lg_n l' = 0 /\ after l a (disk_of l') /\
    forall k, wp (initlog ROOTDEV (lg_start l))
      (fun _ r => same_home (lg_start l) (disk_of r) (disk_of l) \/ after l a (disk_of r))
      (boot (apply_writes (take k ws) (disk_of l)))) l.
Proof.
  intros I Hnl Hn Hc Ho. eapply wp_mono; [by apply (end_op_wp l a)|]. cbv beta.
  intros u l' (ws & I' & En & _ & _ & Hcr & Haft). exists ws.
  rewrite (log_inv_writes _ _ I), (log_inv_writes _ _ I'), (log_inv_disk _ _ I), (log_inv_disk _ _ I').
  split_and!; [done|done|done|]. intros k. destruct (Hcr k) as [V HP].
  eapply wp_mono; [apply initlog_disk; [exact (li_fits _ _ I)|exact V]|]. cbv beta. intros v r (_ & _ & Er & _).
  destruct HP as [HP|HP]; [left|right].
  - by rewrite Er.
  - intros b Hb. rewrite Er by done. by apply HP.
Qed.

(** *** A transaction of one block *)

Definition demo_start : Z := 2.
Definition demo_tx : M lstate unit :=
  initlog ROOTDEV demo_start;;
  begin_op;;
  b ← bc (bread ROOTDEV 40);
  bc (bdata_set b (fun _ => replicate (Z.to_nat BSIZE) 7));;
  log_write b;;
  bc (brelse b).

Lemma zero_block_empty : log_empty demo_start ∅.
Proof. split; by vm_compute. Qed.
Lemma demo_fits : log_fits demo_start.
Proof. split; done. Qed.
Lemma demo_home : home_block demo_start 40.
Proof. split; [done|]. unfold region, demo_start, LOGBLOCKS, MAXOPBLOCKS. lia. Qed.


Definition demo_log : lstate := final demo_tx (boot ∅).

Lemma demo_log_ok : exists a, log_inv demo_log a /\ (forall k, ~ locked a k) /\ lg_n demo_log < NBUF /\
  lg_committing demo_log = 0 /\ lg_outstanding demo_log = 1.
Proof.
  assert (wp demo_tx (fun _ l => exists a, log_inv l a /\ (forall k, ~ locked a k) /\ lg_n l < NBUF /\
    lg_committing l = 0 /\ lg_outstanding l = 1) (boot ∅)) as H.
  { unfold demo_tx. eapply wp_call; [apply (initlog_wp ∅ demo_start demo_fits), log_empty_valid, zero_block_empty|].
    cbv beta. intros u l1 (ws & _ & I1 & En & Es & Eo & Ec).
    unfold begin_op. wp_steps. rewrite Ec, En, Eo. change (negb (0 =? 0)) with false.
    change (LOGBLOCKS <? 0 + (0 + 1) * MAXOPBLOCKS) with false. cbv iota. wp_step.
    eapply wp_mono; [apply (update_block (set_outstanding (0 + 1) l1) (ACache ∅ (apply_writes ws ∅) ws) 40)|].
    - destruct I1. by constructor.
    - intros k (h & Hk & _). cbn [ac_held] in Hk. by rewrite lookup_empty in Hk.
    - cbn. rewrite Es. apply demo_home.
    - cbn. by rewrite En.
    - done.
    - cbv beta. intros v l2 (a & I2 & L2 & _ & En2 & _ & Eo2 & Ec2 & _). exists a. split_and!; [done|done| |by rewrite Ec2|by rewrite Eo2].
      rewrite En2. cbn [set_outstanding lg_n]. rewrite En. destruct (bool_decide _); done. }
  destruct (final_wp _ _ _ H) as [_ HQ]. exact HQ.
Qed.

Lemma recovery_installs_log_witness :
  log_fits demo_start /\ log_valid demo_start ∅ /\
  wp (initlog ROOTDEV demo_start) (fun _ l' => lg_n l' = 0) (boot ∅).
Proof.
  split; [exact demo_fits|]. split; [exact (proj1 (log_empty_valid _ _ zero_block_empty))|].
  eapply wp_mono.
  - apply (recovery_installs_log ∅ demo_start demo_fits (proj1 (log_empty_valid _ _ zero_block_empty))). constructor.
  - intros u l' Hl. exact (proj1 Hl).
Defined.

(** A committed transaction of one block (block 40) that is not installed. *)
Definition log_hdr : block := set_u32 (set_u32 zero_block 0 1) 4 40.
Definition log_data : block := set_u32 zero_block 0 7.
Definition log_disk : gmap Z block := <[demo_start := log_hdr]> {[demo_start + 1 := log_data]}.
Lemma log_disk_hdr : disk_block log_disk demo_start = log_hdr.
Proof. unfold log_disk, disk_block. by rewrite lookup_insert_eq. Qed.
Lemma log_hdr_ok : hdr_n log_hdr = 1 /\ hdr_block log_hdr 0 = 40 /\ length log_hdr = Z.to_nat BSIZE.
Proof. by vm_compute. Qed.
Lemma log_disk_valid : log_valid demo_start log_disk.
Proof.
  destruct log_hdr_ok as (En & Eb & El). constructor; rewrite log_disk_hdr, ?En; [done|unfold LOGBLOCKS, MAXOPBLOCKS; lia|].
  intros i Hi. assert (i = 0) as -> by lia. rewrite Eb. apply demo_home.
Qed.
(** Boots stopped after [k] writes. *)
Lemma interrupted_after D start k : log_fits start -> log_valid start D -> interrupted start D (apply_writes (take k (recovery_writes start D)) D).
Proof.
  intros Hf V. destruct (wp_inv _ _ _ (initlog_result D start Hf V)) as ([] & l1 & E & _ & _ & _ & Ew). exists k, l1. split; [exact E|].
  rewrite Ew. reflexivity.
Qed.

Lemma recovery_interrupted_witness :
  exists D1 D2, rtc (interrupted demo_start) log_disk D2 /\ interrupted demo_start log_disk D1 /\
  disk_block D1 40 = log_data /\ hdr_n (disk_block D1 demo_start) = 1 /\
  wp (initlog ROOTDEV demo_start) (fun _ l1 => same_home demo_start (disk_of l1) (recovered demo_start log_disk) /\
    wp (initlog ROOTDEV demo_start) (fun _ l2 => same_disk (disk_of l2) (disk_of l1) /\ lg_n l2 = 0 /\ log_empty demo_start (disk_of l2)) (boot D2))
    (boot log_disk).
Proof.
  pose proof log_disk_valid as V. pose proof (interrupted_after log_disk demo_start 1 demo_fits V) as H1. set (D1 := apply_writes (take 1 (recovery_writes demo_start log_disk)) log_disk) in *.
  pose proof (proj1 (interrupted_once _ _ _ demo_fits V H1)) as V1. pose proof (interrupted_after D1 demo_start 1 demo_fits V1) as H2.
  assert (D1 = <[40 := log_data]> log_disk) as E1.
  { unfold D1, recovery_writes, install_writes. rewrite log_disk_hdr. destruct log_hdr_ok as (-> & Eb & _). unfold home_writes. change (seqZ 0 1) with [0].
    cbn [fmap list_fmap app take apply_writes foldl fst snd]. rewrite Eb. do 2 f_equal; try done. }
  eexists D1, _. pose proof (rtc_l _ _ _ _ H1 (rtc_once _ _ H2)) as R. split; [exact R|]. split; [exact H1|]. split.
  { rewrite E1. unfold disk_block. by rewrite lookup_insert_eq. } split.
  { rewrite E1. unfold disk_block. rewrite lookup_insert_ne by done. fold (disk_block log_disk demo_start). rewrite log_disk_hdr. apply log_hdr_ok. }
  exact (proj2 (recovery_interrupted log_disk _ demo_start demo_fits V R)).
Defined.

Lemma transaction_atomic_witness :
  exists a, log_inv demo_log a /\ lg_n demo_log < NBUF /\
  wp end_op (fun _ l' => lg_n l' = 0 /\ after demo_log a (disk_of l')) demo_log.
Proof.
  destruct demo_log_ok as (a & I & Hnl & Hn & Hc & Ho). exists a. split; [exact I|]. split; [exact Hn|].
  eapply wp_mono; [exact (transaction_atomic demo_log a I Hnl Hn Hc Ho)|].
  intros u l' (ws & _ & En & Ha & _). split; [exact En|exact Ha].
Defined.

(** ** Log space reservation *)

(** Operations that leave the log's counters alone. *)
Definition counters (l : lstate) := (lg_n l, lg_outstanding l, lg_committing l).
Definition keeps {A} (c : M lstate A) : Prop := forall l x l', c l = Ret x l' -> counters l' = counters l.

Lemma keeps_bind {A B} (c : M lstate A) (f : A -> M lstate B) : keeps c -> (forall x, keeps (f x)) -> keeps (c ≫= f).
Proof.
  intros Hc Hf l y l' E. unfold mbind, M_bind in E. destruct (c l) as [x l1| |] eqn:E1; [|done|done].
  rewrite (Hf _ _ _ _ E). by eapply Hc.
Qed.
Lemma keeps_bc {A} (c : M bstate A) : keeps (bc c).
Proof. intros l x l' E. unfold bc, zoom in E. destruct (c (lg_cache l)); [|done|done]. by simplify_eq. Qed.
Lemma keeps_gets {A} (f : lstate -> A) : keeps (gets f).
Proof. intros l x l' E. by unfold gets in E; simplify_eq. Qed.
Lemma keeps_skip : keeps skip.
Proof. intros l x l' E. unfold skip, mret, M_ret in E. by simplify_eq. Qed.
Lemma keeps_for_z n i body : (forall i, keeps (body i)) -> keeps (for_z n i body).
Proof. intros Hb. revert i. induction n as [|n IH]; intros i; cbn [for_z]; [apply keeps_skip|]. apply keeps_bind; auto. Qed.

Ltac keeps := repeat first
  [apply keeps_bc|apply keeps_gets|apply keeps_skip|apply keeps_for_z|apply keeps_bind|
   match goal with |- keeps (if ?b then _ else _) => destruct b | |- forall _, _ => intros ? end].

Lemma keeps_write_log : keeps write_log.
Proof. unfold write_log, for_tail. keeps. Qed.
Lemma keeps_write_head : keeps write_head.
Proof. unfold write_head, for_tail. keeps. Qed.
Lemma keeps_install b : keeps (install_trans b).
Proof. unfold install_trans, for_tail. keeps. Qed.

Lemma bind_inv {S A B} (c : M S A) (f : A -> M S B) s y s' :
  (c ≫= f) s = Ret y s' -> exists x s1, c s = Ret x s1 /\ f x s1 = Ret y s'.
Proof. unfold mbind, M_bind. destruct (c s) as [x s1| |]; [eauto|done|done]. Qed.

Lemma commit_counters l l' :
  0 <= lg_n l -> commit l = Ret () l' -> lg_n l' = 0 /\ lg_outstanding l' = lg_outstanding l.
Proof.
  intros Hn E. unfold commit in E. apply bind_inv in E as (n & l0 & [= <- <-] & E).
  destruct (Z.ltb_spec 0 (lg_n l)).
  - apply bind_inv in E as (? & l1 & E1%keeps_write_log & E). apply bind_inv in E as (? & l2 & E2%keeps_write_head & E).
    apply bind_inv in E as (? & l3 & E3%keeps_install & E). apply bind_inv in E as (? & l4 & [= _ <-] & E).
    apply keeps_write_head in E. unfold counters in *. cbn in E. naive_solver congruence.
  - unfold skip, mret, M_ret in E. simplify_eq. split; [lia|done].
Qed.

(** A system call that has begun and may still log [u] blocks. *)
Inductive log_act := ActBegin | ActWrite (i : nat) (b : Z) | ActEnd (i : nat).

(** The system calls' steps, with the space that each of them has left:
    begin_op grants MAXOPBLOCKS, a log_write uses one, end_op gives the rest
    back. *)
Inductive log_step : lstate * list Z -> log_act -> lstate * list Z -> Prop :=
  | step_begin l us l' : begin_op l = Ret () l' -> log_step (l, us) ActBegin (l', MAXOPBLOCKS :: us)
  | step_write l us i b u l' : us !! i = Some u -> 0 < u -> log_write b l = Ret () l' ->
      log_step (l, us) (ActWrite i b) (l', <[i := u - 1]> us)
  | step_end l us i u l' : us !! i = Some u -> end_op l = Ret () l' ->
      log_step (l, us) (ActEnd i) (l', delete i us).

Inductive log_run : lstate * list Z -> lstate * list Z -> Prop :=
  | run_refl c : log_run c c
  | run_step c act c' c'' : log_run c c' -> log_step c' act c'' -> log_run c c''.

Definition sumZ (us : list Z) : Z := foldr Z.add 0 us.

Record reserved (l : lstate) (us : list Z) : Prop := {
  rv_out : lg_outstanding l = Z.of_nat (length us);
  rv_range : Forall (fun u => 0 <= u <= MAXOPBLOCKS) us;
  rv_space : 0 <= lg_n l /\ lg_n l + sumZ us <= LOGBLOCKS
}.

Lemma sumZ_bounds us : Forall (fun u => 0 <= u <= MAXOPBLOCKS) us -> 0 <= sumZ us <= MAXOPBLOCKS * Z.of_nat (length us).
Proof.
  unfold sumZ, MAXOPBLOCKS. induction 1 as [|u us Hu Hf IH]; cbn [foldr length]; [done|]. lia.
Qed.
Lemma sumZ_insert us i u v : us !! i = Some u -> sumZ (<[i := v]> us) = sumZ us - u + v.
Proof.
  revert i. induction us as [|w us IH]; intros [|i]; cbn; [done|done|intros [= ->]; lia|].
  intros E. change (w + sumZ (<[i := v]> us) = w + sumZ us - u + v). rewrite (IH i E). lia.
Qed.
Lemma sumZ_delete us i u : us !! i = Some u -> sumZ (delete i us) = sumZ us - u.
Proof.
  revert i. induction us as [|w us IH]; intros [|i]; cbn; [done|done|intros [= ->]; lia|].
  intros E. change (w + sumZ (delete i us) = w + sumZ us - u). rewrite (IH i E). lia.
Qed.
Lemma sumZ_elem us i u : us !! i = Some u -> Forall (fun u => 0 <= u <= MAXOPBLOCKS) us -> u <= sumZ us.
Proof.
  intros E Hf. pose proof (sumZ_delete _ _ _ E). pose proof (sumZ_bounds (delete i us) (Forall_delete _ _ _ Hf)). lia.
Qed.

Lemma log_write_counters b l l' :
  log_write b l = Ret () l' -> (lg_n l' = lg_n l \/ lg_n l' = lg_n l + 1) /\ lg_outstanding l' = lg_outstanding l.
Proof.
  intros E. unfold log_write in E. apply bind_inv in E as (n & l0 & [= <- <-] & E).
  apply bind_inv in E as (o & l0 & [= <- <-] & E). destruct (LOGBLOCKS <=? lg_n l); [done|].
  destruct (lg_outstanding l <? 1); [done|]. apply bind_inv in E as (k & l0 & [= <- <-] & E).
  apply bind_inv in E as (j & l0 & [= <- <-] & E). apply bind_inv in E as ([] & l1 & [= <-] & E).
  destruct (_ =? lg_n l).
  - apply bind_inv in E as (? & l2 & E2%keeps_bc & [= <-]). unfold counters in E2. cbn in *. split; [by right|]. naive_solver congruence.
  - unfold skip, mret, M_ret in E. simplify_eq. split; [by left|done].
Qed.

Lemma end_op_counters l l' :
  0 <= lg_n l -> end_op l = Ret () l' ->
  lg_outstanding l' = lg_outstanding l - 1 /\ (lg_n l' = lg_n l \/ lg_n l' = 0).
Proof.
  intros Hn E. unfold end_op in E. apply bind_inv in E as ([] & l1 & [= <-] & E).
  apply bind_inv in E as (c & l0 & [= <- <-] & E). destruct (negb _); [done|].
  apply bind_inv in E as (o & l0 & [= <- <-] & E). destruct (_ =? 0).
  - apply bind_inv in E as ([] & l2 & [= <-] & E). apply bind_inv in E as ([] & l3 & E3 & [= <-]).
    apply commit_counters in E3 as [E3 E4]; [|done]. cbn in *. split; [done|by right].
  - unfold skip, mret, M_ret in E. simplify_eq. split; [done|by left].
Qed.

Lemma log_step_reserved l us act l' us' : reserved l us -> log_step (l, us) act (l', us') -> reserved l' us'.
Proof.
  intros [Ho Hf [Hn Hs]] Hst. inversion Hst as [? ? ? H0|? ? ? ? ? ? H2 Hu H6|? ? ? ? ? H2 H4]; subst.
  - unfold begin_op in *. apply bind_inv in H0 as (c & l0 & [= <- <-] & H0). apply bind_inv in H0 as (n & l0 & [= <- <-] & H0).
    apply bind_inv in H0 as (o & l0 & [= <- <-] & H0). destruct (negb _); [done|].
    destruct (Z.ltb_spec LOGBLOCKS (lg_n l + (lg_outstanding l + 1) * MAXOPBLOCKS)); [done|]. injection H0 as <-.
    pose proof (sumZ_bounds us Hf). unfold MAXOPBLOCKS in *. constructor.
    + cbn [set_outstanding lg_outstanding length]. lia.
    + constructor; [|done]. by split.
    + change (sumZ (10 :: us)) with (10 + sumZ us). cbn [set_outstanding lg_n]. lia.
  - apply log_write_counters in H6 as [Hc Ho']. constructor.
    + rewrite length_insert. lia.
    + apply Forall_insert; [done|]. apply (Forall_lookup_1 _ _ _ _ Hf) in H2. lia.
    + rewrite (sumZ_insert _ _ _ _ H2). lia.
  - apply end_op_counters in H4 as [Ho' Hc]; [|done]. pose proof (lookup_lt_Some _ _ _ H2).
    constructor.
    + rewrite length_delete by done. lia.
    + by apply Forall_delete.
    + rewrite (sumZ_delete _ _ _ H2). apply (Forall_lookup_1 _ _ _ _ Hf) in H2 as Hu'.
      pose proof (sumZ_bounds (delete i us) (Forall_delete _ _ _ Hf)). rewrite (sumZ_delete _ _ _ H2) in *. lia.
Qed.

Lemma log_run_reserved c c' : log_run c c' -> reserved c.1 c.2 -> reserved c'.1 c'.2.
Proof.
  induction 1 as [|c act [l1 us1] [l2 us2] Hr IH Hst]; [done|]. intros H0. by eapply log_step_reserved; [apply IH|].
Qed.

(** C23.  The reservation that begin_op makes is enough: whatever system calls
    begin, log up to MAXOPBLOCKS blocks each and end, in any order, a call
    that has logged fewer than that can log another block; log_write does not
    panic. *)
Theorem log_space_reserved (l l' : lstate) (us : list Z) (i : nat) (u b : Z) (msg : string) :
  lg_n l = 0 -> lg_outstanding l = 0 -> log_run (l, []) (l', us) -> us !! i = Some u -> 0 < u ->
  log_write b l' <> Panic msg.
Proof.
  intros En Eo Hr Hi Hu. apply log_run_reserved in Hr as [Ho Hf [Hn Hs]]; [cbn [fst snd] in *|].
  - pose proof (sumZ_elem _ _ _ Hi Hf). pose proof (lookup_lt_Some _ _ _ Hi).
    unfold log_write, mbind, M_bind, gets, modify, bc, bpin, zoom. intros E.
    destruct (Z.leb_spec LOGBLOCKS (lg_n l')); [lia|]. destruct (Z.ltb_spec (lg_outstanding l') 1); [lia|].
    destruct (_ =? lg_n l'); discriminate E.
  - constructor; cbn; [lia|constructor|]. rewrite En. done.
Qed.

Lemma log_space_reserved_witness :
  exists l', begin_op (boot ∅) = Ret () l' /\ forall msg, log_write 0 l' <> Panic msg.
Proof.
  exists (set_outstanding 1 (boot ∅)). split; [reflexivity|]. intros msg.
  apply (log_space_reserved (boot ∅) (set_outstanding 1 (boot ∅)) [MAXOPBLOCKS] 0 MAXOPBLOCKS 0 msg).
  - reflexivity.
  - reflexivity.
  - eapply run_step; [apply run_refl|]. apply step_begin. reflexivity.
  - reflexivity.
  - reflexivity.
Defined.

(** ** A full log *)

Lemma all_busy s a :
  cache_rel s a -> size (ac_held a) = Z.to_nat NBUF -> forall i, isbuf i -> b_refcnt (getb s i) <> 0.
Proof.
  intros R Hsz i Hi Hz. set (bufs := (fun p : Z * hold => h_buf p.2) <$> map_to_list (ac_held a)).
  assert (NoDup bufs) as Hnd.
  { apply NoDup_fmap_2_strong; [|apply NoDup_map_to_list]. intros [k h] [k' h'] Hk%elem_of_map_to_list Hk'%elem_of_map_to_list E.
    cbn in E. assert (k = k') as -> by (by eapply held_buf_inj). f_equal. congruence. }
  assert (bufs ⊆+ seqZ 0 NBUF) as Hsub.
  { apply NoDup_submseteq; [done|]. intros b ([k h] & -> & Hk%elem_of_map_to_list)%list_elem_of_fmap. cbn.
    apply (cr_held _ _ R) in Hk as [Hb _]. apply elem_of_seqZ. unfold isbuf in Hb. lia. }
  assert (bufs ≡ₚ seqZ 0 NBUF) as HP.
  { apply submseteq_length_Permutation; [done|]. unfold bufs. rewrite length_fmap, length_seqZ.
    rewrite length_map_to_list, Hsz. done. }
  assert (i ∈ bufs) as Hin by (rewrite HP; apply elem_of_seqZ; unfold isbuf in Hi; lia).
  apply list_elem_of_fmap in Hin as ([k h] & -> & Hk%elem_of_map_to_list). cbn in Hz.
  apply (cr_held _ _ R) in Hk as [_ (_ & _ & _ & _ & Rf & _ & Hp)]. lia.
Qed.

Lemma bread_no_buffers s a blk :
  cache_rel s a -> size (ac_held a) = Z.to_nat NBUF -> ac_held a !! blk = None ->
  bread ROOTDEV blk s = Panic "bget: no buffers".
Proof.
  intros R Hsz Hn. pose proof (all_busy s a R Hsz) as Hb. destruct (cr_ring _ _ R) as [o Ro].
  destruct (scan_next s o (fun x => (b_dev x =? ROOTDEV) && (b_blockno x =? blk)) Ro) as (r & Er & Hr).
  destruct (scan_prev s o (fun x => b_refcnt x =? 0) Ro) as (r' & Er' & Hr').
  assert (r = None) as ->.
  { destruct r as [i|]; [|done]. destruct Hr as [Hi [_ Ht%Z.eqb_eq]%andb_prop].
    destruct (cr_busy _ _ R i Hi (Hb i Hi)) as (h & Eh & _). congruence. }
  assert (r' = None) as ->.
  { destruct r' as [i|]; [|done]. destruct Hr' as [Hi Hz%Z.eqb_eq]. by destruct (Hb i Hi). }
  apply bind_panic. unfold bget, mbind, M_bind. by rewrite Er, Er'.
Qed.

(** C24.  NBUF equals LOGBLOCKS: when a transaction fills the log, every
    buffer is pinned and commit cannot get one for the log block it has to
    write; the kernel panics in end_op. *)
Theorem full_log_commit_panics (l : lstate) (a : acache) :
  log_inv l a -> (forall k, ~ locked a k) -> lg_n l = LOGBLOCKS -> lg_committing l = 0 -> lg_outstanding l = 1 ->
  end_op l = Panic "bget: no buffers".
Proof.
  intros I Hnl En Ec Eo. pose proof (li_rel _ _ I) as R. pose proof (li_fits _ _ I) as Hf.
  assert (size (ac_held a) = Z.to_nat NBUF) as Hsz.
  { apply Nat.le_antisymm.
    - pose proof (held_size l a [] I) as Hs. change NBUF with LOGBLOCKS. cbn [length] in Hs.
      assert (Z.of_nat (size (ac_held a)) <= lg_n l + Z.of_nat 0) by (apply Hs; intros k Hk; by destruct (Hnl k)). lia.
    - assert (list_to_set (logged l) ⊆@{gset Z} dom (ac_held a)) as Hs.
      { intros k Hk%elem_of_list_to_set. apply elem_of_dom. by apply (li_pin _ _ I). }
      apply subseteq_size in Hs. rewrite size_dom, size_list_to_set in Hs by (exact (li_dup _ _ I)).
      unfold logged in Hs. rewrite length_fmap, length_seqZ, En in Hs. exact Hs. }
  assert (ac_held a !! (lg_start l + 1 + 0) = None) as Hlb.
  { destruct (ac_held a !! _) eqn:E; [|done]. destruct (li_range _ _ I _ (mk_is_Some _ _ E)) as [_ Hr]. destruct Hr.
    unfold region, LOGBLOCKS, MAXOPBLOCKS. lia. }
  pose proof (bread_no_buffers _ _ _ R Hsz Hlb) as HP.
  unfold end_op. rewrite (bind_ok (modify _) _ l () (set_outstanding (lg_outstanding l - 1) l)) by reflexivity.
  rewrite (bind_ok (gets _) _ _ (lg_committing l) (set_outstanding (lg_outstanding l - 1) l)) by reflexivity.
  rewrite Ec. change (negb (0 =? 0)) with false. cbv iota.
  rewrite (bind_ok (gets _) _ _ (lg_outstanding l - 1) (set_outstanding (lg_outstanding l - 1) l)) by reflexivity.
  rewrite Eo. change (1 - 1) with 0. change (0 =? 0) with true. cbv iota.
  set (l1 := set_committing 1 (set_outstanding 0 l)). rewrite (bind_ok (modify _) _ _ () l1) by reflexivity.
  apply bind_panic. unfold commit. rewrite (bind_ok (gets lg_n) _ l1 (lg_n l) l1) by reflexivity.
  rewrite En. change (0 <? LOGBLOCKS) with true. cbv iota.
  apply bind_panic. unfold write_log, for_tail. rewrite (bind_ok (gets lg_n) _ l1 (lg_n l) l1) by reflexivity.
  rewrite En. change (Z.to_nat LOGBLOCKS) with (S (Z.to_nat (LOGBLOCKS - 1))). cbn [for_z]. apply bind_panic.
  rewrite (bind_ok (gets lg_dev) _ l1 (lg_dev l) l1), (bind_ok (gets lg_start) _ l1 (lg_start l) l1) by reflexivity.
  rewrite (bind_ok (gets _) _ l1 (lblock l 0) l1) by reflexivity. apply bind_panic.
  rewrite (li_dev _ _ I), (log_lb _ 0 Hf) by done. unfold bc, zoom. change (lg_cache l1) with (lg_cache l). by rewrite HP.
Qed.

(** *** A transaction that fills the log *)

Definition full_tx : M lstate unit :=
  initlog ROOTDEV demo_start;;
  begin_op;;
  for_z (Z.to_nat LOGBLOCKS) 40 (fun blk =>
    b ← bc (bread ROOTDEV blk); bc (bdata_set b (fun _ => replicate (Z.to_nat BSIZE) 7));; log_write b;; bc (brelse b)).
Definition full_log : lstate := final full_tx (boot ∅).

Lemma full_log_ok : exists a, log_inv full_log a /\ (forall k, ~ locked a k) /\ lg_n full_log = LOGBLOCKS /\
  lg_committing full_log = 0 /\ lg_outstanding full_log = 1.
Proof.
  set (P := fun (n : Z) l => exists a, log_inv l a /\ (forall k, ~ locked a k) /\ lg_start l = demo_start /\ lg_n l = n /\
    lg_committing l = 0 /\ lg_outstanding l = 1 /\ forall k, k ∈ logged l -> k < 40 + n).
  assert (wp full_tx (fun _ l => P LOGBLOCKS l) (boot ∅)) as H.
  { unfold full_tx. eapply wp_call; [apply (initlog_wp ∅ demo_start demo_fits), log_empty_valid, zero_block_empty|].
    cbv beta. intros u l1 (ws & _ & I1 & En & Es & Eo & Ec).
    unfold begin_op. wp_steps. rewrite Ec, En, Eo. change (negb (0 =? 0)) with false.
    change (LOGBLOCKS <? 0 + (0 + 1) * MAXOPBLOCKS) with false. cbv iota. wp_step.
    eapply wp_mono; [apply (wp_for_z (fun i l => P (i - 40) l))|].
    - exists (ACache ∅ (apply_writes ws ∅) ws). split_and!; [destruct I1; by constructor| |done|done|done|done|].
      + intros k (h & Hk & _). cbn [ac_held] in Hk. by rewrite lookup_empty in Hk.
      + unfold logged. cbn [set_outstanding lg_n]. rewrite En. intros k Hk. by apply elem_of_nil in Hk.
    - intros i l Hi (a & I & Hnl & Est & Hn & Hc & Ho & Hlog). assert (LOGBLOCKS = 30) as EL by done.
      assert (i ∉ logged l) as Hni by (intros Hin%Hlog; lia).
      eapply wp_mono; [apply (update_block l a i)|]; [done|done| |lia|lia|].
      + rewrite Est. split; [lia|]. unfold region, demo_start, LOGBLOCKS, MAXOPBLOCKS. lia.
      + cbv beta. intros v l2 (a2 & I2 & L2 & Es2 & En2 & El2 & Eo2 & Ec2 & _). exists a2.
        rewrite bool_decide_true in En2 by done. rewrite decide_False in El2 by done. cbn [bit] in En2.
        split_and!; [done|done|by rewrite Es2|lia|by rewrite Ec2|by rewrite Eo2|].
        intros k. rewrite El2, elem_of_app. intros [Hk%Hlog|Hk%list_elem_of_singleton]; lia.
    - cbv beta. intros v l. replace (40 + Z.of_nat (Z.to_nat LOGBLOCKS) - 40) with LOGBLOCKS by done. done. }
  destruct (final_wp _ _ _ H) as [_ (a & I & Hnl & _ & Hn & Hc & Ho & _)].
  exists a. exact (conj I (conj Hnl (conj Hn (conj Hc Ho)))).
Qed.

Lemma full_log_commit_panics_witness : lg_n full_log = LOGBLOCKS /\ end_op full_log = Panic "bget: no buffers".
Proof.
  destruct full_log_ok as (a & I & Hnl & Hn & Hc & Ho). split; [exact Hn|].
  exact (full_log_commit_panics full_log a I Hnl Hn Hc Ho).
Defined.
