(* ===== verification/UserMem.v ===== *)
(** * User memory as the rest of the kernel sees it

    copyin and copyout (vm.c, modelled in [UserCopy]) as an interface: a copy
    may fail part way, and may change the memory by faulting pages in, but not
    the bytes that other addresses hold. *)
From stdpp Require Import base tactics numbers list.
From Stdlib Require Import ZArith Lia.
From S2P Require Import Prelude.

Open Scope Z_scope.

Class UserMem (U : Type) := {
  copyout_user : Z -> list Z -> U -> bool * U;
  copyin_user : Z -> Z -> U -> list Z * bool * U
}.

(** What the callers rely on. *)
Class UserLaws (U : Type) `{UM : UserMem U} := {
  um_byte : U -> Z -> Z;
  law_copyin : forall va n u l ok u', copyin_user va n u = (l, ok, u') ->
    (forall a, um_byte u' a = um_byte u a) /\
    (ok = true -> l = (fun k => um_byte u (va + k)) <$> seqZ 0 n);
  law_copyout : forall va l u ok u', copyout_user va l u = (ok, u') ->
    (forall a, ~ (va <= a < va + Z.of_nat (length l)) -> um_byte u' a = um_byte u a) /\
    (ok = true -> forall k x, l !! k = Some x -> um_byte u' (va + Z.of_nat k) = x)
}.

(** A memory of bytes in which addresses below [limit] are accessible. *)
Record flat := Flat { fl_byte : Z -> Z; fl_limit : Z }.

Fixpoint flat_store (l : list Z) (va : Z) (f : Z -> Z) : Z -> Z :=
  match l with [] => f | x :: l => flat_store l (va + 1) (fun a => if a =? va then x else f a) end.

#[export] Instance flat_mem : UserMem flat := {
  copyout_user va l u :=
    if (0 <=? va) && (va + Z.of_nat (length l) <=? fl_limit u)
    then (true, Flat (flat_store l va (fl_byte u)) (fl_limit u)) else (false, u);
  copyin_user va n u :=
    if (0 <=? va) && (va + n <=? fl_limit u)
    then ((fun k => fl_byte u (va + k)) <$> seqZ 0 n, true, u) else ([], false, u)
}.

Lemma flat_store_spec l va f a :
  flat_store l va f a = if decide (va <= a < va + Z.of_nat (length l)) then default 0 (l !! Z.to_nat (a - va)) else f a.
Proof.
  revert va f. induction l as [|x l IH]; intros va f; cbn [flat_store length].
  - rewrite decide_False by lia. done.
  - rewrite IH. destruct (decide (va + 1 <= a < va + 1 + Z.of_nat (length l))).
    + rewrite decide_True by lia. replace (Z.to_nat (a - va)) with (S (Z.to_nat (a - (va + 1)))) by lia. done.
    + destruct (Z.eqb_spec a va) as [->|N].
      * rewrite decide_True by lia. by rewrite Z.sub_diag.
      * rewrite decide_False by lia. done.
Qed.

#[export] Instance flat_laws : UserLaws flat.
Proof.
  refine {| um_byte := fl_byte |}.
  - intros va n u l ok u'. cbn. destruct (_ && _); intros [= <- <- <-]; split; done.
  - intros va l u ok u'. cbn. destruct (_ && _); intros [= <- <-]; (split; [|done || intros _ k x Hk]).
    + intros a Ha. cbn. rewrite flat_store_spec. by rewrite decide_False.
    + cbn. rewrite flat_store_spec. apply lookup_lt_Some in Hk as Hl. rewrite decide_True by lia.
      replace (Z.to_nat (va + Z.of_nat k - va)) with k by lia. by rewrite Hk.
    + done.
Defined.
