(* ===== verification/Fs.v ===== *)
(** * The file system (kernel/fs.c, kernel/fs.h, kernel/file.h)

    Blocks, inodes, directories and path names on top of the log.  The inode
    table is a list of NINODE entries and an [struct inode *] is an index into
    it ([NULLIP] for 0); the sleep lock of an inode is its [i_lock] bit.  The
    user memory that readi and writei copy to and from is a component of the
    state with the operations of the class [UserMem] (file UserMem). *)
From stdpp Require Import base tactics numbers list strings gmap.
From Stdlib Require Import ZArith Lia.
From S2P Require Import Prelude Block Bio Log UserMem.

Open Scope Z_scope.

(** ** Constants and on-disk structures *)

Definition ROOTINO : Z := 1.
Definition FSMAGIC : Z := 0x10203040.
Definition NDIRECT : Z := 12.
Definition NINDIRECT : Z := BSIZE / 4.
Definition MAXFILE : Z := NDIRECT + NINDIRECT.
Definition DINODE_SIZE : Z := 64.
Definition IPB : Z := BSIZE / DINODE_SIZE.
Definition BPB : Z := BSIZE * 8.
Definition DIRSIZ : Z := 14.
Definition DIRENT_SIZE : Z := 16.
Definition NINODE : Z := 50.
Definition T_DIR : Z := 1.
Definition T_FILE : Z := 2.
Definition T_DEVICE : Z := 3.

Record superblock := Superblock {
  sb_magic : Z; sb_size : Z; sb_nblocks : Z; sb_ninodes : Z;
  sb_nlog : Z; sb_logstart : Z; sb_inodestart : Z; sb_bmapstart : Z
}.

Definition IBLOCK (i : Z) (sb : superblock) : Z := w32 (i / IPB + sb_inodestart sb).
Definition BBLOCK (b : Z) (sb : superblock) : Z := w32 (b / BPB + sb_bmapstart sb).

(** struct inode *)
Record inode := Inode {
  i_dev : Z; i_inum : Z; i_ref : Z; i_lock : bool; i_valid : Z;
  i_type : Z; i_major : Z; i_minor : Z; i_nlink : Z; i_size : Z; i_addrs : list Z
}.
Definition inode_zero : inode := Inode 0 0 0 false 0 0 0 0 0 0 (replicate (Z.to_nat (NDIRECT + 1)) 0).
Definition NULLIP : Z := -1.

(** ** State *)

Record fstate (U : Type) := FState {
  f_log : lstate; f_sb : superblock; f_inode : list inode; f_user : U
}.
Arguments FState {U}.
Arguments f_log {U}.
Arguments f_sb {U}.
Arguments f_inode {U}.
Arguments f_user {U}.

(** The destination or source of a transfer: the kernel's own buffer or a
    user address ([user_dst], [user_src]). *)
Inductive endpoint := Kernel | User (va : Z).

(** strncmp and strncpy on buffers given by their bytes. *)
Fixpoint strncmp_bytes (n : nat) (p q : list Z) : Z :=
  match n with
  | O => 0
  | S n =>
      let a := hd 0 p in let b := hd 0 q in
      if (a =? 0) || negb (a =? b) then a - b else strncmp_bytes n (tl p) (tl q)
  end.
Fixpoint strncpy_bytes (n : nat) (t : list Z) : list Z :=
  match n with
  | O => []
  | S n => match t with
           | [] => 0 :: strncpy_bytes n []
           | c :: t => c :: strncpy_bytes n (if c =? 0 then [] else t)
           end
  end.
Definition namecmp (s t : list Z) : Z := strncmp_bytes (Z.to_nat DIRSIZ) s t.

(** struct dinode *)
Definition dinode_off (inum : Z) : Z := inum mod IPB * DINODE_SIZE.
Definition d_type (b : block) (inum : Z) : Z := s16 (u16_at b (dinode_off inum)).
Definition d_major (b : block) (inum : Z) : Z := s16 (u16_at b (dinode_off inum + 2)).
Definition d_minor (b : block) (inum : Z) : Z := s16 (u16_at b (dinode_off inum + 4)).
Definition d_nlink (b : block) (inum : Z) : Z := s16 (u16_at b (dinode_off inum + 6)).
Definition d_size (b : block) (inum : Z) : Z := u32_at b (dinode_off inum + 8).
Definition d_addr (b : block) (inum i : Z) : Z := u32_at b (dinode_off inum + 12 + 4 * i).

(** The dinode of an in-memory inode, stored into block [b]. *)
Definition put_dinode (ip : inode) (b : block) : block :=
  let o := dinode_off (i_inum ip) in
  let b := set_u16 b o (w16 (i_type ip)) in
  let b := set_u16 b (o + 2) (w16 (i_major ip)) in
  let b := set_u16 b (o + 4) (w16 (i_minor ip)) in
  let b := set_u16 b (o + 6) (w16 (i_nlink ip)) in
  let b := set_u32 b (o + 8) (i_size ip) in
  set_bytes b (o + 12) (le_array (i_addrs ip)).

(** The in-memory inode that ilock fills from block [b]. *)
Definition get_dinode (b : block) (ip : inode) : inode :=
  let n := i_inum ip in
  Inode (i_dev ip) n (i_ref ip) (i_lock ip) (i_valid ip)
    (d_type b n) (d_major b n) (d_minor b n) (d_nlink b n) (d_size b n)
    ((fun i => d_addr b n i) <$> seqZ 0 (NDIRECT + 1)).

Section fs.
Context {U : Type} `{UM : UserMem U}.

Definition set_flog l (s : fstate U) := FState l (f_sb s) (f_inode s) (f_user s).
Definition set_fsb x (s : fstate U) := FState (f_log s) x (f_inode s) (f_user s).
Definition set_finode x (s : fstate U) := FState (f_log s) (f_sb s) x (f_user s).
Definition set_fuser (x : U) (s : fstate U) : fstate U := FState (f_log s) (f_sb s) (f_inode s) x.

(** Calls of the log and of the buffer cache. *)
Definition lg {A} (c : M lstate A) : M (fstate U) A := zoom f_log set_flog c.
Definition bcf {A} (c : M bstate A) : M (fstate U) A := lg (bc c).

(** The fields of the inode [ip] points to. *)
Definition geti (s : fstate U) (ip : Z) : inode := nth (Z.to_nat ip) (f_inode s) inode_zero.
Definition inode_of (ip : Z) : M (fstate U) inode := gets (fun s => geti s ip).
Definition updi (ip : Z) (f : inode -> inode) : M (fstate U) unit :=
  modify (fun s => set_finode (<[Z.to_nat ip := f (geti s ip)]> (f_inode s)) s).

Definition set_iref x i := Inode (i_dev i) (i_inum i) x (i_lock i) (i_valid i) (i_type i) (i_major i) (i_minor i) (i_nlink i) (i_size i) (i_addrs i).
Definition set_ilock x i := Inode (i_dev i) (i_inum i) (i_ref i) x (i_valid i) (i_type i) (i_major i) (i_minor i) (i_nlink i) (i_size i) (i_addrs i).
Definition set_ivalid x i := Inode (i_dev i) (i_inum i) (i_ref i) (i_lock i) x (i_type i) (i_major i) (i_minor i) (i_nlink i) (i_size i) (i_addrs i).
Definition set_itype x i := Inode (i_dev i) (i_inum i) (i_ref i) (i_lock i) (i_valid i) x (i_major i) (i_minor i) (i_nlink i) (i_size i) (i_addrs i).
Definition set_inlink x i := Inode (i_dev i) (i_inum i) (i_ref i) (i_lock i) (i_valid i) (i_type i) (i_major i) (i_minor i) x (i_size i) (i_addrs i).
Definition set_isize x i := Inode (i_dev i) (i_inum i) (i_ref i) (i_lock i) (i_valid i) (i_type i) (i_major i) (i_minor i) (i_nlink i) x (i_addrs i).
Definition set_iaddr k x i := Inode (i_dev i) (i_inum i) (i_ref i) (i_lock i) (i_valid i) (i_type i) (i_major i) (i_minor i) (i_nlink i) (i_size i) (<[Z.to_nat k := x]> (i_addrs i)).
Definition set_idev d n i := Inode d n 1 (i_lock i) 0 (i_type i) (i_major i) (i_minor i) (i_nlink i) (i_size i) (i_addrs i).
Definition iaddr (i : inode) (k : Z) : Z := nth (Z.to_nat k) (i_addrs i) 0.

(** ** Blocks *)

Definition readsb (dev : Z) : M (fstate U) unit :=
  bp ← bcf (bread dev 1);
  d ← bcf (bdata bp);
  modify (set_fsb (Superblock (u32_at d 0) (u32_at d 4) (u32_at d 8) (u32_at d 12)
                              (u32_at d 16) (u32_at d 20) (u32_at d 24) (u32_at d 28)));;
  bcf (brelse bp).

Definition bzero (dev bno : Z) : M (fstate U) unit :=
  bp ← bcf (bread dev bno);
  bcf (bdata_set bp (fun _ => zero_block));;
  lg (log_write bp);;
  bcf (brelse bp).

(** Bit [bi] of a bitmap block. *)
Definition bmap_byte (d : block) (bi : Z) : Z := nth (Z.to_nat (bi / 8)) d 0.
Definition bmap_mask (bi : Z) : Z := Z.shiftl 1 (bi mod 8).
Definition bit_clear (d : block) (bi : Z) : bool := Z.land (bmap_byte d bi) (bmap_mask bi) =? 0.
Definition set_bmap_byte (d : block) (bi v : Z) : block := <[Z.to_nat (bi / 8) := v]> d.

(** The inner loop of balloc: the first free block of this bitmap block. *)
Fixpoint free_bit (n : nat) (bi b size : Z) (d : block) : option Z :=
  match n with
  | O => None
  | S n =>
      if b + bi <? size then
        if bit_clear d bi then Some bi else free_bit n (bi + 1) b size d
      else None
  end.

Fixpoint balloc_loop (fuel : nat) (b dev : Z) : M (fstate U) Z :=
  sb ← gets f_sb;
  if negb (b <? sb_size sb) then mret 0
  else match fuel with
  | O => nofuel
  | S fuel =>
      bp ← bcf (bread dev (BBLOCK b sb));
      d ← bcf (bdata bp);
      match free_bit (Z.to_nat BPB) 0 b (sb_size sb) d with
      | Some bi =>
          bcf (bdata_set bp (fun d => set_bmap_byte d bi (Z.lor (bmap_byte d bi) (bmap_mask bi))));;
          lg (log_write bp);;
          bcf (brelse bp);;
          bzero dev (b + bi);;
          mret (b + bi)
      | None =>
          bcf (brelse bp);;
          balloc_loop fuel (b + BPB) dev
      end
  end.
Definition balloc (dev : Z) : M (fstate U) Z :=
  sb ← gets f_sb; balloc_loop (S (Z.to_nat (sb_size sb / BPB))) 0 dev.

Definition bfree (dev b : Z) : M (fstate U) unit :=
  sb ← gets f_sb;
  bp ← bcf (bread dev (BBLOCK b sb));
  d ← bcf (bdata bp);
  let bi := b mod BPB in
  if bit_clear d bi then panic "freeing free block"
  else
    bcf (bdata_set bp (fun d => set_bmap_byte d bi (Z.land (bmap_byte d bi) (Z.lnot (bmap_mask bi)))));;
    lg (log_write bp);;
    bcf (brelse bp).

(** ** Inodes *)

(** The scan of iget: the entry of (dev, inum), or the first unused one. *)
Fixpoint iget_scan (n : nat) (ip empty dev inum : Z) (t : list inode) : Z * Z :=
  match n with
  | O => (NULLIP, empty)
  | S n =>
      let x := nth (Z.to_nat ip) t inode_zero in
      if (0 <? i_ref x) && (i_dev x =? dev) && (i_inum x =? inum) then (ip, empty)
      else iget_scan n (ip + 1) (if (empty =? NULLIP) && (i_ref x =? 0) then ip else empty) dev inum t
  end.

Definition iget (dev inum : Z) : M (fstate U) Z :=
  r ← gets (fun s => iget_scan (Z.to_nat NINODE) 0 NULLIP dev inum (f_inode s));
  let '(ip, empty) := r in
  if negb (ip =? NULLIP) then updi ip (fun i => set_iref (i_ref i + 1) i);; mret ip
  else if empty =? NULLIP then panic "iget: no inodes"
  else updi empty (set_idev dev inum);; mret empty.

Fixpoint ialloc_loop (fuel : nat) (inum dev type : Z) : M (fstate U) Z :=
  sb ← gets f_sb;
  if negb (inum <? sb_ninodes sb) then mret NULLIP
  else match fuel with
  | O => nofuel
  | S fuel =>
      bp ← bcf (bread dev (IBLOCK inum sb));
      d ← bcf (bdata bp);
      if d_type d inum =? 0 then
        bcf (bdata_set bp (fun d =>
          set_u16 (set_bytes d (dinode_off inum) (replicate (Z.to_nat DINODE_SIZE) 0)) (dinode_off inum) (w16 type)));;
        lg (log_write bp);;
        bcf (brelse bp);;
        iget dev inum
      else
        bcf (brelse bp);;
        ialloc_loop fuel (inum + 1) dev type
  end.
Definition ialloc (dev type : Z) : M (fstate U) Z :=
  sb ← gets f_sb; ialloc_loop (Z.to_nat (sb_ninodes sb)) 1 dev type.

Definition iupdate (ip : Z) : M (fstate U) unit :=
  sb ← gets f_sb; i ← inode_of ip;
  bp ← bcf (bread (i_dev i) (IBLOCK (i_inum i) sb));
  bcf (bdata_set bp (put_dinode i));;
  lg (log_write bp);;
  bcf (brelse bp).

Definition idup (ip : Z) : M (fstate U) Z :=
  updi ip (fun i => set_iref (i_ref i + 1) i);; mret ip.

Definition acquiresleep_inode (ip : Z) : M (fstate U) unit :=
  i ← inode_of ip; if i_lock i then blocked else updi ip (set_ilock true).

Definition ilock (ip : Z) : M (fstate U) unit :=
  i ← inode_of ip;
  if (ip =? NULLIP) || (i_ref i <? 1) then panic "ilock"
  else
    acquiresleep_inode ip;;
    i ← inode_of ip;
    when i_valid i =? 0 do (
      sb ← gets f_sb;
      bp ← bcf (bread (i_dev i) (IBLOCK (i_inum i) sb));
      d ← bcf (bdata bp);
      updi ip (get_dinode d);;
      bcf (brelse bp);;
      updi ip (set_ivalid 1);;
      i ← inode_of ip;
      when i_type i =? 0 do panic "ilock: no type").

Definition iunlock (ip : Z) : M (fstate U) unit :=
  i ← inode_of ip;
  if (ip =? NULLIP) || negb (i_lock i) || (i_ref i <? 1) then panic "iunlock"
  else updi ip (set_ilock false).

(** ** Inode content *)

Definition bmap (ip bn : Z) : M (fstate U) Z :=
  i ← inode_of ip;
  if bn <? NDIRECT then
    let addr := iaddr i bn in
    if addr =? 0 then
      addr ← balloc (i_dev i);
      if addr =? 0 then mret 0 else updi ip (set_iaddr bn addr);; mret addr
    else mret addr
  else
    let bn := bn - NDIRECT in
    if bn <? NINDIRECT then
      addr ← (let addr := iaddr i NDIRECT in
              if addr =? 0 then
                addr ← balloc (i_dev i);
                if addr =? 0 then mret 0 else updi ip (set_iaddr NDIRECT addr);; mret addr
              else mret addr);
      if addr =? 0 then mret 0
      else
        bp ← bcf (bread (i_dev i) addr);
        d ← bcf (bdata bp);
        let addr := u32_at d (4 * bn) in
        addr ← (if addr =? 0 then
                  addr ← balloc (i_dev i);
                  (when negb (addr =? 0) do (bcf (bdata_set bp (fun d => set_u32 d (4 * bn) addr));; lg (log_write bp)));;
                  mret addr
                else mret addr);
        bcf (brelse bp);;
        mret addr
    else panic "bmap: out of range".

Definition itrunc (ip : Z) : M (fstate U) unit :=
  for_z (Z.to_nat NDIRECT) 0 (fun k =>
    i ← inode_of ip;
    when negb (iaddr i k =? 0) do (bfree (i_dev i) (iaddr i k);; updi ip (set_iaddr k 0)));;
  i ← inode_of ip;
  (when negb (iaddr i NDIRECT =? 0) do (
    bp ← bcf (bread (i_dev i) (iaddr i NDIRECT));
    for_z (Z.to_nat NINDIRECT) 0 (fun j =>
      d ← bcf (bdata bp);
      when negb (u32_at d (4 * j) =? 0) do bfree (i_dev i) (u32_at d (4 * j)));;
    bcf (brelse bp);;
    bfree (i_dev i) (iaddr i NDIRECT);;
    updi ip (set_iaddr NDIRECT 0)));;
  updi ip (set_isize 0);;
  iupdate ip.

Definition iput (ip : Z) : M (fstate U) unit :=
  i ← inode_of ip;
  (when (i_ref i =? 1) && negb (i_valid i =? 0) && (i_nlink i =? 0) do (
    acquiresleep_inode ip;;
    itrunc ip;;
    updi ip (set_itype 0);;
    iupdate ip;;
    updi ip (set_ivalid 0);;
    updi ip (set_ilock false)));;
  updi ip (fun i => set_iref (i_ref i - 1) i).

Definition iunlockput (ip : Z) : M (fstate U) unit := iunlock ip;; iput ip.

Definition ireclaim (dev : Z) : M (fstate U) unit :=
  sb ← gets f_sb;
  for_z (Z.to_nat (sb_ninodes sb) - 1) 1 (fun inum =>
    bp ← bcf (bread dev (IBLOCK inum sb));
    d ← bcf (bdata bp);
    ip ← (if negb (d_type d inum =? 0) && (d_nlink d inum =? 0) then iget dev inum else mret NULLIP);
    bcf (brelse bp);;
    when negb (ip =? NULLIP) do (
      lg begin_op;; ilock ip;; iunlock ip;; iput ip;; lg end_op)).

Definition fsinit (dev : Z) : M (fstate U) unit :=
  readsb dev;;
  sb ← gets f_sb;
  if negb (sb_magic sb =? FSMAGIC) then panic "invalid file system"
  else lg (initlog dev (sb_logstart sb));; ireclaim dev.

Record stat := Stat { st_dev : Z; st_ino : Z; st_type : Z; st_nlink : Z; st_size : Z }.
Definition stati (ip : Z) : M (fstate U) stat :=
  i ← inode_of ip; mret (Stat (i_dev i) (i_inum i) (i_type i) (i_nlink i) (i_size i)).

(** either_copyout: to the kernel's buffer it always succeeds, and the bytes
    are appended to what the caller gets. *)
Definition either_copyout (dst : endpoint) (tot : Z) (l : list Z) : M (fstate U) bool :=
  match dst with
  | Kernel => mret true
  | User va => fun s => let '(ok, u) := copyout_user (w64 (va + tot)) l (f_user s) in Ret ok (set_fuser u s)
  end.
(** either_copyin: the bytes that arrived, and whether all of them did. *)
Definition either_copyin (src : endpoint) (kbuf : list Z) (tot n : Z) : M (fstate U) (list Z * bool) :=
  match src with
  | Kernel => mret (get_bytes kbuf tot n, true)
  | User va => fun s => let '(l, ok, u) := copyin_user (w64 (va + tot)) n (f_user s) in Ret (l, ok) (set_fuser u s)
  end.

(** The loop of readi: the result [tot] (-1 on a failed copy) and the bytes
    delivered to the kernel's buffer. *)
Fixpoint readi_loop (fuel : nat) (ip : Z) (dst : endpoint) (off n tot : Z) (acc : list Z) : M (fstate U) (Z * list Z) :=
  if negb (tot <? n) then mret (tot, acc)
  else match fuel with
  | O => nofuel
  | S fuel =>
      addr ← bmap ip (off / BSIZE);
      if addr =? 0 then mret (tot, acc)
      else
        i ← inode_of ip;
        bp ← bcf (bread (i_dev i) addr);
        d ← bcf (bdata bp);
        let m := Z.min (n - tot) (BSIZE - off mod BSIZE) in
        let l := get_bytes d (off mod BSIZE) m in
        ok ← either_copyout dst tot l;
        bcf (brelse bp);;
        if negb ok then mret (-1, acc)
        else readi_loop fuel ip dst (off + m) n (tot + m) (acc ++ l)
  end.

Definition rw_fuel (n : Z) : nat := (Z.to_nat (n / BSIZE) + 2)%nat.

Definition readi (ip : Z) (dst : endpoint) (off n : Z) : M (fstate U) (Z * list Z) :=
  i ← inode_of ip;
  if (i_size i <? off) || (w32 (off + n) <? off) then mret (0, [])
  else
    let n := if i_size i <? w32 (off + n) then i_size i - off else n in
    readi_loop (rw_fuel n) ip dst off n 0 [].

Fixpoint writei_loop (fuel : nat) (ip : Z) (src : endpoint) (kbuf : list Z) (off n tot : Z) : M (fstate U) (Z * Z) :=
  if negb (tot <? n) then mret (tot, off)
  else match fuel with
  | O => nofuel
  | S fuel =>
      addr ← bmap ip (off / BSIZE);
      if addr =? 0 then mret (tot, off)
      else
        i ← inode_of ip;
        bp ← bcf (bread (i_dev i) addr);
        let m := Z.min (n - tot) (BSIZE - off mod BSIZE) in
        r ← either_copyin src kbuf tot m;
        bcf (bdata_set bp (fun d => set_bytes d (off mod BSIZE) r.1));;
        if negb r.2 then bcf (brelse bp);; mret (tot, off)
        else
          lg (log_write bp);;
          bcf (brelse bp);;
          writei_loop fuel ip src kbuf (off + m) n (tot + m)
  end.

Definition writei (ip : Z) (src : endpoint) (kbuf : list Z) (off n : Z) : M (fstate U) Z :=
  i ← inode_of ip;
  if (i_size i <? off) || (w32 (off + n) <? off) then mret (-1)
  else if MAXFILE * BSIZE <? off + n then mret (-1)
  else
    r ← writei_loop (rw_fuel n) ip src kbuf off n 0;
    let '(tot, off) := r in
    i ← inode_of ip;
    (when i_size i <? off do updi ip (set_isize off));;
    iupdate ip;;
    mret tot.

(** ** Directories *)

Fixpoint dirlookup_loop (fuel : nat) (dp : Z) (name : list Z) (off : Z) : M (fstate U) (Z * Z) :=
  i ← inode_of dp;
  if negb (off <? i_size i) then mret (NULLIP, 0)
  else match fuel with
  | O => nofuel
  | S fuel =>
      r ← readi dp Kernel off DIRENT_SIZE;
      let '(n, de) := r in
      if negb (n =? DIRENT_SIZE) then panic "dirlookup read"
      else
        let inum := u16_at de 0 in
        if inum =? 0 then dirlookup_loop fuel dp name (off + DIRENT_SIZE)
        else if namecmp name (drop 2 de) =? 0 then ip ← iget (i_dev i) inum; mret (ip, off)
        else dirlookup_loop fuel dp name (off + DIRENT_SIZE)
  end.

Definition dir_fuel (size : Z) : nat := S (Z.to_nat (size / DIRENT_SIZE)).

(** The inode found (or NULLIP) and, in place of [poff], its offset. *)
Definition dirlookup (dp : Z) (name : list Z) : M (fstate U) (Z * Z) :=
  i ← inode_of dp;
  if negb (i_type i =? T_DIR) then panic "dirlookup not DIR"
  else dirlookup_loop (dir_fuel (i_size i)) dp name 0.

Fixpoint dirlink_slot (fuel : nat) (dp off : Z) : M (fstate U) Z :=
  i ← inode_of dp;
  if negb (off <? i_size i) then mret off
  else match fuel with
  | O => nofuel
  | S fuel =>
      r ← readi dp Kernel off DIRENT_SIZE;
      let '(n, de) := r in
      if negb (n =? DIRENT_SIZE) then panic "dirlink read"
      else if u16_at de 0 =? 0 then mret off
      else dirlink_slot fuel dp (off + DIRENT_SIZE)
  end.

Definition dirlink (dp : Z) (name : list Z) (inum : Z) : M (fstate U) Z :=
  r ← dirlookup dp name;
  if negb (r.1 =? NULLIP) then iput r.1;; mret (-1)
  else
    i ← inode_of dp;
    off ← dirlink_slot (dir_fuel (i_size i)) dp 0;
    n ← writei dp Kernel (le_bytes 2 inum ++ strncpy_bytes (Z.to_nat DIRSIZ) name) off DIRENT_SIZE;
    mret (if n =? DIRENT_SIZE then 0 else -1).
End fs.

(** ** Paths *)

Definition SLASH : Z := 47.

Fixpoint skip_slashes (path : list Z) : list Z :=
  match path with c :: p => if c =? SLASH then skip_slashes p else path | [] => [] end.
Fixpoint span_elem (path : list Z) : list Z * list Z :=
  match path with
  | [] => ([], [])
  | c :: p => if c =? SLASH then ([], path) else let '(e, r) := span_elem p in (c :: e, r)
  end.

(** A path is the list of its bytes before the terminating NUL.  The result
    is the new content of the buffer [name] and the rest of the path. *)
Definition skipelem (path name : list Z) : option (list Z * list Z) :=
  match skip_slashes path with
  | [] => None
  | s =>
      let '(elem, rest) := span_elem s in
      let len := Z.of_nat (length elem) in
      let name := if DIRSIZ <=? len then set_bytes name 0 (take (Z.to_nat DIRSIZ) elem)
                  else set_bytes (set_bytes name 0 elem) len [0] in
      Some (name, skip_slashes rest)
  end.

Section path.
Context {U : Type} `{UM : UserMem U}.

Fixpoint namex_loop (fuel : nat) (path name : list Z) (nameiparent : bool) (ip : Z) : M (fstate U) (Z * list Z) :=
  match skipelem path name with
  | None => if nameiparent then iput ip;; mret (NULLIP, name) else mret (ip, name)
  | Some (name, path) =>
      match fuel with
      | O => nofuel
      | S fuel =>
          ilock ip;;
          i ← inode_of ip;
          if negb (i_type i =? T_DIR) then iunlockput ip;; mret (NULLIP, name)
          else if nameiparent && bool_decide (path = []) then iunlock ip;; mret (ip, name)
          else
            r ← dirlookup ip name;
            let '(next, _) := r in
            if next =? NULLIP then iunlockput ip;; mret (NULLIP, name)
            else iunlockput ip;; namex_loop fuel path name nameiparent next
      end
  end.

(** [cwd] is [myproc()->cwd]; the result pairs the inode with the name buffer. *)
Definition namex (cwd : Z) (path : list Z) (nameiparent : bool) (name : list Z) : M (fstate U) (Z * list Z) :=
  ip ← (if hd 0 path =? SLASH then iget ROOTDEV ROOTINO else idup cwd);
  namex_loop (S (length path)) path name nameiparent ip.

Definition namei (cwd : Z) (path : list Z) : M (fstate U) Z :=
  r ← namex cwd path false (replicate (Z.to_nat DIRSIZ) 0); mret r.1.
Definition nameiparent (cwd : Z) (path name : list Z) : M (fstate U) (Z * list Z) := namex cwd path true name.
End path.
