(* ===== verification/FsSpec.v ===== *)
(** * Block allocation and inodes: specifications

    The file-system operations change blocks only through the log, so their
    specifications speak of [view], the contents of blocks inside the open
    transaction. *)
From stdpp Require Import base tactics numbers list strings gmap.
From Stdlib Require Import ZArith Lia.
From S2P Require Import Prelude Block Bio BioSpec BioCache Log LogSpec LogCrash LogInv Fs.

Open Scope Z_scope.

(** ** Inside a transaction *)

(** What stays the same while a transaction is open. *)
Record txenv := TxEnv { te_start : Z; te_out : Z; te_com : Z; te_disk : gmap Z block; te_writes : list (Z * block) }.

(** The transaction [l] in the environment [E]: its blocks are among [G], the
    buffers of [L] (with their blocks) are locked, the blocks of [D] have been
    changed and not logged yet, and the blocks' contents are [V]. *)
Record tx_of (l : lstate) (a : acache) (E : txenv) (G : list Z) (L : list (Z * Z)) (D : list Z) (V : Z -> block) : Prop := {
  tx_inv : log_inv l a;
  tx_start : lg_start l = te_start E;
  tx_out : lg_outstanding l = te_out E;
  tx_com : lg_committing l = te_com E;
  tx_disk : ac_disk a = te_disk E;
  tx_writes : ac_writes a = te_writes E;
  tx_logged : logged l ⊆ G;
  tx_held : Forall (fun p => holding a p.1 p.2) L;
  tx_locked : forall k, locked a k -> k ∈ L.*2;
  tx_dup : NoDup L.*2;
  tx_clean : forall b, b ∉ D -> b ∉ logged l -> view a b = disk_block (ac_disk a) b;
  tx_view : forall b, view a b = V b
}.
Definition tx l E G L D V : Prop := exists a, tx_of l a E G L D V.

(** A block that is neither locked nor logged holds what the disk holds. *)
Lemma view_clean l a blk : log_inv l a -> ~ locked a blk -> blk ∉ logged l -> view a blk = disk_block (ac_disk a) blk.
Proof.
  intros I Hl Hn. unfold view. destruct (ac_held a !! blk) as [h|] eqn:E; [|done].
  destruct (held_logged l a blk h I E) as [|Lk]; [done|]. destruct Hl. by exists h.
Qed.

Lemma tx_begin l a : log_inv l a -> (forall k, ~ locked a k) ->
  tx l (TxEnv (lg_start l) (lg_outstanding l) (lg_committing l) (ac_disk a) (ac_writes a)) (logged l) [] [] (view a).
Proof.
  intros I Hn. exists a. constructor; try done; [by intros k Hk; destruct (Hn k)|apply NoDup_nil_2|].
  intros b _ Hb. by apply (view_clean l a).
Qed.

Lemma logged_length l a : log_inv l a -> Z.of_nat (length (logged l)) = lg_n l.
Proof. intros I. unfold logged. rewrite length_fmap, length_seqZ. pose proof (li_n _ _ I). lia. Qed.

Lemma logged_bound l a G : log_inv l a -> logged l ⊆ G -> lg_n l <= Z.of_nat (length G).
Proof.
  intros I Hs. rewrite <- (logged_length l a I). apply inj_le. apply submseteq_length, NoDup_submseteq; [exact (li_dup _ _ I)|].
  intros x. apply Hs.
Qed.

(** The same transaction seen with more blocks, or with equal contents. *)
Lemma tx_mono l E G G' L D V : tx l E G L D V -> G ⊆ G' -> tx l E G' L D V.
Proof. intros [a []] H. exists a. constructor; try done. by etrans. Qed.
Lemma tx_ext l E G L D V V' : tx l E G L D V -> (forall b, V b = V' b) -> tx l E G L D V'.
Proof. intros [a []] H. exists a. constructor; try done. intros b. by rewrite <- H. Qed.

Definition fn_upd (V : Z -> block) (blk : Z) (x : block) (b : Z) : block := if decide (b = blk) then x else V b.

(** A last call whose (unit) result is the result. *)
Lemma wp_last {S} (x y z : M S unit) Q s : wp (x;; y;; z;; mret ()) Q s -> wp (x;; y;; z) Q s.
Proof.
  unfold wp, mbind, M_bind. destruct (x s) as [? s1| |]; [|done|done]. destruct (y s1) as [? s2| |]; [|done|done].
  by destruct (z s2) as [[] ?| |].
Qed.

(** ** Log and cache calls of the file system *)

(** Held buffers after a step on block [blk]. *)
Abbreviation held a L := (Forall (fun p : Z * Z => holding a p.1 p.2) L).
Lemma held_other a a' blk L : held a L -> (blk ∉ L.*2) -> keeps_others blk a a' -> held a' L.
Proof.
  rewrite !Forall_forall. intros HL Hn [_ Hk] p Hp. apply Hk; [|by apply HL]. intros E2. apply Hn. rewrite <- E2. exact (list_elem_of_fmap_2 snd _ _ Hp).
Qed.
Lemma held_same a a' b blk L : held a L -> (b, blk) ∈ L -> holding a' b blk -> keeps_others blk a a' -> held a' L.
Proof.
  rewrite !Forall_forall. intros HL Hb Hb' [_ Hk] p Hp. destruct (decide (p.2 = blk)) as [E2|N2]; [|by apply Hk; [|apply HL]].
  destruct p as [b' blk']. cbn in E2. subst blk'. assert (b' = b) as ->; [|done].
  destruct (HL _ Hp) as (h & Eh & Bh & _), (HL _ Hb) as (h' & Eh' & Bh' & _). cbn in *. congruence.
Qed.

Section calls.
Context {U : Type} (l : lstate) (sb : superblock) (it : list inode) (u : U).
Context (E : txenv) (G : list Z) (L : list (Z * Z)) (D : list Z) (V : Z -> block) (T : tx l E G L D V).
Abbreviation st l := (FState l sb it u).

Lemma s_lg {A} (c : M lstate A) (Q : A -> fstate U -> Prop) : wp c (fun x l' => Q x (st l')) l -> wp (lg c) Q (st l).
Proof. intros H. by apply wp_zoom. Qed.

Lemma s_bread blk (Q : Z -> fstate U -> Prop) :
  (blk ∉ L.*2) -> home_block (te_start E) blk -> Z.of_nat (length G) + Z.of_nat (length L) < NBUF ->
  (forall b l', tx l' E G ((b, blk) :: L) D V -> Q b (st l')) ->
  wp (bcf (bread ROOTDEV blk)) Q (st l).
Proof using T.
  intros Hn Hh Hr HQ. destruct T as [a [I HS HO HC HD HW HG HL HK HN HX HV]]. apply s_lg.
  pose proof (logged_bound l a G I HG) as HB.
  eapply wp_mono; [apply (log_bread l a blk L.*2); [done|done|done|by rewrite HS|rewrite length_fmap; lia]|].
  intros b l' (c & a' & -> & I' & Hb & Ed & Ev & El & Ek). apply HQ. exists a'. constructor; try done; try (by rewrite ?Ed); try (by rewrite (ko_writes _ _ _ Ek)).
  - constructor; [done|]. by apply (held_other a a' blk).
  - intros k Hk. apply El in Hk as [Hk|Hk]; [right; by apply HK|subst; left].
  - cbn. by apply NoDup_cons.
  - intros x Hx Hl. rewrite Ev, Ed. by apply HX.
  - intros x. by rewrite Ev.
Qed.

Lemma s_bdata b blk (Q : block -> fstate U -> Prop) : (b, blk) ∈ L -> Q (V blk) (st l) -> wp (bcf (bdata b)) Q (st l).
Proof using T.
  intros Hb HQ. destruct T as [a [I HS HO HC HD HW HG HL HK HN HX HV]]. apply s_lg. pose proof (proj1 (Forall_forall _ _) HL) as HL'.
  eapply wp_mono; [apply (log_bdata l a b blk); [done|exact (HL' _ Hb)]|]. intros d l' [-> ->]. by rewrite HV.
Qed.

Lemma s_bdata_set b blk f (Q : unit -> fstate U -> Prop) :
  (b, blk) ∈ L -> (forall l', tx l' E G L (blk :: D) (fn_upd V blk (f (V blk))) -> Q () (st l')) ->
  wp (bcf (bdata_set b f)) Q (st l).
Proof using T.
  intros Hb HQ. destruct T as [a [I HS HO HC HD HW HG HL HK HN HX HV]]. apply s_lg. pose proof (proj1 (Forall_forall _ _) HL) as HL'.
  eapply wp_mono; [apply (log_bdata_set l a b blk); [done|exact (HL' _ Hb)]|].
  intros [] l' (c & a' & -> & I' & Hb' & Ed & Ev & El & Ek). apply HQ. exists a'. constructor; try done; try (by rewrite ?Ed); try (by rewrite (ko_writes _ _ _ Ek)).
  - by apply (held_same a a' b blk).
  - intros k Hk. apply HK. by apply El.
  - intros x Hx Hl. rewrite Ev, Ed, decide_False by set_solver. apply HX; set_solver.
  - intros x. rewrite Ev, !HV. done.
Qed.

Lemma s_log_write b blk (Q : unit -> fstate U -> Prop) :
  (b, blk) ∈ L -> Z.of_nat (length G) < LOGBLOCKS -> 1 <= te_out E ->
  (forall l', tx l' E (blk :: G) L (filter (.≠ blk) D) V -> Q () (st l')) ->
  wp (lg (log_write b)) Q (st l).
Proof using T.
  intros Hb Hn Ho HQ. destruct T as [a [I HS HO HC HD HW HG HL HK HN HX HV]]. apply s_lg. pose proof (proj1 (Forall_forall _ _) HL) as HL'.
  pose proof (logged_bound l a G I HG) as HB.
  eapply wp_mono; [apply (log_write_wp l a b blk); [done|exact (HL' _ Hb)|lia|lia]|].
  intros [] l' (c & a' & El' & I' & Hb' & Ed & Ev & El & Ek).
  assert (forall x, x ∈ logged l' <-> x = blk \/ x ∈ logged l) as Hlog.
  { intros x. subst l'. rewrite logged_cache. destruct (decide (blk ∈ logged l)) as [Hi|Hi]; [split; [by right|]; by intros [->|]|].
    rewrite logged_appended by (exact (li_len _ _ I) || (pose proof (li_n _ _ I); lia)). rewrite elem_of_app, list_elem_of_singleton. tauto. }
  apply HQ. exists a'. constructor; try done; try (by rewrite ?Ed); try (by rewrite (ko_writes _ _ _ Ek)); try (subst l'; by destruct (decide _)).
  - intros x Hx. apply Hlog in Hx as [->|Hx]; [left|right; by apply HG].
  - by apply (held_same a a' b blk).
  - intros k Hk. apply HK. by apply El.
  - intros x Hx Hl. rewrite Hlog in Hl. rewrite Ev, Ed. apply HX; [|tauto]. intros Hx'. apply Hx, list_elem_of_filter. split; [|done]. tauto.
  - intros x. by rewrite Ev.
Qed.

Lemma s_brelse b blk L' (Q : unit -> fstate U -> Prop) :
  L = (b, blk) :: L' -> (blk ∉ D) -> (forall l', tx l' E G L' D V -> Q () (st l')) ->
  wp (bcf (brelse b)) Q (st l).
Proof using T.
  intros -> Hc HQ. destruct T as [a [I HS HO HC HD HW HG HL HK HN HX HV]]. apply s_lg. apply Forall_cons in HL as [Hb HL].
  cbn in HN. apply NoDup_cons in HN as [Hnb HN].
  eapply wp_mono; [apply (log_brelse l a b blk); [done|done|by apply HX]|].
  intros [] l' (c & a' & -> & I' & Ed & Ev & El & Ek). apply HQ. exists a'. constructor; try done; try (by rewrite ?Ed); try (by rewrite (ko_writes _ _ _ Ek)).
  - by apply (held_other a a' blk).
  - intros k Hk. apply El in Hk as [Hk Nk]. apply HK in Hk. cbn in Hk. apply elem_of_cons in Hk as [|]; done.
  - intros x Hx Hl. rewrite Ev, Ed. by apply HX.
  - intros x. by rewrite Ev.
Qed.
End calls.

(** ** The free-block bitmap *)

Lemma bit_clear_testbit d bi : bit_clear d bi = negb (Z.testbit (bmap_byte d bi) (bi mod 8)).
Proof. unfold bit_clear, bmap_mask. apply land_bit_zero. by apply Z.mod_pos_bound. Qed.

Lemma bmap_byte_set d bi bj v :
  0 <= bi < BPB -> 0 <= bj < BPB -> length d = Z.to_nat BSIZE ->
  bmap_byte (set_bmap_byte d bi v) bj = if decide (bi / 8 = bj / 8) then v else bmap_byte d bj.
Proof.
  intros Hi Hj Hl. unfold BPB, BSIZE in *. unfold bmap_byte, set_bmap_byte. rewrite !nth_lookup, lookup_insert_Z.
  - by destruct (decide (bi / 8 = bj / 8)).
  - rewrite Hl. split; [apply Z.div_pos; lia|]. rewrite Z2Nat.id by lia. apply Z.div_lt_upper_bound; lia.
  - apply Z.div_pos; lia.
Qed.

Lemma set_bmap_byte_length d bi v : length (set_bmap_byte d bi v) = length d.
Proof. apply length_insert. Qed.

Lemma mod_div_ne bi bj : bi <> bj -> bi / 8 = bj / 8 -> bi mod 8 <> bj mod 8.
Proof. intros N E E'. apply N. rewrite (Z.div_mod bi 8), (Z.div_mod bj 8) by lia. congruence. Qed.

(** Marking a block in use and freeing it change its own bit only. *)
Lemma bit_clear_mark d bi bj :
  0 <= bi < BPB -> 0 <= bj < BPB -> length d = Z.to_nat BSIZE ->
  bit_clear (set_bmap_byte d bi (Z.lor (bmap_byte d bi) (bmap_mask bi))) bj =
  if decide (bi = bj) then false else bit_clear d bj.
Proof.
  intros Hi Hj Hl. rewrite !bit_clear_testbit, bmap_byte_set by done. pose proof (Z.mod_pos_bound bi 8 ltac:(lia)).
  pose proof (Z.mod_pos_bound bj 8 ltac:(lia)). unfold bmap_mask. rewrite Z.shiftl_1_l.
  destruct (decide (bi = bj)) as [->|N].
  - rewrite decide_True by done. by rewrite Z.lor_spec, Z.pow2_bits_true, orb_true_r by lia.
  - destruct (decide (bi / 8 = bj / 8)) as [E|]; [|done]. rewrite Z.lor_spec, Z.pow2_bits_false by (by apply mod_div_ne).
    rewrite orb_false_r. unfold bmap_byte. by rewrite E.
Qed.

Lemma bit_clear_free d bi bj :
  0 <= bi < BPB -> 0 <= bj < BPB -> length d = Z.to_nat BSIZE ->
  bit_clear (set_bmap_byte d bi (Z.land (bmap_byte d bi) (Z.lnot (bmap_mask bi)))) bj =
  if decide (bi = bj) then true else bit_clear d bj.
Proof.
  intros Hi Hj Hl. rewrite !bit_clear_testbit, bmap_byte_set by done. pose proof (Z.mod_pos_bound bi 8 ltac:(lia)).
  pose proof (Z.mod_pos_bound bj 8 ltac:(lia)). unfold bmap_mask. rewrite Z.shiftl_1_l.
  destruct (decide (bi = bj)) as [->|N].
  - rewrite decide_True by done. by rewrite Z.land_spec, Z.lnot_spec, Z.pow2_bits_true, andb_false_r by lia.
  - destruct (decide (bi / 8 = bj / 8)) as [E|]; [|done].
    rewrite Z.land_spec, Z.lnot_spec, Z.pow2_bits_false by (lia || by apply mod_div_ne).
    rewrite andb_true_r. unfold bmap_byte. by rewrite E.
Qed.

(** The inner loop of balloc. *)
Lemma free_bit_spec n bi b size d :
  match free_bit n bi b size d with
  | Some r => bi <= r < bi + Z.of_nat n /\ b + r < size /\ bit_clear d r = true /\
              forall j, bi <= j < r -> bit_clear d j = false
  | None => forall j, bi <= j < bi + Z.of_nat n -> b + j < size -> bit_clear d j = false
  end.
Proof.
  revert bi. induction n as [|n IH]; intros bi; cbn [free_bit]; [lia|].
  destruct (Z.ltb_spec (b + bi) size); [|intros; lia]. destruct (bit_clear d bi) eqn:E; [split_and!; (done || lia)|].
  specialize (IH (bi + 1)). destruct (free_bit n (bi + 1) b size d) as [r|].
  - destruct IH as (H1 & H2 & H3 & H4). split_and!; [lia|lia|lia|done|]. intros j Hj.
    destruct (decide (j = bi)) as [->|]; [done|]. apply H4. lia.
  - intros j Hj Hs. destruct (decide (j = bi)) as [->|]; [done|]. apply IH; lia.
Qed.

(** ** balloc and bfree *)

(** Block [b] is free according to the bitmap. *)
Definition b_free (V : Z -> block) (sb : superblock) (b : Z) : bool := bit_clear (V (BBLOCK b sb)) (b mod BPB).

(** The layout that mkfs makes: the bitmap blocks are whole blocks outside of
    the log; boot block, bitmap and log are marked as in use. *)
Record bitmap_ok (V : Z -> block) (sb : superblock) (start : Z) : Prop := {
  bo_size : 0 <= sb_size sb < 2 ^ 31;
  bo_start : 0 <= sb_bmapstart sb < 2 ^ 31;
  bo_home : forall b, 0 <= b < sb_size sb -> home_block start (BBLOCK b sb);
  bo_len : forall b, 0 <= b < sb_size sb -> length (V (BBLOCK b sb)) = Z.to_nat BSIZE;
  bo_free : forall b, 0 <= b < sb_size sb -> b_free V sb b = true ->
    b <> 0 /\ home_block start b /\ forall c, 0 <= c < sb_size sb -> b <> BBLOCK c sb
}.

Lemma BBLOCK_eq sb V start b : bitmap_ok V sb start -> 0 <= b < sb_size sb -> BBLOCK b sb = b / BPB + sb_bmapstart sb.
Proof.
  intros B Hb. unfold BBLOCK. pose proof (bo_size _ _ _ B). pose proof (bo_start _ _ _ B). apply w32_id.
  assert (BPB = 8192) as EB by done. rewrite EB. assert (0 <= b / 8192 <= b).
  { split; [apply Z.div_pos; lia|]. apply Z.div_le_upper_bound; lia. }
  lia.
Qed.

Lemma mod_BPB b : 0 <= b mod BPB < BPB.
Proof. by apply Z.mod_pos_bound. Qed.

(** After marking block [r]. *)
Definition marked (V : Z -> block) (sb : superblock) (r : Z) : Z -> block :=
  fn_upd V (BBLOCK r sb) (set_bmap_byte (V (BBLOCK r sb)) (r mod BPB)
    (Z.lor (bmap_byte (V (BBLOCK r sb)) (r mod BPB)) (bmap_mask (r mod BPB)))).
Definition unmarked (V : Z -> block) (sb : superblock) (r : Z) : Z -> block :=
  fn_upd V (BBLOCK r sb) (set_bmap_byte (V (BBLOCK r sb)) (r mod BPB)
    (Z.land (bmap_byte (V (BBLOCK r sb)) (r mod BPB)) (Z.lnot (bmap_mask (r mod BPB))))).

Lemma same_bit sb V start b b' :
  bitmap_ok V sb start -> 0 <= b < sb_size sb -> 0 <= b' < sb_size sb ->
  BBLOCK b sb = BBLOCK b' sb -> b mod BPB = b' mod BPB -> b = b'.
Proof.
  intros B Hb Hb' E E'. rewrite !(BBLOCK_eq sb V start) in E by done.
  rewrite (Z.div_mod b BPB), (Z.div_mod b' BPB) by done. assert (b / BPB = b' / BPB) by lia. congruence.
Qed.

Lemma marked_free V sb start r b :
  bitmap_ok V sb start -> 0 <= r < sb_size sb -> 0 <= b < sb_size sb ->
  b_free (marked V sb r) sb b = if decide (b = r) then false else b_free V sb b.
Proof.
  intros B Hr Hb. unfold b_free, marked, fn_upd. destruct (decide (BBLOCK b sb = BBLOCK r sb)) as [E|N].
  - rewrite bit_clear_mark by (apply mod_BPB || by apply (bo_len _ _ _ B)).
    destruct (decide (r mod BPB = b mod BPB)) as [Em|Nm].
    + rewrite decide_True; [done|]. by apply (same_bit sb V start).
    + rewrite decide_False by congruence. by rewrite E.
  - rewrite decide_False by congruence. done.
Qed.

Lemma unmarked_free V sb start r b :
  bitmap_ok V sb start -> 0 <= r < sb_size sb -> 0 <= b < sb_size sb ->
  b_free (unmarked V sb r) sb b = if decide (b = r) then true else b_free V sb b.
Proof.
  intros B Hr Hb. unfold b_free, unmarked, fn_upd. destruct (decide (BBLOCK b sb = BBLOCK r sb)) as [E|N].
  - rewrite bit_clear_free by (apply mod_BPB || by apply (bo_len _ _ _ B)).
    destruct (decide (r mod BPB = b mod BPB)) as [Em|Nm].
    + rewrite decide_True; [done|]. by apply (same_bit sb V start).
    + rewrite decide_False by congruence. by rewrite E.
  - rewrite decide_False by congruence. done.
Qed.

(** After balloc has taken block [r]. *)
Definition allocated (V : Z -> block) (sb : superblock) (r : Z) : Z -> block := fn_upd (marked V sb r) r zero_block.

(** The bitmap stays well formed when a block is taken. *)
Lemma marked_ok V sb start r :
  bitmap_ok V sb start -> 0 <= r < sb_size sb -> b_free V sb r = true ->
  bitmap_ok (allocated V sb r) sb start /\
  forall b, 0 <= b < sb_size sb -> b_free (allocated V sb r) sb b = if decide (b = r) then false else b_free V sb b.
Proof.
  intros B Hr Hf. destruct (bo_free _ _ _ B r Hr Hf) as (_ & _ & Hnb).
  assert (forall b, 0 <= b < sb_size sb -> allocated V sb r (BBLOCK b sb) = marked V sb r (BBLOCK b sb)) as E.
  { intros b Hb. unfold allocated, fn_upd at 1. rewrite decide_False; [done|]. intros Eb. by apply (Hnb b Hb). }
  assert (forall b, 0 <= b < sb_size sb -> b_free (allocated V sb r) sb b = if decide (b = r) then false else b_free V sb b) as Ef.
  { intros b Hb. rewrite <- (marked_free _ _ start) by done. unfold b_free. by rewrite E. }
  split; [|done]. destruct B as [B1 B2 B3 B4 B5]. constructor; [done|done|done| |].
  - intros b Hb. rewrite E by done. unfold marked, fn_upd. destruct (decide _); [|by apply B4].
    rewrite set_bmap_byte_length. by apply B4.
  - intros b Hb. rewrite Ef by done. destruct (decide (b = r)); [done|]. by apply B5.
Qed.

(** ... and when a data block is given back. *)
Lemma unmarked_ok V sb start r :
  bitmap_ok V sb start -> 0 <= r < sb_size sb -> r <> 0 -> home_block start r -> (forall c, 0 <= c < sb_size sb -> r <> BBLOCK c sb) ->
  bitmap_ok (unmarked V sb r) sb start.
Proof.
  intros B Hr Nz Hh Hn. pose proof (fun b Hb => unmarked_free V sb start r b B Hr Hb) as Ef. destruct B as [B1 B2 B3 B4 B5].
  constructor; [done|done|done| |].
  - intros b Hb. unfold unmarked, fn_upd. destruct (decide _); [|by apply B4]. rewrite set_bmap_byte_length. by apply B4.
  - intros b Hb. rewrite Ef by done. destruct (decide (b = r)) as [->|]; [done|]. by apply B5.
Qed.

Lemma bitmap_ok_ext V V' sb start : (forall b, 0 <= b < sb_size sb -> V' (BBLOCK b sb) = V (BBLOCK b sb)) ->
  bitmap_ok V sb start -> bitmap_ok V' sb start.
Proof.
  intros HV [B1 B2 B3 B4 B5]. constructor; try done.
  - intros b Hb. rewrite HV by done. by apply B4.
  - intros b Hb. unfold b_free. rewrite HV by done. by apply B5.
Qed.

(** The result of balloc. *)
Definition balloc_post (E : txenv) (G : list Z) (L : list (Z * Z)) (V : Z -> block) (sb : superblock) (r : Z) (l' : lstate) : Prop :=
  if decide (r = 0) then (forall b, 0 <= b < sb_size sb -> b_free V sb b = false) /\ tx l' E G L [] V
  else 0 < r < sb_size sb /\ b_free V sb r = true /\ tx l' E (r :: BBLOCK r sb :: G) L [] (allocated V sb r).

Lemma filter_self (b : Z) : filter (.≠ b) [b] = [].
Proof. rewrite filter_cons_False by (intros N; by apply N). done. Qed.

Section balloc.
Context {U : Type} (sb : superblock) (it : list inode) (u : U) (E : txenv) (L : list (Z * Z)).
Context (Ho : 1 <= te_out E).
Abbreviation st l := (FState l sb it u).

(** Change, log and release the buffer read last. *)
Lemma finish_update l G V b blk f {A} (k : M (fstate U) A) (Q : A -> fstate U -> Prop) :
  tx l E G ((b, blk) :: L) [] V -> Z.of_nat (length G) < LOGBLOCKS ->
  (forall l', tx l' E (blk :: G) L [] (fn_upd V blk (f (V blk))) -> wp k Q (st l')) ->
  wp (bcf (bdata_set b f);; lg (log_write b);; bcf (brelse b);; k) Q (st l).
Proof using Ho.
  intros T HG HQ. wp_step. apply (s_bdata_set l sb it u _ _ _ _ _ T b blk); [left|]. intros l1 T1.
  wp_step. apply (s_log_write l1 sb it u _ _ _ _ _ T1 b blk); [left|done|done|]. intros l2 T2. rewrite filter_self in T2.
  wp_step. apply (s_brelse l2 sb it u _ _ _ _ _ T2 b blk L); [done|apply not_elem_of_nil|]. intros l3 T3. by apply HQ.
Qed.

Lemma bzero_wp l G V blk (Q : unit -> fstate U -> Prop) :
  tx l E G L [] V -> (blk ∉ L.*2) -> home_block (te_start E) blk -> Z.of_nat (length G) + Z.of_nat (length L) < NBUF ->
  (forall l', tx l' E (blk :: G) L [] (fn_upd V blk zero_block) -> Q () (st l')) ->
  wp (bzero ROOTDEV blk) Q (st l).
Proof using Ho.
  intros T Hn Hh HG HQ. unfold bzero. wp_step. apply (s_bread l sb it u _ _ _ _ _ T blk); [done|done|done|]. intros b l1 T1.
  apply wp_last, (finish_update l1 G V b blk); [done|assert (NBUF = LOGBLOCKS) as EN by done; lia|]. intros l2 T2. wp_step. by apply HQ.
Qed.

Lemma balloc_loop_wp fuel : forall b l G V,
  tx l E G L [] V -> Z.of_nat (length G) + Z.of_nat (length L) + 1 < NBUF -> bitmap_ok V sb (te_start E) ->
  (forall c, 0 <= c < sb_size sb -> BBLOCK c sb ∉ L.*2) -> (forall c, 0 <= c < sb_size sb -> b_free V sb c = true -> c ∉ L.*2) ->
  0 <= b -> b mod BPB = 0 -> sb_size sb <= b + BPB * Z.of_nat fuel ->
  (forall c, 0 <= c < b -> c < sb_size sb -> b_free V sb c = false) ->
  wp (balloc_loop fuel b ROOTDEV) (fun r s' => exists l', s' = st l' /\ balloc_post E G L V sb r l') (st l).
Proof using Ho.
  induction fuel as [|fuel IH]; intros b l G V T Hn B HLB HLF Hb Hm Hf Hfree; cbn [balloc_loop]; wp_steps; cbn [f_sb];
    destruct (Z.ltb_spec b (sb_size sb)) as [Hlt|Hge]; cbn [negb].
  1: lia.
  1, 3: wp_step; exists l; unfold balloc_post; rewrite decide_True by done; (split; [done|split; [|done]]); intros c Hc; apply Hfree; lia.
  assert (NBUF = LOGBLOCKS) as EN by done. assert (BPB = 8192) as EB by done.
  assert (forall j, 0 <= j < BPB -> b + j < sb_size sb ->
    b_free V sb (b + j) = bit_clear (V (BBLOCK b sb)) j /\ BBLOCK (b + j) sb = BBLOCK b sb /\ (b + j) mod BPB = j) as Hbit.
  { intros j Hj Hs. assert ((b + j) / BPB = b / BPB /\ (b + j) mod BPB = j) as [Ed Em].
    { rewrite (Z.div_mod b BPB) at 1 3 by done. rewrite Hm, Z.add_0_r, (Z.mul_comm BPB). split.
      - rewrite Z.div_add_l, (Z.div_small j) by lia. lia.
      - rewrite Z.add_comm, Z_mod_plus_full. by apply Z.mod_small. }
    assert (BBLOCK (b + j) sb = BBLOCK b sb) as EBB by (unfold BBLOCK; by rewrite Ed).
    split_and!; [|done|done]. unfold b_free. by rewrite EBB, Em. }
  wp_step. apply (s_bread l sb it u _ _ _ _ _ T (BBLOCK b sb)); [apply HLB; lia|apply (bo_home _ _ _ B b); lia|lia|]. intros bp l1 T1.
  wp_step. apply (s_bdata l1 sb it u _ _ _ _ _ T1 bp (BBLOCK b sb)); [left|].
  pose proof (free_bit_spec (Z.to_nat BPB) 0 b (sb_size sb) (V (BBLOCK b sb))) as Hfb.
  rewrite Z2Nat.id, Z.add_0_l in Hfb by done. destruct (free_bit _ _ _ _ _) as [bi|].
  - destruct Hfb as (Hbi & Hsz & Hclr & _). destruct (Hbit bi Hbi Hsz) as (Ef & EBB & Em).
    apply (finish_update l1 G V bp (BBLOCK b sb)); [done|lia|]. intros l2 T2.
    rewrite Hclr in Ef. destruct (bo_free _ _ _ B (b + bi) ltac:(lia) Ef) as (Nz & Hhome & _).
    wp_step. apply (bzero_wp l2 (BBLOCK b sb :: G) _ (b + bi) _ T2); [apply HLF; [lia|done]|done|cbn [length]; lia|].
    intros l3 T3. wp_step. exists l3. split; [done|]. unfold balloc_post. rewrite decide_False by lia. rewrite EBB.
    split_and!; [lia|lia|done|]. eapply tx_ext; [exact T3|]. intros x. unfold allocated, marked. by rewrite EBB, Em.
  - wp_step. apply (s_brelse l1 sb it u _ _ _ _ _ T1 bp (BBLOCK b sb) L); [done|apply not_elem_of_nil|]. intros l2 T2.
    apply (IH (b + BPB) l2 G V); try done.
    + lia.
    + by rewrite <- Z.add_mod_idemp_r, Z.mod_same, Z.add_0_r by done.
    + lia.
    + intros c Hc Hs. destruct (decide (c < b)); [apply Hfree; lia|].
      destruct (Hbit (c - b) ltac:(lia) ltac:(lia)) as (Ef & _). replace (b + (c - b)) with c in Ef by lia. rewrite Ef. apply Hfb; lia.
Qed.

Lemma balloc_wp l G V :
  tx l E G L [] V -> Z.of_nat (length G) + Z.of_nat (length L) + 1 < NBUF -> bitmap_ok V sb (te_start E) ->
  (forall c, 0 <= c < sb_size sb -> BBLOCK c sb ∉ L.*2) -> (forall c, 0 <= c < sb_size sb -> b_free V sb c = true -> c ∉ L.*2) ->
  wp (balloc ROOTDEV) (fun r s' => exists l', s' = st l' /\ balloc_post E G L V sb r l') (st l).
Proof using Ho.
  intros T Hn B HLB HLF. unfold balloc. wp_steps. cbn [f_sb]. apply balloc_loop_wp; try done.
  - pose proof (bo_size _ _ _ B). pose proof (Z.div_mod (sb_size sb) BPB ltac:(done)).
    pose proof (mod_BPB (sb_size sb)). assert (0 <= sb_size sb / BPB) by (apply Z.div_pos; [lia|done]). assert (BPB = 8192) as EB by done. rewrite EB in *. lia.
  - intros c Hc. lia.
Qed.

(** bfree clears the bit of a block that is in use. *)
Lemma bfree_wp l G V b :
  tx l E G L [] V -> Z.of_nat (length G) + Z.of_nat (length L) < NBUF -> bitmap_ok V sb (te_start E) ->
  (BBLOCK b sb ∉ L.*2) -> 0 <= b < sb_size sb -> b_free V sb b = false ->
  wp (bfree ROOTDEV b) (fun _ s' => exists l', s' = st l' /\ tx l' E (BBLOCK b sb :: G) L [] (unmarked V sb b)) (st l).
Proof using Ho.
  intros T Hn B HLB Hb Hf. unfold bfree. wp_step. wp_step. cbn [f_sb]. assert (NBUF = LOGBLOCKS) as EN by done.
  wp_step. apply (s_bread l sb it u _ _ _ _ _ T (BBLOCK b sb)); [done|by apply (bo_home _ _ _ B b)|lia|]. intros bp l1 T1.
  wp_step. apply (s_bdata l1 sb it u _ _ _ _ _ T1 bp (BBLOCK b sb)); [left|]. unfold b_free in Hf. rewrite Hf.
  apply wp_last, (finish_update l1 G V bp (BBLOCK b sb)); [done|lia|]. intros l2 T2. wp_step. by exists l2.
Qed.

(** It panics on a block that is free. *)
Lemma bfree_free l G V b :
  tx l E G L [] V -> Z.of_nat (length G) + Z.of_nat (length L) < NBUF -> home_block (te_start E) (BBLOCK b sb) -> (BBLOCK b sb ∉ L.*2) ->
  b_free V sb b = true -> bfree ROOTDEV b (st l) = Panic "freeing free block".
Proof using Type.
  intros T Hn Hh HLB Hf. assert (wp (bp ← bcf (bread ROOTDEV (BBLOCK b sb)); d ← bcf (bdata bp); mret d) (fun d _ => d = V (BBLOCK b sb)) (st l)) as Hd.
  { wp_step. apply (s_bread l sb it u _ _ _ _ _ T (BBLOCK b sb)); [done|done|done|]. intros bp l1 T1.
    wp_step. by apply (s_bdata l1 sb it u _ _ _ _ _ T1 bp (BBLOCK b sb)); [left|]. }
  unfold bfree. unfold wp, mbind, M_bind, gets, mret, M_ret in Hd |- *. cbn [f_sb].
  destruct (bcf (bread ROOTDEV (BBLOCK b sb)) _) as [bp s3| |]; [|done|done].
  destruct (bcf (bdata bp) s3) as [d s4| |]; [|done|done]. subst d. unfold b_free in Hf. by rewrite Hf.
Qed.
End balloc.
