(* ===== verification/FsFile.v ===== *)
(** * Files as sequences of bytes: the representation

    The block pointers of an inode (12 direct ones, the indirect block, the
    256 in it) as 269 slots, the invariant of an inode with the contents of
    its blocks, and the bytes that it represents. *)
From stdpp Require Import base tactics numbers list strings gmap.
From Stdlib Require Import ZArith Lia.
From S2P Require Import Prelude Block Bio BioSpec BioCache Log LogSpec LogCrash LogInv UserMem Fs FsSpec.

Open Scope Z_scope.

Record inode_ok (i : inode) : Prop := {
  io_inum : 0 <= i_inum i;
  io_type : - 2 ^ 15 <= i_type i < 2 ^ 15;
  io_major : - 2 ^ 15 <= i_major i < 2 ^ 15;
  io_minor : - 2 ^ 15 <= i_minor i < 2 ^ 15;
  io_nlink : - 2 ^ 15 <= i_nlink i < 2 ^ 15;
  io_size : 0 <= i_size i < 2 ^ 32;
  io_addrs : length (i_addrs i) = Z.to_nat (NDIRECT + 1) /\ Forall (fun x => 0 <= x < 2 ^ 32) (i_addrs i)
}.

Lemma s16_w16 x : - 2 ^ 15 <= x < 2 ^ 15 -> s16 (w16 (w16 x)) = x.
Proof.
  intros Hx. unfold s16, w16. rewrite Z.mod_mod, Z.add_mod_idemp_l by lia. rewrite Z.mod_small by lia. lia.
Qed.

Lemma dinode_off_range inum : 0 <= inum -> 0 <= dinode_off inum /\ dinode_off inum + 64 <= 1024.
Proof.
  intros H. unfold dinode_off, DINODE_SIZE. assert (0 <= inum mod IPB < 16) by (by apply Z.mod_pos_bound). lia.
Qed.

Section dinode.
Context (ip : inode) (b : block) (OK : inode_ok ip) (Hb : length b = Z.to_nat BSIZE).
Let o := dinode_off (i_inum ip).

Lemma put_steps :
  let b1 := set_u16 b o (w16 (i_type ip)) in
  let b2 := set_u16 b1 (o + 2) (w16 (i_major ip)) in
  let b3 := set_u16 b2 (o + 4) (w16 (i_minor ip)) in
  let b4 := set_u16 b3 (o + 6) (w16 (i_nlink ip)) in
  let b5 := set_u32 b4 (o + 8) (i_size ip) in
  length b1 = 1024%nat /\ length b2 = 1024%nat /\ length b3 = 1024%nat /\ length b4 = 1024%nat /\ length b5 = 1024%nat /\
  length (put_dinode ip b) = 1024%nat.
Proof.
  destruct (dinode_off_range (i_inum ip) (io_inum _ OK)) as [H0 H1]. fold o in H0, H1.
  assert (length b = 1024%nat) as Hb' by (rewrite Hb; done). intros b1 b2 b3 b4 b5.
  assert (length b1 = 1024%nat) as L1 by (unfold b1; rewrite set_u16_length; lia).
  assert (length b2 = 1024%nat) as L2 by (unfold b2; rewrite set_u16_length; lia).
  assert (length b3 = 1024%nat) as L3 by (unfold b3; rewrite set_u16_length; lia).
  assert (length b4 = 1024%nat) as L4 by (unfold b4; rewrite set_u16_length; lia).
  assert (length b5 = 1024%nat) as L5 by (unfold b5; rewrite set_u32_length; lia).
  split_and!; try done. destruct (io_addrs _ OK) as [La _]. change (Z.to_nat (NDIRECT + 1)) with 13%nat in La.
  unfold put_dinode. fold o. cbv zeta. fold b1 b2 b3 b4 b5. rewrite set_bytes_length; rewrite ?le_array_length, ?La; lia.
Qed.

(** Bytes outside of the dinode's own 64 are untouched. *)
Lemma put_dinode_other off n :
  0 <= off -> 0 <= n -> off + n <= o \/ o + 64 <= off -> get_bytes (put_dinode ip b) off n = get_bytes b off n.
Proof.
  intros Hoff Hn Hd. destruct (dinode_off_range (i_inum ip) (io_inum _ OK)) as [H0 H1]. fold o in H0, H1.
  assert (length b = 1024%nat) as Hb' by (rewrite Hb; done). destruct put_steps as (L1 & L2 & L3 & L4 & L5 & _).
  destruct (io_addrs _ OK) as [La _]. change (Z.to_nat (NDIRECT + 1)) with 13%nat in La.
  unfold put_dinode. fold o. cbv zeta.
  rewrite get_set_bytes_ne; [|lia|rewrite le_array_length, La; lia|lia|lia|rewrite le_array_length, La; lia].
  unfold set_u32 at 1. rewrite get_set_bytes_ne; rewrite ?le_bytes_length; try lia.
  do 4 (unfold set_u16 at 1; rewrite get_set_bytes_ne; rewrite ?le_bytes_length; try lia).
  done.
Qed.

Lemma put_field16 off v b' :
  0 <= off -> off + 2 <= 1024 -> length b' = 1024%nat -> u16_at (set_u16 b' off v) off = w16 v.
Proof. intros H0 H1 L. apply u16_set_eq; lia. Qed.

Lemma put_get_type : d_type (put_dinode ip b) (i_inum ip) = i_type ip /\ d_major (put_dinode ip b) (i_inum ip) = i_major ip /\
  d_minor (put_dinode ip b) (i_inum ip) = i_minor ip /\ d_nlink (put_dinode ip b) (i_inum ip) = i_nlink ip /\
  d_size (put_dinode ip b) (i_inum ip) = i_size ip.
Proof.
  destruct (dinode_off_range (i_inum ip) (io_inum _ OK)) as [H0 H1]. fold o in H0, H1.
  assert (length b = 1024%nat) as Hb' by (rewrite Hb; done). destruct put_steps as (L1 & L2 & L3 & L4 & L5 & _).
  destruct (io_addrs _ OK) as [La _]. change (Z.to_nat (NDIRECT + 1)) with 13%nat in La. cbv zeta in *.
  assert (forall off n, 0 <= off -> 0 <= n -> off + n <= o + 12 -> get_bytes (put_dinode ip b) off n =
    get_bytes (set_u32 (set_u16 (set_u16 (set_u16 (set_u16 b o (w16 (i_type ip))) (o + 2) (w16 (i_major ip)))
      (o + 4) (w16 (i_minor ip))) (o + 6) (w16 (i_nlink ip))) (o + 8) (i_size ip)) off n) as E0.
  { intros off n Hoff Hn Hle. unfold put_dinode. fold o. cbv zeta. apply get_set_bytes_ne; rewrite ?le_array_length, ?La; lia. }
  unfold d_type, d_major, d_minor, d_nlink, d_size. fold o. unfold u16_at at 1 2 3 4, u32_at.
  rewrite !E0 by lia. split_and!.
  - rewrite <- (s16_w16 (i_type ip)) at 2 by apply OK. f_equal.
    unfold set_u32. rewrite get_set_bytes_ne; rewrite ?le_bytes_length; try lia.
    do 3 (unfold set_u16 at 1; rewrite get_set_bytes_ne; rewrite ?le_bytes_length; try lia).
    apply put_field16; lia.
  - rewrite <- (s16_w16 (i_major ip)) at 2 by apply OK. f_equal.
    unfold set_u32. rewrite get_set_bytes_ne; rewrite ?le_bytes_length; try lia.
    do 2 (unfold set_u16 at 1; rewrite get_set_bytes_ne; rewrite ?le_bytes_length; try lia).
    apply put_field16; lia.
  - rewrite <- (s16_w16 (i_minor ip)) at 2 by apply OK. f_equal.
    unfold set_u32. rewrite get_set_bytes_ne; rewrite ?le_bytes_length; try lia.
    unfold set_u16 at 1; rewrite get_set_bytes_ne; rewrite ?le_bytes_length; try lia.
    apply put_field16; lia.
  - rewrite <- (s16_w16 (i_nlink ip)) at 2 by apply OK. f_equal.
    unfold set_u32. rewrite get_set_bytes_ne; rewrite ?le_bytes_length; try lia.
    apply put_field16; lia.
  - rewrite <- (w32_id (i_size ip)) at 2 by apply OK. apply u32_set_eq; lia.
Qed.

Lemma put_get_addr i x : i_addrs ip !! i = Some x -> d_addr (put_dinode ip b) (i_inum ip) (Z.of_nat i) = x.
Proof.
  intros E. destruct (dinode_off_range (i_inum ip) (io_inum _ OK)) as [H0 H1]. fold o in H0, H1.
  destruct put_steps as (_ & _ & _ & _ & L5 & _). destruct (io_addrs _ OK) as [La Ha]. change (Z.to_nat (NDIRECT + 1)) with 13%nat in La.
  pose proof (lookup_lt_Some _ _ _ E). unfold d_addr, put_dinode, u32_at. fold o. cbv zeta in *.
  rewrite get_set_bytes_in; rewrite ?le_array_length, ?La; try lia.
  rewrite (le_array_get _ _ _ E), le_value_bytes. apply (Forall_lookup_1 _ _ _ _ Ha) in E. apply Z.mod_small. lia.
Qed.
End dinode.

(** What iupdate writes, ilock reads back: all fields of an inode,
    signed 16-bit ones included, survive the store into the inode's slot of
    the block and the load from it, and the other fifteen inodes of the block
    are not touched. *)
Theorem dinode_roundtrip (ip : inode) (b : block) :
  inode_ok ip -> length b = Z.to_nat BSIZE ->
  get_dinode (put_dinode ip b) ip = ip /\
  forall n, 0 <= n -> n mod IPB <> i_inum ip mod IPB ->
    get_bytes (put_dinode ip b) (dinode_off n) DINODE_SIZE = get_bytes b (dinode_off n) DINODE_SIZE.
Proof.
  intros OK Hb. split.
  - destruct (put_get_type ip b OK Hb) as (E1 & E2 & E3 & E4 & E5). unfold get_dinode. rewrite E1, E2, E3, E4, E5.
    assert ((fun i => d_addr (put_dinode ip b) (i_inum ip) i) <$> seqZ 0 (NDIRECT + 1) = i_addrs ip) as ->; [|by destruct ip].
    destruct (io_addrs _ OK) as [La _]. apply list_eq. intros i. rewrite list_lookup_fmap.
    destruct (i_addrs ip !! i) as [x|] eqn:E.
    + pose proof (lookup_lt_Some _ _ _ E). rewrite lookup_seqZ_lt by lia. cbn [fmap option_fmap option_map].
      f_equal. by apply (put_get_addr ip b OK Hb).
    + apply lookup_ge_None in E. rewrite lookup_seqZ_ge by lia. done.
  - intros n Hn Hne. apply (put_dinode_other ip b OK Hb).
    + by apply dinode_off_range.
    + done.
    + unfold dinode_off, DINODE_SIZE. lia.
Qed.

Lemma dinode_roundtrip_witness :
  let ip := Inode 1 17 1 true 1 T_FILE 0 0 (-1) 3000 [50; 51; 52; 0; 0; 0; 0; 0; 0; 0; 0; 0; 0] in
  get_dinode (put_dinode ip zero_block) ip = ip.
Proof.
  intros ip. apply (dinode_roundtrip ip zero_block).
  - constructor; unfold ip, T_FILE; cbn; try lia. split; [reflexivity|]. repeat constructor; lia.
  - reflexivity.
Defined.

(** ** The disk *)

(** Blocks outside of the log, the inodes and the bitmap. *)
Record data_area (sb : superblock) (st b : Z) : Prop := {
  da_range : 0 < b < sb_size sb;
  da_home : home_block st b;
  da_bitmap : forall c, 0 <= c < sb_size sb -> b <> BBLOCK c sb;
  da_inode : forall n, 0 <= n < sb_ninodes sb -> b <> IBLOCK n sb
}.

(** A disk with one bitmap block (FSSIZE is 2000 and BPB 8192). *)
Record fs_ok (V : Z -> block) (sb : superblock) (st : Z) : Prop := {
  fo_bitmap : bitmap_ok V sb st;
  fo_one : 0 < sb_size sb <= BPB;
  fo_free : forall b, 0 <= b < sb_size sb -> b_free V sb b = true -> data_area sb st b;
  fo_inum : 0 < sb_inodestart sb /\ sb_inodestart sb + sb_ninodes sb < 2 ^ 32;
  fo_ihome : forall n, 0 <= n < sb_ninodes sb -> home_block st (IBLOCK n sb);
  fo_ilen : forall n, 0 <= n < sb_ninodes sb -> length (V (IBLOCK n sb)) = Z.to_nat BSIZE;
  fo_ibit : forall n c, 0 <= n < sb_ninodes sb -> 0 <= c < sb_size sb -> IBLOCK n sb <> BBLOCK c sb
}.
Definition bitmap_block (sb : superblock) : Z := BBLOCK 0 sb.

Lemma BBLOCK_one V sb st c : fs_ok V sb st -> 0 <= c < sb_size sb -> BBLOCK c sb = bitmap_block sb.
Proof. intros F Hc. pose proof (fo_one _ _ _ F). unfold bitmap_block, BBLOCK. rewrite !Z.div_small by lia. done. Qed.

(** Taking a block, and writing one of the data area. *)
Lemma alloc_fs_ok V sb st r : fs_ok V sb st -> 0 <= r < sb_size sb -> b_free V sb r = true -> fs_ok (allocated V sb r) sb st.
Proof.
  intros F Hr Hf. pose proof (fo_free _ _ _ F r Hr Hf) as D. destruct (marked_ok V sb st r (fo_bitmap _ _ _ F) Hr Hf) as [B Ef].
  destruct F as [F1 F2 F3 F7 F4 F5 F6]. constructor; try done.
  - intros b Hb. rewrite Ef by done. destruct (decide (b = r)); [done|]. by apply F3.
  - intros n Hn. unfold allocated, marked, fn_upd. rewrite decide_False by (intros E; by apply (da_inode _ _ _ D n Hn)).
    rewrite decide_False by (by apply F6). by apply F5.
Qed.

Lemma write_free V sb st b x c : data_area sb st b -> 0 <= c < sb_size sb -> b_free (fn_upd V b x) sb c = b_free V sb c.
Proof. intros D Hc. unfold b_free, fn_upd. rewrite decide_False; [done|]. intros E. by apply (da_bitmap _ _ _ D c Hc). Qed.

Lemma write_fs_ok V sb st b x : fs_ok V sb st -> data_area sb st b -> fs_ok (fn_upd V b x) sb st.
Proof.
  intros F D. pose proof (fun c => write_free V sb st b x c D) as Ef. destruct F as [F1 F2 F3 F7 F4 F5 F6]. constructor; try done.
  - eapply bitmap_ok_ext; [|exact F1]. intros c Hc. unfold fn_upd. rewrite decide_False; [done|]. intros E. by apply (da_bitmap _ _ _ D c Hc).
  - intros c Hc. rewrite Ef by done. by apply F3.
  - intros n Hn. unfold fn_upd. rewrite decide_False by (intros E; by apply (da_inode _ _ _ D n Hn)). by apply F5.
Qed.

(** ** Slots *)

Definition slot (V : Z -> block) (i : inode) (k : Z) : Z :=
  if k <=? NDIRECT then iaddr i k
  else if iaddr i NDIRECT =? 0 then 0 else u32_at (V (iaddr i NDIRECT)) (4 * (k - NDIRECT - 1)).
(** The slot of the file's block [bn], and the byte at [o]. *)
Definition dslot (bn : Z) : Z := if bn <? NDIRECT then bn else bn + 1.
Definition fbyte (V : Z -> block) (i : inode) (o : Z) : Z :=
  let b := slot V i (dslot (o / BSIZE)) in if b =? 0 then 0 else nth (Z.to_nat (o mod BSIZE)) (V b) 0.
Definition fcontent (V : Z -> block) (i : inode) : list Z := fbyte V i <$> seqZ 0 (i_size i).

Definition in_slots (k : Z) : Prop := 0 <= k <= MAXFILE.
Lemma slots_eq k : in_slots k <-> 0 <= k <= 268.
Proof. done. Qed.

Record file_ok (V : Z -> block) (sb : superblock) (st : Z) (i : inode) : Prop := {
  fk_addrs : length (i_addrs i) = 13%nat;
  fk_data : forall k, in_slots k -> slot V i k <> 0 ->
    data_area sb st (slot V i k) /\ b_free V sb (slot V i k) = false /\ length (V (slot V i k)) = Z.to_nat BSIZE;
  fk_inj : forall j k, in_slots j -> in_slots k -> slot V i j <> 0 -> slot V i j = slot V i k -> j = k
}.

(** No hole below the size. *)
Record file_full (V : Z -> block) (i : inode) : Prop := {
  ff_size : 0 <= i_size i <= MAXFILE * BSIZE;
  ff_full : forall bn, 0 <= bn -> bn * BSIZE < i_size i -> slot V i (dslot bn) <> 0
}.

(** How a file grows: [V], [i] become [V'], [i']. *)
Record grown (V : Z -> block) (sb : superblock) (i : inode) (V' : Z -> block) (i' : inode) : Prop := {
  gr_inode : i' = Inode (i_dev i) (i_inum i) (i_ref i) (i_lock i) (i_valid i) (i_type i) (i_major i) (i_minor i) (i_nlink i) (i_size i) (i_addrs i');
  gr_slots : forall k, in_slots k -> slot V i k <> 0 -> slot V' i' k = slot V i k;
  gr_new : forall k, in_slots k -> slot V i k = 0 -> slot V' i' k <> 0 -> 0 < slot V' i' k < sb_size sb /\ b_free V sb (slot V' i' k) = true;
  gr_free : forall b, 0 < b < sb_size sb -> b_free V' sb b = true <-> b_free V sb b = true /\ forall k, in_slots k -> slot V' i' k <> b;
  gr_others : forall b, (0 < b < sb_size sb -> b_free V sb b = false) -> (forall k, in_slots k -> slot V i k <> b) ->
    (forall c, 0 <= c < sb_size sb -> b <> BBLOCK c sb) -> V' b = V b
}.

Lemma dslot_range bn : 0 <= bn < MAXFILE -> in_slots (dslot bn) /\ dslot bn <> NDIRECT.
Proof. intros H. change MAXFILE with 268 in H. unfold in_slots, dslot. change MAXFILE with 268. change NDIRECT with 12. destruct (Z.ltb_spec bn 12); lia. Qed.
Lemma dslot_inj a b : dslot a = dslot b -> a = b.
Proof. unfold dslot. destruct (Z.ltb_spec a NDIRECT), (Z.ltb_spec b NDIRECT); lia. Qed.
Lemma slot_indirect V i : slot V i NDIRECT = iaddr i NDIRECT.
Proof. done. Qed.

Lemma slot_ext V V' i k : (iaddr i NDIRECT <> 0 -> V' (iaddr i NDIRECT) = V (iaddr i NDIRECT)) -> slot V' i k = slot V i k.
Proof. intros H. unfold slot. destruct (k <=? NDIRECT); [done|]. destruct (Z.eqb_spec (iaddr i NDIRECT) 0); [done|]. by rewrite H. Qed.

Lemma grown_refl V sb st i : file_ok V sb st i -> grown V sb i V i.
Proof.
  intros F. constructor; [by destruct i|done|done| |done]. intros b Hb. split; [|by intros []]. intros Hf. split; [done|].
  intros k Hk E. destruct (fk_data _ _ _ _ F k Hk ltac:(lia)) as (_ & Hu & _). rewrite E in Hu. congruence.
Qed.

Lemma grown_used V sb i V' i' b : grown V sb i V' i' -> 0 < b < sb_size sb -> b_free V sb b = false -> b_free V' sb b = false.
Proof. intros H Hb Hu. destruct (b_free V' sb b) eqn:E; [|done]. apply (gr_free _ _ _ _ _ H b Hb) in E as [E _]. congruence. Qed.

Lemma grown_trans V sb i V1 i1 V2 i2 : grown V sb i V1 i1 -> grown V1 sb i1 V2 i2 -> grown V sb i V2 i2.
Proof.
  intros H1 H2. assert (forall k, in_slots k -> slot V1 i1 k <> 0 -> slot V2 i2 k = slot V1 i1 k) as S2 by apply H2. constructor.
  - pose proof (gr_inode _ _ _ _ _ H1) as E1. pose proof (gr_inode _ _ _ _ _ H2) as E2. rewrite E2, E1. done.
  - intros k Hk N. pose proof (gr_slots _ _ _ _ _ H1 k Hk N) as E1. rewrite S2; [done|done|by rewrite E1].
  - intros k Hk E0 N2. destruct (decide (slot V1 i1 k = 0)) as [E1|N1].
    + destruct (gr_new _ _ _ _ _ H2 k Hk E1 N2) as [Hr Hf]. split; [done|]. by apply (gr_free _ _ _ _ _ H1 _ Hr) in Hf as [].
    + rewrite S2 by done. by apply (gr_new _ _ _ _ _ H1).
  - intros b Hb. rewrite (gr_free _ _ _ _ _ H2 b Hb), (gr_free _ _ _ _ _ H1 b Hb). split; [tauto|]. intros [Hf Hs]. split; [|done].
    split; [done|]. intros k Hk E. apply (Hs k Hk). rewrite S2; [done|done|lia].
  - intros b Hu Hs Hc. rewrite <- (gr_others _ _ _ _ _ H1 b Hu Hs Hc). apply (gr_others _ _ _ _ _ H2); [| |done].
    + intros Hb. apply (grown_used _ _ _ _ _ _ H1); [lia|by apply Hu].
    + intros k Hk E. destruct (decide (slot V i k = 0)) as [E0|N0]; [|by apply (Hs k Hk); rewrite <- (gr_slots _ _ _ _ _ H1 k Hk N0)].
      destruct (decide (b = 0)) as [->|N]. { by apply (Hs k Hk). }
      destruct (gr_new _ _ _ _ _ H1 k Hk E0) as [Hr Hf]; [congruence|]. rewrite E in Hr, Hf. rewrite Hu in Hf by lia. done.
Qed.

(** ** One more block *)

Section grow.
Context (V V' : Z -> block) (sb : superblock) (st : Z) (i i' : inode) (k r : Z).
Context (FS : fs_ok V sb st) (F : file_ok V sb st i) (Hk : in_slots k) (Hk0 : slot V i k = 0) (Hr : 0 < r < sb_size sb) (Hf : b_free V sb r = true).
Context (Ef : forall b, 0 <= b < sb_size sb -> b_free V' sb b = if decide (b = r) then false else b_free V sb b).
Context (Es : forall j, in_slots j -> slot V' i' j = if decide (j = k) then r else slot V i j).
Context (EV : forall b, b <> r -> b <> iaddr i' NDIRECT -> (forall c, 0 <= c < sb_size sb -> b <> BBLOCK c sb) -> V' b = V b).
Context (Er : V' r = zero_block) (Hl : iaddr i' NDIRECT <> 0 -> length (V' (iaddr i' NDIRECT)) = Z.to_nat BSIZE).
Context (Ei : i' = Inode (i_dev i) (i_inum i) (i_ref i) (i_lock i) (i_valid i) (i_type i) (i_major i) (i_minor i) (i_nlink i) (i_size i) (i_addrs i')).
Context (La : length (i_addrs i') = 13%nat).

Lemma in_ndirect : in_slots NDIRECT.
Proof. done. Qed.

(** A block of the file is not the new one. *)
Lemma old_slot j : in_slots j -> slot V i j <> 0 -> slot V i j <> r.
Proof using F Hf. intros Hj N E. destruct (fk_data _ _ _ _ F j Hj N) as (_ & Hu & _). congruence. Qed.

Lemma old_content j : in_slots j -> slot V i j <> 0 -> j <> NDIRECT -> V' (slot V i j) = V (slot V i j).
Proof using F Hf Es EV.
  intros Hj N Nd. destruct (fk_data _ _ _ _ F j Hj N) as (D & Hu & _). apply EV; [by apply old_slot| |apply D].
  rewrite <- (slot_indirect V' i'), Es by apply in_ndirect. destruct (decide _) as [E|_]; [by apply old_slot|].
  intros E. apply Nd. by apply (fk_inj _ _ _ _ F).
Qed.

Lemma grow_file_ok : file_ok V' sb st i'.
Proof using All.
  constructor; [done| |].
  - intros j Hj Nj. destruct (decide (j = NDIRECT)) as [->|Nd].
    + rewrite slot_indirect in Nj. rewrite (slot_indirect V' i'). rewrite <- slot_indirect with (V := V') in *. rewrite Es in * by done.
      destruct (decide (NDIRECT = k)) as [E|N].
      * rewrite Ef by lia. rewrite decide_True by done. split_and!; [apply (fo_free _ _ _ FS); [lia|done]|done|]. rewrite Er. done.
      * destruct (fk_data _ _ _ _ F NDIRECT Hj Nj) as (D & Hu & _). split_and!; [done| |by apply Hl].
        rewrite Ef by (pose proof (da_range _ _ _ D); lia). by destruct (decide _).
    + rewrite Es in * by done. destruct (decide (j = k)) as [E|N].
      * rewrite Ef by lia. rewrite decide_True by done. split_and!; [apply (fo_free _ _ _ FS); [lia|done]|done|]. by rewrite Er.
      * destruct (fk_data _ _ _ _ F j Hj Nj) as (D & Hu & Hn). split_and!; [done| |by rewrite old_content].
        rewrite Ef by (pose proof (da_range _ _ _ D); lia). by destruct (decide _).
  - intros a b Ha Hb. rewrite !Es by done. destruct (decide (a = k)) as [->|], (decide (b = k)) as [->|]; [done| | |by apply (fk_inj _ _ _ _ F)].
    + intros _ E. exfalso. apply (old_slot b Hb); [lia|done].
    + intros Na E. exfalso. by apply (old_slot a Ha).
Qed.

Lemma grow_grown : grown V sb i V' i'.
Proof using All.
  constructor; [done| | | |].
  - intros j Hj N. rewrite Es by done. destruct (decide (j = k)) as [->|]; [by destruct N|done].
  - intros j Hj E. rewrite Es by done. destruct (decide (j = k)); [done|]. by rewrite E.
  - intros b Hb. rewrite Ef by lia. destruct (decide (b = r)) as [->|Nb].
    + split; [done|]. intros [_ H]. exfalso. apply (H k Hk). rewrite Es by done. by rewrite decide_True.
    + split; [|by intros []]. intros Hb'. split; [done|]. intros j Hj. rewrite Es by done. destruct (decide (j = k)); [congruence|].
      intros E. destruct (fk_data _ _ _ _ F j Hj ltac:(lia)) as (_ & Hu & _). congruence.
  - intros b Hu Hs Hc. apply EV; [| |done].
    + intros ->. rewrite Hu in Hf by lia. done.
    + rewrite <- (slot_indirect V' i'), Es by apply in_ndirect. destruct (decide _); [|intros ->; by apply (Hs NDIRECT)].
      intros ->. rewrite Hu in Hf by lia. done.
Qed.

Lemma nth_zero n : nth n zero_block 0 = 0.
Proof. rewrite nth_lookup. unfold zero_block. destruct (replicate _ _ !! n) as [x|] eqn:E; [|done]. by apply lookup_replicate_1 in E as [-> _]. Qed.

Lemma grow_bytes o : 0 <= o < MAXFILE * BSIZE -> fbyte V' i' o = fbyte V i o.
Proof using All.
  intros Ho. unfold fbyte. destruct (dslot_range (o / BSIZE)) as [Hd Nd].
  { split; [apply Z.div_pos; [lia|done]|]. apply Z.div_lt_upper_bound; [done|]. lia. }
  rewrite Es by done. destruct (decide (dslot (o / BSIZE) = k)) as [E|N].
  - rewrite E, Hk0, Z.eqb_refl. destruct (Z.eqb_spec r 0); [done|]. rewrite Er. apply nth_zero.
  - destruct (Z.eqb_spec (slot V i (dslot (o / BSIZE))) 0); [done|]. by rewrite old_content.
Qed.
End grow.

(** ** Changes that a file does not notice, and writes to its blocks *)

Lemma file_frame V V' sb st i :
  file_ok V sb st i -> (forall k, in_slots k -> slot V i k <> 0 -> V' (slot V i k) = V (slot V i k)) ->
  (forall k, in_slots k -> slot V i k <> 0 -> 0 < slot V i k < sb_size sb -> b_free V sb (slot V i k) = false -> b_free V' sb (slot V i k) = false) ->
  file_ok V' sb st i /\ (forall k, slot V' i k = slot V i k) /\ (forall o, 0 <= o < MAXFILE * BSIZE -> fbyte V' i o = fbyte V i o).
Proof.
  intros F HV Hb. assert (forall k, slot V' i k = slot V i k) as Es by (intros k; apply slot_ext; intros N; by apply (HV NDIRECT)).
  split_and!; [|done|].
  - constructor; [apply F| |intros j k; rewrite !Es; apply F]. intros k Hk. rewrite Es. intros N.
    destruct (fk_data _ _ _ _ F k Hk N) as (D & Hu & Hl). split_and!; [done| |by rewrite HV]. apply Hb; [done|done|apply D|done].
  - intros o Ho. unfold fbyte. rewrite Es. destruct (dslot_range (o / BSIZE)) as [Hd _].
    { split; [apply Z.div_pos; [lia|done]|]. apply Z.div_lt_upper_bound; [done|]. lia. }
    destruct (Z.eqb_spec (slot V i (dslot (o / BSIZE))) 0); [done|]. by rewrite HV.
Qed.

Section write.
Context (V : Z -> block) (sb : superblock) (st : Z) (i : inode) (bn : Z) (x : block).
Context (F : file_ok V sb st i) (Hbn : 0 <= bn < MAXFILE) (N0 : slot V i (dslot bn) <> 0) (Hx : length x = Z.to_nat BSIZE).
Let b := slot V i (dslot bn).
Let V' := fn_upd V b x.

Lemma write_data : data_area sb st b.
Proof using F Hbn N0 Hx. apply (fk_data _ _ _ _ F); [by apply dslot_range|done]. Qed.

Lemma write_slot k : slot V' i k = slot V i k.
Proof using F Hbn N0 Hx.
  apply slot_ext. intros N. unfold V', fn_upd. rewrite decide_False; [done|]. intros E. destruct (dslot_range bn Hbn) as [Hd Nd]. apply Nd.
  by apply (fk_inj _ _ _ _ F).
Qed.

Lemma write_file_ok : file_ok V' sb st i.
Proof using F Hbn N0 Hx.
  constructor; [apply F| |intros j k; rewrite !write_slot; apply F]. intros k Hk. rewrite write_slot. intros N.
  destruct (fk_data _ _ _ _ F k Hk N) as (D & Hu & Hl). split_and!; [done| |].
  - unfold V'. rewrite (write_free _ _ st) by (apply write_data || (pose proof (da_range _ _ _ D); lia)). done.
  - unfold V', fn_upd. by destruct (decide _).
Qed.

Lemma write_grown : grown V sb i V' i.
Proof using F Hbn N0 Hx.
  constructor; [by destruct i|intros; apply write_slot| | |].
  - intros k Hk E. rewrite write_slot. done.
  - intros c Hc. unfold V'. rewrite (write_free _ _ st) by (apply write_data || lia). split; [|by intros []]. intros Hfr. split; [done|].
    intros k Hk. fold V'. rewrite write_slot. intros E. destruct (fk_data _ _ _ _ F k Hk ltac:(lia)) as (_ & Hu & _). congruence.
  - intros c Hu Hs Hc. unfold V', fn_upd. rewrite decide_False; [done|]. intros ->. apply (Hs (dslot bn)); [by apply dslot_range|done].
Qed.

Lemma write_byte o : 0 <= o < MAXFILE * BSIZE ->
  fbyte V' i o = if decide (o / BSIZE = bn) then nth (Z.to_nat (o mod BSIZE)) x 0 else fbyte V i o.
Proof using F Hbn N0 Hx.
  intros Ho. unfold fbyte. rewrite write_slot. destruct (decide (o / BSIZE = bn)) as [->|N].
  - fold b. destruct (Z.eqb_spec b 0); [done|]. unfold V', fn_upd. by rewrite decide_True.
  - destruct (Z.eqb_spec (slot V i (dslot (o / BSIZE))) 0); [done|]. unfold V', fn_upd. rewrite decide_False; [done|].
    intros E. apply N, dslot_inj. apply (fk_inj _ _ _ _ F); [|by apply dslot_range|done|done]. apply dslot_range.
    split; [apply Z.div_pos; [lia|done]|]. apply Z.div_lt_upper_bound; [done|]. lia.
Qed.
End write.
