(* ===== verification/FsRw.v ===== *)
(** * bmap and readi (fs.c)

    The block of a file at an index, allocated if there is none yet, with how
    the file grows and which blocks enter the transaction; reading a file as a
    sequence of bytes. *)
From stdpp Require Import base tactics numbers list strings gmap.
From Stdlib Require Import ZArith Lia.
From S2P Require Import Prelude Block Bio BioSpec BioCache Log LogSpec LogCrash LogInv UserMem Fs FsSpec FsFile.

Open Scope Z_scope.

(** ** Inodes in memory *)

Lemma geti_at {U} (l : lstate) (sb : superblock) (it : list inode) (u : U) ip i : it !! Z.to_nat ip = Some i -> geti (FState l sb it u) ip = i.
Proof. intros H. unfold geti. cbn [f_inode]. rewrite nth_lookup, H. done. Qed.

Lemma set_iaddr_slots V V' i k r : length (i_addrs i) = 13%nat -> 0 <= k <= NDIRECT -> iaddr i k = 0 ->
  (k <> NDIRECT -> iaddr i NDIRECT <> 0 -> V' (iaddr i NDIRECT) = V (iaddr i NDIRECT)) -> (k = NDIRECT -> V' r = zero_block) ->
  forall j, in_slots j -> slot V' (set_iaddr k r i) j = if decide (j = k) then r else slot V i j.
Proof.
  intros Hl Hk Hk0 HV Hr j Hj. change NDIRECT with 12 in Hk.
  assert (forall j, 0 <= j <= 12 -> iaddr (set_iaddr k r i) j = if decide (j = k) then r else iaddr i j) as Ea.
  { intros x Hx. unfold iaddr, set_iaddr. cbn [i_addrs]. rewrite !nth_lookup, lookup_insert_Z by (rewrite ?Hl; lia).
    destruct (decide (x = k)) as [->|]; [by rewrite decide_True|by rewrite decide_False]. }
  unfold slot. change NDIRECT with 12 in *. destruct (Z.leb_spec j 12) as [Hle|Hgt]; [apply Ea; unfold in_slots in Hj; lia|].
  rewrite (Ea 12) by lia. rewrite (decide_False (P := j = k)) by lia. destruct (decide (12 = k)) as [E|N].
  - subst k. rewrite Hk0, Z.eqb_refl. destruct (r =? 0); [done|]. rewrite Hr by done. unfold u32_at, get_bytes, zero_block.
    rewrite drop_replicate, take_replicate. generalize (Z.to_nat 4 `min` (Z.to_nat BSIZE - Z.to_nat (4 * (j - 12 - 1))))%nat as n.
    induction n as [|n IH]; [done|]. cbn. rewrite IH. done.
  - destruct (Z.eqb_spec (iaddr i 12) 0); [done|]. rewrite HV; [done|lia|done].
Qed.

(** ** The specification *)

(** A block number other than 0. *)
Definition used (b : Z) : list Z := if b =? 0 then [] else [b].
Lemma used_nz b : b <> 0 -> used b = [b].
Proof. intros H. unfold used. by destruct (Z.eqb_spec b 0). Qed.

(** The file [i] with contents [V] has grown to [i'] with [V']; slot [k] is
    [r], and if that is 0 no block is free. *)
Record grow_post (E : txenv) (sb : superblock) (G : list Z) (V : Z -> block) (i : inode) (k r : Z) (l' : lstate) (i' : inode) (V' : Z -> block) : Prop := {
  gp_tx : tx l' E G [] [] V';
  gp_fs : fs_ok V' sb (te_start E);
  gp_file : file_ok V' sb (te_start E) i';
  gp_grown : grown V sb i V' i';
  gp_bytes : forall o, 0 <= o < MAXFILE * BSIZE -> fbyte V' i' o = fbyte V i o;
  gp_slot : r = slot V' i' k;
  gp_none : r = 0 -> forall b, 0 <= b < sb_size sb -> b_free V' sb b = false
}.

Section bmap.
Context {U : Type} (sb : superblock) (u : U) (E : txenv) (ip : Z) (Ho : 1 <= te_out E).
Abbreviation st l it := (FState l sb it u).
Abbreviation start := (te_start E).

Lemma insert_same (it : list inode) (i : inode) : it !! Z.to_nat ip = Some i -> <[Z.to_nat ip := i]> it = it.
Proof. apply list_insert_id. Qed.

Lemma bitmap_in V G r : fs_ok V sb start -> 0 <= r < sb_size sb -> bitmap_block sb ∈ G -> (r :: BBLOCK r sb :: G) ⊆ (r :: G).
Proof. intros F Hr Hb x Hx. rewrite (BBLOCK_one V sb start r F Hr) in Hx. set_solver. Qed.

(** The address in the inode itself, allocated if it is 0. *)
Lemma addr_wp l it G V i k :
  tx l E G [] [] V -> fs_ok V sb start -> file_ok V sb start i -> it !! Z.to_nat ip = Some i -> i_dev i = ROOTDEV -> 0 <= k <= NDIRECT ->
  bitmap_block sb ∈ G -> Z.of_nat (length G) + 1 < NBUF ->
  wp (let addr := iaddr i k in
      if addr =? 0 then (addr ← balloc (i_dev i); if addr =? 0 then mret 0 else updi ip (set_iaddr k addr);; mret addr) else mret addr)
    (fun r s' => exists l' i' V', s' = st l' (<[Z.to_nat ip := i']> it) /\ grow_post E sb (used (slot V' i' k) ++ G) V i k r l' i' V') (st l it).
Proof using Ho.
  intros T FS F Hi Hd Hk HB HG. cbv zeta. assert (slot V i k = iaddr i k) as Esk by (unfold slot; by destruct (Z.leb_spec k NDIRECT); [|lia]).
  assert (in_slots k) as Hks by (unfold in_slots; change NDIRECT with 12 in Hk; change MAXFILE with 268; lia).
  assert (forall l', tx l' E G [] [] V -> (iaddr i k = 0 -> forall b, 0 <= b < sb_size sb -> b_free V sb b = false) ->
    exists l'' i' V', st l' it = st l'' (<[Z.to_nat ip := i']> it) /\ grow_post E sb (used (slot V' i' k) ++ G) V i k (iaddr i k) l'' i' V') as Hsame.
  { intros l' T' Hn. exists l', i, V. rewrite insert_same by done. split; [done|]. constructor; try done.
    - eapply tx_mono; [exact T'|set_solver]. - by eapply grown_refl. }
  destruct (Z.eqb_spec (iaddr i k) 0) as [E0|N0]; [|wp_step; by apply Hsame].
  wp_step. rewrite Hd. eapply wp_mono; [apply (balloc_wp sb it u E [] Ho l G V T); [cbn [length]; lia|apply FS|intros; apply not_elem_of_nil|intros; apply not_elem_of_nil]|].
  intros r s1 (l1 & -> & HP). unfold balloc_post in HP. destruct (Z.eqb_spec r 0) as [->|Nr].
  { rewrite decide_True in HP by done. destruct HP as [Hn T1]. wp_step. rewrite E0 in Hsame. by apply Hsame. }
  rewrite decide_False in HP by done. destruct HP as (Hr & Hf & T1). wp_step. unfold updi. wp_step. rewrite (geti_at _ _ _ _ ip i) by done. wp_step.
  exists l1, (set_iaddr k r i), (allocated V sb r). split; [done|].
  destruct (marked_ok V sb start r (fo_bitmap _ _ _ FS) ltac:(lia) Hf) as [_ Ef].
  assert (forall b, b <> r -> (forall c, 0 <= c < sb_size sb -> b <> BBLOCK c sb) -> allocated V sb r b = V b) as EV.
  { intros b Nb Hc. unfold allocated, marked, fn_upd. rewrite !decide_False; [done|by apply Hc; lia|done]. }
  assert (allocated V sb r r = zero_block) as Er by (unfold allocated, fn_upd; by rewrite decide_True).
  assert (forall j, in_slots j -> slot (allocated V sb r) (set_iaddr k r i) j = if decide (j = k) then r else slot V i j) as Es.
  { apply set_iaddr_slots; [apply F|done|done| |done]. intros Nk Nd. destruct (fk_data _ _ _ _ F NDIRECT) as (D & Hu & _); [done|done|].
    rewrite slot_indirect in *. apply EV; [congruence|apply D]. }
  assert (iaddr (set_iaddr k r i) NDIRECT <> 0 -> length (allocated V sb r (iaddr (set_iaddr k r i) NDIRECT)) = Z.to_nat BSIZE) as Hl.
  { rewrite <- (slot_indirect (allocated V sb r)), Es by done. destruct (decide (NDIRECT = k)); [by rewrite Er|]. intros Nd.
    destruct (fk_data _ _ _ _ F NDIRECT ltac:(done) Nd) as (D & Hu & Hlen). rewrite EV; [done|congruence|apply D]. }
  assert (length (i_addrs (set_iaddr k r i)) = 13%nat) as La by (cbn; rewrite length_insert; apply F).
  rewrite <- Esk in E0. assert (forall b, b <> r -> b <> iaddr (set_iaddr k r i) NDIRECT -> (forall c, 0 <= c < sb_size sb -> b <> BBLOCK c sb) -> allocated V sb r b = V b) as EV' by auto.
  constructor.
  - eapply tx_mono; [exact T1|]. rewrite (Es k), decide_True, used_nz by done. apply (bitmap_in V); [done|lia|done].
  - apply alloc_fs_ok; [done|lia|done].
  - by apply (grow_file_ok V _ sb start i _ k r).
  - by apply (grow_grown V _ sb start i _ k r).
  - intros o Hoo. by apply (grow_bytes V _ sb start i _ k r).
  - rewrite (Es k) by done. by rewrite decide_True.
  - done.
Qed.

(** Writing an entry of the indirect block. *)
Lemma indirect_slots V V' i k r : iaddr i NDIRECT <> 0 -> NDIRECT < k -> in_slots k -> length (V (iaddr i NDIRECT)) = Z.to_nat BSIZE -> 0 <= r < 2 ^ 32 ->
  V' (iaddr i NDIRECT) = set_u32 (V (iaddr i NDIRECT)) (4 * (k - NDIRECT - 1)) r ->
  forall j, in_slots j -> slot V' i j = if decide (j = k) then r else slot V i j.
Proof using Type.
  intros N0 Hk Hks Hl Hr EV j Hj. unfold slot. unfold in_slots in *. change MAXFILE with 268 in *. change NDIRECT with 12 in *. change (Z.to_nat BSIZE) with 1024%nat in Hl.
  destruct (Z.leb_spec j 12); [by rewrite decide_False by lia|]. destruct (Z.eqb_spec (iaddr i 12) 0); [done|]. rewrite EV.
  destruct (decide (j = k)) as [->|N].
  - rewrite u32_set_eq by lia. by apply w32_id.
  - apply u32_set_ne; lia.
Qed.

(** The entry of the indirect block, allocated if it is 0. *)
Lemma indirect_wp l it G V i bn :
  tx l E G [] [] V -> fs_ok V sb start -> file_ok V sb start i -> iaddr i NDIRECT <> 0 -> 0 <= bn < NINDIRECT ->
  bitmap_block sb ∈ G -> iaddr i NDIRECT ∈ G -> Z.of_nat (length G) + 2 < NBUF ->
  wp (bp ← bcf (bread ROOTDEV (iaddr i NDIRECT));
      d ← bcf (bdata bp);
      let addr := u32_at d (4 * bn) in
      addr ← (if addr =? 0 then
                addr ← balloc ROOTDEV;
                (when negb (addr =? 0) do (bcf (bdata_set bp (fun d => set_u32 d (4 * bn) addr));; lg (log_write bp)));;
                mret addr
              else mret addr);
      bcf (brelse bp);;
      mret addr)
    (fun r s' => exists l' V', s' = st l' it /\ grow_post E sb (used (slot V' i (bn + NDIRECT + 1)) ++ G) V i (bn + NDIRECT + 1) r l' i V') (st l it).
Proof using Ho.
  intros T FS F N0 Hbn HB HI HG. set (x := iaddr i NDIRECT) in *. set (k := bn + NDIRECT + 1).
  destruct (fk_data _ _ _ _ F NDIRECT) as (D & Hu & Hlen); [done|done|]. rewrite slot_indirect in D, Hu, Hlen. fold x in D, Hu, Hlen.
  change NINDIRECT with 256 in Hbn. assert (in_slots k /\ NDIRECT < k) as [Hk Hgt] by (unfold k, in_slots; change NDIRECT with 12; change MAXFILE with 268; lia).
  assert (4 * (k - NDIRECT - 1) = 4 * bn) as Eoff by (unfold k; lia).
  assert (slot V i k = u32_at (V x) (4 * bn)) as Esk.
  { unfold slot. destruct (Z.leb_spec k NDIRECT); [lia|]. fold x. destruct (Z.eqb_spec x 0); [done|]. by rewrite Eoff. }
  assert (NBUF = LOGBLOCKS) as EN by done. pose proof (da_range _ _ _ D) as Hxr.
  wp_step. apply (s_bread l sb it u _ _ _ _ _ T x); [apply not_elem_of_nil|apply D|cbn; lia|]. intros bp l1 T1.
  wp_step. apply (s_bdata l1 sb it u _ _ _ _ _ T1 bp x); [left|]. cbv zeta. rewrite <- Esk.
  assert (forall r l', tx l' E G [(bp, x)] [] V -> r = slot V i k -> (r = 0 -> forall b, 0 <= b < sb_size sb -> b_free V sb b = false) ->
    wp (bcf (brelse bp);; mret r) (fun r s' => exists l' V', s' = st l' it /\ grow_post E sb (used (slot V' i k) ++ G) V i k r l' i V') (st l' it)) as Hsame.
  { intros r l' T' -> Hn. wp_step. apply (s_brelse l' sb it u _ _ _ _ _ T' bp x []); [done|apply not_elem_of_nil|]. intros l2 T2. wp_step.
    exists l2, V. split; [done|]. constructor; try done; [eapply tx_mono; [exact T2|set_solver]|by eapply grown_refl]. }
  wp_step. destruct (Z.eqb_spec (slot V i k) 0) as [E0|Nk]; [|wp_step; by apply Hsame].
  wp_step. eapply wp_mono; [apply (balloc_wp sb it u E [(bp, x)] Ho l1 G V T1); [cbn [length]; lia|apply FS| |]|].
  { intros c Hc. cbn. rewrite list_elem_of_singleton. intros Ec. by apply (da_bitmap _ _ _ D c Hc). }
  { intros c Hc Hfc. cbn. rewrite list_elem_of_singleton. intros ->. congruence. }
  intros r s2 (l2 & -> & HP). unfold balloc_post in HP. destruct (Z.eqb_spec r 0) as [->|Nr]; cbn [negb].
  { rewrite decide_True in HP by done. destruct HP as [Hn T2]. wp_step. wp_step. wp_step. cbv beta. apply Hsame; [done|by rewrite E0|done]. }
  rewrite decide_False in HP by done. destruct HP as (Hr & Hf & T2).
  destruct (marked_ok V sb start r (fo_bitmap _ _ _ FS) ltac:(lia) Hf) as [_ Ef]. pose proof (bo_size _ _ _ (fo_bitmap _ _ _ FS)) as Hsz.
  assert (x <> r) as Nx by congruence.
  assert (forall b, b <> r -> (forall c, 0 <= c < sb_size sb -> b <> BBLOCK c sb) -> allocated V sb r b = V b) as EV.
  { intros b Nb Hc. unfold allocated, marked, fn_upd. rewrite !decide_False; [done|by apply Hc; lia|done]. }
  assert (allocated V sb r x = V x) as Ex by (apply EV; [done|apply D]).
  wp_step. wp_step. apply (s_bdata_set l2 sb it u _ _ _ _ _ T2 bp x); [left|]. intros l3 T3. rewrite Ex in T3.
  apply (s_log_write l3 sb it u _ _ _ _ _ T3 bp x); [left|cbn [length]; lia|done|]. intros l4 T4. rewrite filter_self in T4.
  wp_steps. apply (s_brelse l4 sb it u _ _ _ _ _ T4 bp x []); [done|apply not_elem_of_nil|]. intros l5 T5. wp_step.
  set (V' := fn_upd _ x _) in T5. exists l5, V'. split; [done|].
  assert (V' x = set_u32 (V x) (4 * bn) r) as EVx by (unfold V', fn_upd; by rewrite decide_True).
  assert (V' r = zero_block) as EVr by (unfold V', allocated, fn_upd; by rewrite decide_False, decide_True by congruence).
  assert (forall b, b <> r -> b <> iaddr i NDIRECT -> (forall c, 0 <= c < sb_size sb -> b <> BBLOCK c sb) -> V' b = V b) as EV'.
  { intros b Nb Nbx Hc. unfold V', fn_upd. rewrite decide_False by done. by apply EV. }
  assert (forall j, in_slots j -> slot V' i j = if decide (j = k) then r else slot V i j) as Es.
  { apply indirect_slots; [done|done|done|done|lia|]. fold x. by rewrite Eoff. }
  assert (forall b, 0 <= b < sb_size sb -> b_free V' sb b = if decide (b = r) then false else b_free V sb b) as Ef'.
  { intros b Hb. unfold V'. rewrite (write_free _ _ start) by done. by apply Ef. }
  assert (iaddr i NDIRECT <> 0 -> length (V' (iaddr i NDIRECT)) = Z.to_nat BSIZE) as Hl.
  { intros _. fold x. rewrite EVx. rewrite set_u32_length; [done|lia|]. rewrite Hlen. change (Z.to_nat BSIZE) with 1024%nat. lia. }
  pose proof (gr_inode _ _ _ _ _ (grown_refl _ _ _ _ F)) as Ei. pose proof (fk_addrs _ _ _ _ F) as La.
  constructor.
  - eapply tx_mono; [exact T5|]. rewrite (Es k), decide_True, used_nz by done. intros y Hy.
    assert (y = x \/ y ∈ r :: BBLOCK r sb :: G) as [->|Hy'] by set_solver; [set_solver|]. apply (bitmap_in V); [done|lia|done|done].
  - apply write_fs_ok; [apply alloc_fs_ok; [done|lia|done]|done].
  - by apply (grow_file_ok V V' sb start i i k r).
  - by apply (grow_grown V V' sb start i i k r).
  - intros o Hoo. by apply (grow_bytes V V' sb start i i k r).
  - rewrite (Es k) by done. by rewrite decide_True.
  - done.
Qed.

(** bmap: at most the bitmap block, the indirect block and the block itself
    enter the transaction. *)
Lemma bmap_wp l it G V i bn :
  tx l E G [] [] V -> fs_ok V sb start -> file_ok V sb start i -> it !! Z.to_nat ip = Some i -> i_dev i = ROOTDEV -> 0 <= bn < MAXFILE ->
  bitmap_block sb ∈ G -> Z.of_nat (length G) + 3 < NBUF ->
  wp (bmap ip bn) (fun r s' => exists l' i' V', s' = st l' (<[Z.to_nat ip := i']> it) /\
    grow_post E sb (used (slot V' i' (dslot bn)) ++ used (slot V' i' NDIRECT) ++ G) V i (dslot bn) r l' i' V') (st l it).
Proof using Ho.
  intros T FS F Hi Hd Hbn HB HG. unfold bmap. wp_step. apply wp_gets. rewrite (geti_at _ _ _ _ ip i) by done.
  unfold dslot. change MAXFILE with (NDIRECT + NINDIRECT) in Hbn. destruct (Z.ltb_spec bn NDIRECT) as [Hlt|Hge].
  - eapply wp_mono; [apply (addr_wp l it G V i bn); (done || lia)|]. intros r s' (l' & i' & V' & -> & [H1 H2 H3 H4 H5 H6 H7]).
    exists l', i', V'. split; [done|]. constructor; try done. eapply tx_mono; [exact H1|set_solver].
  - destruct (Z.ltb_spec (bn - NDIRECT) NINDIRECT); [|lia].
    wp_step. eapply wp_mono; [apply (addr_wp l it G V i NDIRECT); (done || lia)|]. cbv beta.
    intros x s' (l1 & i1 & V1 & -> & [T1 FS1 F1 G1 B1 E1 N1]). assert (i_dev i1 = ROOTDEV) as Hd1 by (by rewrite (gr_inode _ _ _ _ _ G1)).
    destruct (Z.eqb_spec x 0) as [->|Nx].
    + wp_step. exists l1, i1, V1. split; [done|]. rewrite slot_indirect in E1.
      assert (slot V1 i1 (bn + 1) = 0) as Es. { unfold slot. destruct (Z.leb_spec (bn + 1) NDIRECT); [lia|]. by rewrite <- E1. }
      constructor; try done. eapply tx_mono; [exact T1|]. set_solver.
    + rewrite Hd. rewrite slot_indirect in E1. subst x. rewrite slot_indirect, used_nz in T1 by done.
      eapply wp_mono; [apply (indirect_wp l1 (<[Z.to_nat ip := i1]> it) _ V1 i1 (bn - NDIRECT) T1);
        [done|done|done|lia|set_solver|left|cbn [app length]; lia]|].
      replace (bn - NDIRECT + NDIRECT + 1) with (bn + 1) by lia. intros r s' (l2 & V2 & -> & [T2 FS2 F2 G2 B2 E2 N2]).
      exists l2, i1, V2. split; [done|]. constructor; [|done|done|by eapply grown_trans| |done|done].
      * rewrite slot_indirect, (used_nz (iaddr i1 NDIRECT)) by done. done.
      * intros o Hoo. by rewrite B2, B1.
Qed.

(** Where the block exists, nothing changes. *)
Lemma bmap_hit l it G V i bn :
  tx l E G [] [] V -> file_ok V sb start i -> it !! Z.to_nat ip = Some i -> i_dev i = ROOTDEV -> 0 <= bn < MAXFILE ->
  slot V i (dslot bn) <> 0 -> Z.of_nat (length G) < NBUF ->
  wp (bmap ip bn) (fun r s' => exists l', s' = st l' it /\ r = slot V i (dslot bn) /\ tx l' E G [] [] V) (st l it).
Proof using Type.
  intros T F Hi Hd Hbn N HG. unfold bmap. wp_step. apply wp_gets. rewrite (geti_at _ _ _ _ ip i) by done.
  change MAXFILE with (NDIRECT + NINDIRECT) in Hbn. unfold dslot in *. cbv zeta. destruct (Z.ltb_spec bn NDIRECT) as [Hlt|Hge].
  - assert (slot V i bn = iaddr i bn) as Es by (unfold slot; by destruct (Z.leb_spec bn NDIRECT); [|lia]). rewrite Es in N |- *.
    destruct (Z.eqb_spec (iaddr i bn) 0); [done|]. wp_step. by exists l.
  - destruct (Z.ltb_spec (bn - NDIRECT) NINDIRECT); [|lia]. unfold slot in N. destruct (Z.leb_spec (bn + 1) NDIRECT); [lia|].
    destruct (Z.eqb_spec (iaddr i NDIRECT) 0) as [|N12]; [done|]. wp_step. wp_step.
    destruct (Z.eqb_spec (iaddr i NDIRECT) 0) as [|_]; [done|].
    destruct (fk_data _ _ _ _ F NDIRECT) as (D & _ & _); [done|done|]. rewrite slot_indirect in D. rewrite Hd.
    wp_step. apply (s_bread l sb it u _ _ _ _ _ T (iaddr i NDIRECT)); [apply not_elem_of_nil|apply D|cbn; lia|]. intros bp l1 T1.
    wp_step. apply (s_bdata l1 sb it u _ _ _ _ _ T1 bp (iaddr i NDIRECT)); [left|].
    replace (bn + 1 - NDIRECT - 1) with (bn - NDIRECT) in N by lia. destruct (Z.eqb_spec (u32_at (V (iaddr i NDIRECT)) (4 * (bn - NDIRECT))) 0); [done|].
    wp_steps. apply (s_brelse l1 sb it u _ _ _ _ _ T1 bp (iaddr i NDIRECT) []); [done|apply not_elem_of_nil|]. intros l2 T2. wp_step.
    exists l2. split; [done|]. split; [|done]. unfold slot. destruct (Z.leb_spec (bn + 1) NDIRECT); [lia|]. destruct (Z.eqb_spec (iaddr i NDIRECT) 0); [done|].
    by replace (bn + 1 - NDIRECT - 1) with (bn - NDIRECT) by lia.
Qed.
End bmap.

(** ** Bytes of a block *)

Definition bytes_from (V : Z -> block) (i : inode) (off n : Z) : list Z := fbyte V i <$> seqZ off n.

Lemma bytes_from_length V i off n : 0 <= n -> length (bytes_from V i off n) = Z.to_nat n.
Proof. intros H. unfold bytes_from. rewrite length_fmap, length_seqZ. done. Qed.
Lemma bytes_from_app V i off m n : 0 <= m -> 0 <= n -> bytes_from V i off m ++ bytes_from V i (off + m) n = bytes_from V i off (m + n).
Proof. intros Hm Hn. unfold bytes_from. by rewrite seqZ_app, fmap_app by lia. Qed.
Lemma bytes_from_lookup V i off n k x : bytes_from V i off n !! k = Some x <-> Z.of_nat k < n /\ x = fbyte V i (off + Z.of_nat k).
Proof.
  unfold bytes_from. rewrite list_lookup_fmap, fmap_Some. setoid_rewrite lookup_seqZ. split.
  - intros (y & [-> Hk] & ->). done.
  - intros [Hk ->]. by exists (off + Z.of_nat k).
Qed.

Lemma div_small_add o m : 0 <= o -> 0 <= m < BSIZE - o mod BSIZE -> (o + m) / BSIZE = o / BSIZE /\ (o + m) mod BSIZE = o mod BSIZE + m.
Proof.
  intros Ho Hm. change BSIZE with 1024 in *. pose proof (Z.mod_pos_bound o 1024 ltac:(lia)). pose proof (Z.div_mod o 1024 ltac:(lia)).
  pose proof (Z.mod_pos_bound (o + m) 1024 ltac:(lia)). pose proof (Z.div_mod (o + m) 1024 ltac:(lia)). lia.
Qed.

(** A part of a block is a part of the file. *)
Lemma get_bytes_from V i off m :
  0 <= off -> 0 <= m <= BSIZE - off mod BSIZE -> slot V i (dslot (off / BSIZE)) <> 0 -> length (V (slot V i (dslot (off / BSIZE)))) = Z.to_nat BSIZE ->
  get_bytes (V (slot V i (dslot (off / BSIZE)))) (off mod BSIZE) m = bytes_from V i off m.
Proof.
  intros Ho Hm N Hl. pose proof (Z.mod_pos_bound off BSIZE ltac:(done)) as Hr. apply list_eq. intros k. rewrite get_bytes_lookup by lia.
  destruct (decide (Z.of_nat k < m)) as [Hk|Hk].
  - symmetry. destruct (div_small_add off (Z.of_nat k)) as [Ed Em]; [done|lia|].
    assert (bytes_from V i off m !! k = Some (fbyte V i (off + Z.of_nat k))) as -> by (by apply bytes_from_lookup).
    unfold fbyte. rewrite Ed, Em. destruct (Z.eqb_spec (slot V i (dslot (off / BSIZE))) 0); [done|].
    rewrite nth_lookup. replace (Z.to_nat (off mod BSIZE + Z.of_nat k)) with (Z.to_nat (off mod BSIZE) + k)%nat by lia.
    destruct (lookup_lt_is_Some_2 (V (slot V i (dslot (off / BSIZE)))) (Z.to_nat (off mod BSIZE) + k)) as [x Ex]; [rewrite Hl; change BSIZE with 1024 in *; lia|].
    by rewrite Ex.
  - symmetry. destruct (bytes_from V i off m !! k) eqn:E; [|done]. apply bytes_from_lookup in E as [E _]. lia.
Qed.

Lemma blocks_left off m n nb : 0 <= off -> 0 < n -> off mod BSIZE + n <= BSIZE * (1 + nb) -> m = Z.min n (BSIZE - off mod BSIZE) ->
  0 < m <= n /\ (m < n -> (off + m) mod BSIZE + (n - m) <= BSIZE * nb /\ (off + m) mod BSIZE = 0).
Proof.
  intros Ho Hn Hb ->. change BSIZE with 1024 in *. pose proof (Z.mod_pos_bound off 1024 ltac:(lia)). split; [lia|]. intros Hm.
  replace (Z.min n (1024 - off mod 1024)) with (1024 - off mod 1024) in * by lia.
  assert ((off + (1024 - off mod 1024)) mod 1024 = 0) as E.
  { replace (off + (1024 - off mod 1024)) with ((off / 1024 + 1) * 1024) by (pose proof (Z.div_mod off 1024 ltac:(lia)); lia). by apply Z.mod_mul. }
  lia.
Qed.

Lemma rw_fuel_enough off n : 0 <= n -> off mod BSIZE + n <= BSIZE * Z.of_nat (rw_fuel n).
Proof.
  intros Hn. unfold rw_fuel. change BSIZE with 1024. pose proof (Z.mod_pos_bound off 1024 ltac:(lia)). pose proof (Z.div_mod n 1024 ltac:(lia)).
  pose proof (Z.mod_pos_bound n 1024 ltac:(lia)). assert (0 <= n / 1024) by (apply Z.div_pos; lia). lia.
Qed.

(** ** Where the bytes of readi go *)

Section rw.
Context {U : Type} `{UL : UserLaws U}.
Context (sb : superblock) (E : txenv) (ip : Z) (it0 : list inode).
Abbreviation start := (te_start E).

(** [c] has been delivered to [dst]: the user memory was [u] and is [u']. *)
Definition delivered (dst : endpoint) (c : list Z) (u u' : U) : Prop :=
  match dst with
  | Kernel => u' = u
  | User va => (forall a, ~ va <= a < va + Z.of_nat (length c) -> um_byte u' a = um_byte u a) /\
               forall k x, c !! k = Some x -> um_byte u' (va + Z.of_nat k) = x
  end.
Definition in_user (dst : endpoint) (n : Z) : Prop := match dst with Kernel => True | User va => 0 <= va /\ va + n < 2 ^ 64 end.
(** A copy to user memory failed; nothing outside of the buffer has changed. *)
Definition failed (dst : endpoint) (n : Z) (u u' : U) : Prop :=
  match dst with Kernel => False | User va => forall a, ~ va <= a < va + n -> um_byte u' a = um_byte u a end.

Lemma copyout_wp dst c d n l it u u1 : in_user dst n -> Z.of_nat (length c) + Z.of_nat (length d) <= n -> delivered dst c u u1 ->
  wp (either_copyout dst (Z.of_nat (length c)) d) (fun ok s' => exists u2, s' = FState l sb it u2 /\
    if ok then delivered dst (c ++ d) u u2 else failed dst n u u2) (FState l sb it u1).
Proof.
  intros Hn Hl Hd. destruct dst as [|va]; cbn [either_copyout].
  - apply wp_ret. by exists u1.
  - unfold wp. cbn [f_user]. destruct Hn as [H0 H1]. destruct Hd as [D1 D2]. rewrite w64_id by lia.
    destruct (copyout_user (va + Z.of_nat (length c)) d u1) as [ok u2] eqn:Ec. exists u2. split; [done|].
    destruct (law_copyout _ _ _ _ _ Ec) as [L1 L2]. destruct ok.
    + split.
      * intros a Ha. rewrite length_app in Ha. rewrite L1 by lia. apply D1. lia.
      * intros k x Hk. apply lookup_app_Some in Hk as [Hk|[Hge Hk]].
        -- pose proof (lookup_lt_Some _ _ _ Hk). rewrite L1 by lia. by apply D2.
        -- rewrite <- (L2 eq_refl _ _ Hk). f_equal. lia.
    + intros a Ha. rewrite L1 by lia. apply D1. lia.
Qed.

Section read.
Context (V : Z -> block) (i : inode) (G : list Z).
Context (F : file_ok V sb start i) (FF : file_full V i) (Hi : it0 !! Z.to_nat ip = Some i) (Hd : i_dev i = ROOTDEV) (HG : Z.of_nat (length G) < NBUF).

Lemma readi_loop_wp dst off0 n u0 fuel : forall l u tot, in_user dst n ->
  tx l E G [] [] V -> 0 <= off0 -> off0 + n <= i_size i -> 0 <= tot <= n -> (off0 + tot) mod BSIZE + (n - tot) <= BSIZE * Z.of_nat fuel ->
  delivered dst (bytes_from V i off0 tot) u0 u ->
  wp (readi_loop fuel ip dst (off0 + tot) n tot (bytes_from V i off0 tot)) (fun r s' => exists l' u', s' = FState l' sb it0 u' /\ tx l' E G [] [] V /\
    ((r = (n, bytes_from V i off0 n) /\ delivered dst (bytes_from V i off0 n) u0 u') \/ (r.1 = -1 /\ failed dst n u0 u'))) (FState l sb it0 u).
Proof using F FF Hi Hd HG.
  induction fuel as [|fuel IH]; intros l u tot Hu T Hoff Hsz Htot Hf Hdel; cbn [readi_loop]; destruct (Z.ltb_spec tot n) as [Hlt|Hge]; cbn [negb].
  1: change BSIZE with 1024 in Hf; pose proof (Z.mod_pos_bound (off0 + tot) 1024 ltac:(lia)); lia.
  1, 3: wp_step; assert (tot = n) as -> by lia; exists l, u; split_and!; [done|done|by left].
  set (off := off0 + tot) in *. pose proof (ff_size _ _ FF) as Hs. assert (0 <= off / BSIZE < MAXFILE) as Hbn.
  { split; [apply Z.div_pos; [lia|done]|]. apply Z.div_lt_upper_bound; [done|]. lia. }
  assert (slot V i (dslot (off / BSIZE)) <> 0) as N.
  { apply (ff_full _ _ FF); [lia|]. pose proof (Z.mul_div_le off BSIZE ltac:(done)). lia. }
  destruct (fk_data _ _ _ _ F _ (proj1 (dslot_range _ Hbn)) N) as (D & _ & Hl).
  wp_step. eapply wp_mono; [apply (bmap_hit sb u E ip l it0 G V i); done|]. intros r s1 (l1 & -> & -> & T1).
  destruct (Z.eqb_spec (slot V i (dslot (off / BSIZE))) 0); [done|].
  wp_step. apply wp_gets. rewrite (geti_at _ _ _ _ ip i) by done. rewrite Hd.
  wp_step. apply (s_bread l1 sb it0 u _ _ _ _ _ T1 (slot V i (dslot (off / BSIZE)))); [apply not_elem_of_nil|apply D|cbn; lia|]. intros bp l2 T2.
  wp_step. apply (s_bdata l2 sb it0 u _ _ _ _ _ T2 bp (slot V i (dslot (off / BSIZE)))); [left|]. set (m := Z.min (n - tot) (BSIZE - off mod BSIZE)).
  destruct (blocks_left off m (n - tot) (Z.of_nat fuel)) as [Hm Hnext]; [lia|lia|replace (1 + Z.of_nat fuel) with (Z.of_nat (S fuel)) by lia; exact Hf|done|].
  rewrite get_bytes_from by (done || lia).
  assert (Z.of_nat (length (bytes_from V i off0 tot)) = tot) as Elen by (rewrite bytes_from_length; lia).
  assert (Z.of_nat (length (bytes_from V i off m)) = m) as Elen2 by (rewrite bytes_from_length; lia).
  wp_step. rewrite <- Elen at 1. eapply wp_mono; [apply (copyout_wp dst _ _ n l2 it0 u0 u); [done|lia|done]|].
  intros ok s3 (u2 & -> & Hok). wp_step. apply (s_brelse l2 sb it0 u2 _ _ _ _ _ T2 bp (slot V i (dslot (off / BSIZE))) []); [done|apply not_elem_of_nil|]. intros l3 T3.
  destruct ok; cbn [negb].
  - rewrite bytes_from_app in * by lia. replace (off + m) with (off0 + (tot + m)) by (unfold off; lia).
    destruct (decide (m < n - tot)) as [Hmn|Hmn].
    + apply IH; [done|done|lia|lia|lia| |done]. destruct (Hnext Hmn) as [H1 _]. replace (off0 + (tot + m)) with (off + m) by (unfold off; lia). lia.
    + assert (tot + m = n) as E2 by lia. rewrite E2 in *. destruct fuel as [|fuel']; cbn [readi_loop]; rewrite Z.ltb_irrefl; cbn [negb]; wp_step;
        exists l3, u2; (split_and!; [done|done|by left]).
  - wp_step. exists l3, u2. split_and!; [done|done|]. by right.
Qed.

(** How many bytes readi delivers; the sum wraps around at 32 bits. *)
Definition read_count (i : inode) (off n : Z) : Z :=
  if 2 ^ 32 <=? off + n then 0 else Z.max 0 (Z.min n (i_size i - off)).

Lemma readi_wp dst off n l u : in_user dst n -> tx l E G [] [] V -> 0 <= off < 2 ^ 32 -> 0 <= n < 2 ^ 32 ->
  wp (readi ip dst off n) (fun r s' => exists l' u', s' = FState l' sb it0 u' /\ tx l' E G [] [] V /\
    let c := bytes_from V i off (read_count i off n) in
    ((r = (read_count i off n, c) /\ delivered dst c u u') \/ (r.1 = -1 /\ failed dst n u u'))) (FState l sb it0 u).
Proof using F FF Hi Hd HG.
  intros Hu T Hoff Hn. unfold readi. wp_step. apply wp_gets. rewrite (geti_at _ _ _ _ ip i) by done. pose proof (ff_size _ _ FF) as Hs.
  assert (delivered dst [] u u) as D0. { destruct dst; [done|]. split; [done|]. intros k x Hk. by rewrite lookup_nil in Hk. }
  assert (read_count i off n = 0 -> wp (mret (0, [])) (fun r s' => exists l' u', s' = FState l' sb it0 u' /\ tx l' E G [] [] V /\
    let c := bytes_from V i off (read_count i off n) in
    ((r = (read_count i off n, c) /\ delivered dst c u u') \/ (r.1 = -1 /\ failed dst n u u'))) (FState l sb it0 u)) as H0.
  { intros E0. wp_step. exists l, u. split_and!; [done|done|]. left. rewrite E0. done. }
  unfold read_count in *. change (MAXFILE * BSIZE) with 274432 in Hs. destruct (Z.leb_spec (2 ^ 32) (off + n)) as [Hw|Hw].
  { assert (w32 (off + n) = off + n - 2 ^ 32) as Ew.
    { unfold w32. replace (off + n) with (off + n - 2 ^ 32 + 1 * 2 ^ 32) at 1 by lia. rewrite Z.mod_add, Z.mod_small by lia. done. }
    destruct (Z.ltb_spec (w32 (off + n)) off); [|lia]. rewrite orb_true_r. by apply H0. }
  rewrite w32_id by lia. destruct (Z.ltb_spec (i_size i) off) as [Ho|Ho]; [apply H0; lia|]. destruct (Z.ltb_spec (off + n) off); [lia|]. cbn [orb].
  set (n' := Z.max 0 (Z.min n (i_size i - off))). assert ((if i_size i <? off + n then i_size i - off else n) = n') as -> by (destruct (Z.ltb_spec (i_size i) (off + n)); lia).
  assert (0 <= n' <= n /\ off + n' <= i_size i) as [Hn' Hsz] by lia.
  pose proof (readi_loop_wp dst off n' u (rw_fuel n') l u 0) as HL. rewrite Z.add_0_r, Z.sub_0_r in HL.
  eapply wp_mono; [apply HL; [|done|lia|lia|lia|apply rw_fuel_enough; lia|done]|].
  - destruct dst as [|va]; [done|]. cbn in *. lia.
  - intros r s' (l' & u' & -> & T' & HP). exists l', u'. split_and!; [done|done|]. destruct HP as [HP|[H1 H2]]; [by left|right]. split; [done|].
    destruct dst as [|va]; [done|]. cbn in *. intros a Ha. apply H2. lia.
Qed.
End read.
End rw.
