(* ===== verification/FsWrite.v ===== *)
(** * writei and iupdate (fs.c) *)
From stdpp Require Import base tactics numbers list strings gmap.
From Stdlib Require Import ZArith Lia.
From S2P Require Import Prelude Block Bio BioSpec BioCache Log LogSpec LogCrash LogInv UserMem Fs FsSpec FsFile FsRw.

Open Scope Z_scope.

(** ** One block of writei *)

(** Overwriting [m] bytes at [off], all in one block, with those of [dat] from
    [tot] on. *)
Lemma block_written V sb st i off m dat tot :
  file_ok V sb st i -> 0 <= off -> off / BSIZE < MAXFILE -> slot V i (dslot (off / BSIZE)) <> 0 -> 0 <= m <= BSIZE - off mod BSIZE ->
  0 <= tot -> tot + m <= Z.of_nat (length dat) ->
  let b := slot V i (dslot (off / BSIZE)) in
  let x := set_bytes (V b) (off mod BSIZE) (get_bytes dat tot m) in
  length x = Z.to_nat BSIZE /\
  forall o, 0 <= o < MAXFILE * BSIZE ->
    fbyte (fn_upd V b x) i o = if decide (off <= o < off + m) then nth (Z.to_nat (tot + (o - off))) dat 0 else fbyte V i o.
Proof.
  intros F Ho Hlt N Hm Ht Hd b x. assert (0 <= off / BSIZE < MAXFILE) as Hbn by (split; [apply Z.div_pos; [lia|done]|done]).
  destruct (fk_data _ _ _ _ F _ (proj1 (dslot_range _ Hbn)) N) as (_ & _ & Hl). fold b in Hl.
  pose proof (Z.mod_pos_bound off BSIZE ltac:(done)) as Hr.
  assert (length (get_bytes dat tot m) = Z.to_nat m) as Hg by (unfold get_bytes; rewrite length_take, length_drop; lia).
  assert (off mod BSIZE + Z.of_nat (length (get_bytes dat tot m)) <= Z.of_nat (length (V b))) as Hfit by (rewrite Hg, Hl; change BSIZE with 1024 in *; lia).
  assert (length x = Z.to_nat BSIZE) as Hx by (unfold x; rewrite set_bytes_length; [done|lia|done]). split; [done|].
  intros o Hoo. unfold b. rewrite (write_byte V sb st i (off / BSIZE) x) by done. fold b.
  assert (0 <= o) as Ho0 by lia. pose proof (Z.mod_pos_bound o BSIZE ltac:(done)) as Hro.
  pose proof (Z.div_mod o BSIZE ltac:(done)) as Eo. pose proof (Z.div_mod off BSIZE ltac:(done)) as Eoff.
  destruct (decide (o / BSIZE = off / BSIZE)) as [Ed|Nd].
  - unfold x. rewrite nth_lookup, set_bytes_lookup by (lia || done). rewrite Hg.
    destruct (decide (off <= o < off + m)) as [Hin|Hout].
    + rewrite decide_True by (change BSIZE with 1024 in *; lia). unfold get_bytes. rewrite lookup_take_lt by (change BSIZE with 1024 in *; lia). rewrite lookup_drop.
      rewrite nth_lookup. f_equal. f_equal. change BSIZE with 1024 in *. lia.
    + rewrite decide_False by (change BSIZE with 1024 in *; lia). unfold fbyte. rewrite Ed. fold b. destruct (Z.eqb_spec b 0); [done|].
      by rewrite nth_lookup.
  - rewrite decide_False; [done|]. intros Hin. apply Nd. destruct (div_small_add off (o - off)) as [E1 _]; [done|lia|].
    by replace (off + (o - off)) with o in E1 by lia.
Qed.

(** ** The loop *)

Section writei.
Context {U : Type} `{UM : UserMem U}.
Context (sb : superblock) (E : txenv) (ip : Z) (Ho : 1 <= te_out E).
Context (src : endpoint) (kbuf dat : list Z) (n : Z) (P : U -> Prop).
Abbreviation start := (te_start E).

(** [src] provides the bytes [dat] as long as [P] holds of the user memory. *)
Definition provides : Prop := Z.of_nat (length dat) = n /\
  forall l it u tot m, P u -> 0 <= tot -> 0 <= m -> tot + m <= n ->
  exists u', either_copyin src kbuf tot m (FState l sb it u) = Ret (get_bytes dat tot m, true) (FState l sb it u') /\ P u'.

(** The indirect block still has to be allocated. *)
Definition pending (V : Z -> block) (i : inode) : Z := if slot V i NDIRECT =? 0 then 1 else 0.

Record loop_post (G : list Z) (V : Z -> block) (i : inode) (off tot nb : Z) (r : Z * Z) (l' : lstate) (i' : inode) (V' : Z -> block) (G' : list Z) : Prop := {
  lp_tot : tot <= r.1 <= n;
  lp_off : r.2 = off + (r.1 - tot);
  lp_tx : tx l' E G' [] [] V';
  lp_log : Z.of_nat (length G') <= Z.of_nat (length G) + nb + pending V i;
  lp_fs : fs_ok V' sb start;
  lp_file : file_ok V' sb start i';
  lp_grown : grown V sb i V' i';
  lp_bytes : forall o, 0 <= o < MAXFILE * BSIZE -> fbyte V' i' o = if decide (off <= o < r.2) then nth (Z.to_nat (tot + (o - off))) dat 0 else fbyte V i o;
  lp_alloc : forall o, off <= o < r.2 -> slot V' i' (dslot (o / BSIZE)) <> 0;
  lp_full : r.1 = n \/ forall b, 0 <= b < sb_size sb -> b_free V' sb b = false;
  lp_stop : r.1 = n \/ r.1 = tot \/ r.2 mod BSIZE = 0
}.

Lemma loop_done l G V i off tot nb : tx l E G [] [] V -> fs_ok V sb start -> file_ok V sb start i -> 0 <= tot <= n -> 0 <= nb ->
  (tot = n \/ forall b, 0 <= b < sb_size sb -> b_free V sb b = false) -> loop_post G V i off tot nb (tot, off) l i V G.
Proof using Type.
  intros T FS F Ht Hnb Hfull. constructor; cbn [fst snd]; try done; [lia|lia|unfold pending; destruct (_ =? _); lia|by eapply grown_refl| | |].
  - intros o Hoo. by rewrite decide_False by lia.
  - intros o Hoo. lia.
  - right. by left.
Qed.

(** One block, then the rest. *)
Lemma loop_step G V i off tot nb m V1 i1 G1 V2 r l' i' V' G' :
  0 <= off -> off + (n - tot) <= MAXFILE * BSIZE -> 0 < m <= n - tot -> (m < n - tot -> (off + m) mod BSIZE = 0) ->
  grown V sb i V1 i1 -> (forall o, 0 <= o < MAXFILE * BSIZE -> fbyte V1 i1 o = fbyte V i o) ->
  grown V1 sb i1 V2 i1 ->
  (forall o, 0 <= o < MAXFILE * BSIZE -> fbyte V2 i1 o = if decide (off <= o < off + m) then nth (Z.to_nat (tot + (o - off))) dat 0 else fbyte V1 i1 o) ->
  (forall o, off <= o < off + m -> slot V2 i1 (dslot (o / BSIZE)) <> 0) ->
  Z.of_nat (length G1) + pending V2 i1 <= Z.of_nat (length G) + 1 + pending V i ->
  loop_post G1 V2 i1 (off + m) (tot + m) nb r l' i' V' G' -> loop_post G V i off tot (nb + 1) r l' i' V' G'.
Proof using Type.
  intros Hoff Hmax Hm Hend G01 B01 G12 B12 A12 HG [H1 H2 H3 H4 H5 H6 H7 H8 H9 H10 H11].
  constructor; try done; [lia|lia|lia|eapply grown_trans; [exact G01|]; by eapply grown_trans| | |].
  - intros o Hoo. rewrite H8 by done. destruct (decide (off + m <= o < r.2)) as [Ha|Ha].
    + rewrite decide_True by lia. f_equal. lia.
    + rewrite B12 by done. destruct (decide (off <= o < off + m)); [rewrite decide_True by lia; done|]. rewrite decide_False by lia. by apply B01.
  - intros o Hoo. destruct (decide (o < off + m)) as [Hlt|Hge]; [|apply H9; lia].
    rewrite (gr_slots _ _ _ _ _ H7); [apply A12; lia| |apply A12; lia]. apply dslot_range. split; [apply Z.div_pos; [lia|done]|].
    apply Z.div_lt_upper_bound; [done|]. lia.
  - destruct H11 as [|[H11|H11]]; [by left| |right; by right]. destruct (decide (m < n - tot)) as [Hlt|]; [|left; lia].
    right. right. rewrite H2, H11. replace (off + m + (tot + m - (tot + m))) with (off + m) by lia. by apply Hend.
Qed.

(** The blocks that bmap adds to the transaction. *)
Lemma bmap_log l G V i k r i' V' :
  grow_post E sb (used (slot V' i' k) ++ used (slot V' i' NDIRECT) ++ G) V i k r l i' V' -> (slot V i NDIRECT = 0 \/ slot V i NDIRECT ∈ G) ->
  exists G1, tx l E G1 [] [] V' /\ Z.of_nat (length G1) + pending V' i' <= Z.of_nat (length G) + 1 + pending V i /\ G ⊆ G1 /\
    (r = 0 \/ r ∈ G1) /\ (slot V' i' NDIRECT = 0 \/ slot V' i' NDIRECT ∈ G1).
Proof using Ho.
  intros [T FS F Gr _ -> _] HI. unfold pending. assert (forall b, Z.of_nat (length (used b)) <= 1) as Hu by (intros b; unfold used; by destruct (b =? 0)).
  assert (forall b, b = 0 \/ b ∈ used b) as Hm by (intros b; unfold used; destruct (Z.eqb_spec b 0); [by left|right; left]).
  destruct (Z.eqb_spec (slot V i NDIRECT) 0) as [E0|N0].
  - exists (used (slot V' i' k) ++ used (slot V' i' NDIRECT) ++ G). split_and!; [done| |set_solver| |].
    + rewrite !length_app. pose proof (Hu (slot V' i' k)). unfold used at 2. destruct (_ =? _); cbn [length]; lia.
    + destruct (Hm (slot V' i' k)); [by left|right; set_solver].
    + destruct (Hm (slot V' i' NDIRECT)); [by left|right; set_solver].
  - destruct HI as [|HI]; [done|]. rewrite (gr_slots _ _ _ _ _ Gr NDIRECT ltac:(done) N0) in *. exists (used (slot V' i' k) ++ G). split_and!.
    + eapply tx_mono; [exact T|]. rewrite (used_nz (slot V i NDIRECT)) by done. set_solver.
    + destruct (Z.eqb_spec (slot V i NDIRECT) 0); [done|]. rewrite length_app. pose proof (Hu (slot V' i' k)). lia.
    + set_solver.
    + destruct (Hm (slot V' i' k)); [by left|right; set_solver].
    + right. set_solver.
Qed.

Lemma writei_loop_wp fuel : forall l it u G V i off tot nb, provides -> P u ->
  tx l E G [] [] V -> fs_ok V sb start -> file_ok V sb start i -> it !! Z.to_nat ip = Some i -> i_dev i = ROOTDEV ->
  bitmap_block sb ∈ G -> (slot V i NDIRECT = 0 \/ slot V i NDIRECT ∈ G) -> Z.of_nat (length G) + nb + pending V i + 3 <= NBUF ->
  0 <= off -> off + (n - tot) <= MAXFILE * BSIZE -> 0 <= tot <= n -> 0 <= nb <= Z.of_nat fuel -> (tot < n -> off mod BSIZE + (n - tot) <= BSIZE * nb) ->
  wp (writei_loop fuel ip src kbuf off n tot) (fun r s' => exists l' i' V' G' u', s' = FState l' sb (<[Z.to_nat ip := i']> it) u' /\
    loop_post G V i off tot nb r l' i' V' G' /\ P u') (FState l sb it u).
Proof using Ho.
  induction fuel as [|fuel IH]; intros l it u G V i off tot nb HP Pu T FS F Hi Hd HB HI HG Hoff Hmax Ht Hnb Hf; cbn [writei_loop];
    destruct (Z.ltb_spec tot n) as [Hlt|Hge]; cbn [negb].
  1: specialize (Hf Hlt); change BSIZE with 1024 in Hf; pose proof (Z.mod_pos_bound off 1024 ltac:(lia)); lia.
  1, 3: wp_step; exists l, i, V, G, u; rewrite list_insert_id by done; split_and!; [done|apply loop_done; (done || lia || (left; lia))|done].
  specialize (Hf Hlt). assert (0 <= off / BSIZE < MAXFILE) as Hbn. { split; [apply Z.div_pos; [lia|done]|]. apply Z.div_lt_upper_bound; [done|]. lia. }
  assert (1 <= nb) as Hnb1. { change BSIZE with 1024 in Hf. pose proof (Z.mod_pos_bound off 1024 ltac:(lia)). lia. }
  assert (0 <= pending V i <= 1) as Hpe by (unfold pending; destruct (_ =? _); lia).
  wp_step. eapply wp_mono; [apply (bmap_wp sb u E ip Ho l it G V i (off / BSIZE) T); (done || lia)|].
  intros r s1 (l1 & i1 & V1 & -> & GP). destruct (bmap_log _ _ _ _ _ _ _ _ GP HI) as (G1 & T1 & HG1 & HGs & Hr1 & HI1).
  destruct GP as [_ FS1 F1 Gr1 B1 Er Hnone].
  destruct (Z.eqb_spec r 0) as [Er0|Nr].
  { wp_step. exists l1, i1, V1, G1, u. split_and!; [done| |done]. constructor; cbn [fst snd]; try done; [lia|lia| | | | |].
    - assert (0 <= pending V1 i1) by (unfold pending; destruct (_ =? _); lia). lia.
    - intros o Hoo. rewrite decide_False by lia. by apply B1.
    - intros o Hoo. lia.
    - right. by apply Hnone.
    - right. by left. }
  destruct Hr1 as [|Hr1]; [done|]. set (b := slot V1 i1 (dslot (off / BSIZE))) in *. subst r.
  assert ((<[Z.to_nat ip := i1]> it : list inode) !! Z.to_nat ip = Some i1) as Hi1 by (apply list_lookup_insert_eq; by eapply lookup_lt_Some).
  assert (i_dev i1 = ROOTDEV) as Hd1 by (by rewrite (gr_inode _ _ _ _ _ Gr1)).
  destruct (fk_data _ _ _ _ F1 _ (proj1 (dslot_range _ Hbn)) Nr) as (D & _ & Hl). fold b in D, Hl.
  assert (NBUF = LOGBLOCKS) as EN by done. assert (0 <= pending V1 i1) as Hpe1 by (unfold pending; destruct (_ =? _); lia).
  wp_step. apply wp_gets. rewrite (geti_at _ _ _ _ ip i1) by done. rewrite Hd1.
  wp_step. apply (s_bread l1 sb _ u _ _ _ _ _ T1 b); [apply not_elem_of_nil|apply D|cbn; lia|]. intros bp l2 T2. cbv zeta.
  set (m := Z.min (n - tot) (BSIZE - off mod BSIZE)).
  destruct (blocks_left off m (n - tot) (nb - 1)) as [Hm Hnext]; [lia|lia|by replace (1 + (nb - 1)) with nb by lia|done|].
  wp_step. destruct HP as [Hdat HP]. destruct (HP l2 (<[Z.to_nat ip := i1]> it) u tot m Pu) as (u2 & Ec & Pu2); [lia|lia|lia|].
  eapply wp_intro; [exact Ec|]. cbn [fst snd negb]. wp_step. apply (s_bdata_set l2 sb _ u2 _ _ _ _ _ T2 bp b); [left|]. intros l3 T3.
  wp_step. apply (s_log_write l3 sb _ u2 _ _ _ _ _ T3 bp b); [left|lia|done|]. intros l4 T4. rewrite filter_self in T4.
  wp_step. apply (s_brelse l4 sb _ u2 _ _ _ _ _ T4 bp b []); [done|apply not_elem_of_nil|]. intros l5 T5.
  destruct (block_written V1 sb start i1 off m dat tot) as [Hx HB2]; [done|done|lia|done|lia|lia|lia|]. fold b in Hx, HB2.
  set (x := set_bytes (V1 b) (off mod BSIZE) (get_bytes dat tot m)) in *.
  pose proof (write_slot V1 sb start i1 (off / BSIZE) x F1 Hbn Nr Hx) as Es2. fold b in Es2.
  assert (pending (fn_upd V1 b x) i1 = pending V1 i1) as Ep by (unfold pending; by rewrite Es2).
  eapply wp_mono; [apply (IH l5 _ u2 G1 (fn_upd V1 b x) i1 (off + m) (tot + m) (nb - 1)); try done|].
  - eapply tx_mono; [exact T5|]. set_solver.
  - by apply write_fs_ok.
  - by apply (write_file_ok V1 sb start i1 (off / BSIZE) x).
  - set_solver.
  - rewrite Ep. lia.
  - lia.
  - lia.
  - lia.
  - lia.
  - intros Hmn. destruct (Hnext ltac:(lia)) as [H1 _]. by replace (n - (tot + m)) with (n - tot - m) by lia.
  - intros r s' (l' & i' & V' & G' & u' & -> & HLP & Pu'). exists l', i', V', G', u'. split_and!; [by rewrite list_insert_insert_eq| |done].
    replace nb with (nb - 1 + 1) by lia. eapply loop_step; [exact Hoff|lia|exact Hm|intros Hmn; by apply Hnext|exact Gr1|exact B1| |exact HB2| | |exact HLP].
    + by apply (write_grown V1 sb start i1 (off / BSIZE) x).
    + intros o Hoo. rewrite Es2. destruct (div_small_add off (o - off)) as [E1 _]; [done|lia|].
      replace (off + (o - off)) with o in E1 by lia. by rewrite E1.
    + rewrite Ep. lia.
Qed.
End writei.

(** ** iupdate *)

Lemma file_addrs_ok V sb st i : fs_ok V sb st -> file_ok V sb st i -> Forall (fun x => 0 <= x < 2 ^ 32) (i_addrs i).
Proof.
  intros FS F. apply Forall_lookup. intros k x Hk. pose proof (lookup_lt_Some _ _ _ Hk) as Hl. rewrite (fk_addrs _ _ _ _ F) in Hl.
  assert (slot V i (Z.of_nat k) = x) as <-.
  { unfold slot. destruct (Z.leb_spec (Z.of_nat k) NDIRECT) as [_|H]; [|change NDIRECT with 12 in H; lia]. unfold iaddr. by rewrite Nat2Z.id, nth_lookup, Hk. }
  destruct (decide (slot V i (Z.of_nat k) = 0)) as [->|N]; [lia|].
  destruct (fk_data _ _ _ _ F (Z.of_nat k)) as (D & _ & _); [unfold in_slots; change MAXFILE with 268; lia|done|].
  pose proof (da_range _ _ _ D). pose proof (bo_size _ _ _ (fo_bitmap _ _ _ FS)). lia.
Qed.

(** Writing a block of inodes concerns no file's content. *)
Section iblock.
Context (V : Z -> block) (sb : superblock) (st n : Z) (x : block).
Context (FS : fs_ok V sb st) (Hn : 0 <= n < sb_ninodes sb) (Hx : length x = Z.to_nat BSIZE).
Let V' := fn_upd V (IBLOCK n sb) x.

Lemma iblock_free b : 0 <= b < sb_size sb -> b_free V' sb b = b_free V sb b.
Proof using FS Hn Hx. intros Hb. unfold b_free, V', fn_upd. rewrite decide_False; [done|]. intros E. by apply (fo_ibit _ _ _ FS n b). Qed.

Lemma iblock_fs_ok : fs_ok V' sb st.
Proof using FS Hn Hx.
  pose proof iblock_free as Ef. destruct FS as [F1 F2 F3 F7 F4 F5 F6]. constructor; try done.
  - eapply bitmap_ok_ext; [|exact F1]. intros c Hc. unfold V', fn_upd. rewrite decide_False; [done|]. intros E. by apply (F6 n c).
  - intros b Hb. rewrite Ef by done. by apply F3.
  - intros m Hm. unfold V', fn_upd. destruct (decide _); [done|]. by apply F5.
Qed.

Lemma iblock_file i : file_ok V sb st i ->
  file_ok V' sb st i /\ (forall k, slot V' i k = slot V i k) /\ (forall o, 0 <= o < MAXFILE * BSIZE -> fbyte V' i o = fbyte V i o).
Proof using FS Hn Hx.
  intros F. apply file_frame; [done| |intros k _ _ Hb; by rewrite iblock_free by lia]. intros k Hk N.
  destruct (fk_data _ _ _ _ F k Hk N) as (D & _ & _). unfold V', fn_upd. rewrite decide_False; [done|]. by apply (da_inode _ _ _ D).
Qed.
End iblock.

(** Of an inode only size and addresses change; they do not affect slots. *)
Lemma isize_slot V i z k : slot V (set_isize z i) k = slot V i k.
Proof. done. Qed.
Lemma isize_file V sb st i z : file_ok V sb st i -> file_ok V sb st (set_isize z i).
Proof. by intros [H1 H2 H3]. Qed.

Section iupdate.
Context {U : Type} (sb : superblock) (it : list inode) (u : U) (E : txenv) (ip : Z) (Ho : 1 <= te_out E).

Lemma iupdate_wp l G V i :
  tx l E G [] [] V -> fs_ok V sb (te_start E) -> it !! Z.to_nat ip = Some i -> i_dev i = ROOTDEV -> 0 <= i_inum i < sb_ninodes sb ->
  Z.of_nat (length G) < NBUF ->
  wp (iupdate ip) (fun _ s' => exists l', s' = FState l' sb it u /\
    tx l' E (IBLOCK (i_inum i) sb :: G) [] [] (fn_upd V (IBLOCK (i_inum i) sb) (put_dinode i (V (IBLOCK (i_inum i) sb))))) (FState l sb it u).
Proof using Ho.
  intros T FS Hi Hd Hn HG. unfold iupdate. wp_step. apply wp_gets. wp_step. apply wp_gets. rewrite (geti_at _ _ _ _ ip i) by done. rewrite Hd. cbn [f_sb].
  wp_step. apply (s_bread l sb it u _ _ _ _ _ T (IBLOCK (i_inum i) sb)); [apply not_elem_of_nil|by apply (fo_ihome _ _ _ FS)|cbn; lia|]. intros bp l1 T1.
  apply wp_last, (finish_update sb it u E [] Ho l1 G V bp (IBLOCK (i_inum i) sb)); [done|assert (NBUF = LOGBLOCKS) by done; lia|].
  intros l2 T2. wp_step. by exists l2.
Qed.
End iupdate.

(** ** writei *)

Definition fwrite (c : list Z) (off : Z) (d : list Z) : list Z := take (Z.to_nat off) c ++ d ++ drop (Z.to_nat off + length d) c.

Lemma fcontent_lookup V i k : 0 <= i_size i -> fcontent V i !! k = if decide (Z.of_nat k < i_size i) then Some (fbyte V i (Z.of_nat k)) else None.
Proof.
  intros Hs. unfold fcontent. rewrite list_lookup_fmap. destruct (decide _).
  - rewrite lookup_seqZ_lt by lia. cbn. done.
  - rewrite lookup_seqZ_ge by lia. done.
Qed.
Lemma fcontent_length V i : 0 <= i_size i -> length (fcontent V i) = Z.to_nat (i_size i).
Proof. intros Hs. unfold fcontent. by rewrite length_fmap, length_seqZ. Qed.

Lemma fwrite_lookup c off d k : 0 <= off <= Z.of_nat (length c) ->
  fwrite c off d !! k = if decide (off <= Z.of_nat k < off + Z.of_nat (length d)) then d !! (k - Z.to_nat off)%nat else c !! k.
Proof.
  intros Ho. unfold fwrite. destruct (decide _) as [Hin|Hout].
  - rewrite lookup_app_r by (rewrite length_take; lia). rewrite length_take, lookup_app_l by lia. f_equal. lia.
  - destruct (decide (Z.of_nat k < off)) as [Hlt|Hge].
    + rewrite lookup_app_l by (rewrite length_take; lia). apply lookup_take_lt. lia.
    + rewrite lookup_app_r by (rewrite length_take; lia). rewrite length_take, lookup_app_r by lia. rewrite lookup_drop. f_equal. lia.
Qed.

(** The content after the bytes in [off, off + r) were replaced. *)
Lemma fcontent_written V i V' i' off r dat :
  file_full V i -> 0 <= off <= i_size i -> 0 <= r <= Z.of_nat (length dat) -> off + r <= MAXFILE * BSIZE -> i_size i' = Z.max (i_size i) (off + r) ->
  (forall o, 0 <= o < MAXFILE * BSIZE -> fbyte V' i' o = if decide (off <= o < off + r) then nth (Z.to_nat (o - off)) dat 0 else fbyte V i o) ->
  fcontent V' i' = fwrite (fcontent V i) off (take (Z.to_nat r) dat).
Proof.
  intros FF Ho Hr Hmax Es HB. pose proof (ff_size _ _ FF) as Hs. apply list_eq. intros k. rewrite fwrite_lookup by (rewrite fcontent_length; lia).
  rewrite !fcontent_lookup, length_take by lia. rewrite Es.
  destruct (decide (off <= Z.of_nat k < off + Z.of_nat (Z.to_nat r `min` length dat))) as [Hin|Hout].
  - rewrite decide_True by lia. rewrite HB by lia. rewrite decide_True by lia. rewrite lookup_take_lt by lia.
    rewrite nth_lookup. replace (Z.to_nat (Z.of_nat k - off)) with (k - Z.to_nat off)%nat by lia.
    destruct (lookup_lt_is_Some_2 dat (k - Z.to_nat off)) as [x Hx]; [lia|]. by rewrite Hx.
  - destruct (decide (Z.of_nat k < i_size i)) as [Hk|Hk]; [|by rewrite decide_False by lia].
    rewrite decide_True by lia. rewrite HB by lia. by rewrite decide_False by lia.
Qed.

Lemma IBLOCK_eq V sb st n : fs_ok V sb st -> 0 <= n < sb_ninodes sb -> IBLOCK n sb = n / IPB + sb_inodestart sb /\ 0 <= n / IPB.
Proof.
  intros FS Hn. pose proof (fo_inum _ _ _ FS) as [H0 H1]. unfold IBLOCK. change IPB with 16.
  assert (0 <= n / 16 <= n) by (split; [apply Z.div_pos; lia|apply Z.div_le_upper_bound; lia]). rewrite w32_id by lia. lia.
Qed.

Lemma IBLOCK_same V sb st m n : fs_ok V sb st -> 0 <= m < sb_ninodes sb -> 0 <= n < sb_ninodes sb -> IBLOCK m sb = IBLOCK n sb -> m <> n ->
  m mod IPB <> n mod IPB.
Proof.
  intros FS Hm Hn E N Em. destruct (IBLOCK_eq V sb st m FS Hm) as [E1 _], (IBLOCK_eq V sb st n FS Hn) as [E2 _].
  pose proof (Z.div_mod m IPB ltac:(done)). pose proof (Z.div_mod n IPB ltac:(done)). change IPB with 16 in *. lia.
Qed.

(** The inode blocks are none of a file's blocks. *)
Lemma grown_iblock V sb st i V' i' n : fs_ok V sb st -> file_ok V sb st i -> grown V sb i V' i' -> 0 <= n < sb_ninodes sb -> V' (IBLOCK n sb) = V (IBLOCK n sb).
Proof.
  intros FS F Gr Hn. apply (gr_others _ _ _ _ _ Gr).
  - intros Hb. destruct (b_free V sb (IBLOCK n sb)) eqn:Ef; [|done]. destruct (da_inode _ _ _ (fo_free _ _ _ FS (IBLOCK n sb) ltac:(lia) Ef) n Hn). done.
  - intros k Hk E. destruct (IBLOCK_eq V sb st n FS Hn) as [E1 E2]. pose proof (fo_inum _ _ _ FS).
    destruct (fk_data _ _ _ _ F k Hk ltac:(lia)) as (D & _ & _). by apply (da_inode _ _ _ D n Hn).
  - intros c Hc. by apply (fo_ibit _ _ _ FS).
Qed.

(** What writei does: [i] with the blocks [V] becomes [i'] with [V'], and
    [r] bytes of [dat] have been written. *)
Record write_post (E : txenv) (sb : superblock) (G : list Z) (V : Z -> block) (i : inode) (off n : Z) (dat : list Z) (k : Z)
    (r : Z) (l' : lstate) (i' : inode) (V' : Z -> block) (G' : list Z) : Prop := {
  wr_ret : 0 <= r <= n /\ (r = n \/ forall b, 0 <= b < sb_size sb -> b_free V' sb b = false);
  wr_stop : r = n \/ r = 0 \/ (off + r) mod BSIZE = 0;
  wr_tx : tx l' E G' [] [] V';
  wr_log : Z.of_nat (length G') <= Z.of_nat (length G) + k;
  wr_fs : fs_ok V' sb (te_start E);
  wr_file : file_ok V' sb (te_start E) i' /\ file_full V' i';
  wr_content : fcontent V' i' = fwrite (fcontent V i) off (take (Z.to_nat r) dat);
  wr_meta : i' = Inode (i_dev i) (i_inum i) (i_ref i) (i_lock i) (i_valid i) (i_type i) (i_major i) (i_minor i) (i_nlink i) (i_size i') (i_addrs i');
  wr_dinode : get_dinode (V' (IBLOCK (i_inum i) sb)) i' = i';
  wr_inodes : forall m, 0 <= m < sb_ninodes sb -> m <> i_inum i ->
    get_bytes (V' (IBLOCK m sb)) (dinode_off m) DINODE_SIZE = get_bytes (V (IBLOCK m sb)) (dinode_off m) DINODE_SIZE;
  wr_grown : exists V1 i1, grown V sb i V1 i1 /\ (forall b, b <> IBLOCK (i_inum i) sb -> V' b = V1 b) /\ forall a, slot V' i' a = slot V1 i1 a
}.

Section write_all.
Context {U : Type} `{UM : UserMem U}.
Context (sb : superblock) (E : txenv) (ip : Z) (Ho : 1 <= te_out E).

Lemma writei_wp src kbuf dat n P l it u G V i off nb :
  provides sb src kbuf dat n P -> P u -> tx l E G [] [] V -> fs_ok V sb (te_start E) -> file_ok V sb (te_start E) i -> file_full V i ->
  it !! Z.to_nat ip = Some i -> i_dev i = ROOTDEV -> inode_ok i -> i_inum i < sb_ninodes sb ->
  bitmap_block sb ∈ G -> (slot V i NDIRECT = 0 \/ slot V i NDIRECT ∈ G) -> Z.of_nat (length G) + nb + pending V i + 3 <= NBUF ->
  0 <= off <= i_size i -> 0 <= n -> off + n <= MAXFILE * BSIZE -> 0 <= nb <= Z.of_nat (rw_fuel n) -> (0 < n -> off mod BSIZE + n <= BSIZE * nb) ->
  wp (writei ip src kbuf off n) (fun r s' => exists l' i' V' G' u', s' = FState l' sb (<[Z.to_nat ip := i']> it) u' /\
    write_post E sb G V i off n dat (nb + pending V i + 1) r l' i' V' G' /\ P u') (FState l sb it u).
Proof using Ho.
  intros HP Pu T FS F FF Hi Hd IO Hnum HB HI HG Hoff Hn Hmax Hnb Hfit. pose proof (ff_size _ _ FF) as Hs. pose proof (io_inum _ IO) as Hnum0.
  assert (MAXFILE * BSIZE = 274432) as EM by done. pose proof (proj1 HP) as Hdat.
  unfold writei. wp_step. apply wp_gets. rewrite (geti_at _ _ _ _ ip i) by done. rewrite w32_id by lia.
  destruct (Z.ltb_spec (i_size i) off); [lia|]. destruct (Z.ltb_spec (off + n) off); [lia|]. cbn [orb]. destruct (Z.ltb_spec (MAXFILE * BSIZE) (off + n)); [lia|].
  wp_step. eapply wp_mono.
  { apply (writei_loop_wp sb E ip Ho src kbuf dat n P (rw_fuel n) l it u G V i off 0 nb); try done; try lia. }
  intros [tot off'] s1 (l1 & i1 & V1 & G1 & u1 & -> & [Hr1 Hr2 T1 HG1 FS1 F1 Gr1 B1 A1 Hfull Hstop] & Pu1). cbn [fst snd] in *. rewrite Z.sub_0_r in Hr2. subst off'.
  pose proof (gr_inode _ _ _ _ _ Gr1) as Ei1. assert (i_size i1 = i_size i) as Es1 by (by rewrite Ei1).
  assert ((<[Z.to_nat ip := i1]> it : list inode) !! Z.to_nat ip = Some i1) as Hi1 by (apply list_lookup_insert_eq; by eapply lookup_lt_Some).
  wp_step. apply wp_gets. rewrite (geti_at _ _ _ _ ip i1) by done.
  set (i' := set_isize (Z.max (i_size i) (off + tot)) i1).
  assert (wp (when i_size i1 <? off + tot do updi ip (set_isize (off + tot))) (fun _ s => s = FState l1 sb (<[Z.to_nat ip := i']> it) u1)
    (FState l1 sb (<[Z.to_nat ip := i1]> it) u1)) as Hsz.
  { rewrite Es1. destruct (Z.ltb_spec (i_size i) (off + tot)).
    - unfold updi. wp_step. rewrite (geti_at _ _ _ _ ip i1) by done. unfold set_finode. cbn [f_log f_sb f_inode f_user]. rewrite list_insert_insert_eq.
      unfold i'. by rewrite Z.max_r by lia.
    - wp_step. unfold i'. rewrite Z.max_l by lia. rewrite <- Es1. by destruct i1. }
  wp_step. eapply wp_mono; [exact Hsz|]. intros _ s2 ->.
  assert ((<[Z.to_nat ip := i']> it : list inode) !! Z.to_nat ip = Some i') as Hi' by (apply list_lookup_insert_eq; by eapply lookup_lt_Some).
  assert (i_inum i' = i_inum i) as Enum by (unfold i'; by rewrite Ei1).
  assert (0 <= pending V i <= 1) as Hpe by (unfold pending; destruct (_ =? _); lia).
  wp_step. eapply wp_mono; [apply (iupdate_wp sb (<[Z.to_nat ip := i']> it) u1 E ip Ho l1 G1 V1 i'); [done|done|done|unfold i'; by rewrite Ei1|rewrite Enum; lia|lia]|].
  intros _ s3 (l3 & -> & T3). wp_step. rewrite Enum in T3.
  set (x := put_dinode i' _) in T3. exists l3, i', (fn_upd V1 (IBLOCK (i_inum i) sb) x), (IBLOCK (i_inum i) sb :: G1), u1. split_and!; [done| |done].
  assert (inode_ok i') as IO'.
  { destruct IO as [I1 I2 I3 I4 I5 I6 I7]. unfold i'. constructor; cbn [set_isize i_inum i_type i_major i_minor i_nlink i_size i_addrs]; try (by rewrite Ei1); [lia|].
    split; [exact (fk_addrs _ _ _ _ F1)|by eapply file_addrs_ok]. }
  assert (length (V1 (IBLOCK (i_inum i) sb)) = Z.to_nat BSIZE) as Hlen by (apply (fo_ilen _ _ _ FS1); lia).
  destruct (dinode_roundtrip i' _ IO' Hlen) as [RT1 RT2]. fold x in RT1, RT2.
  destruct (put_steps i' _ IO' Hlen) as (_ & _ & _ & _ & _ & Hx). fold x in Hx.
  assert (length x = Z.to_nat BSIZE) as Hx' by done.
  destruct (iblock_file V1 sb (te_start E) (i_inum i) x FS1 ltac:(lia) Hx' i1 F1) as (F3 & Es3 & B3).
  assert (fn_upd V1 (IBLOCK (i_inum i) sb) x (IBLOCK (i_inum i) sb) = x) as EVx by (unfold fn_upd; by rewrite decide_True).
  constructor.
  - split; [lia|]. destruct Hfull as [|Hfull]; [by left|]. right. intros b Hb. rewrite (iblock_free V1 sb (te_start E)) by (done || lia). by apply Hfull.
  - exact Hstop.
  - exact T3.
  - cbn [length]. lia.
  - apply iblock_fs_ok; [done|lia|done].
  - split; [by apply isize_file|]. constructor; [cbn; lia|]. intros bn Hbn Hlt. unfold i'. rewrite isize_slot, Es3. cbn [i' set_isize i_size] in Hlt.
    destruct (decide (bn * BSIZE < i_size i)) as [Hold|Hnew].
    + pose proof (ff_full _ _ FF bn Hbn Hold) as N. rewrite (gr_slots _ _ _ _ _ Gr1); [done|apply dslot_range|done].
      change BSIZE with 1024 in *. change MAXFILE with 268 in *. lia.
    + assert (off <= bn * BSIZE < off + tot) as Hin by lia. specialize (A1 _ Hin). by rewrite Z.div_mul in A1 by done.
  - apply (fcontent_written V i); [done|lia|lia|lia|done|]. intros o Hoo. unfold i'. change (fbyte ?v (set_isize ?z i1) o) with (fbyte v i1 o).
    rewrite B3, B1 by done. by rewrite Z.add_0_l.
  - unfold i'. rewrite Ei1. done.
  - rewrite EVx. exact RT1.
  - intros m Hm Nm. unfold fn_upd. destruct (decide (IBLOCK m sb = IBLOCK (i_inum i) sb)) as [E2|N2].
    + rewrite E2, RT2; [|lia|]. 2: { rewrite Enum. by apply (IBLOCK_same V sb (te_start E)); [|lia|lia| |]. }
      by rewrite (grown_iblock V sb (te_start E) i V1 i1) by (done || lia).
    + by rewrite (grown_iblock V sb (te_start E) i V1 i1) by (done || lia).
  - exists V1, i1. split_and!; [done| |exact Es3]. intros b Nb. unfold fn_upd. by rewrite decide_False.
Qed.
End write_all.

Lemma fcontent_ext V V' i : file_full V i -> (forall o, 0 <= o < MAXFILE * BSIZE -> fbyte V' i o = fbyte V i o) -> fcontent V' i = fcontent V i.
Proof.
  intros FF HB. pose proof (ff_size _ _ FF). apply list_eq. intros k. rewrite !fcontent_lookup by lia. destruct (decide _); [|done]. by rewrite HB by lia.
Qed.

(** ** Reading *)

Lemma bytes_from_slice V i off n : file_full V i -> 0 <= off -> 0 <= n -> off + n < 2 ^ 32 ->
  bytes_from V i off (read_count i off n) = take (Z.to_nat n) (drop (Z.to_nat off) (fcontent V i)).
Proof.
  intros FF Ho Hn Hw. pose proof (ff_size _ _ FF) as Hs. unfold read_count. destruct (Z.leb_spec (2 ^ 32) (off + n)); [lia|]. apply list_eq. intros k.
  destruct (decide (Z.of_nat k < Z.max 0 (Z.min n (i_size i - off)))) as [Hk|Hk].
  - rewrite lookup_take_lt, lookup_drop, fcontent_lookup by lia. rewrite decide_True by lia. apply bytes_from_lookup. split; [done|]. f_equal. lia.
  - assert (bytes_from V i off (Z.max 0 (Z.min n (i_size i - off))) !! k = None) as ->.
    { apply lookup_ge_None. rewrite bytes_from_length; lia. }
    symmetry. apply lookup_ge_None. rewrite length_take, length_drop, fcontent_length by lia. lia.
Qed.
