(* ===== verification/FsDir.v ===== *)
(** * Directories (fs.c)

    The content of a directory is a sequence of 16-byte entries; looking a
    name up in it, and what dirlookup and iget do. *)
From stdpp Require Import base tactics numbers list strings gmap.
From Stdlib Require Import ZArith Lia.
From S2P Require Import Prelude Block Bio BioSpec BioCache Log LogSpec LogCrash LogInv UserMem Fs FsSpec FsFile FsRw FsWrite.

Open Scope Z_scope.

(** ** Names *)

(** The name that 14 bytes hold: those before the first NUL. *)
Fixpoint cname (n : nat) (l : list Z) : list Z :=
  match n with
  | O => []
  | S n => match l with [] => [] | c :: l => if c =? 0 then [] else c :: cname n l end
  end.
Definition dname (l : list Z) : list Z := cname (Z.to_nat DIRSIZ) l.

Lemma strncmp_cname n : forall p q, strncmp_bytes n p q = 0 <-> cname n p = cname n q.
Proof.
  induction n as [|n IH]; intros p q; cbn [strncmp_bytes cname]; [done|].
  destruct p as [|a p], q as [|b q]; cbn [hd tl].
  - done.
  - cbn [Z.eqb orb]. destruct (Z.eqb_spec b 0) as [->|N]; [done|]. split; [lia|done].
  - destruct (Z.eqb_spec a 0) as [->|N]; [done|]. cbn [orb]. destruct (Z.eqb_spec a 0); [done|]. cbn [negb]. split; [lia|done].
  - destruct (Z.eqb_spec a 0) as [->|Na]; cbn [orb].
    + destruct (Z.eqb_spec b 0) as [->|Nb]; [done|]. split; [lia|done].
    + destruct (Z.eqb_spec a b) as [->|Nab]; cbn [negb].
      * destruct (Z.eqb_spec b 0); [done|]. rewrite IH. split; [by intros ->|by intros [=]].
      * split; [lia|]. destruct (b =? 0); [done|]. by intros [=].
Qed.

(** What dirlink stores is the name. *)
Lemma cname_strncpy n m : forall t, (n <= m)%nat -> cname n (strncpy_bytes m t) = cname n t.
Proof.
  revert m. induction n as [|n IH]; intros m t Hm; [done|]. destruct m as [|m]; [lia|]. cbn [strncpy_bytes cname]. destruct t as [|c t]; [done|].
  destruct (Z.eqb_spec c 0); [done|]. f_equal. apply IH. lia.
Qed.
Lemma strncpy_length n : forall t, length (strncpy_bytes n t) = n.
Proof. induction n as [|n IH]; intros t; [done|]. cbn. destruct t; cbn; by rewrite IH. Qed.

(** ** Entries *)

Definition dirent (c : list Z) (k : Z) : list Z := take 16 (drop (Z.to_nat (16 * k)) c).
Definition de_inum (c : list Z) (k : Z) : Z := u16_at (dirent c k) 0.
Definition de_name (c : list Z) (k : Z) : list Z := dname (drop 2 (dirent c k)).
Definition nents (c : list Z) : Z := Z.of_nat (length c) / 16.

(** The first entry with this name: its inode number and its index. *)
Fixpoint dlookup_from (n : nat) (k : Z) (c name : list Z) : option (Z * Z) :=
  match n with
  | O => None
  | S n => if negb (de_inum c k =? 0) && bool_decide (de_name c k = dname name) then Some (de_inum c k, k) else dlookup_from n (k + 1) c name
  end.
Definition dlookup (c name : list Z) : option (Z * Z) := dlookup_from (Z.to_nat (nents c)) 0 c name.

(** The first unused entry, or the end. *)
Fixpoint dslot_from (n : nat) (k : Z) (c : list Z) : Z :=
  match n with O => k | S n => if de_inum c k =? 0 then k else dslot_from n (k + 1) c end.
Definition dfree (c : list Z) : Z := dslot_from (Z.to_nat (nents c)) 0 c.

Lemma dlookup_from_spec n k c name :
  match dlookup_from n k c name with
  | Some (inum, j) => k <= j < k + Z.of_nat n /\ inum = de_inum c j /\ inum <> 0 /\ de_name c j = dname name /\
      forall x, k <= x < j -> de_inum c x = 0 \/ de_name c x <> dname name
  | None => forall x, k <= x < k + Z.of_nat n -> de_inum c x = 0 \/ de_name c x <> dname name
  end.
Proof.
  revert k. induction n as [|n IH]; intros k; cbn [dlookup_from]; [intros; lia|].
  destruct (Z.eqb_spec (de_inum c k) 0) as [E0|N0]; cbn [negb andb];
    [|destruct (bool_decide_reflect (de_name c k = dname name)) as [En|Nn]; cbn [andb]].
  2: split_and!; try done; try lia; intros x Hx; lia.
  all: specialize (IH (k + 1)); destruct (dlookup_from n (k + 1) c name) as [[inum j]|].
  1, 3: destruct IH as (H1 & H2 & H3 & H4 & H5); split_and!; try done; try lia; intros x Hx; destruct (decide (x = k)) as [->|]; [first [by left|by right]|apply H5; lia].
  all: intros x Hx; destruct (decide (x = k)) as [->|]; [first [by left|by right]|apply IH; lia].
Qed.

Lemma dslot_from_spec n k c :
  let j := dslot_from n k c in k <= j <= k + Z.of_nat n /\ (forall x, k <= x < j -> de_inum c x <> 0) /\ (j < k + Z.of_nat n -> de_inum c j = 0).
Proof.
  revert k. induction n as [|n IH]; intros k; cbn [dslot_from]; [split_and!; intros; lia|].
  destruct (Z.eqb_spec (de_inum c k) 0) as [E|N]; [split_and!; (lia || done || (intros; lia))|].
  destruct (IH (k + 1)) as (H1 & H2 & H3). split_and!; [lia|lia| |intros; apply H3; lia].
  intros x Hx. destruct (decide (x = k)) as [->|]; [done|]. apply H2. lia.
Qed.

(** Two lookups in directories that agree on the entries with that name. *)
Lemma dlookup_unique c name r :
  match r with
  | Some (inum, j) => 0 <= j < nents c /\ inum = de_inum c j /\ inum <> 0 /\ de_name c j = dname name /\
      forall x, 0 <= x < j -> de_inum c x = 0 \/ de_name c x <> dname name
  | None => forall x, 0 <= x < nents c -> de_inum c x = 0 \/ de_name c x <> dname name
  end -> dlookup c name = r.
Proof.
  intros H. pose proof (dlookup_from_spec (Z.to_nat (nents c)) 0 c name) as S. fold (dlookup c name) in S.
  assert (0 <= nents c) as Hn by (unfold nents; apply Z.div_pos; lia). rewrite Z.add_0_l, Z2Nat.id in S by done.
  destruct (dlookup c name) as [[i1 j1]|], r as [[i2 j2]|]; [| | |done].
  - destruct S as (S1 & S2 & S3 & S4 & S5), H as (H1 & H2 & H3 & H4 & H5). assert (j1 = j2) as ->; [|congruence].
    destruct (Z.lt_trichotomy j1 j2) as [Hlt|[|Hlt]]; [|done|].
    + destruct (H5 j1); [lia| |done]. congruence. + destruct (S5 j2); [lia| |done]. congruence.
  - destruct S as (S1 & S2 & S3 & S4 & _). destruct (H j1); [lia| |done]. congruence.
  - destruct H as (H1 & H2 & H3 & H4 & _). destruct (S j2); [lia| |done]. congruence.
Qed.

(** ** iget *)

Definition is_inode (dev inum : Z) (x : inode) : Prop := 0 < i_ref x /\ i_dev x = dev /\ i_inum x = inum.
Definition ient (t : list inode) (k : Z) : inode := nth (Z.to_nat k) t inode_zero.

Lemma iget_scan_spec n : forall ip empty dev inum t, 0 <= ip ->
  let r := iget_scan n ip empty dev inum t in
  (r.1 = NULLIP /\ (forall k, ip <= k < ip + Z.of_nat n -> ~ is_inode dev inum (ient t k)) /\
     (r.2 = empty /\ (empty = NULLIP -> forall k, ip <= k < ip + Z.of_nat n -> i_ref (ient t k) <> 0) \/
      empty = NULLIP /\ ip <= r.2 < ip + Z.of_nat n /\ i_ref (ient t r.2) = 0)) \/
  (ip <= r.1 < ip + Z.of_nat n /\ is_inode dev inum (ient t r.1)).
Proof.
  induction n as [|n IH]; intros ip empty dev inum t Hip; cbn [iget_scan].
  - left. cbn. split_and!; [done|intros; lia|]. left. split; [done|intros; lia].
  - fold (ient t ip). destruct (_ && _) eqn:Em.
    + right. cbn [fst]. apply andb_prop in Em as [[E1 E2]%andb_prop E3]. split; [lia|]. unfold is_inode. lia.
    + assert (~ is_inode dev inum (ient t ip)) as Hn.
      { intros (H1 & H2 & H3). apply Z.ltb_lt in H1. apply Z.eqb_eq in H2, H3. rewrite H1, H2, H3 in Em. done. }
      set (e' := if (empty =? NULLIP) && (i_ref (ient t ip) =? 0) then ip else empty).
      specialize (IH (ip + 1) e' dev inum t ltac:(lia)). cbv zeta in IH |- *. set (r := iget_scan n (ip + 1) e' dev inum t) in *.
      destruct IH as [(H1 & H2 & H3)|[H1 H2]]; [left|right; split; [lia|done]].
      split_and!; [done|intros k Hk; destruct (decide (k = ip)) as [->|]; [done|apply H2; lia]|]. unfold e' in H3. unfold NULLIP in *.
      destruct (Z.eqb_spec empty (-1)) as [Ee|Ne], (Z.eqb_spec (i_ref (ient t ip)) 0) as [Er|Nr]; cbn [andb] in H3.
      * destruct H3 as [[E3 _]|H3]; [right|lia]. rewrite E3. split_and!; (done || lia).
      * destruct H3 as [[E3 H4]|(E3 & H4 & H5)]; [left|right; split_and!; (done || lia)]. split; [done|]. intros _ k Hk.
        destruct (decide (k = ip)) as [->|]; [done|]. apply H4; lia.
      * left. destruct H3 as [[E3 _]|H3]; [|lia]. done.
      * left. destruct H3 as [[E3 _]|H3]; [|lia]. done.
Qed.

(** The entry [ip] of the table now has one more reference to inode [inum]. *)
Record referenced (it : list inode) (dev inum ip : Z) (it' : list inode) : Prop := {
  rf_range : 0 <= ip < NINODE;
  rf_is : is_inode dev inum (ient it' ip);
  rf_table : it' = <[Z.to_nat ip := ient it' ip]> it;
  rf_old : (is_inode dev inum (ient it ip) /\ ient it' ip = set_iref (i_ref (ient it ip) + 1) (ient it ip)) \/
    ((forall k, 0 <= k < NINODE -> ~ is_inode dev inum (ient it k)) /\ i_ref (ient it ip) = 0 /\ ient it' ip = set_idev dev inum (ient it ip))
}.
Definition table_room (it : list inode) (dev inum : Z) : Prop :=
  exists k, 0 <= k < NINODE /\ (is_inode dev inum (ient it k) \/ i_ref (ient it k) = 0).

Lemma ient_insert it ip j : length it = Z.to_nat NINODE -> 0 <= ip < NINODE -> ient (<[Z.to_nat ip := j]> it) ip = j.
Proof. intros Hl Hi. unfold ient. rewrite nth_lookup, list_lookup_insert_eq by lia. done. Qed.

Lemma iget_wp {U} dev inum l sb it (u : U) : length it = Z.to_nat NINODE -> table_room it dev inum ->
  wp (iget dev inum) (fun ip s' => exists it', s' = FState l sb it' u /\ referenced it dev inum ip it') (FState l sb it u).
Proof.
  intros Hl [k0 [Hk0 Hroom]]. unfold iget. wp_step. apply wp_gets. cbn [f_inode].
  pose proof (iget_scan_spec (Z.to_nat NINODE) 0 NULLIP dev inum it ltac:(lia)) as HS. cbv zeta in HS. destruct (iget_scan _ _ _ _ _ _) as [f e]. cbn [fst snd] in HS.
  rewrite Z2Nat.id, Z.add_0_l in HS by done. destruct HS as [(Ef & Hno & He)|[Hf Hm]].
  - subst f. cbn [Z.eqb NULLIP negb Pos.eqb]. assert (0 <= e < NINODE /\ i_ref (ient it e) = 0) as [He1 He2].
    { destruct He as [[-> He]|(_ & H1 & H2)]; [|done]. destruct Hroom as [Hr|Hr]; [by destruct (Hno k0)|by destruct (He eq_refl k0)]. }
    destruct (Z.eqb_spec e NULLIP); [unfold NULLIP in *; lia|]. wp_step. unfold updi. wp_step. wp_step. eexists. split; [done|].
    change (geti (FState l sb it u) e) with (ient it e). constructor; [done| | |right].
    + rewrite ient_insert by done. unfold is_inode. cbn. lia. + by rewrite ient_insert. + split_and!; [done|done|by rewrite ient_insert].
  - destruct (Z.eqb_spec f NULLIP); [unfold NULLIP in *; lia|]. cbn [negb]. wp_step. unfold updi. wp_step. wp_step. eexists. split; [done|].
    change (geti (FState l sb it u) f) with (ient it f). destruct Hm as (M1 & M2 & M3). constructor; [done| | |left].
    + rewrite ient_insert by done. unfold is_inode. cbn. lia. + by rewrite ient_insert. + split; [done|by rewrite ient_insert].
Qed.

(** ** dirlookup *)

Section dir.
Context {U : Type} `{UL : UserLaws U}.
Context (sb : superblock) (E : txenv) (dp : Z) (it0 : list inode) (V : Z -> block) (i : inode) (G : list Z).
Context (F : file_ok V sb (te_start E) i) (FF : file_full V i) (Hi : it0 !! Z.to_nat dp = Some i) (Hd : i_dev i = ROOTDEV) (HG : Z.of_nat (length G) < NBUF).
Context (Hdir : i_type i = T_DIR) (H16 : i_size i mod 16 = 0).
Let c := fcontent V i.

Lemma nents_size : nents c = i_size i / 16 /\ i_size i = 16 * nents c.
Proof using FF H16 HG.
  unfold nents, c. pose proof (ff_size _ _ FF). rewrite fcontent_length, Z2Nat.id by lia. split; [done|]. pose proof (Z.div_mod (i_size i) 16 ltac:(lia)). lia.
Qed.

(** Reading entry [k]. *)
Lemma dirent_wp l u k : tx l E G [] [] V -> 0 <= k < nents c ->
  wp (readi dp Kernel (16 * k) DIRENT_SIZE) (fun r s' => exists l', s' = FState l' sb it0 u /\ tx l' E G [] [] V /\ r = (DIRENT_SIZE, dirent c k)) (FState l sb it0 u).
Proof using UL F FF Hi Hd HG H16.
  intros T Hk. destruct nents_size as [_ Es]. pose proof (ff_size _ _ FF) as Hs. change (MAXFILE * BSIZE) with 274432 in Hs.
  eapply wp_mono; [apply (readi_wp sb E dp it0 V i G F FF Hi Hd HG Kernel (16 * k) DIRENT_SIZE l u); [done|done|lia|by unfold DIRENT_SIZE]|].
  intros r s' (l' & u' & -> & T' & [[-> Hu]|[_ []]]). cbn in Hu. subst u'. exists l'. split_and!; [done|done|].
  rewrite bytes_from_slice by (done || unfold DIRENT_SIZE; lia). f_equal. unfold read_count, DIRENT_SIZE. destruct (Z.leb_spec (2 ^ 32) (16 * k + 16)); lia.
Qed.

Lemma dirlookup_loop_wp name fuel : forall l u k, length it0 = Z.to_nat NINODE -> tx l E G [] [] V -> 0 <= k <= nents c -> nents c - k <= Z.of_nat fuel ->
  (forall n, table_room it0 ROOTDEV n) ->
  wp (dirlookup_loop fuel dp name (16 * k)) (fun r s' => exists l' it', s' = FState l' sb it' u /\ tx l' E G [] [] V /\
    match dlookup_from (Z.to_nat (nents c - k)) k c name with
    | None => r = (NULLIP, 0) /\ it' = it0
    | Some (inum, j) => r.2 = 16 * j /\ referenced it0 ROOTDEV inum r.1 it'
    end) (FState l sb it0 u).
Proof using UL F FF Hi Hd HG H16.
  destruct nents_size as [_ Es]. induction fuel as [|fuel IH]; intros l u k Hl T Hk Hf Hroom; cbn [dirlookup_loop]; wp_step; apply wp_gets; rewrite (geti_at _ _ _ _ dp i) by done;
    rewrite Es; destruct (Z.ltb_spec (16 * k) (16 * nents c)) as [Hlt|Hge]; cbn [negb].
  1: lia.
  1, 3: wp_step; exists l, it0; replace (Z.to_nat (nents c - k)) with O by lia; done.
  wp_step. eapply wp_mono; [apply (dirent_wp l u k T); lia|]. intros r s' (l1 & -> & T1 & ->). rewrite Z.eqb_refl. cbn [negb].
  replace (Z.to_nat (nents c - k)) with (S (Z.to_nat (nents c - (k + 1)))) by lia. cbn [dlookup_from]. cbv zeta. fold (de_inum c k).
  replace (16 * k + DIRENT_SIZE) with (16 * (k + 1)) by (unfold DIRENT_SIZE; lia).
  destruct (Z.eqb_spec (de_inum c k) 0) as [E0|N0]; cbn [negb andb]; [apply IH; (done || lia)|].
  destruct (Z.eqb_spec (namecmp name (drop 2 (dirent c k))) 0) as [En|Nn].
  - rewrite bool_decide_true by (symmetry; by apply strncmp_cname). rewrite Hd. wp_step.
    eapply wp_mono; [apply (iget_wp ROOTDEV (de_inum c k) l1 sb it0 u); [done|apply Hroom]|]. intros ip s' (it' & -> & R). wp_step. exists l1, it'. done.
  - rewrite bool_decide_false; [apply IH; (done || lia)|]. intros En. apply Nn. apply strncmp_cname. done.
Qed.

Lemma dirlookup_wp name l u : length it0 = Z.to_nat NINODE -> tx l E G [] [] V -> (forall n, table_room it0 ROOTDEV n) ->
  wp (dirlookup dp name) (fun r s' => exists l' it', s' = FState l' sb it' u /\ tx l' E G [] [] V /\
    match dlookup c name with
    | None => r = (NULLIP, 0) /\ it' = it0
    | Some (inum, j) => r.2 = 16 * j /\ referenced it0 ROOTDEV inum r.1 it'
    end) (FState l sb it0 u).
Proof using UL F FF Hi Hd HG H16 Hdir.
  intros Hl T Hroom. unfold dirlookup. wp_step. apply wp_gets. rewrite (geti_at _ _ _ _ dp i) by done. rewrite Hdir, Z.eqb_refl. cbn [negb].
  destruct nents_size as [En Es]. pose proof (ff_size _ _ FF). assert (0 <= nents c) by lia.
  pose proof (dirlookup_loop_wp name (dir_fuel (i_size i)) l u 0 Hl T) as HL. rewrite Z.sub_0_r in HL. apply HL; [lia| |done].
  unfold dir_fuel. change DIRENT_SIZE with 16. rewrite <- En. lia.
Qed.

(** The first unused entry. *)
Lemma dirlink_slot_wp fuel : forall l u k, tx l E G [] [] V -> 0 <= k <= nents c -> nents c - k <= Z.of_nat fuel ->
  wp (dirlink_slot fuel dp (16 * k)) (fun r s' => exists l', s' = FState l' sb it0 u /\ tx l' E G [] [] V /\
    r = 16 * dslot_from (Z.to_nat (nents c - k)) k c) (FState l sb it0 u).
Proof using UL F FF Hi Hd HG H16.
  destruct nents_size as [_ Es]. induction fuel as [|fuel IH]; intros l u k T Hk Hf; cbn [dirlink_slot]; wp_step; apply wp_gets; rewrite (geti_at _ _ _ _ dp i) by done;
    rewrite Es; destruct (Z.ltb_spec (16 * k) (16 * nents c)) as [Hlt|Hge]; cbn [negb].
  1: lia.
  1, 3: wp_step; exists l; replace (Z.to_nat (nents c - k)) with O by lia; done.
  wp_step. eapply wp_mono; [apply (dirent_wp l u k T); lia|]. intros r s' (l1 & -> & T1 & ->). rewrite Z.eqb_refl. cbn [negb].
  replace (Z.to_nat (nents c - k)) with (S (Z.to_nat (nents c - (k + 1)))) by lia. cbn [dslot_from]. fold (de_inum c k).
  replace (16 * k + DIRENT_SIZE) with (16 * (k + 1)) by (unfold DIRENT_SIZE; lia).
  destruct (Z.eqb_spec (de_inum c k) 0) as [E0|N0]; [wp_step; by exists l1|]. apply IH; (done || lia).
Qed.
End dir.
