(* ===== verification/FsTheorems.v ===== *)
(** * Paths, a small disk, and block allocation

    The specification of path splitting; a disk of 64 blocks on which the
    witnesses of the file-system theorems run (log at 2, inodes at 33, bitmap
    at 46, free blocks from 48 on); the theorems on balloc and paths. *)
From stdpp Require Import base tactics numbers list strings gmap.
From Stdlib Require Import ZArith Lia.
From S2P Require Import Prelude Block Bio BioSpec BioCache Log LogSpec LogCrash LogInv UserMem Fs FsSpec FsFile FsRw FsWrite.

Open Scope Z_scope.

(** ** The reference: split at slashes, drop empty parts, truncate *)

Fixpoint split_on (c : Z) (l : list Z) : list (list Z) :=
  match l with
  | [] => [[]]
  | x :: l =>
      if x =? c then [] :: split_on c l
      else match split_on c l with e :: es => (x :: e) :: es | [] => [[x]] end
  end.

Definition path_elems (p : list Z) : list (list Z) :=
  take (Z.to_nat DIRSIZ) <$> filter (fun e => e <> []) (split_on SLASH p).

(** The C string in a name buffer of DIRSIZ bytes. *)
Fixpoint until_nul (l : list Z) : list Z :=
  match l with [] => [] | c :: l => if c =? 0 then [] else c :: until_nul l end.

(** What a caller that keeps calling skipelem sees, as namex does. *)
Fixpoint skip_all (fuel : nat) (path name : list Z) : list (list Z) :=
  match fuel with
  | O => []
  | S fuel =>
      match skipelem path name with
      | None => []
      | Some (name, rest) => until_nul name :: skip_all fuel rest name
      end
  end.

Lemma split_on_cons c l : exists e es, split_on c l = e :: es.
Proof. destruct l as [|x l]; cbn; [eauto|]. destruct (x =? c); [eauto|]. destruct (split_on c l); eauto. Qed.

Lemma path_elems_slash p : path_elems (SLASH :: p) = path_elems p.
Proof. done. Qed.

Lemma path_elems_skip p : path_elems (skip_slashes p) = path_elems p.
Proof.
  induction p as [|c p IH]; [done|]. cbn [skip_slashes]. destruct (Z.eqb_spec c SLASH) as [->|]; [|done].
  by rewrite IH, path_elems_slash.
Qed.

Lemma skip_slashes_head p c q : skip_slashes p = c :: q -> c <> SLASH.
Proof.
  induction p as [|x p IH]; [done|]. cbn. destruct (Z.eqb_spec x SLASH); [done|]. intros [= <- _]. done.
Qed.

Lemma skip_slashes_length p : (length (skip_slashes p) <= length p)%nat.
Proof. induction p as [|x p IH]; [done|]. cbn. destruct (x =? SLASH); cbn; lia. Qed.

Lemma skip_slashes_forall (P : Z -> Prop) p : Forall P p -> Forall P (skip_slashes p).
Proof. induction 1 as [|x p Hx Hp IH]; cbn; [constructor|]. destruct (x =? SLASH); [done|by constructor]. Qed.

(** The element that span_elem cuts off is the first part of the split. *)
Lemma span_elem_split p e r :
  span_elem p = (e, r) -> p = e ++ r /\ (r = [] \/ exists q, r = SLASH :: q) /\
  split_on SLASH p = e :: match r with [] => [] | _ :: q => split_on SLASH q end.
Proof.
  revert e r. induction p as [|c p IH]; intros e r; cbn; [intros [= <- <-]; auto|].
  destruct (Z.eqb_spec c SLASH) as [->|N].
  - intros [= <- <-]. split_and!; [done|eauto|done].
  - destruct (span_elem p) as [e' r'] eqn:E. intros [= <- <-]. destruct (IH e' r' eq_refl) as (E1 & H2 & E3).
    subst p. split_and!; [done|done|]. by rewrite E3.
Qed.

Lemma path_elems_span p e r :
  span_elem p = (e, r) -> e <> [] -> path_elems p = take (Z.to_nat DIRSIZ) e :: path_elems r.
Proof.
  intros Hs Hne. destruct (span_elem_split p e r Hs) as (_ & Hr & E). unfold path_elems at 1. rewrite E.
  rewrite filter_cons_True by done. cbn [fmap list_fmap]. f_equal.
  destruct Hr as [->|[q ->]]; [done|]. by rewrite path_elems_slash.
Qed.

(** ** The name buffer *)

Lemma until_nul_app e l : Forall (fun c => c <> 0) e -> until_nul (e ++ l) = e ++ until_nul l.
Proof. induction 1 as [|c e Hc He IH]; [done|]. cbn. destruct (Z.eqb_spec c 0); [done|]. by rewrite IH. Qed.

Lemma set_bytes_0 name l : set_bytes name 0 l = l ++ drop (length l) name.
Proof. unfold set_bytes. done. Qed.

Lemma name_after e name :
  length name = Z.to_nat DIRSIZ -> Forall (fun c => c <> 0) e ->
  let len := Z.of_nat (length e) in
  let name' := if DIRSIZ <=? len then set_bytes name 0 (take (Z.to_nat DIRSIZ) e)
               else set_bytes (set_bytes name 0 e) len [0] in
  length name' = Z.to_nat DIRSIZ /\ until_nul name' = take (Z.to_nat DIRSIZ) e.
Proof.
  intros Hl He len name'. assert (DIRSIZ = 14) as ED by done. unfold name', len. destruct (Z.leb_spec DIRSIZ (Z.of_nat (length e))).
  - rewrite set_bytes_0. assert (length (take (Z.to_nat DIRSIZ) e) = Z.to_nat DIRSIZ) as Ht by (rewrite length_take; lia).
    rewrite Ht, drop_ge, app_nil_r by lia. split; [done|].
    rewrite <- (app_nil_r (take _ e)) at 1. rewrite until_nul_app by (by apply Forall_take). by rewrite app_nil_r.
  - rewrite set_bytes_0. split.
    + rewrite set_bytes_length; rewrite ?length_app, ?length_drop; cbn [length]; lia.
    + unfold set_bytes. rewrite Nat2Z.id, take_app_length. cbn [app]. rewrite until_nul_app by done. cbn.
      rewrite app_nil_r, take_ge by lia. done.
Qed.

Lemma skipelem_spec path name :
  length name = Z.to_nat DIRSIZ -> Forall (fun c => c <> 0) path ->
  match skipelem path name with
  | None => path_elems path = []
  | Some (name', rest) => length name' = Z.to_nat DIRSIZ /\ path_elems path = until_nul name' :: path_elems rest /\
      (length rest < length path)%nat /\ Forall (fun c => c <> 0) rest
  end.
Proof.
  intros Hl Hp. unfold skipelem. pose proof (skip_slashes_length path) as Hlen.
  pose proof (skip_slashes_forall _ _ Hp) as Hs. rewrite <- (path_elems_skip path).
  destruct (skip_slashes path) as [|c s] eqn:Es; [done|]. apply skip_slashes_head in Es.
  destruct (span_elem (c :: s)) as [e r] eqn:E. destruct (span_elem_split _ _ _ E) as (E1 & Hr & _).
  assert (e <> []) as Hne.
  { intros ->. cbn in E. destruct (Z.eqb_spec c SLASH); [done|]. by destruct (span_elem s). }
  rewrite E1 in Hs. apply Forall_app in Hs as [He Hr0].
  destruct (name_after e name Hl He) as [Hn Hu]. split_and!; [done| | |by apply skip_slashes_forall].
  - rewrite Hu, path_elems_skip. by apply path_elems_span.
  - pose proof (skip_slashes_length r). apply (f_equal length) in E1. rewrite length_app in E1. cbn [length] in *.
    destruct e; [done|]. cbn [length] in E1. lia.
Qed.

Lemma skip_all_spec fuel path name :
  (length path < fuel)%nat -> length name = Z.to_nat DIRSIZ -> Forall (fun c => c <> 0) path ->
  skip_all fuel path name = path_elems path.
Proof.
  revert path name. induction fuel as [|fuel IH]; intros path name Hf Hl Hp; [lia|]. cbn [skip_all].
  pose proof (skipelem_spec path name Hl Hp) as Hs. destruct (skipelem path name) as [[name' rest]|]; [|done].
  destruct Hs as (Hl' & -> & Hlen & Hr). f_equal. apply IH; [lia|done|done].
Qed.

Definition fs_sb : superblock := Superblock FSMAGIC 64 18 200 31 2 33 46.
Definition fs_bitmap : block := replicate 6 255 ++ replicate (Z.to_nat (BSIZE - 6)) 0.
(** Inode 1 is an empty directory, inode 2 an empty file. *)
Definition empty_inode (n type : Z) : inode := Inode ROOTDEV n 1 true 1 type 0 0 1 0 (replicate 13 0).
Definition fs_disk : gmap Z block :=
  <[33 := put_dinode (empty_inode 2 T_FILE) (put_dinode (empty_inode 1 T_DIR) zero_block)]> {[46 := fs_bitmap]}.
#[export] Instance no_user : UserMem unit := { copyout_user _ _ u := (false, u); copyin_user _ _ u := ([], false, u) }.

(** After the boot, and inside an operation. *)
Definition fs_log0 : lstate := final (initlog ROOTDEV 2) (boot fs_disk).
Definition fs_log : lstate := set_outstanding 1 fs_log0.
Definition fs_demo : fstate unit := FState fs_log fs_sb [] ().

Lemma fs_log0_ok : exists a, log_inv fs_log0 a /\ (forall k, ~ locked a k) /\ lg_n fs_log0 = 0 /\ lg_outstanding fs_log0 = 0 /\ lg_committing fs_log0 = 0 /\
  lg_start fs_log0 = 2 /\ forall b, ~ region 2 b -> view a b = disk_block fs_disk b.
Proof.
  assert (wp (initlog ROOTDEV 2) (fun _ l => exists a, log_inv l a /\ (forall k, ~ locked a k) /\ lg_n l = 0 /\
    lg_outstanding l = 0 /\ lg_committing l = 0 /\ lg_start l = 2 /\ forall b, ~ region 2 b -> view a b = disk_block fs_disk b) (boot fs_disk)) as H.
  { assert (log_empty 2 fs_disk) as HE by (split; by vm_compute). destruct (log_empty_valid _ _ HE) as [V ER].
    eapply wp_mono; [apply (initlog_wp fs_disk 2); [split; done|done]|]. cbv beta.
    intros u l1 (ws & -> & I1 & En & Es & Eo & Ec). eexists. split; [exact I1|]. split_and!; try done.
    - intros k (h & Hk & _). cbn [ac_held] in Hk. by rewrite lookup_empty in Hk.
    - intros b Hb. unfold view. cbn [ac_held ac_disk]. rewrite lookup_empty. rewrite (recovery_disk 2 fs_disk b Hb). by rewrite ER. }
  destruct (final_wp _ _ _ H) as [_ HQ]. exact HQ.
Qed.

Lemma fs_log_ok : exists a, log_inv fs_log a /\ (forall k, ~ locked a k) /\ lg_n fs_log = 0 /\ lg_outstanding fs_log = 1 /\
  lg_start fs_log = 2 /\ forall b, ~ region 2 b -> view a b = disk_block fs_disk b.
Proof.
  destruct fs_log0_ok as (a & I & Hnl & En & _ & _ & Es & HV). exists a. unfold fs_log. generalize dependent fs_log0. intros l I En Es.
  split_and!; [destruct I; by constructor|done|done|done|done|done].
Qed.

Lemma fs_bits : forallb (fun b => bool_decide (b < 48) || bit_clear fs_bitmap b)
  (seqZ 0 64) && forallb (fun b => negb (bit_clear fs_bitmap b)) (seqZ 0 48) = true.
Proof. by vm_compute. Qed.

Lemma fs_demo_bitmap (V : Z -> block) : (forall b, ~ region 2 b -> V b = disk_block fs_disk b) -> bitmap_ok V fs_sb 2.
Proof.
  intros HV. assert (forall b, 0 <= b < 64 -> BBLOCK b fs_sb = 46) as EB.
  { intros b Hb. unfold BBLOCK. change BPB with 8192. rewrite Z.div_small by lia. done. }
  assert (forall b, 0 <= b < 64 -> V (BBLOCK b fs_sb) = fs_bitmap) as EV.
  { intros b Hb. rewrite EB by done. rewrite HV by (unfold region, LOGBLOCKS, MAXOPBLOCKS; lia).
    unfold disk_block, fs_disk. by rewrite lookup_insert_ne, lookup_singleton_eq by lia. }
  constructor; cbn [fs_sb sb_size sb_bmapstart]; [lia|lia| | |].
  - intros b Hb. rewrite EB by done. split; [lia|]. unfold region, LOGBLOCKS, MAXOPBLOCKS. lia.
  - intros b Hb. rewrite EV by done. by vm_compute.
  - intros b Hb. unfold b_free. rewrite EV by done. rewrite Z.mod_small by (change BPB with 8192; lia). intros Hf.
    pose proof fs_bits as [_ F]%andb_prop. rewrite forallb_forall in F. destruct (decide (b < 48)) as [Hlt|Hge].
    + specialize (F b). rewrite Hf in F. cbn in F. exfalso. apply Bool.diff_false_true, F.
      apply list_elem_of_In, elem_of_seqZ. lia.
    + split_and!; [lia|split; [lia|unfold region, LOGBLOCKS, MAXOPBLOCKS; lia]|]. intros c Hc. rewrite EB by done. lia.
Qed.

(** *** An empty file on the small disk *)

Definition flat0 : flat := Flat (fun _ => 0) 4096.

Lemma empty_slot V n type k : slot V (empty_inode n type) k = 0.
Proof. unfold slot. destruct (k <=? NDIRECT); [|done]. unfold iaddr. rewrite nth_lookup. cbn [empty_inode i_addrs]. destruct (replicate 13 0 !! Z.to_nat k) eqn:E; [|done]. by apply lookup_replicate_1 in E as [-> _]. Qed.

Lemma fs_demo_ok (V : Z -> block) : (forall b, ~ region 2 b -> V b = disk_block fs_disk b) -> fs_ok V fs_sb 2.
Proof.
  intros HV. pose proof (fs_demo_bitmap V HV) as B.
  assert (forall n, 0 <= n < 200 -> 33 <= IBLOCK n fs_sb <= 45) as EI.
  { intros n Hn. unfold IBLOCK. change IPB with 16. cbn [fs_sb sb_inodestart]. assert (0 <= n / 16 <= 12) by (split; [apply Z.div_pos; lia|apply Z.lt_succ_r, Z.div_lt_upper_bound; lia]).
    rewrite w32_id by lia. lia. }
  assert (forall c, 0 <= c < 64 -> BBLOCK c fs_sb = 46) as EB.
  { intros c Hc. unfold BBLOCK. change BPB with 8192. rewrite Z.div_small by lia. done. }
  assert (forall b, 0 <= b < 64 -> b_free V fs_sb b = true -> 48 <= b) as Hfree.
  { intros b Hb Hf. destruct (decide (48 <= b)) as [|Hlt]; [done|exfalso]. unfold b_free in Hf. rewrite EB in Hf by done.
    rewrite HV in Hf by (unfold region, LOGBLOCKS, MAXOPBLOCKS; lia). unfold disk_block, fs_disk in Hf. rewrite lookup_insert_ne, lookup_singleton_eq in Hf by lia. cbn [default id] in Hf.
    rewrite Z.mod_small in Hf by (change BPB with 8192; lia). pose proof fs_bits as [_ F]%andb_prop. rewrite forallb_forall in F.
    specialize (F b). rewrite Hf in F. cbn in F. apply Bool.diff_false_true, F, list_elem_of_In, elem_of_seqZ. lia. }
  constructor; [exact B|cbn; unfold BPB, BSIZE; lia| |cbn; lia| | |]; cbn [fs_sb sb_size sb_ninodes].
  - intros b Hb Hf. destruct (bo_free _ _ _ B b Hb Hf) as (Nz & Hh & Hc). constructor; [cbn; lia|done|done|]. cbn. intros n Hn. specialize (EI n Hn). specialize (Hfree b Hb Hf). lia.
  - intros n Hn. specialize (EI n Hn). split; [lia|]. unfold region, LOGBLOCKS, MAXOPBLOCKS. lia.
  - intros n Hn. specialize (EI n Hn). rewrite HV by (unfold region, LOGBLOCKS, MAXOPBLOCKS; lia). unfold disk_block, fs_disk.
    destruct (decide (IBLOCK n fs_sb = 33)) as [->|N]; [by rewrite lookup_insert_eq|]. rewrite lookup_insert_ne, lookup_singleton_ne by lia. done.
  - intros n c Hn Hc. specialize (EI n Hn). rewrite EB by done. lia.
Qed.

Lemma empty_file_ok V st n type : file_ok V fs_sb st (empty_inode n type) /\ file_full V (empty_inode n type).
Proof.
  split; [constructor|constructor]; [done| | |cbn; change (MAXFILE * BSIZE) with 274432; lia|].
  - intros k _. by rewrite empty_slot.
  - intros j k _ _. by rewrite empty_slot.
  - intros bn Hbn Hlt. cbn in Hlt. change BSIZE with 1024 in Hlt. lia.
Qed.

Lemma kernel_provides {U} `{UserMem U} sb (dat : list Z) (u : U) : provides sb Kernel dat dat (Z.of_nat (length dat)) (eq u).
Proof. split; [done|]. intros l it u' tot m <- _ _ _. by exists u. Qed.


Lemma empty_inode_ok n type : 0 <= n -> 0 <= type < 4 -> inode_ok (empty_inode n type).
Proof.
  intros Hn Ht. constructor; cbn; try lia. split; [done|]. repeat (apply Forall_cons; split; [lia|]). by apply Forall_nil.
Qed.

(** ** Block allocation *)

Section alloc.
Context {U : Type}.
Implicit Types s : fstate U.

(** balloc inside a transaction with room for two more blocks returns
    either 0, and then every block is in use and nothing has changed, or the
    number of a block that was free: it is now marked in use and zeroed, the
    marks of all other blocks and the contents of all blocks other than it
    and its bitmap block are unchanged. *)
Theorem balloc_allocates s (a : acache) :
  log_inv (f_log s) a -> (forall k, ~ locked a k) -> lg_n (f_log s) + 2 <= LOGBLOCKS -> 1 <= lg_outstanding (f_log s) ->
  bitmap_ok (view a) (f_sb s) (lg_start (f_log s)) ->
  wp (balloc ROOTDEV) (fun r s' => exists l' a', s' = set_flog l' s /\ log_inv l' a' /\
    if decide (r = 0)
    then (forall b, 0 <= b < sb_size (f_sb s) -> b_free (view a) (f_sb s) b = false) /\ (forall b, view a' b = view a b)
    else 0 < r < sb_size (f_sb s) /\ b_free (view a) (f_sb s) r = true /\
      (forall b, 0 <= b < sb_size (f_sb s) ->
         b_free (view a') (f_sb s) b = if decide (b = r) then false else b_free (view a) (f_sb s) b) /\
      view a' r = zero_block /\
      (forall b, b <> r -> b <> BBLOCK r (f_sb s) -> view a' b = view a b)) s.
Proof.
  destruct s as [l sb it u]. cbn [f_log f_sb]. intros I Hnl Hn Ho B. pose proof (tx_begin l a I Hnl) as T. set (E := TxEnv _ _ _ _ _) in T.
  eapply wp_mono; [apply (balloc_wp sb it u E [] Ho l _ _ T); [rewrite (logged_length l a I); cbn; assert (NBUF = LOGBLOCKS) as EN by done; lia|done|intros; apply not_elem_of_nil|intros; apply not_elem_of_nil]|].
  intros r s' (l' & -> & HP). unfold balloc_post in HP. exists l'. destruct (decide (r = 0)) as [Er|Nr].
  - destruct HP as [Hall [a' [I' _ _ _ _ _ _ _ _ _ _ V']]]. by exists a'.
  - destruct HP as (Hr & Hf & [a' [I' _ _ _ _ _ _ _ _ _ _ V']]). exists a'. destruct (marked_ok _ _ _ r B ltac:(lia) Hf) as [_ Ef].
    split_and!; try done; [lia|lia| | |].
    + intros b Hb. rewrite <- Ef by done. unfold b_free. by rewrite V'.
    + rewrite V'. unfold allocated, fn_upd. by rewrite decide_True.
    + intros b Nb NB. rewrite V'. unfold allocated, marked, fn_upd. by rewrite !decide_False.
Qed.
End alloc.

Lemma balloc_allocates_witness :
  exists a, log_inv (f_log fs_demo) a /\ bitmap_ok (view a) (f_sb fs_demo) 2 /\
  wp (balloc ROOTDEV) (fun r s' => exists l' a', s' = set_flog l' fs_demo /\ log_inv l' a' /\ (r <> 0 -> view a' r = zero_block)) fs_demo.
Proof.
  destruct fs_log_ok as (a & I & Hnl & En & Eo & Es & HV). exists a. split; [exact I|]. pose proof (fs_demo_bitmap (view a) HV) as B.
  split; [exact B|]. eapply wp_mono.
  - apply (balloc_allocates fs_demo a I Hnl).
    + cbn [fs_demo f_log]. rewrite En. done.
    + cbn [fs_demo f_log]. rewrite Eo. done.
    + cbn [fs_demo f_log]. rewrite Es. exact B.
  - intros r s' (l' & a' & E & I' & HP). exists l', a'. split; [exact E|]. split; [exact I'|]. intros Nr.
    rewrite decide_False in HP by exact Nr. apply HP.
Defined.

Section alloc2.
Context {U : Type}.
Implicit Types s : fstate U.

(** Freeing the block that balloc returned gives back the bitmap as it
    was; a second bfree of it panics with "freeing free block". *)
Theorem balloc_bfree_roundtrip s (a : acache) :
  log_inv (f_log s) a -> (forall k, ~ locked a k) -> lg_n (f_log s) + 3 < LOGBLOCKS -> 1 <= lg_outstanding (f_log s) ->
  bitmap_ok (view a) (f_sb s) (lg_start (f_log s)) ->
  wp (r ← balloc ROOTDEV; (when negb (r =? 0) do bfree ROOTDEV r);; mret r) (fun r s' => exists l' a',
    s' = set_flog l' s /\ log_inv l' a' /\
    (forall b, 0 <= b < sb_size (f_sb s) -> b_free (view a') (f_sb s) b = b_free (view a) (f_sb s) b) /\
    (r <> 0 -> bfree ROOTDEV r s' = Panic "freeing free block")) s.
Proof.
  destruct s as [l sb it u]. cbn [f_log f_sb]. intros I Hnl Hn Ho B. pose proof (tx_begin l a I Hnl) as T.
  assert (NBUF = LOGBLOCKS) as EN by done. pose proof (logged_length l a I) as HL. set (E := TxEnv _ _ _ _ _) in T.
  eapply wp_call; [apply (balloc_wp sb it u E [] Ho l _ _ T); [cbn; lia|done|intros; apply not_elem_of_nil|intros; apply not_elem_of_nil]|].
  intros r s1 (l1 & -> & HP). unfold balloc_post in HP. destruct (Z.eqb_spec r 0) as [->|Nr]; cbn [negb].
  - rewrite decide_True in HP by done. destruct HP as [_ [a' [I' _ _ _ _ _ _ _ _ _ _ V']]]. wp_steps. exists l1, a'.
    split_and!; [done|done| |done]. intros b Hb. unfold b_free. by rewrite V'.
  - rewrite decide_False in HP by done. destruct HP as (Hr & Hf & T1). destruct (marked_ok _ _ _ r B ltac:(lia) Hf) as [B1 Ef1].
    assert (b_free (allocated (view a) sb r) sb r = false) as Hu by (rewrite Ef1 by lia; by rewrite decide_True).
    wp_step. eapply wp_mono; [apply (bfree_wp sb it u E [] Ho l1 _ _ r T1); [cbn [length]; lia|done|apply not_elem_of_nil|lia|done]|].
    intros x s2 (l2 & -> & T2). wp_step. pose proof T2 as [a2 [I2 _ _ _ _ _ _ _ _ _ _ V2]].
    assert (forall b, 0 <= b < sb_size sb -> b_free (unmarked (allocated (view a) sb r) sb r) sb b = b_free (view a) sb b) as Eall.
    { intros b Hb. rewrite (unmarked_free _ _ (lg_start l)) by (done || lia). rewrite Ef1 by done. by destruct (decide (b = r)) as [->|]. }
    exists l2, a2. split_and!; [done|done|intros b Hb; rewrite <- Eall by done; unfold b_free; by rewrite V2|]. intros _.
    specialize (Eall r ltac:(lia)). rewrite Hf in Eall. by eapply (bfree_free sb it u E [] l2); [exact T2|cbn [length]; lia|apply (bo_home _ _ _ B r); lia|apply not_elem_of_nil|].
Qed.
End alloc2.

Lemma balloc_bfree_roundtrip_witness :
  exists a, log_inv (f_log fs_demo) a /\
  wp (r ← balloc ROOTDEV; (when negb (r =? 0) do bfree ROOTDEV r);; mret r)
    (fun r s' => r <> 0 -> bfree ROOTDEV r s' = Panic "freeing free block") fs_demo.
Proof.
  destruct fs_log_ok as (a & I & Hnl & En & Eo & Es & HV). exists a. split; [exact I|]. pose proof (fs_demo_bitmap (view a) HV) as B.
  eapply wp_mono.
  - apply (balloc_bfree_roundtrip fs_demo a I Hnl).
    + cbn [fs_demo f_log]. rewrite En. done.
    + cbn [fs_demo f_log]. rewrite Eo. done.
    + cbn [fs_demo f_log]. rewrite Es. exact B.
  - intros r s' (l' & a' & E & I' & _ & HP). exact HP.
Defined.

(** ** Path names *)

(** Calling skipelem until it returns 0 yields exactly the path's
    components: the non-empty parts between slashes, each cut off after
    DIRSIZ bytes; it ends after at most as many calls as the path has bytes. *)
Theorem skipelem_splits_path (path name : list Z) :
  length name = Z.to_nat DIRSIZ -> Forall (fun c => c <> 0) path ->
  skip_all (S (length path)) path name = path_elems path.
Proof. intros Hl Hp. apply skip_all_spec; [lia|done|done]. Qed.

Lemma skipelem_splits_path_witness :
  let p := [47; 47; 97; 47; 98; 98; 47; 47] in
  skip_all (S (length p)) p (replicate (Z.to_nat DIRSIZ) 0) = [[97]; [98; 98]].
Proof.
  intros p. rewrite (skipelem_splits_path p (replicate (Z.to_nat DIRSIZ) 0)).
  - reflexivity.
  - reflexivity.
  - unfold p. repeat constructor; discriminate.
Defined.
