(* ===== verification/FsFileTheorems.v ===== *)
(** * Properties of files *)
From stdpp Require Import base tactics numbers list strings gmap.
From Stdlib Require Import ZArith Lia.
From S2P Require Import Prelude Block Bio BioSpec BioCache Log LogSpec LogCrash LogInv StorageTheorems UserMem Fs FsSpec FsFile FsRw FsWrite FsTheorems.

Open Scope Z_scope.

(** ** Other files *)

(** Two files share no block. *)
Definition disjoint_files (V : Z -> block) (i j : inode) : Prop :=
  forall a b, in_slots a -> in_slots b -> slot V i a <> 0 -> slot V i a <> slot V j b.

(** What a grown file leaves alone. *)
Lemma grown_other V sb st i V' i' j : fs_ok V sb st -> file_ok V sb st i -> grown V sb i V' i' -> file_ok V sb st j -> disjoint_files V i j ->
  file_ok V' sb st j /\ disjoint_files V' i' j /\ (forall k, slot V' j k = slot V j k) /\ forall o, 0 <= o < MAXFILE * BSIZE -> fbyte V' j o = fbyte V j o.
Proof.
  intros FS Fi Gr Fj Dj. assert (forall b, 0 < b < sb_size sb -> b_free V sb b = false -> b_free V' sb b = false) as Hu.
  { intros b Hb Hf. by apply (grown_used V sb i V' i'). }
  destruct (file_frame V V' sb st j Fj) as (F' & Es & HB); [|by intros k _ _; apply Hu|].
  - intros k Hk N. destruct (fk_data _ _ _ _ Fj k Hk N) as (D & Hf & _). apply (gr_others _ _ _ _ _ Gr); [done| |apply D].
    intros a Ha E. apply (Dj a k Ha Hk); [congruence|done].
  - split_and!; [done| |done|done]. intros a b Ha Hb N. rewrite Es. destruct (decide (slot V i a = 0)) as [E0|N0].
    + destruct (gr_new _ _ _ _ _ Gr a Ha E0 N) as [Hr Hf]. intros E. destruct (fk_data _ _ _ _ Fj b Hb ltac:(lia)) as (_ & Hf' & _). congruence.
    + rewrite (gr_slots _ _ _ _ _ Gr a Ha N0). by apply Dj.
Qed.

(** The inode block that writei also changes. *)
Lemma write_other E sb G V i off n dat k r l' i' V' G' j :
  write_post E sb G V i off n dat k r l' i' V' G' -> 0 <= i_inum i < sb_ninodes sb -> fs_ok V sb (te_start E) -> file_ok V sb (te_start E) i ->
  file_ok V sb (te_start E) j -> file_full V j -> disjoint_files V i j ->
  file_ok V' sb (te_start E) j /\ disjoint_files V' i' j /\ fcontent V' j = fcontent V j.
Proof.
  intros W Hn FS F Fj FFj Dj. destruct (wr_grown _ _ _ _ _ _ _ _ _ _ _ _ _ _ W) as (V1 & i1 & Gr & EV & Ea).
  destruct (grown_other V sb (te_start E) i V1 i1 j FS F Gr Fj Dj) as (F1 & D1 & Es1 & B1).
  assert (forall x, file_ok V1 sb (te_start E) x -> forall a, in_slots a -> slot V1 x a <> 0 -> V' (slot V1 x a) = V1 (slot V1 x a)) as HV.
  { intros x Fx a Ha N. apply EV. destruct (fk_data _ _ _ _ Fx a Ha N) as (D & _ & _). by apply (da_inode _ _ _ D). }
  assert (forall b, 0 < b < sb_size sb -> b_free V1 sb b = false -> b_free V' sb b = false) as Hu.
  { intros b Hb Hf. unfold b_free. rewrite EV; [done|]. intros E0. apply (fo_ibit _ _ _ FS (i_inum i) b); [done|lia|done]. }
  destruct (file_frame V1 V' sb (te_start E) j F1 (HV j F1) (fun k _ _ => Hu _)) as (F2 & Es2 & B2).
  split_and!; [done| |].
  - intros a b Ha Hb. rewrite Es2, Ea. by apply D1.
  - rewrite <- (fcontent_ext V V1 j FFj B1). apply fcontent_ext; [|done]. destruct FFj as [H1 H2]. constructor; [done|]. intros bn. rewrite Es1. apply H2.
Qed.

(** ** The theorem *)

(** What a state of the kernel inside a transaction has to satisfy for the
    inode at [ip]: it is locked by the caller and in use, its blocks and the
    disk are in order. *)
Record file_inv (sb : superblock) (E : txenv) (it : list inode) (ip : Z) (V : Z -> block) (i : inode) : Prop := {
  fi_at : it !! Z.to_nat ip = Some i;
  fi_dev : i_dev i = ROOTDEV;
  fi_num : i_inum i < sb_ninodes sb;
  fi_inode : inode_ok i;
  fi_disk : fs_ok V sb (te_start E);
  fi_file : file_ok V sb (te_start E) i;
  fi_full : file_full V i
}.

Lemma file_inv_written E sb G V i off n dat k r l' i' V' G' it ip :
  it !! Z.to_nat ip = Some i -> i_dev i = ROOTDEV -> i_inum i < sb_ninodes sb -> inode_ok i ->
  write_post E sb G V i off n dat k r l' i' V' G' -> file_inv sb E (<[Z.to_nat ip := i']> it) ip V' i'.
Proof.
  intros Hi Hd Hnum IO W.
  assert (i_dev i' = i_dev i /\ i_inum i' = i_inum i /\ i_type i' = i_type i /\ i_major i' = i_major i /\ i_minor i' = i_minor i /\ i_nlink i' = i_nlink i)
    as (E1 & E2 & E3 & E4 & E5 & E6) by (rewrite (wr_meta _ _ _ _ _ _ _ _ _ _ _ _ _ _ W); done).
  destruct W as [_ _ _ _ W4 [W5 W5'] _ _ _ _ _]. pose proof (ff_size _ _ W5') as Hs'. pose proof (io_inum _ IO).
  constructor; [apply list_lookup_insert_eq; by eapply lookup_lt_Some|congruence|lia| |done|done|done].
  destruct IO as [I1 I2 I3 I4 I5 I6 I7]. constructor; rewrite ?E2, ?E3, ?E4, ?E5, ?E6; try done; [change (MAXFILE * BSIZE) with 274432 in Hs'; lia|].
  split; [exact (fk_addrs _ _ _ _ W5)|by eapply file_addrs_ok].
Qed.

Section files.
Context {U : Type} `{UL : UserLaws U}.

(** C25. A file is a sequence of bytes.  Inside a transaction with room for
    the [nb] blocks that the bytes lie in and three more (bitmap, indirect
    block, inode), writei of [n] bytes at [off] never panics, returns the
    number [r] of bytes written, which is [n] unless no block of the disk is
    free any more, and makes the content the old one with the first [r] bytes
    put at [off]; the inode on the disk is the one in memory.  Files that
    share no block with it keep their contents, and still share none.  After
    that, readi of [m] bytes at [off'] delivers exactly that part of the
    content (or -1 when a copy to user memory fails, with nothing outside of
    the user's buffer changed) and changes nothing. *)
Theorem file_write_read sb E it ip V i l (G : list Z) src kbuf dat n (P : U -> Prop) u off nb :
  tx l E G [] [] V -> 1 <= te_out E -> file_inv sb E it ip V i -> provides sb src kbuf dat n P -> P u ->
  0 <= off <= i_size i -> off + n <= MAXFILE * BSIZE -> off mod BSIZE + n <= BSIZE * nb -> nb <= n / BSIZE + 2 -> Z.of_nat (length G) + nb + 5 <= NBUF ->
  wp (writei ip src kbuf off n) (fun r s' => exists l' i' V' G' u', let it' := <[Z.to_nat ip := i']> it in
    s' = FState l' sb it' u' /\ tx l' E G' [] [] V' /\ Z.of_nat (length G') <= Z.of_nat (length G) + nb + 3 /\
    0 <= r <= n /\ (r = n \/ forall b, 0 <= b < sb_size sb -> b_free V' sb b = false) /\
    file_inv sb E it' ip V' i' /\ fcontent V' i' = fwrite (fcontent V i) off (take (Z.to_nat r) dat) /\
    get_dinode (V' (IBLOCK (i_inum i) sb)) i' = i' /\
    (forall j, file_ok V sb (te_start E) j -> file_full V j -> disjoint_files V i j ->
       file_ok V' sb (te_start E) j /\ disjoint_files V' i' j /\ fcontent V' j = fcontent V j) /\
    (forall dst off' m u2, in_user dst m -> 0 <= off' -> 0 <= m -> off' + m < 2 ^ 32 ->
       wp (readi ip dst off' m) (fun q s'' => exists l'' u3, s'' = FState l'' sb it' u3 /\ tx l'' E G' [] [] V' /\
         let c := take (Z.to_nat m) (drop (Z.to_nat off') (fcontent V' i')) in
         (q = (Z.of_nat (length c), c) /\ delivered dst c u2 u3) \/ (q.1 = -1 /\ failed dst m u2 u3)) (FState l' sb it' u2))) (FState l sb it u).
Proof.
  intros T Ho [Hi Hd Hnum IO FS F FF] HP Pu Hoff Hmax Hfit Hnb HG. pose proof (proj1 HP) as Hdat.
  assert (0 <= nb) as Hnb0. { change BSIZE with 1024 in *. pose proof (Z.mod_pos_bound off 1024 ltac:(lia)). lia. }
  assert (0 <= n / BSIZE) by (apply Z.div_pos; [lia|done]).
  set (G0 := used (slot V i NDIRECT) ++ bitmap_block sb :: G).
  assert (Z.of_nat (length G0) + pending V i = Z.of_nat (length G) + 2) as HG0.
  { unfold G0, used, pending. rewrite length_app. destruct (_ =? _); cbn [length]; lia. }
  eapply wp_mono; [apply (writei_wp sb E ip Ho src kbuf dat n P l it u G0 V i off nb); try done|].
  - eapply tx_mono; [exact T|]. unfold G0. set_solver.
  - unfold G0. set_solver.
  - unfold G0, used. destruct (Z.eqb_spec (slot V i NDIRECT) 0); [by left|right; left].
  - lia.
  - lia.
  - split; [done|]. unfold rw_fuel. lia.
  - intros r s' (l' & i' & V' & G' & u' & -> & W & Pu'). exists l', i', V', G', u'. cbv zeta.
    pose proof (file_inv_written _ _ _ _ _ _ _ _ _ _ _ _ _ _ it ip Hi Hd Hnum IO W) as FI. pose proof (io_inum _ IO) as Hnum0.
    pose proof W as [[W1 W1'] _ W2 W3 W4 [W5 W5'] W6 _ W8 _ _].
    split_and!; try done; [lia|lia|lia| |].
    + intros j Fj FFj Dj. eapply write_other; [exact W|lia|done|done|done|done|done].
    + intros dst off' m u2 Hu Hoff' Hm Hw. assert (Z.of_nat (length G') < NBUF) as HG' by lia.
      eapply wp_mono; [apply (readi_wp sb E ip (<[Z.to_nat ip := i']> it) V' i' G' W5 W5' (fi_at _ _ _ _ _ _ FI) (fi_dev _ _ _ _ _ _ FI) HG' dst off' m l' u2); (done || lia)|].
      intros q s'' (l'' & u3 & -> & T'' & HQ). exists l'', u3. split_and!; [done|done|]. cbv zeta in HQ. rewrite bytes_from_slice in HQ by done.
      destruct HQ as [[-> HQ]|HQ]; [left|by right]. split; [|done]. f_equal. rewrite <- bytes_from_slice by done. rewrite bytes_from_length; [|unfold read_count; destruct (_ <=? _); lia].
      rewrite Z2Nat.id; [done|]. unfold read_count. destruct (_ <=? _); lia.
Qed.
End files.

(** ** Writes and crashes *)

(** The file with inode number [n] on a disk that nobody has in memory. *)
Definition disk_inode (D : gmap Z block) (sb : superblock) (n : Z) : inode :=
  get_dinode (disk_block D (IBLOCK n sb)) (Inode ROOTDEV n 0 false 0 0 0 0 0 0 []).
Definition disk_file (D : gmap Z block) (sb : superblock) (n : Z) : list Z := fcontent (disk_block D) (disk_inode D sb n).

(** The content depends on addresses and size, and on blocks outside of the log. *)
Lemma disk_file_eq D sb st V i : fs_ok V sb st -> file_ok V sb st i -> file_full V i -> 0 <= i_inum i < sb_ninodes sb ->
  get_dinode (V (IBLOCK (i_inum i) sb)) i = i -> (forall b, ~ region st b -> disk_block D b = V b) ->
  disk_file D sb (i_inum i) = fcontent V i.
Proof.
  intros FS F FF Hn Hd HD. unfold disk_file. set (j := disk_inode D sb (i_inum i)).
  assert (i_addrs j = i_addrs i /\ i_size j = i_size i) as [Ea Es].
  { unfold j, disk_inode. rewrite HD by apply (fo_ihome _ _ _ FS), Hn. rewrite <- Hd at 3 6. done. }
  assert (forall k, slot (disk_block D) j k = slot V i k) as Ek.
  { intros k. assert (forall W, slot W j k = slot W i k) as -> by (intros W; unfold slot, iaddr; by rewrite Ea). apply slot_ext. intros N. apply HD.
    destruct (fk_data _ _ _ _ F NDIRECT) as (D0 & _ & _); [done|done|]. apply D0. }
  pose proof (ff_size _ _ FF) as Hs. apply list_eq. intros k. rewrite !fcontent_lookup, Es by lia. destruct (decide _) as [Hk|]; [|done]. f_equal.
  unfold fbyte. rewrite Ek. destruct (Z.eqb_spec (slot V i (dslot (Z.of_nat k / BSIZE))) 0); [done|]. rewrite HD; [done|].
  destruct (fk_data _ _ _ _ F (dslot (Z.of_nat k / BSIZE))) as (D0 & _ & _); [|done|apply D0]. apply dslot_range.
  split; [apply Z.div_pos; [lia|done]|]. apply Z.div_lt_upper_bound; [done|]. lia.
Qed.

Section crash.
Context {U : Type} `{UM : UserMem U}.

(** C37. A write to a file is atomic with respect to crashes.  From a state in
    which no operation is under way, begin_op, writei of at most three
    unaligned blocks (what filewrite asks for at a time) and end_op return
    without panicking; afterwards the file on the disk is the old one with
    the [r] bytes written; and if the machine stops after any number of the
    disk writes [ws] that were done (the driver's record of them), the kernel that boots from that disk finds either the old
    content or the new one. *)
Theorem file_write_atomic sb it ip (a : acache) (i : inode) l src kbuf dat n (P : U -> Prop) u off :
  log_inv l a -> (forall k, ~ locked a k) -> lg_n l = 0 -> lg_outstanding l = 0 -> lg_committing l = 0 ->
  file_inv sb (TxEnv (lg_start l) 1 0 (ac_disk a) (ac_writes a)) it ip (view a) i -> get_dinode (view a (IBLOCK (i_inum i) sb)) i = i ->
  provides sb src kbuf dat n P -> P u -> 0 <= off <= i_size i -> off + n <= MAXFILE * BSIZE -> n <= 3 * BSIZE ->
  let old := fcontent (view a) i in
  wp (lg begin_op;; r ← writei ip src kbuf off n; lg end_op;; mret r) (fun r s' => exists ws,
    let D := disk_of l in let new := fwrite old off (take (Z.to_nat r) dat) in
    bs_writes (lg_cache (f_log s')) = bs_writes (lg_cache l) ++ ws /\ disk_of (f_log s') = apply_writes ws D /\ 0 <= r <= n /\
    disk_file D sb (i_inum i) = old /\ disk_file (disk_of (f_log s')) sb (i_inum i) = new /\
    forall k, wp (initlog ROOTDEV (lg_start l)) (fun _ x => disk_file (disk_of x) sb (i_inum i) = old \/ disk_file (disk_of x) sb (i_inum i) = new)
      (boot (apply_writes (take k ws) D))) (FState l sb it u).
Proof.
  intros I Hnl En Eo Ec [Hi Hd Hnum IO FS F FF] Hdi HP Pu Hoff Hmax Hn old. pose proof (io_inum _ IO) as Hnum0. pose proof (proj1 HP) as Hdat.
  wp_step. apply s_lg. unfold begin_op. wp_steps. rewrite Ec, En, Eo. change (negb (0 =? 0)) with false. change (LOGBLOCKS <? 0 + (0 + 1) * MAXOPBLOCKS) with false. cbv iota.
  wp_step. set (l1 := set_outstanding (0 + 1) l). assert (log_inv l1 a) as I1 by (destruct I; by constructor).
  pose proof (tx_begin l1 a I1 Hnl) as T. set (E := TxEnv _ _ _ _ _) in T. assert (E = TxEnv (lg_start l) 1 0 (ac_disk a) (ac_writes a)) as EE by (unfold E; cbn; by rewrite Ec).
  assert (logged l1 = []) as Elog by (unfold logged; cbn; by rewrite En). rewrite Elog, EE in T.
  set (G0 := used (slot (view a) i NDIRECT) ++ [bitmap_block sb]).
  assert (Z.of_nat (length G0) + pending (view a) i = 2) as HG0 by (unfold G0, used, pending; rewrite length_app; by destruct (_ =? _)).
  pose proof (Z.mod_pos_bound off BSIZE ltac:(done)) as Hm. assert (NBUF = 30 /\ BSIZE = 1024) as [EN EB] by done.
  pose proof (Z.div_mod n BSIZE ltac:(done)). pose proof (Z.mod_pos_bound n BSIZE ltac:(done)).
  set (nb := n / BSIZE + 2). assert (0 <= n / BSIZE <= 3) by (split; [apply Z.div_pos; lia|apply Z.div_le_upper_bound; lia]).
  wp_step. eapply wp_mono; [apply (writei_wp sb (TxEnv (lg_start l) 1 0 (ac_disk a) (ac_writes a)) ip ltac:(done) src kbuf dat n P l1 it u G0 (view a) i off nb); try done|].
  - eapply tx_mono; [exact T|]. set_solver.
  - unfold G0. set_solver.
  - unfold G0, used. destruct (Z.eqb_spec (slot (view a) i NDIRECT) 0); [by left|right; left].
  - unfold nb. lia.
  - lia.
  - unfold rw_fuel, nb. lia.
  - intros _. unfold nb. rewrite EB in *. lia.
  - intros r s' (l' & i' & V' & G' & u' & -> & W & Pu'). destruct W as [[W1 _] _ [a' T'] W3 W4 [W5 W5'] W6 W7 W8 _ _].
    destruct T' as [I' Es' Eo' Ec' Ed' Ew' HG' _ Hk' _ _ HV']. cbn [te_start te_out te_com te_disk te_writes] in *.
    assert (i_inum i' = i_inum i) as Enum by (by rewrite W7).
    pose proof (logged_bound l' a' G' I' HG') as Hn'. wp_step. apply s_lg.
    eapply wp_mono; [apply (end_op_wp l' a'); [done|by intros k Hk; apply Hk', elem_of_nil in Hk|unfold nb in *; lia|done|done]|].
    intros v l2 (ws & I2 & _ & _ & _ & Hcr & Haft). wp_step. exists ws. cbn [f_log]. rewrite (log_inv_disk _ _ I2), (log_inv_disk _ _ I), (log_inv_writes _ _ I2), (log_inv_writes _ _ I). rewrite Ed', Ew' in *. cbn [ac_disk].
    assert (forall b, view a b = disk_block (ac_disk a) b) as Hold.
    { intros b. apply (view_clean l a); [done|done|]. unfold logged. rewrite En. apply not_elem_of_nil. }
    assert (forall D, same_home (lg_start l) D (ac_disk a) -> disk_file D sb (i_inum i) = old) as HO.
    { intros D HD. apply (disk_file_eq D sb (lg_start l)); [done|done|done|lia|done|]. intros b Hb. by rewrite Hold, HD. }
    assert (forall D, after l' a' D -> disk_file D sb (i_inum i) = fwrite old off (take (Z.to_nat r) dat)) as HN.
    { intros D HD. unfold old. rewrite <- W6, <- Enum. apply (disk_file_eq D sb (lg_start l)); [done|done|done|lia|by rewrite Enum|]. intros b Hb. rewrite HD by (by rewrite Es'). apply HV'. }
    split_and!; [done|done|lia|lia|by apply HO|by apply HN|]. intros k. destruct (Hcr k) as [Vk HPk]. rewrite Ed', Es' in Vk, HPk.
    eapply wp_mono; [apply initlog_disk; [exact (li_fits _ _ I)|exact Vk]|]. cbv beta. intros v' x (_ & _ & Er & _).
    destruct HPk as [HPk|HPk]; [left; apply HO; by etrans|right; apply HN]. intros b Hb. rewrite <- (HPk b Hb). apply Er. by rewrite <- Es'.
Qed.
End crash.

(** *** An empty file on the small disk *)

Lemma demo_file_inv E V n type : te_start E = 2 -> (forall b, ~ region 2 b -> V b = disk_block fs_disk b) -> 0 <= n < 200 -> 0 <= type < 4 ->
  file_inv fs_sb E [empty_inode n type] 0 V (empty_inode n type).
Proof.
  intros Es HV Hn Ht. destruct (empty_file_ok V (te_start E) n type) as [F FF].
  constructor; [done|done|cbn; lia|apply empty_inode_ok; lia|rewrite Es; by apply fs_demo_ok|done|done].
Qed.

Lemma file_write_read_witness :
  wp (writei 0 Kernel [104; 105] 0 2) (fun r s' => exists l' i' V' u', s' = FState l' fs_sb [i'] u' /\
    fcontent V' i' = take (Z.to_nat r) [104; 105]) (FState fs_log fs_sb [empty_inode 2 T_FILE] flat0).
Proof.
  destruct fs_log_ok as (a & I & Hnl & En & Eo & Es & HV). pose proof (tx_begin fs_log a I Hnl) as T.
  set (E := TxEnv _ _ _ _ _) in T. assert (te_start E = 2) as Est by exact Es.
  pose proof (kernel_provides fs_sb [104; 105] flat0) as HP. change (Z.of_nat (length [104; 105])) with 2 in HP.
  eapply wp_mono; [apply (file_write_read fs_sb E [empty_inode 2 T_FILE] 0 (view a) (empty_inode 2 T_FILE) fs_log (logged fs_log) Kernel [104; 105] [104; 105] 2 (eq flat0) flat0 0 1 T)|].
  - unfold E. cbn [te_out]. rewrite Eo. lia.
  - apply demo_file_inv; [exact Est|exact HV|lia|unfold T_FILE; lia].
  - exact HP.
  - reflexivity.
  - unfold empty_inode. cbn. lia.
  - change (MAXFILE * BSIZE) with 274432. lia.
  - change BSIZE with 1024. rewrite Z.mod_0_l by lia. lia.
  - change BSIZE with 1024. rewrite Z.div_small by lia. lia.
  - rewrite (logged_length fs_log a I), En. change NBUF with 30. lia.
  - intros r s' (l' & i' & V' & G' & u' & -> & _ & _ & _ & _ & _ & Hc & _). exists l', i', V', u'. split; [reflexivity|]. rewrite Hc.
    change (fcontent (view a) (empty_inode 2 T_FILE)) with (@nil Z). unfold fwrite. rewrite take_nil, drop_nil, app_nil_r. reflexivity.
Defined.

Lemma demo_dinode V : (forall b, ~ region 2 b -> V b = disk_block fs_disk b) -> get_dinode (V (IBLOCK 2 fs_sb)) (empty_inode 2 T_FILE) = empty_inode 2 T_FILE.
Proof.
  intros HV. change (IBLOCK 2 fs_sb) with 33. rewrite HV by (unfold region, LOGBLOCKS, MAXOPBLOCKS; lia). unfold disk_block, fs_disk. rewrite lookup_insert_eq. cbn [default id].
  apply dinode_roundtrip; [apply empty_inode_ok; unfold T_FILE; lia|by vm_compute].
Qed.

Lemma file_write_atomic_witness :
  wp (lg begin_op;; r ← writei 0 Kernel [104; 105] 0 2; lg end_op;; mret r) (fun r s' =>
    disk_file (disk_of (f_log s')) fs_sb 2 = take (Z.to_nat r) [104; 105]) (FState fs_log0 fs_sb [empty_inode 2 T_FILE] flat0).
Proof.
  destruct fs_log0_ok as (a & I & Hnl & En & Eo & Ec & Es & HV).
  pose proof (kernel_provides fs_sb [104; 105] flat0) as HP. change (Z.of_nat (length [104; 105])) with 2 in HP.
  eapply wp_mono; [apply (file_write_atomic fs_sb [empty_inode 2 T_FILE] 0 a (empty_inode 2 T_FILE) fs_log0 Kernel [104; 105] [104; 105] 2 (eq flat0) flat0 0 I Hnl En Eo Ec)|].
  - apply demo_file_inv; [exact Es|exact HV|lia|unfold T_FILE; lia].
  - exact (demo_dinode (view a) HV).
  - exact HP.
  - reflexivity.
  - unfold empty_inode. cbn. lia.
  - change (MAXFILE * BSIZE) with 274432. lia.
  - change BSIZE with 1024. lia.
  - intros r s' (ws & _ & _ & _ & _ & Hn & _). change (i_inum (empty_inode 2 T_FILE)) with 2 in Hn. rewrite Hn.
    change (fcontent (view a) (empty_inode 2 T_FILE)) with (@nil Z). unfold fwrite. rewrite take_nil, drop_nil, app_nil_r. reflexivity.
Defined.
