(* ===== verification/FsDirTheorems.v ===== *)
(** * Properties of directories *)
From stdpp Require Import base tactics numbers list strings gmap.
From Stdlib Require Import ZArith Lia.
From S2P Require Import Prelude Block Bio BioSpec BioCache Log LogSpec LogCrash LogInv UserMem Fs FsSpec FsFile FsRw FsWrite FsDir FsTheorems FsFileTheorems.

Open Scope Z_scope.

(** ** Storing an entry *)

Definition new_dirent (name : list Z) (inum : Z) : list Z := le_bytes 2 inum ++ strncpy_bytes (Z.to_nat DIRSIZ) name.

Lemma new_dirent_length name inum : length (new_dirent name inum) = 16%nat.
Proof. unfold new_dirent. rewrite length_app, le_bytes_length, strncpy_length. done. Qed.

Lemma dirent_lookup c k x : 0 <= k -> dirent c k !! x = if decide (x < 16)%nat then c !! (Z.to_nat (16 * k) + x)%nat else None.
Proof. intros Hk. unfold dirent. case_decide; [by rewrite lookup_take_lt, lookup_drop|]. apply lookup_take_ge. lia. Qed.

Section store.
Context (c d : list Z) (j : Z).
Context (H16 : Z.of_nat (length c) = 16 * nents c) (Hd : length d = 16%nat) (Hj : 0 <= j <= nents c).
Let c' := fwrite c (16 * j) d.

Lemma store_length : Z.of_nat (length c') = 16 * Z.max (nents c) (j + 1).
Proof using H16 Hd Hj. unfold c', fwrite. rewrite !length_app, length_take, length_drop. lia. Qed.
Lemma store_nents : nents c' = Z.max (nents c) (j + 1).
Proof using H16 Hd Hj. unfold nents. rewrite store_length. rewrite Z.mul_comm, Z.div_mul by lia. done. Qed.
Lemma store_dirent k : 0 <= k -> dirent c' k = if decide (k = j) then d else dirent c k.
Proof using H16 Hd Hj.
  intros Hk. apply list_eq. intros x. rewrite dirent_lookup by done. unfold c'. destruct (decide (x < 16)%nat) as [Hx|Hx].
  - rewrite fwrite_lookup by lia. rewrite Hd. destruct (decide (k = j)) as [->|N].
    + rewrite decide_True by lia. f_equal. lia.
    + rewrite decide_False by lia. rewrite dirent_lookup by done. by rewrite decide_True.
  - symmetry. destruct (decide (k = j)); [apply lookup_ge_None; lia|]. rewrite dirent_lookup by done. by rewrite decide_False.
Qed.
End store.

(** The directory after an entry was added: the new name is found, others as before. *)
Lemma dlookup_added c name inum : Z.of_nat (length c) = 16 * nents c -> 0 < inum < 2 ^ 16 -> dlookup c name = None ->
  let c' := fwrite c (16 * dfree c) (new_dirent name inum) in
  forall name', dlookup c' name' = if decide (dname name' = dname name) then Some (inum, dfree c) else dlookup c name'.
Proof.
  intros H16 Hn Hnone c' name'. assert (0 <= nents c) as Hn0 by (unfold nents; apply Z.div_pos; lia).
  pose proof (dslot_from_spec (Z.to_nat (nents c)) 0 c) as (S1 & S2 & S3). fold (dfree c) in S1, S2, S3. rewrite Z2Nat.id, Z.add_0_l in S1, S3 by done.
  pose proof (new_dirent_length name inum) as Hd.
  assert (forall k, 0 <= k -> de_inum c' k = if decide (k = dfree c) then inum else de_inum c k) as Ei.
  { intros k Hk. unfold de_inum, c'. rewrite store_dirent by done. destruct (decide _); [|done]. unfold new_dirent, u16_at, get_bytes.
    rewrite drop_0, take_app_length' by (by rewrite le_bytes_length). rewrite le_value_bytes. apply Z.mod_small. lia. }
  assert (forall k, 0 <= k -> de_name c' k = if decide (k = dfree c) then dname name else de_name c k) as En.
  { intros k Hk. unfold de_name, c'. rewrite store_dirent by done. destruct (decide _); [|done]. unfold new_dirent.
    rewrite drop_app_length' by (by rewrite le_bytes_length). by apply cname_strncpy. }
  pose proof (store_nents c (new_dirent name inum) (dfree c) H16 Hd S1) as Ek. fold c' in Ek.
  assert (forall nm, match dlookup c nm with
    | Some (n, j) => 0 <= j < nents c /\ n = de_inum c j /\ n <> 0 /\ de_name c j = dname nm /\ forall x, 0 <= x < j -> de_inum c x = 0 \/ de_name c x <> dname nm
    | None => forall x, 0 <= x < nents c -> de_inum c x = 0 \/ de_name c x <> dname nm end) as Hspec.
  { intros nm. pose proof (dlookup_from_spec (Z.to_nat (nents c)) 0 c nm) as HS. rewrite Z.add_0_l, Z2Nat.id in HS by done. exact HS. }
  apply dlookup_unique. destruct (decide (dname name' = dname name)) as [Enm|Nnm].
  - pose proof (Hspec name) as HS. rewrite Hnone in HS. rewrite Ei, En, !decide_True by (done || lia). split_and!; try done; try lia.
    intros x Hx. rewrite Ei, En by lia. rewrite !decide_False by lia. rewrite Enm. apply HS. lia.
  - pose proof (Hspec name') as HS. destruct (dlookup c name') as [[n j]|].
    + destruct HS as (H1 & H2 & H3 & H4 & H5). assert (j <> dfree c) as Nj. { intros ->. rewrite S3 in H2 by lia. done. }
      rewrite Ei, En, !decide_False by (done || lia). split_and!; try done; try lia. intros x Hx. rewrite Ei, En by lia.
      destruct (decide (x = dfree c)); [right; congruence|]. apply H5. lia.
    + intros x Hx. rewrite Ei, En by lia. destruct (decide (x = dfree c)); [right; congruence|]. apply HS. lia.
Qed.

(** ** iput of a reference that is not the last *)

Lemma iput_keeps {U} l sb (it : list inode) (u : U) ip : length it = Z.to_nat NINODE -> 0 <= ip < NINODE ->
  (2 <= i_ref (ient it ip) \/ i_valid (ient it ip) = 0) ->
  wp (iput ip) (fun _ s' => s' = FState l sb (<[Z.to_nat ip := set_iref (i_ref (ient it ip) - 1) (ient it ip)]> it) u) (FState l sb it u).
Proof.
  intros Hl Hip Hk. unfold iput. wp_step. apply wp_gets. change (geti (FState l sb it u) ip) with (ient it ip).
  assert ((i_ref (ient it ip) =? 1) && negb (i_valid (ient it ip) =? 0) && (i_nlink (ient it ip) =? 0) = false) as ->.
  { destruct Hk as [Hk|Hk]; [by destruct (Z.eqb_spec (i_ref (ient it ip)) 1); [lia|]|]. rewrite Hk. cbn. by rewrite andb_false_r. }
  wp_step. wp_step. unfold updi. by wp_step.
Qed.

(** iget and then iput: only an unused entry may have changed. *)
Lemma reference_dropped it n ip it' dp i : length it = Z.to_nat NINODE -> referenced it ROOTDEV n ip it' -> it !! Z.to_nat dp = Some i -> 0 < i_ref i ->
  (2 <= i_ref (ient it' ip) \/ i_valid (ient it' ip) = 0) /\
  (<[Z.to_nat ip := set_iref (i_ref (ient it' ip) - 1) (ient it' ip)]> it') !! Z.to_nat dp = Some i.
Proof.
  intros Hl [R1 R2 R3 R4] Hi Hr. assert (is_Some (it !! Z.to_nat ip)) as [x Hx] by (apply lookup_lt_is_Some_2; unfold NINODE in *; lia).
  assert (ient it ip = x) as Ex by (unfold ient; by rewrite nth_lookup, Hx).
  rewrite R3, list_insert_insert_eq. rewrite <- R3. destruct R4 as [[M E]|(Hno & Hr0 & E)].
  - split; [left; rewrite E; destruct M as [M _]; cbn; lia|]. rewrite E. cbn [set_iref i_ref]. rewrite Ex.
    assert (set_iref (i_ref x + 1 - 1) (set_iref (i_ref x + 1) x) = x) as ->; [|by rewrite list_insert_id].
    replace (i_ref x + 1 - 1) with (i_ref x) by lia. by destruct x.
  - split; [right; by rewrite E|]. rewrite list_lookup_insert_ne; [done|]. intros Eq. rewrite Eq, Hi in Hx. injection Hx as <-. rewrite Ex in Hr0. lia.
Qed.

(** All reference counts, and all entries in use, are as they were. *)
Definition same_refs (it it' : list inode) : Prop :=
  length it' = length it /\ forall k, 0 <= k < NINODE ->
    i_ref (ient it' k) = i_ref (ient it k) /\ (0 < i_ref (ient it k) -> ient it' k = ient it k).
Lemma reference_returned it n ip it' : length it = Z.to_nat NINODE -> referenced it ROOTDEV n ip it' ->
  same_refs it (<[Z.to_nat ip := set_iref (i_ref (ient it' ip) - 1) (ient it' ip)]> it').
Proof.
  intros Hl [R1 R2 R3 R4]. set (x := set_iref _ _). rewrite R3, list_insert_insert_eq. split; [apply length_insert|]. intros k Hk.
  destruct (decide (k = ip)) as [->|N].
  - rewrite ient_insert by done. unfold x. destruct R4 as [[_ E]|(_ & E0 & E)]; rewrite E; cbn.
    + split; [lia|]. intros _. replace (i_ref (ient it ip) + 1 - 1) with (i_ref (ient it ip)) by lia. by destruct (ient it ip).
    + rewrite E0. split; [lia|]. intros H. lia.
  - assert (ient (<[Z.to_nat ip := x]> it) k = ient it k) as ->; [|done]. unfold ient. rewrite !nth_lookup, list_lookup_insert_ne by lia. done.
Qed.

(** ** The theorem *)

Section dirlink.
Context {U : Type} `{UL : UserLaws U}.

(** A locked directory in a table with a free entry. *)
Record dir_inv (sb : superblock) (E : txenv) (it : list inode) (dp : Z) (V : Z -> block) (i : inode) : Prop := {
  di_file : file_inv sb E it dp V i;
  di_type : i_type i = T_DIR;
  di_size : i_size i mod 16 = 0;
  di_ref : 0 < i_ref i;
  di_table : length it = Z.to_nat NINODE;
  di_room : forall n, table_room it ROOTDEV n
}.

(** C11. A directory is a map from names to inode numbers.  dirlink of a name
    that is there returns -1 and changes nothing: not one block, no reference
    count and no entry of the inode table that is in use.  Of a new name it
    returns 0 and adds exactly that name, in the first unused entry or at the
    end, or it returns -1 because no block is free, with every name as it was;
    in both cases only the size and the block addresses of the directory's own
    entry in the inode table change, and the content of every file that shares
    no block with the directory stays; at most four blocks enter the
    transaction.  dirlookup then finds what the map says: the entry's offset
    and a reference to its inode, or 0. *)
Theorem dirlink_adds sb E it dp V i l (G : list Z) (u : U) name inum :
  tx l E G [] [] V -> 1 <= te_out E -> dir_inv sb E it dp V i -> i_size i + 16 <= MAXFILE * BSIZE -> 0 < inum < 2 ^ 16 -> Z.of_nat (length G) + 6 <= NBUF ->
  let c := fcontent V i in
  wp (dirlink dp name inum) (fun r s' => exists l' it' i' V' G', let c' := fcontent V' i' in
    s' = FState l' sb it' u /\ tx l' E G' [] [] V' /\ Z.of_nat (length G') <= Z.of_nat (length G) + 4 /\ file_inv sb E it' dp V' i' /\
    match dlookup c name with
    | Some _ => r = -1 /\ V' = V /\ G' = G /\ i' = i /\ same_refs it it'
    | None => it' = <[Z.to_nat dp := i']> it /\ i' = Inode (i_dev i) (i_inum i) (i_ref i) (i_lock i) (i_valid i) (i_type i) (i_major i) (i_minor i) (i_nlink i) (i_size i') (i_addrs i') /\
              (forall j, file_ok V sb (te_start E) j -> file_full V j -> disjoint_files V i j ->
                 file_ok V' sb (te_start E) j /\ disjoint_files V' i' j /\ fcontent V' j = fcontent V j) /\
              ((r = 0 /\ (forall name', dlookup c' name' = if decide (dname name' = dname name) then Some (inum, dfree c) else dlookup c name') /\
                forall name', wp (dirlookup dp name') (fun q s'' => exists l'' it'', s'' = FState l'' sb it'' u /\
                  match dlookup c' name' with
                  | None => q = (NULLIP, 0) /\ it'' = it'
                  | Some (n, j) => q.2 = 16 * j /\ referenced it' ROOTDEV n q.1 it''
                  end) s') \/
              (r = -1 /\ c' = c /\ forall b, 0 <= b < sb_size sb -> b_free V' sb b = false))
    end) (FState l sb it u).
Proof.
  intros T Ho [[Hi Hd Hnum IO FS F FF] Hdir H16 Href Hlen Hroom] Hmax Hin HG c. unfold dirlink. assert (Z.of_nat (length G) < NBUF) as HG1 by lia.
  pose proof (ff_size _ _ FF) as Hs.
  wp_step. eapply wp_mono; [apply (dirlookup_wp sb E dp it V i G F FF Hi Hd HG1 Hdir H16 name l u Hlen T Hroom)|].
  intros [ip o] s1 (l1 & it1 & -> & T1 & HL). cbn [fst snd] in *. fold c in HL. destruct (dlookup c name) as [[n k]|] eqn:Ec.
  { destruct HL as [_ R]. pose proof (rf_range _ _ _ _ _ R) as Hr. destruct (Z.eqb_spec ip NULLIP); [unfold NULLIP in *; lia|]. cbn [negb].
    destruct (reference_dropped it n ip it1 dp i Hlen R Hi Href) as [Hk Hi'].
    assert (length it1 = Z.to_nat NINODE) as Hlen1 by (rewrite (rf_table _ _ _ _ _ R), length_insert; done).
    wp_step. eapply wp_mono; [apply (iput_keeps l1 sb it1 u ip Hlen1 Hr Hk)|]. intros _ s2 ->. wp_step.
    eexists l1, _, i, V, G. split; [done|]. split_and!; try done; try lia; try by constructor. by apply (reference_returned it n ip it1). }
  destruct HL as [[= -> ->] ->]. change (NULLIP =? NULLIP) with true. cbn [negb]. wp_step. apply wp_gets. rewrite (geti_at _ _ _ _ dp i) by done.
  destruct (nents_size V i G FF HG1 H16) as [En Es]. fold c in En, Es. assert (0 <= nents c) as Hn0 by lia.
  wp_step. pose proof (dirlink_slot_wp sb E dp it V i G F FF Hi Hd HG1 H16 (dir_fuel (i_size i)) l1 u 0 T1) as HSl.
  fold c in HSl. rewrite Z.sub_0_r in HSl. eapply wp_mono; [apply HSl; [lia|]|].
  { unfold dir_fuel. change DIRENT_SIZE with 16. rewrite <- En. lia. }
  intros off s2 (l2 & -> & T2 & ->). fold (dfree c). fold (new_dirent name inum).
  pose proof (dslot_from_spec (Z.to_nat (nents c)) 0 c) as (S1 & _ & _). fold (dfree c) in S1. rewrite Z2Nat.id, Z.add_0_l in S1 by done.
  set (G0 := used (slot V i NDIRECT) ++ bitmap_block sb :: G).
  assert (Z.of_nat (length G0) + pending V i = Z.of_nat (length G) + 2) as HG0 by (unfold G0, used, pending; rewrite length_app; destruct (_ =? _); cbn [length]; lia).
  pose proof (kernel_provides sb (new_dirent name inum) u) as HP. rewrite new_dirent_length in HP. change (Z.of_nat 16) with DIRENT_SIZE in HP.
  assert (0 <= pending V i <= 1) as Hpe by (unfold pending; destruct (_ =? _); lia).
  assert ((16 * dfree c) mod BSIZE <= 1008) as Hfit.
  { change BSIZE with (16 * 64). rewrite Z.mul_mod_distr_l by lia. pose proof (Z.mod_pos_bound (dfree c) 64 ltac:(lia)). lia. }
  wp_step. eapply wp_mono; [apply (writei_wp sb E dp Ho Kernel _ _ DIRENT_SIZE (eq u) l2 it u G0 V i (16 * dfree c) 1 HP); try done|].
  - eapply tx_mono; [exact T2|]. unfold G0. set_solver.
  - unfold G0. set_solver.
  - unfold G0, used. destruct (Z.eqb_spec (slot V i NDIRECT) 0); [by left|right; left].
  - lia.
  - lia.
  - unfold DIRENT_SIZE. lia.
  - intros _. unfold DIRENT_SIZE. change BSIZE with 1024 in *. lia.
  - intros r s3 (l3 & i' & V' & G' & u' & -> & W & <-). wp_step. exists l3, (<[Z.to_nat dp := i']> it), i', V', G'. cbv zeta. split; [done|].
    pose proof (file_inv_written _ _ _ _ _ _ _ _ _ _ _ _ _ _ it dp Hi Hd Hnum IO W) as FI.
    pose proof (wr_meta _ _ _ _ _ _ _ _ _ _ _ _ _ _ W) as Em.
    assert (forall j, file_ok V sb (te_start E) j -> file_full V j -> disjoint_files V i j ->
      file_ok V' sb (te_start E) j /\ disjoint_files V' i' j /\ fcontent V' j = fcontent V j) as Hoth.
    { pose proof (io_inum _ IO). intros j Fj FFj Dj. eapply write_other; [exact W|lia|done|done|done|done|done]. }
    destruct W as [[W1 Wn] Wst W2 W3 W4 [W5 W5'] W6 _ _ _ _]. split_and!; [exact W2|lia|exact FI|done|exact Em|exact Hoth|].
    fold c in W6. destruct (Z.eqb_spec r DIRENT_SIZE) as [->|Nr]; [left|right].
    + assert (take (Z.to_nat DIRENT_SIZE) (new_dirent name inum) = new_dirent name inum) as Et by (apply take_ge; by rewrite new_dirent_length).
      rewrite Et in W6.
      assert (Z.of_nat (length c) = 16 * nents c) as Hlc by (unfold c; rewrite fcontent_length by lia; fold c; lia).
      assert (i_size i' mod 16 = 0) as H16'.
      { pose proof (store_length c (new_dirent name inum) (dfree c) Hlc (new_dirent_length _ _) S1) as Hl'. rewrite <- W6 in Hl'.
        pose proof (ff_size _ _ W5'). rewrite fcontent_length, Z2Nat.id in Hl' by lia. rewrite Hl', Z.mul_comm. by apply Z.mod_mul. }
      split_and!; [done|rewrite W6; by apply dlookup_added|]. intros name'.
      assert (Z.of_nat (length G') < NBUF) as HG' by lia.
      assert (forall n, table_room (<[Z.to_nat dp := i']> it) ROOTDEV n) as Hroom'.
      { intros n. destruct (Hroom n) as (k & Hk & HR). exists k. split; [done|]. unfold ient in *. rewrite nth_lookup in *.
        destruct (decide (Z.to_nat k = Z.to_nat dp)) as [Ek|Nk]; [|by rewrite list_lookup_insert_ne].
        rewrite Ek in *. rewrite Hi in HR. rewrite list_lookup_insert_eq by (by eapply lookup_lt_Some). cbn [default id] in *. rewrite Em. exact HR. }
      eapply wp_mono; [apply (dirlookup_wp sb E dp _ V' i' G' W5 W5' (fi_at _ _ _ _ _ _ FI) (fi_dev _ _ _ _ _ _ FI) HG' ltac:(by rewrite Em) H16' name' l3 u ltac:(by rewrite length_insert) W2 Hroom')|].
      intros q s'' (l'' & it'' & -> & _ & HQ). by exists l'', it''.
    + split_and!; [done| |by destruct Wn]. rewrite W6. assert (r = 0) as ->.
      { destruct Wst as [|[|Hm]]; [done|done|]. destruct (decide (r = 0)); [done|]. exfalso. unfold DIRENT_SIZE in *. change BSIZE with (16 * 64) in Hm.
        pose proof (Z.div_mod (16 * dfree c + r) (16 * 64) ltac:(lia)). lia. }
      unfold fwrite. cbn [Z.to_nat take app length]. rewrite Nat.add_0_r. apply take_drop.
Qed.
End dirlink.

(** *** The empty directory of the small disk *)

Definition demo_table : list inode := empty_inode 1 T_DIR :: replicate 49 inode_zero.

Lemma demo_dir_inv E V : te_start E = 2 -> (forall b, ~ region 2 b -> V b = disk_block fs_disk b) ->
  dir_inv fs_sb E demo_table 0 V (empty_inode 1 T_DIR).
Proof.
  intros Es HV. destruct (demo_file_inv E V 1 T_DIR Es HV ltac:(lia) ltac:(unfold T_DIR; lia)) as [_ H2 H3 H4 H5 H6 H7].
  constructor; [by constructor|done|done|done|done|]. intros n. exists 1. split; [by unfold NINODE|]. by right.
Qed.

Lemma dirlink_adds_witness :
  wp (dirlink 0 [97] 2) (fun r s' => exists l' it' i' V', s' = FState l' fs_sb it' flat0 /\
    (r = 0 -> dlookup (fcontent V' i') [97] = Some (2, 0))) (FState fs_log fs_sb demo_table flat0).
Proof.
  destruct fs_log_ok as (a & I & Hnl & En & Eo & Es & HV). pose proof (tx_begin fs_log a I Hnl) as T.
  set (E := TxEnv _ _ _ _ _) in T. assert (te_start E = 2) as Est by exact Es.
  eapply wp_mono; [apply (dirlink_adds fs_sb E demo_table 0 (view a) (empty_inode 1 T_DIR) fs_log (logged fs_log) flat0 [97] 2 T)|].
  - unfold E. cbn [te_out]. rewrite Eo. lia.
  - apply demo_dir_inv; [exact Est|exact HV].
  - change (MAXFILE * BSIZE) with 274432. cbn. lia.
  - lia.
  - rewrite (logged_length fs_log a I), En. change NBUF with 30. lia.
  - intros r s' (l' & it' & i' & V' & G' & -> & _ & _ & _ & HR). exists l', it', i', V'. split; [reflexivity|]. intros ->.
    change (fcontent (view a) (empty_inode 1 T_DIR)) with (@nil Z) in HR. change (dlookup [] [97]) with (@None (Z * Z)) in HR. cbv iota in HR.
    destruct HR as (_ & _ & _ & [(_ & HR & _)|(HR & _)]); [|discriminate HR]. rewrite HR, decide_True by reflexivity. reflexivity.
Defined.
