(* ===== verification/FsPath.v ===== *)
(** * Path names (fs.c)

    namex follows a path through the directories on the disk.  The inode
    table holds copies of disk inodes; what namex does to it is to take one
    reference. *)
From stdpp Require Import base tactics numbers list strings gmap.
From Stdlib Require Import ZArith Lia.
From S2P Require Import Prelude Block Bio BioSpec BioCache Log LogSpec LogCrash LogInv UserMem Fs FsSpec FsFile FsRw FsWrite FsDir FsTheorems FsFileTheorems FsDirTheorems.

Open Scope Z_scope.

(** ** The reference: walking the tree on the disk *)

(** Inode [n] as the disk has it. *)
Definition dnode (V : Z -> block) (sb : superblock) (n : Z) : inode :=
  get_dinode (V (IBLOCK n sb)) (Inode ROOTDEV n 1 false 1 0 0 0 0 0 []).
Definition dcontent (V : Z -> block) (sb : superblock) (n : Z) : list Z := fcontent V (dnode V sb n).

(** The inode that the elements of a path lead to from inode [n]; with
    [parent] the directory that the last element is in. *)
Fixpoint follow (V : Z -> block) (sb : superblock) (parent : bool) (n : Z) (elems : list (list Z)) : option Z :=
  match elems with
  | [] => if parent then None else Some n
  | e :: es =>
      if negb (i_type (dnode V sb n) =? T_DIR) then None
      else if parent && bool_decide (es = []) then Some n
      else match dlookup (dcontent V sb n) e with Some (m, _) => follow V sb parent m es | None => None end
  end.

(** A set of inodes in use that contains the root and what its directories
    name. *)
Record tree (V : Z -> block) (sb : superblock) (st : Z) (good : Z -> Prop) : Prop := {
  tr_root : good ROOTINO;
  tr_range : forall n, good n -> 0 <= n < sb_ninodes sb;
  tr_type : forall n, good n -> i_type (dnode V sb n) <> 0;
  tr_nlink : forall n, good n -> i_nlink (dnode V sb n) <> 0;
  tr_dir : forall n, good n -> i_type (dnode V sb n) = T_DIR ->
    file_ok V sb st (dnode V sb n) /\ file_full V (dnode V sb n) /\ i_size (dnode V sb n) mod 16 = 0 /\
    forall name m k, dlookup (dcontent V sb n) name = Some (m, k) -> good m
}.

(** ** The inode table *)

Definition in_itable (k : Z) : Prop := 0 <= k < NINODE.
Definition loaded (V : Z -> block) (sb : superblock) (x : inode) : Prop := get_dinode (V (IBLOCK (i_inum x) sb)) x = x.

Lemma loaded_iref V sb x r : loaded V sb x -> loaded V sb (set_iref r x).
Proof. unfold loaded. intros L. change (set_iref r (get_dinode (V (IBLOCK (i_inum x) sb)) x) = set_iref r x). by rewrite L. Qed.
Lemma loaded_ilock V sb x r : loaded V sb x -> loaded V sb (set_ilock r x).
Proof. unfold loaded. intros L. change (set_ilock r (get_dinode (V (IBLOCK (i_inum x) sb)) x) = set_ilock r x). by rewrite L. Qed.
Lemma loaded_get V sb x r : loaded V sb (set_ivalid r (get_dinode (V (IBLOCK (i_inum x) sb)) x)).
Proof. done. Qed.
(** A loaded entry has the fields of the disk inode. *)
Lemma loaded_fields V sb x : loaded V sb x -> let y := dnode V sb (i_inum x) in
  i_type x = i_type y /\ i_nlink x = i_nlink y /\ i_size x = i_size y /\ i_addrs x = i_addrs y.
Proof. intros L. rewrite <- L. done. Qed.

Section table.
Context (V : Z -> block) (sb : superblock) (st : Z) (good : Z -> Prop) (FS : fs_ok V sb st) (TR : tree V sb st good).

(** An entry in use is the only one for its inode, and a copy of it when it is
    valid; [lk] is the entry that is locked. *)
Record table_ok (it : list inode) (lk : Z) : Prop := {
  tb_length : length it = Z.to_nat NINODE;
  tb_lock : forall k, in_itable k -> i_lock (ient it k) = (k =? lk);
  tb_ref : forall k, in_itable k -> 0 <= i_ref (ient it k);
  tb_used : forall k, in_itable k -> 0 < i_ref (ient it k) -> i_dev (ient it k) = ROOTDEV /\ good (i_inum (ient it k)) /\
    (i_valid (ient it k) <> 0 -> loaded V sb (ient it k));
  tb_one : forall j k, in_itable j -> in_itable k -> 0 < i_ref (ient it j) -> 0 < i_ref (ient it k) -> i_inum (ient it j) = i_inum (ient it k) -> j = k
}.

(** The references of [it] are those of [it0] and [d] more; entries in use
    are for the same inodes. *)
Definition refs (it0 it : list inode) (d : Z -> Z) : Prop :=
  forall k, in_itable k -> i_ref (ient it k) = i_ref (ient it0 k) + d k /\
    (0 < i_ref (ient it0 k) -> i_dev (ient it k) = i_dev (ient it0 k) /\ i_inum (ient it k) = i_inum (ient it0 k)).
Definition at_ip (ip k : Z) : Z := if k =? ip then 1 else 0.

Lemma ient_ne it ip j k : 0 <= ip -> 0 <= k -> k <> ip -> ient (<[Z.to_nat ip := j]> it) k = ient it k.
Proof. intros. unfold ient. rewrite !nth_lookup, list_lookup_insert_ne by lia. done. Qed.
Lemma ient_upd it ip j k : length it = Z.to_nat NINODE -> in_itable ip -> in_itable k -> ient (<[Z.to_nat ip := j]> it) k = if k =? ip then j else ient it k.
Proof. intros Hl Hi Hk. destruct (Z.eqb_spec k ip) as [->|N]; [by apply ient_insert|]. unfold in_itable in *. apply ient_ne; lia. Qed.
Lemma ient_at it k : length it = Z.to_nat NINODE -> in_itable k -> it !! Z.to_nat k = Some (ient it k).
Proof.
  intros Hl Hk. assert (is_Some (it !! Z.to_nat k)) as [x Hx] by (apply lookup_lt_is_Some_2; unfold in_itable, NINODE in *; lia).
  rewrite Hx. f_equal. unfold ient. by rewrite nth_lookup, Hx.
Qed.

(** An entry replaced by one for the same inode. *)
Lemma table_upd it lk lk' ip x : table_ok it lk -> in_itable ip -> i_lock x = (ip =? lk') -> (forall k, in_itable k -> k <> ip -> (k =? lk') = (k =? lk)) ->
  0 <= i_ref x -> (0 < i_ref x -> 0 < i_ref (ient it ip)) -> i_dev x = i_dev (ient it ip) -> i_inum x = i_inum (ient it ip) ->
  (0 < i_ref x -> i_valid x <> 0 -> loaded V sb x) -> table_ok (<[Z.to_nat ip := x]> it) lk'.
Proof using Type.
  intros [H1 H2 H3 H4 H5] Hip Hl Hlk Hr Hr' Hd Hn Hv. constructor; [by rewrite length_insert|..].
  - intros k Hk. rewrite ient_upd by done. destruct (Z.eqb_spec k ip) as [->|N]; [done|]. by rewrite Hlk, H2.
  - intros k Hk. rewrite ient_upd by done. destruct (k =? ip); [done|by apply H3].
  - intros k Hk. rewrite ient_upd by done. destruct (Z.eqb_spec k ip) as [->|N]; [|by apply H4]. intros Hx. rewrite Hd, Hn. destruct (H4 ip Hip (Hr' Hx)) as (D & G & _). auto.
  - intros j k Hj Hk. rewrite !ient_upd by done. destruct (Z.eqb_spec j ip) as [->|Nj], (Z.eqb_spec k ip) as [->|Nk]; [done|..].
    + intros A B C. apply H5; try done; [by apply Hr'|congruence].
    + intros A B C. apply H5; try done; [by apply Hr'|congruence].
    + by apply H5.
Qed.
Lemma refs_upd it0 it ip x d d' : length it = Z.to_nat NINODE -> in_itable ip -> refs it0 it d -> i_ref x = i_ref (ient it ip) + d' -> i_dev x = i_dev (ient it ip) -> i_inum x = i_inum (ient it ip) ->
  refs it0 (<[Z.to_nat ip := x]> it) (fun k => d k + d' * at_ip ip k).
Proof using Type.
  intros Hl Hip R Hr Hd Hn k Hk. rewrite ient_upd by done. unfold at_ip. destruct (R k Hk) as [R1 R2]. destruct (Z.eqb_spec k ip) as [->|N].
  - rewrite Hr, Hd, Hn. split; [lia|done].
  - split; [lia|done].
Qed.

(** iget of an inode of the tree *)
Lemma referenced_ok it lk n ip it' : table_ok it lk -> good n -> (lk = NULLIP \/ 0 < i_ref (ient it lk)) -> referenced it ROOTDEV n ip it' -> table_ok it' lk.
Proof using Type.
  intros T Hg Hlk [R1 (R2 & R2' & R2'') R3 R4]. pose proof T as [H1 H2 H3 H4 H5]. rewrite R3. set (x := ient it' ip) in *. destruct R4 as [[M E]|(Hno & Hr & E)].
  - apply (table_upd it lk); try done; rewrite E; cbn; try done.
    + by apply H2. + pose proof (H3 ip R1). lia. + intros _. apply M.
    + intros _ Hv. destruct (H4 ip R1 (proj1 M)) as (_ & _ & L). by apply loaded_iref, L.
  - constructor; [by rewrite length_insert|..].
    + intros k Hk. rewrite ient_upd by done. destruct (Z.eqb_spec k ip) as [->|N]; [|by apply H2]. rewrite E. cbn. by apply H2.
    + intros k Hk. rewrite ient_upd by done. destruct (k =? ip); [lia|by apply H3].
    + intros k Hk. rewrite ient_upd by done. destruct (Z.eqb_spec k ip) as [->|N]; [|by apply H4]. intros _. rewrite R2', R2''. split_and!; [done|done|]. rewrite E. by cbn.
    + intros j k Hj Hk. rewrite !ient_upd by done. destruct (Z.eqb_spec j ip) as [->|Nj], (Z.eqb_spec k ip) as [->|Nk]; [done|..].
      * rewrite R2''. intros _ A B. destruct (Hno k Hk). split_and!; [done|by apply H4|done].
      * rewrite R2''. intros A _ B. destruct (Hno j Hj). split_and!; [done|by apply H4|done].
      * by apply H5.
Qed.
Lemma referenced_refs it0 it lk d n ip it' : table_ok it lk -> refs it0 it d -> (forall k, in_itable k -> 0 <= d k) -> referenced it ROOTDEV n ip it' -> refs it0 it' (fun k => d k + at_ip ip k) /\ i_inum (ient it' ip) = n.
Proof using Type.
  intros T R Hd [R1 (R2 & R2' & R2'') R3 R4]. split; [|done]. intros k Hk. pose proof (R k Hk) as [A B]. rewrite R3. rewrite ient_upd by (done || apply T). unfold at_ip.
  destruct (Z.eqb_spec k ip) as [->|N]; [|split; [lia|done]]. destruct R4 as [[M E]|(Hno & Hr & E)]; rewrite E; cbn.
  - split; [lia|done].
  - pose proof (Hd ip Hk). split; [lia|]. intros C. lia.
Qed.
End table.

(** ** Elements of a path as names *)

Lemma cname_until n l : (length l <= n)%nat -> cname n l = until_nul l.
Proof. revert l. induction n as [|n IH]; intros [|c l] Hl; cbn in *; [done|lia|done|]. destruct (c =? 0); [done|]. rewrite IH by lia. done. Qed.
Lemma until_length l : (length (until_nul l) <= length l)%nat.
Proof. induction l as [|c l IH]; cbn; [done|]. destruct (c =? 0); cbn; lia. Qed.
Lemma until_idem l : until_nul (until_nul l) = until_nul l.
Proof. induction l as [|c l IH]; [done|]. cbn. destruct (Z.eqb_spec c 0) as [|N]; [done|]. cbn. destruct (Z.eqb_spec c 0); [done|]. by rewrite IH. Qed.
(** The buffer and the element it holds are the same name. *)
Lemma dname_elem name : length name = Z.to_nat DIRSIZ -> dname name = until_nul name /\ dname (until_nul name) = until_nul name.
Proof.
  intros Hl. unfold dname. split; [apply cname_until; lia|]. rewrite cname_until; [apply until_idem|]. pose proof (until_length name). lia.
Qed.
Lemma dlookup_name c a b : dname a = dname b -> dlookup c a = dlookup c b.
Proof.
  intros Eab. unfold dlookup. generalize (Z.to_nat (nents c)), 0. intros n. induction n as [|n IH]; intros k; [done|]. cbn [dlookup_from]. by rewrite Eab, IH.
Qed.

Lemma skipelem_rest path name name' rest : skipelem path name = Some (name', rest) -> path_elems rest = [] -> rest = [].
Proof.
  unfold skipelem. destruct (skip_slashes path); [done|]. destruct (span_elem _) as [e r]. intros [= _ <-] He. destruct (skip_slashes r) as [|c q] eqn:Er; [done|].
  pose proof (skip_slashes_head _ _ _ Er) as Nc. destruct (span_elem (c :: q)) as [e' r'] eqn:Es. rewrite (path_elems_span _ _ _ Es) in He; [done|].
  intros ->. cbn in Es. destruct (Z.eqb_spec c SLASH); [done|]. by destruct (span_elem q).
Qed.

(** Two inodes with the same blocks and size are the same file. *)
Lemma same_file V sb st x y : i_addrs x = i_addrs y -> i_size x = i_size y -> file_ok V sb st y -> file_full V y ->
  file_ok V sb st x /\ file_full V x /\ fcontent V x = fcontent V y.
Proof.
  intros Ea Es [F1 F2 F3] [G1 G2]. assert (forall k, slot V x k = slot V y k) as Ek by (intros k; unfold slot, iaddr; by rewrite Ea). split_and!.
  - constructor; [by rewrite Ea|intros k; rewrite Ek; apply F2|intros j k; rewrite !Ek; apply F3].
  - constructor; [by rewrite Es|intros bn; rewrite Ek, Es; apply G2].
  - unfold fcontent. rewrite Es. apply list_fmap_ext. intros k o _. unfold fbyte. by rewrite Ek.
Qed.

(** ** ilock, iunlock and iput *)

Section calls.
Context {U : Type} `{UL : UserLaws U}.
Context (sb : superblock) (E : txenv) (V : Z -> block) (G : list Z) (good : Z -> Prop).
Context (FS : fs_ok V sb (te_start E)) (TR : tree V sb (te_start E) good) (HG : Z.of_nat (length G) < NBUF).
Abbreviation table it lk := (table_ok V sb good it lk).

Lemma updi_wp l it (u : U) ip f (Q : unit -> fstate U -> Prop) : Q () (FState l sb (<[Z.to_nat ip := f (ient it ip)]> it) u) -> wp (updi ip f) Q (FState l sb it u).
Proof using Type. intros H. unfold updi. by wp_step. Qed.

(** The entry [ip] is locked and has been read from the disk. *)
Definition held_inode (it : list inode) (ip : Z) : Prop :=
  in_itable ip /\ 0 < i_ref (ient it ip) /\ i_valid (ient it ip) <> 0 /\ loaded V sb (ient it ip).

Lemma ilock_wp l it (u : U) ip : tx l E G [] [] V -> table it NULLIP -> in_itable ip -> 0 < i_ref (ient it ip) ->
  wp (ilock ip) (fun _ s' => exists l' x, s' = FState l' sb (<[Z.to_nat ip := x]> it) u /\ tx l' E G [] [] V /\
    i_ref x = i_ref (ient it ip) /\ i_dev x = i_dev (ient it ip) /\ i_inum x = i_inum (ient it ip) /\
    table (<[Z.to_nat ip := x]> it) ip /\ held_inode (<[Z.to_nat ip := x]> it) ip) (FState l sb it u).
Proof using FS TR HG.
  intros T TB Hip Hr. pose proof TB as [H1 H2 H3 H4 H5]. destruct (H4 ip Hip Hr) as (Hd & Hg & Hv). pose proof (tr_range _ _ _ _ TR _ Hg) as Hn.
  assert (NULLIP = -1) as EN by done. unfold in_itable in Hip.
  assert (forall x, i_lock x = true -> i_ref x = i_ref (ient it ip) -> i_dev x = i_dev (ient it ip) -> i_inum x = i_inum (ient it ip) -> i_valid x <> 0 -> loaded V sb x ->
    table (<[Z.to_nat ip := x]> it) ip /\ held_inode (<[Z.to_nat ip := x]> it) ip) as HK.
  { intros x A B C D F L. split.
    - apply (table_upd V sb good it NULLIP); try done; [by rewrite Z.eqb_refl| |lia]. intros k Hk Nk. unfold in_itable in Hk. destruct (Z.eqb_spec k ip), (Z.eqb_spec k NULLIP); (done || lia).
    - unfold held_inode. rewrite ient_insert by done. split_and!; [done..|lia|done|done]. }
  unfold ilock. wp_step. apply wp_gets. change (geti (FState l sb it u) ip) with (ient it ip). destruct (Z.eqb_spec ip NULLIP); [lia|]. destruct (Z.ltb_spec (i_ref (ient it ip)) 1); [lia|]. cbn [orb].
  wp_step. unfold acquiresleep_inode. wp_step. apply wp_gets. change (geti (FState l sb it u) ip) with (ient it ip). rewrite (H2 ip) by done. destruct (Z.eqb_spec ip NULLIP); [lia|].
  apply updi_wp. set (x1 := set_ilock true (ient it ip)). wp_step. apply wp_gets. rewrite (geti_at _ _ _ _ ip x1) by (apply list_lookup_insert_eq; unfold NINODE in *; lia).
  change (i_valid x1) with (i_valid (ient it ip)). change (i_dev x1) with (i_dev (ient it ip)). change (i_inum x1) with (i_inum (ient it ip)). destruct (Z.eqb_spec (i_valid (ient it ip)) 0) as [E0|N0].
  2: { wp_step. exists l, x1. split_and!; try done; (apply HK; try done; by apply loaded_ilock, Hv). }
  rewrite Hd. wp_step. apply wp_gets. cbn [f_sb]. wp_step. eapply s_bread; [exact T|set_solver|by apply (fo_ihome _ _ _ FS)|cbn; lia|]. intros b l1 T1.
  wp_step. eapply s_bdata; [exact T1|left|]. wp_step. apply updi_wp. rewrite ient_insert, list_insert_insert_eq by done.
  wp_step. eapply s_brelse; [exact T1|done|set_solver|]. intros l2 T2. wp_step. apply updi_wp. rewrite ient_insert, list_insert_insert_eq by done.
  set (x2 := set_ivalid 1 _). wp_step. apply wp_gets. rewrite (geti_at _ _ _ _ ip x2) by (apply list_lookup_insert_eq; unfold NINODE in *; lia).
  assert (loaded V sb x2) as L by apply (loaded_get V sb x1 1). destruct (loaded_fields V sb x2 L) as (Ht & _). change (i_inum x2) with (i_inum (ient it ip)) in Ht.
  destruct (Z.eqb_spec (i_type x2) 0) as [Et|Nt]; [by destruct (tr_type _ _ _ _ TR _ Hg); rewrite <- Ht|]. wp_step. exists l2, x2. split_and!; try done; (apply HK; done).
Qed.

Lemma iunlock_wp l it (u : U) ip : table it ip -> in_itable ip -> 0 < i_ref (ient it ip) ->
  wp (iunlock ip) (fun _ s' => s' = FState l sb (<[Z.to_nat ip := set_ilock false (ient it ip)]> it) u) (FState l sb it u).
Proof using TR HG.
  intros TB Hip Hr. unfold iunlock. wp_step. apply wp_gets. change (geti (FState l sb it u) ip) with (ient it ip). rewrite (tb_lock _ _ _ _ _ TB ip Hip), Z.eqb_refl.
  unfold in_itable in Hip. destruct (Z.eqb_spec ip NULLIP); [unfold NULLIP in *; lia|]. destruct (Z.ltb_spec (i_ref (ient it ip)) 1); [lia|]. cbn [orb negb]. by apply updi_wp.
Qed.

Lemma iput_linked l it (u : U) ip : in_itable ip -> i_valid (ient it ip) = 0 \/ i_nlink (ient it ip) <> 0 ->
  wp (iput ip) (fun _ s' => s' = FState l sb (<[Z.to_nat ip := set_iref (i_ref (ient it ip) - 1) (ient it ip)]> it) u) (FState l sb it u).
Proof using TR HG.
  intros Hip Hk. unfold iput. wp_step. apply wp_gets. change (geti (FState l sb it u) ip) with (ient it ip).
  assert ((i_ref (ient it ip) =? 1) && negb (i_valid (ient it ip) =? 0) && (i_nlink (ient it ip) =? 0) = false) as ->.
  { destruct Hk as [->|Hk]; [by rewrite andb_false_r|]. destruct (Z.eqb_spec (i_nlink (ient it ip)) 0); [done|]. by rewrite andb_false_r. }
  wp_step. wp_step. by apply updi_wp.
Qed.

(** A valid entry of the tree has links. *)
Lemma table_linked it lk ip : table it lk -> in_itable ip -> 0 < i_ref (ient it ip) -> i_valid (ient it ip) = 0 \/ i_nlink (ient it ip) <> 0.
Proof using TR HG.
  intros TB Hip Hr. destruct (tb_used _ _ _ _ _ TB ip Hip Hr) as (_ & Hg & Hv). destruct (Z.eq_dec (i_valid (ient it ip)) 0) as [|N]; [by left|right].
  destruct (loaded_fields V sb _ (Hv N)) as (_ & -> & _). by apply (tr_nlink _ _ _ _ TR).
Qed.

(** Giving a reference back. *)
Lemma iput_table l it0 it (u : U) ip d : table it NULLIP -> in_itable ip -> 0 < i_ref (ient it ip) -> refs it0 it d ->
  wp (iput ip) (fun _ s' => exists it', s' = FState l sb it' u /\ table it' NULLIP /\ refs it0 it' (fun k => d k - at_ip ip k) /\
    forall k, in_itable k -> i_inum (ient it' k) = i_inum (ient it k)) (FState l sb it u).
Proof using TR HG.
  intros TB Hip Hr R. eapply wp_mono; [apply iput_linked; [done|by eapply table_linked]|]. intros _ s' ->. eexists. split; [done|]. pose proof (tb_length _ _ _ _ _ TB) as Hl. split_and!.
  - destruct (tb_used _ _ _ _ _ TB ip Hip Hr) as (_ & _ & Hv). apply (table_upd V sb good it NULLIP); try done; cbn; [by apply (tb_lock _ _ _ _ _ TB)|lia|]. intros _ N. by apply loaded_iref, Hv.
  - intros k Hk. destruct (refs_upd it0 it ip (set_iref (i_ref (ient it ip) - 1) (ient it ip)) d (-1) Hl Hip R eq_refl eq_refl eq_refl k Hk) as [A B]. split; [rewrite A; lia|done].
  - intros k Hk. rewrite ient_upd by done. by destruct (Z.eqb_spec k ip) as [->|].
Qed.
Lemma iunlockput_table l it0 it (u : U) ip d : table it ip -> held_inode it ip -> refs it0 it d ->
  wp (iunlockput ip) (fun _ s' => exists it', s' = FState l sb it' u /\ table it' NULLIP /\ refs it0 it' (fun k => d k - at_ip ip k) /\
    forall k, in_itable k -> i_inum (ient it' k) = i_inum (ient it k)) (FState l sb it u).
Proof using TR HG.
  intros TB (Hip & Hr & Hv & L) R. pose proof (tb_length _ _ _ _ _ TB) as Hl. unfold iunlockput. wp_step. eapply wp_mono; [by apply iunlock_wp|]. intros _ s' ->.
  set (it1 := <[Z.to_nat ip := _]> it). assert (ient it1 ip = set_ilock false (ient it ip)) as Ex by (by apply ient_insert).
  assert (table it1 NULLIP) as TB1.
  { apply (table_upd V sb good it ip); try done; cbn; unfold in_itable in *; try lia.
    - destruct (Z.eqb_spec ip NULLIP); [unfold NULLIP in *; lia|done].
    - intros k Hk Nk. destruct (Z.eqb_spec k ip), (Z.eqb_spec k NULLIP); unfold NULLIP in *; (done || lia).
    - intros _ _. by apply loaded_ilock. }
  assert (refs it0 it1 d) as R1.
  { intros k Hk. destruct (refs_upd it0 it ip (set_ilock false (ient it ip)) d 0 Hl Hip R ltac:(cbn; lia) eq_refl eq_refl k Hk) as [A B]. unfold it1. split; [rewrite A; lia|done]. }
  eapply wp_mono; [apply (iput_table l it0 it1 u ip d TB1 Hip ltac:(by rewrite Ex) R1)|]. intros _ s' (it' & -> & TB' & R' & En). exists it'. split_and!; [done|done|done|].
  intros k Hk. rewrite En by done. unfold it1. rewrite ient_upd by done. by destruct (Z.eqb_spec k ip) as [->|].
Qed.

(** ** namex *)

Context (it0 : list inode) (T0 : table it0 NULLIP).
(** Two entries are unused. *)
Context (Hroom : exists j k, in_itable j /\ in_itable k /\ j <> k /\ i_ref (ient it0 j) = 0 /\ i_ref (ient it0 k) = 0).

Lemma one_free it ip : refs it0 it (at_ip ip) -> exists k, in_itable k /\ i_ref (ient it k) = 0 /\ k <> ip.
Proof using Hroom HG.
  intros R. destruct Hroom as (j & k & Hj & Hk & N & Ej & Ek). unfold at_ip in R. destruct (Z.eq_dec j ip) as [->|Nj].
  - exists k. destruct (R k Hk) as [A _]. destruct (Z.eqb_spec k ip); [congruence|]. split_and!; [done|lia|done].
  - exists j. destruct (R j Hj) as [A _]. destruct (Z.eqb_spec j ip); [congruence|]. split_and!; [done|lia|done].
Qed.
Lemma ref_pos it ip : in_itable ip -> refs it0 it (at_ip ip) -> 0 < i_ref (ient it ip).
Proof using T0 HG. intros Hip R. destruct (R ip Hip) as [A _]. unfold at_ip in A. rewrite Z.eqb_refl in A. pose proof (tb_ref _ _ _ _ _ T0 ip Hip). lia. Qed.
Lemma refs_ext a b it : (forall k, in_itable k -> a k = b k) -> refs it0 it a -> refs it0 it b.
Proof using Type. intros H R k Hk. rewrite <- H by done. by apply R. Qed.

Definition namex_post (parent : bool) (n : Z) (path : list Z) (u : U) (r : Z * list Z) (s' : fstate U) : Prop :=
  exists l' it', s' = FState l' sb it' u /\ tx l' E G [] [] V /\ table it' NULLIP /\
  match follow V sb parent n (path_elems path) with
  | Some m => in_itable r.1 /\ i_inum (ient it' r.1) = m /\ refs it0 it' (at_ip r.1) /\ (parent = true -> last (path_elems path) = Some (dname r.2))
  | None => r.1 = NULLIP /\ refs it0 it' (fun _ => 0)
  end.

Lemma namex_loop_wp parent fuel : forall path name l it (u : U) ip, (length path <= fuel)%nat -> length name = Z.to_nat DIRSIZ -> Forall (fun c => c <> 0) path ->
  tx l E G [] [] V -> table it NULLIP -> in_itable ip -> refs it0 it (at_ip ip) ->
  wp (namex_loop fuel path name parent ip) (namex_post parent (i_inum (ient it ip)) path u) (FState l sb it u).
Proof using UL FS TR HG T0 Hroom.
  induction fuel as [|fuel IH]; intros path name l it u ip Hf Hl Hp T TB Hip R; cbn [namex_loop];
    pose proof (skipelem_spec path name Hl Hp) as HS; destruct (skipelem path name) as [[name' rest]|] eqn:Esk.
  1: destruct HS as (_ & _ & Hlt & _); lia.
  1, 3: unfold namex_post; rewrite HS; cbn [follow]; destruct parent;
    [wp_step; eapply wp_mono; [apply (iput_table l it0 it u ip (at_ip ip) TB Hip (ref_pos it ip Hip R) R)|]; intros _ s1 (it1 & -> & TB1 & R1 & _); wp_step; exists l, it1;
     split_and!; try done; eapply refs_ext; [|exact R1]; intros k Hk; cbn; lia
    |wp_step; by exists l, it].
  destruct HS as (Hl' & He & Hlt & Hp'). pose proof (ref_pos it ip Hip R) as Hr.
  wp_step. eapply wp_mono; [by apply ilock_wp|]. intros _ s1 (l1 & x & -> & T1 & Ex & Exd & Exn & TB1 & HI). set (it1 := <[Z.to_nat ip := x]> it) in *.
  pose proof (tb_length _ _ _ _ _ TB) as Hlen. assert (ient it1 ip = x) as Eit by (by apply ient_insert).
  assert (refs it0 it1 (at_ip ip)) as R1.
  { eapply refs_ext; [|apply (refs_upd it0 it ip x (at_ip ip) 0 Hlen Hip R); [lia|done|done]]. intros k Hk. cbn. lia. }
  set (n := i_inum (ient it ip)) in *. destruct HI as (_ & Hr1 & Hv & L). rewrite Eit in *. destruct (loaded_fields V sb x L) as (Ft & _ & Fs & Fa). rewrite Exn in Ft, Fs, Fa.
  destruct (tb_used _ _ _ _ _ TB ip Hip Hr) as (Hdev & Hg & _). fold n in Hg.
  assert (held_inode it1 ip) as HI by (unfold held_inode; by rewrite Eit).
  wp_step. apply wp_gets. rewrite (geti_at _ _ _ _ ip x) by (apply list_lookup_insert_eq; unfold in_itable, NINODE in *; lia).
  unfold namex_post. rewrite He. cbn [follow]. rewrite <- Ft.
  destruct (Z.eqb_spec (i_type x) T_DIR) as [Et|Nt]; cbn [negb].
  2: { wp_step. eapply wp_mono; [apply (iunlockput_table l1 it0 it1 u ip (at_ip ip) TB1 HI R1)|]. intros _ s2 (it2 & -> & TB2 & R2 & _). wp_step. exists l1, it2. split_and!; try done.
       eapply refs_ext; [|exact R2]. intros k Hk. cbn. lia. }
  assert (bool_decide (rest = []) = bool_decide (path_elems rest = [])) as -> by (apply bool_decide_ext; split; [by intros ->|by apply (skipelem_rest _ _ _ _ Esk)]).
  destruct (dname_elem name' Hl') as [Hd1 Hd2].
  destruct (parent && bool_decide (path_elems rest = [])) eqn:Epar.
  { apply andb_prop in Epar as [-> Er]. apply bool_decide_eq_true in Er. wp_step. eapply wp_mono; [by apply iunlock_wp; [exact TB1|done|rewrite Eit]|]. intros _ s2 ->. rewrite Eit. wp_step. exists l1, (<[Z.to_nat ip := set_ilock false x]> it1).
    assert (length it1 = Z.to_nat NINODE) as Hlen1 by apply TB1. split_and!; try done.
    - apply (table_upd V sb good it1 ip); try done; rewrite ?Eit; cbn; try done; unfold in_itable in *.
      + destruct (Z.eqb_spec ip NULLIP); [unfold NULLIP in *; lia|done].
      + intros k Hk Nk. destruct (Z.eqb_spec k ip), (Z.eqb_spec k NULLIP); unfold NULLIP in *; (done || lia).
      + lia.
      + intros _ _. by apply loaded_ilock.
    - cbn [fst]. rewrite ient_insert by done. cbn. done.
    - cbn [fst]. eapply refs_ext; [|apply (refs_upd it0 it1 ip (set_ilock false x) (at_ip ip) 0 Hlen1 Hip R1); rewrite ?Eit; [cbn; lia|done|done]]. intros k Hk. cbn. lia.
    - intros _. cbn [snd]. rewrite Er. cbn. by rewrite Hd1. }
  destruct (tr_dir _ _ _ _ TR n Hg) as (DF & DFF & D16 & Dnext); [congruence|].
  destruct (same_file V sb (te_start E) x (dnode V sb n) Fa Fs DF DFF) as (XF & XFF & XC).
  assert (it1 !! Z.to_nat ip = Some x) as Hat by (rewrite <- Eit; apply ient_at; [apply TB1|done]).
  wp_step. eapply wp_mono; [apply (dirlookup_wp sb E ip it1 V x G XF XFF Hat ltac:(by rewrite Exd) HG Et ltac:(by rewrite Fs) name' l1 u (tb_length _ _ _ _ _ TB1) T1)|].
  { intros m. destruct (one_free it1 ip R1) as (k & Hk & Ek & _). exists k. split; [done|by right]. }
  intros [next o] s2 (l2 & it2 & -> & T2 & HQ). cbn [fst snd] in HQ. rewrite XC in HQ. fold (dcontent V sb n) in HQ.
  rewrite (dlookup_name _ name' (until_nul name')) in HQ by (by rewrite Hd2). destruct (dlookup (dcontent V sb n) (until_nul name')) as [[m j]|] eqn:Edl.
  2: { destruct HQ as [[= -> ->] ->]. rewrite Z.eqb_refl. wp_step. eapply wp_mono; [apply (iunlockput_table l2 it0 it1 u ip (at_ip ip) TB1 HI R1)|]. intros _ s3 (it3 & -> & TB3 & R3 & _). wp_step. exists l2, it3. split_and!; try done.
       eapply refs_ext; [|exact R3]. intros k Hk. cbn. lia. }
  destruct HQ as [_ RF]. pose proof (rf_range _ _ _ _ _ RF) as Hnx. destruct (Z.eqb_spec next NULLIP); [unfold NULLIP in *; lia|].
  pose proof (referenced_ok V sb good it1 ip m next it2 TB1 (Dnext _ _ _ Edl) ltac:(right; by rewrite Eit) RF) as TB2.
  destruct (referenced_refs V sb good it0 it1 ip (at_ip ip) m next it2 TB1 R1 ltac:(intros k _; unfold at_ip; destruct (k =? ip); lia) RF) as [R2 En].
  assert (held_inode it2 ip) as HI2.
  { assert (0 < i_ref (ient it2 ip)) as Hr2. { destruct (R2 ip Hip) as [A _]. unfold at_ip in A. rewrite Z.eqb_refl in A. pose proof (tb_ref _ _ _ _ _ T0 ip Hip). destruct (ip =? next); lia. }
    assert (i_valid (ient it2 ip) <> 0) as Hv2.
    { destruct RF as [_ _ R3 R4]. rewrite R3, ient_upd by (done || apply TB1). destruct (Z.eqb_spec ip next) as [<-|]; [|by rewrite Eit].
      destruct R4 as [[_ ->]|(_ & C & _)]; rewrite Eit in *; [done|lia]. }
    split_and!; [done|done|done|]. by apply (tb_used _ _ _ _ _ TB2 ip Hip Hr2). }
  wp_step. eapply wp_mono; [apply (iunlockput_table l2 it0 it2 u ip _ TB2 HI2 R2)|]. intros _ s3 (it3 & -> & TB3 & R3 & En3).
  eapply wp_mono; [apply (IH rest name' l2 it3 u next); [lia|done|done|done|done|done|]|].
  { eapply refs_ext; [|exact R3]. intros k Hk. cbn. lia. }
  intros r s4 (l4 & it4 & -> & T4 & TB4 & HW). rewrite En3, En in HW by done. exists l4, it4. split_and!; [done|done|done|].
  destruct (follow V sb parent m (path_elems rest)) as [q|]; [|done]. destruct HW as (W1 & W2 & W3 & W4). split_and!; [done..|]. intros Hpar. specialize (W4 Hpar). rewrite last_cons, W4. done.
Qed.
End calls.

Section paths.
Context {U : Type} `{UL : UserLaws U}.

(** C18. A path leads where the directories on the disk say.  With an inode
    table whose entries are copies of disk inodes, and two unused entries in
    it, namex never panics and never runs out of steps: it returns an entry
    for the inode that walking the elements of the path, from the root or
    from the current directory, leads to (for nameiparent: the directory the
    last element is in, with that element in the name buffer), or 0 when the
    walk fails at a name that is not there or at an inode that is no
    directory.  The entry has one more reference, all other references are as
    before, also when it fails; nothing is locked; the table stays a table of
    copies with one entry for an inode; no block is written. *)
Theorem path_resolution sb E V (G : list Z) good it0 l (u : U) cwd path parent name :
  tx l E G [] [] V -> Z.of_nat (length G) < NBUF -> fs_ok V sb (te_start E) -> tree V sb (te_start E) good -> table_ok V sb good it0 NULLIP ->
  (exists j k, in_itable j /\ in_itable k /\ j <> k /\ i_ref (ient it0 j) = 0 /\ i_ref (ient it0 k) = 0) ->
  Forall (fun c => c <> 0) path -> length name = Z.to_nat DIRSIZ -> hd 0 path = SLASH \/ in_itable cwd /\ 0 < i_ref (ient it0 cwd) ->
  let start := if hd 0 path =? SLASH then ROOTINO else i_inum (ient it0 cwd) in
  wp (namex cwd path parent name) (fun r s' => exists l' it', s' = FState l' sb it' u /\ tx l' E G [] [] V /\ table_ok V sb good it' NULLIP /\
    match follow V sb parent start (path_elems path) with
    | Some m => in_itable r.1 /\ i_inum (ient it' r.1) = m /\ refs it0 it' (at_ip r.1) /\ (parent = true -> last (path_elems path) = Some (dname r.2))
    | None => r.1 = NULLIP /\ refs it0 it' (fun _ => 0)
    end) (FState l sb it0 u).
Proof.
  intros T HG FS TR T0 Hroom Hp Hl Hs start. unfold namex. assert (refs it0 it0 (fun _ => 0)) as R0 by (intros k Hk; split; [lia|done]). wp_step. unfold start. clear start.
  destruct (Z.eqb_spec (hd 0 path) SLASH) as [_|N].
  - eapply wp_mono; [apply (iget_wp ROOTDEV ROOTINO l sb it0 u (tb_length _ _ _ _ _ T0))|].
    { destruct Hroom as (j & _ & Hj & _ & _ & Ej & _). exists j. split; [done|by right]. }
    intros ip s1 (it1 & -> & RF). pose proof (referenced_ok V sb good it0 NULLIP ROOTINO ip it1 T0 (tr_root _ _ _ _ TR) ltac:(by left) RF) as T1.
    destruct (referenced_refs V sb good it0 it0 NULLIP (fun _ => 0) ROOTINO ip it1 T0 R0 ltac:(done) RF) as [R1 En]. rewrite <- En.
    apply (namex_loop_wp sb E V G good FS TR HG it0 T0 Hroom parent (S (length path)) path name l it1 u ip); [lia|done|done|done|done|apply RF|].
    eapply refs_ext; [|exact R1]. intros k _. cbn. lia.
  - destruct Hs as [|[Hc Hr]]; [done|]. unfold idup. wp_step. apply updi_wp. wp_step. set (x := set_iref _ _). set (it1 := <[Z.to_nat cwd := x]> it0). pose proof (tb_length _ _ _ _ _ T0) as Hlen.
    assert (ient it1 cwd = x) as Ex by (by apply ient_insert).
    assert (i_inum (ient it0 cwd) = i_inum (ient it1 cwd)) as -> by (by rewrite Ex).
    apply (namex_loop_wp sb E V G good FS TR HG it0 T0 Hroom parent (S (length path)) path name l it1 u cwd); [lia|done|done|done| |done|].
    + destruct (tb_used _ _ _ _ _ T0 cwd Hc Hr) as (_ & _ & Hv). apply (table_upd V sb good it0 NULLIP); try done; unfold x; cbn; [by apply (tb_lock _ _ _ _ _ T0)|lia|]. intros _ N0. by apply loaded_iref, Hv.
    + eapply refs_ext; [|apply (refs_upd it0 it0 cwd x (fun _ => 0) 1 Hlen Hc R0); done]. intros k _. cbn. lia.
Qed.
End paths.

(** *** The root directory of the small disk *)

Definition root_only (n : Z) : Prop := n = ROOTINO.
Lemma demo_root V : (forall b, ~ region 2 b -> V b = disk_block fs_disk b) -> let x := dnode V fs_sb 1 in
  i_type x = T_DIR /\ i_nlink x = 1 /\ i_size x = 0 /\ i_addrs x = replicate 13 0.
Proof.
  intros HV. unfold dnode. change (IBLOCK 1 fs_sb) with 33. rewrite HV by (unfold region, LOGBLOCKS, MAXOPBLOCKS; lia). unfold disk_block, fs_disk. rewrite lookup_insert_eq. cbn [default id]. by vm_compute.
Qed.
Lemma demo_tree V : (forall b, ~ region 2 b -> V b = disk_block fs_disk b) -> tree V fs_sb 2 root_only.
Proof.
  intros HV. destruct (demo_root V HV) as (Et & En & Es & Ea). destruct (empty_file_ok V 2 1 T_DIR) as [F FF].
  destruct (same_file V fs_sb 2 (dnode V fs_sb 1) (empty_inode 1 T_DIR) Ea Es F FF) as (F' & FF' & Ec).
  constructor; [done|intros n ->; cbn; unfold ROOTINO; lia|intros n ->|intros n ->|intros n ->]; unfold ROOTINO.
  - by rewrite Et. - by rewrite En.
  - intros _. split_and!; [done|done|by rewrite Es|]. intros name m k. unfold dcontent. by rewrite Ec.
Qed.
Definition free_table : list inode := replicate 50 inode_zero.
Lemma ient_free k : ient free_table k = inode_zero.
Proof. unfold ient. rewrite nth_lookup. destruct (free_table !! Z.to_nat k) as [x|] eqn:E; [|done]. by apply lookup_replicate_1 in E as [-> _]. Qed.
Lemma free_table_ok V : table_ok V fs_sb root_only free_table NULLIP.
Proof.
  constructor; [done|..]; intros k Hk; rewrite ?ient_free; cbn; try done.
  unfold in_itable in Hk. destruct (Z.eqb_spec k NULLIP); [unfold NULLIP in *; lia|done].
Qed.

(** The parent of "/a" is the root. *)
Lemma path_resolution_witness :
  wp (namex 0 [47; 97] true (replicate 14 0)) (fun r s' => exists l' it', s' = FState l' fs_sb it' flat0 /\
    in_itable r.1 /\ i_inum (ient it' r.1) = ROOTINO /\ dname r.2 = [97]) (FState fs_log fs_sb free_table flat0).
Proof.
  destruct fs_log_ok as (a & I & Hnl & En & Eo & Es & HV). pose proof (tx_begin fs_log a I Hnl) as T.
  set (E := TxEnv _ _ _ _ _) in T. assert (te_start E = 2) as Est by exact Es.
  destruct (demo_root (view a) HV) as (Et & _).
  eapply wp_mono; [apply (path_resolution fs_sb E (view a) (logged fs_log) root_only free_table fs_log flat0 0 [47; 97] true (replicate 14 0) T)|].
  - rewrite (logged_length fs_log a I), En. change NBUF with 30. lia.
  - rewrite Est. by apply fs_demo_ok.
  - rewrite Est. by apply demo_tree.
  - apply free_table_ok.
  - exists 0, 1. rewrite !ient_free. unfold in_itable, NINODE. cbn. lia.
  - repeat (apply Forall_cons; split; [lia|]). by apply Forall_nil.
  - reflexivity.
  - left. reflexivity.
  - intros r s' (l' & it' & -> & _ & _ & HW). exists l', it'. split; [reflexivity|]. change (hd 0 [47; 97] =? SLASH) with true in HW. cbv iota in HW.
    change (path_elems [47; 97]) with [[97]] in HW. cbn [follow] in HW. unfold ROOTINO in HW at 1 2. rewrite Et in HW. cbn [negb Z.eqb Pos.eqb T_DIR andb] in HW. rewrite bool_decide_true in HW by reflexivity.
    destruct HW as (W1 & W2 & _ & W4). specialize (W4 eq_refl). injection W4 as W4. split; [exact W1|]. split; [exact W2|]. symmetry. exact W4.
Defined.
