(* ===== verification/FsDelete.v ===== *)
(** * itrunc and deletion (fs.c)

    Giving back all blocks of a file, and iput of the last reference. *)
From stdpp Require Import base tactics numbers list strings gmap.
From Stdlib Require Import ZArith Lia.
From S2P Require Import Prelude Block Bio BioSpec BioCache Log LogSpec LogCrash LogInv UserMem Fs FsSpec FsFile FsRw FsWrite FsTheorems FsFileTheorems.

Open Scope Z_scope.

Lemma free_fs_ok V sb st r : fs_ok V sb st -> data_area sb st r -> fs_ok (unmarked V sb r) sb st.
Proof.
  intros F D. pose proof (da_range _ _ _ D) as Hr. pose proof (fun b Hb => unmarked_free V sb st r b (fo_bitmap _ _ _ F) ltac:(lia) Hb) as Ef.
  destruct F as [F1 F2 F3 F7 F4 F5 F6]. constructor; try done.
  - apply unmarked_ok; [done|lia|lia|apply D|apply D].
  - intros b Hb. rewrite Ef by done. destruct (decide (b = r)) as [->|]; [done|]. by apply F3.
  - intros n Hn. unfold unmarked, fn_upd. rewrite decide_False; [by apply F5|]. apply F6; [done|lia].
Qed.

Section trunc.
Context {U : Type} (sb : superblock) (u : U) (E : txenv) (ip : Z) (Ho : 1 <= te_out E).
Context (V : Z -> block) (i : inode) (G : list Z).
Context (FS : fs_ok V sb (te_start E)) (F : file_ok V sb (te_start E) i) (Hd : i_dev i = ROOTDEV).
Context (HB : bitmap_block sb ∈ G) (HG : Z.of_nat (length G) + 1 < NBUF).

(** The blocks of the slots in [S] have been given back. *)
Record freed (S : Z -> Prop) (V1 : Z -> block) : Prop := {
  fr_fs : fs_ok V1 sb (te_start E);
  fr_same : forall b, b <> bitmap_block sb -> V1 b = V b;
  fr_free : forall b, 0 <= b < sb_size sb ->
    b_free V1 sb b = true <-> b_free V sb b = true \/ exists k, in_slots k /\ S k /\ slot V i k <> 0 /\ slot V i k = b
}.

Lemma freed_none : freed (fun _ => False) V.
Proof using FS. constructor; [done|done|]. intros b Hb. split; [by left|]. intros [|(k & _ & [] & _)]. done. Qed.

Lemma freed_ext (S S' : Z -> Prop) V1 : (forall k, in_slots k -> slot V i k <> 0 -> S k <-> S' k) -> freed S V1 -> freed S' V1.
Proof using Type.
  intros H [H1 H2 H3]. constructor; [done|done|]. intros b Hb. rewrite H3 by done. split; (intros [Hf|(k & Hk & Sk & Nk & Ek)]; [by left|right]; exists k; split_and!; [done|by apply (H k Hk Nk)|done|done]).
Qed.

(** One slot more. *)
Lemma free_slot_wp S V1 l it L k : tx l E G L [] V1 -> freed S V1 -> in_slots k -> ~ S k -> slot V i k <> 0 ->
  (bitmap_block sb ∉ L.*2) -> Z.of_nat (length L) <= 1 ->
  wp (bfree ROOTDEV (slot V i k)) (fun _ s' => exists l' V2, s' = FState l' sb it u /\ tx l' E G L [] V2 /\ freed (fun j => S j \/ j = k) V2) (FState l sb it u).
Proof using Ho FS F Hd HB HG.
  intros T [R1 R2 R3] Hk Sk Nk HL HL1. destruct (fk_data _ _ _ _ F k Hk Nk) as (D & Hu & _). pose proof (da_range _ _ _ D) as Hr.
  pose proof (BBLOCK_one V sb (te_start E) (slot V i k) FS ltac:(lia)) as EB.
  assert (b_free V1 sb (slot V i k) = false) as Hu1.
  { destruct (b_free V1 sb (slot V i k)) eqn:Ef; [|done]. apply R3 in Ef as [Ef|(j & Hj & Sj & Nj & Ej)]; [congruence| |lia].
    destruct Sk. by rewrite <- (fk_inj _ _ _ _ F j k Hj Hk Nj Ej). }
  eapply wp_mono; [apply (bfree_wp sb it u E L Ho l G V1 (slot V i k) T); [lia|apply R1|by rewrite EB|lia|done]|].
  intros _ s' (l' & -> & T'). exists l', (unmarked V1 sb (slot V i k)). split_and!; [done|eapply tx_mono; [exact T'|rewrite EB; set_solver]|].
  constructor.
  - by apply free_fs_ok.
  - intros b Nb. unfold unmarked, fn_upd. rewrite EB, decide_False by done. by apply R2.
  - intros b Hb. rewrite (unmarked_free _ _ (te_start E)) by (apply R1 || lia). destruct (decide (b = slot V i k)) as [->|Nb].
    + split; [|done]. intros _. right. exists k. split_and!; [done|by right|done|done].
    + rewrite R3 by done. split; (intros [Hf|(j & Hj & Sj & Nj & Ej)]; [by left|right; exists j]).
      * split_and!; [done|by left|done|done].
      * destruct Sj as [Sj|Sj]; [done|]. subst j. congruence.
Qed.

(** The inode whose slots in [S] (of the first 13) are cleared. *)
Definition cleared (n : Z) (j : inode) : Prop :=
  length (i_addrs j) = 13%nat /\ (forall k, 0 <= k <= NDIRECT -> iaddr j k = if decide (k < n) then 0 else iaddr i k) /\
  j = Inode (i_dev i) (i_inum i) (i_ref i) (i_lock i) (i_valid i) (i_type i) (i_major i) (i_minor i) (i_nlink i) (i_size i) (i_addrs j).

Lemma iaddr_set j k x m : length (i_addrs j) = 13%nat -> 0 <= k <= NDIRECT -> 0 <= m <= NDIRECT ->
  iaddr (set_iaddr k x j) m = if decide (m = k) then x else iaddr j m.
Proof using HG.
  intros Hl Hk Hm. change NDIRECT with 12 in *. unfold iaddr, set_iaddr. cbn [i_addrs]. rewrite !nth_lookup, lookup_insert_Z by (rewrite ?Hl; lia).
  destruct (decide (m = k)) as [->|]; [by rewrite decide_True|by rewrite decide_False].
Qed.

Lemma cleared_next k j : cleared k j -> 0 <= k <= NDIRECT -> cleared (k + 1) (set_iaddr k 0 j).
Proof using HG.
  intros (C1 & C2 & C3) Hk. split_and!; [cbn; by rewrite length_insert| |rewrite C3; done].
  intros m Hm. rewrite iaddr_set by done. destruct (decide (m = k)) as [->|N]; [by rewrite decide_True by lia|]. rewrite C2 by done.
  destruct (decide (m < k)); [by rewrite decide_True by lia|by rewrite decide_False by lia].
Qed.
Lemma cleared_zero k j : cleared k j -> 0 <= k <= NDIRECT -> iaddr j k = 0 -> cleared (k + 1) j.
Proof using HG.
  intros (C1 & C2 & C3) Hk E0. split_and!; [done| |done]. intros m Hm. destruct (decide (m = k)) as [->|N]; [by rewrite decide_True by lia|].
  rewrite C2 by done. destruct (decide (m < k)); [by rewrite decide_True by lia|by rewrite decide_False by lia].
Qed.

(** The loop over the direct blocks. *)
Lemma trunc_direct_wp l it : tx l E G [] [] V -> it !! Z.to_nat ip = Some i ->
  wp (for_z (Z.to_nat NDIRECT) 0 (fun k => i ← inode_of ip; when negb (iaddr i k =? 0) do (bfree (i_dev i) (iaddr i k);; updi ip (set_iaddr k 0))))
    (fun _ s' => exists l' j V1, s' = FState l' sb (<[Z.to_nat ip := j]> it) u /\ tx l' E G [] [] V1 /\ cleared NDIRECT j /\ freed (fun k => k < NDIRECT) V1) (FState l sb it u).
Proof using Ho FS F Hd HB HG.
  intros T Hi. assert (Z.to_nat ip < length it)%nat as Hlt by (by eapply lookup_lt_Some).
  eapply (wp_for_z (fun n s => exists l' j V1, s = FState l' sb (<[Z.to_nat ip := j]> it) u /\ tx l' E G [] [] V1 /\ cleared n j /\ freed (fun k => k < n) V1) (Z.to_nat NDIRECT) 0).
  - exists l, i, V. rewrite list_insert_id by done. split_and!; [done|done| |].
    + split_and!; [apply F| |by destruct i]. intros k Hk. by rewrite decide_False by lia.
    + eapply freed_ext; [|apply freed_none]. intros k [Hk _] _. cbn. lia.
  - rewrite Z2Nat.id by done. intros k s Hk (l' & j & V1 & -> & T' & C & R). pose proof C as (C1 & C2 & C3).
    assert ((<[Z.to_nat ip := j]> it : list inode) !! Z.to_nat ip = Some j) as Hj by (by apply list_lookup_insert_eq).
    wp_step. apply wp_gets. rewrite (geti_at _ _ _ _ ip j) by done. assert (iaddr j k = slot V i k) as Ea.
    { rewrite C2 by lia. rewrite decide_False by lia. unfold slot. destruct (Z.leb_spec k NDIRECT); [done|lia]. }
    rewrite Ea. assert (in_slots k) as Hks by (unfold in_slots; change NDIRECT with 12 in Hk; change MAXFILE with 268; lia).
    destruct (Z.eqb_spec (slot V i k) 0) as [E0|N0]; cbn [negb].
    + wp_step. exists l', j, V1. split_and!; [done|done|apply cleared_zero; [done|lia|congruence]|]. eapply freed_ext; [|exact R]. intros m _ Nm. cbn.
      split; [lia|]. intros Hm. destruct (decide (m = k)) as [->|]; [done|lia].
    + assert (i_dev j = ROOTDEV) as -> by (by rewrite C3). wp_step.
      eapply wp_mono; [apply (free_slot_wp (fun k0 => k0 < k) V1 l' _ [] k T' R); [done|lia|done|apply not_elem_of_nil|cbn; lia]|].
      intros _ s' (l2 & V2 & -> & T2 & R2). unfold updi. wp_step. rewrite (geti_at _ _ _ _ ip j) by done.
      exists l2, (set_iaddr k 0 j), V2. unfold set_finode. cbn [f_log f_sb f_inode f_user]. rewrite list_insert_insert_eq.
      split_and!; [done|done|apply cleared_next; [done|lia]|]. eapply freed_ext; [|exact R2]. intros m _ _. cbn. lia.
Qed.

(** The loop over the indirect block, which is held in [bp]. *)
Lemma trunc_entries_wp l it bp V1 : let x := iaddr i NDIRECT in x <> 0 -> tx l E G [(bp, x)] [] V1 -> freed (fun k => k < NDIRECT) V1 ->
  wp (for_z (Z.to_nat NINDIRECT) 0 (fun j => d ← bcf (bdata bp); when negb (u32_at d (4 * j) =? 0) do bfree ROOTDEV (u32_at d (4 * j))))
    (fun _ s' => exists l' V2, s' = FState l' sb it u /\ tx l' E G [(bp, x)] [] V2 /\ freed (fun k => k <> NDIRECT) V2) (FState l sb it u).
Proof using Ho FS F Hd HB HG.
  intros x Nx T R. destruct (fk_data _ _ _ _ F NDIRECT) as (D & _ & _); [done|done|]. rewrite slot_indirect in D. fold x in D.
  pose proof (BBLOCK_one V sb (te_start E) 0 FS (conj (Z.le_refl 0) (proj1 (fo_one _ _ _ FS)))) as EB0.
  assert (x <> bitmap_block sb) as Nxb. { pose proof (fo_one _ _ _ FS). apply (da_bitmap _ _ _ D 0). lia. }
  eapply wp_mono; [apply (wp_for_z (fun n s => exists l' V2, s = FState l' sb it u /\ tx l' E G [(bp, x)] [] V2 /\
    freed (fun k => k < NDIRECT \/ NDIRECT < k <= NDIRECT + n) V2) (Z.to_nat NINDIRECT) 0)|].
  - exists l, V1. split_and!; [done|done|]. eapply freed_ext; [|exact R]. intros k _ _. cbn. lia.
  - rewrite Z2Nat.id by done. intros j s Hj (l' & V2 & -> & T' & R'). change NINDIRECT with 256 in Hj.
    set (k := NDIRECT + 1 + j). assert (in_slots k) as Hk by (unfold k, in_slots; change NDIRECT with 12; change MAXFILE with 268; lia).
    wp_step. apply (s_bdata l' sb it u _ _ _ _ _ T' bp x); [left|]. rewrite (fr_same _ _ R' x Nxb).
    assert (u32_at (V x) (4 * j) = slot V i k) as ->.
    { unfold slot. destruct (Z.leb_spec k NDIRECT); [unfold k in *; lia|]. fold x. destruct (Z.eqb_spec x 0); [done|].
      replace (4 * (k - NDIRECT - 1)) with (4 * j) by (unfold k; lia). done. }
    destruct (Z.eqb_spec (slot V i k) 0) as [E0|N0]; cbn [negb].
    + wp_step. exists l', V2. split_and!; [done|done|]. eapply freed_ext; [|exact R']. intros m _ Nm. cbn.
      destruct (decide (m = k)) as [->|N]; [done|]. unfold k in N. lia.
    + eapply wp_mono; [apply (free_slot_wp _ V2 l' it [(bp, x)] k T' R'); [done|unfold k; lia|done|cbn; by rewrite list_elem_of_singleton|cbn; lia]|].
      intros _ s' (l2 & V3 & -> & T2 & R2). exists l2, V3. split_and!; [done|done|]. eapply freed_ext; [|exact R2]. intros m _ _. unfold k. cbn. lia.
  - rewrite Z2Nat.id by done. intros _ s (l' & V2 & -> & T' & R'). exists l', V2. split_and!; [done|done|]. eapply freed_ext; [|exact R'].
    intros k [Hk1 Hk2] _. change NINDIRECT with 256. change NDIRECT with 12. change MAXFILE with 268 in Hk2. cbn. lia.
Qed.

(** The inode after itrunc. *)
Definition truncated : inode := Inode (i_dev i) (i_inum i) (i_ref i) (i_lock i) (i_valid i) (i_type i) (i_major i) (i_minor i) (i_nlink i) 0 (replicate 13 0).

Lemma cleared_all j : cleared (NDIRECT + 1) j -> set_isize 0 j = truncated.
Proof using HG.
  intros (C1 & C2 & C3). rewrite C3. unfold set_isize, truncated. cbn [i_dev i_inum i_ref i_lock i_valid i_type i_major i_minor i_nlink i_addrs]. f_equal. apply list_eq. intros k.
  destruct (decide (k < 13)%nat) as [Hk|Hk]; [|rewrite lookup_ge_None_2 by lia; symmetry; apply lookup_ge_None; rewrite length_replicate; lia].
  rewrite lookup_replicate_2 by done. specialize (C2 (Z.of_nat k)). change NDIRECT with 12 in C2. rewrite decide_True in C2 by lia.
  unfold iaddr in C2. rewrite Nat2Z.id, nth_lookup in C2. destruct (lookup_lt_is_Some_2 (i_addrs j) k) as [y Hy]; [lia|]. rewrite Hy in *. cbn in C2. f_equal. apply C2. lia.
Qed.

(** All blocks given back; the inode still has its size. *)
Lemma trunc_blocks_wp l it : tx l E G [] [] V -> it !! Z.to_nat ip = Some i ->
  wp (for_z (Z.to_nat NDIRECT) 0 (fun k => i ← inode_of ip; when negb (iaddr i k =? 0) do (bfree (i_dev i) (iaddr i k);; updi ip (set_iaddr k 0)));;
      i ← inode_of ip;
      when negb (iaddr i NDIRECT =? 0) do (
        bp ← bcf (bread (i_dev i) (iaddr i NDIRECT));
        for_z (Z.to_nat NINDIRECT) 0 (fun j => d ← bcf (bdata bp); when negb (u32_at d (4 * j) =? 0) do bfree (i_dev i) (u32_at d (4 * j)));;
        bcf (brelse bp);;
        bfree (i_dev i) (iaddr i NDIRECT);;
        updi ip (set_iaddr NDIRECT 0)))
    (fun _ s' => exists l' j V1, s' = FState l' sb (<[Z.to_nat ip := j]> it) u /\ tx l' E G [] [] V1 /\ cleared (NDIRECT + 1) j /\ freed (fun _ => True) V1) (FState l sb it u).
Proof using Ho FS F Hd HB HG.
  intros T Hi. assert (Z.to_nat ip < length it)%nat as Hlt by (by eapply lookup_lt_Some).
  wp_step. eapply wp_mono; [apply (trunc_direct_wp l it T Hi)|]. intros _ s1 (l1 & j & V1 & -> & T1 & C & R1). pose proof C as (C1 & C2 & C3).
  assert ((<[Z.to_nat ip := j]> it : list inode) !! Z.to_nat ip = Some j) as Hj by (by apply list_lookup_insert_eq).
  wp_step. apply wp_gets. rewrite (geti_at _ _ _ _ ip j) by done. assert (iaddr j NDIRECT = iaddr i NDIRECT) as -> by (rewrite C2 by done; by rewrite decide_False by lia).
  assert (i_dev j = ROOTDEV) as -> by (by rewrite C3). destruct (Z.eqb_spec (iaddr i NDIRECT) 0) as [E0|N0]; cbn [negb].
  - wp_step. exists l1, j, V1. split_and!; [done|done|apply cleared_zero; [done|done|]|].
    + rewrite C2 by done. by rewrite decide_False by lia.
    + eapply freed_ext; [|exact R1]. intros k [Hk _] Nk. cbn. split; [done|]. intros _. destruct (Z.lt_ge_cases k NDIRECT) as [|Hge]; [done|]. exfalso. apply Nk.
      unfold slot. destruct (Z.leb_spec k NDIRECT); [by replace k with NDIRECT by lia|]. by rewrite E0.
  - destruct (fk_data _ _ _ _ F NDIRECT) as (D & _ & _); [done|done|]. rewrite slot_indirect in D.
    wp_step. apply (s_bread l1 sb _ u _ _ _ _ _ T1 (iaddr i NDIRECT)); [apply not_elem_of_nil|apply D|cbn; lia|]. intros bp l2 T2.
    wp_step. eapply wp_mono; [apply (trunc_entries_wp l2 _ bp V1 N0 T2 R1)|]. intros _ s3 (l3 & V3 & -> & T3 & R3).
    wp_step. apply (s_brelse l3 sb _ u _ _ _ _ _ T3 bp (iaddr i NDIRECT) []); [done|apply not_elem_of_nil|]. intros l4 T4.
    wp_step. eapply wp_mono; [apply (free_slot_wp _ V3 l4 _ [] NDIRECT T4 R3); [done|by intros []|done|apply not_elem_of_nil|cbn; lia]|].
    intros _ s5 (l5 & V5 & -> & T5 & R5). unfold updi. wp_step. rewrite (geti_at _ _ _ _ ip j) by done. exists l5, (set_iaddr NDIRECT 0 j), V5.
    unfold set_finode. cbn [f_log f_sb f_inode f_user]. rewrite list_insert_insert_eq. split_and!; [done|done|by apply cleared_next|].
    eapply freed_ext; [|exact R5]. intros k _ _. cbn. split; [done|]. intros _. destruct (decide (k = NDIRECT)); [by right|by left].
Qed.

Lemma itrunc_wp l it : tx l E G [] [] V -> it !! Z.to_nat ip = Some i -> 0 <= i_inum i < sb_ninodes sb ->
  wp (itrunc ip) (fun _ s' => exists l' V1, s' = FState l' sb (<[Z.to_nat ip := truncated]> it) u /\ freed (fun _ => True) V1 /\
    let ib := IBLOCK (i_inum i) sb in tx l' E (ib :: G) [] [] (fn_upd V1 ib (put_dinode truncated (V1 ib)))) (FState l sb it u).
Proof using Ho FS F Hd HB HG.
  intros T Hi Hn. assert (Z.to_nat ip < length it)%nat as Hlt by (by eapply lookup_lt_Some).
  assert (forall (c1 : M (fstate U) unit) (c2 : inode -> M (fstate U) unit) (c3 : M (fstate U) unit) Q s, wp ((c1;; i ← inode_of ip; c2 i);; c3) Q s -> wp (c1;; i ← inode_of ip; c2 i;; c3) Q s) as Hassoc.
  { intros c1 c2 c3 Q s. unfold wp, mbind, M_bind. destruct (c1 s) as [? s1| |]; [|done|done]. unfold inode_of, gets. by destruct (c2 _ s1). }
  unfold itrunc. apply Hassoc. wp_step. eapply wp_mono; [apply (trunc_blocks_wp l it T Hi)|]. intros _ s1 (l1 & j & V1 & -> & T1 & C & R).
  assert ((<[Z.to_nat ip := j]> it : list inode) !! Z.to_nat ip = Some j) as Hj by (by apply list_lookup_insert_eq).
  wp_step. unfold updi. wp_step. rewrite (geti_at _ _ _ _ ip j) by done. unfold set_finode. cbn [f_log f_sb f_inode f_user]. rewrite list_insert_insert_eq, (cleared_all j C).
  assert ((<[Z.to_nat ip := truncated]> it : list inode) !! Z.to_nat ip = Some truncated) as Ht by (by apply list_lookup_insert_eq).
  eapply wp_mono; [apply (iupdate_wp sb _ u E ip Ho l1 G V1 truncated T1); [apply R|done|done|done|lia]|].
  intros _ s2 (l2 & -> & T2). exists l2, V1. done.
Qed.
End trunc.

(** ** Writing a block of inodes, once more *)

(** An inode with the same number and without blocks, stored. *)
Lemma store_inode V sb st i : fs_ok V sb st -> inode_ok i -> i_inum i < sb_ninodes sb ->
  let ib := IBLOCK (i_inum i) sb in let V' := fn_upd V ib (put_dinode i (V ib)) in
  fs_ok V' sb st /\ get_dinode (V' ib) i = i /\ (forall b, 0 <= b < sb_size sb -> b_free V' sb b = b_free V sb b) /\
  (forall m, 0 <= m < sb_ninodes sb -> m <> i_inum i -> get_bytes (V' (IBLOCK m sb)) (dinode_off m) DINODE_SIZE = get_bytes (V (IBLOCK m sb)) (dinode_off m) DINODE_SIZE) /\
  (forall b, b <> ib -> V' b = V b).
Proof.
  intros FS IO Hn ib V'. pose proof (io_inum _ IO) as H0. assert (length (V ib) = Z.to_nat BSIZE) as Hl by (apply (fo_ilen _ _ _ FS); lia).
  destruct (dinode_roundtrip i (V ib) IO Hl) as [RT1 RT2]. destruct (put_steps i (V ib) IO Hl) as (_ & _ & _ & _ & _ & Hx).
  assert (V' ib = put_dinode i (V ib)) as Ex by (unfold V', fn_upd; by rewrite decide_True).
  split_and!.
  - apply iblock_fs_ok; [done|lia|done].
  - by rewrite Ex.
  - intros b Hb. apply (iblock_free V sb st); [done|lia|done|done].
  - intros m Hm Nm. unfold V', fn_upd. destruct (decide (IBLOCK m sb = ib)) as [E|N]; [|done]. rewrite E. apply RT2; [lia|].
    by apply (IBLOCK_same V sb st); [|lia|lia| |].
  - intros b Nb. unfold V', fn_upd. by rewrite decide_False.
Qed.

Section delete.
Context {U : Type} `{UM : UserMem U}.

(** C27. Deletion: iput of the last reference to an inode without links never
    panics (in particular no block is freed twice) and gives back exactly the
    blocks of the file, at most two blocks enter the transaction besides
    those already in it; the inode on the disk is free (type 0, no blocks),
    the entry of the table is unused.  Files that share no block with it keep
    their contents, other inodes on the disk are untouched. *)
Theorem iput_deletes sb E it ip V i l (G : list Z) (u : U) :
  tx l E G [] [] V -> 1 <= te_out E -> file_inv sb E it ip V i -> i_ref i = 1 -> i_valid i <> 0 -> i_nlink i = 0 -> i_lock i = false ->
  Z.of_nat (length G) + 3 < NBUF ->
  wp (iput ip) (fun _ s' => exists l' i' V' G', s' = FState l' sb (<[Z.to_nat ip := i']> it) u /\ tx l' E G' [] [] V' /\
    Z.of_nat (length G') <= Z.of_nat (length G) + 2 /\ fs_ok V' sb (te_start E) /\
    (forall b, 0 <= b < sb_size sb -> b_free V' sb b = true <-> b_free V sb b = true \/ exists k, in_slots k /\ slot V i k <> 0 /\ slot V i k = b) /\
    i_ref i' = 0 /\ i_valid i' = 0 /\
    d_type (V' (IBLOCK (i_inum i) sb)) (i_inum i) = 0 /\ (forall k, 0 <= k <= NDIRECT -> d_addr (V' (IBLOCK (i_inum i) sb)) (i_inum i) k = 0) /\
    (forall m, 0 <= m < sb_ninodes sb -> m <> i_inum i ->
       get_bytes (V' (IBLOCK m sb)) (dinode_off m) DINODE_SIZE = get_bytes (V (IBLOCK m sb)) (dinode_off m) DINODE_SIZE) /\
    (forall j, file_ok V sb (te_start E) j -> file_full V j -> disjoint_files V i j -> file_ok V' sb (te_start E) j /\ fcontent V' j = fcontent V j)) (FState l sb it u).
Proof.
  intros T Ho [Hi Hd Hnum IO FS F FF] Hr Hv Hnl Hlk HG. pose proof (io_inum _ IO) as Hn0.
  assert (Z.to_nat ip < length it)%nat as Hlt by (by eapply lookup_lt_Some).
  assert (forall j, (<[Z.to_nat ip := j]> it : list inode) !! Z.to_nat ip = Some j) as Hat by (intros j; by apply list_lookup_insert_eq).
  assert (forall l0 x (j : inode) f (Q : unit -> fstate U -> Prop), Q tt (FState l0 sb (<[Z.to_nat ip := f j]> it) x) -> wp (updi ip f) Q (FState l0 sb (<[Z.to_nat ip := j]> it) x)) as Hupd.
  { intros l0 x j f Q HQ. unfold updi. wp_step. rewrite (geti_at _ _ _ _ ip j) by done. unfold set_finode. cbn [f_log f_sb f_inode f_user]. by rewrite list_insert_insert_eq. }
  unfold iput. wp_step. apply wp_gets. rewrite (geti_at _ _ _ _ ip i) by done. rewrite Hr, Hnl. destruct (Z.eqb_spec (i_valid i) 0); [done|]. cbn [Z.eqb Pos.eqb andb negb].
  set (i1 := set_ilock true i). assert (file_ok V sb (te_start E) i1) as F1 by (by destruct F).
  wp_step. wp_step. unfold acquiresleep_inode. wp_step. apply wp_gets. rewrite (geti_at _ _ _ _ ip i) by done. rewrite Hlk.
  rewrite <- (list_insert_id it (Z.to_nat ip) i Hi) at 1. apply Hupd. fold i1.
  wp_step. set (G1 := bitmap_block sb :: G).
  eapply wp_mono; [apply (itrunc_wp sb u E ip Ho V i1 G1 FS F1 Hd ltac:(left) ltac:(cbn; lia) l (<[Z.to_nat ip := i1]> it)); [eapply tx_mono; [exact T|set_solver]|done|cbn; lia]|].
  intros _ s1 (l1 & V1 & -> & [R1 R2 R3] & T1). cbv zeta in T1. rewrite list_insert_insert_eq.
  change (i_inum i1) with (i_inum i) in T1. set (ib := IBLOCK (i_inum i) sb) in *. set (i2 := truncated i1) in *.
  wp_step. apply Hupd. set (i3 := set_itype 0 i2). set (V2 := fn_upd V1 ib _) in T1.
  assert (inode_ok i2 /\ inode_ok i3) as [IO2 IO3].
  { destruct IO as [I1 I2 I3 I4 I5 I6 I7]. split; (constructor; cbn; try done; try lia; split; [done|]; repeat (apply Forall_cons; split; [lia|]); by apply Forall_nil). }
  destruct (store_inode V1 sb (te_start E) i2 R1 IO2 Hnum) as (FS2 & _ & Ef2 & Em2 & EV2). change (i_inum i2) with (i_inum i) in *. fold ib in FS2, Ef2, Em2, EV2. fold V2 in FS2, Ef2, Em2, EV2.
  wp_step. eapply wp_mono; [apply (iupdate_wp sb _ u E ip Ho l1 (ib :: G1) V2 i3 T1); [done|done|done|cbn; lia|cbn [G1 length]; lia]|].
  intros _ s2 (l2 & -> & T2). change (i_inum i3) with (i_inum i) in T2. fold ib in T2. set (V3 := fn_upd V2 ib _) in T2.
  destruct (store_inode V2 sb (te_start E) i3 FS2 IO3 Hnum) as (FS3 & Eg3 & Ef3 & Em3 & EV3). change (i_inum i3) with (i_inum i) in *. fold ib in FS3, Eg3, Ef3, Em3, EV3. fold V3 in FS3, Eg3, Ef3, Em3, EV3.
  wp_step. apply Hupd. apply Hupd. apply Hupd. set (i4 := set_iref _ _).
  assert (forall b, 0 <= b < sb_size sb -> b_free V3 sb b = true <-> b_free V sb b = true \/ exists k, in_slots k /\ slot V i k <> 0 /\ slot V i k = b) as Efree.
  { intros b Hb. rewrite Ef3, Ef2, R3 by done. split; (intros [Hf|H]; [by left|right]).
    - destruct H as (k & Hk & _ & Nk & Ek). by exists k. - destruct H as (k & Hk & Nk & Ek). by exists k. }
  assert (forall b, b <> ib -> b <> bitmap_block sb -> V3 b = V b) as EV by (intros b N1 N2; by rewrite EV3, EV2, R2).
  exists l2, i4, V3, (ib :: G1). split; [done|]. split_and!.
  - eapply tx_mono; [exact T2|]. set_solver.
  - cbn [G1 length]. lia.
  - exact FS3.
  - exact Efree.
  - unfold i4. cbn. lia.
  - done.
  - change (d_type (V3 ib) (i_inum i)) with (i_type (get_dinode (V3 ib) i3)). by rewrite Eg3.
  - intros k Hk. change NDIRECT with 12 in Hk. assert (i_addrs (get_dinode (V3 ib) i3) !! Z.to_nat k = Some 0) as Hk0 by (rewrite Eg3; cbn [i3 i2 set_itype truncated i_addrs]; apply lookup_replicate_2; lia).
    unfold get_dinode in Hk0. cbn [i_addrs] in Hk0. rewrite list_lookup_fmap, lookup_seqZ_lt in Hk0 by (change (NDIRECT + 1) with 13; lia). cbn in Hk0. injection Hk0 as Hk0.
    by rewrite Z2Nat.id in Hk0 by lia.
  - intros m Hm Nm. rewrite Em3, Em2 by done. rewrite R2; [done|]. apply (fo_ibit _ _ _ FS m 0 Hm). pose proof (fo_one _ _ _ FS). lia.
  - intros j Fj FFj Dj. destruct (file_frame V V3 sb (te_start E) j Fj) as (F3 & _ & B3).
    + intros k Hk N. destruct (fk_data _ _ _ _ Fj k Hk N) as (D & _ & _). pose proof (fo_one _ _ _ FS). apply EV; [by apply (da_inode _ _ _ D); lia|apply (da_bitmap _ _ _ D 0); lia].
    + intros m Hm Nm Hb Hu. destruct (b_free V3 sb (slot V j m)) eqn:Ef; [|done]. apply Efree in Ef as [Ef|(k & Hk & Nk & Ek)]; [congruence| |lia]. by destruct (Dj k m Hk Hm Nk).
    + split; [done|]. by apply fcontent_ext.
Qed.
End delete.

(** *** A file of three bytes in block 47 of the small disk *)

Definition doomed_inode : inode := Inode ROOTDEV 2 1 false 1 T_FILE 0 0 0 3 (47 :: replicate 12 0).

Lemma doomed_slot V k : in_slots k -> slot V doomed_inode k = if decide (k = 0) then 47 else 0.
Proof.
  intros Hk. unfold slot. destruct (Z.leb_spec k NDIRECT) as [Hle|Hgt]; change NDIRECT with 12 in *; unfold in_slots in Hk.
  - unfold iaddr. rewrite nth_lookup. cbn [doomed_inode i_addrs]. destruct (decide (k = 0)) as [->|N]; [done|].
    replace (Z.to_nat k) with (S (Z.to_nat (k - 1))) by lia. change ((47 :: replicate 12 0) !! S ?n) with (replicate 12 0 !! n). rewrite lookup_replicate_2 by lia. done.
  - rewrite decide_False by lia. done.
Qed.

Lemma in_slots0 : in_slots 0.
Proof. done. Qed.
Lemma doomed_slot0 V : slot V doomed_inode 0 = 47.
Proof. by rewrite doomed_slot. Qed.

Lemma doomed_inv E V : te_start E = 2 -> (forall b, ~ region 2 b -> V b = disk_block fs_disk b) -> file_inv fs_sb E [doomed_inode] 0 V doomed_inode.
Proof.
  intros Es HV. pose proof (fs_demo_ok V HV) as FS. constructor; [done|done|done| |by rewrite Es| |].
  - constructor; cbn; try (unfold T_FILE; lia). split; [done|]. repeat (apply Forall_cons; split; [lia|]). by apply Forall_nil.
  - constructor; [done| |].
    + intros k Hk. rewrite doomed_slot by done. destruct (decide (k = 0)); [|done]. intros _. rewrite Es.
      assert (V (BBLOCK 47 fs_sb) = fs_bitmap) as EB.
      { change (BBLOCK 47 fs_sb) with 46. rewrite HV by (unfold region, LOGBLOCKS, MAXOPBLOCKS; lia). unfold disk_block, fs_disk. by rewrite lookup_insert_ne, lookup_singleton_eq by lia. }
      split_and!.
      * constructor; [cbn; lia|split; [lia|unfold region, LOGBLOCKS, MAXOPBLOCKS; lia]| |].
        -- intros c Hc. cbn in Hc. unfold BBLOCK. change BPB with 8192. rewrite Z.div_small by lia. done.
        -- intros n Hn. cbn in Hn. pose proof (fo_ibit _ _ _ FS n 0 Hn ltac:(cbn; lia)). unfold IBLOCK in *. change IPB with 16 in *. cbn [fs_sb sb_inodestart] in *.
           assert (n / 16 < 13) by (apply Z.div_lt_upper_bound; lia). assert (0 <= n / 16) by (apply Z.div_pos; lia). rewrite w32_id by lia. lia.
      * unfold b_free. rewrite EB. by vm_compute.
      * rewrite HV by (unfold region, LOGBLOCKS, MAXOPBLOCKS; lia). unfold disk_block, fs_disk. by rewrite lookup_insert_ne, lookup_singleton_ne by lia.
    + intros j k Hj Hk. rewrite !doomed_slot by done. destruct (decide (j = 0)), (decide (k = 0)); (done || congruence).
  - constructor; [cbn; change (MAXFILE * BSIZE) with 274432; lia|]. intros bn Hbn Hlt. cbn in Hlt. change BSIZE with 1024 in Hlt.
    assert (bn = 0) as -> by lia. by rewrite doomed_slot.
Qed.

Lemma iput_deletes_witness :
  wp (iput 0) (fun _ s' => exists l' i' V', s' = FState l' fs_sb [i'] flat0 /\ b_free V' fs_sb 47 = true /\ i_ref i' = 0) (FState fs_log fs_sb [doomed_inode] flat0).
Proof.
  destruct fs_log_ok as (a & I & Hnl & En & Eo & Es & HV). pose proof (tx_begin fs_log a I Hnl) as T.
  set (E := TxEnv _ _ _ _ _) in T. assert (te_start E = 2) as Est by exact Es.
  eapply wp_mono; [apply (iput_deletes fs_sb E [doomed_inode] 0 (view a) doomed_inode fs_log (logged fs_log) flat0 T)|].
  - unfold E. cbn [te_out]. rewrite Eo. lia.
  - apply doomed_inv; [exact Est|exact HV].
  - reflexivity.
  - discriminate.
  - reflexivity.
  - reflexivity.
  - rewrite (logged_length fs_log a I), En. change NBUF with 30. lia.
  - intros x s' (l' & i' & V' & G' & -> & _ & _ & _ & Hf & Hr & _). exists l', i', V'. split; [reflexivity|]. split; [|exact Hr].
    apply Hf; [cbn; lia|]. right. exists 0. rewrite doomed_slot0. split; [exact in_slots0|]. split; [discriminate|reflexivity].
Defined.
