(* ===== verification/Spinlock.v ===== *)
(** * Spin locks and interrupt nesting (kernel/spinlock.c)

    The state of the CPUs that locking touches (struct cpu's [noff] and
    [intena], and the interrupt-enable bit of sstatus) and the locks.  acquire
    and release are split where another CPU can interleave: before the atomic
    swap, between the swap and the store of [lk->cpu], and between the store
    that clears [lk->cpu] and the atomic release. *)
From stdpp Require Import base tactics numbers list strings gmap.
From Stdlib Require Import ZArith Lia.
From S2P Require Import Prelude.

Open Scope Z_scope.

Record cpu := Cpu { noff : Z; intena : bool; sie : bool }.
Record spinlock := Spinlock { lk_locked : bool; lk_cpu : option Z }.

(** CPUs and locks by number. *)
Record machine := Machine { m_cpu : Z -> cpu; m_lock : Z -> spinlock }.

Definition fupd {A} (i : Z) (x : A) (f : Z -> A) : Z -> A := fun j => if decide (j = i) then x else f j.
Definition set_cpu c x (m : machine) := Machine (fupd c x (m_cpu m)) (m_lock m).
Definition set_lock i x (m : machine) := Machine (m_cpu m) (fupd i x (m_lock m)).

Definition intr_get (c : Z) : M machine bool := gets (fun m => sie (m_cpu m c)).
Definition intr_set (c : Z) (b : bool) : M machine unit :=
  modify (fun m => let x := m_cpu m c in set_cpu c (Cpu (noff x) (intena x) b) m).
Definition intr_off (c : Z) : M machine unit := intr_set c false.
Definition intr_on (c : Z) : M machine unit := intr_set c true.

Definition initlock (i : Z) : M machine unit := modify (set_lock i (Spinlock false None)).

Definition push_off (c : Z) : M machine unit :=
  old ← intr_get c;
  intr_off c;;
  x ← gets (fun m => m_cpu m c);
  (when noff x =? 0 do modify (set_cpu c (Cpu (noff x) old (sie x))));;
  x ← gets (fun m => m_cpu m c);
  modify (set_cpu c (Cpu (noff x + 1) (intena x) (sie x))).

Definition pop_off (c : Z) : M machine unit :=
  on ← intr_get c;
  if (on : bool) then panic "pop_off - interruptible"
  else
    x ← gets (fun m => m_cpu m c);
    if noff x <? 1 then panic "pop_off"
    else
      modify (set_cpu c (Cpu (noff x - 1) (intena x) (sie x)));;
      when (noff x - 1 =? 0) && intena x do intr_on c.

Definition holding (c i : Z) : M machine bool :=
  gets (fun m => lk_locked (m_lock m i) && bool_decide (lk_cpu (m_lock m i) = Some c)).

(** acquire up to the spin loop; one round of the loop, which tells whether
    the lock was taken; and the record of the owner. *)
Definition acquire_enter (c i : Z) : M machine unit :=
  push_off c;; h ← holding c i; if (h : bool) then panic "acquire" else skip.
Definition acquire_swap (i : Z) : M machine bool := fun m =>
  let old := lk_locked (m_lock m i) in
  Ret (negb old) (set_lock i (Spinlock true (lk_cpu (m_lock m i))) m).
Definition acquire_record (c i : Z) : M machine unit :=
  modify (fun m => set_lock i (Spinlock (lk_locked (m_lock m i)) (Some c)) m).

(** acquire when no other CPU runs: a lock that is taken is waited for
    for ever. *)
Definition acquire (c i : Z) : M machine unit :=
  acquire_enter c i;; ok ← acquire_swap i; if (ok : bool) then acquire_record c i else nofuel.

Definition release_clear (c i : Z) : M machine unit :=
  h ← holding c i;
  if negb h then panic "release"
  else modify (fun m => set_lock i (Spinlock (lk_locked (m_lock m i)) None) m).
Definition release_unlock (c i : Z) : M machine unit :=
  modify (fun m => set_lock i (Spinlock false (lk_cpu (m_lock m i))) m);; pop_off c.
Definition release (c i : Z) : M machine unit := release_clear c i;; release_unlock c i.

(** ** Interleavings *)

(** Where a CPU is inside acquire or release. *)
Inductive lock_pc :=
  | Idle                 (* not inside acquire or release *)
  | Spin (i : Z)         (* in the loop of acquire *)
  | Got (i : Z)          (* after the swap, before the store of lk->cpu *)
  | Cleared (i : Z).     (* in release, after the store of lk->cpu *)

(** The machine, each CPU's place, and the locks each CPU has acquired and
    not yet released. *)
Record config := Config { cf_m : machine; cf_pc : Z -> lock_pc; cf_held : Z -> list Z }.

Inductive lock_step : config -> config -> Prop :=
  | ls_enter c i m m' pc held :
      pc c = Idle -> acquire_enter c i m = Ret () m' ->
      lock_step (Config m pc held) (Config m' (fupd c (Spin i) pc) held)
  | ls_spin c i m m' pc held :
      pc c = Spin i -> acquire_swap i m = Ret false m' ->
      lock_step (Config m pc held) (Config m' pc held)
  | ls_got c i m m' pc held :
      pc c = Spin i -> acquire_swap i m = Ret true m' ->
      lock_step (Config m pc held) (Config m' (fupd c (Got i) pc) held)
  | ls_record c i m m' pc held :
      pc c = Got i -> acquire_record c i m = Ret () m' ->
      lock_step (Config m pc held) (Config m' (fupd c Idle pc) (fupd c (i :: held c) held))
  | ls_clear c i m m' pc held :
      pc c = Idle -> release_clear c i m = Ret () m' ->
      lock_step (Config m pc held) (Config m' (fupd c (Cleared i) pc) held)
  | ls_unlock c i m m' pc held :
      pc c = Cleared i -> release_unlock c i m = Ret () m' ->
      lock_step (Config m pc held) (Config m' (fupd c Idle pc) (fupd c (filter (fun j => j <> i) (held c)) held)).

(** Every lock free, every CPU outside of any lock with interrupts in some state. *)
Definition lock_init (cf : config) : Prop :=
  (forall i, m_lock (cf_m cf) i = Spinlock false None) /\
  (forall c, cf_pc cf c = Idle /\ cf_held cf c = [] /\ noff (m_cpu (cf_m cf) c) = 0).

Inductive lock_reachable : config -> Prop :=
  | lr_init cf : lock_init cf -> lock_reachable cf
  | lr_step cf cf' : lock_reachable cf -> lock_step cf cf' -> lock_reachable cf'.

(** CPU [c] is between winning the swap for lock [i] and giving it back. *)
Definition owns (cf : config) (c i : Z) : Prop := i ∈ cf_held cf c \/ cf_pc cf c = Got i.

(** The lock that acquire or release is working on counts once in [noff]. *)
Definition pc_depth (pc : lock_pc) : Z := match pc with Spin _ | Got _ => 1 | _ => 0 end.

Record lock_inv (cf : config) : Prop := {
  kv_owner : forall i, lk_locked (m_lock (cf_m cf) i) = true <-> exists c, owns cf c i;
  kv_excl : forall c c' i, owns cf c i -> owns cf c' i -> c = c';
  kv_cpu : forall c i, lk_cpu (m_lock (cf_m cf) i) = Some c <-> i ∈ cf_held cf c /\ cf_pc cf c <> Cleared i;
  kv_dup : forall c, NoDup (cf_held cf c);
  kv_got : forall c i, cf_pc cf c = Got i -> i ∉ cf_held cf c;
  kv_spin : forall c i, cf_pc cf c = Spin i -> i ∉ cf_held cf c;
  kv_clr : forall c i, cf_pc cf c = Cleared i -> i ∈ cf_held cf c;
  kv_noff : forall c, noff (m_cpu (cf_m cf) c) = Z.of_nat (length (cf_held cf c)) + pc_depth (cf_pc cf c);
  kv_intr : forall c, 0 < noff (m_cpu (cf_m cf) c) -> sie (m_cpu (cf_m cf) c) = false
}.

(** ** What the pieces compute *)

Lemma fupd_eq {A} i (x : A) f : fupd i x f i = x.
Proof. unfold fupd. by rewrite decide_True. Qed.
Lemma fupd_ne {A} i j (x : A) f : j <> i -> fupd i x f j = f j.
Proof. intros H. unfold fupd. by rewrite decide_False. Qed.

(** [m'] is [m] with CPU [c] replaced by [x]. *)
Definition cpu_changed (m m' : machine) (c : Z) (x : cpu) : Prop :=
  m_lock m' = m_lock m /\ m_cpu m' c = x /\ forall c', c' <> c -> m_cpu m' c' = m_cpu m c'.

Lemma push_off_run c m :
  exists m', push_off c m = Ret () m' /\ cpu_changed m m' c (Cpu (noff (m_cpu m c) + 1)
    (if noff (m_cpu m c) =? 0 then sie (m_cpu m c) else intena (m_cpu m c)) false).
Proof.
  unfold push_off, mbind, M_bind, intr_get, intr_off, intr_set, gets, modify. cbn. rewrite fupd_eq. cbn.
  destruct (noff (m_cpu m c) =? 0); (eexists; split; [reflexivity|]; split_and!; [done| |]); cbn;
    repeat (rewrite fupd_eq; cbn); try done; intros c' Hc; by rewrite !fupd_ne.
Qed.

Lemma pop_off_run c m m' :
  pop_off c m = Ret () m' ->
  cpu_changed m m' c (Cpu (noff (m_cpu m c) - 1) (intena (m_cpu m c)) ((noff (m_cpu m c) - 1 =? 0) && intena (m_cpu m c))) /\
  1 <= noff (m_cpu m c).
Proof.
  unfold pop_off, mbind, M_bind, intr_get, intr_on, intr_set, gets, modify, skip, mret, M_ret.
  destruct (sie (m_cpu m c)) eqn:Es; [done|]. destruct (Z.ltb_spec (noff (m_cpu m c)) 1); [done|].
  destruct (_ && _) eqn:E; intros [= <-]; (split; [|lia]); (split_and!; [done| |]); cbn;
    repeat (rewrite fupd_eq; cbn); rewrite ?Es; try done; intros c' Hc; by rewrite !fupd_ne.
Qed.

Lemma pop_off_ok c m : sie (m_cpu m c) = false -> 1 <= noff (m_cpu m c) -> exists m', pop_off c m = Ret () m'.
Proof.
  intros Es Hn. unfold pop_off, mbind, M_bind, intr_get, intr_on, intr_set, gets, modify, skip, mret, M_ret. rewrite Es.
  destruct (Z.ltb_spec (noff (m_cpu m c)) 1); [lia|]. destruct (_ && _); eauto.
Qed.

(** holding is exact for a CPU that is not inside acquire or release. *)
Lemma holding_exact cf c i :
  lock_inv cf -> cf_pc cf c = Idle -> holding c i (cf_m cf) = Ret (bool_decide (i ∈ cf_held cf c)) (cf_m cf).
Proof.
  intros I Hpc. unfold holding, gets. f_equal. destruct (decide (i ∈ cf_held cf c)) as [Hin|Hout].
  - rewrite (bool_decide_true (i ∈ _)) by done. apply andb_true_intro. split.
    + apply (kv_owner _ I). exists c. by left.
    + apply bool_decide_eq_true, (kv_cpu _ I). by rewrite Hpc.
  - rewrite (bool_decide_false (i ∈ _)) by done. apply andb_false_iff. right. apply bool_decide_eq_false.
    intros E. by apply (kv_cpu _ I) in E as [E _].
Qed.

(** ** The invariant *)

Lemma lock_inv_init cf : lock_init cf -> lock_inv cf.
Proof.
  intros [Hl Hc]. assert (forall c i, ~ owns cf c i) as Hno.
  { intros c i [H|H]; destruct (Hc c) as (E1 & E2 & _); [rewrite E2 in H; by apply elem_of_nil in H|congruence]. }
  constructor.
  - intros i. rewrite Hl. split; [done|]. intros [c H]. by destruct (Hno c i).
  - intros c c' i H. by destruct (Hno c i).
  - intros c i. rewrite Hl. split; [done|]. intros [H _]. destruct (Hc c) as (_ & E & _). rewrite E in H. by apply elem_of_nil in H.
  - intros c. destruct (Hc c) as (_ & -> & _). constructor.
  - intros c i H. destruct (Hc c) as (E & _). congruence.
  - intros c i H. destruct (Hc c) as (E & _). congruence.
  - intros c i H. destruct (Hc c) as (E & _). congruence.
  - intros c. destruct (Hc c) as (E1 & E2 & E3). by rewrite E1, E2, E3.
  - intros c H. destruct (Hc c) as (_ & _ & E). lia.
Qed.

(** A step that changes CPU [c]'s place and the fields of its struct cpu, but
    neither the locks nor what it owns. *)
Lemma lock_inv_place m m' pc held c p x :
  lock_inv (Config m pc held) -> cpu_changed m m' c x ->
  (forall i, p <> Got i) -> (forall i, pc c <> Got i) ->
  (forall i, p = Spin i -> i ∉ held c) -> (forall i, p = Cleared i -> i ∈ held c) ->
  (forall i, p = Cleared i <-> pc c = Cleared i) ->
  noff x = Z.of_nat (length (held c)) + pc_depth p -> (0 < noff x -> sie x = false) ->
  lock_inv (Config m' (fupd c p pc) held).
Proof.
  intros I (El & Ec & Eo) Hng Hng' Hsp Hcl Hcl' Hno Hie.
  assert (forall c' i, owns (Config m' (fupd c p pc) held) c' i <-> owns (Config m pc held) c' i) as Ho.
  { intros c' i. unfold owns. cbn. destruct (decide (c' = c)) as [->|N]; [rewrite fupd_eq|by rewrite fupd_ne].
    split; (intros [H|H]; [by left|]); exfalso; naive_solver. }
  destruct I as [I1 I2 I3 I4 I5 I6 I7 I8 I9]. cbn in *. constructor; cbn.
  - intros i. rewrite El, I1. by setoid_rewrite Ho.
  - intros c1 c2 i. rewrite !Ho. apply I2.
  - intros c1 i. rewrite El, I3. destruct (decide (c1 = c)) as [->|N]; [rewrite fupd_eq|by rewrite fupd_ne].
    specialize (Hcl' i). tauto.
  - done.
  - intros c1 i. destruct (decide (c1 = c)) as [->|N]; [rewrite fupd_eq; intros H; by destruct (Hng i)|rewrite fupd_ne by done; apply I5].
  - intros c1 i. destruct (decide (c1 = c)) as [->|N]; [rewrite fupd_eq; apply Hsp|rewrite fupd_ne by done; apply I6].
  - intros c1 i. destruct (decide (c1 = c)) as [->|N]; [rewrite fupd_eq; apply Hcl|rewrite fupd_ne by done; apply I7].
  - intros c1. destruct (decide (c1 = c)) as [->|N]; [by rewrite fupd_eq, Ec|rewrite fupd_ne, Eo by done; apply I8].
  - intros c1. destruct (decide (c1 = c)) as [->|N]; [by rewrite Ec|rewrite Eo by done; apply I9].
Qed.

Lemma holding_run c i m h m' :
  holding c i m = Ret h m' -> m' = m /\ (h = true <-> lk_locked (m_lock m i) = true /\ lk_cpu (m_lock m i) = Some c).
Proof.
  unfold holding, gets. intros [= <- <-]. split; [done|]. rewrite andb_true_iff. by rewrite bool_decide_eq_true.
Qed.

(** Only lock [i]'s word changes. *)
Definition lock_changed (m m' : machine) (i : Z) (x : spinlock) : Prop :=
  m_cpu m' = m_cpu m /\ m_lock m' i = x /\ forall j, j <> i -> m_lock m' j = m_lock m j.

Lemma set_lock_changed m i x : lock_changed m (set_lock i x m) i x.
Proof. split_and!; [done|apply fupd_eq|]. intros j Hj. by apply fupd_ne. Qed.

Ltac at_cpu c1 c := destruct (decide (c1 = c)) as [->|?]; [rewrite ?fupd_eq|rewrite ?fupd_ne by done].

Lemma step_got m m' pc held c i :
  lock_inv (Config m pc held) -> pc c = Spin i -> lk_locked (m_lock m i) = false ->
  lock_changed m m' i (Spinlock true (lk_cpu (m_lock m i))) ->
  lock_inv (Config m' (fupd c (Got i) pc) held).
Proof.
  intros I Hpc Hfree (Ec & Ei & Ej). destruct I as [I1 I2 I3 I4 I5 I6 I7 I8 I9]. cbn in *.
  assert (forall c', ~ owns (Config m pc held) c' i) as Hno.
  { intros c' H. assert (lk_locked (m_lock m i) = true) by (apply I1; by exists c'). congruence. }
  assert (forall c' j, owns (Config m' (fupd c (Got i) pc) held) c' j <-> owns (Config m pc held) c' j \/ (c' = c /\ j = i)) as Ho.
  { intros c' j. unfold owns. cbn. at_cpu c' c; [|naive_solver]. rewrite Hpc. naive_solver. }
  constructor; cbn.
  - intros j. setoid_rewrite Ho. destruct (decide (j = i)) as [->|N]; [rewrite Ei|rewrite Ej by done].
    + split; [intros _; exists c; by right|done].
    + rewrite I1. naive_solver.
  - intros c1 c2 j. rewrite !Ho. intros [H1|[-> ->]] [H2|[-> E]]; [by eapply I2| | |done].
    + subst j. by destruct (Hno c1).
    + by destruct (Hno c2).
  - intros c1 j. assert (lk_cpu (m_lock m' j) = lk_cpu (m_lock m j)) as ->.
    { destruct (decide (j = i)) as [->|N]; [by rewrite Ei|by rewrite Ej]. }
    rewrite I3. at_cpu c1 c; [|done]. rewrite Hpc. naive_solver.
  - done.
  - intros c1 j. at_cpu c1 c; [|apply I5]. intros [= <-]. by apply I6.
  - intros c1 j. at_cpu c1 c; [done|apply I6].
  - intros c1 j. at_cpu c1 c; [done|apply I7].
  - intros c1. rewrite Ec, I8. at_cpu c1 c; [|done]. by rewrite Hpc.
  - intros c1. rewrite Ec. apply I9.
Qed.

Lemma step_record m m' pc held c i :
  lock_inv (Config m pc held) -> pc c = Got i -> lock_changed m m' i (Spinlock (lk_locked (m_lock m i)) (Some c)) ->
  lock_inv (Config m' (fupd c Idle pc) (fupd c (i :: held c) held)).
Proof.
  intros I Hpc (Ec & Ei & Ej). destruct I as [I1 I2 I3 I4 I5 I6 I7 I8 I9]. cbn in *.
  assert (owns (Config m pc held) c i) as Hown by (by right).
  assert (forall c' j, owns (Config m' (fupd c Idle pc) (fupd c (i :: held c) held)) c' j <-> owns (Config m pc held) c' j) as Ho.
  { intros c' j. unfold owns. cbn. at_cpu c' c; [|done]. rewrite elem_of_cons, Hpc. naive_solver. }
  assert (forall c', c' <> c -> i ∉ held c') as Hni.
  { intros c' N Hin. apply N. by apply (I2 c' c i); [left|]. }
  constructor; cbn.
  - intros j. setoid_rewrite Ho. destruct (decide (j = i)) as [->|N]; [rewrite Ei|rewrite Ej by done]; apply I1.
  - intros c1 c2 j. rewrite !Ho. apply I2.
  - intros c1 j. destruct (decide (j = i)) as [->|N]; [rewrite Ei|rewrite Ej by done; rewrite I3]; at_cpu c1 c.
    + split; [intros _; split; [by left|done]|done].
    + cbn. split; [congruence|]. intros [H _]. by destruct (Hni c1).
    + rewrite elem_of_cons, Hpc. naive_solver.
    + done.
  - intros c1. at_cpu c1 c; [|apply I4]. apply NoDup_cons. split; [by apply I5|apply I4].
  - intros c1 j. at_cpu c1 c; [done|apply I5].
  - intros c1 j. at_cpu c1 c; [done|apply I6].
  - intros c1 j. at_cpu c1 c; [done|apply I7].
  - intros c1. rewrite Ec, I8. at_cpu c1 c; [|done]. rewrite Hpc. cbn [length pc_depth]. lia.
  - intros c1. rewrite Ec. apply I9.
Qed.

Lemma step_clear m m' pc held c i :
  lock_inv (Config m pc held) -> pc c = Idle -> lk_cpu (m_lock m i) = Some c ->
  lock_changed m m' i (Spinlock (lk_locked (m_lock m i)) None) ->
  lock_inv (Config m' (fupd c (Cleared i) pc) held).
Proof.
  intros I Hpc Hcpu (Ec & Ei & Ej). destruct I as [I1 I2 I3 I4 I5 I6 I7 I8 I9]. cbn in *.
  apply I3 in Hcpu as [Hin _].
  assert (forall c' j, owns (Config m' (fupd c (Cleared i) pc) held) c' j <-> owns (Config m pc held) c' j) as Ho.
  { intros c' j. unfold owns. cbn. at_cpu c' c; [|done]. rewrite Hpc. naive_solver. }
  constructor; cbn.
  - intros j. setoid_rewrite Ho. destruct (decide (j = i)) as [->|N]; [rewrite Ei|rewrite Ej by done]; apply I1.
  - intros c1 c2 j. rewrite !Ho. apply I2.
  - intros c1 j. destruct (decide (j = i)) as [->|N]; [rewrite Ei|rewrite Ej by done; rewrite I3]; at_cpu c1 c; cbn.
    + split; [done|]. by intros [_ []].
    + split; [done|]. intros [H _]. destruct (I2 c1 c i); [by left|by left|done].
    + rewrite Hpc. naive_solver.
    + done.
  - done.
  - intros c1 j. at_cpu c1 c; [done|apply I5].
  - intros c1 j. at_cpu c1 c; [done|apply I6].
  - intros c1 j. at_cpu c1 c; [|apply I7]. by intros [= <-].
  - intros c1. rewrite Ec, I8. at_cpu c1 c; [|done]. by rewrite Hpc.
  - intros c1. rewrite Ec. apply I9.
Qed.

Lemma filter_remove_length (i : Z) l : NoDup l -> i ∈ l -> length (filter (fun j => j <> i) l) = (length l - 1)%nat.
Proof.
  intros Hd Hin. apply list_elem_of_split in Hin as (l1 & l2 & ->).
  apply NoDup_app in Hd as (_ & Hd1 & Hd2). apply NoDup_cons in Hd2 as [Hd2 _].
  assert (forall k : list Z, i ∉ k -> filter (fun j => j <> i) k = k) as Hf.
  { induction k as [|x k IH]; [done|]. intros Hk. rewrite filter_cons_True by set_solver. rewrite IH by set_solver. done. }
  rewrite filter_app, filter_cons_False by naive_solver. rewrite !Hf; [rewrite !length_app; cbn; lia|done|]. intros H. apply (Hd1 _ H). by left.
Qed.

Lemma step_unlock m m1 m' pc held c i x :
  lock_inv (Config m pc held) -> pc c = Cleared i -> lock_changed m m1 i (Spinlock false (lk_cpu (m_lock m i))) ->
  cpu_changed m1 m' c x -> noff x = noff (m_cpu m c) - 1 -> (0 < noff x -> sie x = false) ->
  lock_inv (Config m' (fupd c Idle pc) (fupd c (filter (fun j => j <> i) (held c)) held)).
Proof.
  intros I Hpc (Ec & Ei & Ej) (El & Ex & Eo) Hx Hs. destruct I as [I1 I2 I3 I4 I5 I6 I7 I8 I9]. cbn in *.
  pose proof (I7 _ _ Hpc) as Hin. rewrite Ec in Eo.
  assert (forall c' j, owns (Config m' (fupd c Idle pc) (fupd c (filter (fun j => j <> i) (held c)) held)) c' j <->
    owns (Config m pc held) c' j /\ j <> i) as Ho.
  { intros c' j. unfold owns. cbn. at_cpu c' c.
    - rewrite list_elem_of_filter, Hpc. naive_solver.
    - split; [|tauto]. intros H. split; [done|]. intros ->. destruct (I2 c' c i); [done|by left|done]. }
  constructor; cbn.
  - intros j. rewrite El. setoid_rewrite Ho. destruct (decide (j = i)) as [->|N]; [rewrite Ei|rewrite Ej, I1 by done].
    + split; [done|]. naive_solver.
    + naive_solver.
  - intros c1 c2 j. rewrite !Ho. intros [H1 _] [H2 _]. by eapply I2.
  - intros c1 j. rewrite El. destruct (decide (j = i)) as [->|N]; [rewrite Ei; cbn|rewrite Ej by done]; rewrite I3; at_cpu c1 c.
    + rewrite Hpc, list_elem_of_filter. naive_solver.
    + done.
    + rewrite Hpc, list_elem_of_filter. naive_solver.
    + done.
  - intros c1. at_cpu c1 c; [|apply I4]. apply NoDup_filter, I4.
  - intros c1 j. at_cpu c1 c; [done|apply I5].
  - intros c1 j. at_cpu c1 c; [done|apply I6].
  - intros c1 j. at_cpu c1 c; [done|apply I7].
  - intros c1. at_cpu c1 c; [|rewrite Eo by done; apply I8]. rewrite Ex, Hx, I8, Hpc.
    rewrite filter_remove_length by (done || apply I4). cbn [pc_depth]. assert (length (held c) <> 0%nat) by (destruct (held c); [by apply elem_of_nil in Hin|done]). lia.
  - intros c1. at_cpu c1 c; [by rewrite Ex|rewrite Eo by done; apply I9].
Qed.

Lemma lock_step_inv cf cf' : lock_inv cf -> lock_step cf cf' -> lock_inv cf'.
Proof.
  intros I Hs. inversion Hs as [c i m m' pc held Hpc E|c i m m' pc held Hpc E|c i m m' pc held Hpc E|
    c i m m' pc held Hpc E|c i m m' pc held Hpc E|c i m m' pc held Hpc E]; subst.
  - unfold acquire_enter, mbind, M_bind in E. destruct (push_off_run c m) as (m1 & E1 & Hch). rewrite E1 in E.
    destruct (holding c i m1) as [h m2| |] eqn:Eh; [|done|done]. apply holding_run in Eh as [-> Hh].
    destruct h; [done|]. unfold skip, mret, M_ret in E. simplify_eq.
    assert (i ∉ held c) as Hni.
    { intros Hin. assert (false = true); [|done]. apply Hh. destruct Hch as (-> & _). split.
      - apply (kv_owner _ I). exists c. by left.
      - apply (kv_cpu _ I). cbn. split; [done|congruence]. }
    eapply lock_inv_place; [exact I|exact Hch|done|congruence| |done| |cbn|done].
    + by intros j [= <-].
    + rewrite Hpc. naive_solver.
    + pose proof (kv_noff _ I c) as Hn. cbn in Hn. rewrite Hn, Hpc. cbn. lia.
  - unfold acquire_swap in E. injection E as Ef <-. destruct (lk_locked (m_lock m i)) eqn:El; [|done].
    assert (set_lock i (Spinlock true (lk_cpu (m_lock m i))) m = set_lock i (m_lock m i) m) as -> by (destruct (m_lock m i); cbn in *; by subst).
    destruct I as [I1 I2 I3 I4 I5 I6 I7 I8 I9]. cbn in *.
    assert (forall j, fupd i (m_lock m i) (m_lock m) j = m_lock m j) as Ej by (intros j; unfold fupd; case_decide; by subst).
    constructor; cbn; try done; intros *; rewrite Ej; [apply I1|apply I3].
  - unfold acquire_swap in E. injection E as Ef <-. eapply step_got; [exact I|exact Hpc|by destruct (lk_locked (m_lock m i))|apply set_lock_changed].
  - unfold acquire_record, modify in E. injection E as <-. eapply step_record; [exact I|exact Hpc|apply set_lock_changed].
  - unfold release_clear, mbind, M_bind in E. destruct (holding c i m) as [h m2| |] eqn:Eh; [|done|done].
    apply holding_run in Eh as [-> Hh]. destruct h; [|done]. injection E as <-.
    eapply step_clear; [exact I|exact Hpc|by apply Hh|apply set_lock_changed].
  - unfold release_unlock, mbind, M_bind, modify in E. apply pop_off_run in E as [Hch _].
    eapply step_unlock; [exact I|exact Hpc|apply set_lock_changed|exact Hch|done|]. cbn. intros Hpos.
    destruct (Z.eqb_spec (noff (m_cpu m c) - 1) 0); [lia|done].
Qed.

Lemma lock_reachable_inv cf : lock_reachable cf -> lock_inv cf.
Proof. induction 1 as [cf H|cf cf' H IH Hs]; [by apply lock_inv_init|by eapply lock_step_inv]. Qed.

(** What acquire and release do for a CPU that holds the lock. *)
Lemma reacquire_panics cf c i :
  lock_inv cf -> cf_pc cf c = Idle -> i ∈ cf_held cf c -> acquire c i (cf_m cf) = Panic "acquire".
Proof.
  intros I Hpc Hin. unfold acquire, acquire_enter, mbind, M_bind. destruct (push_off_run c (cf_m cf)) as (m1 & -> & El & _).
  unfold holding, gets. rewrite El.
  assert (lk_locked (m_lock (cf_m cf) i) = true) as -> by (apply (kv_owner _ I); exists c; by left).
  rewrite bool_decide_true; [done|]. apply (kv_cpu _ I). by rewrite Hpc.
Qed.

Lemma release_wp cf c i :
  lock_inv cf -> cf_pc cf c = Idle -> i ∈ cf_held cf c ->
  wp (release c i) (fun _ m => lk_locked (m_lock m i) = false) (cf_m cf).
Proof.
  intros I Hpc Hin. assert (noff (m_cpu (cf_m cf) c) >= 1) as Hn.
  { rewrite (kv_noff _ I), Hpc. destruct (cf_held cf c); [by apply elem_of_nil in Hin|]. cbn. lia. }
  pose proof (kv_intr _ I c ltac:(lia)) as Hs. unfold release, release_clear, release_unlock, wp, mbind, M_bind.
  rewrite (holding_exact cf c i I Hpc), bool_decide_true by done. cbn [negb modify].
  set (m1 := set_lock i _ (set_lock i _ (cf_m cf))). destruct (pop_off_ok c m1) as [m' E]; [done|cbn; lia|].
  rewrite E. apply pop_off_run in E as [(El & _) _]. rewrite El. unfold m1, set_lock. cbn. by rewrite !fupd_eq.
Qed.
