(* ===== verification/Sleeplock.v ===== *)
(** * Sleep locks, sleep and wakeup (kernel/sleeplock.c, kernel/proc.c)

    The protocol between acquiresleep and releasesleep on one sleep lock, with
    the parts of sleep and wakeup (proc.c) that decide whether a wakeup can be
    lost: sleep takes [p->lock] before it releases the lock's spin lock, and
    wakeup takes [p->lock] of every process it looks at.  Each step is what one
    process does while it holds the locks it needs. *)
From stdpp Require Import base tactics numbers list strings gmap relations.
From Stdlib Require Import ZArith Lia.
From S2P Require Import Prelude.

Open Scope Z_scope.

Record sleeplock := Sleeplock { slk_locked : bool; slk_pid : Z }.

Definition initsleeplock : sleeplock := Sleeplock false 0.
(** The loop of acquiresleep: [None] when the caller has to sleep. *)
Definition acquiresleep (pid : Z) (lk : sleeplock) : option sleeplock :=
  if slk_locked lk then None else Some (Sleeplock true pid).
Definition releasesleep (lk : sleeplock) : sleeplock := Sleeplock false 0.
Definition holdingsleep (pid : Z) (lk : sleeplock) : bool := slk_locked lk && (slk_pid lk =? pid).

(** Where a process is in acquiresleep, sleep, or releasesleep. *)
Inductive place :=
  | Out                  (* outside *)
  | Test                 (* acquiresleep, holds lk->lk, at the while test *)
  | Commit               (* sleep, holds lk->lk and its own p->lock *)
  | Dozing               (* sleep, lk->lk released, p->lock held, not yet SLEEPING *)
  | Asleep               (* SLEEPING on the lock, p->lock released *)
  | Woken                (* RUNNABLE, has to take lk->lk again *)
  | Holder               (* acquiresleep has returned *)
  | Waking (todo : list Z). (* releasesleep, holds lk->lk, in the loop of wakeup *)

#[export] Instance place_eq_dec : EqDecision place.
Proof. solve_decision. Defined.

Record slconf := SlConf { sl_lk : sleeplock; sl_spin : option Z; sl_at : Z -> place }.

Definition moved (p : Z) (x : place) (f : Z -> place) : Z -> place := fun q => if decide (q = p) then x else f q.

(** A process whose p->lock another process can take. *)
Definition plock_free (x : place) : Prop := x <> Commit /\ x <> Dozing.

(** wakeup looks at process [q]: a sleeper becomes RUNNABLE. *)
Definition wake (q : Z) (f : Z -> place) : Z -> place :=
  match f q with Asleep => moved q Woken f | _ => f end.

Section protocol.
(** The process table. *)
Context (procs : list Z).

(** The steps; the label is false for a wakeup by kkill, which can come at
    any time. *)
Inductive sl_step : bool -> slconf -> slconf -> Prop :=
  | ss_enter p lk f : p ∈ procs -> f p = Out \/ f p = Woken ->
      sl_step true (SlConf lk None f) (SlConf lk (Some p) (moved p Test f))
  | ss_take p lk lk' f : f p = Test -> acquiresleep p lk = Some lk' ->
      sl_step true (SlConf lk (Some p) f) (SlConf lk' None (moved p Holder f))
  | ss_wait p lk f : f p = Test -> acquiresleep p lk = None ->
      sl_step true (SlConf lk (Some p) f) (SlConf lk (Some p) (moved p Commit f))
  | ss_unlock p lk f : f p = Commit ->
      sl_step true (SlConf lk (Some p) f) (SlConf lk None (moved p Dozing f))
  | ss_sleep p lk s f : f p = Dozing ->
      sl_step true (SlConf lk s f) (SlConf lk s (moved p Asleep f))
  | ss_kill p lk s f : f p = Asleep ->
      sl_step false (SlConf lk s f) (SlConf lk s (moved p Woken f))
  | ss_release p lk f : f p = Holder -> holdingsleep p lk = true ->
      sl_step true (SlConf lk None f) (SlConf (releasesleep lk) (Some p) (moved p (Waking (filter (fun q => q <> p) procs)) f))
  | ss_wake p q todo lk f : f p = Waking (q :: todo) -> plock_free (f q) ->
      sl_step true (SlConf lk (Some p) f) (SlConf lk (Some p) (moved p (Waking todo) (wake q f)))
  | ss_done p lk f : f p = Waking [] ->
      sl_step true (SlConf lk (Some p) f) (SlConf lk None (moved p Out f)).

Definition sl_init (cf : slconf) : Prop := sl_lk cf = initsleeplock /\ sl_spin cf = None /\ forall p, sl_at cf p = Out.

Definition sl_reachable (cf : slconf) : Prop := exists cf0, sl_init cf0 /\ rtc (fun x y => exists b, sl_step b x y) cf0 cf.

(** ** The invariant *)

Definition in_spin (x : place) : Prop := match x with Test | Commit | Waking _ => True | _ => False end.
Definition waiting (x : place) : Prop := match x with Commit | Dozing | Asleep => True | _ => False end.

Record sl_inv (cf : slconf) : Prop := {
  si_spin : forall p, in_spin (sl_at cf p) <-> sl_spin cf = Some p;
  si_hold : forall p, sl_at cf p = Holder <-> sl_lk cf = Sleeplock true p;
  si_locked : slk_locked (sl_lk cf) = true -> exists p, sl_lk cf = Sleeplock true p;
  si_wait : forall q, waiting (sl_at cf q) ->
    slk_locked (sl_lk cf) = true \/ exists p todo, sl_at cf p = Waking todo /\ q ∈ todo;
  si_todo : forall p todo, sl_at cf p = Waking todo -> slk_locked (sl_lk cf) = false /\ p ∉ todo;
  si_in : forall p, sl_at cf p <> Out -> p ∈ procs
}.

Lemma moved_eq p x f : moved p x f p = x.
Proof. unfold moved. by rewrite decide_True. Qed.
Lemma moved_ne p q x f : q <> p -> moved p x f q = f q.
Proof. intros H. unfold moved. by rewrite decide_False. Qed.

Ltac at_proc q p := destruct (decide (q = p)) as [->|?]; [rewrite ?moved_eq in *|rewrite ?moved_ne in * by done].

Lemma sl_inv_init cf : sl_init cf -> sl_inv cf.
Proof.
  intros (El & Es & Ep). constructor; rewrite ?El, ?Es; intros; rewrite ?Ep in *; done.
Qed.

(** A process that is not in the spin lock moves between places that are
    neither in it nor the holder's. *)
Lemma inv_move lk s f p x :
  sl_inv (SlConf lk s f) -> p ∈ procs -> ~ in_spin (f p) -> ~ in_spin x -> f p <> Holder -> x <> Holder ->
  (waiting x -> waiting (f p)) -> sl_inv (SlConf lk s (moved p x f)).
Proof.
  intros [I1 I2 I3 I4 I5 I6] Hp Hs Hs' Hh Hh' Hw. cbn in *. constructor; cbn.
  - intros q. at_proc q p; [|apply I1]. specialize (I1 p). tauto.
  - intros q. at_proc q p; [|apply I2]. specialize (I2 p). tauto.
  - done.
  - intros q Hq. assert (waiting (f q)) as Hq' by (at_proc q p; auto). destruct (I4 q Hq') as [|(r & todo & Er & Hin)]; [by left|].
    right. exists r, todo. split; [|done]. rewrite moved_ne; [done|]. intros ->. apply Hs. by rewrite Er.
  - intros q todo. at_proc q p; [intros ->; by destruct Hs'|apply I5].
  - intros q. at_proc q p; [done|apply I6].
Qed.

Lemma wake_at q f r : wake q f r = if decide (r = q /\ f q = Asleep) then Woken else f r.
Proof.
  unfold wake. destruct (decide (f q = Asleep)) as [E|N].
  - rewrite E. unfold moved. destruct (decide (r = q)); [by rewrite decide_True|]. rewrite decide_False; [done|]. tauto.
  - rewrite decide_False by tauto. destruct (f q); congruence.
Qed.

Lemma sl_step_inv b cf cf' : sl_inv cf -> sl_step b cf cf' -> sl_inv cf'.
Proof.
  intros I Hst. pose proof I as [I1 I2 I3 I4 I5 I6]. inversion Hst as
    [p lk f Hp Hf|p lk lk' f Hf E|p lk f Hf E|p lk f Hf|p lk s f Hf|p lk s f Hf|p lk f Hf Hh|p q todo lk f Hf Hq|p lk f Hf]; subst; cbn in *.
  - assert (forall q, ~ in_spin (f q)) as Hn by (intros q H; by apply I1 in H). constructor; cbn.
    + intros q. at_proc q p; [done|]. specialize (Hn q). split; [tauto|congruence].
    + intros q. at_proc q p; [|apply I2]. specialize (I2 p). destruct Hf as [Hf|Hf]; rewrite Hf in I2; split; (done || (intros H; apply I2 in H; done)).
    + done.
    + intros q Hq. at_proc q p; [done|]. destruct (I4 q Hq) as [|(r & todo & Er & Hin)]; [by left|]. destruct (Hn r). by rewrite Er.
    + intros q todo. at_proc q p; [done|apply I5].
    + intros q. at_proc q p; [done|apply I6].
  - unfold acquiresleep in E. destruct (slk_locked lk) eqn:El; [done|]. injection E as <-. constructor; cbn.
    + intros q. at_proc q p; [done|]. rewrite I1. split; [congruence|done].
    + intros q. at_proc q p; [done|]. rewrite I2. split; [intros ->; done|congruence].
    + eauto.
    + by left.
    + intros q todo. at_proc q p; [done|]. intros E. assert (in_spin (f q)) as H by (by rewrite E). apply I1 in H. congruence.
    + intros q. at_proc q p; [|apply I6]. intros _. apply I6. by rewrite Hf.
  - unfold acquiresleep in E. destruct (slk_locked lk) eqn:El; [|done]. constructor; cbn.
    + intros q. at_proc q p; [done|apply I1].
    + intros q. at_proc q p; [|apply I2]. specialize (I2 p). rewrite Hf in I2. split; [done|]. intros H. by apply I2 in H.
    + intros _. by apply I3.
    + by left.
    + intros q todo. at_proc q p; [done|]. intros E'. assert (in_spin (f q)) as H by (by rewrite E'). apply I1 in H. congruence.
    + intros q. at_proc q p; [|apply I6]. intros _. apply I6. by rewrite Hf.
  - constructor; cbn.
    + intros q. at_proc q p; [done|]. rewrite I1. split; [congruence|done].
    + intros q. at_proc q p; [|apply I2]. specialize (I2 p). rewrite Hf in I2. split; [done|]. intros H. by apply I2 in H.
    + done.
    + intros q Hq. assert (waiting (f q)) as Hq' by (at_proc q p; [by rewrite Hf|done]).
      destruct (I4 q Hq') as [|(r & todo & Er & Hin)]; [by left|]. assert (in_spin (f r)) as H by (by rewrite Er). apply I1 in H. congruence.
    + intros q todo. at_proc q p; [done|]. intros E'. assert (in_spin (f q)) as H by (by rewrite E'). apply I1 in H. congruence.
    + intros q. at_proc q p; [|apply I6]. intros _. apply I6. by rewrite Hf.
  - apply inv_move; rewrite ?Hf; try done; [apply I6; by rewrite Hf|by intros []|by intros []].
  - apply inv_move; rewrite ?Hf; try done; [apply I6; by rewrite Hf|by intros []|by intros []].
  - assert (forall q, ~ in_spin (f q)) as Hn by (intros q H; by apply I1 in H).
    assert (forall q, f q = Holder -> q = p) as Hu.
    { intros q H. apply I2 in H. apply I2 in Hf. congruence. }
    constructor; cbn.
    + intros q. at_proc q p; [done|]. specialize (Hn q). split; [tauto|congruence].
    + intros q. at_proc q p; [done|]. split; [intros H; by apply Hu in H|done].
    + done.
    + intros q Hq. right. exists p. eexists. rewrite moved_eq. split; [reflexivity|]. apply list_elem_of_filter.
      at_proc q p; [done|]. split; [done|]. apply I6. by destruct (f q).
    + intros q todo. at_proc q p; [|intros E; destruct (Hn q); by rewrite E]. intros [= <-]. split; [done|].
      rewrite list_elem_of_filter. tauto.
    + intros q. at_proc q p; [|apply I6]. intros _. apply I6. by rewrite Hf.
  - destruct (I5 _ _ Hf) as [Hl Hnp]. assert (q <> p) as Nqp by set_solver.
    assert (forall r, in_spin (f r) -> r = p) as Hu.
    { intros r H. apply I1 in H. congruence. }
    constructor; cbn.
    + intros r. at_proc r p; [done|]. rewrite wake_at. destruct (decide _) as [[-> E]|]; [|apply I1]. specialize (I1 q). rewrite E in I1. done.
    + intros r. at_proc r p.
      * specialize (I2 p). rewrite Hf in I2. split; [done|]. intros H. by apply I2 in H.
      * rewrite wake_at. destruct (decide _) as [[-> E]|]; [|apply I2]. specialize (I2 q). rewrite E in I2. split; [done|]. intros H. by apply I2 in H.
    + done.
    + intros r Hr. at_proc r p; [done|]. rewrite wake_at in Hr. destruct (decide (r = q /\ f q = Asleep)) as [|Nr]; [done|].
      destruct (I4 r Hr) as [|(p' & todo' & Ep & Hin)]; [congruence|]. right. exists p, todo. rewrite moved_eq. split; [done|].
      assert (p' = p) as -> by (apply Hu; by rewrite Ep). rewrite Hf in Ep. injection Ep as <-.
      apply elem_of_cons in Hin as [->|]; [|done]. exfalso. destruct Hq as [Hq1 Hq2]. destruct (f q); try done. by apply Nr.
    + intros r todo'. at_proc r p; [intros [= <-]; split; [done|set_solver]|]. rewrite wake_at. destruct (decide _) as [|]; [done|].
      intros E. destruct (Hu r); [by rewrite E|done].
    + intros r. at_proc r p; [intros _; apply I6; by rewrite Hf|]. rewrite wake_at. destruct (decide _) as [[-> E]|]; [|apply I6].
      intros _. apply I6. by rewrite E.
  - destruct (I5 _ _ Hf) as [Hl _].
    assert (forall r, in_spin (f r) -> r = p) as Hu.
    { intros r H. apply I1 in H. congruence. }
    constructor; cbn.
    + intros q. at_proc q p; [done|]. split; [|done]. intros H. by apply Hu in H.
    + intros q. at_proc q p; [|apply I2]. specialize (I2 p). rewrite Hf in I2. split; [done|]. intros H. by apply I2 in H.
    + done.
    + intros q Hq. at_proc q p; [done|]. destruct (I4 q Hq) as [|(p' & todo' & Ep & Hin)]; [by left|].
      assert (p' = p) as -> by (apply Hu; by rewrite Ep). rewrite Hf in Ep. injection Ep as <-. by apply elem_of_nil in Hin.
    + intros q todo. at_proc q p; [done|]. intros E. destruct (Hu q); [by rewrite E|done].
    + intros q. at_proc q p; [done|apply I6].
Qed.

Lemma sl_reachable_inv cf : sl_reachable cf -> sl_inv cf.
Proof.
  intros (cf0 & H0 & Hr). apply sl_inv_init in H0. induction Hr as [|x y z [b Hst] _ IH]; [done|]. apply IH. by eapply sl_step_inv.
Qed.

(** ** Progress without kkill *)

Lemma sl_run_inv cf cf' : sl_inv cf -> rtc (sl_step true) cf cf' -> sl_inv cf'.
Proof. intros I Hr. induction Hr as [|x y z Hst _ IH]; [done|]. apply IH. by eapply sl_step_inv. Qed.

(** The loop of wakeup runs to its end and wakes every waiting process that
    it still has to look at. *)
Lemma waking_runs todo lk r f :
  sl_inv (SlConf lk (Some r) f) -> f r = Waking todo ->
  exists f', rtc (sl_step true) (SlConf lk (Some r) f) (SlConf lk None f') /\
    forall q, q <> r -> (f q = Woken -> f' q = Woken) /\ (q ∈ todo -> f q = Asleep \/ f q = Dozing -> f' q = Woken).
Proof.
  revert f. induction todo as [|x todo IH]; intros f I Hr.
  - exists (moved r Out f). split; [apply rtc_once; by constructor|]. intros q Nq. rewrite moved_ne by done.
    split; [done|]. intros H. by apply elem_of_nil in H.
  - assert (x <> r) as Nx by (destruct (si_todo _ I _ _ Hr) as [_ H]; cbn in H; set_solver).
    assert (exists f1, rtc (sl_step true) (SlConf lk (Some r) f) (SlConf lk (Some r) f1) /\ f1 r = Waking (x :: todo) /\
      plock_free (f1 x) /\ (f x = Asleep \/ f x = Dozing -> f1 x = Asleep) /\ (f x = Woken -> f1 x = Woken) /\
      forall q, q <> x -> f1 q = f q) as (f1 & R1 & Hr1 & Hp1 & Hx1 & Hw1 & Ho1).
    { destruct (decide (f x = Dozing)) as [E|N].
      - exists (moved x Asleep f). split_and!; [apply rtc_once; by constructor|by rewrite moved_ne|by rewrite moved_eq|..].
        + intros _. by rewrite moved_eq.
        + intros E'. congruence.
        + intros q Nq. by rewrite moved_ne.
      - exists f. split_and!; [done|done| |by intros []|done|done]. split; [|done]. intros E.
        assert (in_spin (f x)) as H by (by rewrite E). apply (si_spin _ I) in H. cbn in H. congruence. }
    pose proof (sl_run_inv _ _ I R1) as I1.
    assert (sl_step true (SlConf lk (Some r) f1) (SlConf lk (Some r) (moved r (Waking todo) (wake x f1)))) as S2 by (by constructor).
    pose proof (sl_step_inv _ _ _ I1 S2) as I2. destruct (IH _ I2) as (f' & R' & HQ); [by rewrite moved_eq|].
    exists f'. split; [etrans; [exact R1|]; by eapply rtc_l|]. intros q Nq. destruct (HQ q Nq) as [HQ1 HQ2].
    rewrite moved_ne, wake_at in HQ1, HQ2 by done. destruct (decide (q = x)) as [->|Nqx].
    + split.
      * intros E. apply HQ1. destruct (decide _); [done|]. by apply Hw1.
      * intros _ Hw. apply HQ1. rewrite decide_True; [done|]. split; [done|]. by apply Hx1.
    + rewrite decide_False in HQ1, HQ2 by tauto. rewrite Ho1 in HQ1, HQ2 by done. split; [done|].
      intros [->|Hin]%elem_of_cons; [done|]. by apply HQ2.
Qed.

(** From a state in which nobody is in the spin lock, the holder's
    releasesleep wakes every process that waits. *)
Lemma holder_wakes lk f q :
  sl_inv (SlConf lk None f) -> f q = Asleep -> exists cf', rtc (sl_step true) (SlConf lk None f) cf' /\ sl_at cf' q = Woken.
Proof.
  intros I Hq. destruct (si_wait _ I q) as [Hl|(p & todo & Ep & _)]; cbn in *; [by rewrite Hq| |].
  - destruct (si_locked _ I Hl) as [p Ep]. cbn in Ep. pose proof Ep as Hp. apply (si_hold _ I) in Hp. cbn in Hp.
    assert (q <> p) as Nq by congruence.
    assert (sl_step true (SlConf lk None f) (SlConf (releasesleep lk) (Some p) (moved p (Waking (filter (fun q => q <> p) procs)) f))) as S1.
    { constructor; [done|]. rewrite Ep. unfold holdingsleep. cbn. apply Z.eqb_refl. }
    pose proof (sl_step_inv _ _ _ I S1) as I1.
    destruct (waking_runs _ _ _ _ I1 (moved_eq _ _ _)) as (f' & R & HQ). eexists. split; [by eapply rtc_l|]. cbn.
    apply HQ; [done| |left; by rewrite moved_ne]. apply list_elem_of_filter. split; [done|].
    apply (si_in _ I). cbn. by rewrite Hq.
  - assert (in_spin (f p)) as H by (by rewrite Ep). apply (si_spin _ I) in H. done.
Qed.

Lemma sleeper_woken cf q :
  sl_inv cf -> sl_at cf q = Asleep -> exists cf', rtc (sl_step true) cf cf' /\ sl_at cf' q = Woken.
Proof.
  destruct cf as [lk [r|] f]; cbn; intros I Hq; [|by apply holder_wakes].
  assert (in_spin (f r)) as Hr by (by apply (si_spin _ I)). assert (q <> r) as Nq by (intros ->; by rewrite Hq in Hr).
  assert (forall lk' x, sl_step true (SlConf lk (Some r) f) (SlConf lk' None (moved r x f)) ->
    exists cf', rtc (sl_step true) (SlConf lk (Some r) f) cf' /\ sl_at cf' q = Woken) as Hgo.
  { intros lk' x Hs. pose proof (sl_step_inv _ _ _ I Hs) as I'.
    destruct (holder_wakes _ _ q I') as (cf' & R & E); [by rewrite moved_ne|]. exists cf'. split; [by eapply rtc_l|done]. }
  destruct (f r) as [| | | | | | |todo] eqn:Er; try done.
  - destruct (acquiresleep r lk) as [lk'|] eqn:Ea; [eapply Hgo; by constructor|].
    assert (sl_step true (SlConf lk (Some r) f) (SlConf lk (Some r) (moved r Commit f))) as S1 by (by constructor).
    assert (sl_step true (SlConf lk (Some r) (moved r Commit f)) (SlConf lk None (moved r Dozing (moved r Commit f)))) as S2.
    { constructor. apply moved_eq. }
    pose proof (sl_step_inv _ _ _ (sl_step_inv _ _ _ I S1) S2) as I2.
    destruct (holder_wakes _ _ q I2) as (cf' & R & E); [by rewrite !moved_ne|]. exists cf'. split; [|done].
    eapply rtc_l; [exact S1|]. by eapply rtc_l.
  - eapply Hgo. by constructor.
  - destruct (waking_runs _ _ _ _ I Er) as (f' & R & HQ). eexists. split; [exact R|]. cbn. apply HQ; [done| |by left].
    destruct (si_wait _ I q) as [Hl|(p & todo' & Ep & Hin)]; cbn in *; [by rewrite Hq| |].
    + destruct (si_todo _ I _ _ Er) as [Hl' _]. cbn in Hl'. congruence.
    + assert (in_spin (f p)) as Hp by (by rewrite Ep). apply (si_spin _ I) in Hp. cbn in Hp. injection Hp as <-. congruence.
Qed.

Lemma holdingsleep_exact cf p : sl_inv cf -> sl_at cf p = Holder <-> holdingsleep p (sl_lk cf) = true.
Proof.
  intros I. rewrite (si_hold _ I). unfold holdingsleep. rewrite andb_true_iff, Z.eqb_eq.
  destruct (sl_lk cf) as [b q]; cbn. split; [by intros [= -> ->]|by intros [-> ->]].
Qed.

Lemma sleeper_has_holder cf q : sl_inv cf -> sl_spin cf = None -> sl_at cf q = Asleep -> exists p, sl_at cf p = Holder.
Proof.
  intros I Hs Hq. destruct (si_wait _ I q) as [Hl|(p & todo & Ep & _)]; [by rewrite Hq| |].
  - destruct (si_locked _ I Hl) as [p Ep]. exists p. by apply (si_hold _ I).
  - assert (in_spin (sl_at cf p)) as H by (by rewrite Ep). apply (si_spin _ I) in H. congruence.
Qed.
End protocol.
