(* ===== verification/Pipe.v ===== *)
(** * Pipes (kernel/pipe.c)

    A ring of PIPESIZE bytes with free-running 32-bit counters.  A call of
    pipewrite or piperead runs, with the pipe's lock held, until it returns or
    has to sleep ([Blocked]: the lock is released and the call resumes after a
    wakeup); [killed] is the caller's flag at that time. *)
From stdpp Require Import base tactics numbers list strings.
From Stdlib Require Import ZArith Lia.
From S2P Require Import Prelude UserMem.

Open Scope Z_scope.

Definition PIPESIZE : Z := 512.

Record pipe := Pipe { pp_data : list Z; nread : Z; nwrite : Z; readopen : Z; writeopen : Z }.

(** pipealloc's initialisation of the page it got from kalloc; the data bytes
    are whatever the page held. *)
Definition pipe_init (junk : list Z) : pipe := Pipe junk 0 0 1 1.

(** What a call does next: return a value, or sleep with [i] bytes done. *)
Inductive outcome := Done (r : Z) | Blocked (i : Z).

(** pipeclose; true when the caller then frees the page. *)
Definition pipeclose (writable : Z) (p : pipe) : pipe * bool :=
  let p := if negb (writable =? 0) then Pipe (pp_data p) (nread p) (nwrite p) (readopen p) 0
           else Pipe (pp_data p) (nread p) (nwrite p) 0 (writeopen p) in
  (p, (readopen p =? 0) && (writeopen p =? 0)).

Section pipe.
Context {U : Type} `{UM : UserMem U}.

Definition put_char (ch : Z) (p : pipe) : pipe :=
  Pipe (<[Z.to_nat (nwrite p mod PIPESIZE) := ch]> (pp_data p)) (nread p) (w32 (nwrite p + 1)) (readopen p) (writeopen p).
Definition get_char (p : pipe) : Z := nth (Z.to_nat (nread p mod PIPESIZE)) (pp_data p) 0.
Definition drop_char (p : pipe) : pipe :=
  Pipe (pp_data p) (w32 (nread p + 1)) (nwrite p) (readopen p) (writeopen p).

Definition copyin1 (va : Z) : M (pipe * U) (option Z) := fun s =>
  let '(l, ok, u) := copyin_user (w64 va) 1 s.2 in Ret (if (ok : bool) then Some (hd 0 l) else None) (s.1, u).
Definition copyout1 (va ch : Z) : M (pipe * U) bool := fun s =>
  let '(ok, u) := copyout_user (w64 va) [ch] s.2 in Ret ok (s.1, u).

(** The loop of pipewrite from [i] on. *)
Fixpoint pipewrite (fuel : nat) (killed : bool) (addr n i : Z) : M (pipe * U) outcome :=
  if negb (i <? n) then mret (Done i)
  else match fuel with
  | O => nofuel
  | S fuel =>
      p ← gets fst;
      if (readopen p =? 0) || killed then mret (Done (-1))
      else if nwrite p =? w32 (nread p + PIPESIZE) then mret (Blocked i)
      else
        r ← copyin1 (addr + i);
        match r with
        | None => mret (Done i)
        | Some ch => modify (fun s => (put_char ch s.1, s.2));; pipewrite fuel killed addr n (i + 1)
        end
  end.

Fixpoint piperead_loop (fuel : nat) (addr n i : Z) : M (pipe * U) Z :=
  if negb (i <? n) then mret i
  else match fuel with
  | O => nofuel
  | S fuel =>
      p ← gets fst;
      if nread p =? nwrite p then mret i
      else
        ok ← copyout1 (addr + i) (get_char p);
        if negb ok then mret (if i =? 0 then -1 else i)
        else modify (fun s => (drop_char s.1, s.2));; piperead_loop fuel addr n (i + 1)
  end.

Definition rw_steps (n : Z) : nat := S (Z.to_nat n).

(** piperead at its while loop. *)
Definition piperead (killed : bool) (addr n : Z) : M (pipe * U) outcome :=
  p ← gets fst;
  if (nread p =? nwrite p) && negb (writeopen p =? 0) then
    mret (if killed then Done (-1) else Blocked 0)
  else r ← piperead_loop (rw_steps n) addr n 0; mret (Done r).

(** ** The queue of bytes *)

Definition count (p : pipe) : Z := w32 (nwrite p - nread p).
Definition contents (p : pipe) : list Z :=
  (fun k => nth (Z.to_nat ((nread p + k) mod PIPESIZE)) (pp_data p) 0) <$> seqZ 0 (count p).

Record pipe_ok (p : pipe) : Prop := {
  po_len : length (pp_data p) = Z.to_nat PIPESIZE;
  po_read : 0 <= nread p < 2 ^ 32;
  po_write : 0 <= nwrite p < 2 ^ 32;
  po_count : count p <= PIPESIZE
}.

Lemma contents_length p : length (contents p) = Z.to_nat (count p).
Proof. unfold contents. by rewrite length_fmap, length_seqZ. Qed.

Lemma count_nonneg p : 0 <= count p.
Proof. apply w32_range. Qed.

(** The counters wrap around, but 512 divides 2^32. *)
Lemma w32_mod_pipe x : w32 x mod PIPESIZE = x mod PIPESIZE.
Proof.
  unfold w32, PIPESIZE. rewrite (Z.div_mod x (2 ^ 32)) at 2 by lia.
  replace (2 ^ 32 * (x / 2 ^ 32)) with (2 ^ 23 * (x / 2 ^ 32) * 512) by lia.
  by rewrite Z.add_comm, Z_mod_plus_full.
Qed.

Lemma full_test p : pipe_ok p -> (nwrite p =? w32 (nread p + PIPESIZE)) = (count p =? PIPESIZE).
Proof.
  intros [_ Hr Hw _]. unfold count, PIPESIZE, w32. apply Bool.eq_iff_eq_true. rewrite !Z.eqb_eq. split.
  - intros ->. rewrite Zminus_mod_idemp_l. replace (nread p + 512 - nread p) with 512 by lia. done.
  - intros E. rewrite <- E. rewrite Z.add_mod_idemp_r by lia. replace (nread p + (nwrite p - nread p)) with (nwrite p) by lia.
    symmetry. by apply Z.mod_small.
Qed.

Lemma empty_test p : pipe_ok p -> (nread p =? nwrite p) = (count p =? 0).
Proof.
  intros [_ Hr Hw _]. unfold count, w32. apply Bool.eq_iff_eq_true. rewrite !Z.eqb_eq. split.
  - intros ->. by rewrite Z.sub_diag.
  - intros E. apply Z.mod_divide in E as [k E]; [|lia]. assert (k = 0) by lia. lia.
Qed.

Lemma count_put ch p : pipe_ok p -> count p < PIPESIZE -> count (put_char ch p) = count p + 1.
Proof.
  intros [_ Hr Hw _] Hc. unfold count, put_char, w32, PIPESIZE in *. cbn [nwrite nread]. rewrite Zminus_mod_idemp_l.
  replace (nwrite p + 1 - nread p) with (nwrite p - nread p + 1) by lia. rewrite <- Z.add_mod_idemp_l by lia.
  apply Z.mod_small. pose proof (Z.mod_pos_bound (nwrite p - nread p) (2 ^ 32)). lia.
Qed.

Lemma count_drop p : pipe_ok p -> 0 < count p -> count (drop_char p) = count p - 1.
Proof.
  intros [_ Hr Hw Hm] Hc. unfold count, drop_char, w32, PIPESIZE in *. cbn [nwrite nread]. rewrite Zminus_mod_idemp_r.
  replace (nwrite p - (nread p + 1)) with (nwrite p - nread p - 1) by lia. rewrite <- Zminus_mod_idemp_l.
  apply Z.mod_small. lia.
Qed.

Lemma put_char_ok ch p : pipe_ok p -> count p < PIPESIZE -> pipe_ok (put_char ch p).
Proof.
  intros OK Hc. pose proof (count_put ch p OK Hc). destruct OK. constructor; cbn; [by rewrite length_insert|done|apply w32_range|].
  unfold PIPESIZE in *. lia.
Qed.

Lemma drop_char_ok p : pipe_ok p -> 0 < count p -> pipe_ok (drop_char p).
Proof.
  intros OK Hc. pose proof (count_drop p OK Hc). destruct OK. constructor; cbn; [done|apply w32_range|done|lia].
Qed.

Lemma ring_index p k : 0 <= (nread p + k) mod PIPESIZE < PIPESIZE.
Proof. by apply Z.mod_pos_bound. Qed.

Lemma contents_put ch p : pipe_ok p -> count p < PIPESIZE -> contents (put_char ch p) = contents p ++ [ch].
Proof.
  intros OK Hc. unfold contents. rewrite (count_put ch p OK Hc). pose proof (count_nonneg p).
  rewrite seqZ_app by lia. rewrite fmap_app. rewrite Z.add_0_l. cbn [put_char nread pp_data]. f_equal.
  - apply list_fmap_ext. intros j k Hj. apply list_elem_of_lookup_2, elem_of_seqZ in Hj. rewrite !nth_lookup.
    pose proof (ring_index p k). assert (0 <= nwrite p mod PIPESIZE < PIPESIZE) by (by apply Z.mod_pos_bound).
    rewrite lookup_insert_Z by (rewrite ?(po_len _ OK); lia). rewrite decide_False; [done|].
    intros E. assert ((nwrite p - (nread p + k)) mod PIPESIZE = 0) as E'.
    { rewrite Zminus_mod, E, Z.sub_diag. done. }
    assert ((nwrite p - nread p - k) mod PIPESIZE = (count p - k) mod PIPESIZE) as E2.
    { unfold count. rewrite <- Zminus_mod_idemp_l. rewrite <- (w32_mod_pipe (nwrite p - nread p)). by rewrite Zminus_mod_idemp_l. }
    replace (nwrite p - (nread p + k)) with (nwrite p - nread p - k) in E' by lia. rewrite E2, Z.mod_small in E'; lia.
  - rewrite (seqZ_cons (count p) 1) by lia. change (seqZ (Z.succ (count p)) (Z.pred 1)) with (@nil Z).
    cbn [fmap list_fmap]. f_equal. rewrite nth_lookup. assert ((nread p + count p) mod PIPESIZE = nwrite p mod PIPESIZE) as ->.
    { unfold count. rewrite <- Z.add_mod_idemp_r, w32_mod_pipe by done. rewrite Z.add_mod_idemp_r by done. f_equal. lia. }
    assert (0 <= nwrite p mod PIPESIZE < PIPESIZE) by (by apply Z.mod_pos_bound).
    rewrite list_lookup_insert_eq; [done|]. rewrite (po_len _ OK). lia.
Qed.

Lemma contents_drop p : pipe_ok p -> 0 < count p -> contents p = get_char p :: contents (drop_char p).
Proof.
  intros OK Hc. unfold contents. rewrite (count_drop p OK Hc).
  replace (count p) with (1 + (count p - 1)) at 1 by lia. rewrite seqZ_app by lia. rewrite fmap_app.
  cbn [drop_char nread pp_data]. change (seqZ 0 1) with [0]. cbn [fmap list_fmap app]. f_equal; [by rewrite Z.add_0_r|].
  change (0 + 1) with (1 + 0). rewrite <- (fmap_add_seqZ 1 0 (count p - 1)), <- list_fmap_compose.
  apply list_fmap_ext. intros j k _. unfold compose. f_equal. f_equal.
  rewrite <- (Z.add_mod_idemp_l (w32 (nread p + 1))), w32_mod_pipe by done. rewrite Z.add_mod_idemp_l by done. f_equal. lia.
Qed.

(** ** The calls on the queue *)

Context `{UL : !UserLaws U}.

(** The [k] bytes of user memory from [addr + i] on. *)
Definition user_bytes (u : U) (addr i : Z) (k : nat) : list Z :=
  (fun j => um_byte u (w64 (addr + i + Z.of_nat j))) <$> seq 0 k.

Lemma user_bytes_S u addr i k : user_bytes u addr i (S k) = um_byte u (w64 (addr + i)) :: user_bytes u addr (i + 1) k.
Proof.
  unfold user_bytes. cbn [seq fmap list_fmap]. f_equal; [f_equal; f_equal; lia|].
  rewrite <- fmap_S_seq, <- list_fmap_compose. apply list_fmap_ext. intros j x _. unfold compose. f_equal. f_equal. lia.
Qed.

Lemma user_bytes_ext u u' addr i k : (forall a, um_byte u' a = um_byte u a) -> user_bytes u' addr i k = user_bytes u addr i k.
Proof. intros E. apply list_fmap_ext. intros. apply E. Qed.

(** pipewrite appends bytes of user memory, in order, and returns how many,
    unless it fails with -1; it sleeps only when the pipe is full. *)
Lemma pipewrite_wp fuel killed addr n i p u :
  pipe_ok p -> (Z.to_nat (n - i) <= fuel)%nat ->
  wp (pipewrite fuel killed addr n i) (fun r s' => exists k, pipe_ok s'.1 /\
    contents s'.1 = contents p ++ user_bytes u addr i k /\ (forall a, um_byte s'.2 a = um_byte u a) /\
    match r with
    | Done r => r = -1 /\ k = 0%nat /\ (readopen p = 0 \/ killed = true) \/ r = i + Z.of_nat k
    | Blocked j => j = i + Z.of_nat k /\ j < n /\ count s'.1 = PIPESIZE
    end) (p, u).
Proof.
  revert p u i. induction fuel as [|fuel IH]; intros p u i OK Hf; cbn [pipewrite].
  - destruct (Z.ltb_spec i n); [lia|]. cbn [negb]. wp_steps. exists 0%nat. rewrite app_nil_r. split_and!; try done. right. lia.
  - destruct (Z.ltb_spec i n); cbn [negb]; wp_steps; [|exists 0%nat; rewrite app_nil_r; split_and!; try done; right; lia].
    cbn [fst]. destruct (Z.eqb_spec (readopen p) 0) as [Er|Nr]; cbn [orb].
    { wp_steps. exists 0%nat. rewrite app_nil_r. split_and!; try done. left. auto. }
    destruct killed; [wp_steps; exists 0%nat; rewrite app_nil_r; split_and!; try done; left; auto|].
    rewrite (full_test p OK). destruct (Z.eqb_spec (count p) PIPESIZE) as [Ec|Nc].
    { wp_steps. exists 0%nat. rewrite app_nil_r. split_and!; try done; [lia]. }
    assert (count p < PIPESIZE) as Hc by (pose proof (po_count _ OK); lia).
    wp_step. unfold copyin1, wp at 1. cbn [fst snd]. destruct (copyin_user (w64 (addr + i)) 1 u) as [[l ok] u'] eqn:Ein.
    destruct (law_copyin _ _ _ _ _ _ Ein) as [Hu Hl]. destruct ok.
    + specialize (Hl eq_refl). cbv beta iota. wp_steps. cbn [fst snd].
      assert (hd 0 l = um_byte u (w64 (addr + i))) as Eh by (rewrite Hl; change (seqZ 0 1) with [0]; cbn [fmap list_fmap hd]; by rewrite Z.add_0_r). rewrite Eh.
      eapply wp_mono; [apply (IH (put_char (um_byte u (w64 (addr + i))) p) u' (i + 1)); [by apply put_char_ok|lia]|].
      intros r s' (k & OK' & E & Hu' & Hr). exists (S k). rewrite user_bytes_S. rewrite E, contents_put by done.
      rewrite (user_bytes_ext u u') by done. split_and!; [done|by rewrite <- app_assoc|intros a; by rewrite Hu', Hu|].
      destruct r as [r|j]; [destruct Hr as [(_ & _ & [Hr|Hr])|Hr]; [done|done|right; lia]|]. split_and!; [lia|lia|apply Hr].
    + cbv beta iota. wp_steps. exists 0%nat. rewrite app_nil_r. split_and!; try done. right. lia.
Qed.

(** piperead removes bytes from the front of the queue and stores them at
    [addr]. *)
Lemma piperead_loop_wp fuel addr n i p u :
  pipe_ok p -> 0 <= i -> (Z.to_nat (n - i) <= fuel)%nat -> 0 <= addr -> addr + n <= 2 ^ 64 ->
  wp (piperead_loop fuel addr n i) (fun r s' => exists bs, pipe_ok s'.1 /\ contents p = bs ++ contents s'.1 /\
    (r = i + Z.of_nat (length bs) /\ Z.of_nat (length bs) <= Z.max 0 (n - i) \/ (r = -1 /\ i = 0 /\ bs = [])) /\
    (forall k x, bs !! k = Some x -> um_byte s'.2 (addr + i + Z.of_nat k) = x) /\
    (forall a, ~ (addr + i <= a < addr + n) -> um_byte s'.2 a = um_byte u a)) (p, u).
Proof.
  revert p u i. induction fuel as [|fuel IH]; intros p u i OK Hi Hf Ha Hn; cbn [piperead_loop].
  - destruct (Z.ltb_spec i n); [lia|]. cbn [negb]. wp_steps. exists []. split_and!; try done. left. cbn. lia.
  - destruct (Z.ltb_spec i n); cbn [negb]; wp_steps; [|exists []; split_and!; try done; left; cbn; lia].
    cbn [fst]. rewrite (empty_test p OK). destruct (Z.eqb_spec (count p) 0) as [Ec|Nc].
    { wp_steps. exists []. split_and!; try done. left. cbn. lia. }
    assert (0 < count p) as Hc by (pose proof (count_nonneg p); lia).
    wp_step. unfold copyout1, wp at 1. cbn [fst snd]. rewrite w64_id by lia.
    destruct (copyout_user _ _ u) as [ok u'] eqn:Eo. destruct (law_copyout _ _ _ _ _ Eo) as [Hu Hs]. cbn [length] in Hu.
    destruct ok; cbn [negb].
    + wp_steps. cbn [fst snd]. eapply wp_mono; [apply (IH (drop_char p) u' (i + 1)); [by apply drop_char_ok|lia|lia|done|done]|].
      intros r s' (bs & OK' & E & Hr & Hb & Hfr). exists (get_char p :: bs). split_and!; [done| | | |].
      * rewrite (contents_drop p) by done. by rewrite E.
      * left. cbn [length]. destruct Hr as [Hr|(_ & Hr & _)]; lia.
      * intros [|k] x; cbn.
        -- intros [= <-]. rewrite Z.add_0_r, Hfr by lia. specialize (Hs eq_refl 0%nat _ eq_refl). by rewrite Z.add_0_r in Hs.
        -- intros Hk. rewrite <- (Hb k x Hk). f_equal. lia.
      * intros a Hna. rewrite Hfr by lia. apply Hu. lia.
    + wp_steps. exists []. split_and!; try done.
      * destruct (Z.eqb_spec i 0); [right; auto|left; cbn; lia].
      * intros a Hna. apply Hu. lia.
Qed.

(** *** Any sequence of calls

    [pipe_trace s0 ws rs s] says that calls of pipewrite, piperead and
    pipeclose lead from [s0] to [s], that the writers' memories held [ws] at
    the places whose bytes pipewrite accepted, and that the readers' memories
    hold [rs] at the places piperead reports to have filled.  Between calls
    the user memory is that of whatever process calls next. *)

Definition accepted (i : Z) (o : outcome) : nat :=
  match o with Done r => Z.to_nat (r - i) | Blocked j => Z.to_nat (j - i) end.
Definition delivered (o : outcome) : nat := match o with Done r => Z.to_nat r | Blocked _ => 0 end.

Inductive pipe_trace (s0 : pipe * U) : list Z -> list Z -> pipe * U -> Prop :=
  | pt_nil : pipe_trace s0 [] [] s0
  | pt_user ws rs p u u' : pipe_trace s0 ws rs (p, u) -> pipe_trace s0 ws rs (p, u')
  | pt_write ws rs s s' killed addr n i o :
      pipe_trace s0 ws rs s -> 0 <= i -> pipewrite (rw_steps (n - i)) killed addr n i s = Ret o s' ->
      pipe_trace s0 (ws ++ user_bytes s.2 addr i (accepted i o)) rs s'
  | pt_read ws rs s s' killed addr n o :
      pipe_trace s0 ws rs s -> 0 <= addr -> addr + n <= 2 ^ 64 -> piperead killed addr n s = Ret o s' ->
      pipe_trace s0 ws (rs ++ user_bytes s'.2 addr 0 (delivered o)) s'
  | pt_close ws rs p u w : pipe_trace s0 ws rs (p, u) -> pipe_trace s0 ws rs ((pipeclose w p).1, u).

Lemma pipe_init_ok junk : length junk = Z.to_nat PIPESIZE -> pipe_ok (pipe_init junk).
Proof. intros H. constructor; [done|done|done|]. by vm_compute. Qed.

Lemma pipewrite_trace killed addr n i s o s' :
  pipe_ok s.1 -> 0 <= i -> pipewrite (rw_steps (n - i)) killed addr n i s = Ret o s' ->
  pipe_ok s'.1 /\ contents s'.1 = contents s.1 ++ user_bytes s.2 addr i (accepted i o).
Proof.
  destruct s as [p u]. cbn [fst snd]. intros OK Hi E.
  assert (Z.to_nat (n - i) <= rw_steps (n - i))%nat as Hf by (unfold rw_steps; lia).
  pose proof (pipewrite_wp (rw_steps (n - i)) killed addr n i p u OK Hf) as W.
  unfold wp in W. rewrite E in W. destruct W as (k & OK' & Ec & _ & Hr). split; [done|]. rewrite Ec. do 2 f_equal.
  unfold accepted. destruct o as [r|j]; [destruct Hr as [(-> & -> & _)|Hr]|]; lia.
Qed.

Lemma piperead_trace killed addr n s o s' :
  pipe_ok s.1 -> 0 <= addr -> addr + n <= 2 ^ 64 -> piperead killed addr n s = Ret o s' ->
  pipe_ok s'.1 /\ contents s.1 = user_bytes s'.2 addr 0 (delivered o) ++ contents s'.1.
Proof.
  destruct s as [p u]. cbn [fst snd]. intros OK Ha Hn E. unfold piperead, mbind, M_bind in E. cbn [gets fst] in E.
  destruct (_ && _).
  { injection E as <- <-. split; [done|]. by destruct killed. }
  pose proof (piperead_loop_wp (rw_steps n) addr n 0 p u OK ltac:(lia) ltac:(unfold rw_steps; lia) Ha Hn) as W. unfold wp in W.
  destruct (piperead_loop _ _ _ _ _) as [r s1| |]; [|done|done]. injection E as <- <-.
  destruct W as (bs & OK' & Ec & Hr & Hb & _). split; [done|]. rewrite Ec. f_equal. apply list_eq. intros k.
  assert (delivered (Done r) = length bs) as -> by (cbn; destruct Hr as [Hr|(-> & _ & ->)]; [lia|done]).
  unfold user_bytes. rewrite list_lookup_fmap. destruct (decide (k < length bs)%nat) as [Hk|Hk].
  - rewrite lookup_seq_lt by lia. cbn [fmap option_fmap option_map]. destruct (lookup_lt_is_Some_2 bs k Hk) as [x Hx].
    rewrite Hx. f_equal. rewrite <- (Hb k x Hx). cbn [Nat.add]. rewrite w64_id; [done|].
    destruct Hr as [Hr|(_ & _ & ->)]; [lia|cbn in Hk; lia].
  - rewrite (lookup_ge_None_2 bs) by lia. rewrite lookup_seq_ge by lia. done.
Qed.

Lemma pipe_trace_ok s0 ws rs s :
  pipe_ok s0.1 -> contents s0.1 = [] -> pipe_trace s0 ws rs s -> pipe_ok s.1 /\ ws = rs ++ contents s.1.
Proof.
  intros OK0 E0. induction 1 as [|ws rs p u u' _ IH|ws rs s s' killed addr n i o _ IH Hi E|
    ws rs s s' killed addr n o _ IH Ha Hn E|ws rs p u w _ IH].
  - by rewrite E0.
  - exact IH.
  - destruct IH as [OK ->]. destruct (pipewrite_trace _ _ _ _ _ _ _ OK Hi E) as [OK' ->]. by rewrite app_assoc.
  - destruct IH as [OK ->]. destruct (piperead_trace _ _ _ _ _ _ OK Ha Hn E) as [OK' ->]. by rewrite app_assoc.
  - destruct IH as [[] E]. unfold pipeclose. cbn in *. destruct (negb _); cbn; by split.
Qed.
End pipe.
