(* ===== verification/Console.v ===== *)
(** * Console input (kernel/console.c)

    The input ring of INPUT_BUF_SIZE bytes with its three free-running 32-bit
    indices: [r] up to which consoleread has consumed, [w] up to which whole
    lines have arrived, [e] up to which the line being edited extends. *)
From stdpp Require Import base tactics numbers list strings.
From Stdlib Require Import ZArith Lia.
From S2P Require Import Prelude UserMem.

Open Scope Z_scope.

Definition INPUT_BUF_SIZE : Z := 128.
Definition BACKSPACE : Z := 0x100.
(** C(x), control-x. *)
Definition Ctrl (x : Z) : Z := x - 64.
Definition CTRL_D : Z := Ctrl 68.
Definition CTRL_H : Z := Ctrl 72.
Definition CTRL_P : Z := Ctrl 80.
Definition CTRL_U : Z := Ctrl 85.
Definition DELETE : Z := 127.
Definition NEWLINE : Z := 10.
Definition RETURN : Z := 13.

(** struct cons, and the bytes sent to the uart. *)
Record cons := Cons { c_buf : list Z; c_r : Z; c_w : Z; c_e : Z; c_tx : list Z }.

Definition set_e x c := Cons (c_buf c) (c_r c) (c_w c) x (c_tx c).
Definition set_r x c := Cons (c_buf c) x (c_w c) (c_e c) (c_tx c).
Definition set_w x c := Cons (c_buf c) (c_r c) x (c_e c) (c_tx c).
Definition send l c := Cons (c_buf c) (c_r c) (c_w c) (c_e c) (c_tx c ++ l).

(** The byte at a free-running index. *)
Definition at_index (c : cons) (i : Z) : Z := nth (Z.to_nat (i mod INPUT_BUF_SIZE)) (c_buf c) 0.
Definition store_at (c : cons) (i x : Z) : cons :=
  Cons (<[Z.to_nat (i mod INPUT_BUF_SIZE) := x]> (c_buf c)) (c_r c) (c_w c) (c_e c) (c_tx c).

Definition consputc (x : Z) (c : cons) : cons :=
  if x =? BACKSPACE then send [8; 32; 8] c else send [x] c.

(** The loop that kills the line. *)
Fixpoint kill_line (fuel : nat) (c : cons) : option cons :=
  if negb (c_e c =? c_w c) && negb (at_index c (w32 (c_e c - 1)) =? NEWLINE) then
    match fuel with
    | O => None
    | S fuel => kill_line fuel (consputc BACKSPACE (set_e (w32 (c_e c - 1)) c))
    end
  else Some c.

(** consoleintr; procdump, which ^P calls, only prints. *)
Definition consoleintr (x : Z) (c : cons) : option cons :=
  if x =? CTRL_P then Some c
  else if x =? CTRL_U then kill_line (Z.to_nat INPUT_BUF_SIZE) c
  else if (x =? CTRL_H) || (x =? DELETE) then
    Some (if negb (c_e c =? c_w c) then consputc BACKSPACE (set_e (w32 (c_e c - 1)) c) else c)
  else
    Some (if negb (x =? 0) && (w32 (c_e c - c_r c) <? INPUT_BUF_SIZE) then
      let x := if x =? RETURN then NEWLINE else x in
      let c := consputc x c in
      let c := set_e (w32 (c_e c + 1)) (store_at c (c_e c) (w8 x)) in
      if (x =? NEWLINE) || (x =? CTRL_D) || (w32 (c_e c - c_r c) =? INPUT_BUF_SIZE)
      then set_w (c_e c) c else c
    else c).

Definition consoleinit : cons := Cons (replicate (Z.to_nat INPUT_BUF_SIZE) 0) 0 0 0 [].

(** What consoleread does: return a value, or sleep with [n] bytes wanted. *)
Inductive read_outcome := Returns (r : Z) | Sleeps (n dst : Z).

Section console.
Context {U : Type} `{UM : UserMem U}.

(** The loop of consoleread; [target] is the byte count asked for. *)
Fixpoint consoleread (fuel : nat) (killed : bool) (target n dst : Z) : M (cons * U) read_outcome :=
  if negb (0 <? n) then mret (Returns (target - n))
  else match fuel with
  | O => nofuel
  | S fuel =>
      c ← gets fst;
      if c_r c =? c_w c then mret (if killed then Returns (-1) else Sleeps n dst)
      else
        let x := at_index c (c_r c) in
        modify (fun s => (set_r (w32 (c_r s.1 + 1)) s.1, s.2));;
        if x =? CTRL_D then
          (when n <? target do modify (fun s => (set_r (w32 (c_r s.1 - 1)) s.1, s.2)));;
          mret (Returns (target - n))
        else
          ok ← (fun s => let '(ok, u) := copyout_user (w64 dst) [x] s.2 in Ret ok (s.1, u));
          if negb ok then mret (Returns (target - n))
          else if x =? NEWLINE then mret (Returns (target - (n - 1)))
          else consoleread fuel killed target (n - 1) (dst + 1)
  end.

(** consolewrite: 32 bytes at a time to uartwrite. *)
Fixpoint consolewrite (fuel : nat) (src n i : Z) : M (cons * U) Z :=
  if negb (i <? n) then mret i
  else match fuel with
  | O => nofuel
  | S fuel =>
      let nn := Z.min 32 (n - i) in
      r ← (fun s => let '(l, ok, u) := copyin_user (w64 (src + i)) nn s.2 in
                    Ret (if (ok : bool) then Some l else None) (s.1, u));
      match r with
      | None => mret i
      | Some l => modify (fun s => (send l s.1, s.2));; consolewrite fuel src n (i + nn)
      end
  end.
End console.

(** ** The input as two sequences *)

(** The [n] bytes from index [i] on. *)
Definition span (c : cons) (i n : Z) : list Z := (fun k => at_index c (i + k)) <$> seqZ 0 n.

(** Whole lines that consoleread has not consumed yet, and the line being
    edited. *)
Definition committed (c : cons) : list Z := span c (c_r c) (w32 (c_w c - c_r c)).
Definition editing (c : cons) : list Z := span c (c_w c) (w32 (c_e c - c_w c)).

Record cons_ok (c : cons) : Prop := {
  co_len : length (c_buf c) = Z.to_nat INPUT_BUF_SIZE;
  co_r : 0 <= c_r c < 2 ^ 32;
  co_w : 0 <= c_w c < 2 ^ 32;
  co_e : 0 <= c_e c < 2 ^ 32;
  co_room : w32 (c_w c - c_r c) + w32 (c_e c - c_w c) <= INPUT_BUF_SIZE
}.

Lemma w32_mod_cons x : w32 x mod INPUT_BUF_SIZE = x mod INPUT_BUF_SIZE.
Proof.
  unfold w32, INPUT_BUF_SIZE. rewrite (Z.div_mod x (2 ^ 32)) at 2 by lia.
  replace (2 ^ 32 * (x / 2 ^ 32)) with (2 ^ 25 * (x / 2 ^ 32) * 128) by lia.
  by rewrite Z.add_comm, Z_mod_plus_full.
Qed.

Lemma at_index_w32 c i k : at_index c (w32 i + k) = at_index c (i + k).
Proof.
  unfold at_index. f_equal. f_equal. rewrite <- Z.add_mod_idemp_l, w32_mod_cons, Z.add_mod_idemp_l by done. done.
Qed.

(** Distances between indices add up as long as they fit the ring. *)
Lemma dist_add c : cons_ok c -> w32 (c_e c - c_r c) = w32 (c_w c - c_r c) + w32 (c_e c - c_w c).
Proof.
  intros [_ _ _ _ H]. unfold INPUT_BUF_SIZE, w32 in *.
  replace (c_e c - c_r c) with ((c_w c - c_r c) + (c_e c - c_w c)) by lia. rewrite Z.add_mod by lia.
  apply Z.mod_small. pose proof (Z.mod_pos_bound (c_w c - c_r c) (2 ^ 32)). pose proof (Z.mod_pos_bound (c_e c - c_w c) (2 ^ 32)). lia.
Qed.

Lemma dist_succ a b : 0 <= w32 (a - b) < INPUT_BUF_SIZE -> w32 (w32 (a + 1) - b) = w32 (a - b) + 1.
Proof.
  intros H. unfold w32, INPUT_BUF_SIZE in *. rewrite Zminus_mod_idemp_l. replace (a + 1 - b) with (a - b + 1) by lia.
  rewrite <- Z.add_mod_idemp_l by lia. apply Z.mod_small. lia.
Qed.
Lemma dist_pred a b : 0 < w32 (a - b) -> w32 (w32 (a - 1) - b) = w32 (a - b) - 1.
Proof.
  intros H. unfold w32 in *. rewrite Zminus_mod_idemp_l. replace (a - 1 - b) with (a - b - 1) by lia.
  rewrite <- Zminus_mod_idemp_l. apply Z.mod_small. pose proof (Z.mod_pos_bound (a - b) (2 ^ 32)). lia.
Qed.
Lemma dist_zero a b : 0 <= a < 2 ^ 32 -> 0 <= b < 2 ^ 32 -> (a =? b) = (w32 (a - b) =? 0).
Proof.
  intros Ha Hb. unfold w32. apply Bool.eq_iff_eq_true. rewrite !Z.eqb_eq. split.
  - intros ->. by rewrite Z.sub_diag.
  - intros E. apply Z.mod_divide in E as [k E]; [|lia]. assert (k = 0) by lia. lia.
Qed.

Lemma span_length c i n : length (span c i n) = Z.to_nat n.
Proof. unfold span. by rewrite length_fmap, length_seqZ. Qed.

Lemma span_app c i n m : 0 <= n -> 0 <= m -> span c i (n + m) = span c i n ++ span c (i + n) m.
Proof.
  intros Hn Hm. unfold span. rewrite seqZ_app, fmap_app by lia. f_equal.
  replace (0 + n) with (n + 0) by lia. rewrite <- (fmap_add_seqZ n 0 m), <- list_fmap_compose.
  apply list_fmap_ext. intros k x _. unfold compose. f_equal. lia.
Qed.

Lemma span_w32 c i n : span c (w32 i) n = span c i n.
Proof. unfold span. apply list_fmap_ext. intros. apply at_index_w32. Qed.

Lemma span_1 c i : span c i 1 = [at_index c i].
Proof. unfold span. change (seqZ 0 1) with [0]. cbn [fmap list_fmap]. by rewrite Z.add_0_r. Qed.

(** Storing at an index outside of a span. *)
Lemma span_store c i n j x :
  length (c_buf c) = Z.to_nat INPUT_BUF_SIZE -> n <= w32 (j - i) < INPUT_BUF_SIZE -> span (store_at c j x) i n = span c i n.
Proof.
  intros Hl Hd. unfold span. apply list_fmap_ext. intros y k Hy. apply list_elem_of_lookup_2, elem_of_seqZ in Hy.
  unfold at_index, store_at. cbn [c_buf]. rewrite !nth_lookup.
  assert (0 <= j mod INPUT_BUF_SIZE < INPUT_BUF_SIZE) by (by apply Z.mod_pos_bound).
  assert (0 <= (i + k) mod INPUT_BUF_SIZE < INPUT_BUF_SIZE) by (by apply Z.mod_pos_bound).
  rewrite lookup_insert_Z by (rewrite ?Hl; lia). rewrite decide_False; [done|]. intros E.
  assert ((j - i - k) mod INPUT_BUF_SIZE = 0) as E1.
  { replace (j - i - k) with (j - (i + k)) by lia. by rewrite Zminus_mod, E, Z.sub_diag. }
  assert ((j - i - k) mod INPUT_BUF_SIZE = (w32 (j - i) - k) mod INPUT_BUF_SIZE) as E2.
  { by rewrite <- (Zminus_mod_idemp_l (w32 (j - i))), w32_mod_cons, Zminus_mod_idemp_l. }
  rewrite E2, Z.mod_small in E1; lia.
Qed.

Lemma at_store c j x : length (c_buf c) = Z.to_nat INPUT_BUF_SIZE -> at_index (store_at c j x) j = x.
Proof.
  intros Hl. unfold at_index, store_at. cbn [c_buf]. assert (0 <= j mod INPUT_BUF_SIZE < INPUT_BUF_SIZE) by (by apply Z.mod_pos_bound).
  rewrite nth_lookup, list_lookup_insert_eq by (rewrite Hl; lia). done.
Qed.

(** ** consoleintr *)

(** The line discipline on the two sequences: what a key press does to the
    lines that have arrived and to the line being edited, and its echo. *)
Definition RUBOUT : list Z := [8; 32; 8].
Definition key (x : Z) : Z := if x =? RETURN then NEWLINE else x.
Definition ends_line (y : Z) (com ed : list Z) : bool :=
  (y =? NEWLINE) || (y =? CTRL_D) || (Z.of_nat (length com + length ed) + 1 =? INPUT_BUF_SIZE).
Definition keystroke (x : Z) (com ed : list Z) : list Z * list Z * list Z :=
  if x =? CTRL_P then (com, ed, [])
  else if x =? CTRL_U then (com, [], mjoin (replicate (length ed) RUBOUT))
  else if (x =? CTRL_H) || (x =? DELETE) then
    match ed with [] => (com, [], []) | _ => (com, take (length ed - 1) ed, RUBOUT) end
  else if (x =? 0) || (INPUT_BUF_SIZE <=? Z.of_nat (length com + length ed)) then (com, ed, [])
  else if ends_line (key x) com ed then (com ++ ed ++ [key x], [], [key x])
  else (com, ed ++ [key x], [key x]).

Definition no_newline (l : list Z) : Prop := Forall (fun x => x <> NEWLINE) l.

Lemma last_index c : cons_ok c -> 0 < w32 (c_e c - c_w c) -> at_index c (w32 (c_e c - 1)) = at_index c (c_w c + (w32 (c_e c - c_w c) - 1)).
Proof.
  intros OK Hd. unfold at_index. f_equal. f_equal. rewrite w32_mod_cons.
  replace (c_w c + (w32 (c_e c - c_w c) - 1)) with (w32 (c_e c - c_w c) + (c_w c - 1)) by lia.
  rewrite (Z.add_mod (w32 _)), w32_mod_cons, <- Z.add_mod by done. f_equal. lia.
Qed.

(** Erasing the last byte of the line being edited. *)
Lemma erase_spec c :
  cons_ok c -> 0 < w32 (c_e c - c_w c) ->
  let c' := consputc BACKSPACE (set_e (w32 (c_e c - 1)) c) in
  cons_ok c' /\ committed c' = committed c /\ w32 (c_e c' - c_w c') = w32 (c_e c - c_w c) - 1 /\
  editing c = editing c' ++ [at_index c (w32 (c_e c - 1))] /\ c_tx c' = c_tx c ++ RUBOUT.
Proof.
  intros OK Hd c'. pose proof (dist_pred _ _ Hd) as Ed. assert (w32 (c_e c' - c_w c') = w32 (c_e c - c_w c) - 1) as Ed' by exact Ed.
  split_and!; [|done|done| |done].
  - destruct OK as [O1 O2 O3 O4 O5]. constructor; cbn; [done|done|done|apply w32_range|rewrite Ed; lia].
  - rewrite last_index by done. unfold editing at 1.
    replace (w32 (c_e c - c_w c)) with ((w32 (c_e c - c_w c) - 1) + 1) at 1 by lia. rewrite span_app, span_1 by lia.
    unfold editing. by rewrite Ed'.
Qed.

Lemma editing_length c : length (editing c) = Z.to_nat (w32 (c_e c - c_w c)).
Proof. apply span_length. Qed.
Lemma committed_length c : length (committed c) = Z.to_nat (w32 (c_w c - c_r c)).
Proof. apply span_length. Qed.

Lemma replicate_join_cons n (l : list Z) : mjoin (replicate (S n) l) = l ++ mjoin (replicate n l).
Proof. done. Qed.

(** A line without newlines is erased as a whole. *)
Lemma kill_line_spec fuel c :
  cons_ok c -> no_newline (editing c) -> (Z.to_nat (w32 (c_e c - c_w c)) <= fuel)%nat ->
  exists c', kill_line fuel c = Some c' /\ cons_ok c' /\ committed c' = committed c /\ editing c' = [] /\
    c_tx c' = c_tx c ++ mjoin (replicate (length (editing c)) RUBOUT).
Proof.
  revert c. induction fuel as [|fuel IH]; intros c OK Hnl Hf; cbn [kill_line]; rewrite (dist_zero _ _ (co_e _ OK) (co_w _ OK));
    pose proof (w32_range (c_e c - c_w c)); (destruct (Z.eqb_spec (w32 (c_e c - c_w c)) 0) as [E|N]; [|try lia]); cbn [negb andb].
  1, 2: (assert (editing c = []) as Ee by (unfold editing; by rewrite E)); exists c; rewrite Ee; cbn [length replicate mjoin list_join]; rewrite app_nil_r; split_and!; done.
  destruct (erase_spec c OK ltac:(lia)) as (OK' & Ec & Ed & Ex & Et). set (c1 := consputc _ _) in *.
  unfold no_newline in Hnl. rewrite Ex in Hnl. apply Forall_app in Hnl as [Hnl Hx]. pose proof (Forall_inv Hx) as Hx0. cbv beta in Hx0.
  rewrite (proj2 (Z.eqb_neq _ _) Hx0). cbn [negb].
  destruct (IH c1 OK' Hnl) as (c' & Ek & OK2 & Ec2 & Ee2 & Et2); [lia|]. exists c'. split_and!; [done|done|by rewrite Ec2, Ec|done|].
  rewrite Et2, Et, Ex, length_app. cbn [length]. rewrite Nat.add_1_r, replicate_join_cons, <- app_assoc. done.
Qed.

(** Input never overruns the ring and follows the line discipline. *)
Lemma consoleintr_spec x c :
  cons_ok c -> no_newline (editing c) -> 0 <= x < 256 ->
  exists c', consoleintr x c = Some c' /\ cons_ok c' /\ no_newline (editing c') /\
    let '(com, ed, echo) := keystroke x (committed c) (editing c) in
    committed c' = com /\ editing c' = ed /\ c_tx c' = c_tx c ++ echo.
Proof.
  intros OK Hnl Hx. pose proof (w32_range (c_e c - c_w c)) as He. pose proof (w32_range (c_w c - c_r c)) as Hw.
  assert (c_tx c = c_tx c ++ []) as Etx by (by rewrite app_nil_r).
  unfold consoleintr, keystroke. destruct (x =? CTRL_P); [by exists c|]. destruct (x =? CTRL_U).
  { destruct (kill_line_spec (Z.to_nat INPUT_BUF_SIZE) c OK Hnl) as (c' & Ek & OK' & Ec & Ee & Et).
    - pose proof (co_room _ OK). lia.
    - exists c'. rewrite Ee. split_and!; try done. constructor. }
  destruct (_ || _).
  { rewrite (dist_zero _ _ (co_e _ OK) (co_w _ OK)). destruct (Z.eqb_spec (w32 (c_e c - c_w c)) 0) as [E|N]; cbn [negb] in *.
    - assert (editing c = []) as Ee by (unfold editing; by rewrite E). exists c. rewrite Ee in *. done.
    - destruct (erase_spec c OK ltac:(lia)) as (OK' & Ec & Ed & Ex & Et). eexists. split; [done|]. split; [exact OK'|].
      pose proof Hnl as Hnl'. unfold no_newline in Hnl'. rewrite Ex in Hnl'. apply Forall_app in Hnl' as [Hnl' _].
      split; [exact Hnl'|]. destruct (editing c) as [|z l] eqn:Eed; [by destruct (editing (consputc _ _))|]. rewrite Ex.
      split_and!; [exact Ec| |exact Et]. rewrite length_app. cbn [length]. by rewrite Nat.add_sub, take_app_length. }
  rewrite (dist_add c OK). unfold ends_line. rewrite editing_length, committed_length.
  replace (Z.of_nat (Z.to_nat (w32 (c_w c - c_r c)) + Z.to_nat (w32 (c_e c - c_w c)))) with (w32 (c_w c - c_r c) + w32 (c_e c - c_w c)) by lia.
  destruct (Z.eqb_spec x 0) as [|Nx]; cbn [negb andb orb]; [by exists c|].
  destruct (Z.ltb_spec (w32 (c_w c - c_r c) + w32 (c_e c - c_w c)) INPUT_BUF_SIZE) as [Hroom|Hfull].
  2: { rewrite (proj2 (Z.leb_le _ _) Hfull). by exists c. }
  rewrite (proj2 (Z.leb_gt _ _) Hroom). fold (key x). set (y := key x). assert (0 <= y < 256) as Hy by (unfold y, key; destruct (x =? RETURN); unfold NEWLINE; lia).
  cbv zeta. assert (consputc y c = Cons (c_buf c) (c_r c) (c_w c) (c_e c) (c_tx c ++ [y])) as Et.
  { unfold consputc. destruct (Z.eqb_spec y BACKSPACE); [unfold BACKSPACE in *; lia|done]. }
  rewrite Et, (w8_id y) by lia. cbn [c_e c_r]. set (c1 := Cons (c_buf c) (c_r c) (c_w c) (c_e c) (c_tx c ++ [y])).
  set (c2 := set_e (w32 (c_e c + 1)) (store_at c1 (c_e c) y)).
  assert (w32 (c_e c2 - c_w c2) = w32 (c_e c - c_w c) + 1) as Ed by (apply dist_succ; unfold INPUT_BUF_SIZE in *; lia).
  assert (length (c_buf c1) = Z.to_nat INPUT_BUF_SIZE) as L1 by exact (co_len _ OK).
  assert (cons_ok c2) as OK2.
  { destruct OK as [O1 O2 O3 O4 O5]. constructor; [cbn; by rewrite length_insert|done|done|apply w32_range|].
    rewrite Ed. change (w32 (c_w c2 - c_r c2)) with (w32 (c_w c - c_r c)). lia. }
  assert (committed c2 = committed c) as Ec.
  { unfold committed. change (span c2) with (span (store_at c1 (c_e c) y)). apply (span_store c1); [done|].
    change (c_r c2) with (c_r c). change (c_w c2) with (c_w c). rewrite (dist_add c OK). lia. }
  assert (editing c2 = editing c ++ [y]) as Ee.
  { unfold editing at 1. rewrite Ed, span_app, span_1 by lia. f_equal.
    - change (span c2) with (span (store_at c1 (c_e c) y)). apply (span_store c1); [done|].
      change (c_w c2) with (c_w c). lia.
    - f_equal. change (c_w c2) with (c_w c). rewrite <- at_index_w32. unfold at_index.
      assert ((w32 (c_w c) + w32 (c_e c - c_w c)) mod INPUT_BUF_SIZE = c_e c mod INPUT_BUF_SIZE) as Em.
      { rewrite Z.add_mod, !w32_mod_cons, <- Z.add_mod by done. f_equal. lia. }
      rewrite Em. apply (at_store c1 (c_e c) y L1). }
  assert (w32 (w32 (c_e c + 1) - c_r c) = w32 (c_w c - c_r c) + w32 (c_e c - c_w c) + 1) as Efull.
  { rewrite dist_succ by (rewrite (dist_add c OK); unfold INPUT_BUF_SIZE in *; lia). by rewrite (dist_add c OK). }
  change (w32 (c_e c2 - c_r c2)) with (w32 (w32 (c_e c + 1) - c_r c)). rewrite Efull. destruct (_ || _) eqn:Eend.
  - exists (set_w (c_e c2) c2). assert (editing (set_w (c_e c2) c2) = []) as E0 by (unfold editing, span; cbn [set_w c_w c_e]; by rewrite Z.sub_diag).
    rewrite E0. split_and!; [done| |constructor| |done|done].
    + destruct OK2 as [O1 O2 O3 O4 O5]. constructor; cbn [set_w c_buf c_r c_w c_e]; [done|done|done|done|].
      rewrite Z.sub_diag. change (w32 0) with 0. rewrite (dist_add c2) by (by constructor). lia.
    + rewrite <- Ec, <- Ee. unfold committed at 1, editing. cbn [set_w c_w c_r]. rewrite (dist_add c2 OK2).
      change (span (set_w (c_e c2) c2)) with (span c2). rewrite span_app by (apply w32_range). f_equal.
      unfold span. apply list_fmap_ext. intros k z _. unfold at_index. f_equal. f_equal.
      rewrite (Z.add_mod (_ + w32 _)), (Z.add_mod (c_r c2)), w32_mod_cons by done. rewrite <- (Z.add_mod (c_r c2)), <- Z.add_mod by done.
      f_equal. lia.
  - exists c2. rewrite Ee, Ec. split_and!; try done. apply Forall_app. split; [done|]. apply Forall_singleton. intros ->. done.
Qed.

(** ** consoleread *)

Lemma dist_drop a b : 0 < w32 (a - b) -> w32 (a - w32 (b + 1)) = w32 (a - b) - 1.
Proof.
  intros H. unfold w32 in *. rewrite Zminus_mod_idemp_r. replace (a - (b + 1)) with (a - b - 1) by lia.
  rewrite <- Zminus_mod_idemp_l. apply Z.mod_small. pose proof (Z.mod_pos_bound (a - b) (2 ^ 32)). lia.
Qed.

Lemma consume_spec c :
  cons_ok c -> 0 < w32 (c_w c - c_r c) ->
  let c' := set_r (w32 (c_r c + 1)) c in
  cons_ok c' /\ committed c = at_index c (c_r c) :: committed c' /\ set_r (w32 (c_r c' - 1)) c' = c.
Proof.
  intros OK Hd c'. pose proof (dist_drop _ _ Hd) as Ed. split_and!.
  - destruct OK as [O1 O2 O3 O4 O5]. constructor; cbn; [done|apply w32_range|done|done|rewrite Ed; lia].
  - unfold committed, c'. cbn [set_r c_r c_w]. rewrite Ed.
    replace (w32 (c_w c - c_r c)) with (1 + (w32 (c_w c - c_r c) - 1)) at 1 by lia. rewrite span_app, span_1 by lia.
    cbn [app]. f_equal. symmetry. apply (span_w32 c).
  - unfold c', set_r. cbn. assert (w32 (w32 (c_r c + 1) - 1) = c_r c) as ->; [|by destruct c].
    unfold w32. rewrite Zminus_mod_idemp_l. replace (c_r c + 1 - 1) with (c_r c) by lia. apply Z.mod_small, OK.
Qed.

Section read.
Context {U : Type} `{UM : UserMem U}.

(** No byte at which consoleread stops. *)
Definition plain (l : list Z) : Prop := Forall (fun x => x <> NEWLINE /\ x <> CTRL_D) l.
Abbreviation len l := (Z.of_nat (length l)).

(** The outcome of a read of up to [n] more of the [target] bytes asked for,
    when the lines [com] have arrived: [bs] is what the user gets, [com'] what
    is left.  The read ends with a newline, when [n] bytes are there, before
    end-of-file (which it leaves for the next read unless it is the first
    byte of this one), or when the next byte [x] cannot be copied out; it
    returns -1 when the process is killed, and sleeps otherwise, only when
    nothing is left. *)
Definition read_post (killed : bool) (target n dst : Z) (com com' bs : list Z) (u' : U) (o : read_outcome) : Prop :=
  match o with
  | Sleeps n' dst' => com = bs /\ com' = [] /\ plain bs /\ n' = n - len bs /\ 0 < n' /\ dst' = dst + len bs
  | Returns r =>
      (killed = true /\ r = -1 /\ com = bs /\ com' = [] /\ plain bs /\ len bs < n) \/
      (r = target - (n - len bs) /\
       ((com = bs ++ com' /\ plain bs /\ len bs = n) \/
        (com = bs ++ com' /\ (exists l, bs = l ++ [NEWLINE] /\ plain l) /\ len bs <= n) \/
        (plain bs /\ len bs < n /\ if decide (n - len bs < target) then com = bs ++ com' /\ hd_error com' = Some CTRL_D else com = bs ++ CTRL_D :: com') \/
        (exists x u1, plain bs /\ len bs < n /\ com = bs ++ x :: com' /\ x <> CTRL_D /\ copyout_user (w64 (dst + len bs)) [x] u1 = (false, u'))))
  end.

Lemma read_post_cons killed target n dst x com com' bs u' o :
  x <> NEWLINE -> x <> CTRL_D -> read_post killed target (n - 1) (dst + 1) com com' bs u' o -> read_post killed target n dst (x :: com) com' (x :: bs) u' o.
Proof.
  intros Nx Dx. assert (plain bs -> plain (x :: bs)) as HP by (by constructor).
  assert (len (x :: bs) = len bs + 1) as EL by (cbn [length]; lia). unfold read_post. rewrite EL.
  replace (dst + (len bs + 1)) with (dst + 1 + len bs) by lia. replace (n - (len bs + 1)) with (n - 1 - len bs) by lia. destruct o as [r|n' dst'].
  - intros [(H1 & H2 & -> & H4 & H5 & H6)|(Hr & H)]; [left; split_and!; auto; lia|right]. split; [done|].
    destruct H as [(-> & H2 & H3)|[(-> & (l & -> & H2) & H3)|[(H1 & H2 & H3)|(y & u1 & H1 & H2 & -> & H4)]]].
    + left. split_and!; [done|auto|lia].
    + right; left. split_and!; [done| |lia]. exists (x :: l). split; [done|by constructor].
    + right; right; left. split_and!; [auto|lia|]. destruct (decide _); [destruct H3 as [-> H3]; done|by rewrite H3].
    + right; right; right. exists y, u1. destruct H4. split_and!; [auto|lia|done..].
  - intros (-> & H2 & H3 & H4 & H5 & H6). split_and!; auto; lia.
Qed.

(** consoleread: what it returns, what the user's memory holds afterwards, and
    what is left of the input. *)
Context {UL : UserLaws U}.
Lemma consoleread_wp fuel killed target n dst c (u : U) :
  cons_ok c -> (Z.to_nat n <= fuel)%nat -> 0 <= n <= target -> 0 <= dst -> dst + n < 2 ^ 64 ->
  wp (consoleread fuel killed target n dst) (fun o s' => exists bs, cons_ok s'.1 /\ editing s'.1 = editing c /\ c_tx s'.1 = c_tx c /\
    read_post killed target n dst (committed c) (committed s'.1) bs s'.2 o /\
    (forall k x, bs !! k = Some x -> um_byte s'.2 (dst + Z.of_nat k) = x) /\
    (forall a, ~ dst <= a < dst + n -> um_byte s'.2 a = um_byte u a)) (c, u).
Proof using UL.
  revert c u n dst. induction fuel as [|fuel IH]; intros c u n dst OK Hf Hn Hd Hd'; cbn [consoleread].
  - destruct (Z.ltb_spec 0 n); [lia|]. cbn [negb]. wp_steps. exists []. split_and!; try done. right. split; [cbn; lia|left]. split_and!; [done|constructor|cbn; lia].
  - destruct (Z.ltb_spec 0 n); cbn [negb]; wp_steps.
    2: { exists []. split_and!; try done. right. split; [cbn; lia|left]. split_and!; [done|constructor|cbn; lia]. }
    cbn [fst]. pose proof (w32_range (c_w c - c_r c)). rewrite Z.eqb_sym, (dist_zero _ _ (co_w _ OK) (co_r _ OK)).
    destruct (Z.eqb_spec (w32 (c_w c - c_r c)) 0) as [E0|N0].
    { wp_steps. exists []. assert (committed c = []) as Ec by (unfold committed; by rewrite E0). cbn [fst snd]. rewrite Ec.
      split_and!; [done..| |done|done]. destruct killed; cbn [read_post length]; [left|]; split_and!; (constructor || lia || done). }
    destruct (consume_spec c OK ltac:(lia)) as (OK' & Ec & Eback). set (c' := set_r (w32 (c_r c + 1)) c) in *.
    wp_steps. cbn [fst snd]. fold c'. set (x := at_index c (c_r c)) in *. destruct (Z.eqb_spec x CTRL_D) as [Ex|Nx].
    { wp_step. destruct (Z.ltb_spec n target); wp_steps; cbn [fst snd].
      - exists []. rewrite Eback. split_and!; try done. right. split; [cbn; lia|]. right; right; left. split_and!; [constructor|cbn; lia|].
        cbn [length]. rewrite decide_True by lia. split; [done|]. by rewrite Ec, Ex.
      - exists []. split_and!; try done. right. split; [cbn; lia|]. right; right; left. split_and!; [constructor|cbn; lia|].
        cbn [length]. rewrite decide_False by lia. by rewrite Ec, Ex. }
    wp_step. unfold wp at 1. cbn [fst snd]. rewrite w64_id by lia. destruct (copyout_user dst [x] u) as [ok u1] eqn:Eo.
    destruct (law_copyout _ _ _ _ _ Eo) as [L1 L2]. cbn [length] in L1. destruct ok; cbn [negb].
    2: { wp_steps. cbn [fst snd]. exists []. split_and!; try done; [|intros a Ha; apply L1; lia]. right. split; [cbn; lia|]. right; right; right. exists x, u.
         split_and!; [constructor|cbn; lia|by rewrite Ec|done|]. cbn [length]. rewrite Z.add_0_r, w64_id by lia. done. }
    specialize (L2 eq_refl 0%nat x eq_refl). rewrite Z.add_0_r in L2.
    destruct (Z.eqb_spec x NEWLINE) as [En|Nn].
    { wp_steps. cbn [fst snd]. exists [x]. split_and!; try done; [| |intros a Ha; apply L1; lia].
      - right. split; [cbn; lia|]. right; left. rewrite Ec. split_and!; [done| |cbn; lia]. exists []. split; [by rewrite En|constructor].
      - intros [|k] z; cbn; [|done]. intros [= <-]. by rewrite Z.add_0_r. }
    eapply wp_mono; [apply (IH c' u1 (n - 1) (dst + 1)); [done|lia|lia|lia|lia]|].
    intros o s' (bs & OK2 & Ee & Et & HR & HB & HF). exists (x :: bs). split_and!; [done|done|done| | |].
    + rewrite Ec. by apply read_post_cons.
    + intros [|k] z; cbn.
      * intros [= <-]. rewrite Z.add_0_r, HF by lia. done.
      * intros Hk. rewrite <- (HB k z Hk). f_equal. lia.
    + intros a Ha. rewrite HF by lia. apply L1. lia.
Qed.
End read.
