(* ===== verification/SyncTheorems.v ===== *)
(** * Properties of locks, pipes and the console *)
From stdpp Require Import base tactics numbers list strings gmap relations.
From Stdlib Require Import ZArith Lia.
From S2P Require Import Prelude UserMem Spinlock Sleeplock Pipe Console.

Open Scope Z_scope.

(** ** Spin locks *)

(** C29.  In every state that any interleaving of acquire and release on any
    number of CPUs and locks can reach: a lock has at most one owner; a CPU
    that holds a lock or spins for one has interrupts off; for a CPU outside
    of acquire and release, [holding] is true of exactly the locks it holds,
    a second acquire of a held lock panics, and releasing a held lock never
    panics. *)
Theorem spinlock_mutual_exclusion cf :
  lock_reachable cf ->
  (forall c c' i, owns cf c i -> owns cf c' i -> c = c') /\
  (forall c, cf_held cf c <> [] \/ (exists i, cf_pc cf c = Spin i) -> sie (m_cpu (cf_m cf) c) = false) /\
  (forall c i, cf_pc cf c = Idle -> holding c i (cf_m cf) = Ret (bool_decide (i ∈ cf_held cf c)) (cf_m cf)) /\
  (forall c i, cf_pc cf c = Idle -> i ∈ cf_held cf c -> acquire c i (cf_m cf) = Panic "acquire") /\
  (forall c i, cf_pc cf c = Idle -> i ∈ cf_held cf c -> wp (release c i) (fun _ m => lk_locked (m_lock m i) = false) (cf_m cf)).
Proof.
  intros R%lock_reachable_inv. split_and!; [exact (kv_excl _ R)| |by intros; apply holding_exact|..].
  - intros c Hc. apply (kv_intr _ R). rewrite (kv_noff _ R). destruct Hc as [Hc|[i ->]]; [|cbn; lia].
    assert (0 <= pc_depth (cf_pc cf c)) by (by destruct (cf_pc cf c)). destruct (cf_held cf c); [done|]. cbn [length]. lia.
  - intros c i Hpc Hin. by apply (reacquire_panics cf).
  - intros c i Hpc Hin. by apply (release_wp cf).
Qed.

(** Two CPUs compete for lock 7: CPU 0 holds it, CPU 1 spins. *)
Definition two_cpus : config :=
  Config (Machine (fun _ => Cpu 0 false true) (fun _ => Spinlock false None)) (fun _ => Idle) (fun _ => []).
Lemma spinlock_mutual_exclusion_witness : exists cf, lock_reachable cf /\
  cf_held cf 0 = [7] /\ cf_pc cf 1 = Spin 7 /\ acquire 0 7 (cf_m cf) = Panic "acquire".
Proof.
  assert (lock_reachable two_cpus) as R0 by (apply lr_init; split; [done|done]).
  assert (exists cf, lock_reachable cf /\ cf_held cf 0 = [7] /\ cf_pc cf 1 = Spin 7 /\ cf_pc cf 0 = Idle) as (cf & R & E1 & E2 & E3).
  { eexists. split.
    { eapply lr_step; [eapply lr_step; [eapply lr_step; [eapply lr_step; [eapply lr_step; [exact R0|]|]|]|]|].
    - by eapply (ls_enter 0 7).
    - by eapply (ls_enter 1 7).
    - by eapply (ls_got 0 7).
    - by eapply (ls_spin 1 7).
    - by eapply (ls_record 0 7). }
    split_and!; reflexivity. }
  exists cf. split; [exact R|]. split; [exact E1|]. split; [exact E2|].
  apply (spinlock_mutual_exclusion _ R); [exact E3|]. rewrite E1. by left.
Defined.

(** ** Sleep locks *)

(** C30.  In every state that any interleaving of acquiresleep, releasesleep
    and kkill can reach: at most one process holds the sleep lock, and it is
    the one [holdingsleep] answers for; when nobody is in the spin lock a
    process can sleep only while the lock is held, so its holder will call
    wakeup; and from the state some run of the protocol, without kkill, wakes
    any sleeping process: no wakeup is lost. *)
Theorem sleeplock_no_lost_wakeup procs cf :
  sl_reachable procs cf ->
  (forall p q, sl_at cf p = Holder -> sl_at cf q = Holder -> p = q) /\
  (forall p, sl_at cf p = Holder <-> holdingsleep p (sl_lk cf) = true) /\
  (forall q, sl_spin cf = None -> sl_at cf q = Asleep -> exists p, sl_at cf p = Holder) /\
  (forall q, sl_at cf q = Asleep -> exists cf', rtc (sl_step procs true) cf cf' /\ sl_at cf' q = Woken).
Proof.
  intros I%sl_reachable_inv. split_and!.
  - intros p q Hp%(si_hold _ _ I) Hq%(si_hold _ _ I). congruence.
  - intros p. by apply (holdingsleep_exact procs).
  - intros q Hs Hq. by apply (sleeper_has_holder procs cf q).
  - intros q. by apply sleeper_woken.
Qed.

(** Process 1 holds the lock, process 2 sleeps on it. *)
Lemma sleeplock_no_lost_wakeup_witness : exists cf, sl_reachable [1; 2] cf /\ sl_at cf 2 = Asleep /\
  exists cf', rtc (sl_step [1; 2] true) cf cf' /\ sl_at cf' 2 = Woken.
Proof.
  set (cf0 := SlConf initsleeplock None (fun _ => Out)).
  assert (exists cf, sl_reachable [1; 2] cf /\ sl_at cf 2 = Asleep) as (cf & R & E).
  { eexists. split; [exists cf0; split; [done|]|].
    - eapply rtc_l; [exists true; apply (ss_enter _ 1); [set_solver|by left]|].
      eapply rtc_l; [exists true; by eapply (ss_take _ 1)|].
      eapply rtc_l; [exists true; apply (ss_enter _ 2); [set_solver|by left]|].
      eapply rtc_l; [exists true; by eapply (ss_wait _ 2)|].
      eapply rtc_l; [exists true; by eapply (ss_unlock _ 2)|].
      eapply rtc_l; [exists true; by eapply (ss_sleep _ 2)|]. apply rtc_refl.
    - done. }
  exists cf. split; [exact R|]. split; [exact E|]. exact (proj2 (proj2 (proj2 (sleeplock_no_lost_wakeup _ _ R))) 2 E).
Defined.

(** ** Pipes *)

Section pipe.
Context {U : Type} `{UL : UserLaws U}.

(** C31.  A pipe is a bounded FIFO queue of bytes: after any sequence of
    pipewrite, piperead and pipeclose calls by any processes, however the
    calls block and resume and the 32-bit counters wrap around, the bytes the
    readers found in their memories are, in order, a prefix of the bytes
    that writers' memories held, and the rest, at most PIPESIZE bytes, is in
    the pipe. *)
Theorem pipe_is_fifo junk (u : U) ws rs s :
  length junk = Z.to_nat PIPESIZE -> pipe_trace (pipe_init junk, u) ws rs s ->
  ws = rs ++ contents s.1 /\ Z.of_nat (length (contents s.1)) <= PIPESIZE.
Proof.
  intros Hj R. destruct (pipe_trace_ok (pipe_init junk, u) ws rs s) as [OK E]; [by apply pipe_init_ok|done|done|].
  split; [exact E|]. rewrite contents_length. pose proof (po_count _ OK). pose proof (count_nonneg s.1). lia.
Qed.
End pipe.

(** A writer sends 600 bytes (it blocks after 512) and a reader takes 5. *)
Definition pipe_writer : flat := Flat (fun a => a mod 256) 4096.
Definition pipe_reader : flat := Flat (fun _ => 0) 4096.
Definition pipe_start : pipe * flat := (pipe_init (replicate 512 0), pipe_writer).
Definition pipe_full : pipe := (final (pipewrite (rw_steps 600) false 10 600 0) pipe_start).1.
Definition pipe_taken : pipe * flat := final (piperead false 100 5) (pipe_full, pipe_reader).

Lemma pipe_full_run : pipewrite (rw_steps (600 - 0)) false 10 600 0 pipe_start = Ret (Blocked 512) (pipe_full, pipe_writer).
Proof. vm_compute. reflexivity. Qed.
Lemma pipe_taken_run : piperead false 100 5 (pipe_full, pipe_reader) = Ret (Done 5) pipe_taken.
Proof. vm_compute. reflexivity. Qed.
Lemma pipe_taken_bytes : user_bytes pipe_taken.2 100 0 5 = [10; 11; 12; 13; 14].
Proof. vm_compute. reflexivity. Qed.

#[local] Opaque pipe_full pipe_taken.
Lemma pipe_demo_trace : pipe_trace pipe_start (user_bytes pipe_writer 10 0 512) [10; 11; 12; 13; 14] pipe_taken.
Proof.
  pose proof (pt_write pipe_start [] [] pipe_start (pipe_full, pipe_writer) false 10 600 0 (Blocked 512) (pt_nil pipe_start) (Z.le_refl 0) pipe_full_run) as T1.
  pose proof (pt_user _ _ _ pipe_full pipe_writer pipe_reader T1) as T2.
  pose proof (pt_read _ _ _ (pipe_full, pipe_reader) pipe_taken false 100 5 (Done 5) T2 ltac:(lia) ltac:(lia) pipe_taken_run) as T3.
  change (delivered (Done 5)) with 5%nat in T3. rewrite pipe_taken_bytes in T3. exact T3.
Qed.

Lemma pipe_is_fifo_witness :
  user_bytes pipe_writer 10 0 512 = [10; 11; 12; 13; 14] ++ contents pipe_taken.1 /\
  Z.of_nat (length (contents pipe_taken.1)) <= PIPESIZE.
Proof. exact (pipe_is_fifo (replicate 512 0) pipe_writer _ _ _ eq_refl pipe_demo_trace). Defined.

(** ** The console *)

(** The states that key presses and console reads, in any order, lead to. *)
Inductive cons_reachable : cons -> Prop :=
  | cr_init : cons_reachable consoleinit
  | cr_intr c c' x : cons_reachable c -> 0 <= x < 256 -> consoleintr x c = Some c' -> cons_reachable c'
  | cr_read {U} `{UserLaws U} c (u u' : U) c' killed target n dst o :
      cons_reachable c -> 0 <= n <= target -> 0 <= dst -> dst + n < 2 ^ 64 ->
      consoleread (Z.to_nat n) killed target n dst (c, u) = Ret o (c', u') -> cons_reachable c'.

Lemma consoleinit_ok : cons_ok consoleinit.
Proof. constructor; by vm_compute. Qed.

Lemma cons_reachable_ok c : cons_reachable c -> cons_ok c /\ no_newline (editing c).
Proof.
  induction 1 as [|c c' x _ IH Hx E|U UM UL c u u' c' killed target n dst o _ IH Hn Hd Hd' E].
  - split; [apply consoleinit_ok|constructor].
  - destruct IH as [OK NL]. destruct (consoleintr_spec x c OK NL Hx) as (c1 & E1 & OK1 & NL1 & _). rewrite E in E1. injection E1 as <-. done.
  - destruct IH as [OK NL]. pose proof (consoleread_wp (Z.to_nat n) killed target n dst c u OK ltac:(lia) Hn Hd Hd') as W.
    apply wp_wlp in W. apply (wlp_ret_inv _ _ _ _ _ W) in E as (bs & OK1 & Ee & _). cbn [fst] in *. by rewrite Ee.
Qed.

(** C32.  In every state that typing and reading can reach, the console's
    ring is never overrun, and the interrupt handler returns for every input
    byte and does what the line discipline [keystroke] says: ^U erases the
    line being edited, ^H and DEL its last byte, other bytes (carriage return
    as newline) are added to it and echoed, and newline, ^D or a byte that
    fills the ring hand the line over to the readers, behind the lines that
    have arrived before; a byte that finds the ring full is ignored.
    consoleread returns, or sleeps only when no line is left, after moving
    bytes [bs] from the front of the lines that have arrived into the user's
    buffer, in order and unchanged, and nothing outside of the buffer; it
    returns their number (with those before it slept), and stops exactly at
    a newline (included), at the count asked for, at ^D (left in place unless
    it comes first, when the read returns 0), or at a byte that cannot be
    copied out, which alone is lost; a killed reader gets -1. *)
Theorem console_delivers_lines {U} `{UserLaws U} c :
  cons_reachable c ->
  w32 (c_e c - c_r c) <= INPUT_BUF_SIZE /\
  (forall x, 0 <= x < 256 -> exists c', consoleintr x c = Some c' /\
     let '(com, ed, echo) := keystroke x (committed c) (editing c) in
     committed c' = com /\ editing c' = ed /\ c_tx c' = c_tx c ++ echo) /\
  (forall killed target n dst (u : U), 0 <= n <= target -> 0 <= dst -> dst + n < 2 ^ 64 ->
     wp (consoleread (Z.to_nat n) killed target n dst) (fun o s => exists bs,
       editing s.1 = editing c /\ read_post killed target n dst (committed c) (committed s.1) bs s.2 o /\
       (forall k x, bs !! k = Some x -> um_byte s.2 (dst + Z.of_nat k) = x) /\
       (forall a, ~ dst <= a < dst + n -> um_byte s.2 a = um_byte u a)) (c, u)).
Proof.
  intros [OK NL]%cons_reachable_ok. split_and!.
  - rewrite (dist_add c OK). apply OK.
  - intros x Hx. destruct (consoleintr_spec x c OK NL Hx) as (c' & E & _ & _ & H2). by exists c'.
  - intros killed target n dst u Hn Hd Hd'. eapply wp_mono; [by apply consoleread_wp; [|lia| | |]|].
    intros o s (bs & _ & Ee & _ & HP & HB & HF). by exists bs.
Qed.

(** "ab" RETURN "c": one line has arrived, and consoleread returns it. *)
Lemma console_delivers_lines_witness : exists c, cons_reachable c /\ committed c = [97; 98; 10] /\ editing c = [99] /\
  wp (consoleread (Z.to_nat 100) false 100 100 0) (fun o s => exists bs,
       read_post false 100 100 0 (committed c) (committed s.1) bs s.2 o /\
       (forall k x, bs !! k = Some x -> fl_byte s.2 (0 + Z.of_nat k) = x))
    (c, Flat (fun _ => 0) 4096).
Proof.
  assert (forall x, (0 <=? x) && (x <? 256) = true -> 0 <= x < 256) as B by (intros x Hx; apply andb_prop in Hx as [H1 H2]; apply Z.leb_le in H1; apply Z.ltb_lt in H2; lia).
  epose proof (cr_intr _ _ 97 cr_init (B 97 eq_refl) eq_refl) as R1. epose proof (cr_intr _ _ 98 R1 (B 98 eq_refl) eq_refl) as R2.
  epose proof (cr_intr _ _ 13 R2 (B 13 eq_refl) eq_refl) as R3. epose proof (cr_intr _ _ 99 R3 (B 99 eq_refl) eq_refl) as R4.
  eexists. split; [exact R4|]. split; [vm_compute; reflexivity|]. split; [vm_compute; reflexivity|].
  eapply wp_mono; [apply (proj2 (proj2 (console_delivers_lines (U := flat) _ R4)) false 100 100 0 (Flat (fun _ => 0) 4096)); lia|].
  intros o s (bs & _ & HP & HB & _). exists bs. split; [exact HP|exact HB].
Defined.
