(* ===== verification/Proc.v ===== *)
(** * Processes (kernel/proc.c, kernel/proc.h)

    The process table and the operations on it.  A [struct proc *] is an index
    into the table; an operation of the current process takes the index [me]
    ([myproc()]).  The fields the paging code uses are the [pproc] of file
    Paging, so that the paging and copying operations run on the process they
    belong to ([in_proc]).  An operation is the code between two points at
    which the process gives up the CPU; the critical sections under p->lock,
    wait_lock and pid_lock are part of it (Spinlock and Sleeplock treat the
    locks themselves).  In particular kfork is one operation, although it
    releases np->lock for a moment before it takes wait_lock to set the
    parent: the child is USED and without a parent then, and of the other
    operations only kkill acts on such a slot, by setting its killed flag. *)
From S2P Require Import Prelude Mem Riscv Kalloc Vm Paging UserCopy.
From stdpp Require Import base tactics numbers list strings gmap.
From Stdlib Require Import ZArith Lia.

Open Scope Z_scope.

Definition NPROC : Z := 64.
Definition NOFILE : Z := 16.

Inductive procstate := UNUSED | USED | SLEEPING | RUNNABLE | RUNNING | ZOMBIE.
#[export] Instance procstate_eq_dec : EqDecision procstate.
Proof. solve_decision. Defined.
Definition is_state (a b : procstate) : bool := bool_decide (a = b).

(** A sleep channel: null, the address of a struct proc, or that of another
    kernel object. *)
Inductive channel := ch_null | ch_proc (i : Z) | ch_addr (a : Z).
#[export] Instance channel_eq_dec : EqDecision channel.
Proof. solve_decision. Defined.

(** struct context: ra, sp and s0 to s11. *)
Record context := Context { ctx_ra : Z; ctx_sp : Z; ctx_s : list Z }.
Definition context_zero : context := Context 0 0 (replicate 12 0).

(** struct proc; [pr_core] holds pid, sz, pagetable, killed and paging. *)
Record proc := Proc {
  pr_state : procstate;
  pr_chan : channel;
  pr_xstate : Z;
  pr_parent : option Z;
  pr_kstack : Z;
  pr_trapframe : Z;
  pr_context : context;
  pr_ofile : list Z;
  pr_cwd : Z;
  pr_name : list Z;
  pr_core : pproc
}.

Definition set_pstate x p := Proc x (pr_chan p) (pr_xstate p) (pr_parent p) (pr_kstack p) (pr_trapframe p) (pr_context p) (pr_ofile p) (pr_cwd p) (pr_name p) (pr_core p).
Definition set_chan x p := Proc (pr_state p) x (pr_xstate p) (pr_parent p) (pr_kstack p) (pr_trapframe p) (pr_context p) (pr_ofile p) (pr_cwd p) (pr_name p) (pr_core p).
Definition set_xstate x p := Proc (pr_state p) (pr_chan p) x (pr_parent p) (pr_kstack p) (pr_trapframe p) (pr_context p) (pr_ofile p) (pr_cwd p) (pr_name p) (pr_core p).
Definition set_parent x p := Proc (pr_state p) (pr_chan p) (pr_xstate p) x (pr_kstack p) (pr_trapframe p) (pr_context p) (pr_ofile p) (pr_cwd p) (pr_name p) (pr_core p).
Definition set_kstack x p := Proc (pr_state p) (pr_chan p) (pr_xstate p) (pr_parent p) x (pr_trapframe p) (pr_context p) (pr_ofile p) (pr_cwd p) (pr_name p) (pr_core p).
Definition set_trapframe x p := Proc (pr_state p) (pr_chan p) (pr_xstate p) (pr_parent p) (pr_kstack p) x (pr_context p) (pr_ofile p) (pr_cwd p) (pr_name p) (pr_core p).
Definition set_context x p := Proc (pr_state p) (pr_chan p) (pr_xstate p) (pr_parent p) (pr_kstack p) (pr_trapframe p) x (pr_ofile p) (pr_cwd p) (pr_name p) (pr_core p).
Definition set_ofile fd x p := Proc (pr_state p) (pr_chan p) (pr_xstate p) (pr_parent p) (pr_kstack p) (pr_trapframe p) (pr_context p) (<[Z.to_nat fd := x]> (pr_ofile p)) (pr_cwd p) (pr_name p) (pr_core p).
Definition set_cwd x p := Proc (pr_state p) (pr_chan p) (pr_xstate p) (pr_parent p) (pr_kstack p) (pr_trapframe p) (pr_context p) (pr_ofile p) x (pr_name p) (pr_core p).
Definition set_name x p := Proc (pr_state p) (pr_chan p) (pr_xstate p) (pr_parent p) (pr_kstack p) (pr_trapframe p) (pr_context p) (pr_ofile p) (pr_cwd p) x (pr_core p).
Definition set_core x p := Proc (pr_state p) (pr_chan p) (pr_xstate p) (pr_parent p) (pr_kstack p) (pr_trapframe p) (pr_context p) (pr_ofile p) (pr_cwd p) (pr_name p) x.

Definition core_pid x c := PProc x (p_sz c) (p_pagetable c) (p_killed c) (p_paging c).
Definition core_sz x c := PProc (p_pid c) x (p_pagetable c) (p_killed c) (p_paging c).
Definition core_pt x c := PProc (p_pid c) (p_sz c) x (p_killed c) (p_paging c).
Definition core_killed x c := PProc (p_pid c) (p_sz c) (p_pagetable c) x (p_paging c).
Definition core_paging (f : paging_info -> paging_info) c := PProc (p_pid c) (p_sz c) (p_pagetable c) (p_killed c) (f (p_paging c)).

Definition pr_pid p := p_pid (pr_core p).
Definition pr_sz p := p_sz (pr_core p).
Definition pr_pagetable p := p_pagetable (pr_core p).
Definition pr_killed p := p_killed (pr_core p).
Definition pr_paging p := p_paging (pr_core p).

(** struct proc in the kernel's zeroed data. *)
Definition proc_zero : proc :=
  Proc UNUSED ch_null 0 None 0 0 context_zero (replicate (Z.to_nat NOFILE) 0) 0 (replicate 16 0) (PProc 0 0 0 0 paging_zero).

(** What proc.c uses of the file layer besides [FsOps]. *)
Class ProcFs {FS : FsOps} := {
  fs_filedup : Z -> M fs unit;
  fs_fileclose : Z -> M fs unit;
  fs_idup : Z -> M fs unit;
  fs_iput : Z -> M fs unit;
  fs_namei : list Z -> M fs Z
}.

(** Addresses of kernel code and of the fields p->xstate. *)
Class ProcLayout := { forkret_addr : Z; xstate_addr : Z -> Z }.

(** safestrcpy on character arrays: at most [n - 1] characters of [t] and a
    NUL; the bytes after the NUL stay. *)
Fixpoint safestrcpy_bytes (n : nat) (s t : list Z) : list Z :=
  match n, s with
  | S (S n), _ :: s =>
      let c := hd 0 t in if c =? 0 then 0 :: s else c :: safestrcpy_bytes (S n) s (tl t)
  | S O, _ :: s => 0 :: s
  | _, _ => s
  end.

(** The loop of kfork over the first 16384 page records: the child's
    records and its next_fifo_seq. *)
Fixpoint fork_pages (n : nat) (ps cs : list page_info) (seq : Z) : list page_info * Z :=
  match n, ps, cs with
  | S n, p :: ps, c :: cs =>
      let '(c', seq') :=
        if pi_state p =? RESIDENT
        then (PageInfo (pi_va p) RESIDENT 0 seq (-1) (pi_exec_offset c) (pi_from_exec p), s32 (seq + 1))
        else (pi_set_state UNMAPPED c, seq) in
      let '(r, seq'') := fork_pages n ps cs seq' in (c' :: r, seq'')
  | _, _, _ => (cs, seq)
  end.

Section proc.
Context {KL : KernelLayout} {FS : FsOps} {PF : ProcFs} {PL : ProcLayout}.

Record kstate := KState {
  k_mem : kmem; k_fs : fs; k_proc : list proc; k_nextpid : Z; k_init : option Z; k_out : list event
}.

Definition set_kmem x s := KState x (k_fs s) (k_proc s) (k_nextpid s) (k_init s) (k_out s).
Definition set_kfs x s := KState (k_mem s) x (k_proc s) (k_nextpid s) (k_init s) (k_out s).
Definition set_kproc x s := KState (k_mem s) (k_fs s) x (k_nextpid s) (k_init s) (k_out s).
Definition set_nextpid x s := KState (k_mem s) (k_fs s) (k_proc s) x (k_init s) (k_out s).
Definition set_init x s := KState (k_mem s) (k_fs s) (k_proc s) (k_nextpid s) x (k_out s).

Definition on_mem {A} (c : M kmem A) : M kstate A := zoom k_mem set_kmem c.
Definition on_kfs {A} (c : M fs A) : M kstate A := zoom k_fs set_kfs c.

Definition getp (s : kstate) (i : Z) : proc := nth (Z.to_nat i) (k_proc s) proc_zero.
Definition proc_of (i : Z) : M kstate proc := gets (fun s => getp s i).
Definition updp (i : Z) (f : proc -> proc) : M kstate unit :=
  modify (fun s => set_kproc (<[Z.to_nat i := f (getp s i)]> (k_proc s)) s).
Definition updc (i : Z) (f : pproc -> pproc) : M kstate unit := updp i (fun p => set_core (f (pr_core p)) p).

(** Run an operation of Paging or UserCopy for process [i]. *)
Definition in_proc {A} (i : Z) (c : M pstate A) : M kstate A :=
  zoom (fun s => PState (k_mem s) (pr_core (getp s i)) (k_fs s) (k_out s))
    (fun t s => KState (ps_km t) (ps_fs t) (<[Z.to_nat i := set_core (ps_proc t) (getp s i)]> (k_proc s))
                  (k_nextpid s) (k_init s) (ps_out t)) c.

(** ** Creation and destruction *)

Definition proc_mapstacks (kpgtbl : Z) : M kmem unit :=
  for_z (Z.to_nat NPROC) 0 (fun i =>
    pa ← kalloc;
    if pa =? 0 then panic "kalloc"
    else kvmmap kpgtbl (KSTACK i) pa PGSIZE (Z.lor PTE_R PTE_W)).

(** The kernel's page table: devices, kernel text and data one to one, the
    trampoline, and the kernel stacks. *)
Definition kvmmake : M kmem Z :=
  kpgtbl ← kalloc;
  do_memset kpgtbl 0 PGSIZE;;
  kvmmap kpgtbl UART0 UART0 PGSIZE (Z.lor PTE_R PTE_W);;
  kvmmap kpgtbl VIRTIO0 VIRTIO0 PGSIZE (Z.lor PTE_R PTE_W);;
  kvmmap kpgtbl PLIC PLIC 0x4000000 (Z.lor PTE_R PTE_W);;
  kvmmap kpgtbl KERNBASE KERNBASE (w64 (etext - KERNBASE)) (Z.lor PTE_R PTE_X);;
  kvmmap kpgtbl etext etext (w64 (PHYSTOP - etext)) (Z.lor PTE_R PTE_W);;
  kvmmap kpgtbl TRAMPOLINE trampoline PGSIZE (Z.lor PTE_R PTE_X);;
  proc_mapstacks kpgtbl;;
  mret kpgtbl.

Definition procinit : M kstate unit :=
  for_z (Z.to_nat NPROC) 0 (fun i => updp i (fun p => set_kstack (KSTACK i) (set_pstate UNUSED p))).

Definition allocpid : M kstate Z :=
  pid ← gets k_nextpid; modify (set_nextpid (s32 (pid + 1)));; mret pid.

Definition proc_pagetable (trapframe : Z) : M kmem Z :=
  pagetable ← uvmcreate;
  if pagetable =? 0 then mret 0
  else
    r ← mappages pagetable TRAMPOLINE PGSIZE trampoline (Z.lor PTE_R PTE_X);
    if r <? 0 then uvmfree pagetable 0;; mret 0
    else
      r ← mappages pagetable TRAPFRAME PGSIZE trapframe (Z.lor PTE_R PTE_W);
      if r <? 0 then uvmunmap pagetable TRAMPOLINE 1 false;; uvmfree pagetable 0;; mret 0
      else mret pagetable.

Definition proc_freepagetable (pagetable sz : Z) : M kmem unit :=
  uvmunmap pagetable TRAMPOLINE 1 false;;
  uvmunmap pagetable TRAPFRAME 1 false;;
  uvmfree pagetable sz.

Definition freeproc (i : Z) : M kstate unit :=
  p ← proc_of i;
  (when negb (pr_trapframe p =? 0) do on_mem (kfree (pr_trapframe p)));;
  updp i (set_trapframe 0);;
  (when negb (pr_pagetable p =? 0) do on_mem (proc_freepagetable (pr_pagetable p) (pr_sz p)));;
  updc i (fun c => core_pid 0 (core_sz 0 (core_pt 0 c)));;
  updp i (fun p => set_chan ch_null (set_name (<[0%nat := 0]> (pr_name p)) (set_parent None p)));;
  updc i (core_killed 0);;
  updp i (set_xstate 0);;
  updc i (core_paging cleanup_paging_info);;
  updp i (set_pstate UNUSED).

(** The loop of allocproc: the first UNUSED process at or after [i]. *)
Fixpoint find_unused (l : list proc) (i : Z) : option Z :=
  match l with
  | [] => None
  | p :: l => if is_state (pr_state p) UNUSED then Some i else find_unused l (i + 1)
  end.

Definition allocproc : M kstate (option Z) :=
  l ← gets k_proc;
  match find_unused l 0 with
  | None => mret None
  | Some i =>
      pid ← allocpid;
      updc i (core_pid pid);;
      updp i (set_pstate USED);;
      tf ← on_mem kalloc;
      updp i (set_trapframe tf);;
      if tf =? 0 then freeproc i;; mret None
      else
        pt ← on_mem (proc_pagetable tf);
        updc i (core_pt pt);;
        if pt =? 0 then freeproc i;; mret None
        else
          updp i (fun p => set_context (Context forkret_addr (w64 (pr_kstack p + PGSIZE)) (replicate 12 0)) p);;
          updc i (core_paging init_paging_info);;
          mret (Some i)
  end.

(** When allocproc fails, the kernel dereferences a null pointer and traps. *)
Definition userinit : M kstate unit :=
  r ← allocproc;
  modify (set_init r);;
  match r with
  | None => panic "kerneltrap"
  | Some i =>
      ip ← on_kfs (fs_namei [47]);
      updp i (set_cwd ip);;
      updp i (set_pstate RUNNABLE)
  end.

Definition growproc (me n : Z) : M kstate Z :=
  p ← proc_of me;
  let sz := pr_sz p in
  if 0 <? n then
    if TRAPFRAME <=? w64 (sz + n) then mret (-1)
    else
      r ← on_mem (uvmalloc (pr_pagetable p) sz (w64 (sz + n)) PTE_W);
      if r =? 0 then mret (-1) else updc me (core_sz r);; mret 0
  else if n <? 0 then
    r ← on_mem (uvmdealloc (pr_pagetable p) sz (w64 (sz + n)));
    updc me (core_sz r);; mret 0
  else updc me (core_sz sz);; mret 0.

(** The offset of a0 in the trapframe, and sizeof(struct trapframe). *)
Definition TF_A0 : Z := 112.
Definition TF_SIZE : Z := 288.

(** The child's share of the parent's paging state. *)
Definition fork_segs (p np : paging_info) : paging_info :=
  set_segs (text_start p) (text_end p) (data_start p) (data_end p) (heap_start p) (stack_top p)
    (text_offset p) (data_offset p) (text_filesz p) (data_filesz p) (exec_ip np) np.
Definition set_exec_ip ip (g : paging_info) : paging_info :=
  set_segs (text_start g) (text_end g) (data_start g) (data_end g) (heap_start g) (stack_top g)
    (text_offset g) (data_offset g) (text_filesz g) (data_filesz g) ip g.
Definition fork_paging (p np : paging_info) : paging_info :=
  let '(l, seq) := fork_pages (Z.to_nat 16384) (pages p) (pages np) (next_fifo_seq np) in
  set_next_seq seq (set_pages l np).

Definition kfork (me : Z) : M kstate Z :=
  r ← allocproc;
  match r with
  | None => mret (-1)
  | Some np =>
      p ← proc_of me; n ← proc_of np;
      r ← on_mem (uvmcopy (pr_pagetable p) (pr_pagetable n) (pr_sz p));
      if r <? 0 then freeproc np;; mret (-1)
      else
        updc np (core_sz (pr_sz p));;
        updc np (core_paging (fork_segs (pr_paging p)));;
        (when negb (exec_ip (pr_paging p) =? 0) do (
           on_kfs (fs_idup (exec_ip (pr_paging p)));;
           updc np (core_paging (set_exec_ip (exec_ip (pr_paging p))))));;
        updc np (core_paging (fork_paging (pr_paging p)));;
        on_mem (do_memmove (pr_trapframe n) (pr_trapframe p) TF_SIZE);;
        on_mem (st64 (pr_trapframe n + TF_A0) 0);;
        for_z (Z.to_nat NOFILE) 0 (fun fd =>
          let f := nth (Z.to_nat fd) (pr_ofile p) 0 in
          when negb (f =? 0) do (on_kfs (fs_filedup f);; updp np (set_ofile fd f)));;
        on_kfs (fs_idup (pr_cwd p));;
        updp np (set_cwd (pr_cwd p));;
        updp np (fun x => set_name (safestrcpy_bytes 16 (pr_name x) (pr_name p)) x);;
        updp np (set_parent (Some me));;
        updp np (set_pstate RUNNABLE);;
        mret (pr_pid n)
  end.

(** ** Sleeping, waking, killing *)

(** sched's checks: whether p->lock is held, the nesting depth of push_off,
    the state of the process and the interrupt flag. *)
Definition sched (held : bool) (noff : Z) (st : procstate) (intr : bool) : M kstate unit :=
  if negb held then panic "sched p->lock"
  else if negb (noff =? 1) then panic "sched locks"
  else if is_state st RUNNING then panic "sched RUNNING"
  else if intr then panic "sched interruptible"
  else skip.
(** sched as its callers reach it: acquire(&p->lock) is the only lock. *)
Definition sched_me (me : Z) : M kstate unit :=
  p ← proc_of me; sched true 1 (pr_state p) false.

(** sleep up to the switch to the scheduler, and after it. *)
Definition sleep (me : Z) (chan : channel) : M kstate unit :=
  updp me (set_chan chan);; updp me (set_pstate SLEEPING);; sched_me me.
Definition sleep_resume (me : Z) : M kstate unit := updp me (set_chan ch_null).

Definition yield (me : Z) : M kstate unit := updp me (set_pstate RUNNABLE);; sched_me me.

Definition wakeup (me : option Z) (chan : channel) : M kstate unit :=
  for_z (Z.to_nat NPROC) 0 (fun i =>
    if bool_decide (me = Some i) then skip
    else
      p ← proc_of i;
      when is_state (pr_state p) SLEEPING && bool_decide (pr_chan p = chan) do updp i (set_pstate RUNNABLE)).

(** One iteration of kkill's loop. *)
Definition kkill_at (pid i : Z) : M kstate (option Z) :=
  p ← proc_of i;
  if pr_pid p =? pid then
    updc i (core_killed 1);;
    (when is_state (pr_state p) SLEEPING do updp i (set_pstate RUNNABLE));;
    mret (Some 0)
  else mret None.
Definition kkill (pid : Z) : M kstate Z :=
  r ← for_upto (Z.to_nat NPROC) 0 (kkill_at pid);
  mret (default (-1) r).

Definition killed (i : Z) : M kstate Z := p ← proc_of i; mret (pr_killed p).

(** ** Exit and wait *)

Definition proc_chan (p : option Z) : channel := match p with Some i => ch_proc i | None => ch_null end.

Definition reparent (me : Z) : M kstate unit :=
  for_z (Z.to_nat NPROC) 0 (fun i =>
    p ← proc_of i;
    when bool_decide (pr_parent p = Some me) do (
      init ← gets k_init;
      updp i (set_parent init);; wakeup (Some me) (proc_chan init))).

(** kexit up to the switch to the scheduler, from which it does not return. *)
Definition kexit (me status : Z) : M kstate unit :=
  init ← gets k_init;
  if bool_decide (init = Some me) then panic "init exiting"
  else
    p ← proc_of me;
    (when negb (swapfile (pr_paging p) =? 0) do (
       in_proc me (emit (fun pid => ESwapcleanup pid (swap_used (pr_paging p))));;
       on_kfs (fs_fileclose (swapfile (pr_paging p)));;
       updc me (core_paging (set_swapfile 0))));;
    (when negb (exec_ip (pr_paging p) =? 0) do (
       on_kfs fs_begin_op;; on_kfs (fs_iput (exec_ip (pr_paging p)));; on_kfs fs_end_op;;
       updc me (core_paging (set_exec_ip 0))));;
    for_z (Z.to_nat NOFILE) 0 (fun fd =>
      p ← proc_of me;
      let f := nth (Z.to_nat fd) (pr_ofile p) 0 in
      when negb (f =? 0) do (on_kfs (fs_fileclose f);; updp me (set_ofile fd 0)));;
    on_kfs fs_begin_op;;
    on_kfs (fs_iput (pr_cwd p));;
    on_kfs fs_end_op;;
    updp me (set_cwd 0);;
    reparent me;;
    p ← proc_of me;
    wakeup (Some me) (proc_chan (pr_parent p));;
    updp me (set_xstate status);;
    updp me (set_pstate ZOMBIE);;
    sched_me me.

(** What a scan of kwait finds: the child to reap, or whether there are
    children at all. *)
Fixpoint wait_scan (l : list proc) (i : Z) (me : Z) (havekids : bool) : option Z * bool :=
  match l with
  | [] => (None, havekids)
  | p :: l =>
      if bool_decide (pr_parent p = Some me) then
        if is_state (pr_state p) ZOMBIE then (Some i, true) else wait_scan l (i + 1) me true
      else wait_scan l (i + 1) me havekids
  end.

(** One round of kwait's loop; [None] when the process has gone to sleep, to
    scan again when it is woken. *)
Definition kwait (me addr : Z) : M kstate (option Z) :=
  l ← gets k_proc;
  match wait_scan l 0 me false with
  | (Some pp, _) =>
      p ← proc_of pp;
      r ← (if negb (addr =? 0) then
             on_mem (modify (set_phys (fun m => store32 m (xstate_addr pp) (w32 (pr_xstate p)))));;
             m ← proc_of me;
             in_proc me (copyout (pr_pagetable m) addr (xstate_addr pp) 4)
           else mret 0);
      if r <? 0 then mret (Some (-1))
      else freeproc pp;; mret (Some (pr_pid p))
  | (None, havekids) =>
      k ← killed me;
      if negb havekids || negb (k =? 0) then mret (Some (-1))
      else sleep me (ch_proc me);; mret None
  end.

(** ** Scheduling *)

(** The scheduler has found process [i] RUNNABLE. *)
Definition switch_to (i : Z) : M kstate unit := updp i (set_pstate RUNNING).

(** One iteration of its inner loop, under p->lock: whether it switches. *)
Definition scheduler_look (i : Z) : M kstate bool :=
  p ← proc_of i;
  if is_state (pr_state p) RUNNABLE then switch_to i;; mret true else mret false.

(** Where a hart is: in scheduler, about to look at process [i] (past the
    last one when the inner loop has ended), or running process [i]. *)
Inductive hart_at := Scan (i : Z) | Exec (i : Z).

(** The next step of scheduler on a hart.  The hart comes back from the switch
    to process [i] when the process has given up the CPU; after the last
    process the scan starts again, at once or after an interrupt (wfi). *)
Definition scheduler (h : hart_at) : M kstate hart_at :=
  match h with
  | Scan i =>
      if i <? NPROC then r ← scheduler_look i; mret (if r : bool then Exec i else Scan (i + 1))
      else mret (Scan 0)
  | Exec i => p ← proc_of i; mret (if is_state (pr_state p) RUNNING then Exec i else Scan (i + 1))
  end.
End proc.
