(* ===== verification/ProcSpec.v ===== *)
(** * The process table as an abstract state machine

    [table] keeps of every process its state, channel, pid, parent, killed
    flag and exit status; [tab] relates it to the process table of proc.c.
    The operations of Proc are shown to implement the transitions [astep]. *)
From S2P Require Import Prelude Mem Riscv Kalloc Vm Paging UserCopy Proc.
From stdpp Require Import base tactics numbers list strings gmap.
From Stdlib Require Import ZArith Lia.

Open Scope Z_scope.

Record row := Row {
  r_state : procstate; r_chan : channel; r_pid : Z; r_parent : option Z; r_killed : Z; r_xstate : Z
}.
Definition row_free : row := Row UNUSED ch_null 0 None 0 0.

Record table := Table { t_row : Z -> row; t_next : Z; t_init : option Z }.

Definition in_table (i : Z) : Prop := 0 <= i < NPROC.

(** ** Transitions *)

Definition upd_row (i : Z) (f : row -> row) (t : table) : table :=
  Table (fun j => if decide (j = i) then f (t_row t i) else t_row t j) (t_next t) (t_init t).
Definition bump (t : table) : table := Table (t_row t) (s32 (t_next t + 1)) (t_init t).

Definition with_state x r := Row x (r_chan r) (r_pid r) (r_parent r) (r_killed r) (r_xstate r).
Definition with_chan x r := Row (r_state r) x (r_pid r) (r_parent r) (r_killed r) (r_xstate r).
Definition with_killed x r := Row (r_state r) (r_chan r) (r_pid r) (r_parent r) x (r_xstate r).
Definition with_parent x r := Row (r_state r) (r_chan r) (r_pid r) x (r_killed r) (r_xstate r).

(** A sleeper on [chan] becomes RUNNABLE. *)
Definition wake_row (chan : channel) (r : row) : row :=
  if is_state (r_state r) SLEEPING && bool_decide (r_chan r = chan) then with_state RUNNABLE r else r.

Definition a_wakeup (me : option Z) (chan : channel) (t : table) : table :=
  Table (fun i => if bool_decide (me = Some i) then t_row t i else wake_row chan (t_row t i)) (t_next t) (t_init t).

Definition first_unused (t : table) (i : Z) : Prop :=
  in_table i /\ r_state (t_row t i) = UNUSED /\ forall j, 0 <= j < i -> r_state (t_row t j) <> UNUSED.

Definition child (t : table) (me i : Z) : Prop := in_table i /\ r_parent (t_row t i) = Some me.

(** me's children go to init, which is woken if there are any; me's parent
    is woken; me is a zombie. *)
Definition adopt (me : Z) (t : table) (i : Z) : row :=
  if bool_decide (r_parent (t_row t i) = Some me) then with_parent (t_init t) (t_row t i) else t_row t i.
Definition has_child (me : Z) (t : table) : bool :=
  existsb (fun i => bool_decide (r_parent (t_row t i) = Some me)) (seqZ 0 NPROC).
Definition a_reparent (me : Z) (t : table) : table :=
  let t' := Table (adopt me t) (t_next t) (t_init t) in
  if has_child me t then a_wakeup (Some me) (proc_chan (t_init t)) t' else t'.
Definition a_exit (me status : Z) (t : table) : table :=
  let t := a_reparent me t in
  let t := a_wakeup (Some me) (proc_chan (r_parent (t_row t me))) t in
  upd_row me (fun r => Row ZOMBIE (r_chan r) (r_pid r) (r_parent r) (r_killed r) status) t.

(** A completed operation with its arguments and result; [me] is the process
    that runs it. *)
Inductive kop :=
  | OFork (me r : Z) | OExit (me status : Z) | OWait (me addr : Z) (r : option Z)
  | OSleep (me : Z) (chan : channel) | OResume (me : Z) | OYield (me : Z) | ORun (i : Z)
  | OWakeup (me : option Z) (chan : channel) | OKill (pid r : Z) | OFault (me va cause r : Z).

Definition kill_row (r : row) : row :=
  with_killed 1 (if is_state (r_state r) SLEEPING then with_state RUNNABLE r else r).
(** A page fault may set the killed flag. *)
Definition may_kill (t : table) (me k : Z) : Prop := k = r_killed (t_row t me) \/ k = 1.

(** What each operation does to the table. *)
Inductive astep : kop -> table -> table -> Prop :=
  (* kfork: no slot; failure after a pid was taken; success.  Pids are of
     type int: these transitions are for the first 2^31 - 2 of them. *)
  | as_fork_none t me : (forall i, in_table i -> r_state (t_row t i) <> UNUSED) -> astep (OFork me (-1)) t t
  | as_fork_fail t me i : t_next t < 2 ^ 31 - 1 -> first_unused t i -> astep (OFork me (-1)) t (upd_row i (fun _ => row_free) (bump t))
  | as_fork t me i : t_next t < 2 ^ 31 - 1 -> in_table me -> r_state (t_row t me) = RUNNING -> first_unused t i ->
      astep (OFork me (t_next t)) t
        (upd_row i (fun r => Row RUNNABLE (r_chan r) (t_next t) (Some me) (r_killed r) (r_xstate r)) (bump t))
  (* kexit *)
  | as_exit t me status : in_table me -> r_state (t_row t me) = RUNNING -> t_init t <> Some me ->
      astep (OExit me status) t (a_exit me status t)
  (* a round of kwait: reap a zombie child; its status cannot be copied out; no
     child to wait for, or killed; sleep *)
  | as_reap t me addr i k : in_table me -> child t me i -> r_state (t_row t i) = ZOMBIE -> may_kill t me k ->
      (addr = 0 -> k = r_killed (t_row t me)) ->
      astep (OWait me addr (Some (r_pid (t_row t i)))) t (upd_row i (fun _ => row_free) (upd_row me (with_killed k) t))
  | as_wait_copy t me addr i k : in_table me -> addr <> 0 -> child t me i -> r_state (t_row t i) = ZOMBIE -> may_kill t me k ->
      astep (OWait me addr (Some (-1))) t (upd_row me (with_killed k) t)
  | as_wait_none t me addr : in_table me -> (forall i, child t me i -> r_state (t_row t i) <> ZOMBIE) ->
      ((forall i, ~ child t me i) \/ r_killed (t_row t me) <> 0) -> astep (OWait me addr (Some (-1))) t t
  | as_wait t me addr : in_table me -> r_state (t_row t me) = RUNNING -> (exists i, child t me i) ->
      (forall i, child t me i -> r_state (t_row t i) <> ZOMBIE) -> r_killed (t_row t me) = 0 ->
      astep (OWait me addr None) t (upd_row me (fun r => with_state SLEEPING (with_chan (ch_proc me) r)) t)
  (* sleep, its end, yield, the scheduler *)
  | as_sleep t me chan : in_table me -> r_state (t_row t me) = RUNNING ->
      astep (OSleep me chan) t (upd_row me (fun r => with_state SLEEPING (with_chan chan r)) t)
  | as_resume t me : in_table me -> r_state (t_row t me) = RUNNING -> astep (OResume me) t (upd_row me (with_chan ch_null) t)
  | as_yield t me : in_table me -> r_state (t_row t me) = RUNNING -> astep (OYield me) t (upd_row me (with_state RUNNABLE) t)
  | as_run t i : in_table i -> r_state (t_row t i) = RUNNABLE -> astep (ORun i) t (upd_row i (with_state RUNNING) t)
  (* wakeup; kkill of the first process with the pid *)
  | as_wakeup t me chan : astep (OWakeup me chan) t (a_wakeup me chan t)
  | as_kill t pid i : in_table i -> r_pid (t_row t i) = pid -> (forall j, 0 <= j < i -> r_pid (t_row t j) <> pid) ->
      astep (OKill pid 0) t (upd_row i kill_row t)
  | as_kill_none t pid : (forall j, in_table j -> r_pid (t_row t j) <> pid) -> astep (OKill pid (-1)) t t
  (* handle_page_fault *)
  | as_fault t me va cause k r : in_table me -> may_kill t me k -> astep (OFault me va cause r) t (upd_row me (with_killed k) t).

(** ** The invariant of the abstract table *)

Definition live (st : procstate) : Prop := st <> UNUSED /\ st <> ZOMBIE.

Record tinv (t : table) : Prop := {
  ti_next : 0 < t_next t;
  ti_free : forall i, in_table i -> r_state (t_row t i) = UNUSED -> r_pid (t_row t i) = 0 /\ r_parent (t_row t i) = None;
  ti_pid : forall i, in_table i -> r_state (t_row t i) <> UNUSED -> 0 < r_pid (t_row t i) < t_next t;
  ti_uniq : forall i j, in_table i -> in_table j -> r_state (t_row t i) <> UNUSED -> r_state (t_row t j) <> UNUSED ->
    r_pid (t_row t i) = r_pid (t_row t j) -> i = j;
  ti_parent : forall i j, in_table i -> r_parent (t_row t i) = Some j -> in_table j /\ live (r_state (t_row t j));
  ti_orphan : forall i, in_table i -> r_state (t_row t i) <> UNUSED -> r_parent (t_row t i) = None -> t_init t = Some i;
  ti_init : exists i, t_init t = Some i /\ in_table i /\ live (r_state (t_row t i))
}.

(** A transition that changes neither pids, parents, the set of unused
    processes nor that of live ones. *)
Definition same_life (r r' : row) : Prop :=
  r_pid r' = r_pid r /\ r_parent r' = r_parent r /\ (r_state r' = UNUSED <-> r_state r = UNUSED) /\
  (r_state r' = ZOMBIE <-> r_state r = ZOMBIE).

Lemma tinv_same t t' :
  tinv t -> t_next t' = t_next t -> t_init t' = t_init t -> (forall i, same_life (t_row t i) (t_row t' i)) -> tinv t'.
Proof.
  intros [I1 I2 I3 I4 I5 I6 I7] En Ei Hs. assert (forall i, live (r_state (t_row t i)) -> live (r_state (t_row t' i))) as Hl.
  { intros i [H1 H2]. destruct (Hs i) as (_ & _ & H3 & H4). split; tauto. }
  constructor; rewrite ?En, ?Ei; [done|..].
  - intros i Hi Hu. destruct (Hs i) as (-> & -> & H3 & _). apply I2; tauto.
  - intros i Hi Hu. destruct (Hs i) as (-> & _ & H3 & _). apply I3; tauto.
  - intros i j Hi Hj Hu Hv. destruct (Hs i) as (-> & _ & H3 & _). destruct (Hs j) as (-> & _ & H3' & _). apply I4; tauto.
  - intros i j Hi. destruct (Hs i) as (_ & -> & _). intros H. destruct (I5 i j Hi H). auto.
  - intros i Hi Hu. destruct (Hs i) as (_ & -> & H3 & _). apply I6; tauto.
  - destruct I7 as (i & E & Hi & H). exists i. auto.
Qed.

Lemma same_life_refl r : same_life r r.
Proof. done. Qed.
Lemma same_life_wake chan r : same_life r (wake_row chan r).
Proof.
  unfold wake_row, is_state. destruct (bool_decide_reflect (r_state r = SLEEPING)) as [E|]; [|done].
  destruct (bool_decide _); [|done]. unfold same_life. cbn. rewrite E. split_and!; done.
Qed.
Lemma same_life_upd i f t j : (same_life (t_row t i) (f (t_row t i))) -> same_life (t_row t j) (t_row (upd_row i f t) j).
Proof. intros H. cbn. by destruct (decide (j = i)) as [->|]. Qed.
Lemma same_life_wakeup me chan t j : same_life (t_row t j) (t_row (a_wakeup me chan t) j).
Proof. cbn. destruct (bool_decide _); [done|apply same_life_wake]. Qed.

(** ** Preservation *)

Lemma s32_succ n : 0 < n < 2 ^ 31 - 1 -> s32 (n + 1) = n + 1.
Proof. intros. apply s32_id. lia. Qed.

(** A slot is freed: it was unused, or a zombie without children. *)
Lemma tinv_free t i :
  tinv t -> in_table i -> ~ live (r_state (t_row t i)) -> tinv (upd_row i (fun _ => row_free) t).
Proof.
  intros [I1 I2 I3 I4 I5 I6 I7] Hi Hn.
  assert (forall j, live (r_state (t_row t j)) -> j <> i) as Hne by (intros j H ->; done).
  constructor; cbn; [done|..].
  - intros j Hj. destruct (decide (j = i)); [done|]. by apply I2.
  - intros j Hj. destruct (decide (j = i)); [done|]. by apply I3.
  - intros j k Hj Hk. destruct (decide (j = i)); [done|]. destruct (decide (k = i)); [done|]. by apply I4.
  - intros j k Hj. destruct (decide (j = i)); [done|]. intros H. destruct (I5 j k Hj H) as [Hk Hl]. by rewrite decide_False by auto.
  - intros j Hj. destruct (decide (j = i)); [done|]. by apply I6.
  - destruct I7 as (k & E & Hk & H). exists k. by rewrite decide_False by auto.
Qed.

Lemma tinv_bump t : tinv t -> t_next t < 2 ^ 31 - 1 -> tinv (bump t).
Proof.
  intros [I1 I2 I3 I4 I5 I6 I7] Hn. constructor; cbn; rewrite ?s32_succ by lia; try done; [lia|].
  intros i Hi Hu. specialize (I3 i Hi Hu). lia.
Qed.

Lemma tinv_fork t me i :
  tinv t -> t_next t < 2 ^ 31 - 1 -> in_table me -> r_state (t_row t me) = RUNNING -> first_unused t i ->
  tinv (upd_row i (fun r => Row RUNNABLE (r_chan r) (t_next t) (Some me) (r_killed r) (r_xstate r)) (bump t)).
Proof.
  intros I Hn Hme Hrun (Hi & Hu & _). pose proof (tinv_bump t I Hn) as [J1 J2 J3 J4 J5 J6 J7]. pose proof I as [I1 I2 I3 I4 I5 I6 I7].
  cbn in J1, J3. rewrite s32_succ in J1, J3 by lia.
  assert (forall j, live (r_state (t_row t j)) -> j <> i) as Hne by (intros j [H _] ->; done).
  assert (live (r_state (t_row t me))) as Hlme by (by rewrite Hrun).
  constructor; cbn; rewrite ?s32_succ by lia; [lia|..].
  - intros j Hj. destruct (decide (j = i)); [done|]. by apply I2.
  - intros j Hj. destruct (decide (j = i)); [cbn; lia|]. by apply J3.
  - intros j k Hj Hk. destruct (decide (j = i)) as [->|]; destruct (decide (k = i)) as [->|]; cbn; try done.
    + intros _ Hv E. specialize (I3 k Hk Hv). lia.
    + intros Hv _ E. specialize (I3 j Hj Hv). lia.
    + by apply I4.
  - intros j k Hj. destruct (decide (j = i)); cbn.
    + intros [= <-]. split; [done|]. rewrite decide_False by auto. done.
    + intros H. destruct (I5 j k Hj H) as [Hk Hl]. by rewrite decide_False by auto.
  - intros j Hj. destruct (decide (j = i)); [done|]. by apply I6.
  - destruct I7 as (k & E & Hk & H). exists k. by rewrite decide_False by auto.
Qed.

Lemma tinv_adopt t me : tinv t -> in_table me -> t_init t <> Some me -> tinv (Table (adopt me t) (t_next t) (t_init t)).
Proof.
  intros [I1 I2 I3 I4 I5 I6 I7] Hme Hne. destruct I7 as (k & Ek & Hk & Hl).
  assert (forall j, r_state (adopt me t j) = r_state (t_row t j) /\ r_pid (adopt me t j) = r_pid (t_row t j)) as Hs.
  { intros j. unfold adopt. by destruct (bool_decide _). }
  constructor; cbn; [done|..].
  - intros i Hi. destruct (Hs i) as [-> ->]. intros Hu. destruct (I2 i Hi Hu) as [E1 E2]. split; [done|].
    unfold adopt. by rewrite bool_decide_false by congruence.
  - intros i Hi. destruct (Hs i) as [-> ->]. by apply I3.
  - intros i j Hi Hj. destruct (Hs i) as [-> ->]. destruct (Hs j) as [-> ->]. by apply I4.
  - intros i j Hi. destruct (Hs j) as [-> _]. unfold adopt. case_bool_decide as E; [|by apply I5]. cbn. rewrite Ek. by intros [= <-].
  - intros i Hi. destruct (Hs i) as [-> _]. unfold adopt. case_bool_decide as E; [cbn; rewrite Ek; done|]. by apply I6.
  - exists k. by destruct (Hs k) as [-> _].
Qed.

Lemma tinv_exit t me status :
  tinv t -> in_table me -> r_state (t_row t me) = RUNNING -> t_init t <> Some me -> tinv (a_exit me status t).
Proof.
  intros I Hme Hrun Hne. unfold a_exit. set (t1 := a_reparent me t). set (t2 := a_wakeup _ _ t1).
  assert (tinv t2 /\ (forall i, in_table i -> r_parent (t_row t2 i) <> Some me) /\ t_init t2 = t_init t /\ r_state (t_row t2 me) = RUNNING)
    as (I2 & Hno & Ei & Hr2).
  { pose proof (tinv_adopt t me I Hme Hne) as Ia. destruct (ti_init _ I) as (k & Ek & Hk & _).
    assert (forall c t0 i, r_parent (t_row (a_wakeup (Some me) c t0) i) = r_parent (t_row t0 i)) as Hp.
    { intros c t0 i. by destruct (same_life_wakeup (Some me) c t0 i) as (_ & -> & _). }
    assert (forall c t0, t_row (a_wakeup (Some me) c t0) me = t_row t0 me) as Hm by (intros; cbn; by rewrite bool_decide_true).
    assert (tinv t1 /\ (forall i, r_parent (t_row t1 i) = r_parent (adopt me t i)) /\ t_init t1 = t_init t /\ t_row t1 me = adopt me t me) as (I1 & P1 & E1 & M1).
    { unfold t1, a_reparent. destruct (has_child me t); [|done]. split_and!; [|by intros; rewrite Hp|done|by rewrite Hm].
      eapply tinv_same; [exact Ia|done|done|intros; apply same_life_wakeup]. }
    split_and!; [| |done|].
    - eapply tinv_same; [exact I1|done|done|intros; apply same_life_wakeup].
    - intros i Hi. unfold t2. rewrite Hp, P1. unfold adopt. case_bool_decide as E; [|done]. cbn. congruence.
    - unfold t2. rewrite Hm, M1. unfold adopt. by destruct (bool_decide _). }
  destruct I2 as [I1 I2 I3 I4 I5 I6 I7]. clearbody t2. clear t1. rewrite Ei in I6, I7. constructor; cbn; rewrite ?Ei; [done|..].
  - intros j Hj. destruct (decide (j = me)); [done|]. by apply I2.
  - intros j Hj. destruct (decide (j = me)) as [->|]; [|by apply I3]. cbn. intros _. apply I3; [done|by rewrite Hr2].
  - intros j k Hj Hk. assert (r_state (t_row t2 me) <> UNUSED) by (by rewrite Hr2).
    destruct (decide (j = me)) as [->|]; destruct (decide (k = me)) as [->|]; cbn; intros; (done || by apply I4).
  - intros j k Hj. destruct (decide (j = me)) as [->|]; cbn; intros H; (destruct (I5 _ k Hj H) as [Hk Hl]; split; [done|];
      rewrite decide_False; [done|]; intros ->; by apply (Hno _ Hj)).
  - intros j Hj. destruct (decide (j = me)) as [->|]; cbn; [|by apply I6]. intros _. apply I6; [done|by rewrite Hr2].
  - destruct I7 as (k & Ek & Hk & H). exists k. rewrite decide_False by congruence. done.
Qed.

Ltac astep_cases Hst :=
  inversion Hst as [t0 me H|t0 me i Hn Hf|t0 me i Hn Hme Hr Hf|t0 me st Hme Hr Hi|t0 me addr i k Hme Hc Hz Hk Ha|t0 me addr i k Hme Ha Hc Hz Hk|
    t0 me addr Hme Hz Hk|t0 me addr Hme Hr Hc Hz Hk|t0 me ch Hme Hr|t0 me Hme Hr|t0 me Hme Hr|t0 i Hi Hr|t0 me ch|t0 pid i Hi Hp Hl|t0 pid H|
    t0 me va c k r Hme Hk]; subst.

Lemma astep_inv o t t' : tinv t -> astep o t t' -> tinv t'.
Proof.
  intros I Hst. astep_cases Hst; try done; try (eapply tinv_same; [exact I|done|done|]; intros j;
    first [apply same_life_wakeup|apply same_life_upd; unfold same_life; cbn; by rewrite ?Hr]).
  - apply tinv_free; [by apply tinv_bump|apply Hf|]. intros [H _]. apply H. apply Hf.
  - by apply tinv_fork.
  - by apply tinv_exit.
  - assert (tinv (upd_row me (with_killed k) t)) as I1.
    { eapply tinv_same; [exact I|done|done|]. intros j. by apply same_life_upd. }
    apply tinv_free; [exact I1|apply Hc|]. cbn. destruct (decide (i = me)); [subst; cbn|]; rewrite Hz; by intros [_ []].
  - eapply tinv_same; [exact I|done|done|]. intros j. apply same_life_upd. unfold same_life, kill_row, is_state.
    case_bool_decide as E; cbn; rewrite ?E; done.
Qed.

(** The process that runs an operation of its own. *)
Definition op_by (o : kop) : option Z :=
  match o with
  | OFork me _ | OExit me _ | OWait me _ _ | OSleep me _ | OResume me | OYield me | OFault me _ _ _ => Some me
  | ORun _ | OWakeup _ _ | OKill _ _ => None
  end.

(** A RUNNABLE process stays RUNNABLE until the scheduler runs it, and a
    process that is RUNNING, or not, stays so until the scheduler or the
    process itself changes it. *)
Definition only_scheduled (o : kop) (t t' : table) (i : Z) : Prop :=
  o <> ORun i ->
  (r_state (t_row t i) = RUNNABLE -> op_by o <> Some i -> r_state (t_row t' i) = RUNNABLE) /\
  (op_by o <> Some i -> (r_state (t_row t' i) = RUNNING <-> r_state (t_row t i) = RUNNING)).

Definition same_run (r r' : row) : Prop :=
  (r_state r = RUNNABLE -> r_state r' = RUNNABLE) /\ (r_state r' = RUNNING <-> r_state r = RUNNING).
Lemma same_run_trans r1 r2 r3 : same_run r1 r2 -> same_run r2 r3 -> same_run r1 r3.
Proof. unfold same_run. intuition. Qed.
Lemma wake_row_run c r : same_run r (wake_row c r).
Proof. unfold same_run, wake_row, is_state. case_bool_decide as E; [|done]. destruct (bool_decide _); cbn; [|done]. rewrite E. by split_and!. Qed.
Lemma wakeup_run me c t i : same_run (t_row t i) (t_row (a_wakeup me c t) i).
Proof. cbn. destruct (bool_decide _); [done|apply wake_row_run]. Qed.
Lemma reparent_run me t i : same_run (t_row t i) (t_row (a_reparent me t) i).
Proof.
  unfold a_reparent. assert (same_run (t_row t i) (adopt me t i)) as Ha by (unfold adopt; by destruct (bool_decide _)).
  destruct (has_child me t); [|exact Ha]. eapply same_run_trans; [exact Ha|]. apply (wakeup_run (Some me) _ (Table (adopt me t) (t_next t) (t_init t))).
Qed.

Lemma astep_only_scheduled o t t' x : astep o t t' -> in_table x -> only_scheduled o t t' x.
Proof.
  intros Hst Hti No. assert (op_by o <> Some x -> same_run (t_row t x) (t_row t' x)) as H; [|unfold same_run in H; tauto].
  intros Nb. astep_cases Hst; cbn [op_by] in Nb; try done; try (cbn; rewrite decide_False by congruence; done); try apply wakeup_run.
  - cbn. destruct Hf as (_ & Hu & _). destruct (decide (x = i)) as [->|]; [|done]. unfold same_run. rewrite Hu. done.
  - cbn. destruct Hf as (_ & Hu & _). destruct (decide (x = i)) as [->|]; [|done]. unfold same_run. rewrite Hu. done.
  - cbn. rewrite decide_False by congruence. eapply same_run_trans; [apply reparent_run|]. rewrite bool_decide_false by congruence. apply wake_row_run.
  - cbn. destruct (decide (x = i)) as [->|]; [unfold same_run; rewrite Hz; done|]. by rewrite decide_False by congruence.
  - cbn. destruct (decide (x = i)) as [->|]; [|done]. unfold same_run, kill_row, is_state. case_bool_decide as E; cbn; rewrite ?E; done.
Qed.
