(* ===== verification/ProcRefine.v ===== *)
(** * proc.c implements the abstract process table *)
From S2P Require Import Prelude Mem Riscv Kalloc Vm Paging UserCopy Proc ProcSpec.
From stdpp Require Import base tactics numbers list strings gmap relations.
From Stdlib Require Import ZArith Lia.

Open Scope Z_scope.

Definition row_of (p : proc) : row := Row (pr_state p) (pr_chan p) (pr_pid p) (pr_parent p) (pr_killed p) (pr_xstate p).

Section frame.
Context {KL : KernelLayout} {FS : FsOps} {PF : ProcFs} {PL : ProcLayout}.
Implicit Types s : kstate.

Record tab s (t : table) : Prop := {
  tab_len : length (k_proc s) = Z.to_nat NPROC;
  tab_row : forall i, in_table i -> row_of (getp s i) = t_row t i;
  tab_next : k_nextpid s = t_next t;
  tab_init : k_init s = t_init t
}.

(** ** Frame lemmas *)

Lemma getp_upd s i x j :
  length (k_proc s) = Z.to_nat NPROC -> in_table i -> in_table j ->
  getp (set_kproc (<[Z.to_nat i := x]> (k_proc s)) s) j = if decide (j = i) then x else getp s j.
Proof.
  intros Hl [Hi Hi'] [Hj Hj']. unfold getp. cbn. rewrite !nth_lookup, lookup_insert_Z by (rewrite ?Hl; lia).
  destruct (decide (i = j)) as [->|]; [by rewrite decide_True|by rewrite decide_False].
Qed.

Lemma tab_upd s t i x g :
  tab s t -> in_table i -> row_of x = g (t_row t i) -> tab (set_kproc (<[Z.to_nat i := x]> (k_proc s)) s) (upd_row i g t).
Proof.
  intros [T1 T2 T3 T4] Hi E. constructor; [cbn; by rewrite length_insert| |done|done].
  intros j Hj. rewrite getp_upd by done. cbn. destruct (decide (j = i)) as [->|]; [done|by apply T2].
Qed.

(** A change of fields that the table does not keep. *)
Lemma tab_upd_same s t i x :
  tab s t -> in_table i -> row_of x = row_of (getp s i) -> tab (set_kproc (<[Z.to_nat i := x]> (k_proc s)) s) t.
Proof.
  intros T Hi E. pose proof T as [T1 T2 T3 T4]. constructor; [cbn; by rewrite length_insert| |done|done].
  intros j Hj. rewrite getp_upd by done. destruct (decide (j = i)) as [->|]; [rewrite E|]; by apply T2.
Qed.

Lemma tab_set_kmem m s t : tab s t -> tab (set_kmem m s) t.
Proof. by intros []. Qed.
Lemma tab_set_kfs f s t : tab s t -> tab (set_kfs f s) t.
Proof. by intros []. Qed.

Lemma wlp_on_mem {A} (c : M kmem A) (Q : A -> kstate -> Prop) s : (forall a m, Q a (set_kmem m s)) -> wlp (on_mem c) Q s.
Proof. intros H. apply wlp_zoom, wlp_any. intros a m. apply H. Qed.
Lemma wlp_on_kfs {A} (c : M fs A) (Q : A -> kstate -> Prop) s : (forall a f, Q a (set_kfs f s)) -> wlp (on_kfs c) Q s.
Proof. intros H. apply wlp_zoom, wlp_any. intros a m. apply H. Qed.

(** The calls into memory and the file layer, and updates of fields that the
    table does not keep, keep [tab]. *)
Lemma tab_on_mem {A} (c : M kmem A) s t : tab s t -> wlp (on_mem c) (fun _ s' => tab s' t) s.
Proof. intros T. apply wlp_on_mem. intros. by apply tab_set_kmem. Qed.
Lemma tab_on_kfs {A} (c : M fs A) s t : tab s t -> wlp (on_kfs c) (fun _ s' => tab s' t) s.
Proof. intros T. apply wlp_on_kfs. intros. by apply tab_set_kfs. Qed.
Lemma tab_updp i f s t :
  tab s t -> in_table i -> (forall p, row_of (f p) = row_of p) -> wlp (updp i f) (fun _ s' => tab s' t) s.
Proof. intros T Hi E. apply wlp_modify. by apply tab_upd_same. Qed.
Lemma tab_updp_row i f g s t :
  tab s t -> in_table i -> (forall p, row_of (f p) = g (row_of p)) -> wlp (updp i f) (fun _ s' => tab s' (upd_row i g t)) s.
Proof. intros T Hi E. apply wlp_modify, tab_upd; [done|done|]. by rewrite E, (tab_row _ _ T). Qed.

Lemma wlp_proc_of i (Q : proc -> kstate -> Prop) s : Q (getp s i) s -> wlp (proc_of i) Q s.
Proof. done. Qed.

(** Sequences of such calls. *)
Lemma tab_seq {A} (c : M kstate A) {B} (f : A -> M kstate B) Q s t :
  wlp c (fun _ s' => tab s' t) s -> (forall a s', tab s' t -> wlp (f a) Q s') -> wlp (c ≫= f) Q s.
Proof. intros H1 H2. eapply wlp_call; [exact H1|]. done. Qed.

(** Equality of tables on the slots that exist. *)
Lemma tab_ext s t t' :
  tab s t -> (forall i, in_table i -> t_row t i = t_row t' i) -> t_next t = t_next t' -> t_init t = t_init t' -> tab s t'.
Proof. intros [T1 T2 T3 T4] E1 E2 E3. constructor; [done| |congruence|congruence]. intros i Hi. by rewrite T2, E1. Qed.

End frame.

Ltac tab_call :=
  lazymatch goal with
  | |- wlp (on_mem _) _ _ => apply tab_on_mem; eassumption
  | |- wlp (on_kfs _) _ _ => apply tab_on_kfs; eassumption
  | |- wlp (updp _ _) _ _ => apply tab_updp; [eassumption|assumption|intros; reflexivity]
  | |- wlp (updc _ _) _ _ => apply tab_updp; [eassumption|assumption|intros; reflexivity]
  | |- wlp skip _ _ => apply wlp_skip; cbv beta; eassumption
  | |- wlp (if ?b then _ else _) _ _ => destruct b; tab_call
  | |- wlp (mbind _ _) _ _ => eapply tab_seq; [tab_call|intros ? ? ?; tab_call]
  end.
(** The next call keeps the table [t]. *)
Ltac tab_one t := eapply (tab_seq _ _ _ _ t); [tab_call|].

(** The next call updates row [i], within the table, by [g]. *)
Ltac row_one T Hi g := eapply wlp_call; [apply (tab_updp_row _ _ g _ _ T Hi); intros; reflexivity|]; cbv beta.

Section refine.
Context {KL : KernelLayout} {FS : FsOps} {PF : ProcFs} {PL : ProcLayout}.
Implicit Types s : kstate.

Lemma upd_row_twice i f g t j : t_row (upd_row i f (upd_row i g t)) j = t_row (upd_row i (fun r => f (g r)) t) j.
Proof. cbn. destruct (decide (j = i)); [|done]. by rewrite decide_True. Qed.

(** ** freeproc and allocproc *)

Lemma freeproc_tab i s t :
  tab s t -> in_table i -> wlp (freeproc i) (fun _ s' => tab s' (upd_row i (fun _ => row_free) t)) s.
Proof.
  intros T Hi. unfold freeproc. apply wlp_bind, wlp_proc_of. tab_one t. intros ? s1 T1.
  tab_one t. intros ? s2 T2. tab_one t. intros ? s3 T3.
  row_one T3 Hi (fun r => Row (r_state r) (r_chan r) 0 (r_parent r) (r_killed r) (r_xstate r)).
  intros ? s4 T4.
  row_one T4 Hi (fun r => Row (r_state r) ch_null (r_pid r) None (r_killed r) (r_xstate r)).
  intros ? s5 T5. row_one T5 Hi (with_killed 0). intros ? s6 T6.
  row_one T6 Hi (fun r => Row (r_state r) (r_chan r) (r_pid r) (r_parent r) (r_killed r) 0).
  intros ? s7 T7. eapply tab_seq; [tab_call|]. intros ? s8 T8.
  eapply wlp_mono; [apply (tab_updp_row _ _ (with_state UNUSED) _ _ T8 Hi); reflexivity|]. intros ? s9 T9.
  eapply tab_ext; [exact T9| |done|done]. intros j Hj. rewrite !upd_row_twice. reflexivity.
Qed.

Lemma find_unused_spec l i0 :
  match find_unused l i0 with
  | Some i => i0 <= i < i0 + Z.of_nat (length l) /\ pr_state (nth (Z.to_nat (i - i0)) l proc_zero) = UNUSED /\
      forall j, i0 <= j < i -> pr_state (nth (Z.to_nat (j - i0)) l proc_zero) <> UNUSED
  | None => forall j, i0 <= j < i0 + Z.of_nat (length l) -> pr_state (nth (Z.to_nat (j - i0)) l proc_zero) <> UNUSED
  end.
Proof.
  revert i0. induction l as [|p l IH]; intros i0; cbn [find_unused length]; [intros; lia|].
  assert (forall j, i0 + 1 <= j -> Z.to_nat (j - i0) = S (Z.to_nat (j - (i0 + 1)))) as En by lia.
  unfold is_state. case_bool_decide as E.
  - split_and!; [lia|lia|by rewrite Z.sub_diag|lia].
  - specialize (IH (i0 + 1)). destruct (find_unused l (i0 + 1)) as [i|].
    + destruct IH as (H1 & H2 & H3). split_and!; [lia|lia|by rewrite En by lia|]. intros j Hj.
      destruct (decide (j = i0)) as [->|]; [by rewrite Z.sub_diag|]. rewrite En by lia. apply H3. lia.
    + intros j Hj. destruct (decide (j = i0)) as [->|]; [by rewrite Z.sub_diag|]. rewrite En by lia. apply IH. lia.
Qed.

Lemma find_unused_tab s t :
  tab s t ->
  match find_unused (k_proc s) 0 with
  | Some i => first_unused t i
  | None => forall i, in_table i -> r_state (t_row t i) <> UNUSED
  end.
Proof.
  intros [T1 T2 _ _]. pose proof (find_unused_spec (k_proc s) 0) as H. rewrite T1 in H.
  assert (forall j, in_table j -> r_state (t_row t j) = pr_state (nth (Z.to_nat (j - 0)) (k_proc s) proc_zero)) as E.
  { intros j Hj. rewrite <- T2 by done. unfold getp. by rewrite Z.sub_0_r. }
  unfold first_unused, in_table, NPROC in *. destruct (find_unused _ 0) as [i|].
  - destruct H as (H1 & H2 & H3). split_and!; [lia|lia|by rewrite E by lia|]. intros j Hj. rewrite E by lia. apply H3. lia.
  - intros i Hi. rewrite E by lia. apply H. lia.
Qed.

(** A process slot in preparation, and what allocproc leaves. *)
Definition t_used (t : table) (i : Z) : table :=
  upd_row i (fun r => Row USED (r_chan r) (t_next t) (r_parent r) (r_killed r) (r_xstate r)) (bump t).
Definition t_freed (t : table) (i : Z) : table := upd_row i (fun _ => row_free) (bump t).
Definition alloc_post (t : table) (r : option Z) s' : Prop :=
  match r with
  | None => (forall i, in_table i -> r_state (t_row t i) <> UNUSED) /\ tab s' t \/
            exists i, first_unused t i /\ tab s' (t_freed t i)
  | Some i => first_unused t i /\ tab s' (t_used t i)
  end.

Lemma freeproc_used t i s : tab s (t_used t i) -> in_table i -> wlp (freeproc i) (fun _ s' => tab s' (t_freed t i)) s.
Proof.
  intros T Hi. eapply wlp_mono; [by apply freeproc_tab|]. intros ? s' T'. eapply tab_ext; [exact T'| |done|done].
  intros j Hj. unfold t_used, t_freed. by rewrite upd_row_twice.
Qed.

Lemma allocproc_tab s t : tab s t -> wlp allocproc (alloc_post t) s.
Proof.
  intros T. unfold allocproc. wlp_step. wlp_step. cbv beta. pose proof (find_unused_tab s t T) as Hf.
  destruct (find_unused (k_proc s) 0) as [i|]; [|wlp_steps; by left].
  pose proof Hf as (Hi & _). unfold allocpid. wlp_steps.
  assert (tab (set_nextpid (s32 (k_nextpid s + 1)) s) (bump t)) as T1.
  { destruct T as [T1 T2 T3 T4]. constructor; cbn; [done|done|by rewrite T3|done]. }
  assert (k_nextpid s = t_next t) as En by apply T. rewrite !En in *. clear T. set (s1 := set_nextpid _ s) in *.
  eapply wlp_mono; [apply (tab_updp_row _ _ (fun r => Row (r_state r) (r_chan r) (t_next t) (r_parent r) (r_killed r) (r_xstate r)) _ _ T1 Hi); reflexivity|].
  intros ? s2 T2. row_one T2 Hi (with_state USED). intros ? s3 T3.
  assert (tab s3 (t_used t i)) as T4.
  { eapply tab_ext; [exact T3| |done|done]. intros j Hj. by rewrite upd_row_twice. }
  clear T1 T2 T3.
  assert (forall s', tab s' (t_used t i) -> wlp (freeproc i;; mret None) (alloc_post t) s') as Hfail.
  { intros s' T'. eapply wlp_call; [by apply freeproc_used|]. intros ? s'' T''. wlp_steps. right. by exists i. }
  tab_one (t_used t i). intros tf s4 T5. tab_one (t_used t i). intros ? s5 T6. destruct (tf =? 0); [by apply Hfail|].
  tab_one (t_used t i). intros pt s6 T7. tab_one (t_used t i). intros ? s7 T8. destruct (pt =? 0); [by apply Hfail|].
  tab_one (t_used t i). intros ? s8 T9. tab_one (t_used t i). intros ? s9 T10. wlp_steps. done.
Qed.

(** ** Paging and copying keep the pid, and can only set the killed flag *)

Definition core_kept (p0 p : pproc) : Prop := p_pid p = p_pid p0 /\ (p_killed p = p_killed p0 \/ p_killed p = 1).
Definition keeps {A} (c : M pstate A) : Prop :=
  forall p0 (s : pstate), core_kept p0 (ps_proc s) -> wlp c (fun _ (x : pstate) => core_kept p0 (ps_proc x)) s.

Lemma keeps_ret {A} (a : A) : keeps (mret a).
Proof. by intros p0 s H. Qed.
Lemma core_keeps_skip : keeps skip.
Proof. by intros p0 s H. Qed.
Lemma keeps_nofuel {A} : keeps (nofuel : M pstate A).
Proof. by intros p0 s H. Qed.
Lemma core_keeps_bind {A B} (c : M pstate A) (f : A -> M pstate B) : keeps c -> (forall a, keeps (f a)) -> keeps (c ≫= f).
Proof. intros H1 H2 p0 s H. eapply wlp_call; [by apply H1|]. intros a s' H'. by apply H2. Qed.
Lemma core_keeps_gets {A} (f : pstate -> A) : keeps (gets f).
Proof. by intros p0 s H. Qed.
Lemma keeps_my {A} (f : pproc -> A) : keeps (my f).
Proof. by intros p0 s H. Qed.
Lemma keeps_paging {A} (f : paging_info -> A) : keeps (paging f).
Proof. by intros p0 s H. Qed.
Lemma keeps_on_km {A} (c : M kmem A) : keeps (on_km c).
Proof. intros p0 s H. apply wlp_zoom, wlp_any. done. Qed.
Lemma keeps_on_fs {A} (c : M fs A) : keeps (on_fs c).
Proof. intros p0 s H. apply wlp_zoom, wlp_any. done. Qed.
Lemma keeps_upd_paging f : keeps (upd_paging f).
Proof. by intros p0 s H. Qed.
Lemma keeps_emit e : keeps (emit e).
Proof. by intros p0 s H. Qed.
Lemma keeps_setkilled : keeps setkilled.
Proof. intros p0 s [H _]. split; [done|by right]. Qed.

Create HintDb keeps discriminated.
Ltac keeps_tac :=
  repeat first
    [ solve [eauto 2 with keeps] | apply keeps_ret | apply core_keeps_skip | apply keeps_nofuel | apply core_keeps_gets | apply keeps_my | apply keeps_paging
    | apply keeps_on_km | apply keeps_on_fs | apply keeps_upd_paging | apply keeps_emit | apply keeps_setkilled
    | apply core_keeps_bind; [|intros ?]
    | match goal with |- keeps (match ?x with _ => _ end) => destruct x end ].

Lemma keeps_create_swap_file : keeps create_swap_file.
Proof. unfold create_swap_file. keeps_tac. Qed.
#[local] Hint Resolve keeps_create_swap_file : keeps.
Lemma keeps_swapout_page va : keeps (swapout_page va).
Proof. unfold swapout_page, discard_page, swapout_dirty, writei_kernel. keeps_tac. Qed.
#[local] Hint Resolve keeps_swapout_page : keeps.
Lemma keeps_kalloc_evict oom : keeps oom -> keeps (kalloc_evict oom).
Proof. intros H. unfold kalloc_evict, evict_page_fifo. keeps_tac. Qed.
Lemma keeps_kalloc_skip : keeps (kalloc_evict skip).
Proof. apply keeps_kalloc_evict. keeps_tac. Qed.
Lemma keeps_kalloc_emit e : keeps (kalloc_evict (emit e)).
Proof. apply keeps_kalloc_evict. keeps_tac. Qed.
#[local] Hint Resolve keeps_kalloc_skip keeps_kalloc_emit : keeps.
Lemma keeps_swapin_page va : keeps (swapin_page va).
Proof. unfold swapin_page, swapin_finish, make_resident, readi_kernel. keeps_tac. Qed.
#[local] Hint Resolve keeps_swapin_page : keeps.
Lemma keeps_handle_page_fault va cause : keeps (handle_page_fault va cause).
Proof. unfold handle_page_fault, fault_exec, fault_heap, make_resident, readi_kernel. keeps_tac. Qed.
#[local] Hint Resolve keeps_handle_page_fault : keeps.
Lemma keeps_user_page pt va w : keeps (user_page pt va w).
Proof. unfold user_page, handle_kernel_pagefault. keeps_tac. Qed.
#[local] Hint Resolve keeps_user_page : keeps.
Lemma keeps_copyout_loop n pt va src len : keeps (copyout_loop n pt va src len).
Proof. revert va src len. induction n as [|n IH]; intros va src len; cbn [copyout_loop]; keeps_tac. Qed.
Lemma keeps_copyout pt va src len : keeps (copyout pt va src len).
Proof. apply keeps_copyout_loop. Qed.

(** Such an operation, run for process [me]. *)
Lemma tab_in_proc {A} (c : M pstate A) me s t :
  keeps c -> tab s t -> in_table me ->
  wlp (in_proc me c) (fun _ s' => exists k, may_kill t me k /\ tab s' (upd_row me (with_killed k) t)) s.
Proof.
  intros Hk T Hme. pose proof (tab_row _ _ T me Hme) as Er. apply wlp_zoom. eapply wlp_mono; [apply (Hk (pr_core (getp s me))); by split; auto|].
  intros a s' [H1 H2]. exists (p_killed (ps_proc s')). split.
  - unfold may_kill. rewrite <- Er. exact H2.
  - assert (tab (set_kproc (<[Z.to_nat me := set_core (ps_proc s') (getp s me)]> (k_proc s)) s)
      (upd_row me (with_killed (p_killed (ps_proc s'))) t)) as [T1 T2 T3 T4]; [|by constructor].
    apply tab_upd; [done|done|]. rewrite <- Er. unfold row_of, with_killed, pr_pid. cbn. by rewrite H1.
Qed.

(** ** wakeup, sleep, yield, kkill *)

Lemma wp_updp i f (Q : unit -> kstate -> Prop) s :
  Q () (set_kproc (<[Z.to_nat i := f (getp s i)]> (k_proc s)) s) -> wp (updp i f) Q s.
Proof. done. Qed.

(** The loop of wakeup: the processes below [k] have been looked at. *)
Definition woken_below (k : Z) (me : option Z) (chan : channel) (t : table) : table :=
  Table (fun i => if decide (i < k) then t_row (a_wakeup me chan t) i else t_row t i) (t_next t) (t_init t).

Lemma wakeup_tab me chan s t : tab s t -> wp (wakeup me chan) (fun _ s' => tab s' (a_wakeup me chan t)) s.
Proof.
  intros T. eapply wp_mono; [apply (wp_for_z (fun k s' => tab s' (woken_below k me chan t)))|].
  - eapply tab_ext; [exact T| |done|done]. intros i [Hi _]. cbn. by rewrite decide_False by lia.
  - intros i s' Hi T'. assert (in_table i) as Hin by (unfold in_table, NPROC in *; lia).
    assert (forall s'', tab s'' (upd_row i (fun _ => t_row (a_wakeup me chan t) i) (woken_below i me chan t)) -> tab s'' (woken_below (i + 1) me chan t)) as Hgo.
    { intros s'' T''. eapply tab_ext; [exact T''| |done|done]. intros j Hj. cbn. destruct (decide (j = i)) as [->|].
      - by rewrite decide_True by lia.
      - destruct (decide (j < i)); [by rewrite decide_True by lia|by rewrite decide_False by lia]. }
    assert (t_row (a_wakeup me chan t) i = row_of (getp s' i) -> tab s' (woken_below (i + 1) me chan t)) as Hsame.
    { intros E. apply Hgo. eapply tab_ext; [exact T'| |done|done]. intros j Hj. cbn [upd_row t_row].
      destruct (decide (j = i)) as [->|]; [|done]. by rewrite <- (tab_row _ _ T' i Hin), E. }
    assert (row_of (getp s' i) = t_row t i) as Er.
    { rewrite (tab_row _ _ T' i Hin). cbn. by rewrite decide_False by lia. }
    cbv beta. case_bool_decide as Em.
    { apply wp_skip, Hsame. cbn. by rewrite bool_decide_true. }
    apply wp_bind, wp_gets. destruct (_ && _) eqn:Ew.
    + apply wp_updp, Hgo, tab_upd; [done|done|]. cbn [t_row a_wakeup]. rewrite bool_decide_false by done.
      unfold wake_row. rewrite <- Er. cbn [row_of r_state r_chan]. by rewrite Ew.
    + apply wp_skip, Hsame. cbn [t_row a_wakeup]. rewrite bool_decide_false by done.
      unfold wake_row. rewrite <- Er. cbn [row_of r_state r_chan]. by rewrite Ew.
  - intros u s' T'. eapply tab_ext; [exact T'| |done|done]. intros i [_ Hi]. cbn [woken_below t_row].
    by rewrite decide_True by (unfold NPROC in *; lia).
Qed.

Lemma tab_updp_wp i f g s t :
  tab s t -> in_table i -> (forall p, row_of (f p) = g (row_of p)) -> wp (updp i f) (fun _ s' => tab s' (upd_row i g t)) s.
Proof. intros T Hi E. apply wp_modify, tab_upd; [done|done|]. by rewrite E, (tab_row _ _ T). Qed.

Lemma sched_me_wp me s t (Q : unit -> kstate -> Prop) :
  tab s t -> in_table me -> r_state (t_row t me) <> RUNNING -> Q () s -> wp (sched_me me) Q s.
Proof.
  intros T Hme Hr HQ. apply wp_bind, wp_gets. unfold sched, is_state. cbn [negb Z.eqb Pos.eqb].
  rewrite bool_decide_false; [by apply wp_skip|]. by rewrite <- (tab_row _ _ T me Hme) in Hr.
Qed.

Lemma sleep_tab me chan s t :
  tab s t -> in_table me ->
  wp (sleep me chan) (fun _ s' => tab s' (upd_row me (fun r => with_state SLEEPING (with_chan chan r)) t)) s.
Proof.
  intros T Hme. unfold sleep. eapply wp_call; [apply (tab_updp_wp _ _ (with_chan chan) _ _ T Hme); reflexivity|].
  cbv beta. intros ? s1 T1. eapply wp_call; [apply (tab_updp_wp _ _ (with_state SLEEPING) _ _ T1 Hme); reflexivity|].
  cbv beta. intros ? s2 T2. eapply sched_me_wp; [exact T2|done| |].
  - cbn. by rewrite decide_True by done.
  - eapply tab_ext; [exact T2| |done|done]. intros j Hj. by rewrite upd_row_twice.
Qed.

Lemma yield_tab me s t :
  tab s t -> in_table me -> wp (yield me) (fun _ s' => tab s' (upd_row me (with_state RUNNABLE) t)) s.
Proof.
  intros T Hme. unfold yield. eapply wp_call; [apply (tab_updp_wp _ _ (with_state RUNNABLE) _ _ T Hme); reflexivity|].
  cbv beta. intros ? s1 T1. eapply sched_me_wp; [exact T1|done| |done]. cbn. by rewrite decide_True by done.
Qed.

(** kkill from process [i] on: the first process with the pid is killed, if
    there is one. *)
Definition kill_post (t : table) (i pid : Z) (r : option Z) s' : Prop :=
  match r with
  | Some v => v = 0 /\ exists k, i <= k < NPROC /\ r_pid (t_row t k) = pid /\
      (forall j, i <= j < k -> r_pid (t_row t j) <> pid) /\ tab s' (upd_row k kill_row t)
  | None => tab s' t /\ forall j, i <= j < NPROC -> r_pid (t_row t j) <> pid
  end.

Lemma kkill_at_tab pid i s t :
  tab s t -> in_table i ->
  wp (kkill_at pid i) (fun r s' =>
    (r = Some 0 /\ r_pid (t_row t i) = pid /\ tab s' (upd_row i kill_row t)) \/
    (r = None /\ r_pid (t_row t i) <> pid /\ tab s' t)) s.
Proof.
  intros T Hin. pose proof (tab_row _ _ T i Hin) as Er. assert (pr_pid (getp s i) = r_pid (t_row t i)) as Ep by (by rewrite <- Er).
  apply wp_bind, wp_gets. destruct (Z.eqb_spec (pr_pid (getp s i)) pid) as [E|N]; [|apply wp_ret; right; by rewrite <- Ep].
  eapply wp_call; [apply (tab_updp_wp _ _ (with_killed 1) _ _ T Hin); reflexivity|]. cbv beta. intros ? s1 T1.
  unfold is_state at 1. case_bool_decide as Es.
  - eapply wp_call; [apply (tab_updp_wp _ _ (with_state RUNNABLE) _ _ T1 Hin); reflexivity|]. cbv beta. intros ? s2 T2. apply wp_ret.
    left. split_and!; [done|by rewrite <- Ep|]. eapply tab_ext; [exact T2| |done|done]. intros j Hj. rewrite upd_row_twice.
    cbn. destruct (decide (j = i)); [|done]. unfold kill_row. rewrite <- Er. cbn [row_of r_state]. by rewrite Es.
  - apply wp_bind, wp_skip, wp_ret. left. split_and!; [done|by rewrite <- Ep|]. eapply tab_ext; [exact T1| |done|done]. intros j Hj.
    cbn. destruct (decide (j = i)); [|done]. unfold kill_row, is_state. rewrite <- Er. cbn [row_of r_state]. by rewrite bool_decide_false.
Qed.

Lemma kkill_loop_tab n i pid s t :
  tab s t -> 0 <= i -> i + Z.of_nat n = NPROC -> wp (for_upto n i (kkill_at pid)) (kill_post t i pid) s.
Proof.
  revert i s. induction n as [|n IH]; intros i s T Hi Hn; cbn [for_upto].
  { apply wp_ret. split; [done|]. intros j Hj. lia. }
  eapply wp_call; [apply kkill_at_tab; [done|unfold in_table; lia]|].
  intros r s' [(-> & E & T')|(-> & N & T')].
  - apply wp_ret. split; [done|]. exists i. split_and!; [lia|lia|done|intros; lia|exact T'].
  - eapply wp_mono; [apply (IH (i + 1) s' T'); lia|]. intros r s''. unfold kill_post. destruct r as [v|].
    + intros (-> & k & Hk & E & Hj & T''). split; [done|]. exists k. split_and!; [lia|lia|done| |done].
      intros j Hj'. destruct (decide (j = i)) as [->|]; [done|]. apply Hj. lia.
    + intros [T'' Hj]. split; [done|]. intros j Hj'. destruct (decide (j = i)) as [->|]; [done|]. apply Hj. lia.
Qed.

Lemma kkill_tab pid s t :
  tab s t ->
  wp (kkill pid) (fun r s' =>
    (r = 0 /\ exists k, in_table k /\ r_pid (t_row t k) = pid /\ (forall j, 0 <= j < k -> r_pid (t_row t j) <> pid) /\ tab s' (upd_row k kill_row t)) \/
    (r = -1 /\ tab s' t /\ forall j, in_table j -> r_pid (t_row t j) <> pid)) s.
Proof.
  intros T. unfold kkill. eapply wp_call; [apply (kkill_loop_tab (Z.to_nat NPROC) 0 pid s t T); unfold NPROC; lia|].
  intros r s' Hr. apply wp_ret. destruct r as [v|]; cbn.
  - left. destruct Hr as (-> & k & Hk). by eauto.
  - right. by destruct Hr.
Qed.
End refine.
