(* ===== verification/ProcLife.v ===== *)
(** * Fork, exit and wait on the abstract process table *)
From S2P Require Import Prelude Mem Riscv Kalloc Vm Paging UserCopy Proc ProcSpec ProcRefine.
From stdpp Require Import base tactics numbers list strings gmap relations.
From Stdlib Require Import ZArith Lia.

Open Scope Z_scope.

Section life.
Context {KL : KernelLayout} {FS : FsOps} {PF : ProcFs} {PL : ProcLayout}.
Implicit Types s : kstate.

(** ** kfork *)

Lemma kfork_tab me s t :
  tab s t -> in_table me -> r_state (t_row t me) = RUNNING -> t_next t < 2 ^ 31 - 1 ->
  wlp (kfork me) (fun r s' => exists t', tab s' t' /\ astep (OFork me r) t t' /\
    (r = -1 \/ r = t_next t /\ exists i, first_unused t i /\ child t' me i /\ r_state (t_row t' i) = RUNNABLE /\ r_pid (t_row t' i) = r /\
      r_killed (t_row t' i) = r_killed (t_row t i))) s.
Proof.
  intros T Hme Hr Hnx. unfold kfork. eapply wlp_call; [by apply allocproc_tab|]. intros [np|] s1 Ha; unfold alloc_post in Ha.
  2:{ wlp_steps. destruct Ha as [[Hn T1]|(i & Hf & T1)]; eexists; (split; [exact T1|]).
      - split; [by constructor|by left].
      - split; [by constructor|by left]. }
  destruct Ha as [Hf T1]. pose proof Hf as (Hnp & _). apply wlp_bind, wlp_proc_of. apply wlp_bind, wlp_proc_of.
  set (p := getp s1 me). set (n := getp s1 np).
  assert (pr_pid n = t_next t) as En.
  { pose proof (tab_row _ _ T1 np Hnp) as E. cbn in E. rewrite decide_True in E by done. by injection E. }
  eapply (tab_seq _ _ _ _ (t_used t np)); [by apply tab_on_mem|]. intros r s2 T2. destruct (r <? 0).
  { eapply wlp_call; [by apply freeproc_used|]. intros ? s3 T3. wlp_steps. eexists. split; [exact T3|]. split; [by constructor|by left]. }
  tab_one (t_used t np). intros ? s3 T3. tab_one (t_used t np). intros ? s4 T4. tab_one (t_used t np). intros ? s5 T5.
  tab_one (t_used t np). intros ? s6 T6. tab_one (t_used t np). intros ? s7 T7. tab_one (t_used t np). intros ? s8 T8.
  eapply (tab_seq _ _ _ _ (t_used t np)).
  { eapply wlp_mono; [apply (wlp_for_z (fun _ s' => tab s' (t_used t np))); [done|]|done].
    intros i s' _ T'. cbv beta zeta. tab_call. }
  intros ? s9 T9. tab_one (t_used t np). intros ? s10 T10. tab_one (t_used t np). intros ? s11 T11. tab_one (t_used t np). intros ? s12 T12.
  row_one T12 Hnp (with_parent (Some me)). intros ? s13 T13. row_one T13 Hnp (with_state RUNNABLE). intros ? s14 T14. wlp_steps.
  rewrite En. pose proof (as_fork t me np Hnx Hme Hr Hf) as Hst.
  match type of Hst with astep _ _ ?t' => exists t'; split; [eapply (tab_ext _ _ t'); [exact T14| |reflexivity|reflexivity]|] end.
  { intros j Hj. unfold t_used. rewrite !upd_row_twice. reflexivity. }
  split; [exact Hst|]. right. split; [done|]. exists np. split; [done|]. unfold child. cbn.
  rewrite decide_True by done. cbn. done.
Qed.

(** ** kexit *)

(** The loop of reparent: the processes below [k] have been looked at. *)
Definition child_below (k me : Z) (t : table) : bool :=
  existsb (fun i => bool_decide (r_parent (t_row t i) = Some me)) (seqZ 0 k).
Definition adopted_below (k me : Z) (t : table) : table :=
  let t' := Table (fun i => if decide (i < k) then adopt me t i else t_row t i) (t_next t) (t_init t) in
  if child_below k me t then a_wakeup (Some me) (proc_chan (t_init t)) t' else t'.

Lemma child_below_S k me t :
  0 <= k -> child_below (k + 1) me t = child_below k me t || bool_decide (r_parent (t_row t k) = Some me).
Proof.
  intros Hk. unfold child_below. rewrite seqZ_app by lia. rewrite existsb_app. change (seqZ (0 + k) 1) with [0 + k].
  cbn [existsb]. by rewrite orb_false_r.
Qed.

Lemma wake_row_idem c r : wake_row c (wake_row c r) = wake_row c r.
Proof.
  unfold wake_row, is_state. destruct (bool_decide (r_state r = SLEEPING) && _) eqn:E; [done|]. by rewrite E.
Qed.
Lemma wake_row_parent c x r : wake_row c (with_parent x r) = with_parent x (wake_row c r).
Proof. unfold wake_row. cbn. by destruct (_ && _). Qed.
Lemma wake_row_same c r : r_parent (wake_row c r) = r_parent r.
Proof. unfold wake_row. by destruct (_ && _). Qed.

Lemma adopted_row k me t i :
  t_row (adopted_below k me t) i =
    let r := if decide (i < k) then adopt me t i else t_row t i in
    if child_below k me t && negb (bool_decide (i = me)) then wake_row (proc_chan (t_init t)) r else r.
Proof.
  unfold adopted_below. destruct (child_below k me t); cbn; [|done]. 
  destruct (bool_decide_reflect (i = me)) as [->|N]; [by rewrite bool_decide_true|]. by rewrite bool_decide_false by congruence.
Qed.

Lemma adopted_next k me t : t_next (adopted_below k me t) = t_next t.
Proof. unfold adopted_below. by destruct (child_below k me t). Qed.
Lemma adopted_init k me t : t_init (adopted_below k me t) = t_init t.
Proof. unfold adopted_below. by destruct (child_below k me t). Qed.

(** One step of the loop on the table. *)
Lemma adopted_parent k me t i : i < k \/ r_parent (t_row (adopted_below k me t) i) = r_parent (t_row t i).
Proof.
  destruct (decide (i < k)); [by left|right]. rewrite adopted_row. rewrite decide_False by done. cbv zeta.
  destruct (_ && _); [apply wake_row_same|done].
Qed.

Lemma adopted_none k me t i :
  0 <= k -> r_parent (t_row t k) <> Some me -> t_row (adopted_below (k + 1) me t) i = t_row (adopted_below k me t) i.
Proof.
  intros Hk N. rewrite !adopted_row, child_below_S by done. rewrite (bool_decide_false (r_parent _ = _)) by done. rewrite orb_false_r.
  assert ((if decide (i < k + 1) then adopt me t i else t_row t i) = (if decide (i < k) then adopt me t i else t_row t i)) as ->; [|done].
  destruct (decide (i < k)); [by rewrite decide_True by lia|]. destruct (decide (i < k + 1)); [|done]. assert (i = k) as -> by lia.
  unfold adopt. by rewrite bool_decide_false.
Qed.

Lemma adopted_some k me t i :
  0 <= k -> r_parent (t_row t k) = Some me ->
  t_row (adopted_below (k + 1) me t) i =
  t_row (a_wakeup (Some me) (proc_chan (t_init t)) (upd_row k (with_parent (t_init t)) (adopted_below k me t))) i.
Proof.
  intros Hk E. rewrite adopted_row, child_below_S by done. rewrite (bool_decide_true (r_parent _ = _)) by done.
  rewrite orb_true_r. cbn [andb]. cbv zeta. cbn [a_wakeup upd_row t_row].
  destruct (bool_decide_reflect (i = me)) as [->|N]; cbn [negb].
  - rewrite (bool_decide_true (Some me = Some me)) by done. destruct (decide (me = k)) as [->|Nk].
    + rewrite decide_True by lia. rewrite adopted_row, decide_False by lia. cbv zeta. rewrite bool_decide_true by done.
      rewrite andb_false_r. unfold adopt. by rewrite bool_decide_true.
    + rewrite adopted_row. rewrite bool_decide_true by done. rewrite andb_false_r. cbv zeta.
      destruct (decide (me < k)); [by rewrite decide_True by lia|by rewrite decide_False by lia].
  - rewrite (bool_decide_false (Some me = Some i)) by congruence. destruct (decide (i = k)) as [->|Nk].
    + rewrite decide_True by lia. rewrite adopted_row, decide_False by lia. cbv zeta. unfold adopt. rewrite bool_decide_true by done.
      destruct (_ && _); rewrite ?wake_row_parent, ?wake_row_idem; done.
    + rewrite adopted_row. cbv zeta. assert ((if decide (i < k + 1) then adopt me t i else t_row t i) = (if decide (i < k) then adopt me t i else t_row t i)) as ->.
      { destruct (decide (i < k)); [by rewrite decide_True by lia|by rewrite decide_False by lia]. }
      rewrite bool_decide_false by done. cbn [negb]. rewrite andb_true_r. destruct (child_below k me t); by rewrite ?wake_row_idem.
Qed.

Lemma reparent_tab me s t : tab s t -> wp (reparent me) (fun _ s' => tab s' (a_reparent me t)) s.
Proof.
  intros T. eapply wp_mono; [apply (wp_for_z (fun k s' => tab s' (adopted_below k me t)))|].
  - eapply tab_ext; [exact T| |done|done]. intros i [Hi _]. rewrite adopted_row. cbn. by rewrite decide_False by lia.
  - intros i s' Hi T'. assert (in_table i) as Hin by (unfold in_table, NPROC in *; lia). apply wp_bind, wp_gets.
    pose proof (tab_row _ _ T' i Hin) as Er. assert (pr_parent (getp s' i) = r_parent (t_row t i)) as Ep.
    { destruct (adopted_parent i me t i) as [|E]; [lia|]. rewrite <- E, <- Er. done. }
    rewrite Ep. case_bool_decide as E.
    + apply wp_bind, wp_gets. rewrite (tab_init _ _ T'), adopted_init.
      eapply wp_call; [apply (tab_updp_wp _ _ (with_parent (t_init t)) _ _ T' Hin); reflexivity|]. cbv beta. intros ? s1 T1.
      eapply wp_mono; [by apply wakeup_tab|]. cbv beta. intros ? s2 T2.
      eapply tab_ext; [exact T2| |cbn; by rewrite !adopted_next|cbn; by rewrite !adopted_init].
      intros j Hj. by rewrite adopted_some by (done || lia).
    + apply wp_skip. eapply tab_ext; [exact T'| |by rewrite !adopted_next|by rewrite !adopted_init].
      intros j Hj. by rewrite adopted_none by (done || lia).
  - cbv beta. intros ? s' T'. eapply tab_ext; [exact T'| | |].
    + intros i [Hi Hi']. unfold adopted_below, a_reparent. change (child_below (0 + Z.of_nat (Z.to_nat NPROC)) me t) with (has_child me t).
      destruct (has_child me t); cbn; by rewrite decide_True by (unfold NPROC in *; lia).
    + rewrite adopted_next. unfold a_reparent. by destruct (has_child me t).
    + rewrite adopted_init. unfold a_reparent. by destruct (has_child me t).
Qed.

Lemma kexit_tab me status s t :
  tab s t -> in_table me -> r_state (t_row t me) = RUNNING ->
  wlp (kexit me status) (fun _ s' => t_init t <> Some me /\ tab s' (a_exit me status t)) s.
Proof.
  intros T Hme Hr. unfold kexit. apply wlp_bind, wlp_gets. rewrite (tab_init _ _ T). case_bool_decide as Ei; [apply wlp_panic|].
  apply wlp_bind, wlp_proc_of. eapply (tab_seq _ _ _ _ t).
  { destruct (negb _); [|by apply wlp_skip]. eapply (tab_seq _ _ _ _ t).
    - apply wlp_zoom, wlp_modify. apply (tab_upd_same _ _ me (set_core (pr_core (getp s me)) (getp s me))) in T as T'; [|done|by destruct (getp s me)].
      destruct T' as [T1 T2 T3 T4]. by constructor.
    - intros ? s1 T1. tab_call. }
  intros ? s1 T1. tab_one t. intros ? s2 T2. eapply (tab_seq _ _ _ _ t).
  { eapply wlp_mono; [apply (wlp_for_z (fun _ s' => tab s' t)); [done|]|done]. intros i s' _ T'. cbv beta. apply wlp_bind, wlp_proc_of. cbv zeta. tab_call. }
  intros ? s3 T3. tab_one t. intros ? s4 T4. tab_one t. intros ? s5 T5. tab_one t. intros ? s6 T6. tab_one t. intros ? s7 T7.
  eapply wlp_call; [apply wp_wlp, reparent_tab, T7|]. cbv beta. intros ? s8 T8. apply wlp_bind, wlp_proc_of.
  assert (pr_parent (getp s8 me) = r_parent (t_row (a_reparent me t) me)) as -> by (by rewrite <- (tab_row _ _ T8 me Hme)).
  eapply wlp_call; [apply wp_wlp, wakeup_tab, T8|]. cbv beta. intros ? s9 T9.
  row_one T9 Hme (fun r => Row (r_state r) (r_chan r) (r_pid r) (r_parent r) (r_killed r) status). intros ? s10 T10.
  row_one T10 Hme (with_state ZOMBIE). intros ? s11 T11. apply wp_wlp. eapply sched_me_wp; [exact T11|done| |].
  - cbn. by rewrite decide_True by done.
  - split; [done|]. eapply tab_ext; [exact T11| |done|done]. intros j Hj. by rewrite upd_row_twice.
Qed.

(** ** kwait *)

Lemma wait_scan_spec l i0 me h :
  match wait_scan l i0 me h with
  | (Some i, _) => i0 <= i < i0 + Z.of_nat (length l) /\ pr_parent (nth (Z.to_nat (i - i0)) l proc_zero) = Some me /\
      pr_state (nth (Z.to_nat (i - i0)) l proc_zero) = ZOMBIE
  | (None, h') =>
      (forall j, i0 <= j < i0 + Z.of_nat (length l) -> pr_parent (nth (Z.to_nat (j - i0)) l proc_zero) = Some me ->
         pr_state (nth (Z.to_nat (j - i0)) l proc_zero) <> ZOMBIE) /\
      (h' = true <-> h = true \/ exists j, i0 <= j < i0 + Z.of_nat (length l) /\ pr_parent (nth (Z.to_nat (j - i0)) l proc_zero) = Some me)
  end.
Proof.
  revert i0 h. induction l as [|p l IH]; intros i0 h; cbn [wait_scan length].
  { split; [intros; lia|]. split; [by left|]. intros [|(j & Hj & _)]; [done|lia]. }
  assert (forall j, i0 + 1 <= j -> Z.to_nat (j - i0) = S (Z.to_nat (j - (i0 + 1)))) as En by lia.
  assert (forall x : proc, nth (Z.to_nat (i0 - i0)) (p :: l) x = p) as E0 by (intros; by rewrite Z.sub_diag).
  case_bool_decide as Ep.
  - unfold is_state. case_bool_decide as Ez; [rewrite E0; split_and!; [lia|lia|done|done]|].
    specialize (IH (i0 + 1) true). destruct (wait_scan l (i0 + 1) me true) as [[i|] h'].
    + destruct IH as (H1 & H2 & H3). rewrite En by lia. split_and!; [lia|lia|done|done].
    + destruct IH as [H1 H2]. split.
      * intros j Hj. destruct (decide (j = i0)) as [->|]; [by rewrite E0|]. rewrite En by lia. apply H1. lia.
      * split; [|intros _; apply H2; by left]. intros _. right. exists i0. rewrite E0. split; [lia|done].
  - specialize (IH (i0 + 1) h). destruct (wait_scan l (i0 + 1) me h) as [[i|] h'].
    + destruct IH as (H1 & H2 & H3). rewrite En by lia. split_and!; [lia|lia|done|done].
    + destruct IH as [H1 H2]. split.
      * intros j Hj. destruct (decide (j = i0)) as [->|]; [by rewrite E0|]. rewrite En by lia. apply H1. lia.
      * rewrite H2. split; (intros [H|(j & Hj & E)]; [by left|right; exists j]).
        -- rewrite En by lia. split; [lia|done].
        -- destruct (decide (j = i0)) as [->|]; [by rewrite E0 in E|]. rewrite En in E by lia. split; [lia|done].
Qed.

Lemma wait_scan_tab s t me :
  tab s t ->
  match wait_scan (k_proc s) 0 me false with
  | (Some i, _) => child t me i /\ r_state (t_row t i) = ZOMBIE
  | (None, h) => (forall i, child t me i -> r_state (t_row t i) <> ZOMBIE) /\ (h = true <-> exists i, child t me i)
  end.
Proof.
  intros [T1 T2 _ _]. pose proof (wait_scan_spec (k_proc s) 0 me false) as H. rewrite T1 in H. unfold child, in_table, NPROC in *.
  assert (forall j, 0 <= j < 64 -> r_state (t_row t j) = pr_state (nth (Z.to_nat (j - 0)) (k_proc s) proc_zero) /\
    r_parent (t_row t j) = pr_parent (nth (Z.to_nat (j - 0)) (k_proc s) proc_zero)) as E.
  { intros j Hj. rewrite <- T2 by done. unfold getp. by rewrite Z.sub_0_r. }
  destruct (wait_scan _ 0 me false) as [[i|] h].
  - destruct H as (H1 & H2 & H3). destruct (E i ltac:(lia)) as [-> ->]. split_and!; [lia|lia|done|done].
  - destruct H as [H1 H2]. split.
    + intros i [Hi Hp]. destruct (E i Hi) as [-> E2]. apply H1; [lia|by rewrite <- E2].
    + rewrite H2. split.
      * intros [|(j & Hj & Hp)]; [done|]. exists j. destruct (E j ltac:(lia)) as [_ ->]. split; [lia|done].
      * intros (j & Hj & Hp). right. exists j. destruct (E j Hj) as [_ E2]. rewrite <- E2. split; [lia|done].
Qed.

(** What a round of kwait does: reap a zombie child and return its pid, fail,
    or go to sleep. *)
Lemma kwait_tab me addr s t :
  tab s t -> in_table me -> r_state (t_row t me) = RUNNING ->
  wlp (kwait me addr) (fun r s' => exists t', tab s' t' /\ astep (OWait me addr r) t t') s.
Proof.
  intros T Hme Hr. unfold kwait. apply wlp_bind, wlp_gets. pose proof (wait_scan_tab s t me T) as Hw.
  destruct (wait_scan (k_proc s) 0 me false) as [[pp|] h].
  - destruct Hw as [Hc Hz]. pose proof Hc as [Hpp _]. apply wlp_bind, wlp_proc_of.
    assert (pr_pid (getp s pp) = r_pid (t_row t pp)) as Ep by (by rewrite <- (tab_row _ _ T pp Hpp)).
    assert (pp <> me) as Hne by (intros ->; congruence).
    eapply (wlp_call _ _ (fun r s' => exists k, may_kill t me k /\ (addr = 0 -> k = r_killed (t_row t me) /\ r = 0) /\ tab s' (upd_row me (with_killed k) t))).
    { destruct (Z.eqb_spec addr 0) as [Ea|Na]; cbn [negb].
      - apply wlp_ret. exists (r_killed (t_row t me)). split; [by left|]. split; [done|]. eapply tab_ext; [exact T| |done|done].
        intros j Hj. cbn. destruct (decide (j = me)) as [->|]; [|done]. by destruct (t_row t me).
      - eapply (tab_seq _ _ _ _ t); [by apply tab_on_mem|]. intros ? s1 T1. apply wlp_bind, wlp_proc_of.
        eapply wlp_mono; [by apply (tab_in_proc _ me _ t); [apply keeps_copyout| |]|]. intros r s2 (k & Hk & T2). by exists k. }
    intros r s1 (k & Hk & Ha & T1). destruct (Z.ltb_spec r 0).
    { wlp_steps. eexists. split; [exact T1|]. apply (as_wait_copy t me addr pp k); try done. intros E0. destruct (Ha E0). lia. }
    eapply wlp_call; [by apply freeproc_tab|]. cbv beta. intros ? s2 T2. wlp_steps. eexists. split; [exact T2|].
    rewrite Ep. apply (as_reap t me addr pp k); try done. intros E0. by destruct (Ha E0).
  - destruct Hw as [Hnz Hh]. apply wlp_bind. unfold killed. apply wlp_bind, wlp_proc_of, wlp_ret.
    assert (pr_killed (getp s me) = r_killed (t_row t me)) as -> by (by rewrite <- (tab_row _ _ T me Hme)).
    destruct (negb h || _) eqn:E.
    + wlp_steps. exists t. split; [done|]. apply as_wait_none; [done|done|]. apply orb_true_iff in E as [E|E].
      * left. intros i Hc. apply negb_true_iff in E. assert (h = true) by (apply Hh; by exists i). congruence.
      * right. apply negb_true_iff, Z.eqb_neq in E. done.
    + apply orb_false_iff in E as [E E']. apply negb_false_iff, Hh in E. apply negb_false_iff, Z.eqb_eq in E'.
      eapply wlp_call; [apply wp_wlp, sleep_tab; done|]. cbv beta. intros ? s1 T1. wlp_steps. eexists. split; [exact T1|].
      by apply as_wait.
Qed.

(** ** Boot and the steps of the running system *)

Record boot_table s : Prop := {
  bt_proc : k_proc s = replicate (Z.to_nat NPROC) proc_zero;
  bt_next : k_nextpid s = 1
}.

(** A completed operation of the kernel. *)
Inductive kdo s s' : kop -> Prop :=
  | kt_fork me r : in_table me -> pr_state (getp s me) = RUNNING -> k_nextpid s < 2 ^ 31 - 1 -> kfork me s = Ret r s' -> kdo s s' (OFork me r)
  | kt_exit me status : in_table me -> pr_state (getp s me) = RUNNING -> kexit me status s = Ret () s' -> kdo s s' (OExit me status)
  | kt_wait me addr r : in_table me -> pr_state (getp s me) = RUNNING -> kwait me addr s = Ret r s' -> kdo s s' (OWait me addr r)
  | kt_sleep me chan : in_table me -> pr_state (getp s me) = RUNNING -> sleep me chan s = Ret () s' -> kdo s s' (OSleep me chan)
  | kt_resume me : in_table me -> pr_state (getp s me) = RUNNING -> sleep_resume me s = Ret () s' -> kdo s s' (OResume me)
  | kt_yield me : in_table me -> pr_state (getp s me) = RUNNING -> yield me s = Ret () s' -> kdo s s' (OYield me)
  | kt_run i : in_table i -> pr_state (getp s i) = RUNNABLE -> switch_to i s = Ret () s' -> kdo s s' (ORun i)
  | kt_wakeup me chan : wakeup me chan s = Ret () s' -> kdo s s' (OWakeup me chan)
  | kt_kill pid r : kkill pid s = Ret r s' -> kdo s s' (OKill pid r)
  | kt_fault me va cause r : in_table me -> in_proc me (handle_page_fault va cause) s = Ret r s' -> kdo s s' (OFault me va cause r).
Definition kstep s s' : Prop := exists o, kdo s s' o.

Definition kreachable s : Prop :=
  exists s0 s1, boot_table s0 /\ (procinit;; userinit) s0 = Ret () s1 /\ rtc kstep s1 s.

Lemma tab_state s t i : tab s t -> in_table i -> r_state (t_row t i) = pr_state (getp s i).
Proof. intros T Hi. by rewrite <- (tab_row _ _ T i Hi). Qed.

Lemma kdo_astep s s' o t : tab s t -> kdo s s' o -> exists t', tab s' t' /\ astep o t t'.
Proof.
  intros T [me r Hme Hr Hn E|me st Hme Hr E|me addr r Hme Hr E|me ch Hme Hr E|me Hme Hr E|me Hme Hr E|i Hi Hr E|me ch E|pid r E|me va c r Hme E];
    try rewrite <- (tab_state s t) in Hr by done.
  - rewrite (tab_next _ _ T) in Hn. apply (wlp_ret_inv _ _ _ _ _ (kfork_tab me s t T Hme Hr Hn)) in E as (t' & T' & Hst & _). eauto.
  - apply (wlp_ret_inv _ _ _ _ _ (kexit_tab me st s t T Hme Hr)) in E as [Hi T']. eexists. split; [exact T'|]. by constructor.
  - by apply (wlp_ret_inv _ _ _ _ _ (kwait_tab me addr s t T Hme Hr)) in E.
  - apply (wlp_ret_inv _ _ _ _ _ (wp_wlp _ _ _ (sleep_tab me ch s t T Hme))) in E. eexists. split; [exact E|]. by constructor.
  - apply (wlp_ret_inv _ _ _ _ _ (wp_wlp _ _ _ (tab_updp_wp me (set_chan ch_null) (with_chan ch_null) s t T Hme (fun _ => eq_refl)))) in E.
    eexists. split; [exact E|]. by constructor.
  - apply (wlp_ret_inv _ _ _ _ _ (wp_wlp _ _ _ (yield_tab me s t T Hme))) in E. eexists. split; [exact E|]. by constructor.
  - apply (wlp_ret_inv _ _ _ _ _ (wp_wlp _ _ _ (tab_updp_wp i (set_pstate RUNNING) (with_state RUNNING) s t T Hi (fun _ => eq_refl)))) in E.
    eexists. split; [exact E|]. by constructor.
  - apply (wlp_ret_inv _ _ _ _ _ (wp_wlp _ _ _ (wakeup_tab me ch s t T))) in E. eexists. split; [exact E|]. by constructor.
  - apply (wlp_ret_inv _ _ _ _ _ (wp_wlp _ _ _ (kkill_tab pid s t T))) in E as [(-> & k & Hk & Ep & Hlow & T')|(-> & T' & Hno)];
      eexists; (split; [exact T'|]); by constructor.
  - apply (wlp_ret_inv _ _ _ _ _ (tab_in_proc _ me s t (keeps_handle_page_fault va c) T Hme)) in E as (k & Hk & T').
    eexists. split; [exact T'|]. by constructor.
Qed.

(** *** Boot *)

Definition t_boot (i : option Z) : table := Table (fun _ => row_free) 1 i.

Lemma boot_tab s : boot_table s -> tab s (t_boot (k_init s)).
Proof.
  intros [E1 E2]. constructor; [by rewrite E1, length_replicate| |done|done]. intros i [Hi Hi']. unfold getp. rewrite E1, nth_lookup.
  rewrite lookup_replicate_2 by lia. done.
Qed.

Lemma procinit_tab s i : tab s (t_boot i) -> wlp procinit (fun _ s' => tab s' (t_boot i)) s.
Proof.
  intros T. eapply wlp_mono; [apply (wlp_for_z (fun _ s' => tab s' (t_boot i))); [done|]|done].
  intros j s' Hj T'. assert (in_table j) as Hin by (unfold in_table, NPROC in *; lia).
  eapply wlp_mono; [apply (tab_updp_row _ _ (with_state UNUSED) _ _ T' Hin); reflexivity|]. cbv beta. intros ? s1 T1.
  eapply tab_ext; [exact T1| |done|done]. intros k Hk. cbn. by destruct (decide (k = j)).
Qed.

Lemma userinit_tab s i :
  tab s (t_boot i) -> wlp userinit (fun _ s' => exists t, tab s' t /\ tinv t) s.
Proof.
  intros T. unfold userinit. eapply wlp_call; [by apply allocproc_tab|]. intros [np|] s1 Ha; unfold alloc_post in Ha; apply wlp_bind, wlp_modify; [|done].
  destruct Ha as [(Hnp & _ & Hf) T1]. set (t1 := Table (t_row (t_used (t_boot i) np)) 2 (Some np)).
  assert (tab (set_init (Some np) s1) t1) as T2 by (destruct T1 as [H1 H2 H3 H4]; by constructor).
  tab_one t1. intros ip s2 T3. tab_one t1. intros ? s3 T4.
  eapply wlp_mono; [apply (tab_updp_row _ _ (with_state RUNNABLE) _ _ T4 Hnp); reflexivity|]. cbv beta. intros ? s4 T5.
  eexists. split; [exact T5|]. constructor; cbn; [done|..].
  - intros j Hj. by destruct (decide (j = np)).
  - intros j Hj. destruct (decide (j = np)); [|done]. rewrite decide_True by done. cbn. done.
  - intros j k Hj Hk. destruct (decide (j = np)); [|done]. destruct (decide (k = np)); [|done]. congruence.
  - intros j k Hj. destruct (decide (j = np)); [|done]. rewrite decide_True by done. done.
  - intros j Hj. destruct (decide (j = np)); [|done]. congruence.
  - exists np. rewrite !decide_True by done. done.
Qed.

Lemma kreachable_inv s : kreachable s -> exists t, tab s t /\ tinv t.
Proof.
  intros (s0 & s1 & B & E & R). assert (wlp (procinit;; userinit) (fun _ s' => exists t, tab s' t /\ tinv t) s0) as W.
  { eapply wlp_call; [apply procinit_tab, boot_tab, B|]. intros ? s'. apply userinit_tab. }
  apply (wlp_ret_inv _ _ _ _ _ W) in E. clear B W. induction R as [s|s s' s'' Hst _ IH]; [done|]. apply IH.
  destruct E as (t & T & I). destruct Hst as [o Ho]. destruct (kdo_astep _ _ _ _ T Ho) as (t' & T' & Hs).
  exists t'. split; [done|]. by eapply astep_inv.
Qed.
End life.
