(* ===== verification/Syscall.v ===== *)
(** * System calls on processes and memory (kernel/syscall.c, kernel/sysproc.c)

    The arguments come from the trapframe page of the calling process, the
    result goes to its a0.  A handler answers [None] when the process has gone
    to sleep in the call. *)
From S2P Require Import Prelude Mem Riscv Kalloc Vm Paging UserCopy Proc.
From stdpp Require Import base tactics numbers list strings gmap.
From Stdlib Require Import ZArith Lia.

Open Scope Z_scope.

Definition TF_A7 : Z := 168.
Definition MAX_PAGES_INFO : Z := 128.
Definition PAGE_STAT_SIZE : Z := 20.
Definition MEM_STAT_SIZE : Z := 20 + MAX_PAGES_INFO * PAGE_STAT_SIZE.

Definition SYS_fork : Z := 1.
Definition SYS_exit : Z := 2.
Definition SYS_wait : Z := 3.
Definition SYS_kill : Z := 6.
Definition SYS_getpid : Z := 11.
Definition SYS_sbrk : Z := 12.
Definition SYS_memstat : Z := 22.

(** ** The page list of sys_memstat *)

(** struct page_stat *)
Record page_stat := PageStat { ps_va : Z; ps_state : Z; ps_is_dirty : Z; ps_seq : Z; ps_slot : Z }.
Definition page_stat_of (x : page_info) : page_stat :=
  PageStat (w32 (pi_va x)) (pi_state x) (pi_dirty x) (pi_fifo_seq x) (pi_swap_slot x).

(** The counting loop: the entries written so far (in order) and the numbers
    of resident and swapped pages among them. *)
Fixpoint memstat_loop (l : list page_info) (acc : list page_stat) (resident swapped : Z) : list page_stat * Z * Z :=
  match l with
  | [] => (acc, resident, swapped)
  | x :: l =>
      if negb (Z.of_nat (length acc) <? MAX_PAGES_INFO) then (acc, resident, swapped)
      else if negb (pi_state x =? UNMAPPED) then
        memstat_loop l (acc ++ [page_stat_of x])
          (if pi_state x =? RESIDENT then resident + 1 else resident)
          (if pi_state x =? RESIDENT then swapped else if pi_state x =? SWAPPED then swapped + 1 else swapped)
      else memstat_loop l acc resident swapped
  end.

Section syscall.
Context {KL : KernelLayout} {FS : FsOps} {PF : ProcFs} {PL : ProcLayout}.

(** ** Arguments *)

Definition argraw (me n : Z) : M kstate Z :=
  p ← proc_of me;
  if (0 <=? n) && (n <=? 5) then on_mem (ld64 (pr_trapframe p + TF_A0 + 8 * n)) else panic "argraw".
Definition argint (me n : Z) : M kstate Z := x ← argraw me n; mret (s32 x).
Definition argaddr (me n : Z) : M kstate Z := argraw me n.

(** [ip] is the address of the caller's variable. *)
Definition fetchaddr (me addr ip : Z) : M kstate Z :=
  p ← proc_of me;
  if (pr_sz p <=? addr) || (pr_sz p <? w64 (addr + 8)) then mret (-1)
  else
    r ← in_proc me (copyin (pr_pagetable p) ip addr 8);
    mret (if negb (r =? 0) then -1 else 0).

(** strlen stops within the [max] bytes that copyinstr terminated. *)
Definition fetchstr (me addr buf max : Z) : M kstate Z :=
  p ← proc_of me;
  r ← in_proc me (copyinstr (pr_pagetable p) buf addr max);
  if r <? 0 then mret (-1)
  else
    n ← gets (fun s => strlen (S (Z.to_nat max)) (phys (k_mem s)) buf);
    match n with Some n => mret n | None => nofuel end.
Definition argstr (me n buf max : Z) : M kstate Z := addr ← argaddr me n; fetchstr me addr buf max.

(** ** sysproc.c *)

Definition finish {A} (c : M kstate A) : M kstate (option A) := r ← c; mret (Some r).

Definition sys_exit (me : Z) : M kstate (option Z) := n ← argint me 0; kexit me n;; mret None.
Definition sys_getpid (me : Z) : M kstate (option Z) := p ← proc_of me; mret (Some (pr_pid p)).
Definition sys_fork (me : Z) : M kstate (option Z) := finish (kfork me).
Definition sys_wait (me : Z) : M kstate (option Z) := a ← argaddr me 0; kwait me a.
Definition sys_kill (me : Z) : M kstate (option Z) := pid ← argint me 0; finish (kkill pid).

Definition sys_sbrk (me : Z) : M kstate (option Z) :=
  n ← argint me 0;
  p ← proc_of me;
  let old_sz := pr_sz p in
  if 0 <? n then
    if (w64 (old_sz + n) <? old_sz) || (TRAPFRAME <? w64 (old_sz + n)) then mret (Some (-1))
    else updc me (core_sz (w64 (old_sz + n)));; mret (Some old_sz)
  else if n <? 0 then
    sz ← on_mem (uvmdealloc (pr_pagetable p) old_sz (w64 (old_sz + n)));
    updc me (core_sz sz);; mret (Some old_sz)
  else mret (Some old_sz).

Definition st32 (a v : Z) : M kmem unit := modify (set_phys (fun m => store32 m a (w32 v))).
Definition put_page_stat (a : Z) (x : page_stat) : M kmem unit :=
  st32 a (ps_va x);; st32 (a + 4) (ps_state x);; st32 (a + 8) (ps_is_dirty x);; st32 (a + 12) (ps_seq x);; st32 (a + 16) (ps_slot x).
Fixpoint put_page_stats (a : Z) (l : list page_stat) : M kmem unit :=
  match l with [] => skip | x :: l => put_page_stat a x;; put_page_stats (a + PAGE_STAT_SIZE) l end.

(** struct proc_mem_stat at [info]: pid, num_pages_total, num_resident_pages,
    num_swapped_pages, next_fifo_seq, pages. *)
Definition sys_memstat (me : Z) : M kstate (option Z) :=
  addr ← argaddr me 0;
  info ← on_mem kalloc;
  if info =? 0 then mret (Some (-1))
  else
    on_mem (do_memset info 0 MEM_STAT_SIZE);;
    p ← proc_of me;
    let '(l, resident, swapped) := memstat_loop (take (Z.to_nat MAX_TRACKED_PAGES) (pages (pr_paging p))) [] 0 0 in
    on_mem (st32 info (pr_pid p);; st32 (info + 16) (next_fifo_seq (pr_paging p));;
            put_page_stats (info + 20) l;;
            st32 (info + 8) resident;; st32 (info + 12) swapped;; st32 (info + 4) (Z.of_nat (length l)));;
    result ← in_proc me (copyout (pr_pagetable p) addr info MEM_STAT_SIZE);
    on_mem (kfree info);;
    mret (Some (if result <? 0 then -1 else 0)).

(** One test of sys_pause's loop: [None] when the process sleeps on &ticks. *)
Definition sys_pause (killed : bool) (n ticks0 ticks : Z) : option Z :=
  let n := if n <? 0 then 0 else n in
  if w32 (ticks - ticks0) <? n then if killed then Some (-1) else None else Some 0.
Definition sys_uptime (ticks : Z) : Z := w32 ticks.

(** ** syscall *)

(** The entries of syscalls[] that this file models; [other] gives the rest. *)
Definition syscalls (other : Z -> option (Z -> M kstate (option Z))) (num : Z) : option (Z -> M kstate (option Z)) :=
  if num =? SYS_fork then Some sys_fork
  else if num =? SYS_exit then Some sys_exit
  else if num =? SYS_wait then Some sys_wait
  else if num =? SYS_kill then Some sys_kill
  else if num =? SYS_getpid then Some sys_getpid
  else if num =? SYS_sbrk then Some sys_sbrk
  else if num =? SYS_memstat then Some sys_memstat
  else other num.

Definition NSYSCALLS : Z := 23.

Definition syscall (other : Z -> option (Z -> M kstate (option Z))) (me : Z) : M kstate unit :=
  p ← proc_of me;
  a7 ← on_mem (ld64 (pr_trapframe p + TF_A7));
  let num := s32 a7 in
  match (if (0 <? num) && (num <? NSYSCALLS) then syscalls other num else None) with
  | Some f =>
      r ← f me;
      match r with
      | Some v => p ← proc_of me; on_mem (st64 (pr_trapframe p + TF_A0) (w64 v))
      | None => skip
      end
  | None => on_mem (st64 (pr_trapframe p + TF_A0) (w64 (-1)))
  end.
End syscall.
