(* ===== verification/Exec.v ===== *)
(** * Running a program (kernel/exec.c, kernel/elf.h, sys_exec of kernel/sysfile.c)

    kexec reads the program headers, records the segments for demand loading,
    builds a new page table with a stack, copies the arguments onto it and
    commits to the new image.  The paths that lead to the label [bad] end in
    [exec_bad].  The kernel's local arrays have the addresses of
    [ExecLayout]; an argument vector is the list of its pointers before the
    null pointer. *)
From S2P Require Import Prelude Mem Riscv Kalloc Vm Paging UserCopy Block Proc Syscall.
From stdpp Require Import base tactics numbers list strings gmap.
From Stdlib Require Import ZArith Lia.

Open Scope Z_scope.

Definition MAXARG : Z := 32.
Definition MAXPATH : Z := 128.
Definition USERSTACK : Z := 1.

(** ** ELF headers *)

Definition ELF_MAGIC : Z := 0x464C457F.
Definition ELF_PROG_LOAD : Z := 1.
Definition ELFHDR_SIZE : Z := 64.
Definition PROGHDR_SIZE : Z := 56.

(** The little-endian field of [n] bytes at [off]. *)
Definition field (l : list Z) (off n : Z) : Z := le_value (get_bytes l off n).

(** The fields of struct elfhdr that kexec reads. *)
Record elfhdr := ElfHdr { e_magic : Z; e_entry : Z; e_phoff : Z; e_phnum : Z }.
Definition elfhdr_of (l : list Z) : elfhdr := ElfHdr (field l 0 4) (field l 24 8) (field l 32 8) (field l 56 2).

(** struct proghdr *)
Record proghdr := ProgHdr {
  ph_type : Z; ph_flags : Z; ph_off : Z; ph_vaddr : Z; ph_paddr : Z; ph_filesz : Z; ph_memsz : Z; ph_align : Z
}.
Definition proghdr_of (l : list Z) : proghdr :=
  ProgHdr (field l 0 4) (field l 4 4) (field l 8 8) (field l 16 8) (field l 24 8) (field l 32 8) (field l 40 8) (field l 48 8).

Definition flags2perm (flags : Z) : Z :=
  let perm := if has flags 1 then PTE_X else 0 in
  if has flags 2 then Z.lor perm PTE_W else perm.

(** The segment fields of p->paging. *)
Definition clear_segs (g : paging_info) : paging_info :=
  set_segs 0 0 0 0 (heap_start g) (stack_top g) 0 0 0 0 (exec_ip g) g.
Definition set_text (ph : proghdr) (g : paging_info) : paging_info :=
  set_segs (ph_vaddr ph) (w64 (ph_vaddr ph + ph_memsz ph)) (data_start g) (data_end g) (heap_start g) (stack_top g)
    (ph_off ph) (data_offset g) (ph_filesz ph) (data_filesz g) (exec_ip g) g.
Definition set_data_seg (ph : proghdr) (g : paging_info) : paging_info :=
  set_segs (text_start g) (text_end g) (ph_vaddr ph) (w64 (ph_vaddr ph + ph_memsz ph)) (heap_start g) (stack_top g)
    (text_offset g) (ph_off ph) (text_filesz g) (ph_filesz ph) (exec_ip g) g.
Definition set_heap (sz : Z) (g : paging_info) : paging_info :=
  set_segs (text_start g) (text_end g) (data_start g) (data_end g) sz sz
    (text_offset g) (data_offset g) (text_filesz g) (data_filesz g) (exec_ip g) g.
Definition track_segment (ph : proghdr) (g : paging_info) : paging_info :=
  let perm := flags2perm (ph_flags ph) in
  if has perm PTE_X then set_text ph g else if has perm PTE_W then set_data_seg ph g else g.

(** The program's name: what follows the last slash of the path. *)
Fixpoint last_elem (s last : list Z) : list Z :=
  match s with
  | [] => last
  | c :: s => if c =? 0 then last else if c =? 47 then last_elem s s else last_elem s last
  end.

(** Where the current process's local arrays are: kexec's ustack[MAXARG];
    path[MAXPATH] and uarg of sys_exec. *)
Class ExecLayout := { ustack_addr : Z -> Z; path_addr : Z -> Z; uarg_addr : Z -> Z }.

(** Trapframe offsets. *)
Definition TF_EPC : Z := 24.
Definition TF_SP : Z := 48.
Definition TF_A1 : Z := 120.

Section exec.
Context {KL : KernelLayout} {FS : FsOps} {PF : ProcFs} {PL : ProcLayout} {EL : ExecLayout}.

(** ** The argument vector *)

(** strlen(s); an argument fits in the page sys_exec allocates for it. *)
Definition strlen_arg (a : Z) : M pstate Z :=
  n ← gets (fun s => strlen (S (Z.to_nat PGSIZE)) (phys (ps_km s)) a);
  match n with Some n => mret n | None => nofuel end.

Fixpoint push_strings (argv : list Z) (pagetable ustack stackbase argc sp : Z) : M pstate (option (Z * Z)) :=
  match argv with
  | [] => mret (Some (argc, sp))
  | a :: argv =>
      if MAXARG <=? argc then mret None
      else
        n ← strlen_arg a;
        let sp := w64 (sp - (n + 1)) in
        let sp := w64 (sp - sp mod 16) in
        if sp <? stackbase then mret None
        else
          n ← strlen_arg a;
          r ← copyout pagetable sp a (n + 1);
          if r <? 0 then mret None
          else
            on_km (st64 (ustack + 8 * argc) sp);;
            push_strings argv pagetable ustack stackbase (argc + 1) sp
  end.

(** Strings, then the array of pointers to them; argc and sp, or [None] for
    [goto bad]. *)
Definition push_args (argv : list Z) (pagetable ustack sz : Z) : M pstate (option (Z * Z)) :=
  let stackbase := w64 (sz - USERSTACK * PGSIZE) in
  r ← push_strings argv pagetable ustack stackbase 0 sz;
  match r with
  | None => mret None
  | Some (argc, sp) =>
      on_km (st64 (ustack + 8 * argc) 0);;
      let sp := w64 (sp - (argc + 1) * 8) in
      let sp := w64 (sp - sp mod 16) in
      if sp <? stackbase then mret None
      else
        r ← copyout pagetable sp ustack ((argc + 1) * 8);
        if r <? 0 then mret None else mret (Some (argc, sp))
  end.

(** ** kexec *)

Definition exec_bad (me pagetable sz ip : Z) : M kstate Z :=
  (when negb (pagetable =? 0) do on_mem (proc_freepagetable pagetable sz));;
  (when negb (ip =? 0) do (on_kfs (fs_iunlockput ip);; on_kfs fs_end_op));;
  p ← proc_of me;
  (when negb (exec_ip (pr_paging p) =? 0) do (
     on_kfs fs_begin_op;; on_kfs (fs_iput (exec_ip (pr_paging p)));; on_kfs fs_end_op;;
     updc me (core_paging (set_exec_ip 0))));;
  mret (-1).

(** The loop over program headers; [false] for [goto bad], and [sz]. *)
Fixpoint load_segments (n : nat) (me ip pagetable off sz : Z) : M kstate (bool * Z) :=
  match n with
  | O => mret (true, sz)
  | S n =>
      l ← on_kfs (fs_readi ip (w32 off) PROGHDR_SIZE);
      let next := s32 (off + PROGHDR_SIZE) in
      let ph := proghdr_of l in
      if negb (Z.of_nat (length l) =? PROGHDR_SIZE) then mret (false, sz)
      else if negb (ph_type ph =? ELF_PROG_LOAD) then load_segments n me ip pagetable next sz
      else if ph_memsz ph <? ph_filesz ph then mret (false, sz)
      else if w64 (ph_vaddr ph + ph_memsz ph) <? ph_vaddr ph then mret (false, sz)
      else if negb (ph_vaddr ph mod PGSIZE =? 0) then mret (false, sz)
      else
        updc me (core_paging (track_segment ph));;
        sz1 ← on_mem (uvmalloc_lazy pagetable sz (w64 (ph_vaddr ph + ph_memsz ph)) (flags2perm (ph_flags ph)));
        if sz1 =? 0 then mret (false, sz) else load_segments n me ip pagetable next sz1
  end.

(** From the new swap file on: arguments, and the switch to the new image. *)
Definition exec_commit (me : Z) (path argv : list Z) (pagetable sz oldsz entry : Z) : M kstate Z :=
  r ← in_proc me create_swap_file;
  if r <? 0 then in_proc me (emit ESwapfileError);; exec_bad me pagetable sz 0
  else
    r ← in_proc me (push_args argv pagetable (ustack_addr me) sz);
    match r with
    | None => exec_bad me pagetable sz 0
    | Some (argc, sp) =>
        p ← proc_of me;
        on_mem (st64 (pr_trapframe p + TF_A1) sp);;
        updp me (fun p => set_name (safestrcpy_bytes 16 (pr_name p) (last_elem path path)) p);;
        updc me (fun c => core_sz sz (core_pt pagetable c));;
        on_mem (st64 (pr_trapframe p + TF_EPC) entry);;
        on_mem (st64 (pr_trapframe p + TF_SP) sp);;
        on_mem (proc_freepagetable (pr_pagetable p) oldsz);;
        mret argc
    end.

(** After the segments: the stack with its guard page, the heap, the swap file. *)
Definition exec_stack (me : Z) (path argv : list Z) (pagetable sz entry : Z) : M kstate Z :=
  p ← proc_of me;
  let oldsz := pr_sz p in
  let sz := PGROUNDUP sz in
  sz1 ← on_mem (uvmalloc pagetable sz (w64 (sz + (USERSTACK + 1) * PGSIZE)) PTE_W);
  if sz1 =? 0 then exec_bad me pagetable sz 0
  else
    let sz := sz1 in
    on_mem (uvmclear pagetable (w64 (sz - (USERSTACK + 1) * PGSIZE)));;
    updc me (core_paging (set_heap sz));;
    p ← proc_of me;
    let g := pr_paging p in
    in_proc me (emit (fun pid => EInitLazymap pid (text_start g) (text_end g) (data_start g) (data_end g) sz sz));;
    (when negb (swapfile g =? 0) do (
       on_kfs (fs_fileclose (swapfile g));; updc me (core_paging (set_swapfile 0))));;
    exec_commit me path argv pagetable sz oldsz entry.

Definition kexec (me : Z) (path argv : list Z) : M kstate Z :=
  updc me (core_paging clear_segs);;
  on_kfs fs_begin_op;;
  ip ← on_kfs (fs_namei path);
  if ip =? 0 then on_kfs fs_end_op;; mret (-1)
  else
    on_kfs (fs_ilock ip);;
    l ← on_kfs (fs_readi ip 0 ELFHDR_SIZE);
    let elf := elfhdr_of l in
    if negb (Z.of_nat (length l) =? ELFHDR_SIZE) then exec_bad me 0 0 ip
    else if negb (e_magic elf =? ELF_MAGIC) then exec_bad me 0 0 ip
    else
      p ← proc_of me;
      pagetable ← on_mem (proc_pagetable (pr_trapframe p));
      if pagetable =? 0 then exec_bad me 0 0 ip
      else
        let old_exec_ip := exec_ip (pr_paging p) in
        (when negb (old_exec_ip =? 0) do on_kfs (fs_iput old_exec_ip));;
        on_kfs (fs_idup ip);;
        updc me (core_paging (set_exec_ip ip));;
        r ← load_segments (Z.to_nat (e_phnum elf)) me ip pagetable (s32 (e_phoff elf)) 0;
        let '(ok, sz) := r in
        if negb ok then exec_bad me pagetable sz ip
        else
          on_kfs (fs_iunlockput ip);;
          on_kfs fs_end_op;;
          exec_stack me path argv pagetable sz (e_entry elf).

(** ** sys_exec *)

Fixpoint free_args (argv : list Z) : M kmem unit :=
  match argv with [] => skip | a :: argv => kfree a;; free_args argv end.

(** The loop that fetches the argument strings: the pages allocated so far,
    and whether the null pointer was reached. *)
Fixpoint fetch_args (n : nat) (me uargv i : Z) (argv : list Z) : M kstate (bool * list Z) :=
  match n with
  | O => mret (false, argv)
  | S n =>
      r ← fetchaddr me (w64 (uargv + 8 * i)) (uarg_addr me);
      if r <? 0 then mret (false, argv)
      else
        uarg ← on_mem (ld64 (uarg_addr me));
        if uarg =? 0 then mret (true, argv)
        else
          a ← on_mem kalloc;
          if a =? 0 then mret (false, argv)
          else
            r ← fetchstr me uarg a PGSIZE;
            if r <? 0 then mret (false, argv ++ [a]) else fetch_args n me uargv (i + 1) (argv ++ [a])
  end.

Definition sys_exec (me : Z) : M kstate (option Z) :=
  uargv ← argaddr me 1;
  r ← argstr me 0 (path_addr me) MAXPATH;
  if r <? 0 then mret (Some (-1))
  else
    r ← fetch_args (Z.to_nat MAXARG) me uargv 0 [];
    let '(ok, argv) := r in
    if negb ok then on_mem (free_args argv);; mret (Some (-1))
    else
      path ← gets (fun s => cstr (Z.to_nat MAXPATH) (phys (k_mem s)) (path_addr me));
      ret ← kexec me path argv;
      on_mem (free_args argv);;
      mret (Some ret).
End exec.
