(* ===== verification/Trap.v ===== *)
(** * Traps (kernel/trap.c, forkret of kernel/proc.c)

    The way into the kernel and back: usertrap tells system calls, device
    interrupts and page faults apart, kerneltrap serves interrupts of kernel
    code, forkret starts a new process.  The control and status registers of
    the hart are [hart]; the interrupt controller and the device handlers are
    the interface [Devices].  An operation of a process ends when it returns
    to user space or gives up the CPU. *)
From S2P Require Import Prelude Mem Riscv Kalloc Vm Paging UserCopy Proc Syscall Exec.
From stdpp Require Import base tactics numbers list strings gmap.
From Stdlib Require Import ZArith Lia.

Open Scope Z_scope.

Definition SSTATUS_SPP : Z := Z.shiftl 1 8.
Definition SSTATUS_SPIE : Z := Z.shiftl 1 5.
Definition SSTATUS_SIE : Z := Z.shiftl 1 1.
Definition SCAUSE_EXTERNAL : Z := 0x8000000000000009.
Definition SCAUSE_TIMER : Z := 0x8000000000000005.
Definition UART0_IRQ : Z := 10.
Definition VIRTIO0_IRQ : Z := 1.
Definition MAKE_SATP (pagetable : Z) : Z := Z.lor (Z.shiftl 8 60) (Z.shiftr pagetable 12).

(** Trapframe offsets. *)
Definition TF_KERNEL_SATP : Z := 0.
Definition TF_KERNEL_SP : Z := 8.
Definition TF_KERNEL_TRAP : Z := 16.
Definition TF_KERNEL_HARTID : Z := 32.

(** The registers that trap.c reads and writes. *)
Record hart := Hart {
  r_sstatus : Z; r_stvec : Z; r_sepc : Z; r_scause : Z; r_stval : Z; r_satp : Z; r_tp : Z; r_time : Z; r_stimecmp : Z
}.
Definition w_sstatus x h := Hart x (r_stvec h) (r_sepc h) (r_scause h) (r_stval h) (r_satp h) (r_tp h) (r_time h) (r_stimecmp h).
Definition w_stvec x h := Hart (r_sstatus h) x (r_sepc h) (r_scause h) (r_stval h) (r_satp h) (r_tp h) (r_time h) (r_stimecmp h).
Definition w_sepc x h := Hart (r_sstatus h) (r_stvec h) x (r_scause h) (r_stval h) (r_satp h) (r_tp h) (r_time h) (r_stimecmp h).
Definition w_stimecmp x h := Hart (r_sstatus h) (r_stvec h) (r_sepc h) (r_scause h) (r_stval h) (r_satp h) (r_tp h) (r_time h) x.
Definition intr_on (h : hart) : hart := w_sstatus (Z.lor (r_sstatus h) SSTATUS_SIE) h.
Definition intr_off (h : hart) : hart := w_sstatus (Z.land (r_sstatus h) (Z.lnot SSTATUS_SIE)) h.
Definition intr_get (h : hart) : bool := has (r_sstatus h) SSTATUS_SIE.

(** The PLIC and the handlers of uart.c and virtio_disk.c. *)
Class Devices := {
  dev : Type;
  plic_claim : M dev Z;
  plic_complete : Z -> M dev unit;
  uartintr : M dev unit;
  virtio_disk_intr : M dev unit
}.

(** Addresses of kernel code, of [ticks] and of the string "/init"; the
    offset of uservec in the trampoline page. *)
Class TrapLayout := { kernelvec_addr : Z; usertrap_addr : Z; uservec_off : Z; ticks_addr : Z; init_str_addr : Z }.

(** Lines printed by trap.c. *)
Inductive trap_message :=
  | MUnhandledFault (stval pid : Z)
  | MUnexpectedScause (scause pid sepc stval : Z)
  | MKernelTrap (scause sepc stval : Z)
  | MUnexpectedIrq (irq : Z).

(** How a trap of a process ends. *)
Inductive trap_end :=
  | ToUser (satp : Z)      (* back to user space with this page table *)
  | Yielded                (* on a timer interrupt, the CPU is given up *)
  | Away.                  (* asleep or exited *)

Section trap.
Context {KL : KernelLayout} {FS : FsOps} {PF : ProcFs} {PL : ProcLayout} {EL : ExecLayout} {DV : Devices} {TL : TrapLayout}.

Record tstate := TState {
  t_k : kstate; t_hart : hart; t_dev : dev; t_ticks : Z; t_first : bool; t_msgs : list trap_message
}.
Definition set_k x s := TState x (t_hart s) (t_dev s) (t_ticks s) (t_first s) (t_msgs s).
Definition set_hart x s := TState (t_k s) x (t_dev s) (t_ticks s) (t_first s) (t_msgs s).
Definition set_dev x s := TState (t_k s) (t_hart s) x (t_ticks s) (t_first s) (t_msgs s).
Definition set_ticks x s := TState (t_k s) (t_hart s) (t_dev s) x (t_first s) (t_msgs s).
Definition set_first x s := TState (t_k s) (t_hart s) (t_dev s) (t_ticks s) x (t_msgs s).

Definition on_k {A} (c : M kstate A) : M tstate A := zoom t_k set_k c.
Definition on_dev {A} (c : M dev A) : M tstate A := zoom t_dev set_dev c.
Definition csr {A} (f : hart -> A) : M tstate A := gets (fun s => f (t_hart s)).
Definition set_csr (f : hart -> hart) : M tstate unit := modify (fun s => set_hart (f (t_hart s)) s).
Definition message (x : trap_message) : M tstate unit :=
  modify (fun s => TState (t_k s) (t_hart s) (t_dev s) (t_ticks s) (t_first s) (x :: t_msgs s)).
Definition st_tf (me off v : Z) : M tstate unit := on_k (p ← proc_of me; on_mem (st64 (pr_trapframe p + off) v)).
Definition ld_tf (me off : Z) : M tstate Z := on_k (p ← proc_of me; on_mem (ld64 (pr_trapframe p + off))).
Definition set_killed (me : Z) : M tstate unit := on_k (updc me (core_killed 1)).

Definition trapinithart : M tstate unit := set_csr (w_stvec kernelvec_addr).

(** ** Interrupts *)

(** [me] is myproc(). *)
Definition clockintr (me : option Z) : M tstate unit :=
  cpu ← csr r_tp;
  (when cpu =? 0 do (
     n ← gets t_ticks; modify (set_ticks (w32 (n + 1)));; on_k (wakeup me (ch_addr ticks_addr))));;
  set_csr (fun h => w_stimecmp (w64 (r_time h + 1000000)) h).

Definition devintr (me : option Z) : M tstate Z :=
  scause ← csr r_scause;
  if scause =? SCAUSE_EXTERNAL then
    irq ← on_dev plic_claim;
    (if irq =? UART0_IRQ then on_dev uartintr
     else if irq =? VIRTIO0_IRQ then on_dev virtio_disk_intr
     else when negb (irq =? 0) do message (MUnexpectedIrq irq));;
    (when negb (irq =? 0) do on_dev (plic_complete irq));;
    mret 1
  else if scause =? SCAUSE_TIMER then clockintr me;; mret 2
  else mret 0.

(** ** Returning to user space *)

Definition prepare_return (me : Z) : M tstate unit :=
  set_csr intr_off;;
  set_csr (w_stvec (w64 (TRAMPOLINE + uservec_off)));;
  satp ← csr r_satp;
  st_tf me TF_KERNEL_SATP satp;;
  p ← on_k (proc_of me);
  st_tf me TF_KERNEL_SP (w64 (pr_kstack p + PGSIZE));;
  st_tf me TF_KERNEL_TRAP usertrap_addr;;
  tp ← csr r_tp;
  st_tf me TF_KERNEL_HARTID tp;;
  set_csr (fun h => w_sstatus (Z.lor (Z.land (r_sstatus h) (Z.lnot SSTATUS_SPP)) SSTATUS_SPIE) h);;
  epc ← ld_tf me TF_EPC;
  set_csr (w_sepc epc).

Definition usertrap_return (me : Z) : M tstate trap_end :=
  prepare_return me;;
  p ← on_k (proc_of me);
  mret (ToUser (MAKE_SATP (pr_pagetable p))).

(** [kexit(-1)], from which a process does not come back. *)
Definition trap_exit (me : Z) : M tstate trap_end := on_k (kexit me (-1));; mret Away.

(** ** usertrap *)

(** The page faults and other exceptions of user code. *)
Definition user_exception (me : Z) : M tstate unit :=
  scause ← csr r_scause;
  stval ← csr r_stval;
  p ← on_k (proc_of me);
  if (scause =? 12) || (scause =? 13) || (scause =? 15) then
    r ← on_k (in_proc me (handle_page_fault stval scause));
    if r =? 0 then skip
    else message (MUnhandledFault stval (pr_pid p));; set_killed me
  else
    sepc ← csr r_sepc;
    message (MUnexpectedScause scause (pr_pid p) sepc stval);; set_killed me.

(** What follows the three cases, for the device number [which_dev], up to the
    switch in yield; [usertrap_run] goes on from there. *)
Definition usertrap_end (me which_dev : Z) : M tstate trap_end :=
  k ← on_k (killed me);
  if negb (k =? 0) then trap_exit me
  else if which_dev =? 2 then on_k (yield me);; mret Yielded
  else usertrap_return me.

(** [other] are the system calls of sysfile.c. *)
Definition usertrap (other : Z -> option (Z -> M kstate (option Z))) (me : Z) : M tstate trap_end :=
  sstatus ← csr r_sstatus;
  if has sstatus SSTATUS_SPP then panic "usertrap: not from user mode"
  else
    set_csr (w_stvec kernelvec_addr);;
    sepc ← csr r_sepc;
    st_tf me TF_EPC sepc;;
    scause ← csr r_scause;
    if scause =? 8 then
      k ← on_k (killed me);
      if negb (k =? 0) then trap_exit me
      else
        epc ← ld_tf me TF_EPC;
        st_tf me TF_EPC (w64 (epc + 4));;
        set_csr intr_on;;
        on_k (syscall other me);;
        p ← on_k (proc_of me);
        if is_state (pr_state p) RUNNING then usertrap_end me 0 else mret Away
    else
      which_dev ← devintr (Some me);
      (if which_dev =? 0 then user_exception me else skip);;
      usertrap_end me which_dev.

(** usertrap to its end.  [others] is what happens between the switch in yield
    and the scheduler's switch back to the process, perhaps on another hart;
    then yield returns and usertrap goes on with prepare_return, without
    another look at the killed flag. *)
Definition usertrap_run (other : Z -> option (Z -> M kstate (option Z))) (others : M tstate unit) (me : Z) : M tstate trap_end :=
  r ← usertrap other me;
  match r with
  | Yielded => others;; usertrap_return me
  | _ => mret r
  end.

(** ** kerneltrap *)

(** [true] when the interrupted process [me] has given up the CPU, in which
    case [kerneltrap_return] follows when it runs again. *)
Definition kerneltrap_return (sepc sstatus : Z) : M tstate unit := set_csr (w_sepc sepc);; set_csr (w_sstatus sstatus).
Definition kerneltrap (me : option Z) : M tstate bool :=
  sepc ← csr r_sepc;
  sstatus ← csr r_sstatus;
  scause ← csr r_scause;
  i ← csr intr_get;
  if negb (has sstatus SSTATUS_SPP) then panic "kerneltrap: not from supervisor mode"
  else if i : bool then panic "kerneltrap: interrupts enabled"
  else
    which_dev ← devintr me;
    if which_dev =? 0 then
      sepc ← csr r_sepc; stval ← csr r_stval;
      message (MKernelTrap scause sepc stval);; panic "kerneltrap"
    else
      match me with
      | Some i => if which_dev =? 2 then on_k (yield i);; mret true else kerneltrap_return sepc sstatus;; mret false
      | None => kerneltrap_return sepc sstatus;; mret false
      end.

(** ** forkret *)

Definition init_path : list Z := [47; 105; 110; 105; 116].

(** [fsinit] is fs.c's. *)
Definition forkret (fsinit : M fs unit) (me : Z) : M tstate trap_end :=
  first ← gets t_first;
  (when (first : bool) do (
     on_k (on_kfs fsinit);;
     modify (set_first false);;
     argc ← on_k (kexec me init_path [init_str_addr]);
     st_tf me TF_A0 (w64 argc);;
     a0 ← ld_tf me TF_A0;
     when a0 =? w64 (-1) do panic "exec"));;
  usertrap_return me.
End trap.
