(* ===== verification/ExecSpec.v ===== *)
(** * The initial user stack

    What push_args (exec.c) leaves on the new stack: the argument strings, each
    at an address that is a multiple of 16, below them the null-terminated
    array of their addresses, and nothing else changed but the kernel's own
    array. *)
From S2P Require Import Prelude Mem Riscv Kalloc Vm PageTable VmSpec AddrSpace UvmSpec Paging SwapSpec PagingInv SwapOut PagingSpec UserCopy CopyTheorems Proc Syscall Exec.
From stdpp Require Import base tactics numbers list strings gmap.
From Stdlib Require Import ZArith Lia.

Open Scope Z_scope.

(** ** The layout as a function of the argument strings *)

Definition down16 (x : Z) : Z := x / 16 * 16.

(** Addresses of the strings on a stack whose top is [sp]. *)
Fixpoint arg_ptrs (args : list (list Z)) (sp : Z) : list Z :=
  match args with
  | [] => []
  | s :: args => let sp := down16 (sp - (Z.of_nat (length s) + 1)) in sp :: arg_ptrs args sp
  end.
(** The lowest of them. *)
Fixpoint strings_low (args : list (list Z)) (sp : Z) : Z :=
  match args with [] => sp | s :: args => strings_low args (down16 (sp - (Z.of_nat (length s) + 1))) end.
(** The stack pointer with which the program starts. *)
Definition args_sp (args : list (list Z)) (sp : Z) : Z :=
  down16 (strings_low args sp - 8 * (Z.of_nat (length args) + 1)).

Lemma down16_spec x : down16 x <= x < down16 x + 16 /\ down16 x mod 16 = 0.
Proof. unfold down16. pose proof (Z.div_mod x 16). pose proof (Z.mod_pos_bound x 16). split; [lia|apply Z_mod_mult]. Qed.

Lemma sub_mod16 x : x - x mod 16 = down16 x.
Proof. unfold down16. pose proof (Z.div_mod x 16). lia. Qed.

Lemma strings_low_le args sp : strings_low args sp <= sp.
Proof.
  revert sp. induction args as [|s args IH]; intros sp; cbn [strings_low]; [done|].
  specialize (IH (down16 (sp - (Z.of_nat (length s) + 1)))). pose proof (down16_spec (sp - (Z.of_nat (length s) + 1))). lia.
Qed.

Lemma arg_ptrs_length args sp : length (arg_ptrs args sp) = length args.
Proof. revert sp. induction args as [|s args IH]; intros sp; cbn [arg_ptrs length]; by f_equal. Qed.

(** Each string fits between its address and the one of its predecessor. *)
Lemma arg_ptrs_bound args sp i p s :
  arg_ptrs args sp !! i = Some p -> args !! i = Some s ->
  strings_low args sp <= p /\ p + Z.of_nat (length s) + 1 <= sp /\ p mod 16 = 0.
Proof.
  revert sp i. induction args as [|s0 args IH]; intros sp i; cbn [arg_ptrs strings_low]; [done|].
  pose proof (down16_spec (sp - (Z.of_nat (length s0) + 1))) as [H1 H2].
  destruct i as [|i]; cbn.
  - intros [= <-] [= <-]. pose proof (strings_low_le args (down16 (sp - (Z.of_nat (length s0) + 1)))). split_and!; lia.
  - intros Hp Hs. destruct (IH _ _ Hp Hs) as (H3 & H4 & H5). split_and!; lia.
Qed.

Section exec.
Context {KL : KernelLayout} {PE : Panics} {FS : FsOps} {FL : FsLaws FS}.
Implicit Types m : gmap Z Z.

(** A NUL-terminated string at a kernel address. *)
Definition string_at m (a : Z) (s : list Z) : Prop :=
  (forall j x, s !! j = Some x -> mget m (a + Z.of_nat j) = x /\ x <> 0) /\ mget m (a + Z.of_nat (length s)) = 0.

(** The same at a user address. *)
Definition ustring_at (F : gmap Z Z) m (va : Z) (s : list Z) : Prop :=
  (forall j x, s !! j = Some x -> mget m (uaddr F (va + Z.of_nat j)) = x) /\ mget m (uaddr F (va + Z.of_nat (length s))) = 0.

Lemma strlen_string m a s :
  string_at m a s -> Z.of_nat (length s) <= PGSIZE -> strlen (S (Z.to_nat PGSIZE)) m a = Some (Z.of_nat (length s)).
Proof.
  intros [H0 H1] Hl.
  assert (forall i, 0 <= i < Z.of_nat (length s) -> mget m (a + i) <> 0) as Hne.
  { intros i Hi. destruct (lookup_lt_is_Some_2 s (Z.to_nat i)) as [x Hx]; [lia|]. destruct (H0 _ _ Hx) as [E N].
    rewrite Z2Nat.id in E by lia. congruence. }
  destruct (strlen_loop_spec (S (Z.to_nat PGSIZE)) m a 0) as (k & E & Hk & E0 & Hn).
  { exists (Z.of_nat (length s)). split_and!; [lia|lia|done|]. intros i Hi. by apply Hne. }
  Transparent strlen. unfold strlen. Opaque strlen. rewrite E. f_equal.
  destruct (decide (k < Z.of_nat (length s))); [exfalso; apply (Hne k); [lia|done]|].
  destruct (decide (Z.of_nat (length s) < k)); [exfalso; apply (Hn (Z.of_nat (length s))); [lia|done]|lia].
Qed.

(** What is left unchanged from [m] to [m']: all but the user addresses
    [lo .. hi - 1] and the kernel addresses [klo .. khi - 1]. *)
Definition kept_but (F : gmap Z Z) m m' (lo hi klo khi : Z) : Prop :=
  forall x, (forall va, lo <= va < hi -> x <> uaddr F va) -> ~ (klo <= x < khi) -> mget m' x = mget m x.

Lemma kbuffer_uaddr k root N l F a len x va :
  as_inv k root N l F -> kbuffer N l F a len -> a <= x < a + len -> is_Some (F !! vpn va) -> x <> uaddr F va.
Proof.
  intros A (_ & _ & H) Hx Hv ->. destruct (H _ Hx) as [_ Hn]. apply Hn. right. exists (vpn va).
  by apply (uaddr_page _ _ _ _ _ _ A).
Qed.

(** The kernel's copies of the arguments: buffers apart from the array [ustack]. *)
Definition args_at (N : nodemap) (l : list Z) (F : gmap Z Z) m (ustack : Z) (argv : list Z) (args : list (list Z)) : Prop :=
  Forall2 (fun a s => string_at m a s /\ Z.of_nat (length s) < PGSIZE /\ kbuffer N l F a (Z.of_nat (length s) + 1) /\
    (a + Z.of_nat (length s) + 1 <= ustack \/ ustack + 8 * MAXARG <= a)) argv args.

Lemma args_at_kept k root N l F m' ustack argv args lo hi klo khi :
  as_inv k root N l F -> (forall va, lo <= va < hi -> is_Some (F !! vpn va)) ->
  ustack <= klo -> khi <= ustack + 8 * MAXARG -> kept_but F (phys k) m' lo hi klo khi ->
  args_at N l F (phys k) ustack argv args -> args_at N l F m' ustack argv args.
Proof.
  intros A Hm Hl Hh K H. eapply Forall2_impl; [exact H|]. cbv beta. intros a s ((H0 & H1) & H2 & H3 & H4). split_and!; [|done..].
  assert (forall j, 0 <= j <= Z.of_nat (length s) -> mget m' (a + j) = mget (phys k) (a + j)) as E.
  { intros j Hj. apply K; [|lia]. intros va Hva. eapply kbuffer_uaddr; [exact A|exact H3|lia|by apply Hm]. }
  split.
  - intros j x Hx. rewrite E; [by apply H0|]. apply lookup_lt_Some in Hx. lia.
  - rewrite E by lia. done.
Qed.

(** One iteration of the loop, once the string fits. *)
Lemma push_string_wp (s : pstate) root N l F ustack argc sp a str :
  as_inv (ps_km s) root N l F -> 0 <= sp -> sp + Z.of_nat (length str) + 1 < 2 ^ 63 ->
  accessible (ps_km s) N F PTE_W sp (Z.of_nat (length str) + 1) ->
  kbuffer N l F ustack (8 * MAXARG) -> 0 <= argc < MAXARG -> args_at N l F (phys (ps_km s)) ustack [a] [str] ->
  wp (copyout root sp a (Z.of_nat (length str) + 1))
    (fun r s' => r = 0 /\ exists m1 m, s' = with_phys s m1 /\ m = store64 m1 (ustack + 8 * argc) sp /\
      as_inv (set_phys (fun _ => m) (ps_km s)) root N l F /\ (forall v, leaf_pte m N v = leaf_pte (phys (ps_km s)) N v) /\
      ustring_at F m sp str /\ load64 m (ustack + 8 * argc) = sp /\
      kept_but F (phys (ps_km s)) m sp (sp + Z.of_nat (length str) + 1) (ustack + 8 * argc) (ustack + 8 * (argc + 1))) s.
Proof.
  intros A Hsp Hmax Hacc Hus Hargc Harg. apply Forall2_cons in Harg as [((H0 & H1) & H2 & H3 & H4) _].
  eapply wp_mono; [apply (copyout_loop_wp _ s root N l F); [done|done|lia|lia|done|done|apply copy_fuel; lia]|].
  cbv beta. intros r s1 (-> & m1 & -> & [S1 K1]).
  assert (forall i, 0 <= i < Z.of_nat (length str) + 1 -> is_Some (F !! vpn (sp + i))) as Hsome by (intros i Hi; by apply Hacc).
  assert (frame (fun p => exists v, F !! v = Some p) (phys (ps_km s)) m1) as HF.
  { intros x Hx. apply K1. intros i Hi ->. apply Hx. exists (vpn (sp + i)). apply (uaddr_page _ _ _ _ _ _ A), Hsome, Hi. }
  destruct (as_inv_frames (ps_km s) _ N l F m1 A HF) as [A1 HL1].
  split; [done|]. exists m1, (store64 m1 (ustack + 8 * argc) sp). split; [done|]. split; [done|].
  assert (forall x, ~ (ustack + 8 * argc <= x < ustack + 8 * argc + 8) -> mget (store64 m1 (ustack + 8 * argc) sp) x = mget m1 x) as E2.
  { intros x Hx. apply mget_store64_ne. lia. }
  assert (frame (fun p => exists x, ustack + 8 * argc <= x < ustack + 8 * argc + 8 /\ p = page_of x) m1 (store64 m1 (ustack + 8 * argc) sp)) as HF2.
  { intros x Hx. apply E2. intros Hx'. apply Hx. eauto. }
  destruct (as_inv_kbuffer (set_phys (fun _ => m1) (ps_km s)) root N l F _ (store64 m1 (ustack + 8 * argc) sp) A1 HF2) as [A2 HL2].
  { intros p (x & Hx & ->). apply Hus. unfold MAXARG in *. lia. }
  assert (forall va, is_Some (F !! vpn va) -> ~ (ustack + 8 * argc <= uaddr F va < ustack + 8 * argc + 8)) as Hdis.
  { intros va Hv Hx. apply (kbuffer_uaddr _ _ _ _ _ _ _ (uaddr F va) va A Hus) ; [unfold MAXARG in *; lia|done|done]. }
  split_and!.
  - exact A2.
  - intros v. rewrite <- HL1. apply HL2.
  - split.
    + intros j x Hx. apply lookup_lt_Some in Hx as Hj. rewrite E2 by (apply Hdis, Hsome; lia). rewrite S1 by lia. by apply H0.
    + rewrite E2 by (apply Hdis, Hsome; lia). by rewrite S1 by lia.
  - apply load64_store64_eq. lia.
  - intros x Hx Hk. rewrite E2 by lia. apply K1. intros i Hi. apply Hx. lia.
Qed.

(** The strings and the kernel's array after the loop. *)
Definition pushed (F : gmap Z Z) m m' (ustack argc sp : Z) (args : list (list Z)) : Prop :=
  (forall i str p, args !! i = Some str -> arg_ptrs args sp !! i = Some p ->
     ustring_at F m' p str /\ load64 m' (ustack + 8 * (argc + Z.of_nat i)) = p) /\
  kept_but F m m' (strings_low args sp) sp (ustack + 8 * argc) (ustack + 8 * (argc + Z.of_nat (length args))).

Lemma ustring_ext F m m' p s :
  (forall j, 0 <= j <= Z.of_nat (length s) -> mget m' (uaddr F (p + j)) = mget m (uaddr F (p + j))) ->
  ustring_at F m p s -> ustring_at F m' p s.
Proof.
  intros E [H0 H1]. split; [|rewrite E by lia; done]. intros j x Hx. rewrite E; [by apply H0|]. apply lookup_lt_Some in Hx. lia.
Qed.

(** The first string stays when the loop pushes the others below it. *)
Lemma pushed_cons k root N l F m1 m2 ustack argc sp str args :
  let sp' := down16 (sp - (Z.of_nat (length str) + 1)) in
  as_inv k root N l F -> (forall va, strings_low (str :: args) sp <= va < sp -> is_Some (F !! vpn va)) ->
  kbuffer N l F ustack (8 * MAXARG) -> 0 <= argc -> argc + Z.of_nat (length (str :: args)) <= MAXARG ->
  ustring_at F m1 sp' str -> load64 m1 (ustack + 8 * argc) = sp' ->
  kept_but F (phys k) m1 sp' (sp' + Z.of_nat (length str) + 1) (ustack + 8 * argc) (ustack + 8 * (argc + 1)) ->
  pushed F m1 m2 ustack (argc + 1) sp' args -> pushed F (phys k) m2 ustack argc sp (str :: args).
Proof.
  intros sp' A Hm Hus Hargc Hmax HS HU K1 [HP K2]. cbn [length] in Hmax. rewrite Nat2Z.inj_succ in Hmax.
  pose proof (down16_spec (sp - (Z.of_nat (length str) + 1))) as [Hd _]. fold sp' in Hd.
  pose proof (strings_low_le args sp') as Hlow. cbn [strings_low] in Hm. fold sp' in Hm. split.
  - intros [|i] s p; cbn [lookup list_lookup arg_ptrs]; fold sp'.
    + intros [= <-] [= <-]. split.
      * eapply ustring_ext; [|exact HS]. intros j Hj. apply K2.
        { intros va Hva E. apply (uaddr_inj _ _ _ _ _ _ _ A) in E; [lia|apply Hm; lia|apply Hm; lia]. }
        intros Hk. eapply (kbuffer_uaddr _ _ _ _ _ _ _ _ (sp' + j) A Hus); [|apply Hm; lia|reflexivity]. lia.
      * rewrite Z.add_0_r, <- HU. apply load64_ext. intros x Hx. apply K2; [|lia].
        intros va Hva. eapply kbuffer_uaddr; [exact A|exact Hus| |apply Hm; lia]. lia.
    + intros Hs Hp. destruct (HP i s p Hs Hp) as [H1 H2]. split; [done|].
      replace (argc + Z.of_nat (S i)) with (argc + 1 + Z.of_nat i) by lia. done.
  - intros x Hx Hk. cbn [strings_low length] in Hx, Hk. fold sp' in Hx. rewrite K2, K1; [done| | | |].
    + intros va Hva. apply Hx. lia.
    + lia.
    + intros va Hva. apply Hx. lia.
    + lia.
Qed.

Lemma accessible_leaf k m N F flag va len :
  (forall v, leaf_pte m N v = leaf_pte (phys k) N v) -> accessible k N F flag va len ->
  accessible (set_phys (fun _ => m) k) N F flag va len.
Proof. intros E H i Hi. cbn [set_phys phys]. rewrite E. by apply H. Qed.

Lemma accessible_mapped k N F flag va len x :
  accessible k N F flag va len -> va <= x < va + len -> is_Some (F !! vpn x).
Proof. intros H Hx. replace x with (va + (x - va)) by lia. apply H. lia. Qed.

(** The stack pointer computations of the code, which wraps around. *)
Lemma sp_down x n : 0 <= n -> n <= x < 2 ^ 64 -> w64 (w64 (x - n) - w64 (x - n) mod 16) = down16 (x - n).
Proof.
  intros Hn Hx. rewrite (w64_id (x - n)) by lia. rewrite sub_mod16. pose proof (down16_spec (x - n)).
  apply w64_id. pose proof (Z.div_pos (x - n) 16). unfold down16 in *. lia.
Qed.

Lemma strlen_arg_run (s : pstate) a str :
  string_at (phys (ps_km s)) a str -> Z.of_nat (length str) < PGSIZE -> strlen_arg a s = Ret (Z.of_nat (length str)) s.
Proof.
  intros H Hl. unfold strlen_arg.
  by rewrite (bind_ok (gets _) _ s (Some (Z.of_nat (length str))) s) by (unfold gets; by rewrite (strlen_string _ _ _ H) by lia).
Qed.

Lemma push_strings_wp argv : forall args (s : pstate) root N l F ustack base argc sp,
  as_inv (ps_km s) root N l F -> PGSIZE <= base <= sp -> sp < 2 ^ 62 -> accessible (ps_km s) N F PTE_W base (sp - base) ->
  kbuffer N l F ustack (8 * MAXARG) -> 0 <= argc -> argc + Z.of_nat (length args) <= MAXARG ->
  args_at N l F (phys (ps_km s)) ustack argv args ->
  wp (push_strings argv root ustack base argc sp) (fun r s' => exists m, s' = with_phys s m /\
    as_inv (ps_km s') root N l F /\ (forall v, leaf_pte m N v = leaf_pte (phys (ps_km s)) N v) /\
    ((r = Some (argc + Z.of_nat (length args), strings_low args sp) /\ base <= strings_low args sp /\
      pushed F (phys (ps_km s)) m ustack argc sp args) \/
     (r = None /\ strings_low args sp < base))) s.
Proof.
  induction argv as [|a argv IH]; intros args s root N l F ustack base argc sp A Hb Hsp Hacc Hus Hargc Hmax Hargs;
    inversion Hargs as [|? str ? args' Ha Hargs']; subst; cbn [push_strings]; assert (PGSIZE = 4096) as EPG by done.
  { apply wp_ret. exists (phys (ps_km s)). split; [by destruct s as [[] ? ? ?]|]. split_and!; [by destruct s as [[] ? ? ?]|done|].
    left. cbn [length strings_low]. rewrite Z.add_0_r. split_and!; [done|lia|]. split; [done|]. intros x _ _. done. }
  cbn [length] in Hmax. pose proof Ha as (Hstr & Hlen & _ & _).
  destruct (Z.leb_spec MAXARG argc); [lia|].
  apply wp_bind. eapply wp_intro; [by apply strlen_arg_run|]. cbv zeta.
  rewrite sp_down by (unfold PGSIZE in *; lia). set (sp' := down16 (sp - (Z.of_nat (length str) + 1))) in *.
  pose proof (down16_spec (sp - (Z.of_nat (length str) + 1))) as [Hd _]. fold sp' in Hd.
  pose proof (strings_low_le args' sp') as Hlow. cbn [strings_low]. fold sp'.
  destruct (Z.ltb_spec sp' base) as [Hlt|Hge].
  { apply wp_ret. exists (phys (ps_km s)). split; [by destruct s as [[] ? ? ?]|]. split_and!; [by destruct s as [[] ? ? ?]|done|].
    right. split; [done|lia]. }
  apply wp_bind. eapply wp_intro; [by apply strlen_arg_run|].
  eapply wp_call.
  { apply (push_string_wp s root N l F ustack argc sp' a str); try done; [lia|lia| |by constructor].
    eapply accessible_sub; [exact Hacc|lia|lia]. }
  cbv beta. intros r s1 (-> & m1 & m & -> & Em & A1 & HL & HS & HU & K). cbn [Z.ltb Z.compare].
  apply wp_bind, wp_on_km, wp_st64. lazymatch goal with |- wp _ _ ?t => replace t with (with_phys s m) by (by rewrite Em) end.
  assert (forall va, base <= va < sp -> is_Some (F !! vpn va)) as Hm by (intros va Hva; eapply accessible_mapped; [exact Hacc|lia]).
  eapply wp_mono.
  { apply (IH args' (with_phys s m) root N l F ustack base (argc + 1) sp' A1); try done; [lia|lia| |lia|lia|].
    - eapply accessible_sub; [apply accessible_leaf; [exact HL|exact Hacc]|lia|lia].
    - eapply (args_at_kept (ps_km s)); [exact A| | | |exact K|exact Hargs']; [|lia|lia]. intros va Hva. apply Hm. lia. }
  cbv beta. intros r s2 (m2 & -> & A2 & HL2 & Hr). exists m2. split; [done|]. split; [exact A2|]. split.
  { intros v. rewrite HL2. apply HL. }
  destruct Hr as [(-> & Hbase & HP)|[-> Hbase]]; [left|by right]. cbn [length]. split_and!; [|done|].
  - f_equal. f_equal. lia.
  - eapply (pushed_cons (ps_km s)); [exact A| |exact Hus|done|cbn [length]; lia|exact HS|exact HU|exact K|exact HP].
    intros va Hva. cbn [strings_low] in Hva. fold sp' in Hva. apply Hm. lia.
Qed.

(** An aligned word does not cross a page. *)
Lemma uaddr_word F va j : 0 <= va -> va mod 8 = 0 -> 0 <= j < 8 -> uaddr F (va + j) = uaddr F va + j.
Proof.
  intros H0 H8 Hj. apply (uaddr_chunk F va 8); [done|lia|].
  destruct (chunk_spec va 8 H0 ltac:(lia)) as (H1 & _ & _ & [H2|[_ H2]] & _); [lia|].
  unfold PGSIZE in H2. Z.div_mod_to_equations. lia.
Qed.

Lemma load64_user F m m' va a :
  0 <= va -> va mod 8 = 0 -> (forall j, 0 <= j < 8 -> mget m' (uaddr F (va + j)) = mget m (a + j)) ->
  load64 m' (uaddr F va) = load64 m a.
Proof.
  intros H0 H8 H. Transparent load64. unfold load64. Opaque load64.
  assert (forall n j, 0 <= j -> j + Z.of_nat n <= 8 -> loadn n m' (uaddr F va + j) = loadn n m (a + j)) as E.
  { induction n as [|n IH]; intros j Hj Hn; cbn [loadn]; [done|].
    rewrite <- (uaddr_word F va j) at 1 by lia. rewrite H by lia. rewrite <- !Z.add_assoc, IH by lia. done. }
  specialize (E 8%nat 0 ltac:(lia) ltac:(lia)). by rewrite !Z.add_0_r in E.
Qed.

(** The array of pointers, on the kernel's side, once its last entry is null. *)
Lemma ustack_array k root N l F m1 m2 ustack sp args n :
  as_inv k root N l F -> kbuffer N l F ustack (8 * MAXARG) -> n = Z.of_nat (length args) -> n < MAXARG ->
  (forall va, strings_low args sp <= va < sp -> is_Some (F !! vpn va)) ->
  m2 = store64 m1 (ustack + 8 * n) 0 -> pushed F (phys k) m1 ustack 0 sp args ->
  (forall i str p, args !! i = Some str -> arg_ptrs args sp !! i = Some p ->
     ustring_at F m2 p str /\ load64 m2 (ustack + 8 * Z.of_nat i) = p) /\
  load64 m2 (ustack + 8 * n) = 0 /\
  kept_but F (phys k) m2 (strings_low args sp) sp ustack (ustack + 8 * (n + 1)).
Proof.
  intros A Hus -> Hn Hm -> [HP K]. split_and!.
  - intros i str p Hs Hp. destruct (HP i str p Hs Hp) as [H1 H2]. apply lookup_lt_Some in Hs as Hi. split.
    + eapply ustring_ext; [|exact H1]. intros j Hj. destruct (arg_ptrs_bound args sp i p str Hp Hs) as (B1 & B2 & _).
      apply mget_store64_ne. assert (~ (ustack + 8 * Z.of_nat (length args) <= uaddr F (p + j) < ustack + 8 * Z.of_nat (length args) + 8)); [|lia].
      intros Hx. eapply (kbuffer_uaddr _ _ _ _ _ _ _ _ (p + j) A Hus); [|apply Hm; lia|reflexivity]. unfold MAXARG in *. lia.
    + rewrite load64_store64_ne by lia. rewrite <- H2. f_equal.
  - apply load64_store64_eq. lia.
  - intros x Hx Hk. rewrite mget_store64_ne by lia. apply K; [done|]. lia.
Qed.

(** A store to the kernel's array disturbs neither page table nor free list. *)
Lemma as_inv_store k root N l F a len x v :
  as_inv k root N l F -> kbuffer N l F a len -> a <= x -> x + 8 <= a + len ->
  as_inv (set_phys (fun _ => store64 (phys k) x v) k) root N l F /\
  forall w, leaf_pte (store64 (phys k) x v) N w = leaf_pte (phys k) N w.
Proof.
  intros A (_ & _ & Hb) H1 H2.
  apply (as_inv_kbuffer k root N l F (fun p => exists y, x <= y < x + 8 /\ p = page_of y)); [done| |].
  - intros y Hy. apply mget_store64_ne. destruct (decide (x <= y < x + 8)); [exfalso; apply Hy; eauto|lia].
  - intros p (y & Hy & ->). apply Hb. lia.
Qed.

(** What the program finds on its stack. *)
Definition args_on_stack (F : gmap Z Z) m (sz argc sp : Z) (args : list (list Z)) : Prop :=
  (forall i str, args !! i = Some str -> exists p, load64 m (uaddr F (sp + 8 * Z.of_nat i)) = p /\
     sp + 8 * (argc + 1) <= p /\ p + Z.of_nat (length str) + 1 <= sz /\ ustring_at F m p str) /\
  load64 m (uaddr F (sp + 8 * argc)) = 0.

(** Copying the array completes it. *)
Lemma array_copied k root N l F m2 m3 ustack sz args n :
  as_inv k root N l F -> kbuffer N l F ustack (8 * MAXARG) -> n = Z.of_nat (length args) -> n < MAXARG ->
  0 <= args_sp args sz -> (forall va, args_sp args sz <= va < sz -> is_Some (F !! vpn va)) ->
  (forall i str p, args !! i = Some str -> arg_ptrs args sz !! i = Some p ->
     ustring_at F m2 p str /\ load64 m2 (ustack + 8 * Z.of_nat i) = p) ->
  load64 m2 (ustack + 8 * n) = 0 ->
  stored F m2 m3 (args_sp args sz) ((n + 1) * 8) (fun i => mget m2 (ustack + i)) ->
  args_on_stack F m3 sz n (args_sp args sz) args.
Proof.
  intros A Hus -> Hn H0 Hm HP HZ [S K]. set (sp := args_sp args sz) in *. pose proof (strings_low_le args sz) as Hsl.
  pose proof (down16_spec (strings_low args sz - 8 * (Z.of_nat (length args) + 1))) as [Hd H16].
  change (down16 _) with sp in Hd, H16.
  assert (forall i, 0 <= i <= Z.of_nat (length args) -> load64 m3 (uaddr F (sp + 8 * i)) = load64 m2 (ustack + 8 * i)) as EW.
  { intros i Hi. apply load64_user; [lia| |].
    - Z.div_mod_to_equations. lia.
    - intros j Hj. replace (sp + 8 * i + j) with (sp + (8 * i + j)) by lia. rewrite S by lia. f_equal. lia. }
  split; [|by rewrite EW by lia]. intros i str Hs. apply lookup_lt_Some in Hs as Hi.
  destruct (lookup_lt_is_Some_2 (arg_ptrs args sz) i) as [p Hp]; [by rewrite arg_ptrs_length|].
  destruct (HP i str p Hs Hp) as [H1 H2]. destruct (arg_ptrs_bound args sz i p str Hp Hs) as (B1 & B2 & _).
  exists p. split_and!; [by rewrite EW by lia|lia|lia|].
  eapply ustring_ext; [|exact H1]. intros j Hj. apply K. intros q Hq E.
  apply (uaddr_inj _ _ _ _ _ _ _ A) in E; [lia|apply Hm; lia|apply Hm; lia].
Qed.
End exec.
