(* ===== verification/ExecTheorems.v ===== *)
(** * Properties of exec *)
From S2P Require Import Prelude Mem Riscv Kalloc Vm PageTable VmSpec AddrSpace UvmSpec Paging SwapSpec PagingInv SwapOut PagingSpec Demo UserCopy CopyTheorems Proc ProcSpec ProcRefine Syscall Exec ExecSpec.
From stdpp Require Import base tactics numbers list strings gmap.
From Stdlib Require Import ZArith Lia.

Open Scope Z_scope.

Section exec.
Context {KL : KernelLayout} {FS : FsOps}.

(** C15.  The arguments of exec reach the new program.  With the stack page
    below [sz] mapped and fewer than MAXARG arguments, each shorter than a
    page, push_args ends; it fails exactly when strings and pointers do not
    fit in that page.  When it succeeds, argc is the number of arguments, the
    stack pointer is a multiple of 16 inside the page, the words from it on
    are the addresses of the argument strings followed by a null pointer,
    each string is complete with its NUL between that array and the top of
    the stack, and no memory has changed outside the stack page and the
    kernel's own array. *)
Theorem exec_passes_arguments (s : pstate) root N l F ustack sz argv args :
  as_inv (ps_km s) root N l F -> 2 * PGSIZE <= sz < 2 ^ 62 -> accessible (ps_km s) N F PTE_W (sz - PGSIZE) PGSIZE ->
  kbuffer N l F ustack (8 * MAXARG) -> Z.of_nat (length args) < MAXARG -> args_at N l F (phys (ps_km s)) ustack argv args ->
  wp (push_args argv root ustack sz) (fun r s' => exists m, s' = with_phys s m /\ as_inv (ps_km s') root N l F /\
    (r = None <-> args_sp args sz < sz - PGSIZE) /\
    forall argc sp, r = Some (argc, sp) ->
      argc = Z.of_nat (length args) /\ sp mod 16 = 0 /\ sz - PGSIZE <= sp /\ args_on_stack F m sz argc sp args /\
      kept_but F (phys (ps_km s)) m sp sz ustack (ustack + 8 * (argc + 1))) s.
Proof.
  intros A Hsz Hacc Hus Hn Hargs. assert (PGSIZE = 4096) as EPG by done. assert (MAXARG = 32) as EMA by done. set (n := Z.of_nat (length args)) in *.
  pose proof (down16_spec (strings_low args sz - 8 * (n + 1))) as [Hd H16]. change (down16 _) with (args_sp args sz) in Hd, H16.
  pose proof (strings_low_le args sz) as Hsl.
  assert (forall va, sz - PGSIZE <= va < sz -> is_Some (F !! vpn va)) as Hm.
  { intros va Hva. eapply accessible_mapped; [exact Hacc|lia]. }
  unfold push_args, USERSTACK. rewrite w64_id by lia. cbv zeta. rewrite Z.mul_1_l. eapply wp_call.
  { apply (push_strings_wp argv args s root N l F ustack (sz - PGSIZE) 0 sz); try done; [lia|lia| |fold n; lia].
    by replace (sz - (sz - PGSIZE)) with PGSIZE by lia. }
  cbv beta. intros r s1 (m1 & -> & A1 & HL1 & [(-> & Hlow & HP)|[-> Hlow]]).
  2:{ apply wp_ret. exists m1. split_and!; [done|done| |done]. split; [lia|done]. }
  rewrite Z.add_0_l. fold n. apply wp_bind, wp_on_km, wp_st64. cbv zeta.
  rewrite sp_down by lia. replace ((n + 1) * 8) with (8 * (n + 1)) by lia. change (down16 _) with (args_sp args sz).
  set (m2 := store64 m1 (ustack + 8 * n) 0).
  lazymatch goal with |- wp _ _ ?t => change t with (with_phys s m2) end.
  destruct (as_inv_store (set_phys (fun _ => m1) (ps_km s)) root N l F ustack (8 * MAXARG) (ustack + 8 * n) 0 A1 Hus) as [A2 HL2]; [lia|lia|].
  cbn [set_phys phys] in A2, HL2. fold m2 in A2, HL2.
  destruct (Z.ltb_spec (args_sp args sz) (sz - PGSIZE)) as [Hlt|Hge].
  { apply wp_ret. exists m2. split_and!; [done|exact A2|done|done]. }
  destruct (ustack_array (ps_km s) root N l F m1 m2 ustack sz args n A Hus) as (HP2 & HZ & K2); [done|done| |done|done|].
  { intros va Hva. apply Hm. lia. }
  eapply wp_call.
  { apply (copyout_loop_wp _ (with_phys s m2) root N l F (args_sp args sz) ustack (8 * (n + 1))); [exact A2|lia|lia|lia| | |apply copy_fuel; lia].
    - apply accessible_leaf; [intros v; rewrite HL2; apply HL1|]. eapply accessible_sub; [exact Hacc|lia|lia].
    - destruct Hus as (B0 & B1 & B2). split_and!; [lia|lia|]. intros x Hx. apply B2. lia. }
  cbv beta. intros r s3 (-> & m3 & -> & S3). apply wp_ret. exists m3. cbn [with_phys ps_km set_phys phys] in S3.
  destruct (as_inv_frames (set_phys (fun _ => m2) (ps_km s)) root N l F m3 A2) as [A3 _].
  { intros x Hx. apply S3. intros i Hi ->. apply Hx. exists (vpn (args_sp args sz + i)).
    apply (uaddr_page _ _ _ _ _ _ A), Hm. lia. }
  split_and!; [done|exact A3|split; [done|lia]|]. intros argc sp [= <- <-]. split_and!; [done|done|done| |].
  - eapply (array_copied (ps_km s) root N l F m2 m3 ustack sz args n A Hus); [done|done|lia| |exact HP2|exact HZ|].
    + intros va Hva. apply Hm. lia.
    + by replace ((n + 1) * 8) with (8 * (n + 1)) by lia.
  - intros x Hx Hk. destruct S3 as [_ K3]. rewrite K3, K2; [done| |done|].
    + intros va Hva. apply Hx. lia.
    + intros i Hi. apply Hx. lia.
Qed.
End exec.

(** A kexec that does not find its file returns -1 to a process whose segments
    are gone: a later fault on a page of its text or data that is neither
    resident nor swapped out is an invalid access. *)
Section failed.
Context {KL : KernelLayout} {FS : FsOps} {PF : ProcFs} {PL : ProcLayout} {EL : ExecLayout}.

Theorem failed_exec_loses_segments (s : kstate) me path argv f1 f2 f3 :
  in_table me -> length (k_proc s) = Z.to_nat NPROC ->
  fs_begin_op (k_fs s) = Ret () f1 -> fs_namei path f1 = Ret 0 f2 -> fs_end_op f2 = Ret () f3 ->
  exists s', kexec me path argv s = Ret (-1) s' /\
    pr_core (getp s' me) = core_paging clear_segs (pr_core (getp s me)) /\
    forall va cause, 0 <= va < MAXVA -> in_heap (pr_core (getp s me)) va = false ->
      pi_state (page_at (pr_paging (getp s me)) (vpn va)) <> SWAPPED -> classify (pr_core (getp s' me)) va cause = KInvalid.
Proof.
  intros Hme Hl E1 E2 E3.
  set (s1 := set_kproc (<[Z.to_nat me := set_core (core_paging clear_segs (pr_core (getp s me))) (getp s me)]> (k_proc s)) s).
  exists (set_kfs f3 s1). split_and!.
  - unfold kexec. rewrite (bind_ok (updc me (core_paging clear_segs)) _ s () s1) by done.
    rewrite (bind_ok (on_kfs fs_begin_op) _ s1 () (set_kfs f1 s1)) by (unfold on_kfs, zoom; cbn; by rewrite E1).
    rewrite (bind_ok (on_kfs (fs_namei path)) _ _ 0 (set_kfs f2 s1)) by (unfold on_kfs, zoom; cbn; by rewrite E2). cbn [Z.eqb].
    by rewrite (bind_ok (on_kfs fs_end_op) _ _ () (set_kfs f3 s1)) by (unfold on_kfs, zoom; cbn; by rewrite E3).
  - change (getp (set_kfs f3 s1) me) with (getp s1 me). unfold s1. by rewrite getp_upd, decide_True by done.
  - intros va cause Hva Hh Hs. assert (pr_core (getp (set_kfs f3 s1) me) = core_paging clear_segs (pr_core (getp s me))) as ->.
    { change (getp (set_kfs f3 s1) me) with (getp s1 me). unfold s1. by rewrite getp_upd, decide_True by done. }
    unfold classify. rewrite decide_False by lia. unfold in_text, in_data. cbn [core_paging clear_segs set_segs p_paging text_start text_end data_start data_end].
    destruct (Z.ltb_spec va 0); [lia|]. rewrite !andb_false_r. cbn [andb]. rewrite decide_False by (intros [_ H']; by apply Hs).
    unfold in_heap in *. cbn. by rewrite Hh.
Qed.
End failed.

(** *** exec echo hi *)

Definition echo_bytes : list Z := [101; 99; 104; 111; 0; 104; 105; 0].
Definition exec_mem : gmap Z Z := store_bytes (phys copy_km) KERNBASE echo_bytes.
Definition exec_km : kmem := set_phys (fun _ => exec_mem) copy_km.
Definition exec_ps : pstate := PState exec_km demo_proc demo_file [].
Definition echo_args : list (list Z) := [[101; 99; 104; 111]; [104; 105]].

Lemma exec_km_byte i : 0 <= i < 8 -> mget exec_mem (KERNBASE + i) = nth (Z.to_nat i) echo_bytes 0.
Proof.
  intros Hi. unfold exec_mem. rewrite mget_store_bytes, decide_True by (unfold echo_bytes; cbn [length]; lia).
  replace (KERNBASE + i - KERNBASE) with i by lia.
  assert (i = 0 \/ i = 1 \/ i = 2 \/ i = 3 \/ i = 4 \/ i = 5 \/ i = 6 \/ i = 7) as H by lia.
  by repeat (destruct H as [->|H]; [by vm_compute|]); subst.
Qed.

(** A string that the bytes hold at offset [o]. *)
Lemma exec_km_string o (t : list Z) :
  take (S (length t)) (drop o echo_bytes) = t ++ [0] -> Forall (fun x => x <> 0) t -> string_at exec_mem (KERNBASE + Z.of_nat o) t.
Proof.
  intros E Ht.
  assert (forall j x, (t ++ [0]) !! j = Some x -> mget exec_mem (KERNBASE + Z.of_nat o + Z.of_nat j) = x) as H.
  { intros j x Hj. rewrite <- E, lookup_take_Some, lookup_drop in Hj. destruct Hj as [Hj _]. apply lookup_lt_Some in Hj as Hl.
    rewrite <- Z.add_assoc, exec_km_byte by (unfold echo_bytes in Hl; cbn [length] in Hl; lia).
    replace (Z.to_nat (Z.of_nat o + Z.of_nat j)) with (o + j)%nat by lia. by apply nth_lookup_Some. }
  split.
  - intros j x Hx. split; [apply H; by apply lookup_app_l_Some|]. rewrite Forall_forall in Ht. apply Ht. by eapply list_elem_of_lookup_2.
  - apply H. by rewrite lookup_app_r, Nat.sub_diag by lia.
Qed.

Lemma exec_demo : exists N l F, as_inv exec_km pt1 N l F /\ accessible exec_km N F PTE_W PGSIZE PGSIZE /\
  kbuffer N l F (KERNBASE + 64) (8 * MAXARG) /\
  args_at N l F exec_mem (KERNBASE + 64) [KERNBASE; KERNBASE + 5] echo_args.
Proof.
  destruct copy_demo as (N & l & F & A & Hacc). exists N, l, F.
  assert (forall a len, 0 <= a -> 0 <= len -> a + len <= kend -> kbuffer N l F a len) as KB.
  { intros a len. by apply (kernel_data_buffer copy_km pt1). }
  destruct (KB KERNBASE 8 ltac:(by vm_compute) ltac:(lia) ltac:(by vm_compute)) as (_ & _ & HB).
  destruct (as_inv_kbuffer copy_km pt1 N l F (fun p => exists x, KERNBASE <= x < KERNBASE + 8 /\ p = page_of x) exec_mem A) as [A' HL].
  { intros x Hx. unfold exec_mem. rewrite mget_store_bytes, decide_False; [done|].
    intros Hr. apply Hx. exists x. split; [exact Hr|done]. }
  { intros p (x & Hx & ->). by apply HB. }
  split_and!; [exact A'| | |].
  - eapply accessible_sub; [apply (accessible_leaf copy_km exec_mem); [exact HL|apply Hacc; by right]|done|done].
  - by apply KB.
  - constructor; [|constructor; [|constructor]].
    + split_and!; [apply (exec_km_string 0); [done|by repeat constructor]|done|by apply KB|left; by vm_compute].
    + split_and!; [apply (exec_km_string 5); [done|by repeat constructor]|done|by apply KB|left; by vm_compute].
Qed.

Lemma exec_passes_arguments_witness : exists F,
  wp (push_args [KERNBASE; KERNBASE + 5] pt1 (KERNBASE + 64) (2 * PGSIZE)) (fun r s' => exists sp, r = Some (2, sp) /\
    args_on_stack F (phys (ps_km s')) (2 * PGSIZE) 2 sp echo_args) exec_ps.
Proof.
  destruct exec_demo as (N & l & F & A & Hacc & Hus & Hargs). exists F.
  eapply wp_mono.
  { apply (exec_passes_arguments exec_ps pt1 N l F (KERNBASE + 64) (2 * PGSIZE) [KERNBASE; KERNBASE + 5] echo_args);
      [exact A|by vm_compute|exact Hacc|exact Hus|done|exact Hargs]. }
  cbv beta. intros r s' (m & -> & _ & Hnone & Hsome). destruct r as [[argc sp]|].
  - destruct (Hsome argc sp eq_refl) as (-> & _ & _ & Ha & _). exists sp. split; [done|exact Ha].
  - exfalso. destruct Hnone as [Hn _]. specialize (Hn eq_refl). revert Hn. by vm_compute.
Defined.
