(* ===== verification/ProcTheorems.v ===== *)
(** * Properties of processes and their system calls *)
From S2P Require Import Prelude Mem Riscv Kalloc Vm Paging Demo UserCopy Proc ProcSpec ProcRefine ProcLife Syscall.
From stdpp Require Import base tactics numbers list strings gmap relations.
From Stdlib Require Import ZArith Lia Sorted.

Open Scope Z_scope.

Section proc.
Context {KL : KernelLayout} {FS : FsOps} {PF : ProcFs} {PL : ProcLayout}.
Implicit Types s : kstate.

(** C34.  The process table implements an abstract state machine whose
    transitions are labelled with the operation, its arguments and its
    result: whatever the allocators, page tables and file layer do meanwhile,
    a completed kfork, kexit, round of kwait, sleep or its end, yield,
    dispatch by the scheduler, wakeup, kkill or page fault changes states,
    channels, pids, parents, killed flags and exit statuses exactly as the
    transition [astep] of this operation with this result says.  Sleep, its end, yield,
    dispatch, wakeup and kkill always complete. *)
Theorem process_table_refinement s t :
  tab s t ->
  (forall s' o, kdo s s' o -> exists t', tab s' t' /\ astep o t t') /\
  (forall me chan, in_table me -> pr_state (getp s me) = RUNNING ->
     (exists s', kdo s s' (OSleep me chan)) /\ (exists s', kdo s s' (OResume me)) /\ (exists s', kdo s s' (OYield me))) /\
  (forall i, in_table i -> pr_state (getp s i) = RUNNABLE -> exists s', kdo s s' (ORun i)) /\
  (forall me chan, exists s', kdo s s' (OWakeup me chan)) /\
  (forall pid, exists r s', kdo s s' (OKill pid r)).
Proof.
  intros T. split_and!.
  - intros s' o. by apply kdo_astep.
  - intros me chan Hme Hr. split_and!.
    + destruct (wp_inv _ _ _ (sleep_tab me chan s t T Hme)) as ([] & s' & E & _). exists s'. by apply kt_sleep.
    + eexists. by apply kt_resume.
    + destruct (wp_inv _ _ _ (yield_tab me s t T Hme)) as ([] & s' & E & _). exists s'. by apply kt_yield.
  - intros i Hi Hr. eexists. by apply kt_run.
  - intros me chan. destruct (wp_inv _ _ _ (wakeup_tab me chan s t T)) as ([] & s' & E & _). exists s'. by apply kt_wakeup.
  - intros pid. destruct (wp_inv _ _ _ (kkill_tab pid s t T)) as (r & s' & E & _). exists r, s'. by apply kt_kill.
Qed.

(** C35.  In every state reached after boot: processes in use have distinct
    positive pids; init exists and is neither unused nor a zombie; every other
    process in use has a parent that is neither, so that somebody can always
    wait for it; and a parent pointer never leads to a freed slot. *)
Theorem process_tree_invariant s :
  kreachable s ->
  (forall i j, in_table i -> in_table j -> pr_state (getp s i) <> UNUSED -> pr_state (getp s j) <> UNUSED ->
     pr_pid (getp s i) = pr_pid (getp s j) -> i = j) /\
  (forall i, in_table i -> pr_state (getp s i) <> UNUSED -> 0 < pr_pid (getp s i) < k_nextpid s) /\
  (exists i, k_init s = Some i /\ in_table i /\ live (pr_state (getp s i))) /\
  (forall i, in_table i -> pr_state (getp s i) <> UNUSED ->
     k_init s = Some i \/ exists j, pr_parent (getp s i) = Some j /\ in_table j /\ live (pr_state (getp s j))) /\
  (forall i j, in_table i -> pr_parent (getp s i) = Some j -> in_table j /\ live (pr_state (getp s j))).
Proof.
  intros (t & T & I)%kreachable_inv. assert (forall i, in_table i -> t_row t i = row_of (getp s i)) as E by (intros; by rewrite (tab_row _ _ T)).
  destruct I as [_ _ I3 I4 I5 I6 (k & Ek & Hk & Lk)]. rewrite (tab_next _ _ T), (tab_init _ _ T). split_and!.
  - intros i j Hi Hj. specialize (I4 i j Hi Hj). by rewrite !E in I4.
  - intros i Hi. specialize (I3 i Hi). by rewrite E in I3.
  - exists k. by rewrite E in Lk.
  - intros i Hi Hu. specialize (I6 i Hi). rewrite E in I6 by done. destruct (pr_parent (getp s i)) as [j|] eqn:Ep; [|left; by apply I6].
    right. exists j. destruct (I5 i j Hi) as [Hj Hl]; [by rewrite E|]. by rewrite E in Hl.
  - intros i j Hi Hp. destruct (I5 i j Hi) as [Hj Hl]; [by rewrite E|]. by rewrite E in Hl.
Qed.

(** ** The scheduler

    Every hart runs scheduler; processes run operations while a hart is in
    the switch to them.  A step of one hart is what it does while it holds a
    p->lock, or an operation of the process it runs together with the
    return to scheduler when the operation gives up the CPU: the process holds
    its p->lock from there until the scheduler of the same hart releases it. *)

Definition NCPU : Z := 8.
Definition is_cpu (h : Z) : Prop := 0 <= h < NCPU.
Record sys := Sys { y_k : kstate; y_at : Z -> hart_at }.
Definition at_upd (h : Z) (a : hart_at) (f : Z -> hart_at) : Z -> hart_at := fun j => if decide (j = h) then a else f j.

(** What a step shows: hart [h] switches to process [i]; hart [h] starts a new
    pass over the table. *)
Inductive sched_event := ERun (h i : Z) | EPass (h : Z) | EQuiet.
Definition scan_event (h i : Z) (a : hart_at) : sched_event :=
  match a with Exec _ => ERun h i | Scan _ => if i <? NPROC then EQuiet else EPass h end.

(** The operations that process [me] may run. *)
Definition op_of (me : Z) (o : kop) : Prop :=
  match o with
  | OWakeup w _ => w = Some me
  | OKill _ _ => True
  | _ => op_by o = Some me
  end.

Inductive hstep (x : sys) : sched_event -> sys -> Prop :=
  | hs_scan h i a k : is_cpu h -> y_at x h = Scan i -> scheduler (Scan i) (y_k x) = Ret a k ->
      hstep x (scan_event h i a) (Sys k (at_upd h a (y_at x)))
  | hs_op h me o k a : is_cpu h -> y_at x h = Exec me -> op_of me o -> kdo (y_k x) k o -> scheduler (Exec me) k = Ret a k ->
      hstep x EQuiet (Sys k (at_upd h a (y_at x)))
  | hs_intr h i chan k : is_cpu h -> y_at x h = Scan i -> kdo (y_k x) k (OWakeup None chan) -> hstep x EQuiet (Sys k (y_at x)).

Inductive hrun (x : sys) : list sched_event -> sys -> Prop :=
  | hr_nil : hrun x [] x
  | hr_snoc tr e y z : hrun x tr y -> hstep y e z -> hrun x (tr ++ [e]) z.

Record sys_start (x : sys) : Prop := {
  ss_tab : exists t, tab (y_k x) t;
  ss_idle : forall i, in_table i -> pr_state (getp (y_k x) i) <> RUNNING;
  ss_at : forall h, is_cpu h -> y_at x h = Scan 0
}.

Definition at_ok (a : hart_at) : Prop := match a with Scan i => 0 <= i <= NPROC | Exec i => in_table i end.
Record sys_inv (x : sys) : Prop := {
  sy_tab : exists t, tab (y_k x) t;
  sy_at : forall h, is_cpu h -> at_ok (y_at x h);
  sy_exec : forall h i, is_cpu h -> y_at x h = Exec i -> pr_state (getp (y_k x) i) = RUNNING;
  sy_runs : forall i, in_table i -> pr_state (getp (y_k x) i) = RUNNING -> exists h, is_cpu h /\ y_at x h = Exec i;
  sy_one : forall h h' i, is_cpu h -> is_cpu h' -> y_at x h = Exec i -> y_at x h' = Exec i -> h = h'
}.

Lemma at_upd_eq h a f : at_upd h a f h = a.
Proof. unfold at_upd. by rewrite decide_True. Qed.
Lemma at_upd_ne h a f j : j <> h -> at_upd h a f j = f j.
Proof. intros. unfold at_upd. by rewrite decide_False. Qed.

(** What an operation that is not a dispatch leaves of the others. *)
Lemma kdo_others s s' o t i :
  tab s t -> kdo s s' o -> in_table i -> o <> ORun i -> op_by o <> Some i ->
  (pr_state (getp s i) = RUNNABLE -> pr_state (getp s' i) = RUNNABLE) /\
  (pr_state (getp s' i) = RUNNING <-> pr_state (getp s i) = RUNNING).
Proof.
  intros T Hd Hi No Nb. destruct (kdo_astep _ _ _ _ T Hd) as (t' & T' & Hst).
  destruct (astep_only_scheduled o t t' i Hst Hi No) as [H1 H2]. rewrite !(tab_state s t), !(tab_state s' t') in * by done. auto.
Qed.
Lemma kdo_tab s s' o : (exists t, tab s t) -> kdo s s' o -> exists t, tab s' t.
Proof. intros [t T] Hd. destruct (kdo_astep _ _ _ _ T Hd) as (t' & T' & _). by exists t'. Qed.

Lemma op_of_by me o : op_of me o -> (forall i, o <> ORun i) /\ (forall i, i <> me -> op_by o <> Some i).
Proof. destruct o; cbn; intros H; split; intros; congruence. Qed.

(** A step of scheduler, always defined. *)
Lemma scheduler_scan i s :
  0 <= i -> exists a s', scheduler (Scan i) s = Ret a s' /\
  ((i < NPROC /\ pr_state (getp s i) = RUNNABLE /\ a = Exec i /\ kdo s s' (ORun i)) \/
   (a = Scan (if i <? NPROC then i + 1 else 0) /\ s' = s /\ (i < NPROC -> pr_state (getp s i) <> RUNNABLE))).
Proof.
  intros Hi. unfold scheduler, scheduler_look. destruct (Z.ltb_spec i NPROC) as [Hlt|Hge].
  - unfold mbind, M_bind, proc_of, gets, is_state. case_bool_decide as E; eexists _, _; (split; [reflexivity|]); [left|right; done].
    split_and!; [lia|done|done|by apply kt_run].
  - eexists _, _. split; [reflexivity|]. right. split_and!; [done|done|lia].
Qed.
Lemma scheduler_exec i s : scheduler (Exec i) s = Ret (if is_state (pr_state (getp s i)) RUNNING then Exec i else Scan (i + 1)) s.
Proof. reflexivity. Qed.

Lemma kdo_run s s' i t : tab s t -> kdo s s' (ORun i) ->
  in_table i /\ pr_state (getp s i) = RUNNABLE /\ forall j, in_table j -> pr_state (getp s' j) = if decide (j = i) then RUNNING else pr_state (getp s j).
Proof.
  intros T Hd. inversion Hd as [| | | | | |? Hi Hr E| | |]; subst. split_and!; [done..|]. injection E as <-. intros j Hj.
  rewrite getp_upd by (done || apply T). by destruct (decide (j = i)).
Qed.

Lemma sys_inv_same x k : sys_inv x -> (exists t, tab k t) -> (forall i, in_table i -> pr_state (getp k i) = RUNNING <-> pr_state (getp (y_k x) i) = RUNNING) ->
  sys_inv (Sys k (y_at x)).
Proof.
  intros [I1 I2 I3 I4 I5] T H. constructor; cbn; try done.
  - intros h i Hh Ha. apply H; [|by apply (I3 h)]. specialize (I2 h Hh). by rewrite Ha in I2.
  - intros i Hi Hr. apply I4; [done|by apply H].
Qed.
(** Hart [h] moves to [a]; the processes it stops or starts running change. *)
Lemma sys_inv_move x h a k :
  sys_inv x -> is_cpu h -> at_ok a -> (exists t, tab k t) ->
  (forall i, in_table i -> (pr_state (getp k i) = RUNNING <-> a = Exec i \/ (pr_state (getp (y_k x) i) = RUNNING /\ y_at x h <> Exec i))) ->
  (forall i, a = Exec i -> y_at x h = Exec i \/ pr_state (getp (y_k x) i) <> RUNNING) ->
  sys_inv (Sys k (at_upd h a (y_at x))).
Proof.
  intros [I1 I2 I3 I4 I5] Hh Ha T H Hnew. constructor; cbn; [done|..].
  - intros j Hj. unfold at_upd. destruct (decide (j = h)); [done|by apply I2].
  - intros j i Hj. unfold at_upd. destruct (decide (j = h)) as [->|N]; intros E.
    + subst a. apply H; [done|by left].
    + assert (in_table i) as Hi by (specialize (I2 j Hj); by rewrite E in I2). apply H; [done|right]. split; [by apply (I3 j)|].
      intros E'. apply N. by apply (I5 j h i).
  - intros i Hi Hr. apply H in Hr as [->|[Hr N]]; [exists h; by rewrite at_upd_eq| |done]. destruct (I4 i Hi Hr) as (j & Hj & Ej).
    exists j. split; [done|]. rewrite at_upd_ne; [done|]. intros ->. done.
  - intros j j' i Hj Hj'. unfold at_upd. destruct (decide (j = h)) as [->|N], (decide (j' = h)) as [->|N']; try done; [| |by apply I5].
    + intros -> E. destruct (Hnew i eq_refl) as [E'|Hn]; [by apply (I5 h j' i)|]. destruct Hn. by apply (I3 j').
    + intros E ->. destruct (Hnew i eq_refl) as [E'|Hn]; [by apply (I5 j h i)|]. destruct Hn. by apply (I3 j).
Qed.

Lemma hstep_inv x e y : hstep x e y -> sys_inv x -> sys_inv y.
Proof.
  intros Hst I. pose proof (sy_tab x I) as [t T]. destruct Hst as [h i a k Hh Ha Es|h me o k a Hh Ha Ho Hd Es|h i ch k Hh Ha Hd].
  - pose proof (sy_at x I h Hh) as Hi. rewrite Ha in Hi. cbn in Hi. destruct (scheduler_scan i (y_k x)) as (a' & k' & Es' & Hc); [lia|].
    rewrite Es in Es'. injection Es' as <- <-. destruct Hc as [(Hlt & Hr & -> & Hd)|(-> & -> & _)].
    + destruct (kdo_run _ _ _ _ T Hd) as (Hin & _ & Hk). apply sys_inv_move; try done.
      * by eapply kdo_tab; [by eexists|].
      * intros j Hj. rewrite Hk by done. destruct (decide (j = i)) as [->|N]; [split; [by left|done]|].
        rewrite Ha. split; [intros; right; done|intros [[= ->]|[? _]]; done].
      * intros j [= <-]. right. by rewrite Hr.
    + apply sys_inv_move; try done; [|by eexists|].
      * cbn. destruct (Z.ltb_spec i NPROC); unfold NPROC in *; lia.
      * intros j Hj. rewrite Ha. split; [intros; right; done|intros [|[? _]]; done].
  - pose proof (sy_at x I h Hh) as Hme. rewrite Ha in Hme. cbn in Hme. destruct (op_of_by me o Ho) as [No Nb].
    rewrite scheduler_exec in Es. injection Es as <-. pose proof (sy_exec x I h me Hh Ha) as Hrun.
    apply sys_inv_move; try done.
    + unfold is_state. case_bool_decide; cbn; [done|]. unfold in_table in Hme. lia.
    + by eapply kdo_tab; [by eexists|].
    + intros j Hj. rewrite Ha. destruct (decide (j = me)) as [->|N].
      * unfold is_state. case_bool_decide as E; split; try done; [by left|intros [|[_ []]]; done].
      * destruct (kdo_others _ _ o t j T Hd Hj (No j) (Nb j N)) as [_ ->]. unfold is_state. split; [intros; right; split; [done|congruence]|].
        intros [H|[? _]]; [|done]. case_bool_decide; congruence.
    + unfold is_state. intros j E. left. case_bool_decide; congruence.
  - apply sys_inv_same; [done|by eapply kdo_tab; [by eexists|]|]. intros j Hj. by destruct (kdo_others _ _ _ t j T Hd Hj) as [_ ->].
Qed.

Lemma hrun_inv x tr y : hrun x tr y -> sys_inv x -> sys_inv y.
Proof. induction 1; [done|]. intros. eapply hstep_inv; eauto. Qed.
Lemma sys_start_inv x : sys_start x -> sys_inv x.
Proof.
  intros [H1 H2 H3]. constructor; [done|..].
  - intros h Hh. rewrite H3 by done. cbn. unfold NPROC. lia.
  - intros h i Hh. by rewrite H3.
  - intros i Hi Hr. by destruct (H2 i Hi).
  - intros h h' i Hh. by rewrite H3.
Qed.

(** During a pass of hart [h]: where it is, and what it ran. *)
Definition runs_of (h : Z) (tr : list sched_event) : list Z :=
  omap (fun e => match e with ERun j i => if decide (j = h) then Some i else None | _ => None end) tr.
Definition below (a : hart_at) (i : Z) : Prop := match a with Scan p => i < p | Exec p => i <= p end.

Lemma sorted_snoc l i : StronglySorted Z.lt l -> Forall (fun j => j < i) l -> StronglySorted Z.lt (l ++ [i]).
Proof.
  induction 1 as [|j l Hs IH Hf]; cbn; intros Hl; [repeat constructor|]. apply Forall_cons in Hl as [Hj Hl].
  constructor; [by apply IH|]. apply Forall_app. by split; [|repeat constructor].
Qed.

Lemma pass_progress x tr y h :
  hrun x tr y -> sys_inv x -> is_cpu h -> y_at x h = Scan 0 -> EPass h ∉ tr ->
  Forall (below (y_at y h)) (runs_of h tr) /\ StronglySorted Z.lt (runs_of h tr) /\
  forall i, in_table i -> pr_state (getp (y_k x) i) = RUNNABLE ->
    (exists h', ERun h' i ∈ tr) \/ (pr_state (getp (y_k y) i) = RUNNABLE /\ ~ below (y_at y h) i).
Proof.
  intros R I Hh H0. induction R as [|tr e y z R IH Hst]; intros Hno.
  { split_and!; [constructor|constructor|]. intros i [Hi _] Hr. right. rewrite H0. cbn. split; [done|lia]. }
  destruct IH as (IH1 & IH2 & IH3); [intros Hin; apply Hno, elem_of_app; by left|]. pose proof (hrun_inv _ _ _ R I) as J.
  assert (EPass h <> e) as Ne by (intros <-; apply Hno, elem_of_app; right; by apply list_elem_of_singleton). clear Hno.
  unfold runs_of. rewrite omap_app. fold (runs_of h tr).
  assert (forall i e', (exists h', ERun h' i ∈ tr) -> exists h', ERun h' i ∈ tr ++ [e']) as Hmore by (intros i e' [h' ?]; exists h'; apply elem_of_app; by left).
  destruct (sy_tab y J) as [t T].
  destruct Hst as [h' i a k Hh' Ha Es|h' me o k a Hh' Ha Ho Hd Es|h' i ch k Hh' Ha Hd].
  - pose proof (sy_at y J h' Hh') as Hi. rewrite Ha in Hi. cbn in Hi. destruct (scheduler_scan i (y_k y)) as (a' & k' & Es' & Hc); [lia|].
    rewrite Es in Es'. injection Es' as <- <-. destruct Hc as [(Hlt & Hr & -> & Hd)|(-> & -> & Hnr)].
    + destruct (kdo_run _ _ _ _ T Hd) as (Hin & _ & Hk). cbn.
      assert (forall j, in_table j -> pr_state (getp (y_k x) j) = RUNNABLE -> (exists h'', ERun h'' j ∈ tr ++ [ERun h' i]) \/
        (j <> i /\ pr_state (getp (y_k y) j) = RUNNABLE /\ ~ below (y_at y h) j)) as Hrest.
      { intros j Hj Hx. destruct (IH3 j Hj Hx) as [?|[Hjr Hjb]]; [left; by apply Hmore|]. destruct (decide (j = i)) as [->|]; [|by right].
        left. exists h'. apply elem_of_app. right. by apply list_elem_of_singleton. }
      destruct (decide (h' = h)) as [->|N]; cbn.
      * rewrite at_upd_eq. rewrite Ha in *. cbn [below] in *. split_and!.
        -- apply Forall_app. split; [|constructor; [cbn; lia|constructor]]. eapply Forall_impl; [exact IH1|]. cbn. lia.
        -- by apply sorted_snoc.
        -- intros j Hj Hx. destruct (Hrest j Hj Hx) as [?|(Nj & Hjr & Hjb)]; [by left|right]. rewrite Hk by done.
           rewrite decide_False by done. cbn in Hjb |- *. split; [done|lia].
      * rewrite at_upd_ne by done. rewrite app_nil_r. split_and!; [done|done|]. intros j Hj Hx.
        destruct (Hrest j Hj Hx) as [?|(Nj & Hjr & Hjb)]; [by left|right]. rewrite Hk by done. by rewrite decide_False.
    + cbn [scan_event]. replace (omap _ [if i <? NPROC then EQuiet else EPass h']) with (@nil Z) by (by destruct (i <? NPROC)). rewrite app_nil_r. cbn [y_at y_k].
      destruct (decide (h' = h)) as [->|N].
      * rewrite at_upd_eq. rewrite Ha in *. cbn [scan_event] in Ne. cbn [below] in *. destruct (Z.ltb_spec i NPROC) as [Hlt|]; [|done]. split_and!; [|done|].
        -- eapply Forall_impl; [exact IH1|]. cbn. lia.
        -- intros j Hj Hx. destruct (IH3 j Hj Hx) as [?|[Hjr Hjb]]; [left; by apply Hmore|right]. split; [done|].
           assert (j <> i) by (intros ->; by apply Hnr). cbn [below] in *. lia.
      * rewrite at_upd_ne by done. split_and!; [done|done|]. intros j Hj Hx. destruct (IH3 j Hj Hx); [left; by apply Hmore|by right].
  - destruct (op_of_by me o Ho) as [No Nb]. cbn. rewrite app_nil_r. pose proof (sy_exec y J h' me Hh' Ha) as Hrun.
    assert (forall j, in_table j -> pr_state (getp (y_k y) j) = RUNNABLE -> j <> me /\ pr_state (getp k j) = RUNNABLE) as Hkeep.
    { intros j Hj Hjr. assert (j <> me) as N by (intros ->; congruence). split; [done|]. by apply (kdo_others _ _ o t j T Hd Hj (No j) (Nb j N)). }
    rewrite scheduler_exec in Es. injection Es as <-. destruct (decide (h' = h)) as [->|N].
    + rewrite at_upd_eq. rewrite Ha in *. cbn [below] in *. split_and!; [|done|].
      * eapply Forall_impl; [exact IH1|]. cbn [below]. intros j Hj. destruct (is_state _ _); cbn [below]; lia.
      * intros j Hj Hx. destruct (IH3 j Hj Hx) as [?|[Hjr Hjb]]; [left; by apply Hmore|right]. destruct (Hkeep j Hj Hjr). split; [done|].
        destruct (is_state _ _); cbn [below]; lia.
    + rewrite at_upd_ne by done. split_and!; [done|done|]. intros j Hj Hx. destruct (IH3 j Hj Hx) as [?|[Hjr Hjb]]; [left; by apply Hmore|right].
      split; [by apply Hkeep|done].
  - cbn. rewrite app_nil_r. split_and!; [done|done|]. intros j Hj Hx. destruct (IH3 j Hj Hx) as [?|[Hjr Hjb]]; [left; by apply Hmore|right].
    split; [|done]. by apply (kdo_others _ _ _ t j T Hd Hj).
Qed.


(** ** kill(0) *)

(** kkill(0) is accepted while the table has an unused slot: it sets
    the killed flag of the first unused slot, which allocproc does not clear,
    so the next process that is forked starts its life killed. *)
Theorem kill_zero_dooms_child s me i :
  kreachable s -> in_table me -> pr_state (getp s me) = RUNNING -> k_nextpid s < 2 ^ 31 - 1 ->
  in_table i -> pr_state (getp s i) = UNUSED ->
  wp (kkill 0) (fun r s1 => r = 0 /\
    wlp (kfork me) (fun pid s2 => pid = -1 \/
      exists k, in_table k /\ pr_pid (getp s2 k) = pid /\ pr_parent (getp s2 k) = Some me /\ pr_killed (getp s2 k) = 1) s1) s.
Proof.
  intros (t & T & I)%kreachable_inv Hme Hrun Hnx Hi Hu. rewrite <- (tab_state s t) in Hrun, Hu by done. rewrite (tab_next _ _ T) in Hnx.
  eapply wp_mono; [by apply (kkill_tab 0 s t)|]. intros r s1 [(-> & k & Hk & Ek & Hlow & T1)|(_ & _ & Hno)].
  2:{ exfalso. apply (Hno i Hi). by apply (ti_free _ I). }
  split; [done|]. assert (forall j, in_table j -> r_state (t_row t j) <> UNUSED -> r_pid (t_row t j) <> 0) as Hpos.
  { intros j Hj Hs. pose proof (ti_pid _ I j Hj Hs). lia. }
  assert (r_state (t_row t k) = UNUSED) as Huk by (destruct (decide (r_state (t_row t k) = UNUSED)); [done|by destruct (Hpos k)]).
  assert (r_state (t_row (upd_row k kill_row t) me) = RUNNING) as Hrun1.
  { cbn. destruct (decide (me = k)) as [->|]; [congruence|done]. }
  assert (first_unused (upd_row k kill_row t) k) as Hfk.
  { unfold first_unused. split; [exact Hk|]. split.
    - cbn. rewrite decide_True by done. unfold kill_row, is_state. rewrite Huk. done.
    - intros j Hj. cbn. rewrite decide_False by lia. intros Ej. apply (Hlow j Hj), (ti_free _ I); [unfold in_table in *; lia|done]. }
  eapply wlp_mono; [by apply (kfork_tab me s1 _ T1 Hme Hrun1)|]. intros pid s2 (t' & T2 & _ & [->|(-> & j & Hfj & Hc & Hs & Hp & Hkill)]); [by left|].
  right. exists j. pose proof Hc as [Hj Hpar]. pose proof (tab_row _ _ T2 j Hj) as Er.
  assert (j = k) as ->. { destruct Hfj as (H1 & H2 & H3). destruct Hfk as (G1 & G2 & G3). unfold in_table in *.
    destruct (decide (j < k)); [by destruct (G3 j ltac:(lia))|]. destruct (decide (k < j)); [by destruct (H3 k ltac:(lia))|lia]. }
  assert (pr_killed (getp s2 k) = 1) as Ekill.
  { assert (r_killed (row_of (getp s2 k)) = 1) as Ex; [|exact Ex]. rewrite Er, Hkill. cbn. rewrite decide_True by done.
    unfold kill_row, is_state. by rewrite Huk. }
  assert (r_pid (row_of (getp s2 k)) = t_next (upd_row k kill_row t)) as Ep by (by rewrite Er).
  assert (r_parent (row_of (getp s2 k)) = Some me) as Epar by (by rewrite Er). done.
Qed.
End proc.

(** ** The page records of a child *)

(** The number of resident pages among the first [j]. *)
Definition resident_before (ps : list page_info) (j : nat) : Z :=
  Z.of_nat (length (filter (fun x => pi_state x = RESIDENT) (take j ps))).

Lemma fork_pages_length n ps cs seq : length (fork_pages n ps cs seq).1 = length cs.
Proof.
  revert ps cs seq. induction n as [|n IH]; intros ps cs seq; [done|]. destruct ps as [|p ps], cs as [|c cs]; try done.
  cbn [fork_pages]. destruct (if pi_state p =? RESIDENT then _ else _) as [c' seq'] eqn:E. specialize (IH ps cs seq').
  destruct (fork_pages n ps cs seq') as [r q]. cbn in *. by rewrite IH.
Qed.

(** kfork gives the child a page record for exactly the pages that are
    resident in the parent among the first 16384, clean, without a swap slot
    and numbered in the order of their addresses; a page that the parent has
    swapped out gets an UNMAPPED record, so its content is lost to the child;
    records from 16384 on are left as they are. *)
Theorem fork_page_records n ps cs seq j p c :
  ps !! j = Some p -> cs !! j = Some c -> 0 <= seq -> seq + Z.of_nat (length ps) < 2 ^ 31 ->
  (fork_pages n ps cs seq).1 !! j =
    Some (if decide (j < n)%nat then
            if decide (pi_state p = RESIDENT)
            then PageInfo (pi_va p) RESIDENT 0 (seq + resident_before ps j) (-1) (pi_exec_offset c) (pi_from_exec p)
            else pi_set_state UNMAPPED c
          else c).
Proof.
  revert ps cs seq j. induction n as [|n IH]; intros ps cs seq j Hp Hc H0 Hlen; [done|].
  destruct ps as [|p0 ps]; [done|]. destruct cs as [|c0 cs]; [done|]. cbn [fork_pages]. cbn [length] in Hlen.
  destruct (if pi_state p0 =? RESIDENT then _ else _) as [c' seq'] eqn:E.
  assert (seq' = if decide (pi_state p0 = RESIDENT) then seq + 1 else seq) as Es.
  { destruct (Z.eqb_spec (pi_state p0) RESIDENT); [rewrite decide_True by done|rewrite decide_False by done]; injection E as _ <-; [|done].
    apply s32_id. lia. }
  destruct j as [|j].
  - cbn in Hp, Hc. injection Hp as ->. injection Hc as ->. destruct (fork_pages n ps cs seq') as [r q]. cbn. f_equal.
    change (resident_before (p :: ps) 0) with 0. rewrite Z.add_0_r, (decide_True (P := (0 < S n)%nat)) by lia.
    destruct (Z.eqb_spec (pi_state p) RESIDENT); [rewrite decide_True by done|rewrite decide_False by done]; by injection E as <- _.
  - cbn in Hp, Hc. specialize (IH ps cs seq' j Hp Hc). destruct (fork_pages n ps cs seq') as [r q]. cbn [fst] in *. change ((c' :: r) !! S j) with (r !! j). rewrite IH by (rewrite Es; destruct (decide (pi_state p0 = RESIDENT)); lia). f_equal.
    assert (seq' + resident_before ps j = seq + resident_before (p0 :: ps) (S j)) as ->.
    { unfold resident_before. cbn [take]. rewrite Es, filter_cons. destruct (decide (pi_state p0 = RESIDENT)); cbn [length]; lia. }
    destruct (decide (j < n)%nat); [by rewrite (decide_True (P := (S j < S n)%nat)) by lia|by rewrite (decide_False (P := (S j < S n)%nat)) by lia].
Qed.

Lemma fork_page_records_witness :
  (fork_pages (Z.to_nat 16384) [PageInfo 0 RESIDENT 1 5 (-1) 0 0; PageInfo 4096 SWAPPED 1 6 3 0 0; PageInfo 8192 RESIDENT 0 7 (-1) 0 1]
     (replicate 3 pi_zero) 1).1 !! 1%nat = Some (pi_set_state UNMAPPED pi_zero).
Proof.
  apply (fork_page_records (Z.to_nat 16384) _ (replicate 3 pi_zero) 1 1 (PageInfo 4096 SWAPPED 1 6 3 0 0) pi_zero); [reflexivity|reflexivity|lia|cbn; lia].
Defined.

(** ** sys_memstat *)

Definition tracked (l : list page_info) : list page_info := filter (fun x => pi_state x <> UNMAPPED) l.
Definition state_count (st : Z) (l : list page_stat) : Z := Z.of_nat (length (filter (fun x => ps_state x = st) l)).

Lemma memstat_loop_spec l acc r w :
  Z.of_nat (length acc) <= MAX_PAGES_INFO ->
  memstat_loop l acc r w =
    (let new := take (Z.to_nat MAX_PAGES_INFO - length acc) (page_stat_of <$> tracked l) in
     (acc ++ new, r + state_count RESIDENT new, w + state_count SWAPPED new)).
Proof.
  revert acc r w. induction l as [|x l IH]; intros acc r w Ha; cbn [memstat_loop].
  { cbv zeta. cbn. rewrite take_nil, app_nil_r. unfold state_count. cbn. f_equal; [f_equal|]; lia. }
  assert (MAX_PAGES_INFO = 128) as EM by done. destruct (Z.ltb_spec (Z.of_nat (length acc)) MAX_PAGES_INFO) as [Hlt|Hge]; cbn [negb].
  - unfold tracked. rewrite filter_cons. destruct (Z.eqb_spec (pi_state x) UNMAPPED) as [E|N]; cbn [negb].
    + rewrite decide_False by tauto. by apply IH.
    + rewrite decide_True by done. rewrite IH by (rewrite length_app; cbn; lia). cbv zeta. fold (tracked l). cbn [fmap list_fmap].
      replace (Z.to_nat MAX_PAGES_INFO - length acc)%nat with (S (Z.to_nat MAX_PAGES_INFO - length (acc ++ [page_stat_of x])))
        by (rewrite length_app; cbn; lia).
      cbn [take]. rewrite <- app_assoc. cbn [app]. unfold state_count. rewrite !filter_cons. cbn [page_stat_of ps_state].
      assert (RESIDENT <> SWAPPED) by done.
      destruct (Z.eqb_spec (pi_state x) RESIDENT) as [Er|Nr]; [rewrite (decide_True (P := _ = RESIDENT)), (decide_False (P := _ = SWAPPED)) by congruence|
        rewrite (decide_False (P := _ = RESIDENT)) by done; destruct (Z.eqb_spec (pi_state x) SWAPPED); [rewrite decide_True by done|rewrite decide_False by done]];
        cbn [length]; f_equal; [f_equal|..]; try lia; f_equal; lia.
  - replace (Z.to_nat MAX_PAGES_INFO - length acc)%nat with 0%nat by lia. cbv zeta. rewrite take_0, app_nil_r. unfold state_count. cbn.
    f_equal; [f_equal|]; lia.
Qed.

(** The table that sys_memstat reports equals its reference definition:
    the first 128 page records in address order that are not UNMAPPED, with
    the exact numbers of resident and of swapped pages among them. *)
Theorem memstat_reports_pages l :
  memstat_loop l [] 0 0 =
    (let new := take (Z.to_nat MAX_PAGES_INFO) (page_stat_of <$> tracked l) in
     (new, state_count RESIDENT new, state_count SWAPPED new)).
Proof. rewrite memstat_loop_spec by done. cbv zeta. cbn [length app]. by rewrite Nat.sub_0_r, !Z.add_0_l. Qed.

(** ** A machine that has booted *)

#[local] Instance demo_procfs : ProcFs := {|
  fs_filedup _ := skip;
  fs_fileclose _ := skip;
  fs_idup ip := d_upd (fun s => set_refs ip (S (d_refs s ip)) s);
  fs_iput ip := d_upd (fun s => set_refs ip (pred (d_refs s ip)) s);
  fs_namei _ := mret demo_ip
|}.
#[local] Instance demo_proclayout : ProcLayout := {| forkret_addr := KERNBASE; xstate_addr i := KERNBASE + 4096 + 4 * i |}.

(** Ten free pages, linked by hand. *)
Definition boot_km : kmem :=
  KMem (fold_left (fun m k => store64 m (demo_page k) (if k =? 9 then 0 else demo_page (k + 1))) (seqZ 0 10) ∅) (demo_page 0).
Definition boot_state : kstate := KState boot_km demo_file (replicate (Z.to_nat NPROC) proc_zero) 1 None [].

(** The boot returns, with init RUNNABLE in slot 0 and slot 1 unused. *)
Definition boot_ok (r : res kstate unit) : bool :=
  match r with
  | Ret _ s => is_state (pr_state (getp s 0)) RUNNABLE && is_state (pr_state (getp s 1)) UNUSED && (k_nextpid s =? 2)
  | _ => false
  end.
Lemma boot_ok_spec r : boot_ok r = true ->
  exists s, r = Ret () s /\ pr_state (getp s 0) = RUNNABLE /\ pr_state (getp s 1) = UNUSED /\ k_nextpid s = 2.
Proof.
  destruct r as [[] s| |]; [|done|done]. cbn [boot_ok]. rewrite !andb_true_iff. intros [[H1 H2] H3].
  apply bool_decide_eq_true in H1, H2. apply Z.eqb_eq in H3. by exists s.
Qed.
Lemma boot_runs : boot_ok ((procinit;; userinit) boot_state) = true.
Proof. vm_compute. reflexivity. Qed.

(** The scheduler has dispatched init. *)
Definition init_running (s s' : kstate) : Prop :=
  kreachable s /\ kreachable s' /\ kstep s s' /\
  pr_state (getp s' 0) = RUNNING /\ pr_state (getp s' 1) = UNUSED /\ k_nextpid s' = 2.

Lemma init_dispatched (s0 s : kstate) :
  boot_table s0 -> (procinit;; userinit) s0 = Ret () s -> pr_state (getp s 0) = RUNNABLE ->
  pr_state (getp s 1) = UNUSED -> k_nextpid s = 2 ->
  init_running s (set_kproc (<[Z.to_nat 0 := set_pstate RUNNING (getp s 0)]> (k_proc s)) s).
Proof.
  intros B E H0 H1 Hn. assert (kreachable s) as R by (exists s0, s; split_and!; [done|done|apply rtc_refl]).
  destruct (kreachable_inv _ R) as (t & T & _). pose proof (tab_len _ _ T) as Hl. unfold init_running.
  assert (kstep s (set_kproc (<[Z.to_nat 0 := set_pstate RUNNING (getp s 0)]> (k_proc s)) s)) as Hs by (exists (ORun 0); by apply kt_run).
  rewrite !getp_upd by done. split_and!; try done. exists s0, s. split_and!; [done|done|by apply rtc_once].
Qed.

Lemma init_demo : exists s s', init_running s s'.
Proof.
  destruct (boot_ok_spec _ boot_runs) as (s & E & H0 & H1 & Hn). eexists s, _.
  refine (init_dispatched boot_state s _ E H0 H1 Hn). constructor; reflexivity.
Qed.

(** init has been dispatched and yields. *)
Lemma process_table_refinement_witness : exists s s' t, tab s t /\ kdo s s' (OYield 0) /\ tab s' (upd_row 0 (with_state RUNNABLE) t).
Proof.
  destruct init_demo as (_ & s & _ & R & _ & H0 & _). destruct (kreachable_inv _ R) as (t & T & _).
  destruct (process_table_refinement s t T) as (Hdo & Hgo & _). assert (in_table 0) as Hin by (split; reflexivity || (intros E; discriminate E)).
  destruct (Hgo 0 ch_null Hin H0) as (_ & _ & s' & Hs). exists s, s', t. split; [exact T|]. split; [exact Hs|].
  destruct (Hdo s' _ Hs) as (t' & T' & Hst). inversion Hst; subst. exact T'.
Defined.

Lemma process_tree_invariant_witness : exists s i, kreachable s /\ k_init s = Some i /\ in_table i /\ live (pr_state (getp s i)).
Proof.
  destruct init_demo as (_ & s & _ & R & _). destruct (process_tree_invariant s R) as (_ & _ & (i & H) & _).
  exists s, i. by split.
Defined.

Lemma kill_zero_dooms_child_witness : exists s, kreachable s /\
  wp (kkill 0) (fun r s1 => r = 0 /\
    wlp (kfork 0) (fun pid s2 => pid = -1 \/
      exists k, in_table k /\ pr_pid (getp s2 k) = pid /\ pr_parent (getp s2 k) = Some 0 /\ pr_killed (getp s2 k) = 1) s1) s.
Proof.
  destruct init_demo as (_ & s & _ & R & _ & H0 & H1 & Hn). exists s. split; [exact R|].
  apply (kill_zero_dooms_child s 0 1 R); [done|exact H0|rewrite Hn; done|done|exact H1].
Defined.

(** All harts at the start; process 2 is RUNNABLE. *)
Definition two_runnable : kstate :=
  set_kproc (<[2%nat := set_pstate RUNNABLE proc_zero]> (replicate (Z.to_nat NPROC) proc_zero)) boot_state.
Definition two_sys : sys := Sys two_runnable (fun _ => Scan 0).
Lemma two_tab : tab two_runnable (Table (fun i => row_of (getp two_runnable i)) 1 None).
Proof. by constructor. Qed.
Lemma two_start : sys_start two_sys.
Proof.
  constructor; [eexists; exact two_tab| |done]. intros i [Hi Hi']. unfold getp. cbn [two_sys y_k two_runnable set_kproc k_proc].
  rewrite nth_lookup. destruct (decide (i = 2)) as [->|N]; [done|]. rewrite list_lookup_insert_ne by lia. by rewrite lookup_replicate_2 by (unfold NPROC in *; lia).
Qed.

(** A hart that finds nothing to run up to process [j]. *)
Lemma scan_idle n h i x :
  is_cpu h -> 0 <= i -> i + Z.of_nat n <= NPROC -> y_at x h = Scan i ->
  (forall j, i <= j < i + Z.of_nat n -> pr_state (getp (y_k x) j) <> RUNNABLE) ->
  exists tr y, hrun x tr y /\ y_at y h = Scan (i + Z.of_nat n) /\ y_k y = y_k x /\ Forall (fun e => e = EQuiet) tr.
Proof.
  intros Hh Hi. induction n as [|n IH]; intros Hn Ha Hno.
  - exists [], x. split_and!; [constructor|by rewrite Z.add_0_r|done|constructor].
  - destruct IH as (tr & y & R & Hy & Ek & Hq); [lia|done|intros; apply Hno; lia|]. set (j := i + Z.of_nat n) in *.
    destruct (scheduler_scan j (y_k y)) as (a & k & E & [(_ & Hr & _)|(-> & -> & _)]); [lia| |].
    { destruct (Hno j); [lia|by rewrite <- Ek]. }
    rewrite (proj2 (Z.ltb_lt j NPROC)) in E by lia. pose proof (hs_scan y h j _ _ Hh Hy E) as Hst. cbn [scan_event] in Hst.
    rewrite (proj2 (Z.ltb_lt j NPROC)) in Hst by lia. eexists _, _. split_and!; [exact (hr_snoc _ _ _ _ _ R Hst)|cbn; rewrite at_upd_eq; f_equal; lia|done|].
    apply Forall_app. split; [done|repeat constructor].
Qed.
Lemma hrun_trans x tr y tr' z : hrun x tr y -> hrun y tr' z -> hrun x (tr ++ tr') z.
Proof. intros R R'. induction R'; [by rewrite app_nil_r|]. rewrite app_assoc. econstructor; eauto. Qed.

Lemma two_other s j : s = two_runnable \/ pr_state (getp s j) = pr_state (getp two_runnable j) -> 0 <= j < NPROC -> j <> 2 -> pr_state (getp s j) <> RUNNABLE.
Proof.
  intros Hs Hj N. assert (pr_state (getp two_runnable j) <> RUNNABLE) as H; [|destruct Hs as [-> | ->]; done].
  unfold getp, two_runnable. cbn [set_kproc k_proc]. rewrite nth_lookup, list_lookup_insert_ne by lia. by rewrite lookup_replicate_2 by lia.
Qed.

(** A pass of hart 0 in which process 2 runs and yields. *)
Lemma two_pass : exists tr y, hrun two_sys tr y /\ (EPass 0 ∉ tr) /\ y_at y 0 = Scan NPROC.
Proof.
  assert (is_cpu 0) as H0 by done.
  destruct (scan_idle 2 0 0 two_sys H0) as (tr1 & x1 & R1 & A1 & K1 & Q1); [done|done|done| |].
  { intros j Hj. apply two_other; [by left|unfold NPROC; lia|lia]. }
  change (0 + Z.of_nat 2) with 2 in A1. destruct (scheduler_scan 2 (y_k x1)) as (a & k & E & [(_ & _ & -> & Hd)|(_ & _ & Hno)]); [done| |].
  2:{ exfalso. apply Hno; [done|]. rewrite K1. reflexivity. }
  pose proof (hs_scan x1 0 2 _ _ H0 A1 E) as S2. set (x2 := Sys k (at_upd 0 (Exec 2) (y_at x1))) in S2. cbn [scan_event] in S2.
  destruct (kdo_run (y_k x1) k 2 (Table (fun i => row_of (getp two_runnable i)) 1 None)) as (Hin & _ & Hk); [rewrite K1; exact two_tab|exact Hd|].
  assert (exists t, tab k t) as [t T] by (eapply kdo_tab; [|exact Hd]; rewrite K1; eexists; exact two_tab).
  assert (pr_state (getp k 2) = RUNNING) as Hr by (by rewrite Hk).
  destruct (wp_inv _ _ _ (yield_tab 2 k t T Hin)) as ([] & k3 & E3 & T3).
  assert (forall j, in_table j -> j <> 2 -> pr_state (getp k3 j) = pr_state (getp two_runnable j)) as Hk3.
  { intros j Hj N. rewrite <- (tab_state k3 _ j T3) by done. cbn. rewrite decide_False by done. rewrite (tab_state k t j T Hj), Hk, decide_False by done. by rewrite K1. }
  assert (hstep x2 EQuiet (Sys k3 (at_upd 0 (Scan 3) (y_at x2)))) as S3.
  { apply (hs_op x2 0 2 (OYield 2)); [done|done|done|by apply kt_yield|]. rewrite scheduler_exec. unfold is_state. rewrite bool_decide_false; [done|].
    rewrite <- (tab_state k3 _ 2 T3) by done. done. }
  destruct (scan_idle 61 0 3 (Sys k3 (at_upd 0 (Scan 3) (y_at x2))) H0) as (tr4 & x4 & R4 & A4 & K4 & Q4); [done|done|done| |].
  { intros j Hj. cbn [y_k]. apply two_other; [right; apply Hk3; [unfold in_table, NPROC; lia|lia]|unfold NPROC; lia|lia]. }
  eexists _, x4. split_and!; [exact (hrun_trans _ _ _ _ _ (hr_snoc _ _ _ _ _ (hr_snoc _ _ _ _ _ R1 S2) S3) R4)| |exact A4].
  rewrite !elem_of_app, !list_elem_of_singleton. rewrite Forall_forall in Q1, Q4.
  intros [[[H|H]|H]|H]; [by apply Q1 in H|done|done|by apply Q4 in H].
Qed.

