(* ===== verification/TrapTheorems.v ===== *)
(** * Properties of traps *)
From S2P Require Import Prelude Mem Riscv Kalloc Vm Paging Demo UserCopy Proc ProcSpec ProcRefine ProcLife Syscall Exec Trap.
From stdpp Require Import base tactics numbers list strings gmap.
From Stdlib Require Import ZArith Lia.

Open Scope Z_scope.

Lemma has_land_lnot x f : has (Z.land x (Z.lnot f)) f = false.
Proof.
  unfold has. rewrite <- Z.land_assoc, (Z.land_comm _ f), Z.land_lnot_diag, Z.land_0_r. done.
Qed.

(** Masking other bits out. *)
Lemma has_land_other x f g : Z.land g f = 0 -> has (Z.land x (Z.lnot g)) f = has x f.
Proof.
  intros H. unfold has. do 2 f_equal. apply Z.bits_inj'. intros i Hi. rewrite !Z.land_spec, Z.lnot_spec by done.
  apply (f_equal (fun z => Z.testbit z i)) in H. rewrite Z.land_spec, Z.bits_0 in H.
  destruct (Z.testbit x i), (Z.testbit g i), (Z.testbit f i); done.
Qed.

Section trap.
Context {KL : KernelLayout} {FS : FsOps} {PF : ProcFs} {PL : ProcLayout} {EL : ExecLayout} {DV : Devices} {TL : TrapLayout}.
Implicit Types s : tstate.

Definition tf_word s (me off : Z) : Z := load64 (phys (k_mem (t_k s))) (pr_trapframe (getp (t_k s) me) + off).

(** The processor and the trapframe as sret and the next trap need them. *)
Record user_ready s (me : Z) : Prop := {
  ur_user : has (r_sstatus (t_hart s)) SSTATUS_SPP = false;
  ur_spie : has (r_sstatus (t_hart s)) SSTATUS_SPIE = true;
  ur_intr : intr_get (t_hart s) = false;
  ur_stvec : r_stvec (t_hart s) = w64 (TRAMPOLINE + uservec_off);
  ur_sepc : r_sepc (t_hart s) = tf_word s me TF_EPC;
  ur_satp : tf_word s me TF_KERNEL_SATP = w64 (r_satp (t_hart s));
  ur_sp : tf_word s me TF_KERNEL_SP = w64 (pr_kstack (getp (t_k s) me) + PGSIZE);
  ur_trap : tf_word s me TF_KERNEL_TRAP = w64 usertrap_addr;
  ur_hart : tf_word s me TF_KERNEL_HARTID = w64 (r_tp (t_hart s))
}.

Lemma wp_on_k {A} (c : M kstate A) Q s : wp c (fun a k => Q a (set_k k s)) (t_k s) -> wp (on_k c) Q s.
Proof. apply wp_zoom. Qed.
Lemma wp_st_tf me off v Q s :
  Q () (set_k (set_kmem (set_phys (fun m => store64 m (pr_trapframe (getp (t_k s) me) + off) v) (k_mem (t_k s))) (t_k s)) s) ->
  wp (st_tf me off v) Q s.
Proof. done. Qed.
Lemma wp_ld_tf me off Q s : Q (tf_word s me off) s -> wp (ld_tf me off) Q s.
Proof. by destruct s as [[] ? ? ? ? ?]. Qed.

Lemma wlp_on_k {A} (c : M kstate A) Q s : wlp c (fun a k => Q a (set_k k s)) (t_k s) -> wlp (on_k c) Q s.
Proof. apply wlp_zoom. Qed.

Lemma wlp_st_tf me off v Q s :
  Q () (set_k (set_kmem (set_phys (fun m => store64 m (pr_trapframe (getp (t_k s) me) + off) v) (k_mem (t_k s))) (t_k s)) s) ->
  wlp (st_tf me off v) Q s.
Proof. done. Qed.
Lemma wlp_ld_tf me off Q s : Q (tf_word s me off) s -> wlp (ld_tf me off) Q s.
Proof. by destruct s as [[] ? ? ? ? ?]. Qed.

Ltac trap_step :=
  lazymatch goal with
  | |- wlp (st_tf _ _ _) _ _ => apply wlp_st_tf
  | |- wlp (ld_tf _ _) _ _ => apply wlp_ld_tf
  | |- wlp (on_k _) _ _ => apply wlp_on_k
  | |- wlp (set_csr _) _ _ => apply wlp_modify
  | |- wlp (csr _) _ _ => apply wlp_gets
  | |- wlp (proc_of _) _ _ => apply wlp_gets
  | _ => wlp_step
  end.
Ltac trap_steps := repeat (trap_step; cbv beta zeta).

Ltac trap_wp_step :=
  lazymatch goal with
  | |- wp (st_tf _ _ _) _ _ => apply wp_st_tf
  | |- wp (ld_tf _ _) _ _ => apply wp_ld_tf
  | |- wp (on_k _) _ _ => apply wp_on_k
  | |- wp (set_csr _) _ _ => apply wp_modify
  | |- wp (csr _) _ _ => apply wp_gets
  | |- wp (proc_of _) _ _ => apply wp_gets
  | _ => wp_step
  end.
Ltac trap_wp_steps := repeat (trap_wp_step; cbv beta zeta).

Lemma load64_store64_w64 m a v : load64 (store64 m a v) a = w64 v.
Proof. Transparent load64 store64. unfold load64, store64. rewrite loadn_storen. done. Opaque load64 store64. Qed.

(** The fields of the trapframe do not overlap. *)
Ltac tf_other := rewrite !load64_store64_ne by (unfold TF_KERNEL_SATP, TF_KERNEL_SP, TF_KERNEL_TRAP, TF_KERNEL_HARTID; lia).

Lemma usertrap_return_wp me s :
  wp (usertrap_return me) (fun r s' => r = ToUser (MAKE_SATP (pr_pagetable (getp (t_k s') me))) /\ user_ready s' me /\
    k_proc (t_k s') = k_proc (t_k s)) s.
Proof.
  unfold usertrap_return, prepare_return. trap_wp_steps.
  split; [by destruct s as [[] ? ? ? ? ?]|]. split; [|by destruct s as [[] ? ? ? ? ?]].
  constructor; unfold tf_word, intr_get, getp;
    cbn [set_hart set_csr set_k set_kmem set_phys t_hart t_k k_mem k_proc phys intr_off w_sstatus w_stvec w_sepc
         r_sstatus r_stvec r_sepc r_satp r_tp].
  - rewrite has_lor, has_land_lnot. done.
  - rewrite has_lor. by rewrite orb_true_r.
  - rewrite has_lor, has_land_other by done. by rewrite has_land_lnot.
  - done.
  - done.
  - tf_other. apply load64_store64_w64.
  - tf_other. rewrite load64_store64_w64. unfold w64. apply Zmod_mod.
  - tf_other. apply load64_store64_w64.
  - apply load64_store64_w64.
Qed.

(** How usertrap leaves a process: not killed when it returns to user space or
    gives up the CPU, and in the first case on its own page table and ready. *)
Definition own_return (me : Z) (r : trap_end) s : Prop :=
  forall satp, r = ToUser satp -> satp = MAKE_SATP (pr_pagetable (getp (t_k s) me)) /\ user_ready s me.
Definition good_return (me : Z) (r : trap_end) s : Prop :=
  own_return me r s /\ (r <> Away -> pr_killed (getp (t_k s) me) = 0).

Lemma trap_exit_wlp me s : wlp (trap_exit me) (fun r _ => r = Away) s.
Proof. unfold trap_exit. trap_step. apply wlp_any. intros ? ?. by apply wlp_ret. Qed.
Lemma away_good me r s : r = Away -> good_return me r s.
Proof. intros ->. split; [|done]. intros satp H. discriminate H. Qed.

Lemma getp_set_state (s : kstate) i st : getp (set_kproc (<[Z.to_nat i := set_pstate st (getp s i)]> (k_proc s)) s) i = set_pstate st (getp s i) \/
  getp (set_kproc (<[Z.to_nat i := set_pstate st (getp s i)]> (k_proc s)) s) i = getp s i.
Proof.
  unfold getp. cbn. rewrite !nth_lookup. destruct (decide (Z.to_nat i < length (k_proc s))%nat).
  - left. by rewrite list_lookup_insert_eq.
  - right. by rewrite list_insert_ge by lia.
Qed.
Lemma yield_killed me (k : kstate) : wlp (yield me) (fun _ k' => pr_killed (getp k' me) = pr_killed (getp k me)) k.
Proof.
  unfold yield. apply wlp_bind, wlp_modify. unfold sched_me, sched. apply wlp_bind, wlp_gets. cbn [negb Z.eqb Pos.eqb].
  destruct (is_state _ _); [apply wlp_panic|]. apply wlp_skip. by destruct (getp_set_state k me RUNNABLE) as [-> | ->].
Qed.

Lemma usertrap_end_wlp me d s : wlp (usertrap_end me d) (good_return me) s.
Proof.
  unfold usertrap_end. trap_step. apply wlp_on_k. unfold killed. trap_steps.
  replace (set_k (t_k s) s) with s by (by destruct s).
  destruct (Z.eqb_spec (pr_killed (getp (t_k s) me)) 0) as [Ek|]; cbn [negb].
  2:{ eapply wlp_mono; [apply trap_exit_wlp|]. intros r s'. apply away_good. }
  destruct (d =? 2).
  - trap_step. apply wlp_on_k. eapply wlp_mono; [apply yield_killed|]. cbv beta. intros ? k E. apply wlp_ret.
    split; [intros satp H; discriminate H|]. intros _. cbn. by rewrite E.
  - eapply wlp_mono; [apply wp_wlp, usertrap_return_wp|]. cbv beta. intros r s' (-> & U & E). split; [by intros satp [= <-]|].
    intros _. unfold getp in *. by rewrite E.
Qed.
(** A killed process does not get past the end of usertrap. *)
Lemma usertrap_end_killed me d s : pr_killed (getp (t_k s) me) <> 0 -> wlp (usertrap_end me d) (fun r _ => r = Away) s.
Proof.
  intros Hk. unfold usertrap_end. trap_step. apply wlp_on_k. unfold killed. trap_steps.
  destruct (Z.eqb_spec (pr_killed (getp (t_k s) me)) 0); [done|]. apply trap_exit_wlp.
Qed.

(** Interrupts do not clear the killed flag. *)
Lemma wakeup_killed me chan i (k : kstate) : wlp (wakeup me chan) (fun _ k' => pr_killed (getp k' i) = pr_killed (getp k i)) k.
Proof.
  eapply wlp_mono; [apply (wlp_for_z (fun _ k' => pr_killed (getp k' i) = pr_killed (getp k i))); [done|]|done].
  intros j k' _ E. cbv beta. destruct (bool_decide _); [by apply wlp_skip|]. apply wlp_bind, wlp_gets. destruct (_ && _); [|by apply wlp_skip].
  apply wlp_modify. rewrite <- E. unfold getp. cbn. rewrite !nth_lookup.
  destruct (decide (Z.to_nat j = Z.to_nat i)) as [Ej|N]; [|by rewrite list_lookup_insert_ne].
  rewrite Ej. destruct (decide (Z.to_nat i < length (k_proc k'))%nat); [by rewrite list_lookup_insert_eq|by rewrite list_insert_ge by lia].
Qed.
Lemma devintr_killed me i s : wlp (devintr me) (fun d s' => pr_killed (getp (t_k s') i) = pr_killed (getp (t_k s) i) /\
  (r_scause (t_hart s) = SCAUSE_EXTERNAL \/ r_scause (t_hart s) = SCAUSE_TIMER -> d <> 0)) s.
Proof.
  unfold devintr. trap_steps. destruct (Z.eqb_spec (r_scause (t_hart s)) SCAUSE_EXTERNAL).
  - assert (forall A (c : M dev A) s', pr_killed (getp (t_k s') i) = pr_killed (getp (t_k s) i) ->
      wlp (on_dev c) (fun _ s'' => pr_killed (getp (t_k s'') i) = pr_killed (getp (t_k s) i)) s') as Hdev.
    { intros A c s' E. apply wlp_zoom, wlp_any. intros a t. exact E. }
    eapply wlp_call; [by apply Hdev|]. cbv beta. intros irq s1 E1. eapply wlp_call.
    { instantiate (1 := fun _ s'' => pr_killed (getp (t_k s'') i) = pr_killed (getp (t_k s) i)).
      destruct (_ =? _); [by apply Hdev|]. destruct (_ =? _); [by apply Hdev|]. destruct (negb _); [by apply wlp_modify|by apply wlp_skip]. }
    cbv beta. intros ? s2 E2. eapply wlp_call; [instantiate (1 := fun _ s'' => pr_killed (getp (t_k s'') i) = pr_killed (getp (t_k s) i))|].
    { destruct (negb _); [by apply Hdev|by apply wlp_skip]. }
    cbv beta. intros ? s3 E3. apply wlp_ret. done.
  - destruct (Z.eqb_spec (r_scause (t_hart s)) SCAUSE_TIMER) as [Et|Nt]; [|apply wlp_ret; split; [done|intros [|]; done]].
    unfold clockintr. trap_steps. destruct (_ =? 0); trap_steps; [|done].
    eapply wlp_mono; [apply (wakeup_killed me (ch_addr ticks_addr) i)|]. cbv beta. intros ? k E. trap_steps. split; [exact E|done].
Qed.

(** C4.  The kernel goes back to user space only in good order, whatever trap
    it served and whatever the system calls of sysfile.c, and the other
    processes and harts while the process does not run, do.
    When usertrap returns to user space, the page table it returns on is the
    process's own, the processor will be in user mode with interrupts on
    after sret and takes no interrupt before, traps go to uservec, the program
    counter is the saved one, and the trapframe leads the next trap to
    usertrap on this process's kernel stack and hart; these last steps always
    end.  The process is not killed when usertrap returns without giving up
    the CPU, nor when it gives it up on a timer interrupt; a process that is
    killed when it makes a system call or is interrupted never reaches user
    space again, nor does one that is found killed at the end of usertrap.
    (While it waits for the CPU after a timer interrupt it may be killed, and
    returns to user space all the same: the flag is next looked at in its next
    trap.)  forkret prepares the return of a new process in the same way, but
    does not look at the killed flag.  A trap from supervisor mode never
    reaches this path: usertrap panics. *)
Theorem return_to_user other others (fsinit : M fs unit) me s :
  wlp (usertrap_run other others me) (own_return me) s /\
  wlp (usertrap other me) (good_return me) s /\
  (forall d, wlp (usertrap_end me d) (good_return me) s) /\
  (pr_killed (getp (t_k s) me) <> 0 -> r_scause (t_hart s) = 8 \/ r_scause (t_hart s) = SCAUSE_EXTERNAL \/ r_scause (t_hart s) = SCAUSE_TIMER ->
     wlp (usertrap_run other others me) (fun r _ => r = Away) s) /\
  (pr_killed (getp (t_k s) me) <> 0 -> forall d, wlp (usertrap_end me d) (fun r _ => r = Away) s) /\
  wp (usertrap_return me) (fun r s' => r = ToUser (MAKE_SATP (pr_pagetable (getp (t_k s') me))) /\ user_ready s' me) s /\
  wlp (forkret fsinit me) (fun r s' => r = ToUser (MAKE_SATP (pr_pagetable (getp (t_k s') me))) /\ user_ready s' me) s /\
  (has (r_sstatus (t_hart s)) SSTATUS_SPP = true -> usertrap_run other others me s = Panic "usertrap: not from user mode").
Proof.
  assert (forall s0, wp (usertrap_return me) (fun r s' => r = ToUser (MAKE_SATP (pr_pagetable (getp (t_k s') me))) /\ user_ready s' me) s0) as Hret.
  { intros s0. eapply wp_mono; [apply usertrap_return_wp|]. cbv beta. by intros r s' (-> & U & _). }
  assert (wlp (usertrap other me) (good_return me) s) as Hgood.
  { unfold usertrap. trap_steps. destruct (has _ _); [apply wlp_panic|]. trap_steps. destruct (_ =? 8).
    - trap_step. apply wlp_any. intros k s1. destruct (negb _); [eapply wlp_mono; [apply trap_exit_wlp|intros r s2; apply away_good]|].
      trap_steps. apply wlp_any. intros ? ?. trap_steps. destruct (is_state _ _); [apply usertrap_end_wlp|]. apply wlp_ret. by apply away_good.
    - trap_step. apply wlp_any. intros d s1. trap_step. apply wlp_any. intros ? s2. apply usertrap_end_wlp. }
  split_and!; [|done|intros; apply usertrap_end_wlp| |intros; by apply usertrap_end_killed|done| |].
  - unfold usertrap_run. eapply wlp_call; [exact Hgood|]. intros r s1 [Hr _]. destruct r; [by apply wlp_ret| |by apply wlp_ret].
    trap_step. apply wlp_any. intros ? s2. eapply wlp_mono; [apply wp_wlp, Hret|]. intros r s3 [-> U]. by intros satp [= <-].
  - intros Hk Hc. unfold usertrap_run. eapply wlp_call; [instantiate (1 := fun r _ => r = Away)|intros r s1 ->; by apply wlp_ret].
    unfold usertrap. trap_steps. destruct (has _ _); [apply wlp_panic|]. trap_steps.
    cbn [set_hart set_k t_hart w_stvec r_scause]. destruct (Z.eqb_spec (r_scause (t_hart s)) 8) as [E8|N8].
    + trap_step. apply wlp_on_k. unfold killed. trap_steps. destruct (Z.eqb_spec (pr_killed (getp (t_k s) me)) 0) as [E0|N0]; [done|].
      cbn [set_k set_hart t_k]. destruct (negb _) eqn:E; [apply trap_exit_wlp|]. apply negb_false_iff, Z.eqb_eq in E. done.
    + destruct Hc as [|Hc]; [done|]. eapply wlp_call; [apply (devintr_killed (Some me) me)|]. cbv beta. intros d s1 [E Hd].
      cbn [set_hart set_k t_hart w_stvec r_scause] in Hd. specialize (Hd Hc). destruct (Z.eqb_spec d 0); [done|]. trap_steps.
      apply usertrap_end_killed. rewrite E. exact Hk.
  - unfold forkret. trap_steps. apply wlp_any. intros ? s1. apply wp_wlp, Hret.
  - intros H. unfold usertrap_run. apply bind_panic. unfold usertrap.
    rewrite (bind_ok (csr r_sstatus) _ s (r_sstatus (t_hart s)) s) by done. by rewrite H.
Qed.

(** The table after a tick on hart [cpu]. *)
Definition ticked (me cpu : Z) (t : table) : table := if cpu =? 0 then a_wakeup (Some me) (ch_addr ticks_addr) t else t.

Lemma clockintr_wp me s t :
  tab (t_k s) t -> wp (clockintr (Some me)) (fun _ s' => tab (t_k s') (ticked me (r_tp (t_hart s)) t) /\
    t_ticks s' = (if r_tp (t_hart s) =? 0 then w32 (t_ticks s + 1) else t_ticks s) /\
    r_stimecmp (t_hart s') = w64 (r_time (t_hart s) + 1000000) /\ t_dev s' = t_dev s) s.
Proof.
  intros T. unfold clockintr, ticked. trap_wp_steps. destruct (r_tp (t_hart s) =? 0); trap_wp_steps; [|done].
  eapply wp_mono; [by apply (wakeup_tab (Some me) (ch_addr ticks_addr) (t_k s) t)|]. cbv beta. intros ? k Tk. by trap_wp_steps.
Qed.

Lemma timer_end_wp me s t :
  tab (t_k s) t -> in_table me -> r_killed (t_row t me) = 0 ->
  wp (usertrap_end me 2) (fun r s' => r = Yielded /\ tab (t_k s') (upd_row me (with_state RUNNABLE) t) /\
    t_ticks s' = t_ticks s /\ t_hart s' = t_hart s /\ t_dev s' = t_dev s) s.
Proof.
  intros T Hme Hk. unfold usertrap_end, killed. trap_wp_steps.
  assert (pr_killed (getp (t_k s) me) = 0) as ->.
  { assert (r_killed (row_of (getp (t_k s) me)) = 0) as H by (by rewrite (tab_row _ _ T)). exact H. }
  change (negb (0 =? 0)) with false. change (2 =? 2) with true. cbv iota. trap_wp_steps.
  eapply wp_mono; [by apply (yield_tab me (t_k s) t)|]. cbv beta. intros ? k Tk. by trap_wp_steps.
Qed.

Lemma ticked_killed me cpu t : r_killed (t_row (ticked me cpu t) me) = r_killed (t_row t me).
Proof. unfold ticked. destruct (cpu =? 0); [|done]. cbn. by rewrite bool_decide_true. Qed.

(** C26.  Timer interrupts preempt.  On a timer interrupt from user space
    usertrap ends with the process RUNNABLE and the CPU given to the
    scheduler, unless the process is killed; the next timer interrupt is
    programmed; on hart 0 the tick count has gone up by one (modulo 2^32) and
    exactly the processes that slept on it have become RUNNABLE; nothing else
    of the process table has changed. *)
Theorem timer_preempts other me s t :
  tab (t_k s) t -> in_table me -> r_killed (t_row t me) = 0 ->
  has (r_sstatus (t_hart s)) SSTATUS_SPP = false -> r_scause (t_hart s) = SCAUSE_TIMER ->
  wp (usertrap other me) (fun r s' => r = Yielded /\
    tab (t_k s') (upd_row me (with_state RUNNABLE) (ticked me (r_tp (t_hart s)) t)) /\
    t_ticks s' = (if r_tp (t_hart s) =? 0 then w32 (t_ticks s + 1) else t_ticks s) /\
    r_stimecmp (t_hart s') = w64 (r_time (t_hart s) + 1000000) /\ t_dev s' = t_dev s) s.
Proof.
  intros T Hme Hk Hspp Hsc. unfold usertrap. trap_wp_steps. rewrite Hspp. trap_wp_steps.
  cbn [set_hart set_k t_hart w_stvec r_scause]. rewrite Hsc. change (SCAUSE_TIMER =? 8) with false. cbv iota.
  trap_wp_step. unfold devintr. trap_wp_steps. cbn [set_hart set_k t_hart w_stvec r_scause]. rewrite Hsc.
  change (SCAUSE_TIMER =? SCAUSE_EXTERNAL) with false. change (SCAUSE_TIMER =? SCAUSE_TIMER) with true. cbv iota.
  eapply wp_call; [apply (clockintr_wp me _ t); destruct T; by constructor|]. cbv beta.
  intros ? s1 (T1 & E1 & E2 & E3). trap_wp_steps. change (2 =? 0) with false. cbv iota. trap_wp_steps.
  eapply wp_mono; [apply (timer_end_wp me s1 _ T1 Hme); by rewrite ticked_killed|]. cbv beta.
  intros r s' (-> & T2 & F1 & F2 & F3). rewrite F1, F2, F3, E1, E2, E3. done.
Qed.
End trap.

(** *** Hart 0: process 0 runs, process 1 sleeps until the next tick *)

#[local] Instance trap_procfs : ProcFs := {|
  fs_filedup _ := skip; fs_fileclose _ := skip; fs_idup _ := skip; fs_iput _ := skip; fs_namei _ := mret demo_ip
|}.
#[local] Instance trap_proclayout : ProcLayout := {| forkret_addr := KERNBASE; xstate_addr i := KERNBASE + 4096 + 4 * i |}.
#[local] Instance trap_execlayout : ExecLayout :=
  {| ustack_addr _ := KERNBASE + 64; path_addr _ := KERNBASE + 512; uarg_addr _ := KERNBASE + 640 |}.
#[local] Instance trap_devices : Devices :=
  {| dev := unit; plic_claim := mret 0; plic_complete _ := skip; uartintr := skip; virtio_disk_intr := skip |}.
#[local] Instance trap_layout : TrapLayout :=
  {| kernelvec_addr := KERNBASE; usertrap_addr := KERNBASE + 8; uservec_off := 0; ticks_addr := KERNBASE + 700; init_str_addr := KERNBASE + 720 |}.

Definition tick_procs : list proc :=
  <[0%nat := set_pstate RUNNING proc_zero]> (<[1%nat := set_chan (ch_addr ticks_addr) (set_pstate SLEEPING proc_zero)]>
    (replicate (Z.to_nat NPROC) proc_zero)).
Definition tick_state : tstate :=
  TState (KState km_zero demo_file tick_procs 3 (Some 0) []) (Hart 0 0 0x1000 SCAUSE_TIMER 0 0 0 5 0) tt 7 false [].

Lemma timer_preempts_witness :
  wp (usertrap (fun _ => None) 0) (fun r s' => r = Yielded /\ t_ticks s' = 8 /\
    pr_state (getp (t_k s') 0) = RUNNABLE /\ pr_state (getp (t_k s') 1) = RUNNABLE) tick_state.
Proof.
  eapply wp_mono.
  { apply (timer_preempts (fun _ => None) 0 tick_state (Table (fun i => row_of (getp (t_k tick_state) i)) 3 (Some 0)));
      [by constructor|done|reflexivity|reflexivity|reflexivity]. }
  cbv beta. intros r s' (-> & T & E & _). split_and!; [done|exact E| |].
  - exact (f_equal r_state (tab_row _ _ T 0 ltac:(done))).
  - exact (f_equal r_state (tab_row _ _ T 1 ltac:(done))).
Defined.

(** Process 0 is killed while it waits for the CPU, and returns all the same. *)
Definition wait_killed : M tstate unit := set_killed 0;; on_k (switch_to 0).
Definition returned_killed (r : res tstate trap_end) : bool :=
  match r with Ret (ToUser _) s => (pr_killed (getp (t_k s) 0) =? 1) | _ => false end.

Lemma runs_back : exists satp s', usertrap_run (fun _ => None) wait_killed 0 tick_state = Ret (ToUser satp) s' /\ pr_killed (getp (t_k s') 0) = 1.
Proof.
  assert (returned_killed (usertrap_run (fun _ => None) wait_killed 0 tick_state) = true) as E by (vm_compute; reflexivity).
  destruct (usertrap_run _ wait_killed 0 tick_state) as [[satp| |] s'| |]; try discriminate E.
  exists satp, s'. split; [reflexivity|]. by apply Z.eqb_eq.
Qed.
Definition doomed_state : tstate := final (set_killed 0) tick_state.
Lemma doomed : pr_killed (getp (t_k doomed_state) 0) <> 0 /\ r_scause (t_hart doomed_state) = SCAUSE_TIMER.
Proof. split; [vm_compute; discriminate|vm_compute; reflexivity]. Qed.

Lemma return_to_user_witness :
  (exists satp s', usertrap_run (fun _ => None) wait_killed 0 tick_state = Ret (ToUser satp) s' /\
     pr_killed (getp (t_k s') 0) = 1 /\ satp = MAKE_SATP (pr_pagetable (getp (t_k s') 0)) /\ user_ready s' 0) /\
  wlp (usertrap_run (fun _ => None) wait_killed 0) (fun r _ => r = Away) doomed_state.
Proof.
  split.
  - destruct runs_back as (satp & s' & E & Hk). exists satp, s'. split; [exact E|]. split; [exact Hk|].
    exact (wlp_ret_inv _ _ _ _ _ (proj1 (return_to_user (fun _ => None) wait_killed skip 0 tick_state)) E satp eq_refl).
  - destruct (return_to_user (fun _ => None) wait_killed skip 0 doomed_state) as (_ & _ & _ & H & _).
    destruct doomed as [Hk Hc]. exact (H Hk (or_intror (or_intror Hc))).
Defined.
