(* ===== verification/File.v ===== *)
(** * Open files (kernel/file.c, kernel/file.h, pipealloc of kernel/pipe.c)

    The table of open files on top of inodes, pipes and the console.  A
    [struct file *] is an index into the table ([NULLF] for 0), a
    [struct pipe *] the address of its page.  Calls that can sleep in a pipe
    or in the console answer with an [outcome] (file Pipe). *)
From stdpp Require Import base tactics numbers list strings gmap.
From Stdlib Require Import ZArith Lia.
From S2P Require Import Prelude Block Bio Log UserMem Fs Pipe Console.

Open Scope Z_scope.

Definition NFILE : Z := 100.
Definition NDEV : Z := 10.
Definition CONSOLE : Z := 1.
Definition NULLF : Z := -1.

Inductive file_type := FD_NONE | FD_PIPE | FD_INODE | FD_DEVICE.

(** struct file *)
Record file := File {
  fd_type : file_type; fd_ref : Z; fd_readable : bool; fd_writable : bool;
  fd_pipe : Z; fd_ip : Z; fd_off : Z; fd_major : Z
}.
Definition file_zero : file := File FD_NONE 0 false false 0 NULLIP 0 0.

Definition set_fref x f := File (fd_type f) x (fd_readable f) (fd_writable f) (fd_pipe f) (fd_ip f) (fd_off f) (fd_major f).
Definition set_ftype x f := File x (fd_ref f) (fd_readable f) (fd_writable f) (fd_pipe f) (fd_ip f) (fd_off f) (fd_major f).
Definition set_foff x f := File (fd_type f) (fd_ref f) (fd_readable f) (fd_writable f) (fd_pipe f) (fd_ip f) x (fd_major f).

(** kalloc, kfree and the contents of a page, for pipealloc. *)
Class PageAlloc (U : Type) := {
  page_alloc : U -> Z * U;
  page_free : Z -> U -> U;
  page_data : U -> Z -> list Z
}.

Record fdstate (U : Type) := FdState {
  d_fs : fstate U; d_file : list file; d_pipe : gmap Z pipe; d_cons : cons
}.
Arguments FdState {U}.
Arguments d_fs {U}.
Arguments d_file {U}.
Arguments d_pipe {U}.
Arguments d_cons {U}.

Section file.
Context {U : Type} `{UM : UserMem U} `{PA : PageAlloc U}.

Definition fsd {A} (c : M (fstate U) A) : M (fdstate U) A :=
  zoom d_fs (fun x s => FdState x (d_file s) (d_pipe s) (d_cons s)) c.
Definition on_user {A} (c : U -> A * U) : M (fdstate U) A :=
  fsd (fun s => let '(a, u) := c (f_user s) in Ret a (set_fuser u s)).

Definition getf (s : fdstate U) (f : Z) : file := nth (Z.to_nat f) (d_file s) file_zero.
Definition file_of (f : Z) : M (fdstate U) file := gets (fun s => getf s f).
Definition updf (f : Z) (g : file -> file) : M (fdstate U) unit :=
  modify (fun s => FdState (d_fs s) (<[Z.to_nat f := g (getf s f)]> (d_file s)) (d_pipe s) (d_cons s)).

(** An operation of Pipe on the pipe at [pi], or of Console. *)
Definition with_pipe {A} (pi : Z) (c : M (pipe * U) A) : M (fdstate U) A :=
  zoom (fun s => (default (pipe_init []) (d_pipe s !! pi), f_user (d_fs s)))
    (fun x s => FdState (set_fuser x.2 (d_fs s)) (d_file s) (<[pi := x.1]> (d_pipe s)) (d_cons s)) c.
Definition with_cons {A} (c : M (cons * U) A) : M (fdstate U) A :=
  zoom (fun s => (d_cons s, f_user (d_fs s)))
    (fun x s => FdState (set_fuser x.2 (d_fs s)) (d_file s) (d_pipe s) x.1) c.

(** The loop of filealloc. *)
Fixpoint find_file (l : list file) (i : Z) : Z :=
  match l with
  | [] => NULLF
  | f :: l => if fd_ref f =? 0 then i else find_file l (i + 1)
  end.
Definition filealloc : M (fdstate U) Z :=
  f ← gets (fun s => find_file (d_file s) 0);
  if f =? NULLF then mret NULLF else updf f (set_fref 1);; mret f.

Definition filedup (f : Z) : M (fdstate U) Z :=
  x ← file_of f;
  if fd_ref x <? 1 then panic "filedup" else updf f (set_fref (fd_ref x + 1));; mret f.

Definition fileclose (f : Z) : M (fdstate U) unit :=
  ff ← file_of f;
  if fd_ref ff <? 1 then panic "fileclose"
  else if 0 <? fd_ref ff - 1 then updf f (set_fref (fd_ref ff - 1))
  else
    updf f (fun x => set_ftype FD_NONE (set_fref 0 x));;
    match fd_type ff with
    | FD_PIPE =>
        free ← with_pipe (fd_pipe ff) (fun s => let '(p, b) := pipeclose (if fd_writable ff then 1 else 0) s.1 in Ret b (p, s.2));
        when (free : bool) do (
          on_user (fun u => ((), page_free (fd_pipe ff) u));;
          modify (fun s => FdState (d_fs s) (d_file s) (delete (fd_pipe ff) (d_pipe s)) (d_cons s)))
    | FD_INODE | FD_DEVICE => fsd (lg begin_op;; iput (fd_ip ff);; lg end_op)
    | FD_NONE => skip
    end.

(** struct stat in memory: dev, ino, type, nlink, four bytes of padding
    ([pad], whatever the kernel stack held), size. *)
Definition stat_bytes (st : stat) (pad : list Z) : list Z :=
  le_bytes 4 (w32 (st_dev st)) ++ le_bytes 4 (st_ino st) ++ le_bytes 2 (w16 (st_type st)) ++
  le_bytes 2 (w16 (st_nlink st)) ++ take 4 (pad ++ replicate 4 0) ++ le_bytes 8 (st_size st).

Definition filestat (pad : list Z) (f addr : Z) : M (fdstate U) Z :=
  x ← file_of f;
  match fd_type x with
  | FD_INODE | FD_DEVICE =>
      fsd (ilock (fd_ip x));;
      st ← fsd (stati (fd_ip x));
      fsd (iunlock (fd_ip x));;
      ok ← on_user (copyout_user addr (stat_bytes st pad));
      mret (if (ok : bool) then 0 else -1)
  | _ => mret (-1)
  end.

(** devsw[]: only the console has entries. *)
Definition has_dev (major : Z) : bool := (0 <=? major) && (major <? NDEV) && (major =? CONSOLE).

Definition fileread (killed : bool) (f addr n : Z) : M (fdstate U) outcome :=
  x ← file_of f;
  if negb (fd_readable x) then mret (Done (-1))
  else match fd_type x with
  | FD_PIPE => with_pipe (fd_pipe x) (piperead killed addr n)
  | FD_DEVICE =>
      if negb (has_dev (fd_major x)) then mret (Done (-1))
      else
        r ← with_cons (consoleread (Z.to_nat n) killed n n addr);
        mret (match r with Returns r => Done r | Sleeps n' _ => Blocked (n - n') end)
  | FD_INODE =>
      fsd (ilock (fd_ip x));;
      r ← fsd (readi (fd_ip x) (User addr) (fd_off x) (w32 n));
      (when 0 <? r.1 do updf f (fun x => set_foff (w32 (fd_off x + r.1)) x));;
      fsd (iunlock (fd_ip x));;
      mret (Done r.1)
  | FD_NONE => panic "fileread"
  end.

(** max of filewrite: what fits a transaction. *)
Definition WRITE_MAX : Z := (MAXOPBLOCKS - 1 - 1 - 2) / 2 * BSIZE.

Fixpoint filewrite_loop (fuel : nat) (f addr n i : Z) : M (fdstate U) Z :=
  if negb (i <? n) then mret i
  else match fuel with
  | O => nofuel
  | S fuel =>
      let n1 := if WRITE_MAX <? n - i then WRITE_MAX else n - i in
      x ← file_of f;
      fsd (lg begin_op);;
      fsd (ilock (fd_ip x));;
      r ← fsd (writei (fd_ip x) (User (addr + i)) [] (fd_off x) n1);
      (when 0 <? r do updf f (fun x => set_foff (w32 (fd_off x + r)) x));;
      fsd (iunlock (fd_ip x));;
      fsd (lg end_op);;
      if negb (r =? n1) then mret i else filewrite_loop fuel f addr n (i + r)
  end.

Definition filewrite (killed : bool) (f addr n : Z) : M (fdstate U) outcome :=
  x ← file_of f;
  if negb (fd_writable x) then mret (Done (-1))
  else match fd_type x with
  | FD_PIPE => with_pipe (fd_pipe x) (pipewrite (rw_steps n) killed addr n 0)
  | FD_DEVICE =>
      if negb (has_dev (fd_major x)) then mret (Done (-1))
      else r ← with_cons (consolewrite (rw_steps n) addr n 0); mret (Done r)
  | FD_INODE =>
      i ← filewrite_loop (S (Z.to_nat (n / WRITE_MAX))) f addr n 0;
      mret (Done (if i =? n then n else -1))
  | FD_NONE => panic "filewrite"
  end.

(** [*f0] and [*f1] when it succeeds. *)
Definition pipealloc : M (fdstate U) (option (Z * Z)) :=
  f0 ← filealloc;
  if f0 =? NULLF then mret None
  else
    f1 ← filealloc;
    if f1 =? NULLF then fileclose f0;; mret None
    else
      pi ← on_user page_alloc;
      if pi =? 0 then fileclose f0;; fileclose f1;; mret None
      else
        modify (fun s => FdState (d_fs s) (d_file s) (<[pi := pipe_init (page_data (f_user (d_fs s)) pi)]> (d_pipe s)) (d_cons s));;
        updf f0 (fun x => File FD_PIPE (fd_ref x) true false pi (fd_ip x) (fd_off x) (fd_major x));;
        updf f1 (fun x => File FD_PIPE (fd_ref x) false true pi (fd_ip x) (fd_off x) (fd_major x));;
        mret (Some (f0, f1)).
End file.
