(* ===== verification/Sysfile.v ===== *)
(** * File system calls (kernel/sysfile.c)

    The system calls on files, for the calling process's table of open files
    and current directory.  The arguments are those that argint and argaddr
    deliver; a path is what argstr copied, or [None] when that failed. *)
From stdpp Require Import base tactics numbers list strings gmap.
From Stdlib Require Import ZArith Lia.
From S2P Require Import Prelude Block Bio Log UserMem Fs Pipe Console File.

Open Scope Z_scope.

Definition NOFILE : Z := 16.
Definition O_RDONLY : Z := 0x000.
Definition O_WRONLY : Z := 0x001.
Definition O_RDWR : Z := 0x002.
Definition O_CREATE : Z := 0x200.
Definition O_TRUNC : Z := 0x400.

Record fproc (U : Type) := FProc { y_fd : fdstate U; y_ofile : list Z; y_cwd : Z }.
Arguments FProc {U}.
Arguments y_fd {U}.
Arguments y_ofile {U}.
Arguments y_cwd {U}.

Definition set_imajor x y i := Inode (i_dev i) (i_inum i) (i_ref i) (i_lock i) (i_valid i) (i_type i) x y (i_nlink i) (i_size i) (i_addrs i).

Section sysfile.
Context {U : Type} `{UM : UserMem U} `{PA : PageAlloc U}.

Definition fd {A} (c : M (fdstate U) A) : M (fproc U) A :=
  zoom y_fd (fun x s => FProc x (y_ofile s) (y_cwd s)) c.
Definition fsy {A} (c : M (fstate U) A) : M (fproc U) A := fd (fsd c).
Definition set_fd (i f : Z) : M (fproc U) unit :=
  modify (fun s => FProc (y_fd s) (<[Z.to_nat i := f]> (y_ofile s)) (y_cwd s)).

(** argfd: the file of descriptor [i]. *)
Definition argfd (i : Z) : M (fproc U) (option Z) :=
  l ← gets y_ofile;
  if (i <? 0) || (NOFILE <=? i) || (nth (Z.to_nat i) l NULLF =? NULLF) then mret None
  else mret (Some (nth (Z.to_nat i) l NULLF)).

Fixpoint find_fd (l : list Z) (i : Z) : Z :=
  match l with [] => -1 | f :: l => if f =? NULLF then i else find_fd l (i + 1) end.
Definition fdalloc (f : Z) : M (fproc U) Z :=
  i ← gets (fun s => find_fd (y_ofile s) 0);
  if i <? 0 then mret (-1) else set_fd i f;; mret i.

Definition sys_dup (i : Z) : M (fproc U) Z :=
  r ← argfd i;
  match r with
  | None => mret (-1)
  | Some f => i ← fdalloc f; if i <? 0 then mret (-1) else fd (filedup f);; mret i
  end.

Definition sys_read (killed : bool) (i p n : Z) : M (fproc U) outcome :=
  r ← argfd i; match r with None => mret (Done (-1)) | Some f => fd (fileread killed f p n) end.
Definition sys_write (killed : bool) (i p n : Z) : M (fproc U) outcome :=
  r ← argfd i; match r with None => mret (Done (-1)) | Some f => fd (filewrite killed f p n) end.
Definition sys_close (i : Z) : M (fproc U) Z :=
  r ← argfd i; match r with None => mret (-1) | Some f => set_fd i NULLF;; fd (fileclose f);; mret 0 end.
Definition sys_fstat (pad : list Z) (i st : Z) : M (fproc U) Z :=
  r ← argfd i; match r with None => mret (-1) | Some f => fd (filestat pad f st) end.

Definition name_buf : list Z := replicate (Z.to_nat DIRSIZ) 0.

Definition sys_link (old new : option (list Z)) : M (fproc U) Z :=
  match old, new with
  | Some old, Some new =>
      cwd ← gets y_cwd;
      fsy (lg begin_op;;
        ip ← namei cwd old;
        if ip =? NULLIP then lg end_op;; mret (-1)
        else
          ilock ip;;
          i ← inode_of ip;
          if i_type i =? T_DIR then iunlockput ip;; lg end_op;; mret (-1)
          else
            updi ip (fun i => set_inlink (s16 (i_nlink i + 1)) i);;
            iupdate ip;;
            iunlock ip;;
            let bad :=
              ilock ip;;
              updi ip (fun i => set_inlink (s16 (i_nlink i - 1)) i);;
              iupdate ip;;
              iunlockput ip;;
              lg end_op;;
              mret (-1) in
            r ← nameiparent cwd new name_buf;
            let '(dp, name) := r in
            if dp =? NULLIP then bad
            else
              ilock dp;;
              d ← inode_of dp; i ← inode_of ip;
              ok ← (if negb (i_dev d =? i_dev i) then mret false
                    else r ← dirlink dp name (i_inum i); mret (negb (r <? 0)));
              if negb ok then iunlockput dp;; bad
              else iunlockput dp;; iput ip;; lg end_op;; mret 0)
  | _, _ => mret (-1)
  end.

Fixpoint isdirempty_loop (fuel : nat) (dp off : Z) : M (fstate U) bool :=
  i ← inode_of dp;
  if negb (off <? i_size i) then mret true
  else match fuel with
  | O => nofuel
  | S fuel =>
      r ← readi dp Kernel off DIRENT_SIZE;
      let '(n, de) := r in
      if negb (n =? DIRENT_SIZE) then panic "isdirempty: readi"
      else if negb (u16_at de 0 =? 0) then mret false
      else isdirempty_loop fuel dp (off + DIRENT_SIZE)
  end.
Definition isdirempty (dp : Z) : M (fstate U) bool :=
  i ← inode_of dp; isdirempty_loop (dir_fuel (i_size i)) dp (2 * DIRENT_SIZE).

Definition DOT : list Z := [46].
Definition DOTDOT : list Z := [46; 46].

Definition sys_unlink (path : option (list Z)) : M (fproc U) Z :=
  match path with
  | None => mret (-1)
  | Some path =>
      cwd ← gets y_cwd;
      fsy (lg begin_op;;
        r ← nameiparent cwd path name_buf;
        let '(dp, name) := r in
        if dp =? NULLIP then lg end_op;; mret (-1)
        else
          ilock dp;;
          let bad := iunlockput dp;; lg end_op;; mret (-1) in
          if (namecmp name DOT =? 0) || (namecmp name DOTDOT =? 0) then bad
          else
            r ← dirlookup dp name;
            let '(ip, off) := r in
            if ip =? NULLIP then bad
            else
              ilock ip;;
              i ← inode_of ip;
              if i_nlink i <? 1 then panic "unlink: nlink < 1"
              else
                nonempty ← (if i_type i =? T_DIR then e ← isdirempty ip; mret (negb e) else mret false);
                if nonempty : bool then iunlockput ip;; bad
                else
                  n ← writei dp Kernel (replicate (Z.to_nat DIRENT_SIZE) 0) off DIRENT_SIZE;
                  if negb (n =? DIRENT_SIZE) then panic "unlink: writei"
                  else
                    (when i_type i =? T_DIR do (
                       updi dp (fun d => set_inlink (s16 (i_nlink d - 1)) d);; iupdate dp));;
                    iunlockput dp;;
                    updi ip (fun i => set_inlink (s16 (i_nlink i - 1)) i);;
                    iupdate ip;;
                    iunlockput ip;;
                    lg end_op;;
                    mret 0)
  end.

(** The new inode, locked, or NULLIP. *)
Definition create (cwd : Z) (path : list Z) (type major minor : Z) : M (fstate U) Z :=
  r ← nameiparent cwd path name_buf;
  let '(dp, name) := r in
  if dp =? NULLIP then mret NULLIP
  else
    ilock dp;;
    r ← dirlookup dp name;
    let '(ip, _) := r in
    if negb (ip =? NULLIP) then
      iunlockput dp;;
      ilock ip;;
      i ← inode_of ip;
      if (type =? T_FILE) && ((i_type i =? T_FILE) || (i_type i =? T_DEVICE)) then mret ip
      else iunlockput ip;; mret NULLIP
    else
      d ← inode_of dp;
      ip ← ialloc (i_dev d) type;
      if ip =? NULLIP then iunlockput dp;; mret NULLIP
      else
        ilock ip;;
        updi ip (fun i => set_inlink 1 (set_imajor major minor i));;
        iupdate ip;;
        i ← inode_of ip; d ← inode_of dp;
        let fail := updi ip (set_inlink 0);; iupdate ip;; iunlockput ip;; iunlockput dp;; mret NULLIP in
        ok ← (if type =? T_DIR then
                r ← dirlink ip DOT (i_inum i);
                if r <? 0 then mret false
                else r ← dirlink ip DOTDOT (i_inum d); mret (negb (r <? 0))
              else mret true);
        if negb ok then fail
        else
          r ← dirlink dp name (i_inum i);
          if r <? 0 then fail
          else
            (when type =? T_DIR do (updi dp (fun d => set_inlink (s16 (i_nlink d + 1)) d);; iupdate dp));;
            iunlockput dp;;
            mret ip.

(** The end of sys_open, with the inode locked. *)
Definition open_inode (ip omode : Z) : M (fproc U) Z :=
  i ← fsy (inode_of ip);
  if (i_type i =? T_DEVICE) && ((i_major i <? 0) || (NDEV <=? i_major i)) then
    fsy (iunlockput ip;; lg end_op);; mret (-1)
  else
    f ← fd filealloc;
    i' ← (if f =? NULLF then mret (-1) else fdalloc f);
    if i' <? 0 then
      (when negb (f =? NULLF) do fd (fileclose f));;
      fsy (iunlockput ip;; lg end_op);; mret (-1)
    else
      let has m := negb (Z.land omode m =? 0) in
      fd (updf f (fun x =>
        let x := if i_type i =? T_DEVICE
                 then File FD_DEVICE (fd_ref x) (fd_readable x) (fd_writable x) (fd_pipe x) (fd_ip x) (fd_off x) (i_major i)
                 else File FD_INODE (fd_ref x) (fd_readable x) (fd_writable x) (fd_pipe x) (fd_ip x) 0 (fd_major x) in
        File (fd_type x) (fd_ref x) (negb (has O_WRONLY)) (has O_WRONLY || has O_RDWR) (fd_pipe x) ip (fd_off x) (fd_major x)));;
      (when has O_TRUNC && (i_type i =? T_FILE) do fsy (itrunc ip));;
      fsy (iunlock ip);;
      fsy (lg end_op);;
      mret i'.

Definition sys_open (path : option (list Z)) (omode : Z) : M (fproc U) Z :=
  match path with
  | None => mret (-1)
  | Some path =>
      cwd ← gets y_cwd;
      fsy (lg begin_op);;
      if negb (Z.land omode O_CREATE =? 0) then
        ip ← fsy (create cwd path T_FILE 0 0);
        if ip =? NULLIP then fsy (lg end_op);; mret (-1) else open_inode ip omode
      else
        ip ← fsy (namei cwd path);
        if ip =? NULLIP then fsy (lg end_op);; mret (-1)
        else
          fsy (ilock ip);;
          i ← fsy (inode_of ip);
          if (i_type i =? T_DIR) && negb (omode =? O_RDONLY) then fsy (iunlockput ip;; lg end_op);; mret (-1)
          else open_inode ip omode
  end.

(** sys_mkdir and sys_mknod. *)
Definition sys_create (path : option (list Z)) (type major minor : Z) : M (fproc U) Z :=
  cwd ← gets y_cwd;
  fsy (lg begin_op;;
    ip ← (match path with None => mret NULLIP | Some path => create cwd path type major minor end);
    if ip =? NULLIP then lg end_op;; mret (-1)
    else iunlockput ip;; lg end_op;; mret 0).
Definition sys_mkdir (path : option (list Z)) : M (fproc U) Z := sys_create path T_DIR 0 0.
Definition sys_mknod (path : option (list Z)) (major minor : Z) : M (fproc U) Z :=
  sys_create path T_DEVICE (s16 major) (s16 minor).

Definition sys_chdir (path : option (list Z)) : M (fproc U) Z :=
  cwd ← gets y_cwd;
  fsy (lg begin_op);;
  ip ← (match path with None => mret NULLIP | Some path => fsy (namei cwd path) end);
  if ip =? NULLIP then fsy (lg end_op);; mret (-1)
  else
    fsy (ilock ip);;
    i ← fsy (inode_of ip);
    if negb (i_type i =? T_DIR) then fsy (iunlockput ip;; lg end_op);; mret (-1)
    else
      fsy (iunlock ip;; iput cwd;; lg end_op);;
      modify (fun s => FProc (y_fd s) (y_ofile s) ip);;
      mret 0.

Definition sys_pipe (fdarray : Z) : M (fproc U) Z :=
  r ← fd pipealloc;
  match r with
  | None => mret (-1)
  | Some (rf, wf) =>
      fd0 ← fdalloc rf;
      fd1 ← (if fd0 <? 0 then mret (-1) else fdalloc wf);
      if fd1 <? 0 then
        (when 0 <=? fd0 do set_fd fd0 NULLF);;
        fd (fileclose rf);; fd (fileclose wf);; mret (-1)
      else
        ok ← fd (on_user (copyout_user fdarray (le_bytes 4 fd0)));
        ok ← (if negb ok then mret false else fd (on_user (copyout_user (w64 (fdarray + 4)) (le_bytes 4 fd1))));
        if negb ok then
          set_fd fd0 NULLF;; set_fd fd1 NULLF;;
          fd (fileclose rf);; fd (fileclose wf);; mret (-1)
        else mret 0
  end.
End sysfile.
