(* ===== verification/FileTheorems.v ===== *)
(** * Reference counts of open files *)
From stdpp Require Import base tactics numbers list strings gmap.
From Stdlib Require Import ZArith Lia.
From S2P Require Import Prelude Block Bio Log LogInv UserMem Fs Pipe Console File Sysfile.

Open Scope Z_scope.

Definition in_files (f : Z) : Prop := 0 <= f < NFILE.

(** How often [f] occurs in a table of open files. *)
Fixpoint occurs (f : Z) (l : list Z) : Z :=
  match l with [] => 0 | x :: l => (if x =? f then 1 else 0) + occurs f l end.

Lemma occurs_nonneg f l : 0 <= occurs f l.
Proof. induction l as [|x l IH]; cbn; [done|]. destruct (x =? f); lia. Qed.

Lemma occurs_insert f l i x y :
  l !! i = Some y -> occurs f (<[i := x]> l) = occurs f l - (if y =? f then 1 else 0) + (if x =? f then 1 else 0).
Proof.
  revert i. induction l as [|z l IH]; intros [|i] H; [done|done| |].
  - injection H as ->. change (<[0%nat := x]> (y :: l)) with (x :: l). cbn [occurs]. lia.
  - change (<[S i := x]> (z :: l)) with (z :: <[i := x]> l). cbn [occurs]. rewrite (IH i H). lia.
Qed.

Lemma occurs_in f l i : l !! i = Some f -> 1 <= occurs f l.
Proof.
  revert i. induction l as [|z l IH]; intros [|i] H; [done|done| |]; cbn in *.
  - injection H as ->. rewrite Z.eqb_refl. pose proof (occurs_nonneg f l). lia.
  - specialize (IH i H). destruct (z =? f); lia.
Qed.

Lemma occurs_none f l : (forall i, l !! i <> Some f) -> occurs f l = 0.
Proof.
  induction l as [|z l IH]; intros H; cbn [occurs]; [done|]. rewrite IH by (intros i; apply (H (S i))).
  destruct (Z.eqb_spec z f) as [->|]; [by destruct (H 0%nat)|done].
Qed.

Lemma find_file_spec l i0 :
  let f := find_file l i0 in
  0 <= i0 -> f = NULLF \/ i0 <= f < i0 + Z.of_nat (length l) /\ fd_ref (nth (Z.to_nat (f - i0)) l file_zero) = 0.
Proof.
  revert i0. induction l as [|x l IH]; intros i0 f H0; unfold f; cbn [find_file length]; [by left|].
  destruct (Z.eqb_spec (fd_ref x) 0) as [E|N].
  - right. rewrite Z.sub_diag. split; [lia|done].
  - destruct (IH (i0 + 1) ltac:(lia)) as [E|[H1 H2]]; [by left|right]. split; [lia|].
    by replace (Z.to_nat (find_file l (i0 + 1) - i0)) with (S (Z.to_nat (find_file l (i0 + 1) - (i0 + 1)))) by lia.
Qed.

Lemma find_fd_spec l i0 :
  let i := find_fd l i0 in
  0 <= i0 -> i = -1 \/ i0 <= i < i0 + Z.of_nat (length l) /\ l !! Z.to_nat (i - i0) = Some NULLF.
Proof.
  revert i0. induction l as [|x l IH]; intros i0 i H0; unfold i; cbn [find_fd length]; [by left|].
  destruct (Z.eqb_spec x NULLF) as [->|N].
  - right. rewrite Z.sub_diag. split; [lia|done].
  - destruct (IH (i0 + 1) ltac:(lia)) as [E|[H1 H2]]; [by left|right]. split; [lia|].
    by replace (Z.to_nat (find_fd l (i0 + 1) - i0)) with (S (Z.to_nat (find_fd l (i0 + 1) - (i0 + 1)))) by lia.
Qed.

Section spec.
Context {U : Type} `{UM : UserMem U} `{PA : PageAlloc U}.
Implicit Types s : fdstate U.
Implicit Types r : Z -> Z.

Definition add_ref (f d : Z) r : Z -> Z := fun g => if decide (g = f) then r g + d else r g.

(** The reference counts in the file table are [r]. *)
Record fok s r : Prop := {
  fo_len : length (d_file s) = Z.to_nat NFILE;
  fo_ref : forall f, in_files f -> fd_ref (getf s f) = r f
}.

Lemma fok_ext s r r' : fok s r -> (forall f, in_files f -> r f = r' f) -> fok s r'.
Proof. intros [F1 F2] E. constructor; [done|]. intros f Hf. by rewrite F2, E. Qed.

Lemma getf_upd s f x g :
  length (d_file s) = Z.to_nat NFILE -> in_files f -> in_files g ->
  getf (FdState (d_fs s) (<[Z.to_nat f := x]> (d_file s)) (d_pipe s) (d_cons s)) g = if decide (g = f) then x else getf s g.
Proof.
  intros Hl [Hf Hf'] [Hg Hg']. unfold getf. cbn. rewrite !nth_lookup, lookup_insert_Z by (rewrite ?Hl; lia).
  destruct (decide (f = g)) as [->|]; [by rewrite decide_True|by rewrite decide_False].
Qed.

Lemma updf_fok s r f g d :
  fok s r -> in_files f -> fd_ref (g (getf s f)) = fd_ref (getf s f) + d -> wlp (updf f g) (fun _ s' => fok s' (add_ref f d r)) s.
Proof.
  intros [F1 F2] Hf E. apply wlp_modify. constructor; [cbn; by rewrite length_insert|]. intros h Hh. rewrite getf_upd by done.
  unfold add_ref. destruct (decide (h = f)) as [->|]; [by rewrite E, F2|by apply F2].
Qed.

(** Calls that do not touch the file table. *)
Lemma fsd_fok {A} (c : M (fstate U) A) s r : fok s r -> wlp (fsd c) (fun _ s' => fok s' r) s.
Proof. intros [F1 F2]. apply wlp_zoom, wlp_any. by constructor. Qed.
Lemma with_pipe_fok {A} pi (c : M (pipe * U) A) s r : fok s r -> wlp (with_pipe pi c) (fun _ s' => fok s' r) s.
Proof. intros [F1 F2]. apply wlp_zoom, wlp_any. by constructor. Qed.
Lemma with_cons_fok {A} (c : M (cons * U) A) s r : fok s r -> wlp (with_cons c) (fun _ s' => fok s' r) s.
Proof. intros [F1 F2]. apply wlp_zoom, wlp_any. by constructor. Qed.
Lemma modify_fok g s r : fok s r -> (forall x, d_file (g x) = d_file x) -> wlp (modify g) (fun _ s' => fok s' r) s.
Proof. intros [F1 F2] E. apply wlp_modify. constructor; unfold getf; rewrite E; done. Qed.

Lemma filealloc_fok s r :
  fok s r -> wlp filealloc (fun f s' => f = NULLF /\ fok s' r \/ f <> NULLF /\ in_files f /\ r f = 0 /\ fok s' (add_ref f 1 r)) s.
Proof.
  intros F. unfold filealloc. apply wlp_bind, wlp_gets. pose proof (find_file_spec (d_file s) 0 ltac:(lia)) as H.
  rewrite (fo_len _ _ F) in H. set (f := find_file (d_file s) 0) in *. destruct (Z.eqb_spec f NULLF) as [E|N]; [wlp_steps; by left|].
  destruct H as [|[H1 H2]]; [done|]. rewrite Z.sub_0_r in H2. assert (in_files f) as Hf by (unfold in_files, NFILE in *; lia).
  assert (r f = 0) as Er by (by rewrite <- (fo_ref _ _ F f Hf)).
  eapply wlp_call; [apply (updf_fok s r f (set_fref 1) 1 F Hf)|].
  - rewrite (fo_ref _ _ F f Hf), Er. done.
  - cbv beta. intros ? s' F'. wlp_steps. right. done.
Qed.

Lemma filedup_fok s r f : fok s r -> in_files f -> wlp (filedup f) (fun g s' => g = f /\ fok s' (add_ref f 1 r)) s.
Proof.
  intros F Hf. unfold filedup. apply wlp_bind, wlp_gets. destruct (_ <? 1); [done|].
  eapply wlp_call; [apply (updf_fok s r f _ 1 F Hf); done|]. cbv beta. intros ? s' F'. by wlp_steps.
Qed.

Lemma fileclose_fok s r f : fok s r -> in_files f -> wlp (fileclose f) (fun _ s' => 1 <= r f /\ fok s' (add_ref f (-1) r)) s.
Proof.
  intros F Hf. unfold fileclose. apply wlp_bind, wlp_gets. rewrite (fo_ref _ _ F f Hf). destruct (Z.ltb_spec (r f) 1); [done|].
  destruct (Z.ltb_spec 0 (r f - 1)).
  { eapply wlp_mono; [apply (updf_fok s r f _ (-1) F Hf)|]; [cbn; rewrite (fo_ref _ _ F f Hf); lia|]. cbv beta. intros ? s' F'. split; [lia|done]. }
  eapply wlp_call; [apply (updf_fok s r f _ (-1) F Hf)|]; [cbn; rewrite (fo_ref _ _ F f Hf); lia|]. cbv beta. intros ? s1 F1.
  assert (forall s', fok s' (add_ref f (-1) r) -> 1 <= r f /\ fok s' (add_ref f (-1) r)) as Hend by (intros; split; [lia|done]).
  destruct (fd_type (getf s f)).
  - by apply wlp_skip, Hend.
  - eapply wlp_call; [by apply with_pipe_fok|]. cbv beta. intros free s2 F2. destruct free; [|by apply wlp_skip, Hend].
    eapply wlp_call; [by apply fsd_fok|]. cbv beta. intros ? s3 F3. eapply wlp_mono; [by apply modify_fok|]. intros ? s4 F4. by apply Hend.
  - eapply wlp_mono; [by apply fsd_fok|]. intros ? s2 F2. by apply Hend.
  - eapply wlp_mono; [by apply fsd_fok|]. intros ? s2 F2. by apply Hend.
Qed.

Lemma add_ref_cancel f r g : add_ref f (-1) (add_ref f 1 r) g = r g.
Proof. unfold add_ref. destruct (decide (g = f)); lia. Qed.

Lemma pipealloc_fok s r :
  fok s r -> wlp pipealloc (fun o s' => match o with
    | None => fok s' r
    | Some (f0, f1) => in_files f0 /\ in_files f1 /\ fok s' (add_ref f1 1 (add_ref f0 1 r))
    end) s.
Proof.
  intros F. unfold pipealloc. eapply wlp_call; [by apply filealloc_fok|]. intros f0 s1 [[-> F1]|(N0 & H0 & _ & F1)]; [by wlp_steps|].
  rewrite (proj2 (Z.eqb_neq f0 NULLF)) by done.
  eapply wlp_call; [by apply filealloc_fok|]. intros f1 s2 [[-> F2]|(N1 & H1 & _ & F2)].
  { cbn [Z.eqb]. eapply wlp_call; [by apply (fileclose_fok _ _ f0 F2)|]. intros ? s3 [_ F3]. wlp_steps.
    eapply fok_ext; [exact F3|]. intros g _. apply add_ref_cancel. }
  rewrite (proj2 (Z.eqb_neq f1 NULLF)) by done. eapply wlp_call; [by apply fsd_fok|]. cbv beta. intros pi s3 F3. destruct (pi =? 0).
  { eapply wlp_call; [by apply (fileclose_fok _ _ f0 F3)|]. intros ? s4 [_ F4]. eapply wlp_call; [by apply (fileclose_fok _ _ f1 F4)|].
    intros ? s5 [_ F5]. wlp_steps. eapply fok_ext; [exact F5|]. intros g _. unfold add_ref. repeat destruct (decide _); lia. }
  eapply wlp_call; [by apply modify_fok|]. cbv beta. intros ? s4 F4.
  eapply wlp_call; [apply (updf_fok _ _ f0 _ 0 F4 H0); cbn; lia|]. cbv beta. intros ? s5 F5.
  eapply wlp_call; [apply (updf_fok _ _ f1 _ 0 F5 H1); cbn; lia|]. cbv beta. intros ? s6 F6. wlp_steps. split; [done|]. split; [done|].
  eapply fok_ext; [exact F6|]. intros g _. unfold add_ref. repeat destruct (decide _); lia.
Qed.

End spec.

(** ** System calls *)

Section calls.
Context {U : Type} `{UM : UserMem U} `{PA : PageAlloc U}.
Implicit Types s : fproc U.

(** Every file's count is the number of descriptors of this process that
    refer to it and [other f] references from elsewhere. *)
Record refs_ok (other : Z -> Z) (s : fproc U) : Prop := {
  ro_fd : fok (y_fd s) (fun f => occurs f (y_ofile s) + other f);
  ro_len : length (y_ofile s) = Z.to_nat NOFILE;
  ro_valid : forall i f, y_ofile s !! i = Some f -> f = NULLF \/ in_files f
}.

(** The state of the file table together with the descriptors. *)
Definition fdok (r : Z -> Z) (l : list Z) (s : fproc U) : Prop := fok (y_fd s) r /\ y_ofile s = l.

Lemma fd_ok {A} (c : M (fdstate U) A) r l (Q : A -> fdstate U -> Prop) (s : fproc U) :
  fdok r l s -> (forall x, fok x r -> wlp c Q x) -> wlp (fd c) (fun a s' => Q a (y_fd s') /\ y_ofile s' = l) s.
Proof. intros [F E] H. apply wlp_zoom. eapply wlp_mono; [by apply H|]. intros a x HQ. by split. Qed.

Lemma fsy_ok {A} (c : M (fstate U) A) r l (s : fproc U) : fdok r l s -> wlp (fsy c) (fun _ s' => fdok r l s') s.
Proof. intros H. eapply wlp_mono; [apply (fd_ok _ r l (fun _ x => fok x r) s H); intros x; apply fsd_fok|]. done. Qed.

Lemma argfd_ok i r l (s : fproc U) :
  fdok r l s -> length l = Z.to_nat NOFILE ->
  wlp (argfd i) (fun o s' => fdok r l s' /\ match o with Some f => 0 <= i < NOFILE /\ l !! Z.to_nat i = Some f /\ f <> NULLF | None => True end) s.
Proof.
  intros H Hl. pose proof H as [_ E]. unfold argfd. apply wlp_bind, wlp_gets. rewrite E.
  destruct (Z.ltb_spec i 0); cbn [orb]; [by wlp_steps|]. destruct (Z.leb_spec NOFILE i); cbn [orb]; [by wlp_steps|].
  destruct (Z.eqb_spec (nth (Z.to_nat i) l NULLF) NULLF) as [|N]; wlp_steps; [done|]. split; [done|]. split; [lia|]. split; [|done].
  rewrite nth_lookup. destruct (lookup_lt_is_Some_2 l (Z.to_nat i)) as [x ->]; [rewrite Hl; unfold NOFILE in *; lia|done].
Qed.

Lemma set_fd_ok i f r l (s : fproc U) : fdok r l s -> wlp (set_fd i f) (fun _ s' => fdok r (<[Z.to_nat i := f]> l) s') s.
Proof. intros [F E]. apply wlp_modify. split; [done|]. cbn. by rewrite E. Qed.

Lemma fdalloc_ok f r l (s : fproc U) :
  fdok r l s -> length l = Z.to_nat NOFILE ->
  wlp (fdalloc f) (fun i s' => i = -1 /\ fdok r l s' \/
    0 <= i < NOFILE /\ l !! Z.to_nat i = Some NULLF /\ fdok r (<[Z.to_nat i := f]> l) s') s.
Proof.
  intros H Hl. pose proof H as [_ E]. unfold fdalloc. apply wlp_bind, wlp_gets. rewrite E. pose proof (find_fd_spec l 0 ltac:(lia)) as Hf.
  rewrite Hl in Hf. set (i := find_fd l 0) in *. destruct (Z.ltb_spec i 0).
  - wlp_steps. left. split; [|done]. destruct Hf as [|[? _]]; lia.
  - destruct Hf as [|[H1 H2]]; [lia|]. rewrite Z.sub_0_r in H2. eapply wlp_call; [by apply set_fd_ok|]. cbv beta. intros ? s' H'. wlp_steps.
    right. split; [unfold NOFILE in *; lia|done].
Qed.

(** Descriptor [i] changes from [x] to [y]: the counts that then hold. *)
Lemma refs_insert other l i x y f :
  l !! i = Some x -> in_files f ->
  occurs f (<[i := y]> l) + other f = occurs f l + other f + (if decide (f = y) then 1 else 0) - (if decide (f = x) then 1 else 0).
Proof.
  intros H Hf. rewrite (occurs_insert f l i y x H). destruct (Z.eqb_spec x f) as [Ex|Nx], (Z.eqb_spec y f) as [Ey|Ny].
  - rewrite !decide_True by congruence. lia.
  - rewrite decide_False, decide_True by congruence. lia.
  - rewrite decide_True, decide_False by congruence. lia.
  - rewrite !decide_False by congruence. lia.
Qed.

Lemma refs_make other r l (s : fproc U) :
  fdok r l s -> length l = Z.to_nat NOFILE -> (forall i f, l !! i = Some f -> f = NULLF \/ in_files f) ->
  (forall f, in_files f -> r f = occurs f l + other f) -> refs_ok other s.
Proof. intros [F <-] Hl Hv E. constructor; [by eapply fok_ext|done|done]. Qed.

Lemma valid_insert (l : list Z) i f :
  (forall k g, l !! k = Some g -> g = NULLF \/ in_files g) -> f = NULLF \/ in_files f ->
  forall k g, <[i := f]> l !! k = Some g -> g = NULLF \/ in_files g.
Proof. intros Hv Hf k g Hk. apply list_lookup_insert_Some in Hk as [(_ & -> & _)|[_ Hk]]; [done|by eapply Hv]. Qed.

Lemma null_out f : in_files f -> f <> NULLF.
Proof. unfold in_files, NULLF. lia. Qed.

Lemma sys_dup_refs other i s : refs_ok other s -> wlp (sys_dup i) (fun _ s' => refs_ok other s') s.
Proof.
  intros [F Hl Hv]. set (l := y_ofile s) in *. assert (fdok (fun f => occurs f l + other f) l s) as D by done.
  unfold sys_dup. eapply wlp_call; [by apply argfd_ok|]. intros [f|] s1 [D1 Ho]; [|wlp_steps; by eapply refs_make].
  destruct Ho as (Hi & Hf & Nf). assert (in_files f) as Hin by (destruct (Hv _ _ Hf); done).
  eapply wlp_call; [by apply (fdalloc_ok f)|]. intros k s2 [(-> & D2)|(Hk & Hfree & D2)]; [cbn [Z.ltb Z.compare]; wlp_steps; by eapply refs_make|].
  destruct (Z.ltb_spec k 0); [lia|]. eapply wlp_call; [eapply (fd_ok _ _ _ _ _ D2); intros x Fx; by apply (filedup_fok x _ f Fx Hin)|].
  cbv beta. intros ? s3 [[_ F3] E3]. wlp_steps. eapply (refs_make _ _ (<[Z.to_nat k := f]> l)); [split; [exact F3|exact E3]|by rewrite length_insert| |].
  - apply valid_insert; [done|by right].
  - intros g Hg. rewrite (refs_insert other l (Z.to_nat k) NULLF f g Hfree Hg). unfold add_ref. pose proof (null_out g Hg).
    rewrite (decide_False (P := g = NULLF)) by done. destruct (decide (g = f)); lia.
Qed.

Lemma sys_close_refs other i s : refs_ok other s -> wlp (sys_close i) (fun _ s' => refs_ok other s') s.
Proof.
  intros [F Hl Hv]. set (l := y_ofile s) in *. assert (fdok (fun f => occurs f l + other f) l s) as D by done.
  unfold sys_close. eapply wlp_call; [by apply argfd_ok|]. intros [f|] s1 [D1 Ho]; [|wlp_steps; by eapply refs_make].
  destruct Ho as (Hi & Hf & Nf). assert (in_files f) as Hin by (destruct (Hv _ _ Hf); done).
  eapply wlp_call; [by apply set_fd_ok|]. cbv beta. intros ? s2 D2.
  eapply wlp_call; [eapply (fd_ok _ _ _ _ _ D2); intros x Fx; by apply (fileclose_fok x _ f Fx Hin)|].
  cbv beta. intros ? s3 [[_ F3] E3]. wlp_steps. eapply (refs_make _ _ (<[Z.to_nat i := NULLF]> l)); [split; [exact F3|exact E3]|by rewrite length_insert| |].
  - apply valid_insert; [done|by left].
  - intros g Hg. rewrite (refs_insert other l (Z.to_nat i) f NULLF g Hf Hg). unfold add_ref. pose proof (null_out g Hg).
    rewrite (decide_False (P := g = NULLF)) by done. destruct (decide (g = f)); lia.
Qed.

(** A new reference to [f] has gone into the free descriptor [k]. *)
Lemma refs_new other l k f s :
  fdok (add_ref f 1 (fun g => occurs g l + other g)) (<[Z.to_nat k := f]> l) s -> length l = Z.to_nat NOFILE ->
  (forall i g, l !! i = Some g -> g = NULLF \/ in_files g) -> l !! Z.to_nat k = Some NULLF -> in_files f -> refs_ok other s.
Proof.
  intros D Hl Hv Hk Hf. eapply (refs_make _ _ (<[Z.to_nat k := f]> l)); [exact D|by rewrite length_insert| |].
  - apply valid_insert; [done|by right].
  - intros g Hg. rewrite (refs_insert other l (Z.to_nat k) NULLF f g Hk Hg). unfold add_ref. pose proof (null_out g Hg).
    rewrite (decide_False (P := g = NULLF)) by done. destruct (decide (g = f)); lia.
Qed.

Lemma fdok_ext r r' l s : fdok r l s -> (forall f, in_files f -> r f = r' f) -> fdok r' l s.
Proof. intros [F E] H. split; [by eapply fok_ext|done]. Qed.

Lemma fileclose_ok f r l s : fdok r l s -> in_files f -> wlp (fd (fileclose f)) (fun _ s' => fdok (add_ref f (-1) r) l s') s.
Proof.
  intros D Hf. eapply wlp_mono; [eapply (fd_ok _ _ _ _ _ D); intros x Fx; by apply (fileclose_fok x _ f Fx Hf)|].
  intros ? s' [[_ F] E]. by split.
Qed.

Ltac fsy_one := eapply wlp_call; [apply fsy_ok; eassumption|]; cbv beta; intros ? ? ?.

Lemma open_inode_refs other ip omode s : refs_ok other s -> wlp (open_inode ip omode) (fun _ s' => refs_ok other s') s.
Proof.
  intros [F Hl Hv]. set (l := y_ofile s) in *. set (r := fun f => occurs f l + other f) in *. assert (fdok r l s) as D by done.
  assert (forall s', fdok r l s' -> refs_ok other s') as Hsame by (intros; by eapply refs_make).
  unfold open_inode. eapply wlp_call; [apply fsy_ok, D|]. cbv beta. intros i s1 D1.
  assert (forall s', fdok r l s' -> wlp (fsy (iunlockput ip;; lg end_op);; mret (-1)) (fun _ s' => refs_ok other s') s') as Hfail.
  { intros s' D'. fsy_one. wlp_steps. by apply Hsame. }
  destruct (_ && _); [by apply Hfail|].
  eapply wlp_call; [eapply (fd_ok _ _ _ _ _ D1); intros x; apply filealloc_fok|]. cbv beta.
  intros f s2 [[[-> F2]|(Nf & Hf & _ & F2)] E2].
  - cbn [Z.eqb NULLF]. apply wlp_bind, wlp_ret. cbn [Z.ltb Z.compare negb]. apply wlp_bind, wlp_skip. apply Hfail. by split.
  - rewrite (proj2 (Z.eqb_neq f NULLF)) by done. assert (fdok (add_ref f 1 r) l s2) as D2 by (by split).
    eapply wlp_call; [by apply (fdalloc_ok f)|]. intros k s3 [(-> & D3)|(Hk & Hfree & D3)].
    + cbn [Z.ltb Z.compare negb]. eapply wlp_call; [by apply fileclose_ok|]. cbv beta. intros ? s4 D4. apply Hfail.
      eapply fdok_ext; [exact D4|]. intros g _. apply add_ref_cancel.
    + destruct (Z.ltb_spec k 0); [lia|]. eapply wlp_call.
      { eapply (fd_ok _ _ _ _ _ D3). intros x Fx. apply (updf_fok x _ f _ 0 Fx Hf). cbn. destruct (i_type i =? T_DEVICE); cbn; lia. }
      cbv beta. intros ? s4 [F4 E4]. assert (fdok (add_ref f 1 r) (<[Z.to_nat k := f]> l) s4) as D4.
      { split; [|done]. eapply fok_ext; [exact F4|]. intros g _. unfold add_ref. repeat destruct (decide _); lia. }
      eapply (wlp_call _ _ (fun _ s' => fdok (add_ref f 1 r) (<[Z.to_nat k := f]> l) s')).
      { destruct (_ && _); [by apply fsy_ok|by apply wlp_skip]. }
      cbv beta. intros ? s5 D5. fsy_one. fsy_one. wlp_steps. by eapply refs_new.
Qed.

Lemma sys_open_refs other path omode s : refs_ok other s -> wlp (sys_open path omode) (fun _ s' => refs_ok other s') s.
Proof.
  intros R. pose proof R as [F Hl Hv]. set (l := y_ofile s) in *. set (r := fun f => occurs f l + other f) in *. assert (fdok r l s) as D by done.
  assert (forall s', fdok r l s' -> refs_ok other s') as Hsame by (intros; by eapply refs_make).
  unfold sys_open. destruct path as [path|]; [|by wlp_steps]. apply wlp_bind, wlp_gets. fsy_one. destruct (negb _).
  - fsy_one. destruct (_ =? NULLIP); [fsy_one; wlp_steps; by apply Hsame|]. apply open_inode_refs. by apply Hsame.
  - fsy_one. destruct (_ =? NULLIP); [fsy_one; wlp_steps; by apply Hsame|]. fsy_one. fsy_one. destruct (_ && _).
    + fsy_one. wlp_steps. by apply Hsame.
    + apply open_inode_refs. by apply Hsame.
Qed.

Lemma sys_pipe_refs other fdarray s : refs_ok other s -> wlp (sys_pipe fdarray) (fun _ s' => refs_ok other s') s.
Proof.
  intros [F Hl Hv]. set (l := y_ofile s) in *. set (r := fun f => occurs f l + other f) in *. assert (fdok r l s) as D by done.
  assert (forall s', fdok r l s' -> refs_ok other s') as Hsame by (intros; by eapply refs_make).
  unfold sys_pipe. eapply wlp_call; [eapply (fd_ok _ _ _ _ _ D); intros x; apply pipealloc_fok|]. cbv beta.
  intros [[rf wf]|] s1 [F1 E1]; [|wlp_steps; apply Hsame; by split]. destruct F1 as (Hrf & Hwf & F1).
  set (r2 := add_ref wf 1 (add_ref rf 1 r)) in *. assert (fdok r2 l s1) as D1 by (by split).
  assert (forall s' l', fdok r2 l' s' -> l' = l -> wlp (fd (fileclose rf);; fd (fileclose wf);; mret (-1)) (fun _ s' => refs_ok other s') s') as Hfail.
  { intros s' l' D' ->. eapply wlp_call; [by apply (fileclose_ok rf)|]. cbv beta. intros ? s2 D2.
    eapply wlp_call; [by apply (fileclose_ok wf)|]. cbv beta. intros ? s3 D3. wlp_steps. apply Hsame.
    eapply fdok_ext; [exact D3|]. intros g _. unfold r2, add_ref. repeat destruct (decide _); lia. }
  eapply wlp_call; [by apply (fdalloc_ok rf)|]. intros fd0 s2 [(-> & D2)|(H0 & Hf0 & D2)].
  { cbn [Z.ltb Z.compare]. apply wlp_bind, wlp_ret. cbn [Z.ltb Z.compare Z.leb]. apply wlp_bind, wlp_skip. by eapply Hfail. }
  destruct (Z.ltb_spec fd0 0); [lia|]. eapply wlp_call; [apply (fdalloc_ok wf _ _ _ D2); by rewrite length_insert|].
  assert (<[Z.to_nat fd0 := NULLF]> (<[Z.to_nat fd0 := rf]> l) = l) as Eback0.
  { rewrite list_insert_insert_eq. by apply list_insert_id. }
  intros fd1 s3 [(-> & D3)|(H1 & Hf1 & D3)].
  { cbn [Z.ltb Z.compare]. destruct (Z.leb_spec 0 fd0); [|lia]. eapply wlp_call; [by apply (set_fd_ok fd0 NULLF)|]. cbv beta. intros ? s4 D4.
    by eapply Hfail. }
  destruct (Z.ltb_spec fd1 0); [lia|].
  assert (fd0 <> fd1) as Hne.
  { intros ->. rewrite list_lookup_insert_eq in Hf1 by (rewrite Hl; unfold NOFILE in *; lia). injection Hf1 as ->. by apply (null_out NULLF). }
  assert (l !! Z.to_nat fd1 = Some NULLF) as Hf1' by (rewrite list_lookup_insert_ne in Hf1 by lia; done).
  set (l2 := <[Z.to_nat fd1 := wf]> (<[Z.to_nat fd0 := rf]> l)) in *.
  eapply wlp_call; [apply fsy_ok; exact D3|]. cbv beta. intros ok s4 D4.
  eapply (wlp_call _ _ (fun _ s' => fdok r2 l2 s')); [destruct (negb ok); [by apply wlp_ret|by apply fsy_ok]|].
  cbv beta. intros ok2 s5 D5. destruct (negb ok2).
  - eapply wlp_call; [by apply (set_fd_ok fd0 NULLF)|]. cbv beta. intros ? s6 D6.
    eapply wlp_call; [by apply (set_fd_ok fd1 NULLF)|]. cbv beta. intros ? s7 D7. eapply Hfail; [exact D7|]. unfold l2.
    rewrite (list_insert_insert_ne _ (Z.to_nat fd1) (Z.to_nat fd0)) by lia. rewrite list_insert_insert_eq.
    rewrite (list_insert_insert_ne _ (Z.to_nat fd0) (Z.to_nat fd1)) by lia. rewrite Eback0. by apply list_insert_id.
  - wlp_steps. eapply (refs_make _ _ l2); [exact D5|unfold l2; by rewrite !length_insert| |].
    + unfold l2. do 2 (apply valid_insert; [|by right]). done.
    + intros g Hg. unfold l2. rewrite (refs_insert other _ (Z.to_nat fd1) NULLF wf g Hf1 Hg).
      pose proof (refs_insert other l (Z.to_nat fd0) NULLF rf g Hf0 Hg) as Er. pose proof (null_out g Hg).
      rewrite (decide_False (P := g = NULLF)) in Er |- * by done. unfold r2, add_ref, r. repeat destruct (decide _); lia.
Qed.

(** Reading and writing. *)
Lemma sys_read_refs other killed i p n s : refs_ok other s -> wlp (sys_read killed i p n) (fun _ s' => refs_ok other s') s.
Proof.
  intros [F Hl Hv]. set (l := y_ofile s) in *. set (r := fun f => occurs f l + other f) in *. assert (fdok r l s) as D by done.
  assert (forall s', fdok r l s' -> refs_ok other s') as Hsame by (intros; by eapply refs_make).
  unfold sys_read. eapply wlp_call; [by apply argfd_ok|]. intros [f|] s1 [D1 Ho]; [|wlp_steps; by apply Hsame].
  destruct Ho as (_ & Hf & Nf). assert (in_files f) as Hin by (destruct (Hv _ _ Hf); done).
  eapply wlp_mono; [eapply (fd_ok _ _ _ (fun _ x => fok x r) _ D1)|]; [|intros ? s' [F' E']; apply Hsame; by split].
  intros x Fx. unfold fileread. apply wlp_bind, wlp_gets. destruct (negb _); [by apply wlp_ret|]. destruct (fd_type _).
  - done.
  - by apply with_pipe_fok.
  - eapply wlp_call; [by apply fsd_fok|]. cbv beta. intros ? x1 F1. eapply wlp_call; [by apply fsd_fok|]. cbv beta. intros res x2 F2.
    eapply (wlp_call _ _ (fun _ x => fok x r)).
    { destruct (0 <? res.1); [|by apply wlp_skip]. eapply wlp_mono; [apply (updf_fok x2 r f _ 0 F2 Hin); cbn; lia|]. intros ? x3 F3.
      eapply fok_ext; [exact F3|]. intros g _. unfold add_ref. destruct (decide _); lia. }
    cbv beta. intros ? x3 F3. eapply wlp_call; [by apply fsd_fok|]. cbv beta. intros ? x4 F4. by apply wlp_ret.
  - destruct (negb _); [by apply wlp_ret|]. eapply wlp_call; [by apply with_cons_fok|]. cbv beta. intros ? x1 F1. by apply wlp_ret.
Qed.

Lemma filewrite_loop_fok fuel f addr n i (x : fdstate U) r :
  fok x r -> in_files f -> wlp (filewrite_loop fuel f addr n i) (fun _ x' => fok x' r) x.
Proof.
  intros Fx Hf. revert i x Fx. induction fuel as [|fuel IH]; intros i x Fx; cbn [filewrite_loop]; (destruct (negb _); [by apply wlp_ret|]); [done|].
  cbv zeta. apply wlp_bind, wlp_gets. eapply wlp_call; [by apply fsd_fok|]. cbv beta. intros ? x0 F0.
  eapply wlp_call; [by apply fsd_fok|]. cbv beta. intros ? x1 F1. eapply wlp_call; [by apply fsd_fok|]. cbv beta. intros res x2 F2. eapply (wlp_call _ _ (fun _ x => fok x r)).
  { destruct (0 <? res); [|by apply wlp_skip]. eapply wlp_mono; [apply (updf_fok x2 r f _ 0 F2 Hf); cbn; lia|]. intros ? x3 F3.
    eapply fok_ext; [exact F3|]. intros g _. unfold add_ref. destruct (decide _); lia. }
  cbv beta. intros ? x3 F3. eapply wlp_call; [by apply fsd_fok|]. cbv beta. intros ? x4 F4.
  eapply wlp_call; [by apply fsd_fok|]. cbv beta. intros ? x5 F5.
  destruct (negb _); [by apply wlp_ret|]. by apply IH.
Qed.

Lemma sys_write_refs other killed i p n s : refs_ok other s -> wlp (sys_write killed i p n) (fun _ s' => refs_ok other s') s.
Proof.
  intros [F Hl Hv]. set (l := y_ofile s) in *. set (r := fun f => occurs f l + other f) in *. assert (fdok r l s) as D by done.
  assert (forall s', fdok r l s' -> refs_ok other s') as Hsame by (intros; by eapply refs_make).
  unfold sys_write. eapply wlp_call; [by apply argfd_ok|]. intros [f|] s1 [D1 Ho]; [|wlp_steps; by apply Hsame].
  destruct Ho as (_ & Hf & Nf). assert (in_files f) as Hin by (destruct (Hv _ _ Hf); done).
  eapply wlp_mono; [eapply (fd_ok _ _ _ (fun _ x => fok x r) _ D1)|]; [|intros ? s' [F' E']; apply Hsame; by split].
  intros x Fx. unfold filewrite. apply wlp_bind, wlp_gets. destruct (negb _); [by apply wlp_ret|]. destruct (fd_type _).
  - done.
  - by apply with_pipe_fok.
  - eapply wlp_call; [by apply filewrite_loop_fok|]. cbv beta. intros ? x1 F1. by apply wlp_ret.
  - destruct (negb _); [by apply wlp_ret|]. eapply wlp_call; [by apply with_cons_fok|]. cbv beta. intros ? x1 F1. by apply wlp_ret.
Qed.
End calls.

Section files.
Context {U : Type} `{UM : UserMem U} `{PA : PageAlloc U}.
Implicit Types s : fproc U.

(** The system calls that open, duplicate, use and close descriptors. *)
Inductive file_call s s' : Prop :=
  | fc_dup i r : sys_dup i s = Ret r s' -> file_call s s'
  | fc_close i r : sys_close i s = Ret r s' -> file_call s s'
  | fc_open path omode r : sys_open path omode s = Ret r s' -> file_call s s'
  | fc_pipe a r : sys_pipe a s = Ret r s' -> file_call s s'
  | fc_read killed i p n o : sys_read killed i p n s = Ret o s' -> file_call s s'
  | fc_write killed i p n o : sys_write killed i p n s = Ret o s' -> file_call s s'.

(** C40.  Open files are counted exactly: dup, close, open, pipe, read and
    write, whether they succeed or fail part way (no free descriptor, no free
    file, a bad address), keep the reference count of every file equal to the
    number of the process's descriptors that refer to it plus the references
    other processes hold; and a file is free exactly when nobody refers to
    it. *)
Theorem file_reference_counts other s s' :
  refs_ok other s -> file_call s s' ->
  refs_ok other s' /\
  forall f, in_files f -> 0 <= other f ->
    fd_ref (getf (y_fd s') f) = 0 <-> (forall i, y_ofile s' !! i <> Some f) /\ other f = 0.
Proof.
  intros R Hc. assert (refs_ok other s') as R'.
  { destruct Hc as [i r E|i r E|p m r E|a r E|k i p n o E|k i p n o E].
    - exact (wlp_ret_inv _ _ _ _ _ (sys_dup_refs other i s R) E).
    - exact (wlp_ret_inv _ _ _ _ _ (sys_close_refs other i s R) E).
    - exact (wlp_ret_inv _ _ _ _ _ (sys_open_refs other p m s R) E).
    - exact (wlp_ret_inv _ _ _ _ _ (sys_pipe_refs other a s R) E).
    - exact (wlp_ret_inv _ _ _ _ _ (sys_read_refs other k i p n s R) E).
    - exact (wlp_ret_inv _ _ _ _ _ (sys_write_refs other k i p n s R) E). }
  split; [exact R'|]. intros f Hf Ho. rewrite (fo_ref _ _ (ro_fd _ _ R') f Hf). pose proof (occurs_nonneg f (y_ofile s')). split.
  - intros E. split; [|lia]. intros i Hi. apply occurs_in in Hi. lia.
  - intros [Hi ->]. rewrite Z.add_0_r. by apply occurs_none.
Qed.
End files.

(** *** A process without open files makes a pipe *)

#[local] Instance flat_pages : PageAlloc flat := {| page_alloc u := (0x87000000, u); page_free _ u := u; page_data _ _ := replicate 512 5 |}.

Definition no_files : fproc flat :=
  FProc (FdState (FState (boot ∅) (Superblock 0 0 0 0 0 0 0 0) [] (Flat (fun _ => 0) 4096)) (replicate (Z.to_nat NFILE) file_zero) ∅ consoleinit)
    (replicate (Z.to_nat NOFILE) NULLF) NULLIP.

Lemma no_files_ok : refs_ok (fun _ => 0) no_files.
Proof.
  constructor; [constructor|done|].
  - done.
  - intros f Hf. unfold getf. cbn [no_files y_fd d_file y_ofile]. rewrite nth_lookup, lookup_replicate_2 by (unfold in_files in Hf; lia).
    pose proof (null_out f Hf). symmetry. rewrite Z.add_0_r. apply occurs_none. intros i Hi. apply lookup_replicate in Hi as [-> _]. done.
  - intros i f [-> _]%lookup_replicate. by left.
Qed.

Definition pipe_opened (r : res (fproc flat) Z) : bool :=
  match r with Ret v s => (v =? 0) && bool_decide (take 3 (y_ofile s) = [0; 1; NULLF]) | _ => false end.
Lemma pipe_opened_spec r : pipe_opened r = true -> exists s, r = Ret 0 s /\ take 3 (y_ofile s) = [0; 1; NULLF].
Proof.
  destruct r as [v s| |]; [|done|done]. cbn [pipe_opened]. rewrite andb_true_iff, Z.eqb_eq, bool_decide_eq_true. intros [-> E]. by exists s.
Qed.
Lemma pipe_runs : pipe_opened (sys_pipe 64 no_files) = true.
Proof. vm_compute. reflexivity. Qed.

Lemma file_reference_counts_witness : exists s, sys_pipe 64 no_files = Ret 0 s /\ refs_ok (fun _ => 0) s /\
  forall f, in_files f -> 0 <= 0 -> fd_ref (getf (y_fd s) f) = 0 <-> (forall i, y_ofile s !! i <> Some f) /\ 0 = 0.
Proof.
  destruct (pipe_opened_spec _ pipe_runs) as (s & E & _). exists s. split; [exact E|].
  exact (file_reference_counts (fun _ => 0) no_files s no_files_ok (fc_pipe _ _ 64 0 E)).
Defined.
