(* ===== verification/Grep.v ===== *)
(** * grep (user/grep.c)

    The matcher of grep on NUL-free strings and the loop over its 1024-byte
    buffer, with the proof that the matcher decides the language of its
    patterns ([^], [.], [c*], [$]) and that grep prints exactly the matching
    lines. *)
From S2P Require Import Prelude.
From stdpp Require Import base tactics numbers list.
From Stdlib Require Import ZArith Lia.

Open Scope Z_scope.

(** The characters with a meaning in patterns. *)
Definition c_caret : Z := 94.
Definition c_dot : Z := 46.
Definition c_star : Z := 42.
Definition c_dollar : Z := 36.
Definition newline : Z := 10.

(** ** The matcher *)

(** matchstar(c, re, text), given what matchhere(re, .) answers. *)
Fixpoint matchstar (here : list Z -> bool) (c : Z) (text : list Z) : bool :=
  if here text then true
  else match text with
       | [] => false
       | t :: text => if (t =? c) || (c =? c_dot) then matchstar here c text else false
       end.

Fixpoint matchhere (re text : list Z) : bool :=
  match re with
  | [] => true
  | c :: re' =>
      match re' with
      | s :: re'' =>
          if s =? c_star then matchstar (matchhere re'') c text
          else match text with
               | t :: text => if (c =? c_dot) || (c =? t) then matchhere re' text else false
               | [] => false
               end
      | [] =>
          if c =? c_dollar then match text with [] => true | _ => false end
          else match text with
               | t :: text => if (c =? c_dot) || (c =? t) then matchhere re' text else false
               | [] => false
               end
      end
  end.

(** The do-while loop of match. *)
Fixpoint match_from (re text : list Z) : bool :=
  if matchhere re text then true else match text with [] => false | _ :: text => match_from re text end.

Definition match_ (re text : list Z) : bool :=
  match re with
  | c :: re' => if c =? c_caret then matchhere re' text else match_from re text
  | [] => match_from re text
  end.

(** ** The language of a pattern *)

Inductive item := IChar (c : Z) | IStar (c : Z).

(** A pattern after an optional [^]: its items, and whether it ends in [$]. *)
Fixpoint parse (re : list Z) : list item * bool :=
  match re with
  | [] => ([], false)
  | c :: re' =>
      match re' with
      | s :: re'' =>
          if s =? c_star then let '(l, e) := parse re'' in (IStar c :: l, e)
          else let '(l, e) := parse re' in (IChar c :: l, e)
      | [] => if c =? c_dollar then ([], true) else ([IChar c], false)
      end
  end.

Definition fits (c x : Z) : Prop := c = c_dot \/ c = x.

(** The strings that a sequence of items denotes. *)
Inductive lang : list item -> list Z -> Prop :=
  | lang_nil : lang [] []
  | lang_char c x l w : fits c x -> lang l w -> lang (IChar c :: l) (x :: w)
  | lang_star c v l w : Forall (fits c) v -> lang l w -> lang (IStar c :: l) (v ++ w).

(** [re], without its [^], occurs at the beginning of [text]. *)
Definition occurs_here (re text : list Z) : Prop :=
  exists w rest, text = w ++ rest /\ lang (parse re).1 w /\ ((parse re).2 = true -> rest = []).
Definition occurs (re text : list Z) : Prop := exists before rest, text = before ++ rest /\ occurs_here re rest.

(** ** The matcher decides it *)

Lemma matchstar_spec here (P : list Z -> Prop) c text :
  (forall t, here t = true <-> P t) ->
  matchstar here c text = true <-> exists v rest, text = v ++ rest /\ Forall (fits c) v /\ P rest.
Proof.
  intros H. induction text as [|t text IH]; cbn [matchstar].
  - destruct (here []) eqn:E.
    + split; [|done]. intros _. exists [], []. split_and!; [done|constructor|by apply H].
    + split; [done|]. intros (v & rest & Hv & _ & HP). symmetry in Hv. apply app_nil in Hv as [-> ->]. apply H in HP. congruence.
  - destruct (here (t :: text)) eqn:E.
    { split; [|done]. intros _. exists [], (t :: text). split_and!; [done|constructor|by apply H]. }
    destruct ((t =? c) || (c =? c_dot)) eqn:Ec.
    + rewrite IH. assert (fits c t) as Hf.
      { apply orb_true_iff in Ec as [Ec|Ec]; apply Z.eqb_eq in Ec; [by right|by left]. }
      split; intros (v & rest & Hv & Hall & HP).
      * exists (t :: v), rest. split_and!; [by rewrite Hv|by constructor|done].
      * destruct v as [|y v]; cbn in Hv; [subst rest; apply H in HP; congruence|]. injection Hv as <- Hv.
        inversion Hall; subst. by exists v, rest.
    + split; [done|]. intros (v & rest & Hv & Hall & HP). destruct v as [|y v]; cbn in Hv.
      * subst rest. apply H in HP. congruence.
      * injection Hv as <- Hv. inversion Hall as [|? ? [Hd|Hd] _]; subst; exfalso; revert Ec; rewrite Z.eqb_refl, ?orb_true_r; done.
Qed.

(** One ordinary character of the pattern. *)
Lemma char_step c l e text (P : list Z -> bool) :
  (forall t, P t = true <-> exists w rest, t = w ++ rest /\ lang l w /\ (e = true -> rest = [])) ->
  match text with t :: text => if (c =? c_dot) || (c =? t) then P text else false | [] => false end = true <->
  exists w rest, text = w ++ rest /\ lang (IChar c :: l) w /\ (e = true -> rest = []).
Proof.
  intros HP. destruct text as [|t text].
  - split; [done|]. intros (w & rest & E & HL & _). inversion HL; subst. done.
  - destruct ((c =? c_dot) || (c =? t)) eqn:Ec.
    + assert (fits c t) as Hf by (apply orb_true_iff in Ec as [Ec|Ec]; apply Z.eqb_eq in Ec; [by left|by right]).
      rewrite HP. split; intros (w & rest & E & HL & He).
      * exists (t :: w), rest. split_and!; [by rewrite E|by constructor|done].
      * inversion HL as [|? x ? w' Hx Hw|]; subst. injection E as <- E. by exists w', rest.
    + split; [done|]. intros (w & rest & E & HL & _). inversion HL as [|? x ? w' [Hx|Hx] Hw|]; subst; injection E as <- E; subst;
        exfalso; revert Ec; rewrite Z.eqb_refl, ?orb_true_r; done.
Qed.

Lemma matchhere_below n : forall re, (length re <= n)%nat -> forall text, matchhere re text = true <-> occurs_here re text.
Proof.
  unfold occurs_here. induction n as [|n IH]; intros re Hn text; destruct re as [|c re]; cbn [length] in Hn; [| lia | |].
  1, 2: cbn; (split; [intros _; exists [], text; split_and!; [done|constructor|done]|done]).
  cbn [matchhere parse]. destruct re as [|s re].
  - destruct (c =? c_dollar).
    + cbn. split.
      * destruct text; [|done]. intros _. exists [], []. split_and!; [done|constructor|done].
      * intros (w & rest & -> & HL & He). rewrite He by done. inversion HL; subst. done.
    + apply (char_step c [] false text (matchhere [])). intros t. apply (IH []). cbn. lia.
  - destruct (s =? c_star).
    + rewrite (matchstar_spec _ (occurs_here re)) by (intros t; apply IH; cbn [length] in Hn; lia).
      unfold occurs_here. destruct (parse re) as [l e]. cbn [fst snd]. split.
      * intros (v & rest & -> & Hv & w & rest' & -> & HL & He). exists (v ++ w), rest'. split_and!; [by rewrite app_assoc|by constructor|done].
      * intros (w & rest & -> & HL & He). inversion HL as [| |? v ? w' Hv Hw]; subst. exists v, (w' ++ rest).
        split_and!; [by rewrite app_assoc|done|]. by exists w', rest.
    + destruct (parse (s :: re)) as [l e] eqn:Ep. cbn [fst snd].
      apply (char_step c l e text (matchhere (s :: re))). intros t. pose proof (IH (s :: re) ltac:(cbn [length] in *; lia) t) as H. by rewrite Ep in H.
Qed.

Lemma matchhere_spec re text : matchhere re text = true <-> occurs_here re text.
Proof. by apply (matchhere_below (length re)). Qed.

Lemma match_from_spec re text : match_from re text = true <-> occurs re text.
Proof.
  unfold occurs. induction text as [|t text IH]; cbn [match_from].
  - destruct (matchhere re []) eqn:E.
    + split; [|done]. intros _. exists [], []. split; [done|]. by apply matchhere_spec.
    + split; [done|]. intros (b & rest & Hb & H). symmetry in Hb. apply app_nil in Hb as [-> ->]. apply matchhere_spec in H. congruence.
  - destruct (matchhere re (t :: text)) eqn:E.
    { split; [|done]. intros _. exists [], (t :: text). split; [done|]. by apply matchhere_spec. }
    rewrite IH. split; intros (b & rest & Hb & H).
    + exists (t :: b), rest. by rewrite Hb.
    + destruct b as [|y b]; cbn in Hb; [subst rest; apply matchhere_spec in H; congruence|]. injection Hb as <- Hb. by exists b, rest.
Qed.

(** ** The loop over the buffer *)

Definition BUFSIZE : nat := 1024.

(** strchr(p, '\n') on the NUL-terminated rest of the buffer: the line before
    the newline and what follows it. *)
Fixpoint find_line (p : list Z) : option (list Z * list Z) :=
  match p with
  | [] => None
  | x :: p =>
      if x =? 0 then None
      else if x =? newline then Some ([], p)
      else match find_line p with Some (l, r) => Some (x :: l, r) | None => None end
  end.

(** The inner loop: the unfinished line that stays, and the output. *)
Fixpoint grep_lines (fuel : nat) (pattern p out : list Z) : option (list Z * list Z) :=
  match fuel with
  | O => None
  | S fuel =>
      match find_line p with
      | None => Some (p, out)
      | Some (line, p) => grep_lines fuel pattern p (if match_ pattern line then out ++ line ++ [newline] else out)
      end
  end.

(** read(fd, buf + m, n): a reader gets at most [n] bytes, and no more than
    the source has ready; [chunks] are what the source delivers. *)
Definition read_chunk (chunks : list (list Z)) (n : nat) : list Z * list (list Z) :=
  match chunks with
  | [] => ([], [])
  | c :: chunks => if decide (length c <= n)%nat then (c, chunks) else (take n c, drop n c :: chunks)
  end.

(** The outer loop; [buf] are the first [m] bytes of the buffer. *)
Fixpoint grep (fuel : nat) (pattern : list Z) (chunks : list (list Z)) (buf out : list Z) : option (list Z) :=
  match fuel with
  | O => None
  | S fuel =>
      let '(d, chunks) := read_chunk chunks (BUFSIZE - length buf - 1)%nat in
      match d with
      | [] => Some out
      | _ =>
          match grep_lines (S (length (buf ++ d))) pattern (buf ++ d) out with
          | Some (buf, out) => grep fuel pattern chunks buf out
          | None => None
          end
      end
  end.

(** ** What it prints *)

(** The complete lines of a text (without their newlines), and the rest. *)
Fixpoint split_lines (l : list Z) : list (list Z) * list Z :=
  match l with
  | [] => ([], [])
  | x :: l =>
      let '(ls, r) := split_lines l in
      if x =? newline then ([] :: ls, r)
      else match ls with [] => ([], x :: r) | y :: ls => ((x :: y) :: ls, r) end
  end.

(** A line that contains an occurrence of the pattern. *)
Definition pattern_matches (re text : list Z) : Prop :=
  match re with
  | c :: re' => if c =? c_caret then occurs_here re' text else occurs re text
  | [] => occurs re text
  end.
Lemma match_spec re text : match_ re text = true <-> pattern_matches re text.
Proof.
  unfold match_, pattern_matches. destruct re as [|c re]; [apply match_from_spec|].
  destruct (c =? c_caret); [apply matchhere_spec|apply match_from_spec].
Qed.
#[export] Instance pattern_matches_dec re text : Decision (pattern_matches re text).
Proof. refine (cast_if (decide (match_ re text = true))); by rewrite <- match_spec. Defined.

Definition printed (pattern : list Z) (ls : list (list Z)) : list Z :=
  mjoin ((fun line => line ++ [newline]) <$> filter (pattern_matches pattern) ls).

Definition no_nul (l : list Z) : Prop := Forall (fun x => x <> 0) l.

Lemma printed_cons pattern line ls :
  printed pattern (line :: ls) = (if match_ pattern line then line ++ [newline] else []) ++ printed pattern ls.
Proof.
  unfold printed. rewrite filter_cons. destruct (match_ pattern line) eqn:E.
  - rewrite decide_True by (by apply match_spec). done.
  - rewrite decide_False; [done|]. rewrite <- match_spec. congruence.
Qed.

Lemma find_line_spec p : no_nul p ->
  match find_line p with
  | None => split_lines p = ([], p)
  | Some (l, q) => exists ls r, split_lines p = (l :: ls, r) /\ split_lines q = (ls, r) /\ (length q < length p)%nat /\ no_nul q
  end.
Proof.
  induction p as [|x p IH]; intros Hp; cbn [find_line split_lines]; [done|]. inversion Hp as [|? ? Hx Hp']; subst.
  destruct (Z.eqb_spec x 0); [done|]. destruct (x =? newline).
  - destruct (split_lines p) as [ls r] eqn:E. exists ls, r. split_and!; [done|done|cbn; lia|done].
  - specialize (IH Hp'). destruct (find_line p) as [[l q]|].
    + destruct IH as (ls & r & E & Eq & Hl & Hq). rewrite E. exists ls, r. split_and!; [done|done|cbn; lia|done].
    + by rewrite IH.
Qed.

Lemma grep_lines_spec fuel pattern : forall p out, no_nul p -> (length p < fuel)%nat ->
  grep_lines fuel pattern p out = Some ((split_lines p).2, out ++ printed pattern (split_lines p).1).
Proof.
  induction fuel as [|fuel IH]; intros p out Hp Hf; [lia|]. cbn [grep_lines]. pose proof (find_line_spec p Hp) as H.
  destruct (find_line p) as [[l q]|].
  - destruct H as (ls & r & E & Eq & Hl & Hq). rewrite IH, E, Eq by (done || lia). cbn [fst snd]. rewrite printed_cons.
    destruct (match_ pattern l); [by rewrite <- app_assoc|done].
  - rewrite H. cbn [fst snd]. unfold printed. cbn. by rewrite app_nil_r.
Qed.

(** Splitting what was read so far, and then the rest. *)
Lemma split_lines_app a b :
  split_lines (a ++ b) =
  ((split_lines a).1 ++ (split_lines ((split_lines a).2 ++ b)).1, (split_lines ((split_lines a).2 ++ b)).2).
Proof.
  induction a as [|x a IH]; cbn [app split_lines fst snd]; [by destruct (split_lines b)|].
  rewrite IH. destruct (split_lines a) as [ls r]. cbn [fst snd] in *. destruct (x =? newline) eqn:E.
  - cbn [fst snd]. by destruct (split_lines (r ++ b)).
  - destruct ls as [|y ls]; cbn [fst snd app split_lines]; [|by destruct (split_lines (r ++ b))].
    rewrite E. destruct (split_lines (r ++ b)) as [[|y ls] r']; done.
Qed.

(** The rest is not split any further, and begins the first line that follows. *)
Lemma split_lines_rest a : split_lines (split_lines a).2 = ([], (split_lines a).2).
Proof.
  induction a as [|x a IH]; cbn [split_lines]; [done|]. destruct (split_lines a) as [ls r]. cbn [fst snd] in IH.
  destruct (x =? newline) eqn:E; [done|]. destruct ls; cbn [fst snd]; [|done]. cbn [split_lines]. by rewrite IH, E.
Qed.

Definition short (x : list (list Z) * list Z) : Prop :=
  Forall (fun l => (length l < BUFSIZE - 1)%nat) x.1 /\ (length x.2 < BUFSIZE - 1)%nat.

Lemma rest_short a b : short (split_lines (a ++ b)) -> split_lines a = ([], a) -> (length a < BUFSIZE - 1)%nat.
Proof.
  intros [H1 H2] Ha.
  assert (forall a b, split_lines a = ([], a) -> forall ls r, split_lines (a ++ b) = (ls, r) ->
    (length a <= length (hd r ls))%nat) as Hpre.
  { clear. induction a as [|x a IH]; intros b Ha ls r E; cbn [length app split_lines] in *; [lia|].
    destruct (split_lines a) as [la ra] eqn:Ea. destruct (x =? newline) eqn:Ex; [done|].
    destruct la; [|done]. injection Ha as ->. specialize (IH b eq_refl). destruct (split_lines (a ++ b)) as [ls' r'].
    specialize (IH ls' r' eq_refl). destruct ls' as [|y ls']; injection E as <- <-; cbn in *; lia. }
  destruct (split_lines (a ++ b)) as [ls r] eqn:E. specialize (Hpre a b Ha ls r E). cbn [fst snd] in *.
  destruct ls as [|l ls]; cbn in Hpre; [lia|]. inversion H1; subst. lia.
Qed.

Lemma read_chunk_spec chunks n d chunks' :
  Forall (fun c => c <> []) chunks -> (0 < n)%nat -> read_chunk chunks n = (d, chunks') ->
  mjoin chunks = d ++ mjoin chunks' /\ Forall (fun c => c <> []) chunks' /\ (d = [] -> chunks = []).
Proof.
  intros Hc Hn E. destruct chunks as [|c chunks]; cbn in E; [by injection E as <- <-|].
  inversion Hc as [|? ? Hc1 Hc2]; subst. destruct (decide (length c <= n)%nat) as [Hl|Hl]; injection E as <- <-.
  - done.
  - split_and!.
    + cbn. by rewrite app_assoc, take_drop.
    + constructor; [|done]. intros Hd. apply (f_equal length) in Hd. rewrite length_drop in Hd. cbn in Hd. lia.
    + intros Hd. apply (f_equal length) in Hd. rewrite length_take in Hd. cbn in Hd. lia.
Qed.

Lemma grep_loop fuel pattern : forall chunks buf out,
  Forall (fun c => c <> []) chunks -> no_nul (buf ++ mjoin chunks) -> split_lines buf = ([], buf) ->
  short (split_lines (buf ++ mjoin chunks)) -> (length (mjoin chunks) < fuel)%nat ->
  grep fuel pattern chunks buf out = Some (out ++ printed pattern (split_lines (buf ++ mjoin chunks)).1).
Proof.
  induction fuel as [|fuel IH]; intros chunks buf out Hc Hz Hb Hs Hf; [lia|]. cbn [grep].
  pose proof (rest_short _ _ Hs Hb) as Hlen.
  destruct (read_chunk chunks (BUFSIZE - length buf - 1)) as [d chunks'] eqn:E.
  apply read_chunk_spec in E as (Ej & Hc' & Hd); [|done|lia]. destruct d as [|x d'] eqn:Ed.
  - rewrite Hd by done. cbn [mjoin list_join]. rewrite app_nil_r, Hb. unfold printed. cbn. by rewrite app_nil_r.
  - rewrite <- Ed in *. clear Hd. rewrite Ej, app_assoc in *. apply Forall_app in Hz as [Hz1 Hz2].
    rewrite grep_lines_spec by (done || lia). rewrite split_lines_app in Hs. rewrite IH.
    + rewrite (split_lines_app (buf ++ d)). cbn [fst]. f_equal. rewrite <- app_assoc. f_equal. unfold printed.
      by rewrite filter_app, fmap_app, join_app.
    + done.
    + apply Forall_app. split; [|done].
      assert (forall a, no_nul a -> no_nul (split_lines a).2) as Hrest.
      { clear. induction a as [|x a IH]; intros Ha; cbn [split_lines]; [done|]. inversion Ha; subst.
        destruct (split_lines a) as [ls r]. cbn [snd] in *. destruct (x =? newline); [by apply IH|].
        destruct ls; cbn [snd]; [constructor; [done|by apply IH]|by apply IH]. }
      by apply Hrest.
    + apply split_lines_rest.
    + destruct Hs as [Hs1 Hs2]. cbn [fst snd] in Hs1, Hs2. apply Forall_app in Hs1 as [_ Hs1]. done.
    + rewrite length_app, Ed in Hf. cbn [length] in Hf. lia.
Qed.

(** C38.  grep prints exactly the lines that contain a match, in order.  For
    any input without NUL bytes whose lines fit in the buffer, however the
    reads cut it into pieces, grep ends, and its output is the sequence of
    complete lines that the pattern occurs in, each with its newline.  An
    occurrence is defined by the language of the pattern: the characters,
    [.] for any character, [c*] for any number of them, [^] and [$] for the
    ends of the line. *)
Theorem grep_prints_matching_lines pattern chunks fuel :
  Forall (fun c => c <> []) chunks -> no_nul (mjoin chunks) -> short (split_lines (mjoin chunks)) ->
  (length (mjoin chunks) < fuel)%nat ->
  grep fuel pattern chunks [] [] = Some (printed pattern (split_lines (mjoin chunks)).1).
Proof. intros Hc Hz Hs Hf. by apply (grep_loop fuel pattern chunks [] []). Qed.

(** "xa", newline, "abb", newline, "b" in two reads, searched for ^ab*$. *)
Lemma grep_prints_matching_lines_witness :
  grep 20 [94; 97; 98; 42; 36] [[120; 97; 10; 97; 98]; [98; 10; 98]] [] [] = Some [97; 98; 98; 10] /\
  printed [94; 97; 98; 42; 36] (split_lines [120; 97; 10; 97; 98; 98; 10; 98]).1 = [97; 98; 98; 10].
Proof.
  assert (grep 20 [94; 97; 98; 42; 36] [[120; 97; 10; 97; 98]; [98; 10; 98]] [] [] =
    Some (printed [94; 97; 98; 42; 36] (split_lines [120; 97; 10; 97; 98; 98; 10; 98]).1)) as E.
  { apply (grep_prints_matching_lines [94; 97; 98; 42; 36] [[120; 97; 10; 97; 98]; [98; 10; 98]] 20).
    - by repeat constructor.
    - by repeat constructor.
    - split; [repeat constructor; cbn; lia|cbn; lia].
    - cbn. lia. }
  split; [reflexivity|]. apply (inj Some). rewrite <- E. reflexivity.
Defined.
