(* ===== verification/Virtio.v ===== *)
(** * The disk driver (kernel/virtio_disk.c, kernel/virtio.h)

    The driver's descriptors and rings, virtio_disk_rw split where it sleeps,
    the interrupt handler, and the device at the other end of the rings.  An
    address handed to the device is represented by what it points to ([dma]).
    The critical sections under vdisk_lock are one step each.  The device is
    the virtio block device of the specification: it fetches the entries of
    the avail ring in order, carries requests out in any order, sets the
    status byte to 0 and appends the head of the chain to the used ring.  It
    may look at the avail ring, and interrupt, at any time: the register
    writes that tell it to do so (QUEUE_NOTIFY at the end of [submit],
    INTERRUPT_ACK at the start of [virtio_disk_intr]) are left out, so the
    theorems do not depend on when the device acts on them. *)
From stdpp Require Import base tactics numbers list strings gmap.
From Stdlib Require Import ZArith Lia.
From S2P Require Import Prelude Riscv Kalloc Block Spinlock.

Open Scope Z_scope.

Definition NUM : Z := 8.
Definition VRING_DESC_F_NEXT : Z := 1.
Definition VRING_DESC_F_WRITE : Z := 2.
Definition VIRTIO_BLK_T_IN : Z := 0.
Definition VIRTIO_BLK_T_OUT : Z := 1.

(** &disk.ops[i], b->data, &disk.info[i].status *)
Inductive dma := DNull | DOps (i : Z) | DData (b : Z) | DStatus (i : Z).

(** struct virtq_desc, struct virtio_blk_req, the entries of disk.info *)
Record vdesc := VDesc { d_addr : dma; d_len : Z; d_flags : Z; d_next : Z }.
Record vreq := VReq { rq_type : Z; rq_reserved : Z; rq_sector : Z }.
Record vinfo := VInfo { in_b : option Z; in_status : Z }.
(** The fields of struct buf that the driver and the device touch. *)
Record vbuf := VBuf { vb_blockno : Z; vb_disk : Z; vb_data : block }.

(** Where a thread is in virtio_disk_rw(b, write); [h] is idx[0]. *)
Inductive tpc :=
  | TIdle
  | TAlloc (b : Z) (write : bool)
  | TSleepAlloc (b : Z) (write : bool)
  | TWait (b : Z) (write : bool) (h : Z)
  | TSleepWait (b : Z) (write : bool) (h : Z).

(** Arrays are functions from indices; the device's own state is the disk by
    sector, how far it has read the avail ring, and the chains it works on. *)
Record vdisk := VDisk {
  v_desc : Z -> vdesc;
  v_avail_ring : Z -> Z; v_avail_idx : Z;
  v_used_ring : Z -> Z; v_used_dev : Z;      (* disk.used->ring[].id and disk.used->idx *)
  v_free : Z -> bool;
  v_used_idx : Z;
  v_info : Z -> vinfo;
  v_ops : Z -> vreq;
  v_buf : Z -> vbuf;
  v_thread : Z -> tpc;
  dev_disk : Z -> block; dev_avail : Z; dev_pending : list Z
}.

Definition set_desc x v := VDisk x (v_avail_ring v) (v_avail_idx v) (v_used_ring v) (v_used_dev v) (v_free v) (v_used_idx v) (v_info v) (v_ops v) (v_buf v) (v_thread v) (dev_disk v) (dev_avail v) (dev_pending v).
Definition set_avail r i v := VDisk (v_desc v) r i (v_used_ring v) (v_used_dev v) (v_free v) (v_used_idx v) (v_info v) (v_ops v) (v_buf v) (v_thread v) (dev_disk v) (dev_avail v) (dev_pending v).
Definition set_used r i v := VDisk (v_desc v) (v_avail_ring v) (v_avail_idx v) r i (v_free v) (v_used_idx v) (v_info v) (v_ops v) (v_buf v) (v_thread v) (dev_disk v) (dev_avail v) (dev_pending v).
Definition set_free x v := VDisk (v_desc v) (v_avail_ring v) (v_avail_idx v) (v_used_ring v) (v_used_dev v) x (v_used_idx v) (v_info v) (v_ops v) (v_buf v) (v_thread v) (dev_disk v) (dev_avail v) (dev_pending v).
Definition set_used_idx x v := VDisk (v_desc v) (v_avail_ring v) (v_avail_idx v) (v_used_ring v) (v_used_dev v) (v_free v) x (v_info v) (v_ops v) (v_buf v) (v_thread v) (dev_disk v) (dev_avail v) (dev_pending v).
Definition set_info x v := VDisk (v_desc v) (v_avail_ring v) (v_avail_idx v) (v_used_ring v) (v_used_dev v) (v_free v) (v_used_idx v) x (v_ops v) (v_buf v) (v_thread v) (dev_disk v) (dev_avail v) (dev_pending v).
Definition set_ops x v := VDisk (v_desc v) (v_avail_ring v) (v_avail_idx v) (v_used_ring v) (v_used_dev v) (v_free v) (v_used_idx v) (v_info v) x (v_buf v) (v_thread v) (dev_disk v) (dev_avail v) (dev_pending v).
Definition set_vbuf x v := VDisk (v_desc v) (v_avail_ring v) (v_avail_idx v) (v_used_ring v) (v_used_dev v) (v_free v) (v_used_idx v) (v_info v) (v_ops v) x (v_thread v) (dev_disk v) (dev_avail v) (dev_pending v).
Definition set_thread x v := VDisk (v_desc v) (v_avail_ring v) (v_avail_idx v) (v_used_ring v) (v_used_dev v) (v_free v) (v_used_idx v) (v_info v) (v_ops v) (v_buf v) x (dev_disk v) (dev_avail v) (dev_pending v).
Definition set_dev d a p v := VDisk (v_desc v) (v_avail_ring v) (v_avail_idx v) (v_used_ring v) (v_used_dev v) (v_free v) (v_used_idx v) (v_info v) (v_ops v) (v_buf v) (v_thread v) d a p.

Definition upd_desc i x v := set_desc (fupd i x (v_desc v)) v.
Definition upd_free i x v := set_free (fupd i x (v_free v)) v.
Definition upd_info i x v := set_info (fupd i x (v_info v)) v.
Definition upd_ops i x v := set_ops (fupd i x (v_ops v)) v.
Definition upd_vbuf i x v := set_vbuf (fupd i x (v_buf v)) v.
Definition upd_thread t x v := set_thread (fupd t x (v_thread v)) v.
Definition set_disk_flag x (b : vbuf) : vbuf := VBuf (vb_blockno b) x (vb_data b).
Definition set_vdata x (b : vbuf) : vbuf := VBuf (vb_blockno b) (vb_disk b) x.

(** ** Descriptors *)

(** wakeup(&disk.free[0]) and wakeup(b) *)
Definition wake_alloc (p : tpc) : tpc := match p with TSleepAlloc b w => TAlloc b w | _ => p end.
Definition wake_buf (b : Z) (p : tpc) : tpc :=
  match p with TSleepWait b' w h => if b' =? b then TWait b' w h else p | _ => p end.
Definition wakeup_free : M vdisk unit := modify (fun v => set_thread (fun t => wake_alloc (v_thread v t)) v).
Definition wakeup_buf (b : Z) : M vdisk unit := modify (fun v => set_thread (fun t => wake_buf b (v_thread v t)) v).

Fixpoint alloc_scan (n : nat) (i : Z) (free : Z -> bool) : Z :=
  match n with O => -1 | S n => if free i then i else alloc_scan n (i + 1) free end.
Definition alloc_desc : M vdisk Z :=
  i ← gets (fun v => alloc_scan (Z.to_nat NUM) 0 (v_free v));
  if i <? 0 then mret (-1) else modify (upd_free i false);; mret i.

Definition free_desc (i : Z) : M vdisk unit :=
  if NUM <=? i then panic "free_desc 1"
  else
    f ← gets (fun v => v_free v i);
    if (f : bool) then panic "free_desc 2"
    else
      modify (upd_desc i (VDesc DNull 0 0 0));;
      modify (upd_free i true);;
      wakeup_free.

(** A chain has at most NUM descriptors. *)
Fixpoint free_chain_loop (fuel : nat) (i : Z) : M vdisk unit :=
  match fuel with
  | O => nofuel
  | S fuel =>
      d ← gets (fun v => v_desc v i);
      free_desc i;;
      if has (d_flags d) VRING_DESC_F_NEXT then free_chain_loop fuel (d_next d) else skip
  end.
Definition free_chain (i : Z) : M vdisk unit := free_chain_loop (Z.to_nat NUM) i.

Fixpoint free_all (l : list Z) : M vdisk unit := match l with [] => skip | i :: l => free_desc i;; free_all l end.

(** The loop for(i = 0; i < 3; i++): [n] descriptors still to take, those
    taken so far in [idx]. *)
Fixpoint alloc_descs (n : nat) (idx : list Z) : M vdisk (option (list Z)) :=
  match n with
  | O => mret (Some idx)
  | S n =>
      i ← alloc_desc;
      if i <? 0 then free_all idx;; mret None else alloc_descs n (idx ++ [i])
  end.
Definition alloc3_desc : M vdisk (option (list Z)) := alloc_descs 3 [].

(** ** virtio_disk_rw *)

Definition sector_of (b : vbuf) : Z := w32 (vb_blockno b * (BSIZE / 512)).

(** Fill in the chain [i0], [i1], [i2] for buffer [b] and hand it over. *)
Definition submit (b : Z) (write : bool) (i0 i1 i2 : Z) : M vdisk unit :=
  x ← gets (fun v => v_buf v b);
  modify (upd_ops i0 (VReq (if write then VIRTIO_BLK_T_OUT else VIRTIO_BLK_T_IN) 0 (sector_of x)));;
  modify (upd_desc i0 (VDesc (DOps i0) 16 VRING_DESC_F_NEXT i1));;
  modify (upd_desc i1 (VDesc (DData b) BSIZE (Z.lor (if write then 0 else VRING_DESC_F_WRITE) VRING_DESC_F_NEXT) i2));;
  modify (fun v => upd_info i0 (VInfo (in_b (v_info v i0)) 0xff) v);;
  modify (upd_desc i2 (VDesc (DStatus i0) 1 VRING_DESC_F_WRITE 0));;
  modify (fun v => upd_vbuf b (set_disk_flag 1 (v_buf v b)) v);;
  modify (fun v => upd_info i0 (VInfo (Some b) (in_status (v_info v i0))) v);;
  modify (fun v => set_avail (fupd (v_avail_idx v mod NUM) i0 (v_avail_ring v)) (v_avail_idx v) v);;
  modify (fun v => set_avail (v_avail_ring v) (w16 (v_avail_idx v + 1)) v).

(** while(b->disk == 1) sleep; what follows the loop frees the chain. *)
Definition rw_wait (t b : Z) (write : bool) (h : Z) : M vdisk unit :=
  x ← gets (fun v => v_buf v b);
  if vb_disk x =? 1 then modify (upd_thread t (TSleepWait b write h))
  else
    modify (fun v => upd_info h (VInfo None (in_status (v_info v h))) v);;
    free_chain h;;
    modify (upd_thread t TIdle).

(** From the loop that takes the descriptors on. *)
Definition rw_try (t b : Z) (write : bool) : M vdisk unit :=
  r ← alloc3_desc;
  match r with
  | Some [i0; i1; i2] => submit b write i0 i1 i2;; rw_wait t b write i0
  | _ => modify (upd_thread t (TSleepAlloc b write))
  end.

(** ** virtio_disk_intr *)

Fixpoint intr_loop (fuel : nat) : M vdisk unit :=
  v ← gets id;
  if v_used_idx v =? v_used_dev v then skip
  else
    match fuel with
    | O => nofuel
    | S fuel =>
        let id := v_used_ring v (v_used_idx v mod NUM) in
        if negb (in_status (v_info v id) =? 0) then panic "virtio_disk_intr status"
        else
          match in_b (v_info v id) with
          | None => panic "kerneltrap"
          | Some b =>
              modify (fun v => upd_vbuf b (set_disk_flag 0 (v_buf v b)) v);;
              wakeup_buf b;;
              modify (fun v => set_used_idx (w16 (v_used_idx v + 1)) v);;
              intr_loop fuel
          end
    end.
(** used_idx moves towards used->idx by one in each round. *)
Definition virtio_disk_intr : M vdisk unit :=
  v ← gets id; intr_loop (Z.to_nat (w16 (v_used_dev v - v_used_idx v))).

(** ** The device *)

(** It reads the next entry of the avail ring. *)
Definition dev_fetch (v : vdisk) : vdisk :=
  set_dev (dev_disk v) (w16 (dev_avail v + 1)) (dev_pending v ++ [v_avail_ring v (dev_avail v mod NUM)]) v.

(** The request that the chain from [h] describes, when it is well formed:
    a header the device reads, a block that it reads or writes as the header
    says, and a status byte that it writes. *)
Definition chain_request (v : vdisk) (h : Z) : option (bool * Z * Z * Z) :=
  let d0 := v_desc v h in
  let d1 := v_desc v (d_next d0) in
  let d2 := v_desc v (d_next d1) in
  match d_addr d0, d_addr d1, d_addr d2 with
  | DOps i, DData b, DStatus j =>
      let r := v_ops v i in
      let write := rq_type r =? VIRTIO_BLK_T_OUT in
      if (d_len d0 =? 16) && (d_len d1 =? BSIZE) && (d_len d2 =? 1) &&
         has (d_flags d0) VRING_DESC_F_NEXT && has (d_flags d1) VRING_DESC_F_NEXT && negb (has (d_flags d2) VRING_DESC_F_NEXT) &&
         eqb (has (d_flags d1) VRING_DESC_F_WRITE) (negb write) && has (d_flags d2) VRING_DESC_F_WRITE
      then Some (write, rq_sector r, b, j) else None
  | _, _, _ => None
  end.

(** It carries the request out, reports success and puts [h] on the used ring. *)
Definition dev_complete (h : Z) (v : vdisk) : option vdisk :=
  match chain_request v h with
  | None => None
  | Some (write, sector, b, j) =>
      let v1 := if write : bool then set_dev (fupd sector (vb_data (v_buf v b)) (dev_disk v)) (dev_avail v) (dev_pending v) v
                else upd_vbuf b (set_vdata (dev_disk v sector) (v_buf v b)) v in
      let v2 := upd_info j (VInfo (in_b (v_info v1 j)) 0) v1 in
      let v3 := set_dev (dev_disk v2) (dev_avail v2) (filter (fun x => x <> h) (dev_pending v2)) v2 in
      Some (set_used (fupd (v_used_dev v3 mod NUM) h (v_used_ring v3)) (w16 (v_used_dev v3 + 1)) v3)
  end.
