(* ===== verification/VirtioSpec.v ===== *)
(** * The disk driver's invariant

    Every request in flight owns a chain of three descriptors and is in one of
    four stages: in the avail ring, taken by the device, in the used ring, or
    seen by the interrupt handler.  The invariant ties the descriptors, the
    rings, the buffers and the threads to the requests; every step of the
    driver and of the device preserves it. *)
From stdpp Require Import base tactics numbers list strings gmap.
From Stdlib Require Import ZArith Lia.
From S2P Require Import Prelude Riscv Kalloc Block Spinlock Virtio.

Open Scope Z_scope.

(** A request by the head of its chain. *)
Record req := Req { q_buf : Z; q_write : bool; q_i1 : Z; q_i2 : Z }.
Definition chain (h : Z) (q : req) : list Z := [h; q_i1 q; q_i2 q].
Definition desc_ok (i : Z) : Prop := 0 <= i < NUM.

Definition tbuf (p : tpc) : option Z :=
  match p with TIdle => None | TAlloc b _ | TSleepAlloc b _ | TWait b _ _ | TSleepWait b _ _ => Some b end.
Definition thead (p : tpc) : option (Z * bool * Z) :=
  match p with TWait b w h | TSleepWait b w h => Some (b, w, h) | _ => None end.

(** ** The steps of the system *)

(** The buffer cache locks the buffer it passes to the driver, and caches a
    block in one buffer only. *)
Definition may_start (v : vdisk) (b : Z) : Prop :=
  forall t b', tbuf (v_thread v t) = Some b' -> b' <> b /\ sector_of (v_buf v b') <> sector_of (v_buf v b).
Definition unused (v : vdisk) (b : Z) : Prop := forall t, tbuf (v_thread v t) <> Some b.

Inductive vstep : vdisk -> vdisk -> Prop :=
  | vs_start t b w v v' : v_thread v t = TIdle -> may_start v b -> rw_try t b w v = Ret () v' -> vstep v v'
  | vs_retry t b w v v' : v_thread v t = TAlloc b w -> rw_try t b w v = Ret () v' -> vstep v v'
  | vs_resume t b w h v v' : v_thread v t = TWait b w h -> rw_wait t b w h v = Ret () v' -> vstep v v'
  | vs_intr v v' : virtio_disk_intr v = Ret () v' -> vstep v v'
  | vs_fetch v : dev_avail v <> v_avail_idx v -> vstep v (dev_fetch v)
  | vs_complete h v v' : h ∈ dev_pending v -> dev_complete h v = Some v' -> vstep v v'
  | vs_client b x v : unused v b -> vstep v (upd_vbuf b x v).

(** After virtio_disk_init. *)
Record vinit (v : vdisk) : Prop := {
  vi_free0 : forall i, desc_ok i -> v_free v i = true;
  vi_avail0 : v_avail_idx v = 0 /\ dev_avail v = 0 /\ dev_pending v = [];
  vi_used0 : v_used_idx v = 0 /\ v_used_dev v = 0;
  vi_thread0 : forall t, v_thread v t = TIdle
}.

Definition vreachable (v : vdisk) : Prop := exists v0, vinit v0 /\ rtc vstep v0 v.

(** ** Rings *)

(** The entries [l] of a ring from index [lo] up to [hi]. *)
Definition ring_ok (r : Z -> Z) (lo hi : Z) (l : list Z) : Prop :=
  0 <= lo < 2 ^ 16 /\ hi = w16 (lo + Z.of_nat (length l)) /\ Z.of_nat (length l) <= NUM /\
  forall k x, l !! k = Some x -> r ((lo + Z.of_nat k) mod NUM) = x.

Lemma w16_mod_num x : w16 x mod NUM = x mod NUM.
Proof. unfold w16, NUM. change (2 ^ 16) with 65536. Z.div_mod_to_equations. lia. Qed.

Lemma ring_empty r lo hi l : ring_ok r lo hi l -> lo = hi <-> l = [].
Proof.
  intros (H0 & -> & Hl & _). unfold w16, NUM in *. split.
  - intros E. destruct l; [done|]. cbn [length] in *. exfalso. revert E. Z.div_mod_to_equations. lia.
  - intros ->. cbn. rewrite Z.add_0_r. by rewrite Z.mod_small by lia.
Qed.

Lemma ring_push r lo hi l x :
  ring_ok r lo hi l -> Z.of_nat (length l) < NUM -> ring_ok (fupd (hi mod NUM) x r) lo (w16 (hi + 1)) (l ++ [x]).
Proof.
  intros (H0 & -> & Hl & Hr) Hlt. rewrite w16_mod_num. split_and!; [lia|lia| |rewrite length_app; cbn; lia|].
  - rewrite length_app. cbn [length]. unfold w16. rewrite Zplus_mod_idemp_l. f_equal. lia.
  - intros k y. unfold fupd. rewrite lookup_app. destruct (l !! k) as [z|] eqn:E.
    + intros [= <-]. rewrite decide_False; [by apply Hr|]. apply lookup_lt_Some in E. unfold NUM in *.
      Z.div_mod_to_equations. lia.
    + apply lookup_ge_None in E. destruct (k - length l)%nat eqn:Ek; [|done]. intros [= <-].
      replace k with (length l) by lia. by rewrite decide_True.
Qed.

Lemma ring_pop r lo hi x l : ring_ok r lo hi (x :: l) -> r (lo mod NUM) = x /\ ring_ok r (w16 (lo + 1)) hi l.
Proof.
  intros (H0 & -> & Hl & Hr). split.
  - rewrite <- (Hr 0%nat x) by done. f_equal. f_equal. cbn. lia.
  - cbn [length] in Hl. split; [apply Z.mod_pos_bound; lia|]. split_and!; [|lia|].
    + cbn [length]. unfold w16. rewrite Zplus_mod_idemp_l. f_equal. lia.
    + intros k y Hk. rewrite <- (Hr (S k) y Hk). f_equal. unfold w16.
      assert (((lo + 1) mod 2 ^ 16 + Z.of_nat k) mod NUM = (lo + 1 + Z.of_nat k) mod NUM) as ->.
      { unfold NUM. Z.div_mod_to_equations. lia. }
      f_equal. lia.
Qed.

(** Distinct descriptors are at most NUM. *)
Lemma heads_bound l : NoDup l -> Forall desc_ok l -> Z.of_nat (length l) <= NUM.
Proof.
  intros Hn Hf. assert (l ⊆+ seqZ 0 NUM) as Hs.
  { apply NoDup_submseteq; [done|]. intros x Hx. rewrite Forall_forall in Hf. apply Hf in Hx. apply elem_of_seqZ. unfold desc_ok in Hx. lia. }
  apply submseteq_length in Hs. rewrite length_seqZ in Hs. unfold NUM in *. lia.
Qed.

(** ** The invariant *)

(** At most two descriptors are free. *)
Definition starved (free : Z -> bool) : Prop :=
  exists l, (length l <= 2)%nat /\ forall i, desc_ok i -> free i = true -> i ∈ l.

(** What submit writes for a request. *)
Record formatted (v : vdisk) (h : Z) (q : req) : Prop := {
  fm_0 : v_desc v h = VDesc (DOps h) 16 VRING_DESC_F_NEXT (q_i1 q);
  fm_1 : v_desc v (q_i1 q) =
    VDesc (DData (q_buf q)) BSIZE (Z.lor (if q_write q then 0 else VRING_DESC_F_WRITE) VRING_DESC_F_NEXT) (q_i2 q);
  fm_2 : v_desc v (q_i2 q) = VDesc (DStatus h) 1 VRING_DESC_F_WRITE 0;
  fm_op : v_ops v h = VReq (if q_write q then VIRTIO_BLK_T_OUT else VIRTIO_BLK_T_IN) 0 (sector_of (v_buf v (q_buf q)));
  fm_b : in_b (v_info v h) = Some (q_buf q)
}.

(** Chains: disjoint, and exactly the descriptors that are not free. *)
Record cinv (v : vdisk) (A : gmap Z req) : Prop := {
  ci_chain : forall h q, A !! h = Some q -> NoDup (chain h q) /\ Forall desc_ok (chain h q);
  ci_sep : forall i h h' q q', A !! h = Some q -> A !! h' = Some q' -> i ∈ chain h q -> i ∈ chain h' q' -> h = h';
  ci_free : forall i, desc_ok i -> v_free v i = false <-> exists h q, A !! h = Some q /\ i ∈ chain h q;
  ci_fmt : forall h q, A !! h = Some q -> formatted v h q
}.

(** Stages: [S] in the avail ring, the device's own list, [U] in the used
    ring, [D] done. *)
Record qinv (v : vdisk) (A : gmap Z req) (S U D : list Z) : Prop := {
  qi_nodup : NoDup (S ++ dev_pending v ++ U ++ D);
  qi_dom : forall h, h ∈ S ++ dev_pending v ++ U ++ D <-> is_Some (A !! h);
  qi_avail : ring_ok (v_avail_ring v) (dev_avail v) (v_avail_idx v) S;
  qi_used : ring_ok (v_used_ring v) (v_used_idx v) (v_used_dev v) U;
  qi_busy : forall h q, A !! h = Some q -> vb_disk (v_buf v (q_buf q)) = if decide (h ∈ D) then 0 else 1;
  qi_status : forall h, h ∈ U -> in_status (v_info v h) = 0;
  qi_data : forall h q, h ∈ U ++ D -> A !! h = Some q ->
    dev_disk v (sector_of (v_buf v (q_buf q))) = vb_data (v_buf v (q_buf q))
}.

(** Threads: each request has one that waits for it, on a buffer of its own;
    nobody sleeps for something that has happened. *)
Record thinv (v : vdisk) (A : gmap Z req) (D : list Z) : Prop := {
  th_req : forall t b w h, thead (v_thread v t) = Some (b, w, h) -> exists q, A !! h = Some q /\ q_buf q = b /\ q_write q = w;
  th_own : forall h q, A !! h = Some q -> exists t, thead (v_thread v t) = Some (q_buf q, q_write q, h);
  th_uniq : forall t t' b b', tbuf (v_thread v t) = Some b -> tbuf (v_thread v t') = Some b' ->
    b = b' \/ sector_of (v_buf v b) = sector_of (v_buf v b') -> t = t';
  th_sleep : forall t b w h, v_thread v t = TSleepWait b w h -> h ∉ D;
  th_starved : forall t b w, v_thread v t = TSleepAlloc b w -> starved (v_free v)
}.

Definition vinv (v : vdisk) (A : gmap Z req) (S U D : list Z) : Prop := cinv v A /\ qinv v A S U D /\ thinv v A D.

Lemma thead_tbuf p b w h : thead p = Some (b, w, h) -> tbuf p = Some b.
Proof. by destruct p; intros [= -> -> ->]. Qed.

(** Different requests have different buffers and sectors. *)
Lemma req_sep v A S U D h h' q q' :
  vinv v A S U D -> A !! h = Some q -> A !! h' = Some q' ->
  q_buf q = q_buf q' \/ sector_of (v_buf v (q_buf q)) = sector_of (v_buf v (q_buf q')) -> h = h'.
Proof.
  intros (_ & _ & T) Hq Hq' E. destruct (th_own _ _ _ T _ _ Hq) as [t Ht]. destruct (th_own _ _ _ T _ _ Hq') as [t' Ht'].
  assert (t = t') as <- by (eapply (th_uniq _ _ _ T); [by eapply thead_tbuf|by eapply thead_tbuf|done]). congruence.
Qed.

(** ** Taking descriptors *)

Lemma alloc_scan_spec n i f :
  (alloc_scan n i f = -1 /\ forall k, i <= k < i + Z.of_nat n -> f k = false) \/
  (i <= alloc_scan n i f < i + Z.of_nat n /\ f (alloc_scan n i f) = true).
Proof.
  revert i. induction n as [|n IH]; intros i; cbn [alloc_scan]; [left; split; [done|lia]|].
  destruct (f i) eqn:E; [right; split; [lia|done]|]. destruct (IH (i + 1)) as [[E1 H]|[H1 H2]].
  - left. split; [done|]. intros k Hk. destruct (decide (k = i)) as [->|]; [done|]. apply H. lia.
  - right. split; [lia|done].
Qed.

Lemma alloc_desc_wp v (Q : Z -> vdisk -> Prop) :
  ((forall i, desc_ok i -> v_free v i = false) -> Q (-1) v) ->
  (forall i, desc_ok i -> v_free v i = true -> Q i (upd_free i false v)) ->
  wp alloc_desc Q v.
Proof.
  intros H1 H2. unfold alloc_desc. wp_steps. pose proof (alloc_scan_spec (Z.to_nat NUM) 0 (v_free v)) as H.
  change (Z.of_nat (Z.to_nat NUM)) with NUM in H. set (j := alloc_scan (Z.to_nat NUM) 0 (v_free v)) in *.
  destruct H as [[-> H]|[Hr Hf]].
  - change (-1 <? 0) with true. cbv iota. apply wp_ret, H1. intros i Hi. apply H. unfold desc_ok in Hi. lia.
  - destruct (Z.ltb_spec j 0); [lia|]. wp_steps. apply H2; [unfold desc_ok; lia|done].
Qed.

(** What free_desc changes. *)
Definition freed_desc (i : Z) (v : vdisk) : vdisk :=
  set_thread (fun t => wake_alloc (v_thread v t)) (upd_free i true (upd_desc i (VDesc DNull 0 0 0) v)).
Lemma free_desc_run i v : i < NUM -> v_free v i = false -> free_desc i v = Ret () (freed_desc i v).
Proof. intros Hi Hf. unfold free_desc. destruct (Z.leb_spec NUM i); [lia|]. unfold mbind, M_bind, gets. by rewrite Hf. Qed.

(** A failed alloc3_desc gives back what it took: at most two descriptors are
    free, and only descriptors that are free and sleepers on them changed. *)
Record alloc_failed (v v' : vdisk) : Prop := {
  af_starved : starved (v_free v);
  af_free : forall i, v_free v' i = v_free v i;
  af_desc : forall i, v_free v i = false -> v_desc v' i = v_desc v i;
  af_thread : forall t, v_thread v' t = v_thread v t \/ v_thread v' t = wake_alloc (v_thread v t);
  af_rest : v_avail_ring v' = v_avail_ring v /\ v_avail_idx v' = v_avail_idx v /\ v_used_ring v' = v_used_ring v /\
    v_used_dev v' = v_used_dev v /\ v_used_idx v' = v_used_idx v /\ v_info v' = v_info v /\ v_ops v' = v_ops v /\
    v_buf v' = v_buf v /\ dev_disk v' = dev_disk v /\ dev_avail v' = dev_avail v /\ dev_pending v' = dev_pending v
}.

Lemma alloc3_desc_wp v :
  wp alloc3_desc (fun r v' => (r = None /\ alloc_failed v v') \/
    exists i0 i1 i2, r = Some [i0; i1; i2] /\ NoDup [i0; i1; i2] /\ Forall (fun i => desc_ok i /\ v_free v i = true) [i0; i1; i2] /\
      v' = upd_free i2 false (upd_free i1 false (upd_free i0 false v))) v.
Proof.
  unfold alloc3_desc. cbn [alloc_descs]. apply wp_bind, alloc_desc_wp.
  { intros H. cbn [Z.ltb Z.compare free_all]. wp_steps. left. split; [done|].
    constructor; try done; [|auto]. exists []. split; [cbn; lia|]. intros i Hi E. by rewrite H in E. }
  intros i0 D0 F0. destruct (Z.ltb_spec i0 0) as [Hneg|_]; [unfold desc_ok in D0; lia|]. apply wp_bind, alloc_desc_wp.
  { intros H. cbn [Z.ltb Z.compare free_all app]. apply wp_bind, wp_bind. eapply wp_intro.
    { apply free_desc_run; [apply D0|]. cbn. unfold fupd. by rewrite decide_True. }
    wp_steps. left. split; [done|]. constructor; try done.
    - exists [i0]. split; [cbn; lia|]. intros i Hi E. specialize (H i Hi). cbn in H. unfold fupd in H.
      destruct (decide (i = i0)) as [->|]; [by left|congruence].
    - intros i. cbn. unfold fupd. destruct (decide (i = i0)) as [->|]; [done|done].
    - intros i E. cbn. unfold fupd. destruct (decide (i = i0)) as [->|]; [congruence|done].
    - intros t. by right. }
  intros i1 D1 F1. destruct (Z.ltb_spec i1 0) as [Hneg|_]; [unfold desc_ok in D1; lia|].
  cbn in F1. unfold fupd in F1. destruct (decide (i1 = i0)) as [|N1]; [done|]. apply wp_bind, alloc_desc_wp.
  { intros H. cbn [Z.ltb Z.compare free_all app]. apply wp_bind, wp_bind. eapply wp_intro.
    { apply free_desc_run; [apply D0|]. cbn. unfold fupd. destruct (decide (i0 = i1)); [done|]. by rewrite decide_True. }
    apply wp_bind. eapply wp_intro.
    { apply free_desc_run; [apply D1|]. cbn. unfold fupd. rewrite decide_False by done. by rewrite decide_True. }
    wp_steps. left. split; [done|]. constructor; try done.
    - exists [i0; i1]. split; [cbn; lia|]. intros i Hi E. specialize (H i Hi). cbn in H. unfold fupd in H.
      destruct (decide (i = i1)) as [->|]; [by right; left|]. destruct (decide (i = i0)) as [->|]; [by left|congruence].
    - intros i. cbn. unfold fupd. destruct (decide (i = i1)) as [->|]; [done|]. destruct (decide (i = i0)) as [->|]; [done|done].
    - intros i E. cbn. unfold fupd. destruct (decide (i = i1)) as [->|]; [congruence|]. destruct (decide (i = i0)) as [->|]; [congruence|done].
    - intros t. right. cbn. by destruct (v_thread v t). }
  intros i2 D2 F2. destruct (Z.ltb_spec i2 0) as [Hneg|_]; [unfold desc_ok in D2; lia|].
  cbn in F2. unfold fupd in F2. destruct (decide (i2 = i1)) as [|N2]; [done|]. destruct (decide (i2 = i0)) as [|N3]; [done|].
  wp_steps. right. exists i0, i1, i2. split; [done|]. split; [|split; [by rewrite !Forall_cons, Forall_nil|done]].
  apply NoDup_cons; split; [set_solver|]. apply NoDup_cons; split; [set_solver|apply NoDup_singleton].
Qed.

(** ** Threads that wake up *)

Lemma tbuf_wake_alloc p : tbuf (wake_alloc p) = tbuf p.
Proof. by destruct p. Qed.
Lemma thead_wake_alloc p : thead (wake_alloc p) = thead p.
Proof. by destruct p. Qed.
Lemma tbuf_wake_buf b p : tbuf (wake_buf b p) = tbuf p.
Proof. destruct p; cbn; try done. by case_bool. Qed.
Lemma thead_wake_buf b p : thead (wake_buf b p) = thead p.
Proof. destruct p; cbn; try done. by case_bool. Qed.

(** Thread [t] may make a request for [b]. *)
Definition ready (v : vdisk) (t b : Z) : Prop :=
  thead (v_thread v t) = None /\
  forall t' b', t' <> t -> tbuf (v_thread v t') = Some b' -> b' <> b /\ sector_of (v_buf v b') <> sector_of (v_buf v b).

Lemma start_ready v t b : v_thread v t = TIdle -> may_start v b -> ready v t b.
Proof. intros E H. split; [by rewrite E|]. intros t' b' _. apply H. Qed.
Lemma retry_ready v A D t b w : thinv v A D -> v_thread v t = TAlloc b w -> ready v t b.
Proof.
  intros T E. split; [by rewrite E|]. intros t' b' Ht Hb. split; intros Hx; apply Ht;
    apply (th_uniq _ _ _ T t' t b' b); try done; [by rewrite E|by left|by rewrite E|by right].
Qed.

(** A new program counter for thread [t] without a request. *)
Lemma thinv_thread v v' A D t b p :
  thinv v A D -> ready v t b ->
  (forall t', t' <> t -> v_thread v' t' = v_thread v t' \/ v_thread v' t' = wake_alloc (v_thread v t')) -> v_thread v' t = p ->
  tbuf p = Some b -> thead p = None -> (forall w, p = TSleepAlloc b w -> starved (v_free v')) ->
  (forall i, v_free v' i = v_free v i) -> v_buf v' = v_buf v -> thinv v' A D.
Proof.
  intros T [R1 R2] Ho Ht Hb Hh Hs Hf Ebuf.
  assert (forall t', t' <> t -> tbuf (v_thread v' t') = tbuf (v_thread v t') /\ thead (v_thread v' t') = thead (v_thread v t')) as E.
  { intros t' N. destruct (Ho t' N) as [-> | ->]; [done|]. by rewrite tbuf_wake_alloc, thead_wake_alloc. }
  constructor.
  - intros t' b' w h Hh'. destruct (decide (t' = t)) as [->|N]; [congruence|]. rewrite (proj2 (E t' N)) in Hh'. by eapply th_req.
  - intros h q Hq. destruct (th_own _ _ _ T h q Hq) as [t' Ht']. exists t'. destruct (decide (t' = t)) as [->|N]; [congruence|].
    by rewrite (proj2 (E t' N)).
  - intros t1 t2 b1 b2 H1 H2 Hx. rewrite Ebuf in Hx.
    destruct (decide (t1 = t)) as [->|N1], (decide (t2 = t)) as [->|N2]; [done| | |].
    + rewrite (proj1 (E t2 N2)) in H2. destruct (R2 t2 b2 N2 H2) as [X Y]. rewrite Ht, Hb in H1. injection H1 as <-. exfalso. naive_solver.
    + rewrite (proj1 (E t1 N1)) in H1. destruct (R2 t1 b1 N1 H1) as [X Y]. rewrite Ht, Hb in H2. injection H2 as <-. exfalso. naive_solver.
    + rewrite (proj1 (E t1 N1)) in H1. rewrite (proj1 (E t2 N2)) in H2. by eapply (th_uniq _ _ _ T).
  - intros t' b' w h Ht'. destruct (decide (t' = t)) as [->|N]; [subst p; by rewrite Ht' in Hh|].
    destruct (Ho t' N) as [E'|E']; rewrite E' in Ht'; [by eapply th_sleep|].
    destruct (v_thread v t') eqn:Ev; cbn in Ht'; try done. eapply th_sleep; [exact T|]. by rewrite Ev.
  - intros t' b' w Ht'. destruct (decide (t' = t)) as [->|N].
    + subst p. rewrite Ht' in Hb. injection Hb as ->. by eapply Hs.
    + destruct (Ho t' N) as [E'|E']; rewrite E' in Ht'.
      * destruct (th_starved _ _ _ T _ _ _ Ht') as (l & Hl & Hall). exists l. split; [done|]. intros i Hi. rewrite Hf. by apply Hall.
      * by destruct (v_thread v t').
Qed.

Lemma try_failed v v1 A S U D t b w :
  vinv v A S U D -> ready v t b -> alloc_failed v v1 -> vinv (upd_thread t (TSleepAlloc b w) v1) A S U D.
Proof.
  intros (C & Q & T) R [Fs Ff Fd Ft (E1 & E2 & E3 & E4 & E5 & E6 & E7 & E8 & E9 & E10 & E11)]. split_and!.
  - destruct C as [C1 C2 C3 C4]. constructor; try done.
    + intros i Hi. cbn. rewrite Ff. by apply C3.
    + intros h q Hq. destruct (C4 h q Hq) as [F1 F2 F3 F4 F5]. destruct (C1 h q Hq) as [_ Hok].
      assert (forall i, i ∈ chain h q -> v_desc v1 i = v_desc v i) as Ed.
      { intros i Hi. apply Fd, C3; [|eauto]. rewrite Forall_forall in Hok. by apply Hok. }
      constructor; cbn; rewrite ?E6, ?E7, ?E8, ?Ed by set_solver; done.
  - destruct Q. constructor; cbn; rewrite ?E1, ?E2, ?E3, ?E4, ?E5, ?E6, ?E8, ?E9, ?E10, ?E11; done.
  - eapply (thinv_thread v _ A D t b (TSleepAlloc b w) T R); try done; cbn.
    + intros t' N. unfold fupd. rewrite decide_False by done. apply Ft.
    + unfold fupd. by rewrite decide_True.
    + intros w' _. destruct Fs as (l & Hl & Hall). exists l. split; [done|]. intros i Hi. rewrite Ff. by apply Hall.
Qed.

(** ** A new request *)

Record is_submitted (v v' : vdisk) (t b : Z) (w : bool) (i0 i1 i2 : Z) : Prop := {
  sb_desc : v_desc v' = fupd i2 (VDesc (DStatus i0) 1 VRING_DESC_F_WRITE 0)
    (fupd i1 (VDesc (DData b) BSIZE (Z.lor (if w then 0 else VRING_DESC_F_WRITE) VRING_DESC_F_NEXT) i2)
      (fupd i0 (VDesc (DOps i0) 16 VRING_DESC_F_NEXT i1) (v_desc v)));
  sb_free : v_free v' = fupd i2 false (fupd i1 false (fupd i0 false (v_free v)));
  sb_info : in_b (v_info v' i0) = Some b /\ forall i, i <> i0 -> v_info v' i = v_info v i;
  sb_ops : v_ops v' = fupd i0 (VReq (if w then VIRTIO_BLK_T_OUT else VIRTIO_BLK_T_IN) 0 (sector_of (v_buf v b))) (v_ops v);
  sb_buf : v_buf v' = fupd b (set_disk_flag 1 (v_buf v b)) (v_buf v);
  sb_avail : v_avail_ring v' = fupd (v_avail_idx v mod NUM) i0 (v_avail_ring v) /\ v_avail_idx v' = w16 (v_avail_idx v + 1);
  sb_thread : v_thread v' = fupd t (TSleepWait b w i0) (v_thread v);
  sb_rest : v_used_ring v' = v_used_ring v /\ v_used_dev v' = v_used_dev v /\ v_used_idx v' = v_used_idx v /\
    dev_disk v' = dev_disk v /\ dev_avail v' = dev_avail v /\ dev_pending v' = dev_pending v
}.

Lemma submit_wp v t b w i0 i1 i2 :
  wp (submit b w i0 i1 i2;; rw_wait t b w i0) (fun _ v' => is_submitted v v' t b w i0 i1 i2)
    (upd_free i2 false (upd_free i1 false (upd_free i0 false v))).
Proof.
  unfold submit, rw_wait. wp_steps. cbn [set_avail upd_info set_info upd_vbuf set_vbuf v_buf vb_disk].
  unfold fupd at 1. rewrite decide_True by done. change (vb_disk (set_disk_flag 1 _) =? 1) with true. cbv iota. wp_steps.
  constructor; cbn; try done. unfold fupd. split; [by rewrite decide_True|]. intros i N. by rewrite !decide_False.
Qed.

Section submitted.
Context {v v' : vdisk} {A : gmap Z req} {S U D : list Z} {t b : Z} {w : bool} {i0 i1 i2 : Z}.
Hypothesis (V : vinv v A S U D) (R : ready v t b) (Hn : NoDup [i0; i1; i2]).
Hypothesis (Hf : Forall (fun i => desc_ok i /\ v_free v i = true) [i0; i1; i2]).
Hypothesis (I : is_submitted v v' t b w i0 i1 i2).

#[local] Lemma new_free i : i ∈ [i0; i1; i2] -> desc_ok i /\ v_free v i = true.
Proof. rewrite Forall_forall in Hf. apply Hf. Qed.

#[local] Lemma new_apart i h q : A !! h = Some q -> i ∈ chain h q -> i ∉ [i0; i1; i2].
Proof.
  intros Hq Hi Hin. destruct V as (C & _ & _). destruct (new_free i Hin) as [Hok Hfree].
  assert (v_free v i = false) by (apply (ci_free _ _ C); eauto). congruence.
Qed.

#[local] Lemma new_head : A !! i0 = None.
Proof.
  destruct (A !! i0) as [q|] eqn:E; [|done]. exfalso. apply (new_apart i0 i0 q E); set_solver.
Qed.

#[local] Lemma new_buf h q : A !! h = Some q -> q_buf q <> b /\ sector_of (v_buf v (q_buf q)) <> sector_of (v_buf v b).
Proof.
  intros Hq. destruct V as (_ & _ & T). destruct (th_own _ _ _ T h q Hq) as [t' Ht']. apply R with t'; [|by eapply thead_tbuf].
  intros ->. destruct R as [R1 _]. congruence.
Qed.

#[local] Lemma new_desc_other i : i ∉ [i0; i1; i2] -> v_desc v' i = v_desc v i.
Proof. intros H. rewrite (sb_desc _ _ _ _ _ _ _ _ I). unfold fupd. rewrite !decide_False by set_solver. done. Qed.

#[local] Lemma new_buf_other h q : A !! h = Some q -> v_buf v' (q_buf q) = v_buf v (q_buf q).
Proof. intros Hq. rewrite (sb_buf _ _ _ _ _ _ _ _ I). unfold fupd. by rewrite decide_False by (apply (new_buf h q Hq)). Qed.

#[local] Lemma new_formatted : formatted v' i0 (Req b w i1 i2).
Proof.
  assert (i0 <> i1 /\ i0 <> i2 /\ i1 <> i2) as (N1 & N2 & N3).
  { apply NoDup_cons in Hn as [H1 H2]. apply NoDup_cons in H2 as [H2 _]. set_solver. }
  constructor; rewrite ?(sb_desc _ _ _ _ _ _ _ _ I), ?(sb_ops _ _ _ _ _ _ _ _ I), ?(sb_buf _ _ _ _ _ _ _ _ I); cbn; unfold fupd.
  - by rewrite !(decide_False (P := i0 = _)), decide_True by done.
  - by rewrite (decide_False (P := i1 = _)), decide_True by done.
  - by rewrite decide_True.
  - by rewrite !decide_True.
  - apply (sb_info _ _ _ _ _ _ _ _ I).
Qed.

Lemma submitted_cinv : cinv v' (<[i0 := (Req b w i1 i2)]> A).
Proof.
  destruct V as (C & Q & T). destruct C as [C1 C2 C3 C4]. constructor.
  - intros h q. rewrite lookup_insert_Some. intros [[<- <-]|[_ Hq]]; [|by apply C1]. split; [done|].
    eapply Forall_impl; [exact Hf|]. by intros x [].
  - intros i h h' q q'. rewrite !lookup_insert_Some. intros [[<- <-]|[_ Hq]] [[<- <-]|[_ Hq']] Hi Hi'; [done| | |by eapply C2].
    + exfalso. by apply (new_apart i h' q' Hq' Hi').
    + exfalso. by apply (new_apart i h q Hq Hi).
  - intros i Hi. rewrite (sb_free _ _ _ _ _ _ _ _ I).
    assert (fupd i2 false (fupd i1 false (fupd i0 false (v_free v))) i = if decide (i ∈ [i0; i1; i2]) then false else v_free v i) as ->.
    { unfold fupd. destruct (decide (i = i2)) as [->|]; [by rewrite decide_True by set_solver|].
      destruct (decide (i = i1)) as [->|]; [by rewrite decide_True by set_solver|].
      destruct (decide (i = i0)) as [->|]; [by rewrite decide_True by set_solver|]. by rewrite decide_False by set_solver. }
    destruct (decide (i ∈ [i0; i1; i2])) as [Hin|Hin].
    + split; [|done]. intros _. exists i0, (Req b w i1 i2). by rewrite lookup_insert_eq.
    + rewrite C3 by done. split; intros (h & q & Hq & Hc).
      * exists h, q. split; [|done]. rewrite lookup_insert_ne; [done|]. intros <-. by rewrite new_head in Hq.
      * apply lookup_insert_Some in Hq as [[<- <-]|[_ Hq]]; [done|]. eauto.
  - intros h q. rewrite lookup_insert_Some. intros [[<- <-]|[Ne Hq]]; [apply new_formatted|].
    destruct (C4 h q Hq) as [F1 F2 F3 F4 F5].
    assert (forall i, i ∈ chain h q -> v_desc v' i = v_desc v i) as Ed by (intros i Hi; apply new_desc_other; by eapply new_apart).
    constructor; rewrite ?Ed, ?(new_buf_other h q Hq), ?(proj2 (sb_info _ _ _ _ _ _ _ _ I)) by (done || set_solver); try done.
    rewrite (sb_ops _ _ _ _ _ _ _ _ I). unfold fupd. by rewrite decide_False by done.
Qed.

Lemma submitted_thinv : thinv v' (<[i0 := (Req b w i1 i2)]> A) D.
Proof.
  destruct V as (C & Q & T). destruct R as [R1 R2].
  assert (forall t', t' <> t -> v_thread v' t' = v_thread v t') as Et.
  { intros t' N. rewrite (sb_thread _ _ _ _ _ _ _ _ I). unfold fupd. by rewrite decide_False. }
  assert (v_thread v' t = TSleepWait b w i0) as Ett by (rewrite (sb_thread _ _ _ _ _ _ _ _ I); unfold fupd; by rewrite decide_True).
  assert (forall x, sector_of (v_buf v' x) = sector_of (v_buf v x)) as Es.
  { intros x. rewrite (sb_buf _ _ _ _ _ _ _ _ I). unfold fupd. by destruct (decide (x = b)) as [->|]. }
  constructor.
  - intros t' b' w' h Hh. destruct (decide (t' = t)) as [->|N].
    + rewrite Ett in Hh. injection Hh as <- <- <-. exists (Req b w i1 i2). by rewrite lookup_insert_eq.
    + rewrite (Et t' N) in Hh. destruct (th_req _ _ _ T _ _ _ _ Hh) as (q & Hq & ?). exists q. split; [|done].
      rewrite lookup_insert_ne; [done|]. intros <-. by rewrite new_head in Hq.
  - intros h q. rewrite lookup_insert_Some. intros [[<- <-]|[Ne Hq]]; [exists t; by rewrite Ett|].
    destruct (th_own _ _ _ T h q Hq) as [t' Ht']. exists t'. rewrite Et; [done|]. intros ->. congruence.
  - intros t1 t2 b1 b2 H1 H2 Hx. rewrite !Es in Hx.
    destruct (decide (t1 = t)) as [->|N1], (decide (t2 = t)) as [->|N2]; [done| | |].
    + rewrite Ett in H1. injection H1 as <-. rewrite (Et t2 N2) in H2. destruct (R2 t2 b2 N2 H2). exfalso. naive_solver.
    + rewrite Ett in H2. injection H2 as <-. rewrite (Et t1 N1) in H1. destruct (R2 t1 b1 N1 H1). exfalso. naive_solver.
    + rewrite (Et t1 N1) in H1. rewrite (Et t2 N2) in H2. by eapply (th_uniq _ _ _ T).
  - intros t' b' w' h Ht'. destruct (decide (t' = t)) as [->|N].
    + rewrite Ett in Ht'. injection Ht' as <- <- <-. intros Hin.
      assert (is_Some (A !! i0)) as [q E] by (apply (qi_dom _ _ _ _ _ Q); set_solver). by rewrite new_head in E.
    + rewrite (Et t' N) in Ht'. by eapply th_sleep.
  - intros t' b' w' Ht'. destruct (decide (t' = t)) as [->|N]; [by rewrite Ett in Ht'|]. rewrite (Et t' N) in Ht'.
    destruct (th_starved _ _ _ T _ _ _ Ht') as (l & Hl & Hall). exists l. split; [done|]. intros i Hi E. apply Hall; [done|].
    rewrite (sb_free _ _ _ _ _ _ _ _ I) in E. unfold fupd in E. repeat (case_decide; [done|]). done.
Qed.

Lemma submitted_qinv : qinv v' (<[i0 := (Req b w i1 i2)]> A) (S ++ [i0]) U D.
Proof.
  pose proof V as (C & Q & T). destruct Q as [Q1 Q2 Q3 Q4 Q5 Q6 Q7].
  destruct (sb_rest _ _ _ _ _ _ _ _ I) as (E1 & E2 & E3 & E4 & E5 & E6).
  assert (i0 ∉ S ++ dev_pending v ++ U ++ D) as Hnew.
  { intros Hin. apply Q2 in Hin as [q E]. by rewrite new_head in E. }
  constructor; rewrite ?E1, ?E2, ?E3, ?E4, ?E5, ?E6.
  - rewrite <- app_assoc. rewrite (Permutation_app_comm S). cbn. rewrite <- (Permutation_app_comm S). by apply NoDup_cons.
  - intros h. rewrite lookup_insert_is_Some. rewrite <- Q2. set_solver.
  - destruct (sb_avail _ _ _ _ _ _ _ _ I) as [-> ->]. apply ring_push; [done|].
    assert (Z.of_nat (length (S ++ [i0])) <= NUM) as Hb; [|rewrite length_app in Hb; cbn in Hb; lia].
    apply heads_bound.
    + apply NoDup_app in Q1 as (Q1 & _ & _). apply NoDup_app. split_and!; [done|set_solver|apply NoDup_singleton].
    + apply Forall_app. split; [|apply Forall_singleton, (new_free i0); set_solver]. apply Forall_forall. intros x Hx.
      assert (is_Some (A !! x)) as [q Hq] by (apply Q2; set_solver). destruct C as [C1 _ _ _]. destruct (C1 x q Hq) as [_ Hc].
      by apply Forall_cons in Hc as [Hc _].
  - done.
  - intros h q. rewrite lookup_insert_Some. intros [[<- <-]|[Ne Hq]].
    + rewrite (sb_buf _ _ _ _ _ _ _ _ I). cbn. unfold fupd. rewrite decide_True by done. rewrite decide_False; [done|set_solver].
    + rewrite (new_buf_other h q Hq). by apply Q5.
  - intros h Hh. rewrite (proj2 (sb_info _ _ _ _ _ _ _ _ I)); [by apply Q6|]. intros ->. set_solver.
  - intros h q Hin. rewrite lookup_insert_Some. intros [[<- <-]|[Ne Hq]]; [set_solver|].
    rewrite (new_buf_other h q Hq). by apply (Q7 h).
Qed.
End submitted.

(** virtio_disk_rw up to where it sleeps. *)
Lemma rw_try_wp v A S U D t b w :
  vinv v A S U D -> ready v t b -> wp (rw_try t b w) (fun _ v' => exists A' S', vinv v' A' S' U D) v.
Proof.
  intros V R. unfold rw_try. eapply wp_call; [apply alloc3_desc_wp|]. cbv beta.
  intros r v1 [[-> F]|(i0 & i1 & i2 & -> & Hn & Hf & ->)].
  - wp_steps. exists A, S. by eapply try_failed.
  - eapply wp_mono; [apply submit_wp|]. cbv beta. intros ? v' I. eexists _, _. split_and!.
    + by apply (submitted_cinv V R Hn Hf I).
    + by apply (submitted_qinv V R Hn Hf I).
    + by apply (submitted_thinv V R Hn Hf I).
Qed.

(** ** Steps that leave the chains alone *)

Lemma cinv_same v v' A :
  cinv v A -> v_free v' = v_free v -> v_desc v' = v_desc v -> v_ops v' = v_ops v ->
  (forall h q, A !! h = Some q -> in_b (v_info v' h) = in_b (v_info v h) /\
     sector_of (v_buf v' (q_buf q)) = sector_of (v_buf v (q_buf q))) -> cinv v' A.
Proof.
  intros [C1 C2 C3 C4] Ef Ed Eo Es. constructor; rewrite ?Ef; try done.
  intros h q Hq. destruct (C4 h q Hq) as [F1 F2 F3 F4 F5]. destruct (Es h q Hq) as [Eb Esec].
  constructor; rewrite ?Ed, ?Eo, ?Esec, ?Eb; done.
Qed.

Lemma thinv_same v v' A D D' :
  thinv v A D -> (forall t, tbuf (v_thread v' t) = tbuf (v_thread v t) /\ thead (v_thread v' t) = thead (v_thread v t)) ->
  (forall t x, tbuf (v_thread v t) = Some x -> sector_of (v_buf v' x) = sector_of (v_buf v x)) ->
  (forall t b w h, v_thread v' t = TSleepWait b w h -> h ∉ D') ->
  (forall t b w, v_thread v' t = TSleepAlloc b w -> starved (v_free v')) -> thinv v' A D'.
Proof.
  intros T E Es H1 H2. constructor; try done.
  - intros t b w h. rewrite (proj2 (E t)). apply (th_req _ _ _ T).
  - intros h q Hq. destruct (th_own _ _ _ T h q Hq) as [t Ht]. exists t. by rewrite (proj2 (E t)).
  - intros t t' b b' Hb Hb'. rewrite (proj1 (E t)) in Hb. rewrite (proj1 (E t')) in Hb'. rewrite (Es t b Hb), (Es t' b' Hb').
    by apply (th_uniq _ _ _ T).
Qed.

Lemma req_tbuf v A D h q : thinv v A D -> A !! h = Some q -> exists t, tbuf (v_thread v t) = Some (q_buf q).
Proof. intros T Hq. destruct (th_own _ _ _ T h q Hq) as [t Ht]. exists t. by eapply thead_tbuf. Qed.

Lemma fetch_inv v A S U D :
  vinv v A S U D -> dev_avail v <> v_avail_idx v -> exists S', vinv (dev_fetch v) A S' U D.
Proof.
  intros (C & Q & T) Hne. destruct Q as [Q1 Q2 Q3 Q4 Q5 Q6 Q7]. destruct S as [|h S]; [by destruct Hne; apply (ring_empty _ _ _ _ Q3)|].
  destruct (ring_pop _ _ _ _ _ Q3) as [Eh Q3']. exists S. split_and!.
  - by apply (cinv_same v).
  - assert (h :: S ++ dev_pending v ++ U ++ D ≡ₚ S ++ (dev_pending v ++ [h]) ++ U ++ D) as HP.
    { rewrite <- (app_assoc (dev_pending v)), Permutation_middle. f_equiv. by rewrite Permutation_middle. }
    constructor; cbn [dev_fetch set_dev dev_pending v_avail_ring dev_avail v_avail_idx v_used_ring v_used_idx v_used_dev v_buf v_info dev_disk]; try done.
    + rewrite Eh, <- HP. done.
    + intros h'. rewrite Eh, <- HP. apply Q2.
  - apply (thinv_same v _ A D D T); [done|done|apply (th_sleep _ _ _ T)|apply (th_starved _ _ _ T)].
Qed.

Lemma client_inv v A S U D b x : vinv v A S U D -> unused v b -> vinv (upd_vbuf b x v) A S U D.
Proof.
  intros (C & Q & T) Hb.
  assert (forall h q, A !! h = Some q -> v_buf (upd_vbuf b x v) (q_buf q) = v_buf v (q_buf q)) as E.
  { intros h q Hq. destruct (req_tbuf _ _ _ _ _ T Hq) as [t Ht]. cbn. unfold fupd. rewrite decide_False; [done|].
    intros Eb. apply (Hb t). by rewrite Ht, Eb. }
  split_and!.
  - apply (cinv_same v); try done. intros h q Hq. by rewrite (E h q Hq).
  - destruct Q as [Q1 Q2 Q3 Q4 Q5 Q6 Q7]. constructor; try done.
    + intros h q Hq. rewrite (E h q Hq). by apply Q5.
    + intros h q Hin Hq. rewrite (E h q Hq). by apply (Q7 h).
  - apply (thinv_same v _ A D D T); [done| |apply (th_sleep _ _ _ T)|apply (th_starved _ _ _ T)].
    intros t y Hy. cbn. unfold fupd. rewrite decide_False; [done|]. intros ->. by apply (Hb t).
Qed.

(** ** The interrupt handler *)

Definition intr_round (b : Z) (v : vdisk) : vdisk :=
  set_used_idx (w16 (v_used_idx v + 1))
    (set_thread (fun t => wake_buf b (v_thread v t)) (upd_vbuf b (set_disk_flag 0 (v_buf v b)) v)).

Lemma intr_round_inv v A S h U D q :
  vinv v A S (h :: U) D -> A !! h = Some q -> vinv (intr_round (q_buf q) v) A S U (h :: D).
Proof.
  intros V Hq. pose proof V as (C & Q & T). destruct Q as [Q1 Q2 Q3 Q4 Q5 Q6 Q7].
  assert (forall x, sector_of (v_buf (intr_round (q_buf q) v) x) = sector_of (v_buf v x) /\
    vb_data (v_buf (intr_round (q_buf q) v) x) = vb_data (v_buf v x)) as Es.
  { intros x. cbn. unfold fupd. by destruct (decide (x = q_buf q)) as [->|]. }
  assert (S ++ dev_pending v ++ (h :: U) ++ D ≡ₚ S ++ dev_pending v ++ U ++ h :: D) as HP.
  { do 2 f_equiv. cbn. by rewrite Permutation_middle. }
  split_and!.
  - apply (cinv_same v); try done. intros h' q' _. by rewrite (proj1 (Es _)).
  - constructor.
    + change (dev_pending (intr_round (q_buf q) v)) with (dev_pending v). by rewrite <- HP.
    + intros h'. change (dev_pending (intr_round (q_buf q) v)) with (dev_pending v). rewrite <- HP. apply Q2.
    + exact Q3.
    + apply (ring_pop _ _ _ _ _ Q4).
    + intros h' q' Hq'. cbn. unfold fupd. destruct (decide (q_buf q' = q_buf q)) as [Eb|Nb].
      * assert (h' = h) as -> by (eapply req_sep; [exact V|done|done|by left]). rewrite decide_True by set_solver. done.
      * rewrite (Q5 h' q' Hq'). assert (h' <> h) by (intros ->; congruence).
        destruct (decide (h' ∈ D)); [by rewrite decide_True by set_solver|by rewrite decide_False by set_solver].
    + intros h' Hh'. apply Q6. set_solver.
    + intros h' q' Hin Hq'. rewrite (proj1 (Es _)), (proj2 (Es _)). apply (Q7 h'); [set_solver|done].
  - apply (thinv_same v _ A D (h :: D) T).
    + intros t. cbn. by rewrite tbuf_wake_buf, thead_wake_buf.
    + intros t x _. apply Es.
    + intros t b w h' Ht. cbn in Ht. destruct (v_thread v t) as [| | | |b1 w1 h1] eqn:Ev; cbn in Ht; try done.
      destruct (Z.eqb_spec b1 (q_buf q)) as [->|Nb]; [done|]. injection Ht as <- <- <-.
      pose proof (th_sleep _ _ _ T _ _ _ _ Ev) as Hs. destruct (th_req _ _ _ T t b1 w1 h1) as (q1 & Hq1 & E1 & _); [by rewrite Ev|].
      assert (h1 <> h) by (intros ->; congruence). set_solver.
    + intros t b w Ht. cbn in Ht. apply (th_starved _ _ _ T t b w). destruct (v_thread v t); cbn in Ht; try done.
      by destruct (_ =? _) in Ht.
Qed.

Lemma intr_loop_wp U : forall fuel v A S D,
  vinv v A S U D -> (length U <= fuel)%nat -> wp (intr_loop fuel) (fun _ v' => exists D', vinv v' A S [] D') v.
Proof.
  induction U as [|h U IH]; intros fuel v A S D V Hf; pose proof V as (C & Q & T); pose proof (qi_used _ _ _ _ _ Q) as Q4.
  - destruct fuel; cbn [intr_loop]; wp_steps; unfold id; rewrite (proj2 (ring_empty _ _ _ _ Q4) eq_refl), Z.eqb_refl; apply wp_skip; eauto.
  - destruct fuel as [|fuel]; [cbn in Hf; lia|]. cbn [intr_loop]. wp_steps. unfold id.
    destruct (Z.eqb_spec (v_used_idx v) (v_used_dev v)) as [E|_]; [by apply (ring_empty _ _ _ _ Q4) in E|].
    destruct (ring_pop _ _ _ _ _ Q4) as [Eh _]. rewrite Eh. cbv zeta.
    rewrite (qi_status _ _ _ _ _ Q h) by set_solver. cbn [negb Z.eqb].
    assert (is_Some (A !! h)) as [q Hq] by (apply (qi_dom _ _ _ _ _ Q); set_solver).
    rewrite (fm_b _ _ _ (ci_fmt _ _ C h q Hq)). unfold wakeup_buf. wp_steps.
    change (set_used_idx _ _) with (intr_round (q_buf q) v).
    apply (IH fuel _ A S (h :: D)); [by apply intr_round_inv|cbn in Hf; lia].
Qed.

Lemma virtio_disk_intr_wp v A S U D :
  vinv v A S U D -> wp virtio_disk_intr (fun _ v' => exists D', vinv v' A S [] D') v.
Proof.
  intros V. pose proof V as (_ & Q & _). unfold virtio_disk_intr. wp_steps. unfold id. eapply intr_loop_wp; [exact V|].
  destruct (qi_used _ _ _ _ _ Q) as (H0 & -> & Hl & _). unfold w16, NUM in *.
  assert (((v_used_idx v + Z.of_nat (length U)) mod 2 ^ 16 - v_used_idx v) mod 2 ^ 16 = Z.of_nat (length U)) as ->.
  { rewrite Zminus_mod_idemp_l. rewrite Z.mod_small; lia. }
  lia.
Qed.

(** ** The device completes a request *)

Lemma chain_request_ok v A h q :
  cinv v A -> A !! h = Some q -> chain_request v h = Some (q_write q, sector_of (v_buf v (q_buf q)), q_buf q, h).
Proof.
  intros C Hq. destruct (ci_fmt _ _ C h q Hq) as [F1 F2 F3 F4 F5]. unfold chain_request.
  rewrite F1. cbn [d_next d_addr]. rewrite F2. cbn [d_next d_addr]. rewrite F3, F4. cbn [d_next d_addr d_len d_flags rq_type rq_sector].
  by destruct (q_write q).
Qed.

Lemma complete_inv v v' A S U D h :
  vinv v A S U D -> h ∈ dev_pending v -> dev_complete h v = Some v' -> vinv v' A S (U ++ [h]) D.
Proof.
  intros V Hh E. pose proof V as (C & Q & T). destruct Q as [Q1 Q2 Q3 Q4 Q5 Q6 Q7].
  assert (is_Some (A !! h)) as [q Hq] by (apply Q2; set_solver).
  unfold dev_complete in E. rewrite (chain_request_ok v A h q C Hq) in E. injection E as <-.
  set (P := filter (fun x => x <> h) (dev_pending v)).
  assert (dev_pending v ≡ₚ h :: P) as HPp.
  { apply NoDup_Permutation.
    - apply NoDup_app in Q1 as (_ & _ & Q1). by apply NoDup_app in Q1 as (Q1 & _ & _).
    - apply NoDup_cons. split; [unfold P; rewrite list_elem_of_filter; naive_solver|].
      apply NoDup_filter. apply NoDup_app in Q1 as (_ & _ & Q1). by apply NoDup_app in Q1 as (Q1 & _ & _).
    - intros x. unfold P. rewrite elem_of_cons, list_elem_of_filter. destruct (decide (x = h)); naive_solver. }
  assert (S ++ dev_pending v ++ U ++ D ≡ₚ S ++ P ++ (U ++ [h]) ++ D) as HP.
  { f_equiv. rewrite HPp, <- (app_assoc U). cbn. rewrite Permutation_middle. f_equiv. by rewrite Permutation_middle. }
  set (sec := sector_of (v_buf v (q_buf q))).
  set (v1 := if q_write q then set_dev (fupd sec (vb_data (v_buf v (q_buf q))) (dev_disk v)) (dev_avail v) (dev_pending v) v
             else upd_vbuf (q_buf q) (set_vdata (dev_disk v sec) (v_buf v (q_buf q))) v).
  assert (forall x, x <> q_buf q -> v_buf v1 x = v_buf v x) as Eo.
  { intros x Nx. unfold v1. destruct (q_write q); [done|]. cbn. unfold fupd. by rewrite decide_False. }
  assert (forall x, sector_of (v_buf v1 x) = sector_of (v_buf v x) /\ vb_disk (v_buf v1 x) = vb_disk (v_buf v x)) as Es.
  { intros x. unfold v1. destruct (q_write q); [done|]. cbn. unfold fupd. by destruct (decide (x = q_buf q)) as [->|]. }
  assert (dev_disk v1 sec = vb_data (v_buf v1 (q_buf q)) /\ forall x, x <> sec -> dev_disk v1 x = dev_disk v x) as [Ed Ed'].
  { unfold v1. destruct (q_write q); cbn; unfold fupd.
    - split; [by rewrite decide_True|]. intros x Nx. by rewrite decide_False.
    - split; [by rewrite decide_True|done]. }
  assert (v_free v1 = v_free v /\ v_desc v1 = v_desc v /\ v_ops v1 = v_ops v /\ v_info v1 = v_info v /\ v_thread v1 = v_thread v /\
    v_avail_ring v1 = v_avail_ring v /\ v_avail_idx v1 = v_avail_idx v /\ v_used_ring v1 = v_used_ring v /\
    v_used_dev v1 = v_used_dev v /\ v_used_idx v1 = v_used_idx v /\ dev_avail v1 = dev_avail v /\ dev_pending v1 = dev_pending v)
    as (X1 & X2 & X3 & X4 & X5 & X6 & X7 & X8 & X9 & X10 & X11 & X12) by (unfold v1; by destruct (q_write q)).
  clearbody v1. split_and!.
  - apply (cinv_same v); cbn; try done. intros h' q' Hq'. rewrite (proj1 (Es _)), X4. split; [|done].
    unfold fupd. by destruct (decide (h' = h)) as [->|].
  - constructor; cbn; rewrite ?X6, ?X7, ?X8, ?X9, ?X10, ?X11, ?X12; fold P.
    + by rewrite <- HP.
    + intros h'. rewrite <- HP. apply Q2.
    + done.
    + apply ring_push; [done|]. assert (Z.of_nat (length (h :: U)) <= NUM) as Hb; [|cbn in Hb; lia]. apply heads_bound.
      * apply NoDup_app in Q1 as (_ & _ & Q1). apply NoDup_app in Q1 as (_ & Hd & Q1). apply NoDup_app in Q1 as (Q1 & _ & _).
        apply NoDup_cons. split; [|done]. intros Hu. apply (Hd h Hh). set_solver.
      * apply Forall_forall. intros x Hx. assert (is_Some (A !! x)) as [q' Hq'] by (apply Q2; set_solver).
        destruct (ci_chain _ _ C x q' Hq') as [_ Hc]. by apply Forall_cons in Hc as [Hc _].
    + intros h' q' Hq'. rewrite (proj2 (Es _)). by apply Q5.
    + intros h' Hh'. rewrite X4. unfold fupd. destruct (decide (h' = h)) as [->|N]; [done|]. apply Q6. set_solver.
    + intros h' q' Hin Hq'. rewrite (proj1 (Es _)). destruct (decide (h' = h)) as [->|N].
      * assert (q' = q) as -> by congruence. exact Ed.
      * assert (q_buf q' <> q_buf q /\ sector_of (v_buf v (q_buf q')) <> sec) as [N1 N2].
        { split; intros Hx; apply N; eapply req_sep; [exact V|done|done|by left|exact V|done|done|by right]. }
        rewrite Ed', Eo by done. apply (Q7 h'); [set_solver|done].
  - apply (thinv_same v _ A D D T); cbn; rewrite ?X5, ?X1; [done| |apply (th_sleep _ _ _ T)|apply (th_starved _ _ _ T)].
    intros t x _. apply Es.
Qed.

(** ** The end of a request *)

Lemma free_chain_run v h q :
  v_desc v h = VDesc (DOps h) 16 VRING_DESC_F_NEXT (q_i1 q) ->
  v_desc v (q_i1 q) =
    VDesc (DData (q_buf q)) BSIZE (Z.lor (if q_write q then 0 else VRING_DESC_F_WRITE) VRING_DESC_F_NEXT) (q_i2 q) ->
  v_desc v (q_i2 q) = VDesc (DStatus h) 1 VRING_DESC_F_WRITE 0 ->
  NoDup (chain h q) -> Forall desc_ok (chain h q) -> (forall i, i ∈ chain h q -> v_free v i = false) ->
  free_chain h v = Ret () (freed_desc (q_i2 q) (freed_desc (q_i1 q) (freed_desc h v))).
Proof.
  intros F1 F2 F3 Hn Hok Hf. unfold chain in Hn, Hok, Hf.
  assert (h <> q_i1 q /\ h <> q_i2 q /\ q_i1 q <> q_i2 q) as (N1 & N2 & N3).
  { apply NoDup_cons in Hn as [H1 H2]. apply NoDup_cons in H2 as [H2 _]. set_solver. }
  rewrite !Forall_cons in Hok. destruct Hok as (O0 & O1 & O2 & _).
  unfold free_chain. change (Z.to_nat NUM) with 8%nat. cbn [free_chain_loop].
  rewrite (bind_ok (gets (fun v => v_desc v h)) _ v (v_desc v h) v) by done.
  rewrite (bind_ok (free_desc h) _ _ _ _ (free_desc_run h v ltac:(apply O0) ltac:(apply Hf; set_solver))).
  rewrite F1. cbn [d_flags d_next]. change (has VRING_DESC_F_NEXT VRING_DESC_F_NEXT) with true. cbv iota.
  rewrite (bind_ok (gets (fun v => v_desc v (q_i1 q))) _ _ (v_desc v (q_i1 q)) (freed_desc h v))
    by (unfold gets; cbn; unfold fupd; by rewrite decide_False).
  rewrite (bind_ok (free_desc (q_i1 q)) _ _ _ _ (free_desc_run (q_i1 q) (freed_desc h v) ltac:(apply O1)
    ltac:(cbn; unfold fupd; rewrite decide_False by done; apply Hf; set_solver))).
  rewrite F2. cbn [d_flags d_next]. replace (has _ VRING_DESC_F_NEXT) with true by (by destruct (q_write q)). cbv iota.
  rewrite (bind_ok (gets (fun v => v_desc v (q_i2 q))) _ _ (v_desc v (q_i2 q)) (freed_desc (q_i1 q) (freed_desc h v)))
    by (unfold gets; cbn; unfold fupd; by rewrite !decide_False).
  rewrite (bind_ok (free_desc (q_i2 q)) _ _ _ _ (free_desc_run (q_i2 q) (freed_desc (q_i1 q) (freed_desc h v)) ltac:(apply O2)
    ltac:(cbn; unfold fupd; rewrite !decide_False by done; apply Hf; set_solver))).
  rewrite F3. done.
Qed.

(** The state after the request with head [h] of thread [t]. *)
Record is_finished (v v' : vdisk) (t h : Z) (q : req) : Prop := {
  fn_free : forall i, v_free v' i = if decide (i ∈ chain h q) then true else v_free v i;
  fn_desc : forall i, i ∉ chain h q -> v_desc v' i = v_desc v i;
  fn_info : forall i, i <> h -> v_info v' i = v_info v i;
  fn_thread : forall t', v_thread v' t' = if decide (t' = t) then TIdle else wake_alloc (v_thread v t');
  fn_rest : v_ops v' = v_ops v /\ v_buf v' = v_buf v /\ v_avail_ring v' = v_avail_ring v /\ v_avail_idx v' = v_avail_idx v /\
    v_used_ring v' = v_used_ring v /\ v_used_dev v' = v_used_dev v /\ v_used_idx v' = v_used_idx v /\
    dev_disk v' = dev_disk v /\ dev_avail v' = dev_avail v /\ dev_pending v' = dev_pending v
}.

Lemma finish_run v A h q t :
  cinv v A -> A !! h = Some q ->
  wp (modify (fun v => upd_info h (VInfo None (in_status (v_info v h))) v);; free_chain h;; modify (upd_thread t TIdle))
    (fun _ v' => is_finished v v' t h q) v.
Proof.
  intros C Hq. wp_steps. set (v1 := upd_info h _ v).
  destruct (ci_fmt _ _ C h q Hq) as [F1 F2 F3 _ _]. destruct (ci_chain _ _ C h q Hq) as [Hn Hok].
  eapply wp_intro; [apply (free_chain_run v1 h q); try done|].
  { intros i Hi. apply (ci_free _ _ C); [|eauto]. rewrite Forall_forall in Hok. by apply Hok. }
  wp_steps. unfold v1. constructor; try done.
  - intros i. cbn. unfold fupd. unfold chain. destruct (decide (i = q_i2 q)) as [->|]; [by rewrite decide_True by set_solver|].
    destruct (decide (i = q_i1 q)) as [->|]; [by rewrite decide_True by set_solver|].
    destruct (decide (i = h)) as [->|]; [by rewrite decide_True by set_solver|]. by rewrite decide_False by set_solver.
  - intros i Hi. unfold chain in Hi. cbn. unfold fupd. by rewrite !decide_False by set_solver.
  - intros i Hi. cbn. unfold fupd. by rewrite decide_False.
  - intros t'. cbn. unfold fupd. destruct (decide (t' = t)); [done|]. by destruct (v_thread v t').
Qed.

Lemma finished_inv v v' A S U D t b w h q :
  vinv v A S U D -> thead (v_thread v t) = Some (b, w, h) -> A !! h = Some q -> h ∈ D -> is_finished v v' t h q ->
  vinv v' (delete h A) S U (filter (fun x => x <> h) D).
Proof.
  intros V Ht Hq HD [Nf Nd Ni Nt (X1 & X2 & X3 & X4 & X5 & X6 & X7 & X8 & X9 & X10)]. pose proof V as (C & Q & T).
  assert (forall h' q' i, A !! h' = Some q' -> h' <> h -> i ∈ chain h' q' -> i ∉ chain h q) as Hsep.
  { intros h' q' i Hq' N Hi Hi'. apply N. by eapply (ci_sep _ _ C i). }
  assert ((h ∉ S ++ dev_pending v ++ U) /\ NoDup D /\ forall x, x ∈ D -> x ∉ S ++ dev_pending v ++ U) as (Hh & HnD & HdD).
  { pose proof (qi_nodup _ _ _ _ _ Q) as Hn. rewrite !app_assoc in Hn. apply NoDup_app in Hn as (_ & Hd & Hn).
    rewrite <- !app_assoc in Hd. split_and!; [intros Hin; by apply (Hd h)|done|]. intros x Hx Hin. by apply (Hd x). }
  split_and!.
  - destruct C as [C1 C2 C3 C4]. constructor.
    + intros h' q'. rewrite lookup_delete_Some. intros [_ Hq']. by apply C1.
    + intros i h1 h2 q1 q2. rewrite !lookup_delete_Some. intros [_ H1] [_ H2]. by apply (C2 i h1 h2 q1 q2).
    + intros i Hi. rewrite Nf. destruct (decide (i ∈ chain h q)) as [Hin|Hin].
      * split; [done|]. intros (h' & q' & [N Hq']%lookup_delete_Some & Hc). exfalso. by apply (Hsep h' q' i).
      * rewrite C3 by done. split; intros (h' & q' & Hq' & Hc).
        -- exists h', q'. split; [|done]. apply lookup_delete_Some. split; [|done]. intros <-. assert (q' = q) as -> by congruence. done.
        -- apply lookup_delete_Some in Hq' as [_ Hq']. eauto.
    + intros h' q' [N Hq']%lookup_delete_Some. destruct (C4 h' q' Hq') as [F1 F2 F3 F4 F5].
      constructor; rewrite ?X1, ?X2, ?Ni, ?Nd by (done || (apply (Hsep h' q'); [done|done|set_solver])); done.
  - destruct Q as [Q1 Q2 Q3 Q4 Q5 Q6 Q7]. constructor; rewrite ?X3, ?X4, ?X5, ?X6, ?X7, ?X8, ?X9, ?X10; try done.
    + rewrite !app_assoc in Q1 |- *. apply NoDup_app in Q1 as (Q1 & Qd & _). apply NoDup_app. split_and!; [done| |by apply NoDup_filter].
      intros x Hx. rewrite list_elem_of_filter. intros [_ Hx']. by apply (Qd x).
    + intros x. rewrite lookup_delete_is_Some, <- Q2, !elem_of_app, list_elem_of_filter. rewrite !elem_of_app in Hh. naive_solver.
    + intros h' q' [N Hq']%lookup_delete_Some. rewrite X2, (Q5 h' q' Hq').
      destruct (decide (h' ∈ D)); [rewrite decide_True; [done|]|rewrite decide_False; [done|]]; rewrite list_elem_of_filter; naive_solver.
    + intros h' Hh'. rewrite Ni; [by apply Q6|]. intros ->. set_solver.
    + intros h' q' Hin [N Hq']%lookup_delete_Some. rewrite X2. apply (Q7 h'); [|done]. rewrite elem_of_app, list_elem_of_filter in Hin. set_solver.
  - assert (forall t', t' <> t -> v_thread v' t' = wake_alloc (v_thread v t')) as Et by (intros t' N; by rewrite Nt, decide_False).
    assert (v_thread v' t = TIdle) as Ett by (by rewrite Nt, decide_True).
    constructor.
    + intros t' b' w' h' Hh'. destruct (decide (t' = t)) as [->|N]; [by rewrite Ett in Hh'|]. rewrite (Et t' N), thead_wake_alloc in Hh'.
      destruct (th_req _ _ _ T _ _ _ _ Hh') as (q' & Hq' & Eb & Ew). exists q'. split; [|done]. apply lookup_delete_Some. split; [|done].
      intros <-. apply N. destruct (th_req _ _ _ T _ _ _ _ Ht) as (q2 & Hq2 & Eb2 & _). assert (q' = q2) by congruence.
      eapply (th_uniq _ _ _ T); [by eapply thead_tbuf|by eapply thead_tbuf|left; congruence].
    + intros h' q' [N Hq']%lookup_delete_Some. destruct (th_own _ _ _ T h' q' Hq') as [t' Ht']. exists t'.
      rewrite Et, thead_wake_alloc; [done|]. intros ->. congruence.
    + intros t1 t2 b1 b2 H1 H2. rewrite X2. destruct (decide (t1 = t)) as [->|N1]; [by rewrite Ett in H1|].
      destruct (decide (t2 = t)) as [->|N2]; [by rewrite Ett in H2|]. rewrite Et, tbuf_wake_alloc in H1, H2 by done. by apply (th_uniq _ _ _ T).
    + intros t' b' w' h' Ht'. destruct (decide (t' = t)) as [->|N]; [by rewrite Ett in Ht'|]. rewrite (Et t' N) in Ht'.
      destruct (v_thread v t') eqn:Ev; cbn in Ht'; try done. injection Ht' as <- <- <-. rewrite list_elem_of_filter. intros [_ Hx].
      by apply (th_sleep _ _ _ T _ _ _ _ Ev).
    + intros t' b' w' Ht'. destruct (decide (t' = t)) as [->|N]; [by rewrite Ett in Ht'|]. rewrite (Et t' N) in Ht'. by destruct (v_thread v t').
Qed.
