(* ===== verification/VirtioInit.v ===== *)
(** * Bringing up the disk (virtio_disk_init of kernel/virtio_disk.c)

    The device is seen through its registers: [mmio h r] is what a read of
    register [r] returns after the accesses [h], latest first.  A device that
    answers as the virtio specification says is brought up in the order the
    specification asks for, and the driver is then in the initial state of
    VirtioSpec. *)
From S2P Require Import Prelude Mem Riscv Kalloc.
From stdpp Require Import base tactics numbers list strings gmap.
From Stdlib Require Import ZArith Lia.
From S2P Require Import Block Spinlock Virtio VirtioSpec.

Open Scope Z_scope.

Definition VIRTIO_MMIO_MAGIC_VALUE : Z := 0x000.
Definition VIRTIO_MMIO_VERSION : Z := 0x004.
Definition VIRTIO_MMIO_DEVICE_ID : Z := 0x008.
Definition VIRTIO_MMIO_VENDOR_ID : Z := 0x00c.
Definition VIRTIO_MMIO_DEVICE_FEATURES : Z := 0x010.
Definition VIRTIO_MMIO_DRIVER_FEATURES : Z := 0x020.
Definition VIRTIO_MMIO_QUEUE_SEL : Z := 0x030.
Definition VIRTIO_MMIO_QUEUE_NUM_MAX : Z := 0x034.
Definition VIRTIO_MMIO_QUEUE_NUM : Z := 0x038.
Definition VIRTIO_MMIO_QUEUE_READY : Z := 0x044.
Definition VIRTIO_MMIO_STATUS : Z := 0x070.
Definition VIRTIO_MMIO_QUEUE_DESC_LOW : Z := 0x080.
Definition VIRTIO_MMIO_QUEUE_DESC_HIGH : Z := 0x084.
Definition VIRTIO_MMIO_DRIVER_DESC_LOW : Z := 0x090.
Definition VIRTIO_MMIO_DRIVER_DESC_HIGH : Z := 0x094.
Definition VIRTIO_MMIO_DEVICE_DESC_LOW : Z := 0x0a0.
Definition VIRTIO_MMIO_DEVICE_DESC_HIGH : Z := 0x0a4.
Definition VIRTIO_CONFIG_S_ACKNOWLEDGE : Z := 1.
Definition VIRTIO_CONFIG_S_DRIVER : Z := 2.
Definition VIRTIO_CONFIG_S_DRIVER_OK : Z := 4.
Definition VIRTIO_CONFIG_S_FEATURES_OK : Z := 8.
Definition VIRTIO_BLK_F_RO : Z := 5.
Definition VIRTIO_BLK_F_SCSI : Z := 7.
Definition VIRTIO_BLK_F_CONFIG_WCE : Z := 11.
Definition VIRTIO_BLK_F_MQ : Z := 12.
Definition VIRTIO_F_ANY_LAYOUT : Z := 27.
Definition VIRTIO_RING_F_INDIRECT_DESC : Z := 28.
Definition VIRTIO_RING_F_EVENT_IDX : Z := 29.

(** An access to a register. *)
Inductive access := Rd (r : Z) | Wr (r x : Z).

(** The parts of struct disk that are set up, with the page allocator and
    the accesses made so far. *)
Record vboot := VBoot {
  bo_km : kmem; bo_hist : list access;
  bo_desc : Z; bo_avail : Z; bo_used : Z;
  bo_free : Z -> bool
}.
Definition set_bo_km x s := VBoot x (bo_hist s) (bo_desc s) (bo_avail s) (bo_used s) (bo_free s).
Definition set_bo_hist x s := VBoot (bo_km s) x (bo_desc s) (bo_avail s) (bo_used s) (bo_free s).
Definition set_bo_desc x s := VBoot (bo_km s) (bo_hist s) x (bo_avail s) (bo_used s) (bo_free s).
Definition set_bo_avail x s := VBoot (bo_km s) (bo_hist s) (bo_desc s) x (bo_used s) (bo_free s).
Definition set_bo_used x s := VBoot (bo_km s) (bo_hist s) (bo_desc s) (bo_avail s) x (bo_free s).
Definition set_bo_free x s := VBoot (bo_km s) (bo_hist s) (bo_desc s) (bo_avail s) (bo_used s) x.

Definition clear_bit (x n : Z) : Z := Z.land x (Z.lnot (Z.shiftl 1 n)).
(** The features the driver accepts of those the device offers. *)
Definition negotiate (features : Z) : Z :=
  foldl clear_bit features
    [VIRTIO_BLK_F_RO; VIRTIO_BLK_F_SCSI; VIRTIO_BLK_F_CONFIG_WCE; VIRTIO_BLK_F_MQ; VIRTIO_F_ANY_LAYOUT;
     VIRTIO_RING_F_EVENT_IDX; VIRTIO_RING_F_INDIRECT_DESC].

Section init.
Context {KL : KernelLayout} (mmio : list access -> Z -> Z).

Definition rd (r : Z) : M vboot Z :=
  x ← gets (fun s => w32 (mmio (bo_hist s) r));
  modify (fun s => set_bo_hist (Rd r :: bo_hist s) s);; mret x.
Definition wr (r x : Z) : M vboot unit := modify (fun s => set_bo_hist (Wr r (w32 x) :: bo_hist s) s).
Definition bo_mem {A} (c : M kmem A) : M vboot A := zoom bo_km set_bo_km c.

(** The test of the first if, evaluated from left to right up to the first
    register that has not the expected value. *)
Fixpoint identify (regs : list (Z * Z)) : M vboot bool :=
  match regs with
  | [] => mret true
  | (r, x) :: regs => y ← rd r; if negb (y =? x) then mret false else identify regs
  end.

Definition write_address (low high a : Z) : M vboot unit := wr low a;; wr high (Z.shiftr a 32).

Fixpoint free_from (n : nat) (i : Z) : M vboot unit :=
  match n with O => skip | S n => modify (fun s => set_bo_free (fupd i true (bo_free s)) s);; free_from n (i + 1) end.

(** From the memsets on. *)
Definition queue_start (status desc avail used : Z) : M vboot unit :=
  bo_mem (do_memset desc 0 PGSIZE);;
  bo_mem (do_memset avail 0 PGSIZE);;
  bo_mem (do_memset used 0 PGSIZE);;
  wr VIRTIO_MMIO_QUEUE_NUM NUM;;
  write_address VIRTIO_MMIO_QUEUE_DESC_LOW VIRTIO_MMIO_QUEUE_DESC_HIGH desc;;
  write_address VIRTIO_MMIO_DRIVER_DESC_LOW VIRTIO_MMIO_DRIVER_DESC_HIGH avail;;
  write_address VIRTIO_MMIO_DEVICE_DESC_LOW VIRTIO_MMIO_DEVICE_DESC_HIGH used;;
  wr VIRTIO_MMIO_QUEUE_READY 1;;
  free_from (Z.to_nat NUM) 0;;
  wr VIRTIO_MMIO_STATUS (Z.lor status VIRTIO_CONFIG_S_DRIVER_OK).

Definition virtio_disk_init : M vboot unit :=
  found ← identify [(VIRTIO_MMIO_MAGIC_VALUE, 0x74726976); (VIRTIO_MMIO_VERSION, 2); (VIRTIO_MMIO_DEVICE_ID, 2);
                    (VIRTIO_MMIO_VENDOR_ID, 0x554d4551)];
  if negb found then panic "could not find virtio disk"
  else
  wr VIRTIO_MMIO_STATUS 0;;
  let status := VIRTIO_CONFIG_S_ACKNOWLEDGE in
  wr VIRTIO_MMIO_STATUS status;;
  let status := Z.lor status VIRTIO_CONFIG_S_DRIVER in
  wr VIRTIO_MMIO_STATUS status;;
  features ← rd VIRTIO_MMIO_DEVICE_FEATURES;
  wr VIRTIO_MMIO_DRIVER_FEATURES (negotiate features);;
  let status := Z.lor status VIRTIO_CONFIG_S_FEATURES_OK in
  wr VIRTIO_MMIO_STATUS status;;
  status ← rd VIRTIO_MMIO_STATUS;
  if negb (has status VIRTIO_CONFIG_S_FEATURES_OK) then panic "virtio disk FEATURES_OK unset"
  else
  wr VIRTIO_MMIO_QUEUE_SEL 0;;
  ready ← rd VIRTIO_MMIO_QUEUE_READY;
  if negb (ready =? 0) then panic "virtio disk should not be ready"
  else
  max ← rd VIRTIO_MMIO_QUEUE_NUM_MAX;
  if max =? 0 then panic "virtio disk has no queue 0"
  else if max <? NUM then panic "virtio disk max queue too short"
  else
  desc ← bo_mem kalloc; modify (set_bo_desc desc);;
  avail ← bo_mem kalloc; modify (set_bo_avail avail);;
  used ← bo_mem kalloc; modify (set_bo_used used);;
  if (desc =? 0) || (avail =? 0) || (used =? 0) then panic "virtio disk kalloc"
  else
  queue_start status desc avail used.
End init.

(** ** A device that follows the specification *)

(** It identifies itself as a disk of version 2, takes the features it is
    asked for, and has a queue 0 of enough entries that is not in use until
    the driver says so. *)
Record virtio_device (mmio : list access -> Z -> Z) : Prop := {
  vd_magic : forall h, mmio h VIRTIO_MMIO_MAGIC_VALUE = 0x74726976;
  vd_version : forall h, mmio h VIRTIO_MMIO_VERSION = 2;
  vd_id : forall h, mmio h VIRTIO_MMIO_DEVICE_ID = 2;
  vd_vendor : forall h, mmio h VIRTIO_MMIO_VENDOR_ID = 0x554d4551;
  vd_status : forall h x, 0 <= x < 16 -> mmio (Wr VIRTIO_MMIO_STATUS x :: h) VIRTIO_MMIO_STATUS = x;
  vd_ready : forall h, Wr VIRTIO_MMIO_QUEUE_READY 1 ∉ h -> mmio h VIRTIO_MMIO_QUEUE_READY = 0;
  vd_max : forall h, NUM <= mmio h VIRTIO_MMIO_QUEUE_NUM_MAX < 2 ^ 32
}.

Fixpoint writes (h : list access) : list (Z * Z) :=
  match h with [] => [] | Wr r x :: h => (r, x) :: writes h | Rd _ :: h => writes h end.

(** The protocol of the specification (section 3.1): reset, acknowledge,
    driver, the negotiated features, features OK, the queue and its three
    parts, queue ready, driver OK. *)
Definition bringup (features desc avail used : Z) : list (Z * Z) :=
  [(VIRTIO_MMIO_STATUS, 0); (VIRTIO_MMIO_STATUS, 1); (VIRTIO_MMIO_STATUS, 3);
   (VIRTIO_MMIO_DRIVER_FEATURES, features); (VIRTIO_MMIO_STATUS, 11);
   (VIRTIO_MMIO_QUEUE_SEL, 0); (VIRTIO_MMIO_QUEUE_NUM, 8);
   (VIRTIO_MMIO_QUEUE_DESC_LOW, desc mod 2 ^ 32); (VIRTIO_MMIO_QUEUE_DESC_HIGH, desc / 2 ^ 32);
   (VIRTIO_MMIO_DRIVER_DESC_LOW, avail mod 2 ^ 32); (VIRTIO_MMIO_DRIVER_DESC_HIGH, avail / 2 ^ 32);
   (VIRTIO_MMIO_DEVICE_DESC_LOW, used mod 2 ^ 32); (VIRTIO_MMIO_DEVICE_DESC_HIGH, used / 2 ^ 32);
   (VIRTIO_MMIO_QUEUE_READY, 1); (VIRTIO_MMIO_STATUS, 15)].

(** The features the driver does not want, by their bits. *)
Definition unwanted (n : Z) : Prop := n ∈ [5; 7; 11; 12; 27; 28; 29].

Lemma clear_bit_spec x n i : 0 <= n -> 0 <= i -> Z.testbit (clear_bit x n) i = Z.testbit x i && negb (i =? n).
Proof.
  intros Hn Hi. unfold clear_bit. rewrite Z.land_spec, Z.lnot_spec by lia. f_equal. f_equal. rewrite Z.shiftl_1_l.
  destruct (Z.eqb_spec i n) as [->|N]; [by apply Z.pow2_bits_true|]. apply Z.pow2_bits_false. lia.
Qed.

Lemma negotiate_spec x i : 0 <= i -> Z.testbit (negotiate x) i = Z.testbit x i && negb (bool_decide (unwanted i)).
Proof.
  intros Hi. unfold negotiate. cbn [foldl]. rewrite !clear_bit_spec by (done || (cbv; lia)). destruct (Z.testbit x i); [|done]. cbn [andb].
  rewrite <- !negb_orb. f_equal. apply eq_bool_prop_intro. rewrite bool_decide_spec. unfold unwanted.
  rewrite !orb_True, !Is_true_true, !Z.eqb_eq. set_unfold. cbv. tauto.
Qed.

Lemma w32_address a : 0 <= a < 2 ^ 56 -> w32 (Z.shiftr a 32) = a / 2 ^ 32.
Proof. intros H. rewrite Z.shiftr_div_pow2 by lia. apply w32_id. Z.div_mod_to_equations. lia. Qed.

Section spec.
Context {KL : KernelLayout} (mmio : list access -> Z -> Z).
Context (D : virtio_device mmio).

Lemma wp_rd r Q s : Q (w32 (mmio (bo_hist s) r)) (set_bo_hist (Rd r :: bo_hist s) s) -> wp (rd mmio r) Q s.
Proof. done. Qed.
Lemma wp_wr r x Q s : Q () (set_bo_hist (Wr r (w32 x) :: bo_hist s) s) -> wp (wr r x) Q s.
Proof. done. Qed.

Lemma identify_wp s :
  wp (identify mmio [(VIRTIO_MMIO_MAGIC_VALUE, 0x74726976); (VIRTIO_MMIO_VERSION, 2); (VIRTIO_MMIO_DEVICE_ID, 2);
                     (VIRTIO_MMIO_VENDOR_ID, 0x554d4551)])
    (fun found s' => found = true /\ exists h, writes h = [] /\ (Wr VIRTIO_MMIO_QUEUE_READY 1 ∉ h) /\ s' = set_bo_hist (h ++ bo_hist s) s) s.
Proof.
  destruct D as [D1 D2 D3 D4 _ _ _]. unfold identify.
  apply wp_bind, wp_rd. rewrite D1, w32_id, Z.eqb_refl by lia. cbn [negb].
  apply wp_bind, wp_rd. rewrite D2, w32_id, Z.eqb_refl by lia. cbn [negb].
  apply wp_bind, wp_rd. rewrite D3, w32_id, Z.eqb_refl by lia. cbn [negb].
  apply wp_bind, wp_rd. rewrite D4, w32_id, Z.eqb_refl by lia. cbn [negb].
  apply wp_ret. split; [done|].
  exists [Rd VIRTIO_MMIO_VENDOR_ID; Rd VIRTIO_MMIO_DEVICE_ID; Rd VIRTIO_MMIO_VERSION; Rd VIRTIO_MMIO_MAGIC_VALUE].
  split; [done|]. split; [set_solver|done].
Qed.

(** kalloc of a page, in the larger state. *)
Lemma bo_kalloc_wp s p l Q :
  kmem_inv (bo_km s) (p :: l) ->
  (forall km, kmem_inv km l -> frame (eq p) (phys (bo_km s)) (phys km) -> Q p (set_bo_km km s)) ->
  wp (bo_mem kalloc) Q s.
Proof.
  intros H HQ. apply wp_zoom. eapply wp_mono; [by apply (kalloc_wp _ p l)|]. cbv beta. intros r km (-> & Hi & HF & _). by apply HQ.
Qed.
Lemma bo_memset_wp s a c n Q :
  Q () (set_bo_km (set_phys (fun m => memset m a c n) (bo_km s)) s) -> wp (bo_mem (do_memset a c n)) Q s.
Proof. done. Qed.

Lemma free_from_wp n i Q s :
  (forall f, (forall j, i <= j < i + Z.of_nat n -> f j = true) -> Q () (set_bo_free f s)) -> wp (free_from n i) Q s.
Proof.
  intros HQ. cut (forall (P : Z -> Prop) s0, (forall j, P j -> bo_free s0 j = true) ->
    (forall f, (forall j, P j \/ i <= j < i + Z.of_nat n -> f j = true) -> Q () (set_bo_free f s0)) -> wp (free_from n i) Q s0).
  { intros H. apply (H (fun _ => False)); [done|]. intros f Hf. apply HQ. auto. }
  clear s HQ. revert i. induction n as [|n IH]; intros i P s H0 HQ; cbn [free_from].
  - apply wp_skip. destruct s as [? ? ? ? ? f]. apply (HQ f). intros j [Hj|Hj]; [by apply H0|lia].
  - apply wp_bind, wp_modify. apply (IH (i + 1) (fun j => P j \/ j = i)).
    + intros j Hj. cbn. unfold fupd. destruct (decide (j = i)); [done|]. apply H0. naive_solver.
    + intros f Hf. apply HQ. intros j Hj. apply Hf. destruct (decide (j = i)); [auto|]. destruct Hj; [auto|right; lia].
Qed.

(** Three different pages, zeroed one after the other. *)
Definition zero3 (m : gmap Z Z) (p q r : Z) : gmap Z Z :=
  memset (memset (memset m p 0 PGSIZE) q 0 PGSIZE) r 0 PGSIZE.
Lemma frame_zero3 m p q r : aligned p -> aligned q -> aligned r -> frame (fun x => x ∈ [p; q; r]) m (zero3 m p q r).
Proof.
  intros Hp Hq Hr. unfold zero3.
  apply (frame_seq _ _ (memset (memset m p 0 PGSIZE) q 0 PGSIZE)); [apply (frame_seq _ _ (memset m p 0 PGSIZE))|];
    (eapply frame_mono; [by apply frame_memset|set_solver]).
Qed.
Lemma zero_page_frame m m' p q : frame (eq q) m m' -> aligned p -> p <> q -> zero_page m p -> zero_page m' p.
Proof. intros HF Ha Hn Hz x Hx. rewrite HF; [by apply Hz|]. rewrite (page_of_unique p x Ha Hx). congruence. Qed.
Lemma zero_pages3 m p q r :
  aligned p -> aligned q -> aligned r -> p <> q -> p <> r -> q <> r -> Forall (zero_page (zero3 m p q r)) [p; q; r].
Proof.
  intros Hp Hq Hr N1 N2 N3. unfold zero3. rewrite !Forall_cons, Forall_nil. split_and!; [| |apply memset_zero_page|done].
  - eapply zero_page_frame; [by apply frame_memset|done|done|]. eapply zero_page_frame; [by apply frame_memset|done|done|].
    apply memset_zero_page.
  - eapply zero_page_frame; [by apply frame_memset|done|done|]. apply memset_zero_page.
Qed.

(** What virtio_disk_init leaves. *)
Record brought_up (s s' : vboot) (desc avail used : Z) (l : list Z) : Prop := {
  bu_ptr : bo_desc s' = desc /\ bo_avail s' = avail /\ bo_used s' = used;
  bu_zero : Forall (zero_page (phys (bo_km s'))) [desc; avail; used];
  bu_km : kmem_inv (bo_km s') l;
  bu_frame : frame (fun p => p ∈ [desc; avail; used]) (phys (bo_km s)) (phys (bo_km s'));
  bu_free : forall i, desc_ok i -> bo_free s' i = true;
  bu_writes : exists features, rev (writes (bo_hist s')) = bringup features desc avail used /\
    forall i, 0 <= i -> unwanted i -> Z.testbit features i = false
}.

Lemma queue_start_wp s desc avail used :
  page_ok desc -> page_ok avail -> page_ok used ->
  wp (queue_start 11 desc avail used) (fun _ s' =>
    (bo_desc s' = bo_desc s /\ bo_avail s' = bo_avail s /\ bo_used s' = bo_used s) /\
    freelist (bo_km s') = freelist (bo_km s) /\ phys (bo_km s') = zero3 (phys (bo_km s)) desc avail used /\
    (forall i, desc_ok i -> bo_free s' i = true) /\
    rev (writes (bo_hist s')) = rev (writes (bo_hist s)) ++ drop 6 (bringup 0 desc avail used)) s.
Proof.
  intros P1 P2 P3. unfold queue_start. do 3 (apply wp_bind, bo_memset_wp). unfold write_address.
  apply wp_bind, wp_wr. do 3 (apply wp_bind, wp_bind, wp_wr; apply wp_wr). apply wp_bind, wp_wr.
  apply wp_bind, free_from_wp. intros f Hf. apply wp_wr.
  split; [done|]. split; [done|]. split; [reflexivity|]. split.
  - intros i Hi. apply Hf. unfold desc_ok in Hi. lia.
  - cbn [bo_hist set_bo_hist set_bo_km set_bo_free writes]. rewrite !w32_address by (by apply page_ok_range).
    cbn [rev bringup drop]. rewrite <- !app_assoc. reflexivity.
Qed.

Lemma negotiated_bits x i : 0 <= i -> unwanted i -> Z.testbit (w32 (negotiate x)) i = false.
Proof.
  intros Hi Hu. unfold w32. destruct (Z.lt_ge_cases i 32).
  - rewrite Z.mod_pow2_bits_low, negotiate_spec by lia. rewrite bool_decide_eq_true_2 by done. by rewrite andb_false_r.
  - rewrite Z.mod_pow2_bits_high; [done|lia].
Qed.

(** The queue's memory and its start. *)
Lemma queue_setup_wp s h ft desc avail used l :
  kmem_inv (bo_km s) (desc :: avail :: used :: l) -> rev (writes h) = take 6 (bringup ft desc avail used) ->
  (forall i, 0 <= i -> unwanted i -> Z.testbit ft i = false) ->
  wp (desc ← bo_mem kalloc; modify (set_bo_desc desc);;
      avail ← bo_mem kalloc; modify (set_bo_avail avail);;
      used ← bo_mem kalloc; modify (set_bo_used used);;
      if (desc =? 0) || (avail =? 0) || (used =? 0) then panic "virtio disk kalloc" else queue_start 11 desc avail used)
    (fun _ s' => brought_up s s' desc avail used l)
    (VBoot (bo_km s) h (bo_desc s) (bo_avail s) (bo_used s) (bo_free s)).
Proof.
  intros Hk Hw Hft.
  assert (page_ok desc /\ page_ok avail /\ page_ok used) as (P1 & P2 & P3) by (split_and!; apply (kmem_inv_ok _ _ _ Hk); set_solver).
  pose proof Hk as [_ Hnd]. apply NoDup_cons in Hnd as [N1 Hnd]. apply NoDup_cons in Hnd as [N2 Hnd]. apply NoDup_cons in Hnd as [N3 _].
  assert (desc <> avail /\ desc <> used /\ avail <> used) as (X1 & X2 & X3) by set_solver.
  assert (forall pa, pa ∈ l -> pa ∉ [desc; avail; used]) as Hl by set_solver.
  apply wp_bind, (bo_kalloc_wp _ desc (avail :: used :: l)); [done|]. intros k1 K1 F1. apply wp_bind, wp_modify.
  apply wp_bind, (bo_kalloc_wp _ avail (used :: l)); [done|]. intros k2 K2 F2. apply wp_bind, wp_modify.
  apply wp_bind, (bo_kalloc_wp _ used l); [done|]. intros k3 K3 F3. apply wp_bind, wp_modify.
  pose proof (page_ok_pos _ P1). pose proof (page_ok_pos _ P2). pose proof (page_ok_pos _ P3).
  destruct (Z.eqb_spec desc 0); [lia|]. destruct (Z.eqb_spec avail 0); [lia|]. destruct (Z.eqb_spec used 0); [lia|]. cbn [orb].
  eapply wp_mono; [by apply queue_start_wp|]. cbn [bo_km bo_hist bo_desc bo_avail bo_used set_bo_km set_bo_desc set_bo_avail set_bo_used].
  intros _ s' (Hp & Hfl & Hph & Hfr & Hwr).
  apply page_ok_aligned in P1 as Al1, P2 as Al2, P3 as Al3.
  pose proof (frame_zero3 (phys k3) desc avail used Al1 Al2 Al3) as FZ. constructor; [done| | | |done|].
  - rewrite Hph. by apply zero_pages3.
  - apply (kmem_inv_frame (fun p => p ∈ [desc; avail; used]) k3); [exact Hfl|rewrite Hph; exact FZ|exact Hl|exact K3].
  - rewrite Hph. refine (frame_seq _ _ _ _ _ FZ). apply (frame_seq _ _ (phys k2)); [apply (frame_seq _ _ (phys k1))|].
    + eapply frame_mono; [exact F1|]. intros p <-. left.
    + eapply frame_mono; [exact F2|]. intros p <-. right. left.
    + eapply frame_mono; [exact F3|]. intros p <-. right. right. left.
  - exists ft. split; [|done]. rewrite Hwr, Hw. reflexivity.
Qed.

Lemma virtio_disk_init_wp s desc avail used l :
  bo_hist s = [] -> kmem_inv (bo_km s) (desc :: avail :: used :: l) ->
  wp (virtio_disk_init mmio) (fun _ s' => brought_up s s' desc avail used l) s.
Proof.
  intros Hh Hk. unfold virtio_disk_init.
  eapply wp_call; [apply identify_wp|]. cbv beta. intros found s1 (-> & h & Hw & Hr & ->). cbn [negb]. rewrite Hh, app_nil_r.
  do 3 (apply wp_bind, wp_wr; cbv zeta). apply wp_bind, wp_rd. do 2 (apply wp_bind, wp_wr; cbv zeta). apply wp_bind, wp_rd.
  cbn [set_bo_hist bo_hist].
  change (w32 (Z.lor (Z.lor VIRTIO_CONFIG_S_ACKNOWLEDGE VIRTIO_CONFIG_S_DRIVER) VIRTIO_CONFIG_S_FEATURES_OK)) with 11.
  rewrite (vd_status _ D) by lia. change (w32 11) with 11. change (negb (has 11 VIRTIO_CONFIG_S_FEATURES_OK)) with false. cbv iota.
  apply wp_bind, wp_wr. apply wp_bind, wp_rd. cbn [set_bo_hist bo_hist].
  rewrite (vd_ready _ D) by (rewrite !not_elem_of_cons; split_and!; done).
  change (negb (w32 0 =? 0)) with false. cbv iota. apply wp_bind, wp_rd. cbn [set_bo_hist bo_hist].
  set (ft := w32 (negotiate _)).
  match goal with |- context [mmio ?h VIRTIO_MMIO_QUEUE_NUM_MAX] =>
    pose proof (vd_max _ D h) as Hm; set (mx := mmio h VIRTIO_MMIO_QUEUE_NUM_MAX) in *;
    assert (rev (writes h) = take 6 (bringup ft desc avail used)) as Hwr by (cbn [writes]; rewrite Hw; reflexivity) end.
  rewrite w32_id by (unfold NUM in Hm; lia). destruct (Z.eqb_spec mx 0) as [Hx|_]; [unfold NUM in Hm; lia|].
  destruct (Z.ltb_spec mx NUM) as [Hx|_]; [lia|]. clear Hm mx. cbn [set_bo_hist bo_km bo_desc bo_avail bo_used bo_free].
  assert (forall i, 0 <= i -> unwanted i -> Z.testbit ft i = false) as Hft by apply negotiated_bits. clearbody ft.
  match type of Hwr with rev (writes ?h') = _ => apply (queue_setup_wp s (Rd VIRTIO_MMIO_QUEUE_NUM_MAX :: h') ft desc avail used l) end; done.
Qed.
End spec.

(** ** The driver after virtio_disk_init *)

Definition ld16 (m : gmap Z Z) (a : Z) : Z := mget m a + 256 * mget m (a + 1).

(** The driver's view [v] of the memory and the free flags of [s]. *)
Record attached (s : vboot) (v : vdisk) : Prop := {
  at_free : forall i, v_free v i = bo_free s i;
  at_avail : v_avail_idx v = ld16 (phys (bo_km s)) (bo_avail s + 2);
  at_used : v_used_dev v = ld16 (phys (bo_km s)) (bo_used s + 2)
}.
(** Nothing is under way: used_idx is in the kernel's zeroed data, the device
    has been reset and no thread is in virtio_disk_rw. *)
Definition quiet (v : vdisk) : Prop :=
  v_used_idx v = 0 /\ dev_avail v = 0 /\ dev_pending v = [] /\ forall t, v_thread v t = TIdle.

Theorem virtio_disk_init_ready {KL : KernelLayout} mmio s desc avail used l :
  virtio_device mmio -> bo_hist s = [] -> kmem_inv (bo_km s) (desc :: avail :: used :: l) ->
  exists s', virtio_disk_init mmio s = Ret () s' /\ brought_up s s' desc avail used l /\
    forall v, attached s' v -> quiet v -> vinit v.
Proof.
  intros D Hh Hk. pose proof (virtio_disk_init_wp mmio D s desc avail used l Hh Hk) as W. apply wp_inv in W as ([] & s' & E & B).
  exists s'. split; [done|]. split; [done|]. intros v [A1 A2 A3] (Q1 & Q2 & Q3 & Q4).
  destruct B as [(E1 & E2 & E3) Hz _ _ Bf _]. rewrite !Forall_cons in Hz. destruct Hz as (_ & Z2 & Z3 & _). unfold zero_page, PGSIZE in *.
  constructor; [|split; [|done]|split; [done|]|done].
  - intros i Hi. rewrite A1. by apply Bf.
  - rewrite A2, E2. unfold ld16. by rewrite !Z2 by lia.
  - rewrite A3, E3. unfold ld16. by rewrite !Z3 by lia.
Qed.

(** A device that is not a virtio device stops the kernel. *)
Theorem virtio_disk_init_absent {KL : KernelLayout} mmio s :
  w32 (mmio (bo_hist s) VIRTIO_MMIO_MAGIC_VALUE) <> 0x74726976 -> virtio_disk_init mmio s = Panic "could not find virtio disk".
Proof.
  intros H. unfold virtio_disk_init, identify, rd, mbind, M_bind, gets, modify, mret, M_ret.
  destruct (Z.eqb_spec (w32 (mmio (bo_hist s) VIRTIO_MMIO_MAGIC_VALUE)) 0x74726976) as [|_]; done.
Qed.
