(* ===== verification/VirtioTheorems.v ===== *)
(** * Properties of the disk driver *)
From stdpp Require Import base tactics numbers list strings gmap relations.
From Stdlib Require Import ZArith Lia.
From S2P Require Import Prelude Riscv Kalloc Block Spinlock Virtio VirtioSpec.

Open Scope Z_scope.

(** A thread that has been woken: the request is done, or it sleeps again. *)
Lemma rw_wait_wp v A S U D t b w h :
  vinv v A S U D -> v_thread v t = TWait b w h ->
  wp (rw_wait t b w h) (fun _ v' => exists A' D', vinv v' A' S U D' /\ dev_disk v' = dev_disk v /\
    (v_thread v' t = TIdle -> dev_disk v' (sector_of (v_buf v' b)) = vb_data (v_buf v' b))) v.
Proof.
  intros V Ht. pose proof V as (C & Q & T). destruct (th_req _ _ _ T t b w h) as (q & Hq & Eb & Ew); [by rewrite Ht|].
  unfold rw_wait. wp_steps. rewrite <- Eb, (qi_busy _ _ _ _ _ Q h q Hq). destruct (decide (h ∈ D)) as [HD|HD].
  - change (0 =? 1) with false. cbv iota. eapply wp_mono; [by apply (finish_run v A h q t C Hq)|]. cbv beta. intros ? v' F.
    exists (delete h A), (filter (fun x => x <> h) D). split; [|split].
    + eapply finished_inv; [exact V|by rewrite Ht|done|done|done].
    + apply (fn_rest _ _ _ _ _ F).
    + intros _. destruct (fn_rest _ _ _ _ _ F) as (_ & -> & _ & _ & _ & _ & _ & -> & _).
      apply (qi_data _ _ _ _ _ Q h q); [set_solver|done].
  - change (1 =? 1) with true. cbv iota. wp_steps. exists A, D. split; [|split; [done|]].
    + split_and!; [by apply (cinv_same v)|by destruct Q|]. apply (thinv_same v _ A D D T); cbn; unfold fupd.
      * intros t'. destruct (decide (t' = t)) as [->|]; [|done]. by rewrite Ht, Eb.
      * done.
      * intros t' b' w' h' Ht'. destruct (decide (t' = t)) as [->|]; [by injection Ht' as <- <- <-|by eapply th_sleep].
      * intros t' b' w' Ht'. destruct (decide (t' = t)) as [->|]; [done|by eapply th_starved].
    + cbn. unfold fupd. by rewrite decide_True.
Qed.

Lemma vstep_inv v v' A S U D : vinv v A S U D -> vstep v v' -> exists A' S' U' D', vinv v' A' S' U' D'.
Proof.
  intros V Hs. pose proof V as (C & Q & T).
  destruct Hs as [t b w v v' Ht Hm E|t b w v v' Ht E|t b w h v v' Ht E|v v' E|v Hn|h v v' Hh E|b x v Hb].
  - pose proof (rw_try_wp v A S U D t b w V (start_ready _ _ _ Ht Hm)) as W. apply wp_inv in W as (? & v1 & E1 & A' & S' & V').
    assert (v1 = v') as -> by congruence. by exists A', S', U, D.
  - pose proof (rw_try_wp v A S U D t b w V (retry_ready _ _ _ _ _ _ T Ht)) as W. apply wp_inv in W as (? & v1 & E1 & A' & S' & V').
    assert (v1 = v') as -> by congruence. by exists A', S', U, D.
  - pose proof (rw_wait_wp v A S U D t b w h V Ht) as W. apply wp_inv in W as (? & v1 & E1 & A' & D' & V' & _).
    assert (v1 = v') as -> by congruence. by exists A', S, U, D'.
  - pose proof (virtio_disk_intr_wp v A S U D V) as W. apply wp_inv in W as (? & v1 & E1 & D' & V').
    assert (v1 = v') as -> by congruence. by exists A, S, [], D'.
  - destruct (fetch_inv v A S U D V Hn) as [S' V']. by exists A, S', U, D.
  - exists A, S, (U ++ [h]), D. by eapply complete_inv.
  - exists A, S, U, D. by apply client_inv.
Qed.

Lemma vinit_inv v : vinit v -> vinv v ∅ [] [] [].
Proof.
  intros [F0 (A1 & A2 & A3) (U1 & U2) T0].
  assert (ring_ok (v_avail_ring v) (dev_avail v) (v_avail_idx v) [] /\ ring_ok (v_used_ring v) (v_used_idx v) (v_used_dev v) []) as [R1 R2].
  { rewrite A1, A2, U1, U2. split; (split_and!; [done|done|done|done|done]). }
  split_and!.
  - constructor; try done. intros i Hi. rewrite F0 by done. split; [done|]. by intros (h & q & Hq & _).
  - constructor; rewrite ?A3; try done; [apply NoDup_nil_2| |]; intros h; [|set_solver]. split; [set_solver|]. intros [q Hq]. done.
  - constructor; intros t; rewrite ?T0; done.
Qed.

Lemma vreachable_inv v : vreachable v -> exists A S U D, vinv v A S U D.
Proof.
  intros (v0 & I0 & Hs). assert (exists A S U D, vinv v0 A S U D) as H0 by (exists ∅, [], [], []; by apply vinit_inv).
  clear I0. induction Hs as [v|v1 v2 v3 H12 _ IH]; [done|]. apply IH. destruct H0 as (A & S & U & D & V). by apply (vstep_inv v1 v2 A S U D).
Qed.

(** ** Correctness *)

(** Every part of the driver that can run in [v] runs without a panic. *)
Definition driver_safe (v : vdisk) : Prop :=
  (forall t b w, v_thread v t = TIdle -> may_start v b -> exists v', rw_try t b w v = Ret () v') /\
  (forall t b w, v_thread v t = TAlloc b w -> exists v', rw_try t b w v = Ret () v') /\
  (forall t b w h, v_thread v t = TWait b w h -> exists v', rw_wait t b w h v = Ret () v') /\
  (exists v', virtio_disk_intr v = Ret () v').

(** A thread that sleeps has a reason to. *)
Definition sleepers_justified (v : vdisk) : Prop :=
  forall t, match v_thread v t with
            | TSleepAlloc _ _ => starved (v_free v)
            | TSleepWait b _ _ => vb_disk (v_buf v b) = 1
            | _ => True
            end.

(** What the device is given is a request of a thread that waits for it. *)
Definition device_request_ok (v : vdisk) (h : Z) : Prop :=
  exists t b w, thead (v_thread v t) = Some (b, w, h) /\ chain_request v h = Some (w, sector_of (v_buf v b), b, h).

Lemma ret_inv {S} (c : M S unit) Q v : wp c Q v -> exists v', c v = Ret () v' /\ Q () v'.
Proof. intros W. apply wp_inv in W as ([] & v' & E & HQ). eauto. Qed.

Lemma vinv_safe v A S U D : vinv v A S U D -> driver_safe v.
Proof.
  intros V. pose proof V as (_ & _ & T). split_and!.
  - intros t b w Ht Hm. destruct (ret_inv _ _ _ (rw_try_wp v A S U D t b w V (start_ready _ _ _ Ht Hm))) as (v' & E & _). eauto.
  - intros t b w Ht. destruct (ret_inv _ _ _ (rw_try_wp v A S U D t b w V (retry_ready _ _ _ _ _ _ T Ht))) as (v' & E & _). eauto.
  - intros t b w h Ht. destruct (ret_inv _ _ _ (rw_wait_wp v A S U D t b w h V Ht)) as (v' & E & _). eauto.
  - destruct (ret_inv _ _ _ (virtio_disk_intr_wp v A S U D V)) as (v' & E & _). eauto.
Qed.

Lemma vinv_sleepers v A S U D : vinv v A S U D -> sleepers_justified v.
Proof.
  intros (_ & Q & T) t. destruct (v_thread v t) as [| | |b w h|b w h] eqn:E; try done; [by eapply (th_starved _ _ _ T)|].
  destruct (th_req _ _ _ T t b w h) as (q & Hq & <- & _); [by rewrite E|].
  rewrite (qi_busy _ _ _ _ _ Q h q Hq), decide_False; [done|]. by eapply (th_sleep _ _ _ T).
Qed.

Lemma vinv_requests v A S U D h : vinv v A S U D -> h ∈ dev_pending v -> device_request_ok v h.
Proof.
  intros (C & Q & T) Hh. assert (is_Some (A !! h)) as [q Hq] by (apply (qi_dom _ _ _ _ _ Q); set_solver).
  destruct (th_own _ _ _ T h q Hq) as [t Ht]. exists t, (q_buf q), (q_write q). split; [done|]. by apply (chain_request_ok v A).
Qed.

(** A descriptor that is not free belongs to a request that a thread waits for. *)
Definition held (v : vdisk) (i : Z) : Prop :=
  exists t b w h, thead (v_thread v t) = Some (b, w, h) /\ (i = h \/ i = d_next (v_desc v h) \/ i = d_next (v_desc v (d_next (v_desc v h)))).

Lemma vinv_descriptors v A S U D i : vinv v A S U D -> desc_ok i -> v_free v i = false <-> held v i.
Proof.
  intros (C & _ & T) Hi. rewrite (ci_free _ _ C i Hi). unfold held. split.
  - intros (h & q & Hq & Hc). destruct (th_own _ _ _ T h q Hq) as [t Ht]. exists t, (q_buf q), (q_write q), h. split; [done|].
    destruct (ci_fmt _ _ C h q Hq) as [-> F2 _ _ _]. cbn [d_next]. rewrite F2. cbn [d_next]. unfold chain in Hc. set_solver.
  - intros (t & b & w & h & Ht & Hc). destruct (th_req _ _ _ T _ _ _ _ Ht) as (q & Hq & _). exists h, q. split; [done|].
    destruct (ci_fmt _ _ C h q Hq) as [E1 F2 _ _ _]. rewrite E1 in Hc. cbn [d_next] in Hc. rewrite F2 in Hc. cbn [d_next] in Hc.
    unfold chain. set_solver.
Qed.

(** Something other than a new request can happen: the device has a chain to
    fetch or to complete, an interrupt is due, or a thread can go on. *)
Definition can_progress (v : vdisk) : Prop :=
  dev_avail v <> v_avail_idx v \/ dev_pending v <> [] \/ v_used_idx v <> v_used_dev v \/
  exists t b w, v_thread v t = TAlloc b w \/ exists h, v_thread v t = TWait b w h.

Lemma waiting_progress v A S U D t b w h : vinv v A S U D -> thead (v_thread v t) = Some (b, w, h) -> can_progress v.
Proof.
  intros (C & Q & T) Ht. unfold can_progress. destruct (v_thread v t) as [| | |b' w' h'|b' w' h'] eqn:E; try done.
  { do 3 right. exists t, b', w'. eauto. }
  destruct (th_req _ _ _ T t b w h) as (q & Hq & _); [by rewrite E|]. injection Ht as -> -> ->.
  assert (h ∈ S ++ dev_pending v ++ U ++ D) as Hin by (apply (qi_dom _ _ _ _ _ Q); eauto).
  pose proof (th_sleep _ _ _ T _ _ _ _ E) as HD. rewrite !elem_of_app in Hin. destruct Hin as [Hin|[Hin|[Hin|Hin]]]; [| | |done].
  - left. intros Hx. apply (ring_empty _ _ _ _ (qi_avail _ _ _ _ _ Q)) in Hx. subst S. set_solver.
  - right. left. intros Hx. rewrite Hx in Hin. set_solver.
  - do 2 right. left. intros Hx. apply (ring_empty _ _ _ _ (qi_used _ _ _ _ _ Q)) in Hx. subst U. set_solver.
Qed.

Lemma starved_busy free : starved free -> exists i, desc_ok i /\ free i = false.
Proof.
  intros (l & Hl & Hall). destruct (decide (Forall (fun i => free i = true) [0; 1; 2])) as [HF|HF].
  - assert ([0; 1; 2] ⊆+ l) as Hs.
    { apply NoDup_submseteq; [by apply (bool_decide_unpack _); vm_compute|]. intros x Hx. rewrite Forall_forall in HF. apply Hall; [|by apply HF].
      unfold desc_ok, NUM. set_unfold in Hx. lia. }
    apply submseteq_length in Hs. cbn in Hs. lia.
  - apply not_Forall_Exists in HF; [|solve_decision]. apply Exists_exists in HF as (i & Hi & Hf). exists i.
    split; [unfold desc_ok, NUM; set_unfold in Hi; lia|]. cbn in Hf. by destruct (free i).
Qed.

Lemma vinv_progress v A S U D t : vinv v A S U D -> v_thread v t <> TIdle -> can_progress v.
Proof.
  intros V Ht. pose proof V as (C & Q & T). destruct (v_thread v t) as [|b w|b w|b w h|b w h] eqn:E; [done| | | |].
  - do 3 right. exists t, b, w. eauto.
  - destruct (starved_busy _ (th_starved _ _ _ T _ _ _ E)) as (i & Hi & Hf).
    apply (vinv_descriptors v A S U D i V Hi) in Hf as (t' & b' & w' & h' & Ht' & _). by eapply waiting_progress.
  - eapply waiting_progress; [exact V|]. by rewrite E.
  - eapply waiting_progress; [exact V|]. by rewrite E.
Qed.

(** The device can complete every request it has. *)
Lemma dev_complete_total v h : device_request_ok v h -> exists v', dev_complete h v = Some v'.
Proof. intros (t & b & w & _ & E). unfold dev_complete. rewrite E. eauto. Qed.

(** C39.  In every state that the driver, its threads and the device can
    reach, the driver does not panic whatever it does next (so no descriptor
    is freed twice, no completion is reported for a request that is not there,
    and no loop is without an end); every chain the device takes describes the
    transfer a thread waits for; a thread that returns from virtio_disk_rw
    leaves the sector of its block and its buffer with the same contents; the
    disk changes only where the device completes a write, and to the contents
    of the buffer that a thread asked to write there; the descriptors in use
    are exactly those of the chains threads wait for, so none leaks; no thread
    misses its wakeup; and as long as one is in virtio_disk_rw something can
    happen. *)
Theorem virtio_driver_correct v : vreachable v ->
  driver_safe v /\
  (forall h, h ∈ dev_pending v -> device_request_ok v h /\ exists v', dev_complete h v = Some v') /\
  (forall t b w h v', v_thread v t = TWait b w h -> rw_wait t b w h v = Ret () v' -> v_thread v' t = TIdle ->
     dev_disk v' (sector_of (v_buf v' b)) = vb_data (v_buf v' b)) /\
  (forall h v' s, h ∈ dev_pending v -> dev_complete h v = Some v' -> dev_disk v' s <> dev_disk v s ->
     exists t b, thead (v_thread v t) = Some (b, true, h) /\ s = sector_of (v_buf v b) /\ dev_disk v' s = vb_data (v_buf v b)) /\
  (forall i, desc_ok i -> v_free v i = false <-> held v i) /\
  sleepers_justified v /\
  (forall t, v_thread v t <> TIdle -> can_progress v).
Proof.
  intros R. destruct (vreachable_inv v R) as (A & S & U & D & V). split_and!.
  - by eapply vinv_safe.
  - intros h Hh. assert (device_request_ok v h) by (by eapply vinv_requests). split; [done|]. by apply dev_complete_total.
  - intros t b w h v' Ht E. destruct (ret_inv _ _ _ (rw_wait_wp v A S U D t b w h V Ht)) as (v1 & E1 & A' & D' & _ & _ & H).
    assert (v1 = v') as -> by congruence. done.
  - intros h v' s Hh E N. destruct (vinv_requests v A S U D h V Hh) as (t & b & w & Ht & Ec). unfold dev_complete in E. rewrite Ec in E.
    injection E as <-. destruct w; [|done]. exists t, b. cbn in N |- *. unfold fupd in *. destruct (decide _) as [->|]; done.
  - intros i. by apply (vinv_descriptors v A S U D i).
  - by eapply vinv_sleepers.
  - intros t. by eapply vinv_progress.
Qed.

(** A concrete run: a thread starts to write buffer 3 and the device takes
    the request. *)
Definition vsample0 : vdisk :=
  VDisk (fun _ => VDesc DNull 0 0 0) (fun _ => 0) 0 (fun _ => 0) 0 (fun _ => true) 0 (fun _ => VInfo None 0) (fun _ => VReq 0 0 0)
    (fun b => VBuf (b + 40) 0 (replicate 4 7)) (fun _ => TIdle) (fun _ => replicate 4 0) 0 [].
Definition vsample1 : vdisk := match rw_try 1 3 true vsample0 with Ret _ v => v | _ => vsample0 end.

Lemma vsample1_run : rw_try 1 3 true vsample0 = Ret () vsample1.
Proof.
  assert (vinit vsample0) as I by (by constructor).
  destruct (proj1 (vinv_safe _ _ _ _ _ (vinit_inv _ I)) 1 3 true) as [v' E]; [done|intros t b' Hb; discriminate Hb|].
  unfold vsample1. by rewrite E.
Qed.

Lemma virtio_driver_correct_witness :
  vreachable (dev_fetch vsample1) /\ dev_pending (dev_fetch vsample1) = [0] /\ driver_safe (dev_fetch vsample1) /\
  device_request_ok (dev_fetch vsample1) 0.
Proof.
  assert (vreachable (dev_fetch vsample1)) as R.
  { exists vsample0. split; [by constructor|]. apply (rtc_l _ _ vsample1).
    - apply (vs_start 1 3 true); [done|intros t b' Hb; discriminate Hb|exact vsample1_run].
    - apply rtc_once, vs_fetch. vm_compute. discriminate. }
  split; [exact R|]. split; [reflexivity|]. destruct (virtio_driver_correct _ R) as (H1 & H2 & _). split; [exact H1|].
  apply H2. vm_compute. left.
Defined.
