(* ===== verification/Uart.v ===== *)
(** * The uart (kernel/uart.c)

    Threads in uartwrite, processors in uartputc_sync, the interrupt handler
    and the 16550a device, as steps that interleave.  tx_lock protects
    tx_busy, but uartputc_sync does not take it and the device works on its
    own: reading the line status register and acting on it are two steps.
    The transmit FIFO of the device (16 bytes) loses what does not fit. *)
From stdpp Require Import base tactics numbers list strings sets relations.
From Stdlib Require Import ZArith Lia.
From S2P Require Import Prelude Spinlock.

Open Scope Z_scope.

Definition FIFO_SIZE : nat := 16.
Definition UART_NCPU : Z := 8.

(** Who wrote a byte: a thread in uartwrite or a processor in uartputc_sync. *)
Inductive source := SWrite (t : Z) | SSync (c : Z).

(** uartwrite: the bytes still to be written, running or asleep on tx_chan. *)
Inductive wpc := WRun (l : list Z) | WSleep (l : list Z).
(** uartputc_sync: spinning on LSR with a byte, or past the loop. *)
Inductive spc := PIdle | PSpin (b : Z) | PReady (b : Z).
(** uartintr: not running, past the read of ISR, holding tx_lock after LSR
    was seen idle. *)
Inductive hpc := HIdle | HAcked | HClear.

Record uart := Uart {
  u_busy : bool;                     (* tx_busy *)
  u_thread : Z -> wpc; u_cpu : Z -> spc; u_hand : hpc;
  u_fifo : list (source * Z);        (* the device: bytes to send, *)
  u_sent : list (source * Z);        (* bytes sent, *)
  u_irq : bool;                      (* a transmit interrupt pending, *)
  u_rx : list Z;                     (* and bytes received *)
  u_input : list Z                   (* what consoleintr has been given *)
}.

Definition u_set_tx b th f u := Uart b th (u_cpu u) (u_hand u) f (u_sent u) (u_irq u) (u_rx u) (u_input u).
Definition u_set_cpu c p u := Uart (u_busy u) (u_thread u) (fupd c p (u_cpu u)) (u_hand u) (u_fifo u) (u_sent u) (u_irq u) (u_rx u) (u_input u).
Definition u_set_hand h u := Uart (u_busy u) (u_thread u) (u_cpu u) h (u_fifo u) (u_sent u) (u_irq u) (u_rx u) (u_input u).
Definition u_set_dev f s i u := Uart (u_busy u) (u_thread u) (u_cpu u) (u_hand u) f s i (u_rx u) (u_input u).
Definition u_set_rx r i u := Uart (u_busy u) (u_thread u) (u_cpu u) (u_hand u) (u_fifo u) (u_sent u) (u_irq u) r i.

(** WriteReg(THR, b): a full FIFO drops the byte. *)
Definition write_thr (x : source * Z) (f : list (source * Z)) : list (source * Z) :=
  if (length f <? FIFO_SIZE)%nat then f ++ [x] else f.
(** ReadReg(LSR) & LSR_TX_IDLE *)
Definition lsr_idle (u : uart) : bool := match u_fifo u with [] => true | _ => false end.

(** uartwrite from the start of its loop, until it returns or sleeps. *)
Fixpoint uartwrite (t : Z) (buf : list Z) (u : uart) : uart :=
  match buf with
  | [] => u_set_tx (u_busy u) (fupd t (WRun []) (u_thread u)) (u_fifo u) u
  | b :: buf' =>
      if u_busy u then u_set_tx (u_busy u) (fupd t (WSleep buf) (u_thread u)) (u_fifo u) u
      else uartwrite t buf' (u_set_tx true (u_thread u) (write_thr (SWrite t, b) (u_fifo u)) u)
  end.

(** uartputc_sync: the loop on LSR, and the write behind it. *)
Definition sync_poll (c b : Z) (u : uart) : uart := if lsr_idle u then u_set_cpu c (PReady b) u else u.
Definition sync_put (c b : Z) (u : uart) : uart :=
  u_set_cpu c PIdle (u_set_dev (write_thr (SSync c, b) (u_fifo u)) (u_sent u) (u_irq u) u).

(** uartintr: reading ISR, which acknowledges; the test of LSR; what follows
    under tx_lock; the loop over the bytes received. *)
Definition wake_tx (p : wpc) : wpc := match p with WSleep l => WRun l | _ => p end.
Definition intr_ack (u : uart) : uart := u_set_hand HAcked (u_set_dev (u_fifo u) (u_sent u) false u).
Definition intr_check (u : uart) : uart := u_set_hand (if lsr_idle u then HClear else HIdle) u.
Definition intr_clear (u : uart) : uart := u_set_hand HIdle (u_set_tx false (fun t => wake_tx (u_thread u t)) (u_fifo u) u).
(** uartgetc: None where it returns -1. *)
Definition uartgetc (u : uart) : option (Z * uart) :=
  match u_rx u with [] => None | c :: r => Some (c, u_set_rx r (u_input u) u) end.
Fixpoint intr_input (fuel : nat) (u : uart) : uart :=
  match fuel with
  | O => u
  | S fuel => match uartgetc u with None => u | Some (c, u) => intr_input fuel (u_set_rx (u_rx u) (u_input u ++ [c]) u) end
  end.

(** The device sends a byte, and interrupts when it has no more. *)
Definition dev_send (u : uart) : uart :=
  match u_fifo u with
  | [] => u
  | x :: f => u_set_dev f (u_sent u ++ [x]) (match f with [] => true | _ => u_irq u end) u
  end.

(** ** Interleaving *)

(** The second component is what each thread has asked to write so far. *)
Definition ustate : Type := uart * (Z -> list Z).
Inductive ustep : ustate -> ustate -> Prop :=
  | us_call t l u d : u_thread u t = WRun [] -> u_hand u <> HClear -> ustep (u, d) (uartwrite t l u, fupd t (d t ++ l) d)
  | us_resume t l u d : u_thread u t = WRun l -> u_hand u <> HClear -> ustep (u, d) (uartwrite t l u, d)
  | us_sync c b u d : 0 <= c < UART_NCPU -> u_cpu u c = PIdle -> ustep (u, d) (u_set_cpu c (PSpin b) u, d)
  | us_poll c b u d : 0 <= c < UART_NCPU -> u_cpu u c = PSpin b -> ustep (u, d) (sync_poll c b u, d)
  | us_put c b u d : 0 <= c < UART_NCPU -> u_cpu u c = PReady b -> ustep (u, d) (sync_put c b u, d)
  | us_ack u d : u_hand u = HIdle -> ustep (u, d) (intr_ack u, d)
  | us_check u d : u_hand u = HAcked -> ustep (u, d) (intr_check u, d)
  | us_clear u d : u_hand u = HClear -> ustep (u, d) (intr_clear u, d)
  | us_input u d : u_hand u = HIdle -> ustep (u, d) (intr_input (length (u_rx u)) u, d)
  | us_send u d : ustep (u, d) (dev_send u, d)
  | us_receive c u d : ustep (u, d) (u_set_rx (u_rx u ++ [c]) (u_input u) u, d).

Definition ustart (x : ustate) : Prop :=
  u_busy x.1 = false /\ (forall t, u_thread x.1 t = WRun []) /\ (forall c, u_cpu x.1 c = PIdle) /\ u_hand x.1 = HIdle /\
  u_fifo x.1 = [] /\ u_sent x.1 = [] /\ forall t, x.2 t = [].
Definition ureachable (x : ustate) : Prop := exists x0, ustart x0 /\ rtc ustep x0 x.

(** ** The invariant *)

(** The bytes of a thread, and those it still has to write. *)
Definition bytes_of (t : Z) (l : list (source * Z)) : list Z :=
  omap (fun x => match x.1 with SWrite t' => if decide (t' = t) then Some x.2 else None | SSync _ => None end) l.
#[global] Arguments bytes_of : simpl never.
Definition remaining (p : wpc) : list Z := match p with WRun l | WSleep l => l end.

(** All threads of uartwrite count as one source of bytes. *)
Definition key (x : source * Z) : Z := match x.1 with SWrite _ => -1 | SSync c => c end.
Definition keys (u : uart) : list Z := map key (u_fifo u).

Record uinv (x : ustate) : Prop := {
  ui_nodup : NoDup (keys x.1);
  ui_range : Forall (fun k => -1 <= k < UART_NCPU) (keys x.1);
  ui_free : u_busy x.1 = false -> -1 ∉ keys x.1;
  ui_clear : u_hand x.1 = HClear -> -1 ∉ keys x.1;
  ui_ready : forall c b, u_cpu x.1 c = PReady b -> 0 <= c /\ (c ∉ keys x.1);
  ui_sleep : forall t l, u_thread x.1 t = WSleep l -> u_busy x.1 = true;
  ui_order : forall t, bytes_of t (u_sent x.1 ++ u_fifo x.1) ++ remaining (u_thread x.1 t) = x.2 t;
  ui_live : u_busy x.1 = true -> u_fifo x.1 <> [] \/ u_irq x.1 = true \/ u_hand x.1 <> HIdle
}.

Lemma keys_bound l : NoDup l -> Forall (fun k => -1 <= k < UART_NCPU) l -> (length l <= 9)%nat.
Proof.
  intros Hn Hf. assert (l ⊆+ seqZ (-1) 9) as Hs.
  { apply NoDup_submseteq; [done|]. intros x Hx. rewrite Forall_forall in Hf. apply Hf in Hx. apply elem_of_seqZ. unfold UART_NCPU in Hx. lia. }
  apply submseteq_length in Hs. rewrite length_seqZ in Hs. exact Hs.
Qed.
Lemma fifo_bound x : uinv x -> (length (u_fifo x.1) <= 9)%nat.
Proof. intros [H1 H2 _ _ _ _ _ _]. pose proof (keys_bound _ H1 H2) as H. unfold keys in H. by rewrite length_map in H. Qed.
Lemma write_thr_fits x f : (length f <= 9)%nat -> write_thr x f = f ++ [x].
Proof. intros H. unfold write_thr, FIFO_SIZE. destruct (Nat.ltb_spec (length f) 16); [done|lia]. Qed.

Lemma bytes_of_app t l1 l2 : bytes_of t (l1 ++ l2) = bytes_of t l1 ++ bytes_of t l2.
Proof. apply omap_app. Qed.

(** A byte more in the FIFO. *)
Lemma keys_push k l : NoDup l -> Forall (fun k => -1 <= k < UART_NCPU) l -> (k ∉ l) -> -1 <= k < UART_NCPU ->
  NoDup (l ++ [k]) /\ Forall (fun k => -1 <= k < UART_NCPU) (l ++ [k]).
Proof.
  intros Hn Hf Hk Hr. split.
  - apply NoDup_app. split_and!; [done| |apply NoDup_singleton]. intros x Hx Hx'. apply list_elem_of_singleton in Hx' as ->. done.
  - apply Forall_app. split; [done|]. by apply Forall_singleton.
Qed.

(** ** uartwrite *)

(** A thread at its loop with [l] left to write. *)
Definition at_loop (t : Z) (l : list Z) (u : uart) : uart := u_set_tx (u_busy u) (fupd t (WRun l) (u_thread u)) (u_fifo u) u.

Lemma at_loop_inv t l l' u d d' : uinv (u, d) -> remaining (u_thread u t) = l -> (forall t', t' <> t -> d' t' = d t') ->
  (forall x, x ++ l' = d' t <-> x ++ l = d t) -> uinv (at_loop t l' u, d').
Proof.
  intros [H1 H2 H3 H4 H5 H6 H7 H8] Hr Hd Ht. constructor; cbn in *; try done.
  - intros t' k. unfold fupd. destruct (decide (t' = t)) as [->|]; [done|]. apply H6.
  - intros t'. unfold fupd. destruct (decide (t' = t)) as [->|N]; cbn.
    + apply Ht. rewrite <- Hr. apply H7.
    + rewrite Hd by done. apply H7.
Qed.

Lemma uartwrite_inv t l : forall u d, uinv (at_loop t l u, d) -> u_hand u <> HClear -> uinv (uartwrite t l u, d).
Proof.
  induction l as [|b l IH]; intros u d H Hh; cbn [uartwrite]; [done|]. destruct (u_busy u) eqn:Eb.
  - destruct H as [H1 H2 H3 H4 H5 H6 H7 H8]. unfold at_loop in *. rewrite Eb in *. constructor; cbn in *; try done.
    intros t'. specialize (H7 t'). unfold fupd in *. by destruct (decide (t' = t)).
  - apply IH; [|done]. pose proof (fifo_bound _ H) as Hb. destruct H as [H1 H2 H3 H4 H5 H6 H7 H8]. unfold at_loop in *. cbn in *. rewrite Eb in *.
    rewrite write_thr_fits by done. unfold keys in *. cbn in *.
    destruct (keys_push (-1) (map key (u_fifo u)) H1 H2 (H3 eq_refl)) as [P1 P2]; [unfold UART_NCPU; lia|].
    assert (map key (u_fifo u ++ [(SWrite t, b)]) = map key (u_fifo u) ++ [-1]) as Ek by (by rewrite map_app).
    constructor; unfold keys; cbn; rewrite ?Ek; try done.
    + intros c b' Hc. destruct (H5 c b' Hc) as [Hc0 Hck]. split; [done|]. rewrite not_elem_of_app. split; [done|].
      intros Hx. apply list_elem_of_singleton in Hx. lia.
    + intros t'. specialize (H7 t'). rewrite app_assoc, bytes_of_app. unfold fupd in *. destruct (decide (t' = t)) as [->|N]; cbn in H7 |- *.
      * rewrite <- H7, <- app_assoc. f_equal. unfold bytes_of. cbn. rewrite decide_True by done. done.
      * rewrite <- H7. f_equal. unfold bytes_of. cbn. rewrite decide_False by done. by rewrite app_nil_r.
    + intros _. left. by destruct (u_fifo u).
Qed.

(** ** Every step *)

Lemma sync_inv c b u d : uinv (u, d) -> 0 <= c < UART_NCPU -> u_cpu u c = PReady b -> uinv (sync_put c b u, d).
Proof.
  intros H Hc Er. pose proof (fifo_bound _ H) as Hb. destruct H as [H1 H2 H3 H4 H5 H6 H7 H8]. unfold sync_put, keys in *. cbn in *.
  rewrite write_thr_fits by done. destruct (H5 c b Er) as [Hc0 Hck]. destruct (keys_push c (map key (u_fifo u)) H1 H2 Hck) as [P1 P2]; [lia|].
  assert (map key (u_fifo u ++ [(SSync c, b)]) = map key (u_fifo u) ++ [c]) as Ek by (by rewrite map_app).
  assert (forall P : Prop, (P -> -1 ∉ map key (u_fifo u)) -> P -> -1 ∉ map key (u_fifo u) ++ [c]) as Hm.
  { intros P HP Hx. rewrite not_elem_of_app. split; [by apply HP|]. intros Hy. apply list_elem_of_singleton in Hy. lia. }
  constructor; unfold keys; cbn; rewrite ?Ek; try done.
  - apply Hm, H3.
  - apply Hm, H4.
  - intros c' b'. unfold fupd. destruct (decide (c' = c)) as [->|N]; [done|]. intros Hr. destruct (H5 c' b' Hr) as [Hc' Hk]. split; [done|].
    rewrite not_elem_of_app. split; [done|]. intros Hx. by apply list_elem_of_singleton in Hx.
  - intros t. rewrite app_assoc, bytes_of_app, <- (H7 t). unfold bytes_of at 2. cbn. by rewrite app_nil_r.
  - intros Hx. left. by destruct (u_fifo u).
Qed.

Lemma send_inv u d : uinv (u, d) -> uinv (dev_send u, d).
Proof.
  intros [H1 H2 H3 H4 H5 H6 H7 H8]. unfold dev_send, keys in *. cbn in *. destruct (u_fifo u) as [|x f] eqn:Ef; [constructor; unfold keys; cbn; rewrite ?Ef; done|].
  cbn in *. apply NoDup_cons in H1 as [_ H1]. apply Forall_cons in H2 as [_ H2]. constructor; unfold keys; cbn; try done.
  - intros Hx. specialize (H3 Hx). set_solver.
  - intros Hx. specialize (H4 Hx). set_solver.
  - intros c b Hc. destruct (H5 c b Hc). set_solver.
  - intros t. rewrite <- (H7 t). f_equal. by rewrite <- app_assoc.
  - intros Hx. destruct f; [auto|by left].
Qed.

Lemma intr_input_inv n : forall u d, uinv (u, d) -> uinv (intr_input n u, d).
Proof.
  induction n as [|n IH]; intros u d H; cbn [intr_input]; [done|]. unfold uartgetc. destruct (u_rx u) as [|c r]; [done|]. apply IH. by destruct H.
Qed.

Lemma ustep_inv x y : uinv x -> ustep x y -> uinv y.
Proof.
  intros H Hs. destruct Hs as [t l u d Ht Hh|t l u d Ht Hh|c b u d Hc Ec|c b u d Hc Ec|c b u d Hc Ec|u d Hh|u d Hh|u d Hh|u d Hh|u d|c u d].
  - apply uartwrite_inv; [|done]. eapply at_loop_inv; [exact H|by rewrite Ht| |].
    + intros t' N. unfold fupd. by rewrite decide_False.
    + intros z. unfold fupd. rewrite decide_True by done. rewrite app_nil_r. split; [intros E; by apply app_inv_tail in E|by intros ->].
  - apply uartwrite_inv; [|done]. by eapply at_loop_inv; [exact H|by rewrite Ht|..].
  - destruct H as [H1 H2 H3 H4 H5 H6 H7 H8]. constructor; cbn in *; try done. intros c' b'. unfold fupd. destruct (decide (c' = c)); [done|]. apply H5.
  - unfold sync_poll, lsr_idle. destruct (u_fifo u) eqn:Ef; [|done]. destruct H as [H1 H2 H3 H4 H5 H6 H7 H8]. unfold keys in *. cbn in *. rewrite Ef in *.
    constructor; unfold keys; cbn; rewrite ?Ef; try done. intros c' b'. unfold fupd. destruct (decide (c' = c)) as [->|]; [|apply H5].
    intros _. split; [lia|set_solver].
  - by apply sync_inv.
  - destruct H as [H1 H2 H3 H4 H5 H6 H7 H8]. constructor; cbn in *; try done. intros _. right. by right.
  - unfold intr_check, lsr_idle. destruct H as [H1 H2 H3 H4 H5 H6 H7 H8]. destruct (u_fifo u) eqn:Ef.
    + unfold keys in *. cbn in *. rewrite Ef in *. constructor; unfold keys; cbn; rewrite ?Ef; try done; [set_solver|]. intros _. right. by right.
    + constructor; cbn in *; try done. intros _. left. by rewrite Ef.
  - destruct H as [H1 H2 H3 H4 H5 H6 H7 H8]. constructor; cbn in *; try done.
    + intros _. by apply H4.
    + intros t l. by destruct (u_thread u t).
    + intros t. rewrite <- (H7 t). f_equal. by destruct (u_thread u t).
  - by apply intr_input_inv.
  - by apply send_inv.
  - by destruct H.
Qed.

Lemma ureachable_inv x : ureachable x -> uinv x.
Proof.
  intros (x0 & (S1 & S2 & S3 & S4 & S5 & S6 & S7) & Hs). assert (uinv x0) as H0.
  { constructor; unfold keys; rewrite ?S5; cbn [map].
    - apply NoDup_nil_2.
    - by apply Forall_nil.
    - intros _. apply not_elem_of_nil.
    - intros _. apply not_elem_of_nil.
    - intros c b. by rewrite S3.
    - intros t l. by rewrite S2.
    - intros t. by rewrite S6, S2, S7.
    - by rewrite S1. }
  clear S1 S2 S3 S4 S5 S6 S7. induction Hs as [x|x y z Hxy _ IH]; [done|]. apply IH. by eapply ustep_inv.
Qed.

(** ** Theorem *)

(** C16.  In every interleaving of threads in uartwrite, processors in
    uartputc_sync, interrupts and the device: the transmit FIFO of 16 bytes
    is never full, although uartputc_sync does not take tx_lock, so no byte
    is lost; the bytes of each thread are sent once and in order; a thread
    sleeps only while the uart is busy with a byte, and then the device still
    has something to send, an interrupt is pending, or the handler is at work
    and wakes it: no wakeup is lost. *)
Theorem uart_sends_everything u d : ureachable (u, d) ->
  (length (u_fifo u) < FIFO_SIZE)%nat /\
  (forall t, bytes_of t (u_sent u ++ u_fifo u) ++ remaining (u_thread u t) = d t) /\
  (forall t l, u_thread u t = WSleep l -> u_busy u = true /\
     (u_fifo u <> [] \/ u_irq u = true \/ u_hand u <> HIdle)) /\
  (u_hand u = HClear -> u_busy (intr_clear u) = false /\ forall t, remaining (u_thread (intr_clear u) t) = remaining (u_thread u t) /\
     forall l, u_thread (intr_clear u) t <> WSleep l).
Proof.
  intros R. pose proof (ureachable_inv _ R) as H. pose proof (fifo_bound _ H) as Hb. destruct H as [_ _ _ _ _ H6 H7 H8]. cbn in *.
  split_and!; [unfold FIFO_SIZE; lia|done| |].
  - intros t l Ht. split; [by eapply H6|]. apply H8. by eapply H6.
  - intros _. split; [done|]. intros t. split; [by destruct (u_thread u t)|]. intros l. by destruct (u_thread u t).
Qed.

(** Thread 1 writes two bytes: the first is in the FIFO and it sleeps. *)
Definition usample_uart : uart := Uart false (fun _ => WRun []) (fun _ => PIdle) HIdle [] [] false [] [].
Lemma uart_sends_everything_witness :
  let u := uartwrite 1 [104; 105] usample_uart in let d := fupd 1 ([] ++ [104; 105]) (fun _ : Z => []) in
  ureachable (u, d) /\ u_thread u 1 = WSleep [105] /\ bytes_of 1 (u_sent u ++ u_fifo u) = [104] /\ (length (u_fifo u) < FIFO_SIZE)%nat.
Proof.
  intros u d. assert (ureachable (u, d)) as R.
  { exists (usample_uart, fun _ => []). split; [done|]. apply rtc_once. by apply (us_call 1 [104; 105]). }
  split; [exact R|]. split; [reflexivity|]. split; [reflexivity|]. destruct (uart_sends_everything u d R) as [H _]. exact H.
Defined.

(** ** uartinit *)

(** The registers that uartinit sets; while the baud latch bit of LCR is set,
    registers 0 and 1 are the two bytes of the divisor. *)
Record uregs := URegs { r_ier : Z; r_fcr : Z; r_lcr : Z; r_div : Z; r_thr : list Z }.
Definition LCR_BAUD_LATCH : Z := Z.shiftl 1 7.
Definition WriteReg (reg v : Z) (r : uregs) : uregs :=
  let latch := negb (Z.land (r_lcr r) LCR_BAUD_LATCH =? 0) in
  if reg =? 0 then (if latch then URegs (r_ier r) (r_fcr r) (r_lcr r) (r_div r / 256 * 256 + v) (r_thr r)
                    else URegs (r_ier r) (r_fcr r) (r_lcr r) (r_div r) (r_thr r ++ [v]))
  else if reg =? 1 then (if latch then URegs (r_ier r) (r_fcr r) (r_lcr r) (r_div r mod 256 + 256 * v) (r_thr r)
                         else URegs v (r_fcr r) (r_lcr r) (r_div r) (r_thr r))
  else if reg =? 2 then URegs (r_ier r) v (r_lcr r) (r_div r) (r_thr r)
  else if reg =? 3 then URegs (r_ier r) (r_fcr r) v (r_div r) (r_thr r)
  else r.
Definition uartinit (r : uregs) : uregs :=
  let r := WriteReg 1 0x00 r in
  let r := WriteReg 3 LCR_BAUD_LATCH r in
  let r := WriteReg 0 0x03 r in
  let r := WriteReg 1 0x00 r in
  let r := WriteReg 3 (Z.shiftl 3 0) r in
  let r := WriteReg 2 (Z.lor (Z.shiftl 1 0) (Z.shiftl 3 1)) r in
  WriteReg 1 (Z.lor (Z.shiftl 1 1) (Z.shiftl 1 0)) r.

(** 38400 baud, eight bits, FIFOs on, both interrupts on, nothing sent. *)
Theorem uartinit_configures r : Z.land (r_lcr r) LCR_BAUD_LATCH = 0 -> 0 <= r_div r ->
  let r' := uartinit r in r_ier r' = 3 /\ r_fcr r' = 7 /\ r_lcr r' = 3 /\ r_div r' = 3 /\ r_thr r' = r_thr r.
Proof.
  destruct r as [ier fcr lcr dv thr]. cbn [r_lcr r_div r_thr]. intros H0 Hd. unfold uartinit. cbv zeta.
  assert (WriteReg 1 0x00 (URegs ier fcr lcr dv thr) = URegs 0 fcr lcr dv thr) as E1.
  { unfold WriteReg. cbn [r_lcr]. by rewrite H0. }
  assert (WriteReg 3 LCR_BAUD_LATCH (URegs 0 fcr lcr dv thr) = URegs 0 fcr LCR_BAUD_LATCH dv thr) as E2 by reflexivity.
  assert (WriteReg 0 0x03 (URegs 0 fcr LCR_BAUD_LATCH dv thr) = URegs 0 fcr LCR_BAUD_LATCH (dv / 256 * 256 + 3) thr) as E3 by reflexivity.
  assert (WriteReg 1 0x00 (URegs 0 fcr LCR_BAUD_LATCH (dv / 256 * 256 + 3) thr) = URegs 0 fcr LCR_BAUD_LATCH 3 thr) as E4.
  { transitivity (URegs 0 fcr LCR_BAUD_LATCH ((dv / 256 * 256 + 3) mod 256 + 256 * 0) thr); [reflexivity|].
    f_equal. rewrite Z.add_comm, (Z.add_comm _ 3), Z.mod_add by lia. done. }
  rewrite E1, E2, E3, E4. split_and!; reflexivity.
Qed.
