(* ===== verification/Printf.v ===== *)
(** * The user library and printf (user/ulib.c, user/printf.c, kernel/printf.c)

    The library's memory and string functions on the byte memory of Mem
    (memmove chooses the direction by the order of the two addresses only; it
    copies the same bytes as the kernel's).  The characters a call of printf
    prints, from the format and the arguments: an argument is a 64-bit word or
    a string; a format that asks for one of the wrong kind, or for one that is
    not there, is undefined in C ([None]).  The kernel and the user library
    have a printf each, with a table of digits each (small and capital
    hexadecimal letters); the kernel prints through consputc, for which the
    number 0x100 is a backspace. *)
From S2P Require Import Prelude Mem.
From stdpp Require Import base tactics numbers list strings gmap sets.
From Stdlib Require Import ZArith Lia.

Open Scope Z_scope.

Definition umemset (m : gmap Z Z) (dst c n : Z) : gmap Z Z := memset_loop (Z.to_nat n) m dst 0 c.

Definition umemmove (m : gmap Z Z) (vdst vsrc n : Z) : gmap Z Z :=
  if vdst <? vsrc then memmove_up (Z.to_nat n) m vdst vsrc
  else memmove_down (Z.to_nat n) m (vdst + n) (vsrc + n).
Definition umemcpy (m : gmap Z Z) (dst src n : Z) : gmap Z Z := umemmove m dst src n.
Definition umemcmp (m : gmap Z Z) (s1 s2 n : Z) : Z := memcmp_loop (Z.to_nat n) m s1 s2.

(** Strings, with the most characters they may have. *)
Fixpoint ustrcpy (fuel : nat) (m : gmap Z Z) (s t : Z) : option (gmap Z Z) :=
  match fuel with
  | O => None
  | S fuel =>
      let c := mget m t in
      let m := mset m s c in
      if c =? 0 then Some m else ustrcpy fuel m (s + 1) (t + 1)
  end.
Fixpoint ustrcmp (fuel : nat) (m : gmap Z Z) (p q : Z) : option Z :=
  match fuel with
  | O => None
  | S fuel =>
      if negb (mget m p =? 0) && (mget m p =? mget m q) then ustrcmp fuel m (p + 1) (q + 1)
      else Some (mget m p - mget m q)
  end.
Fixpoint ustrlen (fuel : nat) (m : gmap Z Z) (s n : Z) : option Z :=
  match fuel with O => None | S fuel => if mget m (s + n) =? 0 then Some n else ustrlen fuel m s (n + 1) end.

(** The string at [p] is [l]. *)
Definition string_in (m : gmap Z Z) (p : Z) (l : list Z) : Prop :=
  Forall (fun c => c <> 0) l /\ (forall i c, l !! i = Some c -> mget m (p + Z.of_nat i) = c) /\ mget m (p + Z.of_nat (length l)) = 0.

Lemma string_in_nil m p : string_in m p [] <-> mget m p = 0.
Proof. unfold string_in. cbn. rewrite Z.add_0_r. split; [tauto|]. intros H. split_and!; [by apply Forall_nil|done|done]. Qed.
Lemma string_in_cons m p c l : string_in m p (c :: l) <-> c <> 0 /\ mget m p = c /\ string_in m (p + 1) l.
Proof.
  unfold string_in. cbn [length]. rewrite Nat2Z.inj_succ, Forall_cons. split.
  - intros ([Hc HF] & Hl & Hz). split; [done|]. split; [rewrite <- (Hl 0%nat c) by done; f_equal; cbn; lia|]. split_and!; [done| |].
    + intros i x Hx. rewrite <- (Hl (S i) x Hx). f_equal. lia.
    + rewrite <- Hz. f_equal. lia.
  - intros (Hc & Hm & HF & Hl & Hz). split_and!; [done|done| |].
    + intros [|i] x Hx; [injection Hx as <-; rewrite <- Hm; f_equal; cbn; lia|]. rewrite <- (Hl i x Hx). f_equal. lia.
    + rewrite <- Hz. f_equal. lia.
Qed.

Theorem umemmove_memmove m dst src n x : 0 <= n -> mget (umemmove m dst src n) x = mget (memmove m dst src n) x.
Proof.
  intros Hn. rewrite mget_memmove by done. unfold umemmove. destruct (Z.ltb_spec dst src).
  - rewrite mget_memmove_up by lia. by rewrite Z2Nat.id by lia.
  - destruct (decide (dst = src)) as [->|N].
    + assert (forall k m d, mget (memmove_down k m d d) x = mget m x) as ->.
      { intros k. induction k as [|k IH]; intros m' d; cbn [memmove_down]; [done|]. rewrite IH, mget_mset, w8_mget. by case_decide; subst. }
      case_decide; [f_equal; lia|done].
    + rewrite mget_memmove_down by lia. rewrite Z2Nat.id by lia. repeat case_decide; try lia; try done. f_equal. lia.
Qed.

Theorem ustrlen_string m l : forall s n fuel, string_in m (s + n) l -> (length l < fuel)%nat -> ustrlen fuel m s n = Some (n + Z.of_nat (length l)).
Proof.
  induction l as [|c l IH]; intros s n fuel H Hf; (destruct fuel as [|fuel]; [lia|]); cbn [ustrlen length].
  - apply string_in_nil in H. rewrite H, Z.eqb_refl. f_equal. lia.
  - apply string_in_cons in H as (Hc & -> & H). destruct (Z.eqb_spec c 0); [done|]. rewrite IH; [f_equal; lia| |cbn in Hf; lia].
    by replace (s + (n + 1)) with (s + n + 1) by lia.
Qed.

(** strcmp returns 0 exactly for equal strings, and otherwise has the sign of
    the first difference. *)
Theorem ustrcmp_strings m l : forall l' p q fuel, string_in m p l -> string_in m q l' -> (length l < fuel)%nat ->
  exists r, ustrcmp fuel m p q = Some r /\ (r = 0 <-> l = l').
Proof.
  induction l as [|c l IH]; intros l' p q fuel Hp Hq Hf; (destruct fuel as [|fuel]; [lia|]); cbn [ustrcmp].
  - apply string_in_nil in Hp. rewrite Hp. cbn. destruct l' as [|c' l'].
    + apply string_in_nil in Hq. rewrite Hq. exists 0. done.
    + apply string_in_cons in Hq as (Hc & -> & _). exists (0 - c'). split; [done|]. split; [lia|done].
  - apply string_in_cons in Hp as (Hc & -> & Hp). destruct (Z.eqb_spec c 0); [done|]. cbn [negb andb]. destruct l' as [|c' l'].
    + apply string_in_nil in Hq. rewrite Hq. destruct (Z.eqb_spec c 0); [done|]. exists (c - 0). split; [done|]. split; [lia|done].
    + apply string_in_cons in Hq as (Hc' & -> & Hq). destruct (Z.eqb_spec c c') as [->|N].
      * destruct (IH l' (p + 1) (q + 1) fuel Hp Hq) as (r & -> & Hr); [cbn in Hf; lia|]. exists r. split; [done|]. rewrite Hr. split; congruence.
      * exists (c - c'). split; [done|]. split; [lia|congruence].
Qed.

(** strcpy to a place that does not overlap. *)
Theorem ustrcpy_string m l : forall s t fuel, string_in m t l -> Forall (fun c => 0 <= c < 256) l -> (length l < fuel)%nat ->
  s + Z.of_nat (length l) < t \/ t + Z.of_nat (length l) < s ->
  exists m', ustrcpy fuel m s t = Some m' /\ string_in m' s l /\ forall x, ~ (s <= x <= s + Z.of_nat (length l)) -> mget m' x = mget m x.
Proof.
  revert m. induction l as [|c l IH]; intros m s t fuel Ht Hr Hf Hd; (destruct fuel as [|fuel]; [lia|]); cbn [ustrcpy length] in *.
  - apply string_in_nil in Ht. rewrite Ht. cbn. exists (mset m s 0). split; [done|]. rewrite string_in_nil, mget_mset, decide_True by done.
    split; [done|]. intros x Hx. rewrite mget_mset, decide_False; [done|lia].
  - apply string_in_cons in Ht as (Hc & Hm & Ht). rewrite Hm. destruct (Z.eqb_spec c 0); [done|]. apply Forall_cons in Hr as [Hrc Hr].
    destruct (IH (mset m s c) (s + 1) (t + 1) fuel) as (m' & E & Hs & Ho); [|done|lia|lia|].
    { destruct Ht as (H1 & H2 & H3). split_and!; [done| |].
      - intros i x Hx. assert (i < length l)%nat by (by eapply lookup_lt_Some). rewrite mget_mset, decide_False by lia. by apply H2.
      - rewrite mget_mset, decide_False by lia. done. }
    exists m'. split; [done|]. split.
    + apply string_in_cons. split; [done|]. split; [|done]. rewrite Ho by lia. rewrite mget_mset, decide_True by done. by apply w8_id.
    + intros x Hx. rewrite Ho by lia. rewrite mget_mset, decide_False; [done|lia].
Qed.

Definition kdigits : list Z := [48; 49; 50; 51; 52; 53; 54; 55; 56; 57; 97; 98; 99; 100; 101; 102].
Definition udigits : list Z := [48; 49; 50; 51; 52; 53; 54; 55; 56; 57; 65; 66; 67; 68; 69; 70].

(** A variable argument: a word of eight bytes, or a pointer to a string. *)
Inductive varg := VWord (x : Z) | VStr (s : option (list Z)).

(** Conversion to long long *)
Definition s64 (x : Z) : Z := (x + 2 ^ 63) mod 2 ^ 64 - 2 ^ 63.

(** do { buf[i++] = digits[x % base]; } while((x /= base) != 0); a 64-bit
    number has at most 64 digits. *)
Fixpoint digits_loop (digits : list Z) (fuel : nat) (base x : Z) : option (list Z) :=
  match fuel with
  | O => None
  | S fuel =>
      let d := nth (Z.to_nat (x mod base)) digits 0 in
      if x / base =? 0 then Some [d] else cons d <$> digits_loop digits fuel base (x / base)
  end.
(** The loop of printptr *)
Fixpoint ptr_loop (digits : list Z) (n : nat) (x : Z) : list Z :=
  match n with O => [] | S n => nth (Z.to_nat (Z.shiftr x 60)) digits 0 :: ptr_loop digits n (w64 (Z.shiftl x 4)) end.

(** The next argument, a word; and a conversion of it with printint, that
    consumes [skip] more characters of the format. *)
Definition word_arg (args : list varg) : option (Z * list varg) := match args with VWord x :: args => Some (x, args) | _ => None end.
Definition int_conv (pr : Z -> Z -> bool -> option (list Z)) (args : list varg) (f : Z -> Z) (base : Z) (sign : bool) (skip : nat) : option (list Z * list varg * nat) :=
  '(x, args) ← word_arg args; out ← pr (f x) base sign; Some (out, args, skip).
Definition null_text : list Z := [40; 110; 117; 108; 108; 41].
(** fmt[i] & 0xff; a format is the bytes before its NUL. *)
Definition fmt_at (fmt : list Z) (i : nat) : Z := nth i fmt 0.

(** ** kernel/printf.c *)

(** The contents of buf, from buf[0]. *)
Definition printint_buf (xx base : Z) (sign : bool) : option (list Z) :=
  let sign := if sign then xx <? 0 else false in
  let x := w64 (if sign then - xx else xx) in
  buf ← digits_loop kdigits 64 base x;
  Some (if sign then buf ++ [45] else buf).
(** They are printed from the last to the first. *)
Definition printint (xx base : Z) (sign : bool) : option (list Z) := reverse <$> printint_buf xx base sign.
Definition printptr (x : Z) : list Z := [48; 120] ++ ptr_loop kdigits 16 x.

(** The bytes consputc sends for an int; characters, which are below 0x100,
    are sent as they are. *)
Definition console_bytes (c : Z) : list Z := if c =? 0x100 then [8; 32; 8] else [w8 c].

(** What the characters behind a "%" print, with the arguments that are left
    and the number of characters consumed after the first. *)
Definition directive (c0 c1 c2 : Z) (args : list varg) : option (list Z * list varg * nat) :=
  if c0 =? 100 then int_conv printint args (fun x => s32 (w32 x)) 10 true 0
  else if (c0 =? 108) && (c1 =? 100) then int_conv printint args s64 10 true 1
  else if (c0 =? 108) && (c1 =? 108) && (c2 =? 100) then int_conv printint args s64 10 true 2
  else if c0 =? 117 then int_conv printint args w32 10 false 0
  else if (c0 =? 108) && (c1 =? 117) then int_conv printint args s64 10 false 1
  else if (c0 =? 108) && (c1 =? 108) && (c2 =? 117) then int_conv printint args s64 10 false 2
  else if c0 =? 120 then int_conv printint args w32 16 false 0
  else if (c0 =? 108) && (c1 =? 120) then int_conv printint args s64 16 false 1
  else if (c0 =? 108) && (c1 =? 108) && (c2 =? 120) then int_conv printint args s64 16 false 2
  else if c0 =? 112 then '(x, args) ← word_arg args; Some (printptr (w64 x), args, 0%nat)
  else if c0 =? 99 then '(x, args) ← word_arg args; Some (console_bytes (w32 x), args, 0%nat)
  else if c0 =? 115 then
    match args with VStr s :: args => Some (default null_text s, args, 0%nat) | _ => None end
  else if c0 =? 37 then Some ([37], args, 0%nat)
  else Some ([37; c0], args, 0%nat).

(** printf: i is advanced over each directive as a whole. *)
Fixpoint printf_loop (fuel : nat) (fmt : list Z) (i : nat) (args : list varg) : option (list Z) :=
  match fuel with
  | O => None
  | S fuel =>
      let cx := fmt_at fmt i in
      if cx =? 0 then Some []
      else if negb (cx =? 37) then cons cx <$> printf_loop fuel fmt (S i) args
      else
        let i := S i in
        let c0 := fmt_at fmt i in
        let c1 := if c0 =? 0 then 0 else fmt_at fmt (i + 1) in
        let c2 := if c1 =? 0 then 0 else fmt_at fmt (i + 2) in
        if c0 =? 0 then Some []
        else
          '(out, args, n) ← directive c0 c1 c2 args;
          rest ← printf_loop fuel fmt (S (i + n)) args;
          Some (out ++ rest)
  end.
(** Each round advances i, which stops at the NUL. *)
Definition printf (fmt : list Z) (args : list varg) : option (list Z) := printf_loop (S (length fmt)) fmt 0 args.

(** ** user/printf.c *)

Definition uprintint_buf (xx base : Z) (sgn : bool) : option (list Z) :=
  let neg := sgn && (xx <? 0) in
  let x := w64 (if neg then - xx else xx) in
  buf ← digits_loop udigits 64 base x;
  Some (if neg then buf ++ [45] else buf).
Definition uprintint (xx base : Z) (sgn : bool) : option (list Z) := reverse <$> uprintint_buf xx base sgn.
Definition uprintptr (x : Z) : list Z := [48; 120] ++ ptr_loop udigits 16 x.

Definition udirective (c0 c1 c2 : Z) (args : list varg) : option (list Z * list varg * nat) :=
  if c0 =? 100 then int_conv uprintint args (fun x => s32 (w32 x)) 10 true 0
  else if (c0 =? 108) && (c1 =? 100) then int_conv uprintint args s64 10 true 1
  else if (c0 =? 108) && (c1 =? 108) && (c2 =? 100) then int_conv uprintint args s64 10 true 2
  else if c0 =? 117 then int_conv uprintint args w32 10 false 0
  else if (c0 =? 108) && (c1 =? 117) then int_conv uprintint args s64 10 false 1
  else if (c0 =? 108) && (c1 =? 108) && (c2 =? 117) then int_conv uprintint args s64 10 false 2
  else if c0 =? 120 then int_conv uprintint args w32 16 false 0
  else if (c0 =? 108) && (c1 =? 120) then int_conv uprintint args s64 16 false 1
  else if (c0 =? 108) && (c1 =? 108) && (c2 =? 120) then int_conv uprintint args s64 16 false 2
  else if c0 =? 112 then '(x, args) ← word_arg args; Some (uprintptr (w64 x), args, 0%nat)
  else if c0 =? 99 then '(x, args) ← word_arg args; Some ([w8 x], args, 0%nat)
  else if c0 =? 115 then
    match args with VStr s :: args => Some (default null_text s, args, 0%nat) | _ => None end
  else if c0 =? 37 then Some ([37], args, 0%nat)
  else Some ([37; c0], args, 0%nat).

(** vprintf: one character at a time, with a state that says whether the last
    one was a "%". *)
Fixpoint vprintf_loop (fuel : nat) (fmt : list Z) (i : nat) (pct : bool) (args : list varg) : option (list Z) :=
  match fuel with
  | O => None
  | S fuel =>
      let c0 := fmt_at fmt i in
      if c0 =? 0 then Some []
      else if negb pct then
        if c0 =? 37 then vprintf_loop fuel fmt (S i) true args else cons c0 <$> vprintf_loop fuel fmt (S i) false args
      else
        let c1 := fmt_at fmt (i + 1) in
        let c2 := if c1 =? 0 then 0 else fmt_at fmt (i + 2) in
        '(out, args, n) ← udirective c0 c1 c2 args;
        rest ← vprintf_loop fuel fmt (S (i + n)) false args;
        Some (out ++ rest)
  end.
Definition vprintf (fmt : list Z) (args : list varg) : option (list Z) := vprintf_loop (S (length fmt)) fmt 0 false args.

(** atoi of the user library: while('0' <= *s && *s <= '9') n = n*10 + *s++ - '0' *)
Fixpoint atoi_loop (n : Z) (s : list Z) : Z :=
  match s with
  | c :: s => if (48 <=? c) && (c <=? 57) then atoi_loop (s32 (w32 (n * 10 + c - 48))) s else n
  | [] => n
  end.
Definition atoi (s : list Z) : Z := atoi_loop 0 s.

(** panic of the kernel, as far as it prints: "panic: " and the message. *)
Definition panic_text (msg : list Z) : option (list Z) :=
  a ← printf [112; 97; 110; 105; 99; 58; 32] [];
  b ← printf [37; 115; 10] [VStr (Some msg)];
  Some (a ++ b).
