(* ===== verification/PrintfTheorems.v ===== *)
(** * Properties of formatted output *)
From stdpp Require Import base tactics numbers list strings sets.
From Stdlib Require Import ZArith Lia.
From S2P Require Import Prelude Printf.

Open Scope Z_scope.

(** ** Numbers *)

(** The number that digits denote, least significant first. *)
Fixpoint value (base : Z) (ds : list Z) : Z := match ds with [] => 0 | d :: ds => d + base * value base ds end.
Definition digit_chars (digits : list Z) (ds : list Z) : list Z := map (fun d => nth (Z.to_nat d) digits 0) ds.

Lemma value_app base l1 l2 : value base (l1 ++ l2) = value base l1 + base ^ Z.of_nat (length l1) * value base l2.
Proof.
  induction l1 as [|d l1 IH]; cbn [app value length]; [lia|]. rewrite IH, Nat2Z.inj_succ, Z.pow_succ_r by lia. ring.
Qed.

Lemma digits_loop_spec digits base k : forall fuel x, 2 <= base -> 0 <= x < base ^ Z.of_nat (S k) -> (k < fuel)%nat ->
  exists ds, digits_loop digits fuel base x = Some (digit_chars digits ds) /\ value base ds = x /\ Forall (fun d => 0 <= d < base) ds /\
    (length ds <= S k)%nat /\ (0 < length ds)%nat.
Proof.
  induction k as [|k IH]; intros fuel x Hb Hx Hf; (destruct fuel as [|fuel]; [lia|]); cbn [digits_loop];
    pose proof (Z.div_mod x base ltac:(lia)) as E; pose proof (Z.mod_pos_bound x base ltac:(lia)) as Hr.
  - rewrite Z.div_small by (rewrite Z.pow_1_r in Hx; lia). exists [x mod base]. rewrite Z.mod_small by (rewrite Z.pow_1_r in Hx; lia).
    rewrite Z.pow_1_r in Hx. split_and!; [done|cbn; lia|by apply Forall_singleton|cbn; lia|cbn; lia].
  - destruct (Z.eqb_spec (x / base) 0) as [E0|N0].
    + exists [x mod base]. split_and!; [done|cbn; lia|by apply Forall_singleton|cbn; lia|cbn; lia].
    + destruct (IH fuel (x / base)) as (ds & -> & Hv & HF & Hl & _); [lia| |lia|].
      { rewrite Nat2Z.inj_succ, Z.pow_succ_r in Hx by lia. split; [apply Z.div_pos; lia|]. apply Z.div_lt_upper_bound; lia. }
      exists (x mod base :: ds). split_and!; [done|cbn; lia|by apply Forall_cons|cbn; lia|cbn; lia].
Qed.

(** Reading the characters of a number back: the index of each in the table
    of digits, from the most significant one. *)
Definition digit_of (digits : list Z) (c : Z) : option Z := Z.of_nat <$> (fst <$> list_find (eq c) (take 16 digits)).
Definition read_digits (digits : list Z) (base : Z) (l : list Z) : option Z :=
  foldl (fun n c => n ← n; d ← digit_of digits c; Some (n * base + d)) (Some 0) l.
Definition read_number (digits : list Z) (base : Z) (l : list Z) : option Z :=
  match l with 45 :: l => Z.opp <$> read_digits digits base l | _ => read_digits digits base l end.

(** A table of sixteen different digits, none of them the sign. *)
Definition table_ok (digits : list Z) : Prop :=
  forall d, 0 <= d < 16 -> digit_of digits (nth (Z.to_nat d) digits 0) = Some d /\ nth (Z.to_nat d) digits 0 <> 45.

Lemma table_check digits :
  forallb (fun d => bool_decide (digit_of digits (nth d digits 0) = Some (Z.of_nat d)) && negb (nth d digits 0 =? 45)) (seq 0 16) = true -> table_ok digits.
Proof.
  intros H d Hd. rewrite forallb_forall in H. specialize (H (Z.to_nat d)). rewrite in_seq in H. specialize (H ltac:(lia)).
  apply andb_true_iff in H as [H1 H2]. apply bool_decide_eq_true in H1. rewrite Z2Nat.id in H1 by lia. apply negb_true_iff, Z.eqb_neq in H2. done.
Qed.
Lemma kdigits_ok : table_ok kdigits.
Proof. apply table_check. reflexivity. Qed.
Lemma udigits_ok : table_ok udigits.
Proof. apply table_check. reflexivity. Qed.

Section numbers.
Context (digits : list Z) (Htab : table_ok digits).

Lemma read_digits_value base ds : Forall (fun d => 0 <= d < base) ds -> base <= 16 ->
  read_digits digits base (reverse (digit_chars digits ds)) = Some (value base ds).
Proof.
  intros HF Hb. induction HF as [|d ds Hd _ IH]; [done|]. unfold read_digits, digit_chars in *. cbn [map value]. rewrite reverse_cons, foldl_app, IH.
  cbn. destruct (Htab d ltac:(lia)) as [-> _]. cbn. f_equal. lia.
Qed.

Lemma head_not_sign ds l : Forall (fun d => 0 <= d < 16) ds -> reverse (digit_chars digits ds) = 45 :: l -> False.
Proof.
  intros HF E. assert (45 ∈ digit_chars digits ds) as Hin by (rewrite <- elem_of_reverse, E; left).
  apply list_elem_of_fmap in Hin as (d & Hd & Hin). rewrite Forall_forall in HF. destruct (Htab d (HF d Hin)) as [_ N]. congruence.
Qed.

Lemma read_plain base ds : Forall (fun d => 0 <= d < base) ds -> base <= 16 ->
  read_number digits base (reverse (digit_chars digits ds)) = Some (value base ds).
Proof.
  intros HF Hb. rewrite <- (read_digits_value base ds HF Hb). destruct (reverse (digit_chars digits ds)) as [|c l] eqn:E; [done|].
  assert (c <> 45) as N. { intros ->. eapply head_not_sign; [|exact E]. eapply Forall_impl; [exact HF|]. cbv beta. lia. }
  unfold read_number. repeat (case_match; try done).
Qed.

(** The text of a number, least significant digit first and the sign last. *)
Definition number_buf (xx base : Z) (sign : bool) : option (list Z) :=
  let neg := sign && (xx <? 0) in
  let x := w64 (if neg then - xx else xx) in
  buf ← digits_loop digits 64 base x;
  Some (if neg then buf ++ [45] else buf).

(** The number a conversion prints. *)
Definition printed_value (xx : Z) (sign : bool) : Z := if sign then xx else w64 xx.

Lemma number_spec xx base sign : base = 10 \/ base = 16 -> - 2 ^ 63 <= xx < 2 ^ 64 -> (sign = true -> xx < 2 ^ 63) ->
  exists buf, number_buf xx base sign = Some buf /\ (length buf <= 20)%nat /\ read_number digits base (reverse buf) = Some (printed_value xx sign).
Proof using Htab.
  intros Hb Hx Hs. unfold number_buf. set (neg := sign && (xx <? 0)). set (x := w64 (if neg then - xx else xx)).
  assert (0 <= x < 2 ^ 64) as Hr by apply w64_range.
  assert (exists k, x < base ^ Z.of_nat (S k) /\ (k < 64)%nat /\ (S k + (if neg then 1 else 0) <= 20)%nat) as (k & Hk & Hkf & Hkl).
  { destruct neg eqn:En.
    - apply andb_true_iff in En as [-> Hn%Z.ltb_lt]. exists 18%nat. assert (x <= 2 ^ 63) by (unfold x; rewrite w64_id; lia).
      change (Z.of_nat 19) with 19. split_and!; [|lia|lia]. assert (2 ^ 63 < base ^ 19) by (destruct Hb as [-> | ->]; lia). lia.
    - exists 19%nat. change (Z.of_nat 20) with 20. split_and!; [|lia|lia]. assert (2 ^ 64 < base ^ 20) by (destruct Hb as [-> | ->]; lia). lia. }
  destruct (digits_loop_spec digits base k 64 x) as (ds & -> & Hv & HF & Hl & Hn); [lia|lia|done|]. cbn [mbind option_bind].
  assert (length (digit_chars digits ds) = length ds) as El by apply length_map.
  exists (if neg then digit_chars digits ds ++ [45] else digit_chars digits ds). split; [done|]. destruct neg eqn:En.
  - rewrite length_app, El. cbn [length]. split; [lia|]. rewrite reverse_app.
    change (read_number digits base (reverse [45] ++ ?l)) with (Z.opp <$> read_digits digits base l). rewrite (read_digits_value base ds HF ltac:(lia)).
    apply andb_true_iff in En as [-> Hneg%Z.ltb_lt]. cbn [fmap option_fmap option_map printed_value]. f_equal. rewrite Hv. unfold x. rewrite w64_id by lia. lia.
  - split; [lia|]. rewrite (read_plain base ds HF ltac:(lia)). f_equal. rewrite Hv. unfold x, printed_value. destruct sign; [|done].
    apply Z.ltb_ge in En. apply w64_id. lia.
Qed.
End numbers.

Lemma printint_buf_eq xx base sign : printint_buf xx base sign = number_buf kdigits xx base sign.
Proof. by destruct sign. Qed.

Lemma printint_spec xx base sign : base = 10 \/ base = 16 -> - 2 ^ 63 <= xx < 2 ^ 64 -> (sign = true -> xx < 2 ^ 63) ->
  exists buf, printint_buf xx base sign = Some buf /\ (length buf <= 20)%nat /\ read_number kdigits base (reverse buf) = Some (printed_value xx sign).
Proof. rewrite printint_buf_eq. apply number_spec, kdigits_ok. Qed.
Lemma uprintint_spec xx base sign : base = 10 \/ base = 16 -> - 2 ^ 63 <= xx < 2 ^ 64 -> (sign = true -> xx < 2 ^ 63) ->
  exists buf, uprintint_buf xx base sign = Some buf /\ (length buf <= 20)%nat /\ read_number udigits base (reverse buf) = Some (printed_value xx sign).
Proof. apply (number_spec udigits), udigits_ok. Qed.

(** ** atoi *)

Lemma atoi_digits digits ds n : (forall d, 0 <= d < 10 -> nth (Z.to_nat d) digits 0 = 48 + d) -> Forall (fun d => 0 <= d < 10) ds ->
  0 <= n -> n * 10 ^ Z.of_nat (length ds) + value 10 (reverse ds) < 2 ^ 31 ->
  atoi_loop n (map (fun d => nth (Z.to_nat d) digits 0) ds) = n * 10 ^ Z.of_nat (length ds) + value 10 (reverse ds).
Proof.
  intros Hd HF. revert n. induction HF as [|d ds Hr HF IH]; intros n Hn Hm; [cbn; lia|].
  cbn [map atoi_loop]. rewrite Hd by done. destruct (Z.leb_spec 48 (48 + d)); [|lia]. destruct (Z.leb_spec (48 + d) 57); [|lia]. cbn [andb].
  rewrite reverse_cons, value_app, length_reverse in Hm |- *. cbn [length value] in Hm |- *. rewrite Nat2Z.inj_succ, Z.pow_succ_r in Hm |- * by lia.
  assert (0 <= value 10 (reverse ds)) as Hv.
  { clear -HF. assert (Forall (fun d => 0 <= d < 10) (reverse ds)) as HF' by (by apply Forall_reverse). induction HF' as [|x l Hx _ IH]; cbn [value]; lia. }
  assert (0 < 10 ^ Z.of_nat (length ds)) as Hp by (apply Z.pow_pos_nonneg; lia).
  set (p := 10 ^ Z.of_nat (length ds)) in *. replace (n * 10 + (48 + d) - 48) with (n * 10 + d) by lia.
  assert (n * 10 + d < 2 ^ 31) as Hs by nia. rewrite w32_id, s32_id by lia. rewrite IH; [lia|lia|lia].
Qed.

Lemma digit_table : forall d, 0 <= d < 10 -> nth (Z.to_nat d) udigits 0 = 48 + d.
Proof.
  intros d Hd. assert (d ∈ [0; 1; 2; 3; 4; 5; 6; 7; 8; 9]) as H by (apply (elem_of_seqZ 0 10); lia).
  repeat (apply elem_of_cons in H as [->|H]; [done|]). by apply elem_of_nil in H.
Qed.

Lemma atoi_printint n : 0 <= n < 2 ^ 31 -> exists out, uprintint n 10 true = Some out /\ atoi out = n.
Proof.
  intros Hn. unfold uprintint, uprintint_buf. destruct (Z.ltb_spec n 0) as [|_]; [lia|]. cbn [andb]. rewrite w64_id by lia.
  destruct (digits_loop_spec udigits 10 18 64 n) as (ds & -> & Hv & HF & _); [lia|change (Z.of_nat 19) with 19; lia|lia|].
  cbn. exists (reverse (digit_chars udigits ds)). split; [done|]. unfold atoi, digit_chars. rewrite <- fmap_reverse.
  change (fmap ?f ?l) with (map f l). rewrite (atoi_digits udigits (reverse ds) 0 digit_table).
  - rewrite reverse_involutive. lia.
  - by apply Forall_reverse.
  - lia.
  - rewrite reverse_involutive. lia.
Qed.

(** ** The two loops *)

Lemma fmt_at_lt fmt i : fmt_at fmt i <> 0 -> (i < length fmt)%nat.
Proof. intros H. destruct (decide (i < length fmt)%nat); [done|]. exfalso. apply H. unfold fmt_at. apply nth_overflow. lia. Qed.

(** ** What a format says

    An independent reading of formats: the text is cut into pieces, each a
    character or a conversion of the next argument, by a table of the
    conversions. *)

Inductive piece :=
  | Lit (c : Z)
  | Num (xx base : Z) (sign : bool)
  | Ptr (x : Z)
  | Chr (x : Z)
  | Str (s : option (list Z)).

(** A conversion: of a word, of a string, or of nothing (%%). *)
Inductive conv := CWord (f : Z -> piece) | CStr | CPercent.
Definition cInt : conv := CWord (fun x => Num (s32 (w32 x)) 10 true).
Definition cLong : conv := CWord (fun x => Num (s64 x) 10 true).
Definition cUlong (base : Z) : conv := CWord (fun x => Num (s64 x) base false).
Definition cUint (base : Z) : conv := CWord (fun x => Num (w32 x) base false).

Definition conversions : list (list Z * conv) :=
  [([100], cInt); ([108; 100], cLong); ([108; 108; 100], cLong);                            (* d ld lld *)
   ([117], cUint 10); ([108; 117], cUlong 10); ([108; 108; 117], cUlong 10);                (* u lu llu *)
   ([120], cUint 16); ([108; 120], cUlong 16); ([108; 108; 120], cUlong 16);                (* x lx llx *)
   ([112], CWord (fun x => Ptr (w64 x))); ([99], CWord Chr); ([115], CStr); ([37], CPercent)].

Definition convert (v : conv) (args : list varg) : option (piece * list varg) :=
  match v with
  | CWord f => '(x, args) ← word_arg args; Some (f x, args)
  | CStr => match args with VStr s :: args => Some (Str s, args) | _ => None end
  | CPercent => Some (Lit 37, args)
  end.

Fixpoint starts (name l : list Z) : bool :=
  match name, l with
  | [], _ => true
  | c :: name, x :: l => (x =? c) && starts name l
  | _ :: _, [] => false
  end.

(** The pieces of what follows a "%", and what is left. *)
Definition percent (l : list Z) (args : list varg) : option (list piece * list varg * list Z) :=
  match List.find (fun e => starts e.1 l) conversions with
  | Some (name, v) => '(p, args) ← convert v args; Some ([p], args, drop (length name) l)
  | None => Some (match l with [] => [] | c :: _ => [Lit 37; Lit c] end, args, drop 1 l)
  end.

(** The pieces of a format; it gets shorter with each. *)
Fixpoint pieces (fuel : nat) (fmt : list Z) (args : list varg) : option (list piece) :=
  match fuel, fmt with
  | O, _ => None
  | _, [] => Some []
  | S fuel, c :: fmt =>
      if negb (c =? 37) then cons (Lit c) <$> pieces fuel fmt args
      else
        '(ps, args, fmt) ← percent fmt args;
        rest ← pieces fuel fmt args;
        Some (ps ++ rest)
  end.
Definition format (fmt : list Z) (args : list varg) : option (list piece) := pieces (S (length fmt)) fmt args.

(** How the kernel and the user library print a piece. *)
Definition kpiece (p : piece) : option (list Z) :=
  match p with
  | Lit c => Some [c]
  | Num xx base sign => printint xx base sign
  | Ptr x => Some (printptr x)
  | Chr x => Some (console_bytes (w32 x))
  | Str s => Some (default null_text s)
  end.
Definition upiece (p : piece) : option (list Z) :=
  match p with
  | Lit c => Some [c]
  | Num xx base sign => uprintint xx base sign
  | Ptr x => Some (uprintptr x)
  | Chr x => Some [w8 x]
  | Str s => Some (default null_text s)
  end.
Definition render (f : piece -> option (list Z)) (ps : list piece) : option (list Z) := @concat Z <$> mapM f ps.

Lemma render_cons f p ps : render f (p :: ps) = (out ← f p; rest ← render f ps; Some (out ++ rest)).
Proof. unfold render. cbn. destruct (f p); [|done]. cbn. by destruct (mapM f ps). Qed.
Lemma render_app f ps qs : render f (ps ++ qs) = (out ← render f ps; rest ← render f qs; Some (out ++ rest)).
Proof.
  induction ps as [|p ps IH]; [change (render f []) with (Some (@nil Z)); cbn [app mbind option_bind]; by destruct (render f qs)|]. cbn [app]. rewrite !render_cons, IH. destruct (f p); [|done]. cbn.
  destruct (render f ps); [|done]. cbn. destruct (render f qs); [|done]. cbn. by rewrite app_assoc.
Qed.

(** The arguments of printint are 64-bit numbers. *)
Definition piece_ok (p : piece) : Prop :=
  match p with Num xx base sign => (base = 10 \/ base = 16) /\ - 2 ^ 63 <= xx < 2 ^ 63 | _ => True end.
Lemma s64_range x : - 2 ^ 63 <= s64 x < 2 ^ 63.
Proof. unfold s64. pose proof (Z.mod_pos_bound (x + 2 ^ 63) (2 ^ 64)). lia. Qed.
Lemma s32_w32_range x : - 2 ^ 63 <= s32 (w32 x) < 2 ^ 63.
Proof. unfold s32. pose proof (Z.mod_pos_bound (w32 x + 2 ^ 31) (2 ^ 32)). lia. Qed.

Lemma conversions_ok : Forall (fun e => forall args p args', convert e.2 args = Some (p, args') -> piece_ok p) conversions.
Proof.
  assert (forall f args p args', convert (CWord f) args = Some (p, args') -> exists x, p = f x) as HW.
  { intros f args p args'. cbn. destruct args as [|[x|] l]; cbn; try done. intros [= <- <-]. by exists x. }
  pose proof s64_range as R1. pose proof s32_w32_range as R2.
  repeat constructor; cbn [snd]; intros args p args' H; try (apply HW in H as [x ->]; cbn; try done; pose proof (w32_range x); (split; [by auto|]); first [apply R1|apply R2|lia]).
  - cbn in H. destruct args as [|[|s] l]; try done. by injection H as <- <-.
  - by injection H as <- <-.
Qed.
Lemma percent_ok l args ps args' l' : percent l args = Some (ps, args', l') -> Forall piece_ok ps.
Proof.
  unfold percent. destruct (List.find _ _) as [[name v]|] eqn:E.
  - apply List.find_some in E as [Hin _]. destruct (convert v args) as [[p a]|] eqn:Ec; [|done]. cbn. intros [= <- <- <-]. apply Forall_singleton.
    pose proof conversions_ok as HC. rewrite List.Forall_forall in HC. exact (HC _ Hin _ _ _ Ec).
  - intros [= <- <- <-]. destruct l; by repeat constructor.
Qed.
Lemma pieces_ok fuel : forall fmt args ps, pieces fuel fmt args = Some ps -> Forall piece_ok ps.
Proof.
  induction fuel as [|fuel IH]; intros [|c fmt] args ps; cbn [pieces]; try done; [by intros [= <-]; constructor|]. destruct (negb _).
  - destruct (pieces fuel fmt args) as [ps'|] eqn:E; [|done]. cbn. intros [= <-]. constructor; [done|]. by eapply IH.
  - destruct (percent fmt args) as [[[ps1 args1] fmt1]|] eqn:E; [|done]. cbn. destruct (pieces fuel fmt1 args1) as [ps2|] eqn:E2; [|done]. cbn. intros [= <-].
    apply Forall_app. split; [by eapply percent_ok|by eapply IH].
Qed.
Lemma render_defined f ps : (forall p, piece_ok p -> is_Some (f p)) -> Forall piece_ok ps -> is_Some (render f ps).
Proof.
  intros Hf. induction 1 as [|p ps Hp _ IH]; [by eexists|]. rewrite render_cons. destruct (Hf p Hp) as [out ->], IH as [rest ->]. by eexists.
Qed.
Lemma kpiece_defined p : piece_ok p -> is_Some (kpiece p).
Proof.
  destruct p as [|xx base sign| | |]; cbn [piece_ok kpiece]; try (by eexists). intros [Hb Hx]. destruct (printint_spec xx base sign Hb) as (buf & E & _); [lia|lia|].
  unfold printint. rewrite E. by eexists.
Qed.
Lemma upiece_defined p : piece_ok p -> is_Some (upiece p).
Proof.
  destruct p as [|xx base sign| | |]; cbn [piece_ok upiece]; try (by eexists). intros [Hb Hx]. destruct (uprintint_spec xx base sign Hb) as (buf & E & _); [lia|lia|].
  unfold uprintint. rewrite E. by eexists.
Qed.

(** ** Both functions print the pieces *)

Definition no_nul (l : list Z) : Prop := Forall (fun c => c <> 0) l.

(** A directive, with the characters behind the "%": the chain of tests goes
    through the table. *)
Section directives.
Context (pr : Z -> Z -> bool -> option (list Z)) (pp : Z -> list Z) (pc : Z -> list Z).
(** The chain of tests of either printf, by what it calls. *)
Definition chain (c0 c1 c2 : Z) (args : list varg) : option (list Z * list varg * nat) :=
  if c0 =? 100 then int_conv pr args (fun x => s32 (w32 x)) 10 true 0
  else if (c0 =? 108) && (c1 =? 100) then int_conv pr args s64 10 true 1
  else if (c0 =? 108) && (c1 =? 108) && (c2 =? 100) then int_conv pr args s64 10 true 2
  else if c0 =? 117 then int_conv pr args w32 10 false 0
  else if (c0 =? 108) && (c1 =? 117) then int_conv pr args s64 10 false 1
  else if (c0 =? 108) && (c1 =? 108) && (c2 =? 117) then int_conv pr args s64 10 false 2
  else if c0 =? 120 then int_conv pr args w32 16 false 0
  else if (c0 =? 108) && (c1 =? 120) then int_conv pr args s64 16 false 1
  else if (c0 =? 108) && (c1 =? 108) && (c2 =? 120) then int_conv pr args s64 16 false 2
  else if c0 =? 112 then '(x, args) ← word_arg args; Some (pp (w64 x), args, 0%nat)
  else if c0 =? 99 then '(x, args) ← word_arg args; Some (pc x, args, 0%nat)
  else if c0 =? 115 then
    match args with VStr s :: args => Some (default null_text s, args, 0%nat) | _ => None end
  else if c0 =? 37 then Some ([37], args, 0%nat)
  else Some ([37; c0], args, 0%nat).
End directives.

Lemma chain_percent pr pp pc f l args :
  (forall p, f p = match p with Lit c => Some [c] | Num xx base sign => pr xx base sign | Ptr x => Some (pp x) | Chr x => Some (pc x) | Str s => Some (default null_text s) end) ->
  no_nul l -> l <> [] ->
  (out ← chain pr pp pc (nth 0 l 0) (nth 1 l 0) (nth 2 l 0) args; Some (out.1.1, out.1.2, drop (S out.2) l)) =
  ('(ps, args, l) ← percent l args; out ← render f ps; Some (out, args, l)).
Proof.
  intros Hf Hn Hne. assert (forall p, render f [p] = (out ← f p; Some (out ++ []))) as Hr1 by (intros p; rewrite render_cons; by destruct (f p)).
  assert (forall (g : Z -> piece) h (name : list Z) skip, (forall x, f (g x) = h x) -> length name = S skip ->
    (out ← ('(x, args) ← word_arg args; out ← h x; Some (out, args, skip)); Some (out.1.1, out.1.2, drop (S out.2) l)) =
    ('(ps, args, l) ← ('(p, args) ← convert (CWord g) args; Some ([p], args, drop (length name) l)); out ← render f ps; Some (out, args, l))) as HW.
  { intros g h name skip Hg Hl. cbn [convert]. rewrite Hl. destruct args as [|[x|] args']; cbn [word_arg mbind option_bind]; try done. rewrite Hr1, Hg. destruct (h x); cbn [mbind option_bind fst snd]; [by rewrite app_nil_r|done]. }
  assert (forall h k base sign (name : list Z) skip, (forall x, f (h x) = pr (k x) base sign) -> length name = S skip ->
    (out ← int_conv pr args k base sign skip; Some (out.1.1, out.1.2, drop (S out.2) l)) =
    ('(ps, args, l) ← ('(p, args) ← convert (CWord h) args; Some ([p], args, drop (length name) l)); out ← render f ps; Some (out, args, l))) as HI
    by (intros h k base sign name skip Hh Hl; by apply (HW h (fun x => pr (k x) base sign))).
  assert (forall a, a <> 0 -> forall l, starts [a] l = (nth 0 l 0 =? a)) as S1
    by (intros a Ha [|x l']; cbn [starts nth]; [destruct (Z.eqb_spec 0 a); [by destruct Ha|done]|by rewrite andb_true_r]).
  assert (forall a b, a <> 0 -> b <> 0 -> forall l, starts [a; b] l = (nth 0 l 0 =? a) && (nth 1 l 0 =? b)) as S2
    by (intros a b Ha Hb [|x l']; [cbn [starts nth]; destruct (Z.eqb_spec 0 a); [by destruct Ha|done]|change (starts [a; b] (x :: l')) with ((x =? a) && starts [b] l'); by rewrite S1]).
  destruct l as [|c0 l]; [done|]. unfold chain, percent, conversions. cbn [List.find fst snd].
  change (nth 0 (c0 :: l) 0) with c0. change (nth 1 (c0 :: l) 0) with (nth 0 l 0). change (nth 2 (c0 :: l) 0) with (nth 1 l 0).
  assert (forall a name, starts (a :: name) (c0 :: l) = (c0 =? a) && starts name l) as SC by done. rewrite !SC. rewrite !S2, !S1 by done. cbn [starts].
  generalize (nth 0 l 0), (nth 1 l 0). intros c1 c2. unfold cInt, cLong, cUlong, cUint.
  repeat (match goal with |- context [if ?b && _ then _ else _] => destruct b eqn:? | |- context [if ?b then _ else _] => destruct b eqn:? end; cbn [andb]; try (apply HI; [intros x; apply Hf|reflexivity])).
  all: try exact (HW (fun x => Ptr (w64 x)) (fun x => Some (pp (w64 x))) [112] 0%nat (fun x => Hf (Ptr (w64 x))) eq_refl).
  all: try exact (HW Chr (fun x => Some (pc x)) [99] 0%nat (fun x => Hf (Chr x)) eq_refl).
  all: try (cbn [convert mbind option_bind]; rewrite ?render_cons, !Hf; done).
  all: destruct args as [|[|str] args]; cbn [convert mbind option_bind]; try done; rewrite Hr1, Hf; cbn [mbind option_bind fst snd]; by rewrite app_nil_r.
Qed.

Lemma directive_percent l args : no_nul l -> l <> [] ->
  (out ← directive (nth 0 l 0) (nth 1 l 0) (nth 2 l 0) args; Some (out.1.1, out.1.2, drop (S out.2) l)) =
  ('(ps, args, l) ← percent l args; out ← render kpiece ps; Some (out, args, l)).
Proof. apply (chain_percent printint printptr (fun x => console_bytes (w32 x)) kpiece). by intros []. Qed.
Lemma udirective_percent l args : no_nul l -> l <> [] ->
  (out ← udirective (nth 0 l 0) (nth 1 l 0) (nth 2 l 0) args; Some (out.1.1, out.1.2, drop (S out.2) l)) =
  ('(ps, args, l) ← percent l args; out ← render upiece ps; Some (out, args, l)).
Proof. apply (chain_percent uprintint uprintptr (fun x => [w8 x]) upiece). by intros []. Qed.

Lemma fmt_at_drop fmt i k : fmt_at fmt (i + k) = nth k (drop i fmt) 0.
Proof. unfold fmt_at. rewrite !nth_lookup, lookup_drop. done. Qed.
Lemma percent_nil args : percent [] args = Some ([], args, []).
Proof. done. Qed.

(** The rest of the format at a place. *)
Lemma fmt_cases fmt i : no_nul fmt -> (fmt_at fmt i = 0 /\ drop i fmt = []) \/ (fmt_at fmt i <> 0 /\ drop i fmt = fmt_at fmt i :: drop (S i) fmt).
Proof.
  intros Hn. unfold fmt_at. destruct (fmt !! i) as [c|] eqn:E.
  - right. rewrite nth_lookup, E. cbn. split; [|by apply drop_S]. exact (Forall_lookup_1 _ _ _ _ Hn E).
  - left. apply lookup_ge_None in E. split; [by apply nth_overflow|by apply drop_ge].
Qed.
Lemma no_nul_drop fmt i : no_nul fmt -> no_nul (drop i fmt).
Proof. apply Forall_drop. Qed.

(** A round of either loop at a "%", against [percent]. *)
Lemma percent_step (D : Z -> Z -> Z -> list varg -> option (list Z * list varg * nat)) f (L : nat -> list varg -> option (list Z)) (P : list Z -> list varg -> option (list piece)) fmt i args :
  (forall l args, no_nul l -> l <> [] ->
    (out ← D (nth 0 l 0) (nth 1 l 0) (nth 2 l 0) args; Some (out.1.1, out.1.2, drop (S out.2) l)) = ('(ps, args, l) ← percent l args; out ← render f ps; Some (out, args, l))) ->
  no_nul fmt -> fmt_at fmt i <> 0 ->
  (forall k args, (i < k)%nat -> L k args = P (drop k fmt) args ≫= render f) ->
  ('(out, args, n) ← D (fmt_at fmt i) (fmt_at fmt (i + 1)) (if fmt_at fmt (i + 1) =? 0 then 0 else fmt_at fmt (i + 2)) args; rest ← L (S (i + n)) args; Some (out ++ rest)) =
  (('(ps, args, l) ← percent (drop i fmt) args; rest ← P l args; Some (ps ++ rest)) ≫= render f).
Proof.
  intros HD Hn Hi HL. assert ((if fmt_at fmt (i + 1) =? 0 then 0 else fmt_at fmt (i + 2)) = nth 2 (drop i fmt) 0) as ->.
  { rewrite (fmt_at_drop fmt i 2). destruct (Z.eqb_spec (fmt_at fmt (i + 1)) 0) as [E|]; [|done]. destruct (fmt_cases fmt (i + 1) Hn) as [[_ E2]|[? _]]; [|done].
    symmetry. rewrite nth_lookup, lookup_drop. replace (i + 2)%nat with ((i + 1) + 1)%nat by lia. rewrite <- lookup_drop, E2. done. }
  rewrite (fmt_at_drop fmt i 1). assert (fmt_at fmt i = nth 0 (drop i fmt) 0) as -> by (rewrite <- fmt_at_drop; by rewrite Nat.add_0_r).
  destruct (fmt_cases fmt i Hn) as [[? _]|[_ Ed]]; [done|]. assert (drop i fmt <> []) as Hne by (by rewrite Ed).
  specialize (HD (drop i fmt) args (no_nul_drop fmt i Hn) Hne). destruct (D _ _ _ args) as [[[out a1] n]|] eqn:ED; cbn [mbind option_bind fst snd] in HD |- *.
  - destruct (percent (drop i fmt) args) as [[[ps a2] l]|]; [|done]. cbn [mbind option_bind] in HD |- *. destruct (render f ps) as [out'|] eqn:Er; [|done]. cbn [mbind option_bind] in HD.
    injection HD as -> -> <-. rewrite HL by lia. rewrite drop_drop. replace (i + S n)%nat with (S (i + n)) by lia. destruct (P _ a2) as [ps2|]; [|done]. cbn [mbind option_bind].
    rewrite render_app, Er. done.
  - destruct (percent (drop i fmt) args) as [[[ps a2] l]|]; [|done]. cbn [mbind option_bind] in HD |- *. destruct (render f ps) eqn:Er; [done|].
    destruct (P l a2); [|done]. cbn [mbind option_bind]. by rewrite render_app, Er.
Qed.

Lemma printf_pieces fmt : no_nul fmt -> forall n i f1 f2 args, (length fmt - i <= n)%nat -> (length fmt - i < f1)%nat -> (length fmt - i < f2)%nat ->
  printf_loop f1 fmt i args = pieces f2 (drop i fmt) args ≫= render kpiece.
Proof.
  intros Hn. induction n as [|n IH]; intros i f1 f2 args Hl H1 H2; (destruct f1 as [|f1]; [lia|]); (destruct f2 as [|f2]; [lia|]); cbn [printf_loop].
  all: destruct (fmt_cases fmt i Hn) as [[E Ed]|[N Ed]]; [rewrite E, Ed; done|]; pose proof (fmt_at_lt _ _ N).
  1: lia.
  rewrite (proj2 (Z.eqb_neq _ _) N), Ed. cbn [pieces]. destruct (fmt_at fmt i =? 37) eqn:Ep; cbn [negb].
  - destruct (Z.eqb_spec (fmt_at fmt (S i)) 0) as [E0|N0].
    { destruct (fmt_cases fmt (S i) Hn) as [[_ Ed2]|[? _]]; [|done]. rewrite Ed2, percent_nil. cbn [mbind option_bind]. by destruct f2; [lia|]. }
    rewrite <- (percent_step directive kpiece (printf_loop f1 fmt) (pieces f2) fmt (S i) args directive_percent Hn N0); [done|].
    intros k a Hk. apply IH; lia.
  - rewrite (IH (S i) f1 f2) by lia. destruct (pieces f2 _ args) as [ps|]; [|done]. cbn [fmap option_fmap option_map mbind option_bind]. rewrite render_cons. cbn [kpiece mbind option_bind app]. by destruct (render kpiece ps).
Qed.

Lemma vprintf_pieces fmt : no_nul fmt -> forall n i f1 f2 args, (length fmt - i <= n)%nat -> (length fmt - i < f1)%nat -> (length fmt - i < f2)%nat ->
  vprintf_loop f1 fmt i false args = pieces f2 (drop i fmt) args ≫= render upiece.
Proof.
  intros Hn. induction n as [|n IH]; intros i f1 f2 args Hl H1 H2; (destruct f1 as [|f1]; [lia|]); (destruct f2 as [|f2]; [lia|]); cbn [vprintf_loop].
  all: destruct (fmt_cases fmt i Hn) as [[E Ed]|[N Ed]]; [rewrite E, Ed; done|]; pose proof (fmt_at_lt _ _ N).
  1: lia.
  rewrite (proj2 (Z.eqb_neq _ _) N), Ed. cbn [pieces negb]. destruct (fmt_at fmt i =? 37) eqn:Ep; cbn [negb].
  - destruct f1 as [|f1]; [lia|]. cbn [vprintf_loop negb]. destruct (Z.eqb_spec (fmt_at fmt (S i)) 0) as [E0|N0].
    { destruct (fmt_cases fmt (S i) Hn) as [[_ Ed2]|[? _]]; [|done]. rewrite Ed2, percent_nil. cbn [mbind option_bind]. by destruct f2; [lia|]. }
    rewrite <- (percent_step udirective upiece (fun k => vprintf_loop f1 fmt k false) (pieces f2) fmt (S i) args udirective_percent Hn N0); [done|].
    pose proof (fmt_at_lt _ _ N0). intros k a Hk. apply IH; lia.
  - rewrite (IH (S i) f1 f2) by lia. destruct (pieces f2 _ args) as [ps|]; [|done]. cbn [fmap option_fmap option_map mbind option_bind]. rewrite render_cons. cbn [upiece mbind option_bind app]. by destruct (render upiece ps).
Qed.

(** Pieces that both print alike: no hexadecimal digits, and no %c of 0x100. *)
Definition alike (p : piece) : Prop :=
  match p with Num _ base _ => base = 10 | Ptr _ => False | Chr x => w32 x <> 0x100 | Lit _ | Str _ => True end.
Lemma digits_alike fuel : forall x, 0 <= x -> digits_loop kdigits fuel 10 x = digits_loop udigits fuel 10 x.
Proof.
  assert (forall d, 0 <= d < 10 -> nth (Z.to_nat d) kdigits 0 = nth (Z.to_nat d) udigits 0) as Hd.
  { intros d Hd. assert (d ∈ [0; 1; 2; 3; 4; 5; 6; 7; 8; 9]) as H by (apply (elem_of_seqZ 0 10); lia).
    repeat (apply elem_of_cons in H as [->|H]; [done|]). by apply elem_of_nil in H. }
  induction fuel as [|fuel IH]; intros x Hx; cbn [digits_loop]; [done|]. rewrite Hd by (apply Z.mod_pos_bound; lia). destruct (x / 10 =? 0); [done|].
  rewrite IH; [done|]. by apply Z.div_pos.
Qed.
Lemma pieces_alike p : alike p -> kpiece p = upiece p.
Proof.
  destruct p as [c|xx base sign|x|x|str]; cbn [alike kpiece upiece].
  - reflexivity.
  - intros ->. unfold printint, uprintint. rewrite printint_buf_eq. unfold number_buf, uprintint_buf. rewrite digits_alike; [reflexivity|]. apply w64_range.
  - intros [].
  - intros N. unfold console_bytes. destruct (Z.eqb_spec (w32 x) 0x100); [done|]. do 2 f_equal. unfold w8, w32. apply Z.mod_mod_divide. by exists (2 ^ 24).
  - reflexivity.
Qed.


