(* ===== verification/Umalloc.v ===== *)
(** * The user-level allocator (user/umalloc.c)

    Kernighan and Ritchie's allocator: the free blocks are a circular list in
    the order of their addresses, through headers in front of the blocks; the
    list starts at a header [base] that is not part of the heap.  Headers are
    16 bytes, pointers are byte addresses, sizes are in headers.  The memory
    of the allocator is the two fields of the header at each address. *)
From S2P Require Import Prelude Mem Riscv Kalloc.
From stdpp Require Import base tactics numbers list strings.
From Stdlib Require Import ZArith Lia.
From S2P Require Import Spinlock.

Open Scope Z_scope.

(** s.ptr and s.size of the header at an address, freep, and the end of the
    heap, which is the size of the process. *)
Record uheap := UHeap { uh_ptr : Z -> Z; uh_size : Z -> Z; uh_freep : Z; uh_brk : Z }.
Definition set_uptr a x s := UHeap (fupd a x (uh_ptr s)) (uh_size s) (uh_freep s) (uh_brk s).
Definition set_usize a x s := UHeap (uh_ptr s) (fupd a x (uh_size s)) (uh_freep s) (uh_brk s).
Definition set_ufreep x s := UHeap (uh_ptr s) (uh_size s) x (uh_brk s).
Definition set_ubrk x s := UHeap (uh_ptr s) (uh_size s) (uh_freep s) x.

Definition HSIZE : Z := 16.
Definition SBRK_ERROR : Z := 2 ^ 64 - 1.

Definition uptr (a : Z) : M uheap Z := gets (fun s => uh_ptr s a).
Definition usize (a : Z) : M uheap Z := gets (fun s => uh_size s a).

(** sbrk, as sys_sbrk treats the size of the process *)
Definition usbrk (n : Z) : M uheap Z :=
  old ← gets uh_brk;
  if 0 <? n then
    if TRAPFRAME <? old + n then mret SBRK_ERROR
    else modify (set_ubrk (old + n));; mret old
  else if n <? 0 then
    (if w64 (old + n) <? old then modify (set_ubrk (w64 (old + n))) else skip);; mret old
  else mret old.

Section umalloc.
(** The address of the static header base. *)
Context (base : Z).

(** Every header but [base] is in the heap. *)
Definition headers (s : uheap) : nat := Z.to_nat ((uh_brk s - base) / HSIZE).

(** The loop of free: where the block at [bp] belongs. *)
Fixpoint free_search (fuel : nat) (bp p : Z) : M uheap Z :=
  q ← uptr p;
  if (p <? bp) && (bp <? q) then mret p
  else if (q <=? p) && ((p <? bp) || (bp <? q)) then mret p
  else match fuel with O => nofuel | S fuel => free_search fuel bp q end.

Definition free (ap : Z) : M uheap unit :=
  let bp := ap - HSIZE in
  fuel ← gets headers;
  p ← gets uh_freep;
  p ← free_search fuel bp p;
  n ← usize bp;
  q ← uptr p;
  (if bp + HSIZE * n =? q then
     m ← usize q;
     modify (set_usize bp (w32 (n + m)));;
     r ← uptr q;
     modify (set_uptr bp r)
   else modify (set_uptr bp q));;
  m ← usize p;
  (if p + HSIZE * m =? bp then
     n ← usize bp;
     modify (set_usize p (w32 (m + n)));;
     r ← uptr bp;
     modify (set_uptr p r)
   else modify (set_uptr p bp));;
  modify (set_ufreep p).

Definition morecore (nu : Z) : M uheap Z :=
  let nu := if nu <? 4096 then 4096 else nu in
  p ← usbrk (s32 (nu * HSIZE));
  if p =? SBRK_ERROR then mret 0
  else
    modify (set_usize p nu);;
    free (p + HSIZE);;
    gets uh_freep.

(** What malloc does with a block [p] of [m] headers that is large enough. *)
Definition take_block (nunits m prevp p : Z) : M uheap Z :=
  if m =? nunits then
    r ← uptr p;
    modify (set_uptr prevp r);;
    modify (set_ufreep prevp);;
    mret (p + HSIZE)
  else
    modify (set_usize p (m - nunits));;
    let p := p + HSIZE * (m - nunits) in
    modify (set_usize p nunits);;
    modify (set_ufreep prevp);;
    mret (p + HSIZE).

(** The loop of malloc, at [p] with its predecessor [prevp]. *)
Fixpoint malloc_loop (fuel : nat) (nunits prevp p : Z) : M uheap Z :=
  m ← usize p;
  if nunits <=? m then take_block nunits m prevp p
  else
    f ← gets uh_freep;
    if p =? f then
      p ← morecore nunits;
      if p =? 0 then mret 0
      else match fuel with O => nofuel | S fuel => q ← uptr p; malloc_loop fuel nunits p q end
    else match fuel with O => nofuel | S fuel => q ← uptr p; malloc_loop fuel nunits p q end.

Definition malloc (nbytes : Z) : M uheap Z :=
  let nunits := w32 ((nbytes + HSIZE - 1) / HSIZE + 1) in
  f ← gets uh_freep;
  (if f =? 0 then
     modify (set_ufreep base);;
     modify (set_uptr base base);;
     modify (set_usize base 0)
   else skip);;
  prevp ← gets uh_freep;
  p ← uptr prevp;
  fuel ← gets (fun s => (2 * headers s + 4)%nat);
  malloc_loop fuel nunits prevp p.
End umalloc.
