(* ===== verification/UmallocSpec.v ===== *)
(** * The user-level allocator's invariant

    The heap from [lo] to the break is tiled by blocks, each in use or free;
    the free ones, in order, with [base] in front, form the circular list. *)
From S2P Require Import Prelude Mem Riscv Kalloc.
From stdpp Require Import base tactics numbers list strings sets sorting.
From Stdlib Require Import ZArith Lia.
From S2P Require Import Spinlock Umalloc.

Open Scope Z_scope.

(** ** Tiles *)

(** The size of a block in headers, and whether it is in use. *)
Definition tile : Type := Z * bool.
Fixpoint span (T : list tile) : Z := match T with [] => 0 | (n, _) :: T => HSIZE * n + span T end.
Fixpoint frees (a : Z) (T : list tile) : list Z :=
  match T with [] => [] | (n, u) :: T => (if u : bool then [] else [a]) ++ frees (a + HSIZE * n) T end.
Fixpoint used (a : Z) (T : list tile) : list (Z * Z) :=
  match T with [] => [] | (n, u) :: T => (if u : bool then [(a, n)] else []) ++ used (a + HSIZE * n) T end.
Definition positive (T : list tile) : Prop := Forall (fun t => 1 <= t.1) T.
(** The headers have the sizes of the tiles. *)
Fixpoint sized (f : Z -> Z) (a : Z) (T : list tile) : Prop :=
  match T with [] => True | (n, _) :: T => f a = n /\ sized f (a + HSIZE * n) T end.

Lemma tspan_app T1 T2 : span (T1 ++ T2) = span T1 + span T2.
Proof. induction T1 as [|[n u] T1 IH]; cbn; [lia|]. rewrite IH. lia. Qed.
Lemma span_nonneg T : positive T -> 0 <= span T.
Proof. induction 1 as [|[n u] T Hn _ IH]; cbn in *; unfold HSIZE; lia. Qed.
Lemma frees_app a T1 T2 : frees a (T1 ++ T2) = frees a T1 ++ frees (a + span T1) T2.
Proof.
  revert a. induction T1 as [|[n u] T1 IH]; intros a; cbn; [by rewrite Z.add_0_r|]. rewrite IH, app_assoc. f_equal. f_equal. lia.
Qed.
Lemma used_app a T1 T2 : used a (T1 ++ T2) = used a T1 ++ used (a + span T1) T2.
Proof.
  revert a. induction T1 as [|[n u] T1 IH]; intros a; cbn; [by rewrite Z.add_0_r|]. rewrite IH, app_assoc. f_equal. f_equal. lia.
Qed.
Lemma sized_app f a T1 T2 : sized f a (T1 ++ T2) <-> sized f a T1 /\ sized f (a + span T1) T2.
Proof.
  revert a. induction T1 as [|[n u] T1 IH]; intros a; cbn; [rewrite Z.add_0_r; tauto|]. rewrite IH.
  replace (a + HSIZE * n + span T1) with (a + (HSIZE * n + span T1)) by lia. tauto.
Qed.
Lemma sized_ext f g a T : positive T -> (forall x, a <= x < a + span T -> g x = f x) -> sized f a T -> sized g a T.
Proof.
  intros HP. revert a. induction HP as [|[n u] T Hn HP IH]; intros a He; cbn in *; [done|]. pose proof (span_nonneg T HP). unfold HSIZE in *.
  intros [H1 H2]. split; [rewrite He by lia; done|]. apply IH; [|done]. intros x Hx. apply He. lia.
Qed.
Lemma positive_app T1 T2 : positive (T1 ++ T2) <-> positive T1 /\ positive T2.
Proof. apply Forall_app. Qed.

(** Free blocks are inside, one after the other. *)
Lemma frees_range f a T x : positive T -> sized f a T -> x ∈ frees a T -> a <= x /\ 1 <= f x /\ x + HSIZE * f x <= a + span T.
Proof.
  intros HP. revert a. induction HP as [|[n u] T Hn HP IH]; intros a Hs Hx; cbn in *; [set_solver|].
  destruct Hs as [H1 H2]. pose proof (span_nonneg T HP). unfold HSIZE in *. apply elem_of_app in Hx as [Hx|Hx].
  - destruct u; [set_solver|]. apply list_elem_of_singleton in Hx as ->. rewrite H1. lia.
  - destruct (IH _ H2 Hx). lia.
Qed.
Lemma used_range a T b n : positive T -> (b, n) ∈ used a T -> a <= b /\ 1 <= n /\ b + HSIZE * n <= a + span T.
Proof.
  intros HP. revert a. induction HP as [|[m u] T Hn HP IH]; intros a Hx; cbn in *; [set_solver|].
  pose proof (span_nonneg T HP). unfold HSIZE in *. apply elem_of_app in Hx as [Hx|Hx].
  - destruct u; [|set_solver]. apply list_elem_of_singleton in Hx as [= -> ->]. lia.
  - destruct (IH _ Hx). lia.
Qed.
Lemma used_split a T b n : (b, n) ∈ used a T -> exists T1 T2, T = T1 ++ (n, true) :: T2 /\ b = a + span T1.
Proof.
  revert a. induction T as [|[m u] T IH]; intros a Hx; cbn in *; [set_solver|]. apply elem_of_app in Hx as [Hx|Hx].
  - destruct u; [|set_solver]. apply list_elem_of_singleton in Hx as [= -> ->]. exists [], T. split; [done|]. cbn. lia.
  - destruct (IH _ Hx) as (T1 & T2 & -> & ->). exists ((m, u) :: T1), T2. split; [done|]. cbn. lia.
Qed.
Lemma frees_split f a T x : positive T -> sized f a T -> x ∈ frees a T -> exists T1 T2, T = T1 ++ (f x, false) :: T2 /\ x = a + span T1.
Proof.
  intros HP. revert a. induction HP as [|[m u] T Hm HP IH]; intros a Hs Hx; cbn in *; [set_solver|]. destruct Hs as [H1 H2].
  apply elem_of_app in Hx as [Hx|Hx].
  - destruct u; [set_solver|]. apply list_elem_of_singleton in Hx as ->. exists [], T. split; [by rewrite H1|]. cbn. lia.
  - destruct (IH _ H2 Hx) as (T1 & T2 & -> & E). exists ((m, u) :: T1), T2. split; [done|]. cbn. lia.
Qed.

(** ** The circular list *)

Fixpoint path (f : Z -> Z) (l : list Z) : Prop :=
  match l with x :: (y :: _) as l' => f x = y /\ path f l' | _ => True end.

Lemma path_app f l1 x l2 : path f (l1 ++ x :: l2) <-> path f (l1 ++ [x]) /\ path f (x :: l2).
Proof.
  induction l1 as [|y l1 IH]; [cbn; tauto|]. destruct l1 as [|z l1]; [cbn; tauto|].
  change (path f ((y :: z :: l1) ++ x :: l2)) with (f y = z /\ path f ((z :: l1) ++ x :: l2)).
  change (path f ((y :: z :: l1) ++ [x])) with (f y = z /\ path f ((z :: l1) ++ [x])). rewrite IH. tauto.
Qed.
Lemma path_ext f g l y : (forall x, x ∈ l -> g x = f x) -> path f (l ++ [y]) -> path g (l ++ [y]).
Proof.
  induction l as [|x l IH]; intros He; [done|]. destruct l as [|z l]; cbn.
  - intros [H _]. split; [|done]. rewrite He by set_solver. done.
  - intros [H H']. split; [rewrite He by set_solver; done|]. apply IH; [|done]. intros w Hw. apply He. set_solver.
Qed.
Lemma path_next f l1 x l2 y : path f ((l1 ++ x :: l2) ++ [y]) -> f x = default y (head l2).
Proof. rewrite <- app_assoc. cbn. intros H. apply path_app in H as [_ H]. by destruct l2; destruct H. Qed.
(** The same circle from another of its elements. *)
Lemma path_rotate f b A x B : path f ((b :: A ++ x :: B) ++ [b]) -> path f ((x :: B ++ b :: A) ++ [x]).
Proof.
  replace ((b :: A ++ x :: B) ++ [b]) with ((b :: A) ++ x :: (B ++ [b])) by (cbn; by rewrite <- app_assoc).
  replace ((x :: B ++ b :: A) ++ [x]) with ((x :: B) ++ b :: (A ++ [x])) by (cbn; by rewrite <- app_assoc).
  intros H. apply path_app in H as [H1 H2]. apply path_app. done.
Qed.

(** ** The invariant *)

Section inv.
Context (base lo : Z).

Definition ring (T : list tile) : list Z := base :: frees lo T.

Lemma ring_app T1 T2 : ring (T1 ++ T2) = ring T1 ++ frees (lo + span T1) T2.
Proof. unfold ring. by rewrite frees_app. Qed.

Record heap_ok (s : uheap) (T : list tile) : Prop := {
  ho_base : 0 < base /\ base + HSIZE <= lo /\ uh_size s base = 0;
  ho_pos : positive T;
  ho_sized : sized (uh_size s) lo T;
  ho_path : path (uh_ptr s) (ring T ++ [base]);
  ho_freep : uh_freep s ∈ ring T;
  ho_brk : uh_brk s = lo + span T;
  ho_max : span T < 2 ^ 36
}.

Lemma ring_range s T x : heap_ok s T -> x ∈ ring T -> x = base \/ lo <= x /\ 1 <= uh_size s x /\ x + HSIZE * uh_size s x <= lo + span T.
Proof. intros H [->|Hx]%elem_of_cons; [by left|]. right. eapply frees_range; [apply H|apply H|done]. Qed.

(** The free blocks are as many as fit. *)
Lemma frees_length T : positive T -> HSIZE * Z.of_nat (length (frees lo T)) <= span T.
Proof.
  generalize lo. intros a HP. revert a. induction HP as [|[n u] T Hn HP IH]; intros a; cbn [frees span length]; [unfold HSIZE; lia|].
  rewrite length_app. specialize (IH (a + HSIZE * n)). unfold HSIZE in *. destruct u; cbn in *; lia.
Qed.
Lemma fring_length s T : heap_ok s T -> (length (ring T) <= headers base s)%nat.
Proof.
  intros H. pose proof (frees_length T (ho_pos _ _ H)) as Hl. destruct (ho_base _ _ H) as (_ & Hb & _). unfold headers, ring. cbn [length].
  rewrite (ho_brk _ _ H). unfold HSIZE in *. apply Nat2Z.inj_le. rewrite Z2Nat.id by (apply Z.div_pos; lia).
  apply Z.div_le_lower_bound; lia.
Qed.

(** Blocks in use and free blocks do not overlap. *)
Lemma used_free f a T b n x : positive T -> sized f a T -> (b, n) ∈ used a T -> x ∈ frees a T -> b + HSIZE * n <= x \/ x + HSIZE * f x <= b.
Proof.
  intros HP. revert a. induction HP as [|[m u] T Hm HP IH]; intros a Hs Hb Hx; cbn in *; [set_solver|]. destruct Hs as [H1 H2].
  destruct u; cbn in Hb, Hx.
  - apply elem_of_cons in Hb as [[= -> ->]|Hb]; [left|by apply (IH (a + HSIZE * m))]. destruct (frees_range f _ T x HP H2 Hx). lia.
  - apply elem_of_cons in Hx as [->|Hx]; [right|by apply (IH (a + HSIZE * m))]. destruct (used_range _ T b n HP Hb). lia.
Qed.
Lemma used_ring s T b n x : heap_ok s T -> (b, n) ∈ used lo T -> x ∈ ring T -> b + HSIZE * n <= x \/ x + HSIZE * uh_size s x <= b.
Proof.
  intros H Hb [->|Hx]%elem_of_cons; [right|by apply (used_free _ lo T); [apply H|apply H|..]]. destruct (ho_base _ _ H) as (_ & B1 & ->).
  destruct (used_range lo T b n (ho_pos _ _ H) Hb). unfold HSIZE in *. lia.
Qed.

(** Nothing is written into the blocks [U]. *)
Definition untouched (U : list (Z * Z)) (s s' : uheap) : Prop :=
  forall a n x, (a, n) ∈ U -> a <= x < a + HSIZE * n -> uh_ptr s' x = uh_ptr s x /\ uh_size s' x = uh_size s x.
Lemma untouched_trans U s1 s2 s3 : untouched U s1 s2 -> untouched U s2 s3 -> untouched U s1 s3.
Proof. intros H1 H2 a n x Ha Hx. destruct (H1 a n x Ha Hx), (H2 a n x Ha Hx). split; congruence. Qed.

(** ** free: finding the place *)

Definition stops (f : Z -> Z) (bp p : Z) : bool := ((p <? bp) && (bp <? f p)) || ((f p <=? p) && ((p <? bp) || (bp <? f p))).

Lemma free_search_walk bp p s : forall l y fuel, path (uh_ptr s) (l ++ [y]) -> p ∈ l -> (length l <= S fuel)%nat ->
  (forall x, x ∈ l -> stops (uh_ptr s) bp x = true <-> x = p) ->
  wp (free_search fuel bp (default y (head l))) (fun r s' => r = p /\ s' = s) s.
Proof.
  induction l as [|x l IH]; intros y fuel Hp Hin Hl Hs; [set_solver|]. cbn [head default from_option id].
  assert (stops (uh_ptr s) bp x = true \/ stops (uh_ptr s) bp x = false) as [E|E] by (destruct (stops _ _ _); auto).
  - assert (x = p) as -> by (by apply Hs; [left|]). destruct fuel; cbn [free_search]; unfold uptr; wp_steps; unfold stops in E;
      (destruct ((p <? bp) && (bp <? uh_ptr s p)); [by apply wp_ret|]; cbn [orb] in E; rewrite E; by apply wp_ret).
  - assert (x <> p) as N by (intros Hx; apply (Hs x) in Hx; [congruence|left]). apply elem_of_cons in Hin as [Hx|Hin]; [done|].
    destruct fuel as [|fuel]; [destruct l; [set_solver|cbn in Hl; lia]|]. cbn [free_search]. unfold uptr. wp_steps.
    unfold stops in E. apply orb_false_iff in E as [E1 E2]. rewrite E1, E2.
    assert (uh_ptr s x = default y (head l)) as -> by (apply (path_next _ [] x l y Hp)).
    apply IH; [|done|cbn in Hl; lia|intros z Hz; apply Hs; by right]. destruct l; [done|]. apply Hp.
Qed.

(** What order says about a position in the list. *)
Lemma sorted_around (A : list Z) x B : StronglySorted Z.lt (A ++ x :: B) -> (forall a, a ∈ A -> a < x) /\ (forall b, b ∈ B -> x < b) /\ StronglySorted Z.lt B.
Proof.
  intros H. apply StronglySorted_app in H as (H1 & _ & H2). apply StronglySorted_inv in H2 as [H2 H3]. split_and!; [|by apply Forall_forall|done].
  intros a Ha. apply H1; [done|by left].
Qed.

(** The place of [bp] is the last free block below it. *)
Lemma stops_at f F1 p F2 bp : path f ((F1 ++ p :: F2) ++ [base]) -> (forall x, x ∈ F1 ++ p :: F2 -> base <= x) -> base < bp ->
  StronglySorted Z.lt (F1 ++ p :: F2) -> p < bp -> (forall x, x ∈ F2 -> bp < x) -> forall x, x ∈ F1 ++ p :: F2 -> stops f bp x = true <-> x = p.
Proof.
  intros Hp Hb Hbp Hs Hlt Hgt x Hx. pose proof Hx as Hx'. apply list_elem_of_split in Hx' as (A & B & E). pose proof Hp as Hn. rewrite E in Hn.
  apply path_next in Hn. destruct (sorted_around _ _ _ Hs) as (S1 & S2 & _). pose proof Hs as Hs'. rewrite E in Hs'. destruct (sorted_around _ _ _ Hs') as (R1 & R2 & R3).
  assert (forall y, y ∈ B -> y ∈ F1 ++ p :: F2) as HB by (intros y Hy; rewrite E; set_solver).
  unfold stops. rewrite Hn. clear Hn. apply elem_of_app in Hx as [Hx|[->|Hx]%elem_of_cons].
  - assert (p ∈ B) as HpB. { assert (p ∈ A ++ x :: B) as Hq by (rewrite <- E; set_solver). specialize (S1 x Hx). apply elem_of_app in Hq as [Hq|[Hq|Hq]%elem_of_cons]; [|lia|done]. specialize (R1 p Hq). lia. }
    specialize (S1 x Hx). destruct B as [|y B]; [set_solver|]. cbn [default from_option head id].
    assert (x < y /\ y <= p) as [H1 H2]. { split; [apply R2; left|]. apply elem_of_cons in HpB as [->|HpB]; [lia|]. apply StronglySorted_inv in R3 as [_ R3]. rewrite Forall_forall in R3. specialize (R3 p HpB). lia. }
    split; [|lia]. intros Ht. exfalso. revert Ht. destruct (Z.ltb_spec bp y), (Z.leb_spec y x); try lia.
  - split; [done|]. intros _. destruct B as [|y B]; cbn [default from_option head id].
    + assert (base <= p) by (apply Hb; set_solver). destruct (Z.leb_spec base p), (Z.ltb_spec p bp); try lia.
    + assert (bp < y) as Hy. { assert (y ∈ F1 ++ p :: F2) as Hy by (apply HB; left). specialize (R2 y ltac:(left)). apply elem_of_app in Hy as [Hy|[Hy|Hy]%elem_of_cons]; [specialize (S1 y Hy); lia|lia|by apply Hgt]. }
      destruct (Z.ltb_spec p bp), (Z.ltb_spec bp y); try lia.
  - specialize (Hgt x Hx). split; [|intros ->; lia]. intros Ht. exfalso. revert Ht. destruct (Z.ltb_spec x bp); [lia|]. cbn [andb orb].
    destruct B as [|y B]; cbn [default from_option head id].
    + destruct (Z.ltb_spec bp base); [lia|]. by rewrite andb_false_r.
    + specialize (R2 y ltac:(left)). destruct (Z.leb_spec y x); [lia|]. done.
Qed.

Lemma frees_sorted f a T : positive T -> sized f a T -> StronglySorted Z.lt (frees a T).
Proof.
  intros HP. revert a. induction HP as [|[n u] T Hn HP IH]; intros a Hs; cbn in *; [constructor|]. destruct Hs as [H1 H2].
  destruct u; [by apply IH|]. cbn. constructor; [by apply IH|]. apply Forall_forall. intros x Hx. destruct (frees_range f _ T x HP H2 Hx).
  unfold HSIZE in *. lia.
Qed.
Lemma ring_sorted s T : heap_ok s T -> StronglySorted Z.lt (ring T).
Proof.
  intros H. constructor; [eapply frees_sorted; apply H|]. apply Forall_forall. intros x Hx. destruct (ho_base _ _ H) as (_ & Hb & _).
  destruct (frees_range _ _ T x (ho_pos _ _ H) (ho_sized _ _ H) Hx). unfold HSIZE in *. lia.
Qed.

(** The circle from freep. *)
Lemma ring_from_freep s T : heap_ok s T -> exists r, path (uh_ptr s) ((uh_freep s :: r) ++ [uh_freep s]) /\ uh_freep s :: r ≡ₚ ring T.
Proof.
  intros H. pose proof (ho_path _ _ H) as Hp. pose proof (ho_freep _ _ H) as Hf. unfold ring in *. apply elem_of_cons in Hf as [Hf|Hf].
  - rewrite Hf. eauto.
  - apply list_elem_of_split in Hf as (A & B & EA). rewrite EA in Hp |- *. exists (B ++ base :: A). split; [by apply path_rotate|].
    rewrite (Permutation_app_comm A). cbn. rewrite (Permutation_app_comm B). cbn. by rewrite perm_swap, (Permutation_app_comm A).
Qed.

(** A block in use, with what is before and after it in the list. *)
Lemma free_search_ok s T1 n T2 :
  heap_ok s (T1 ++ (n, true) :: T2) -> exists F1 p, ring T1 = F1 ++ [p] /\
  wp (free_search (headers base s) (lo + span T1) (uh_freep s)) (fun r s' => r = p /\ s' = s) s.
Proof.
  intros H. set (bp := lo + span T1). set (F2 := frees (bp + HSIZE * n) T2).
  assert (ring (T1 ++ (n, true) :: T2) = ring T1 ++ F2) as ER by (unfold ring; rewrite frees_app; done).
  destruct (exists_last (l := ring T1)) as (F1 & p & E1); [done|]. exists F1, p. split; [done|].
  rewrite E1, <- app_assoc in ER. cbn in ER. pose proof (ring_sorted _ _ H) as Hs. rewrite ER in Hs.
  pose proof (ho_path _ _ H) as Hp. rewrite ER in Hp. pose proof (ho_pos _ _ H) as HP. apply positive_app in HP as [P1 P2]. apply Forall_cons in P2 as [Pn P2].
  pose proof (ho_sized _ _ H) as HS. apply sized_app in HS as [S1 [Sn S2]]. fold bp in Sn, S2. destruct (ho_base _ _ H) as (B0 & B1 & B2).
  pose proof (span_nonneg T1 P1). cbn in Pn.
  assert (p < bp) as Hpb.
  { assert (p ∈ ring T1) as Hin by (rewrite E1; set_solver). apply elem_of_cons in Hin as [->|Hin]; [unfold bp, HSIZE in *; lia|].
    destruct (frees_range _ _ T1 p P1 S1 Hin) as (? & ? & ?). unfold bp, HSIZE in *. lia. }
  assert (forall x, x ∈ F2 -> bp < x) as Hgt.
  { intros x Hx. destruct (frees_range _ _ T2 x P2 S2 Hx). unfold HSIZE in *. lia. }
  assert (forall x, x ∈ F1 ++ p :: F2 -> stops (uh_ptr s) bp x = true <-> x = p) as Hst.
  { apply stops_at; try done; [|unfold bp, HSIZE in *; lia]. intros x Hx. rewrite <- ER in Hx. destruct (ring_range s _ x H Hx) as [->|[? _]]; unfold HSIZE in *; lia. }
  pose proof (ho_freep _ _ H) as Hf. pose proof (fring_length _ _ H) as Hlen.
  destruct (ring_from_freep s _ H) as (r & L1 & L3). set (l := uh_freep s :: r) in *.
  assert (head l = Some (uh_freep s)) as L2 by done. clearbody l.
  replace (uh_freep s) with (default (uh_freep s) (head l)) by (by rewrite L2).
  apply (free_search_walk bp p s l (uh_freep s)); [done|rewrite L3, ER; set_solver|rewrite L3; lia|].
  intros x Hx. apply Hst. rewrite <- ER, <- L3. done.
Qed.

(** ** free: merging with the neighbours *)

(** The block after the one at [a] starts with the next free block, or not. *)
Lemma adjacent_right f a T : positive T -> sized f a T -> base < a ->
  (exists m T', T = (m, false) :: T') \/ default base (head (frees a T)) <> a.
Proof.
  intros HP HS Hb. destruct T as [|[m u] T]; [right; cbn; lia|]. apply Forall_cons in HP as [Hm HP]. destruct HS as [_ HS]. cbn in Hm.
  destruct u; [|eauto]. right. cbn. destruct (frees (a + HSIZE * m) T) as [|x l] eqn:E; cbn; [lia|].
  destruct (frees_range f _ T x HP HS) as [? _]; [rewrite E; left|]. unfold HSIZE in *. lia.
Qed.

Lemma adjacent_left f T F p : positive T -> sized f lo T -> f base = 0 -> base + HSIZE <= lo -> ring T = F ++ [p] ->
  (exists m T', T = T' ++ [(m, false)] /\ p = lo + span T' /\ f p = m /\ F = ring T') \/ p + HSIZE * f p <> lo + span T.
Proof.
  intros HP HS H0 Hb E. destruct (decide (T = [])) as [->|Hn].
  { right. assert (p = base) as -> by (unfold ring in E; cbn in E; destruct F as [|? []]; by injection E). cbn. unfold HSIZE in *. rewrite H0. lia. }
  destruct (exists_last Hn) as (T' & [m u] & ->). apply positive_app in HP as [HP Hm]. apply Forall_cons in Hm as [Hm _]. cbn in Hm.
  apply sized_app in HS as [HS [Hf _]]. unfold ring in E. rewrite frees_app in E. rewrite tspan_app. cbn in E |- *. destruct u; cbn in E.
  - right. rewrite app_nil_r in E. assert (p ∈ base :: frees lo T') as Hin by (rewrite E; set_solver). pose proof (span_nonneg T' HP).
    apply elem_of_cons in Hin as [->|Hin]; [rewrite H0; unfold HSIZE in *; lia|]. destruct (frees_range f lo T' p HP HS Hin) as (_ & _ & ?).
    unfold HSIZE in *. lia.
  - left. change (base :: frees lo T' ++ [lo + span T']) with (ring T' ++ [lo + span T']) in E. apply app_inj_tail in E as [<- <-]. exists m, T'. done.
Qed.

(** The state after the first half of the merging: the block at [bp] is free,
    [n'] long, and linked to what follows. *)
Record merged_right (s s1 : uheap) (bp n : Z) (T2 : list tile) (n' : Z) (T2' : list tile) : Prop := {
  mr_pos : 1 <= n' /\ n <= n' /\ positive T2' /\ (length (frees (bp + HSIZE * n') T2') <= length (frees (bp + HSIZE * n) T2))%nat;
  mr_span : HSIZE * n' + span T2' = HSIZE * n + span T2;
  mr_used : used (bp + HSIZE * n') T2' = used (bp + HSIZE * n) T2;
  mr_size : uh_size s1 bp = n';
  mr_sized : sized (uh_size s1) (bp + HSIZE * n') T2';
  mr_path : path (uh_ptr s1) ((bp :: frees (bp + HSIZE * n') T2') ++ [base]);
  mr_other : forall x, x <> bp -> uh_ptr s1 x = uh_ptr s x /\ uh_size s1 x = uh_size s x;
  mr_same : uh_freep s1 = uh_freep s /\ uh_brk s1 = uh_brk s
}.

Lemma merge_right_ok s bp p n T2 :
  positive ((n, true) :: T2) -> sized (uh_size s) bp ((n, true) :: T2) -> base < bp -> bp <> p -> span ((n, true) :: T2) < 2 ^ 36 ->
  path (uh_ptr s) ((p :: frees (bp + HSIZE * n) T2) ++ [base]) ->
  wp (q ← uptr p;
      if bp + HSIZE * n =? q then
        m ← usize q; modify (set_usize bp (w32 (n + m)));; r ← uptr q; modify (set_uptr bp r)
      else modify (set_uptr bp q))
    (fun _ s1 => exists n' T2', merged_right s s1 bp n T2 n' T2') s.
Proof.
  intros HP [Hn HS] Hb Np Hmax Hp. apply Forall_cons in HP as [Pn HP]. cbn in Pn, Hmax. pose proof (span_nonneg T2 HP).
  assert (uh_ptr s p = default base (head (frees (bp + HSIZE * n) T2))) as En by (apply (path_next _ [] p _ base Hp)).
  assert (forall x, x ∈ frees (bp + HSIZE * n) T2 -> bp < x) as Hgt.
  { intros x Hx. destruct (frees_range _ _ T2 x HP HS Hx). unfold HSIZE in *. lia. }
  unfold uptr, usize. wp_steps. rewrite En.
  destruct (adjacent_right (uh_size s) (bp + HSIZE * n) T2 HP HS) as [(m & T2' & ->)|Hne]; [unfold HSIZE; lia| |].
  - cbn in Hmax. apply Forall_cons in HP as [Pm HP]. destruct HS as [Hm HS]. cbn in Pm. pose proof (span_nonneg T2' HP).
    cbn [frees app head default from_option id]. rewrite Z.eqb_refl. wp_steps. rewrite Hm, w32_id by (unfold HSIZE in *; lia).
    cbn [uh_ptr set_usize]. exists (n + m), T2'.
    assert (bp + HSIZE * (n + m) = bp + HSIZE * n + HSIZE * m) as Ea by lia. cbn [frees app] in Hp.
    assert (forall x, x <> bp -> uh_ptr (set_uptr bp (uh_ptr s (bp + HSIZE * n)) (set_usize bp (n + m) s)) x = uh_ptr s x) as Ex
      by (intros x Nx; cbn; unfold fupd; by rewrite decide_False).
    constructor.
    + split_and!; [lia|lia|done|]. rewrite Ea. cbn. lia.
    + cbn. lia.
    + by rewrite Ea.
    + cbn. unfold fupd. by rewrite decide_True.
    + rewrite Ea. eapply sized_ext; [done| |exact HS]. intros x Hx. cbn. unfold fupd. rewrite decide_False; [done|]. unfold HSIZE in *. lia.
    + rewrite Ea. apply (path_app _ [p]) in Hp as [_ Hp]. set (l := frees (bp + HSIZE * n + HSIZE * m) T2') in *.
      assert (path (uh_ptr (set_uptr bp (uh_ptr s (bp + HSIZE * n)) (set_usize bp (n + m) s))) (l ++ [base])) as Hl.
      { apply (path_ext (uh_ptr s)); [|by destruct l; [|apply Hp]]. intros x Hx. apply Ex. assert (bp < x) by (apply Hgt; cbn; right; done). lia. }
      destruct l as [|y l]; cbn [app] in Hp, Hl |- *; (split; [cbn; unfold fupd; rewrite decide_True by done; apply Hp|exact Hl]).
    + intros x Nx. split; [by apply Ex|]. cbn. unfold fupd. by rewrite decide_False.
    + done.
  - destruct (Z.eqb_spec (bp + HSIZE * n) (default base (head (frees (bp + HSIZE * n) T2)))) as [E|_]; [congruence|]. wp_steps. exists n, T2.
    set (l := frees (bp + HSIZE * n) T2) in *. set (q := default base (head l)).
    constructor; try done.
    + fold l. assert (path (uh_ptr (set_uptr bp q s)) (l ++ [base])) as Hl.
      { apply (path_ext (uh_ptr s)); [|by destruct l; [|apply Hp]]. intros x Hx. cbn. unfold fupd. rewrite decide_False; [done|]. specialize (Hgt x Hx). lia. }
      unfold q in *. destruct l as [|y l]; cbn [app default head from_option id] in *; (split; [cbn; unfold fupd; by rewrite decide_True|exact Hl]).
    + intros x Nx. cbn. unfold fupd. by rewrite decide_False.
Qed.

Lemma path_last f F p x l : path f (F ++ [p]) -> f p = x -> path f (x :: l) -> path f ((F ++ [p]) ++ x :: l).
Proof.
  intros H1 H2 H3. rewrite <- app_assoc. cbn [app]. apply path_app. split; [done|]. split; done.
Qed.

(** The elements of a sorted list but the last differ from it. *)
Lemma ring_init s T F p x : heap_ok s T -> forall l, ring T = F ++ p :: l -> x ∈ F -> x < p.
Proof. intros H l E Hx. pose proof (ring_sorted _ _ H) as Hs. rewrite E in Hs. destruct (sorted_around _ _ _ Hs) as (S1 & _). by apply S1. Qed.

Lemma merge_left_ok s s1 T1 n T2 n' T2' F p :
  let bp := lo + span T1 in
  heap_ok s (T1 ++ (n, true) :: T2) -> merged_right s s1 bp n T2 n' T2' -> ring T1 = F ++ [p] ->
  wp (m ← usize p;
      if p + HSIZE * m =? bp then
        n ← usize bp; modify (set_usize p (w32 (m + n)));; r ← uptr bp; modify (set_uptr p r)
      else modify (set_uptr p bp))
    (fun _ s2 => exists T', heap_ok (set_ufreep p s2) T' /\ used lo (T1 ++ (n, true) :: T2) ≡ₚ (bp, n) :: used lo T' /\ uh_brk s2 = uh_brk s /\
      (length (ring T') <= S (length (ring (T1 ++ (n, true) :: T2))))%nat /\ (forall x, x <> bp -> x <> p -> uh_ptr s2 x = uh_ptr s x /\ uh_size s2 x = uh_size s x) /\ p ∈ ring T' /\
      exists x, x ∈ ring T' /\ x <= bp /\ bp + HSIZE * n <= x + HSIZE * uh_size s2 x) s1.
Proof.
  intros bp H [(Rn & Rnn & RP & Rlen) Rs Ru Rz Rsz Rp Ro [Rf Rb]] E. pose proof (ho_pos _ _ H) as HP. apply positive_app in HP as [P1 P2]. apply Forall_cons in P2 as [Pn P2].
  pose proof (ho_sized _ _ H) as HS. apply sized_app in HS as [S1 [Sn S2]]. fold bp in Sn, S2. destruct (ho_base _ _ H) as (B0 & B1 & B2).
  pose proof (ho_max _ _ H) as Hmax. rewrite tspan_app in Hmax. cbn in Hmax, Pn. pose proof (span_nonneg _ P1). pose proof (span_nonneg _ RP).
  pose proof (ho_path _ _ H) as Hp. pose proof (ho_brk _ _ H) as Hb. rewrite tspan_app in Hb. cbn in Hb.
  assert (ring (T1 ++ (n, true) :: T2) = F ++ p :: frees (bp + HSIZE * n) T2) as ER
    by (rewrite ring_app, E, <- app_assoc; done).
  rewrite ER in Hp. rewrite <- app_assoc in Hp. apply path_app in Hp as [HpF _].
  assert (forall x, x ∈ F -> x < p) as HF by (intros x Hx; by eapply (ring_init _ _ _ _ x H)).
  assert (p < bp) as Hpb.
  { assert (p ∈ ring T1) as Hin by (rewrite E; set_solver). apply elem_of_cons in Hin as [->|Hin]; [unfold bp, HSIZE in *; lia|].
    destruct (frees_range _ _ T1 p P1 S1 Hin) as (? & ? & ?). unfold bp, HSIZE in *. lia. }
  assert (forall x, x ∈ bp :: frees (bp + HSIZE * n') T2' -> bp <= x) as Hge.
  { intros x [->|Hx]%elem_of_cons; [lia|]. destruct (frees_range _ _ T2' x RP Rsz Hx). unfold HSIZE in *. lia. }
  assert (sized (uh_size s1) lo T1) as S1'.
  { eapply sized_ext; [done| |exact S1]. intros x Hx. apply Ro. unfold bp. lia. }
  assert (uh_size s1 base = 0) as B2' by (rewrite (proj2 (Ro base ltac:(unfold bp, HSIZE in *; lia))); done).
  assert (used lo (T1 ++ (n, true) :: T2) ≡ₚ (bp, n) :: used lo T1 ++ used (bp + HSIZE * n') T2') as HU.
  { rewrite used_app. cbn [used app]. fold bp. rewrite Ru. by rewrite Permutation_middle. }
  unfold usize, uptr. wp_steps.
  destruct (adjacent_left (uh_size s1) T1 F p P1 S1' B2' B1 E) as [(m & T1' & -> & Ep & Em & EF)|Hne].
  - assert (bp = p + HSIZE * m) as Ebp by (unfold bp; rewrite tspan_app; cbn; lia). rewrite Em.
    destruct (Z.eqb_spec (p + HSIZE * m) bp) as [_|]; [|lia]. wp_steps. rewrite Rz.
    apply positive_app in P1 as [P1 Pm]. apply Forall_cons in Pm as [Pm _]. cbn in Pm. pose proof (span_nonneg _ P1).
    rewrite tspan_app in Hmax, Hb. cbn in Hmax, Hb.
    rewrite w32_id by (unfold HSIZE in *; lia). cbn [uh_ptr set_usize]. exists (T1' ++ (m + n', false) :: T2').
    assert (p + HSIZE * (m + n') = bp + HSIZE * n') as Ea by (unfold HSIZE in *; lia).
    apply sized_app in S1' as [S1a _]. split.
    + constructor.
      * split_and!; try done. cbn. unfold fupd. destruct (decide (base = p)) as [Hx|_]; [|done]. exfalso. unfold HSIZE in *. lia.
      * apply positive_app. split; [done|]. apply Forall_cons. split; [cbn; lia|done].
      * apply sized_app. rewrite <- Ep. split; [|split].
        -- eapply sized_ext; [done| |exact S1a]. intros x Hx. cbn. unfold fupd. rewrite decide_False; [done|lia].
        -- cbn. unfold fupd. by rewrite decide_True.
        -- rewrite Ea. eapply sized_ext; [done| |exact Rsz]. intros x Hx. cbn. unfold fupd. rewrite decide_False; [done|]. unfold HSIZE in *. lia.
      * rewrite ring_app, <- EF. cbn [frees app]. rewrite <- Ep, Ea.
        rewrite <- app_assoc. cbn [app]. apply path_app. split.
        -- apply (path_ext (uh_ptr s)); [|done]. intros x Hx. specialize (HF x Hx). cbn. unfold fupd. rewrite decide_False by lia. apply Ro. lia.
        -- set (l := frees (bp + HSIZE * n') T2') in *.
           assert (path (uh_ptr (set_uptr p (uh_ptr s1 bp) (set_usize p (m + n') s1))) (l ++ [base])) as Hl.
           { apply (path_ext (uh_ptr s1)); [|by destruct l; [|apply Rp]]. intros x Hx. cbn. unfold fupd. rewrite decide_False; [done|].
             specialize (Hge x ltac:(by right)). lia. }
           destruct l as [|y l]; cbn [app] in Rp, Hl |- *; (split; [cbn; unfold fupd; rewrite decide_True by done; apply Rp|exact Hl]).
      * rewrite ring_app. cbn [frees app]. rewrite <- Ep. cbn. set_solver.
      * cbn. rewrite Rb, Hb, tspan_app. cbn. lia.
      * rewrite tspan_app. cbn. lia.
    + split; [rewrite HU, !used_app; cbn [used app]; rewrite app_nil_r, <- Ep, Ea; done|]. split; [exact Rb|]. split.
      * rewrite ER, ring_app, <- EF, !length_app. cbn [frees app length]. rewrite <- Ep, Ea. lia.
      * assert (p ∈ ring (T1' ++ (m + n', false) :: T2')) as Hpr by (rewrite ring_app; cbn [frees app]; rewrite <- Ep; set_solver). split_and!; [|done|].
        -- intros x N1 N2. cbn. unfold fupd. rewrite !decide_False by done. by apply Ro.
        -- exists p. split; [done|]. cbn. unfold fupd. rewrite decide_True by done. unfold HSIZE in *. lia.
  - destruct (Z.eqb_spec (p + HSIZE * uh_size s1 p) bp) as [Hx|_]; [done|]. wp_steps. exists (T1 ++ (n', false) :: T2'). split.
    + constructor.
      * done.
      * apply positive_app. split; [done|]. apply Forall_cons. done.
      * apply sized_app. split; [done|]. fold bp. done.
      * rewrite ring_app, E. fold bp. rewrite <- app_assoc. cbn [frees app].
        apply path_last.
        -- apply (path_ext (uh_ptr s)); [|done]. intros x Hx. specialize (HF x Hx). cbn. unfold fupd. rewrite decide_False by lia. apply Ro. lia.
        -- cbn. unfold fupd. by rewrite decide_True.
        -- apply (path_ext (uh_ptr s1) _ (bp :: frees (bp + HSIZE * n') T2')); [|exact Rp]. intros x Hx. specialize (Hge x Hx).
           cbn. unfold fupd. rewrite decide_False; [done|lia].
      * rewrite ring_app, E. cbn. set_solver.
      * cbn. rewrite Rb, Hb, tspan_app. cbn. lia.
      * rewrite tspan_app. cbn. lia.
    + split; [rewrite HU, used_app; done|]. split; [exact Rb|]. split.
      * rewrite ER, ring_app, E, !length_app. cbn [frees app length]. fold bp. lia.
      * split_and!.
        -- intros x N1 N2. cbn. unfold fupd. rewrite decide_False by done. by apply Ro.
        -- rewrite ring_app, E. set_solver.
        -- exists bp. split; [rewrite ring_app; fold bp; cbn [frees app]; set_solver|]. cbn. rewrite Rz. unfold HSIZE. lia.
Qed.

Lemma free_ok s T ap n : heap_ok s T -> (ap - HSIZE, n) ∈ used lo T ->
  wp (free base ap) (fun _ s' => exists T', heap_ok s' T' /\ used lo T ≡ₚ (ap - HSIZE, n) :: used lo T' /\ uh_brk s' = uh_brk s /\
    (length (ring T') <= S (length (ring T)))%nat /\ untouched (used lo T') s s' /\ exists x, x ∈ ring T' /\ n <= uh_size s' x) s.
Proof.
  intros H Hu. destruct (used_split _ _ _ _ Hu) as (T1 & T2 & -> & Ebp). unfold free. rewrite Ebp. set (bp := lo + span T1).
  destruct (free_search_ok s T1 n T2 H) as (F & p & E & W). apply wp_bind, wp_gets. apply wp_bind, wp_gets. cbv beta zeta.
  eapply wp_call; [exact W|]. cbv beta. intros ? ? [-> ->].
  pose proof (ho_pos _ _ H) as HP. apply positive_app in HP as [P1 P2]. pose proof (span_nonneg _ P1).
  pose proof (ho_sized _ _ H) as HS. apply sized_app in HS as [S1 HS]. destruct (ho_base _ _ H) as (B0 & B1 & _).
  pose proof (ho_max _ _ H) as Hmax. rewrite tspan_app in Hmax.
  assert (ring (T1 ++ (n, true) :: T2) = F ++ p :: frees (bp + HSIZE * n) T2) as ER by (rewrite ring_app, E, <- app_assoc; done).
  pose proof (ho_path _ _ H) as Hp. rewrite ER, <- app_assoc in Hp. apply path_app in Hp as [_ Hp].
  assert (p < bp) as Hpb.
  { assert (p ∈ ring T1) as Hin by (rewrite E; set_solver). apply elem_of_cons in Hin as [->|Hin]; [unfold bp, HSIZE in *; lia|].
    destruct (frees_range _ _ T1 p P1 S1 Hin) as (? & ? & ?). unfold bp, HSIZE in *. lia. }
  apply wp_bind, wp_gets. pose proof (proj1 HS) as Hn. fold bp in Hn, HS. rewrite Hn. apply wp_bind, wp_gets. apply wp_bind.
  eapply wp_mono; [apply (merge_right_ok s bp p n T2 P2 HS); [unfold bp, HSIZE in *; lia|lia|lia|exact Hp]|].
  cbv beta. intros _ s1 (n' & T2' & R). pose proof (mr_same _ _ _ _ _ _ _ R) as [_ Rb].
  pose proof (merge_left_ok s s1 T1 n T2 n' T2' F p H R E) as W2. 
  apply wp_bind, wp_gets. apply wp_bind. eapply wp_mono; [exact W2|]. cbv beta. intros _ s2 (T' & H' & HU & Hb & Hlen & Ho & Hpr & x & Hx & Hxb & Hxs).
  apply wp_modify. exists T'. split; [done|]. split; [done|]. split; [done|]. split; [done|]. split.
  - intros a k z Ha Hz. apply Ho; intros ->.
    + destruct (used_ring _ _ _ _ _ H' Ha Hx) as [Hd|Hd]; cbn in Hd; apply Forall_cons in P2 as [Pn _]; cbn in Pn; unfold HSIZE in *; lia.
    + destruct (used_ring _ _ _ _ _ H' Ha Hpr) as [Hd|Hd]; [lia|]. destruct (ring_range _ _ _ H' Hpr) as [->|(_ & Hd' & _)]; [|unfold HSIZE in *; lia].
      destruct (used_range lo T' a k (ho_pos _ _ H') Ha). unfold HSIZE in *. lia.
  - exists x. split; [done|]. cbn. unfold HSIZE in *. lia.
Qed.
End inv.
