(* ===== verification/UmallocTheorems.v ===== *)
(** * The user allocator: malloc, and the theorem (user/umalloc.c) *)
From S2P Require Import Prelude Mem Riscv Kalloc.
From stdpp Require Import base tactics numbers list strings sets sorting.
From Stdlib Require Import ZArith Lia.
From S2P Require Import Spinlock Umalloc UmallocSpec.

Open Scope Z_scope.

Section alloc.
Context (base lo : Z).

(** ** Taking a block *)

Lemma split_unique (A A' : list Z) x B B' : NoDup (A ++ x :: B) -> A ++ x :: B = A' ++ x :: B' -> A = A'.
Proof.
  revert A'. induction A as [|a A IH]; intros [|a' A'] Hn E; cbn in *; [done| | |].
  - injection E as <- E. apply NoDup_cons in Hn as [Hx _]. rewrite E in Hx. set_solver.
  - injection E as -> E. apply NoDup_cons in Hn as [Hx _]. set_solver.
  - injection E as <- E. apply NoDup_cons in Hn as [_ Hn]. f_equal. by apply IH.
Qed.

Lemma ring_nodup s T : heap_ok base lo s T -> NoDup (ring base lo T).
Proof.
  intros H. pose proof (ring_sorted _ _ _ _ H) as Hs. induction Hs as [|x l Hs IH Hx]; [apply NoDup_nil_2|].
  apply NoDup_cons. split; [|done]. intros Hin. rewrite Forall_forall in Hx. specialize (Hx x Hin). lia.
Qed.

(** The predecessor of a free block is the last one before it. *)
Lemma ring_pred s T1 m T2 y : heap_ok base lo s (T1 ++ (m, false) :: T2) -> y ∈ ring base lo (T1 ++ (m, false) :: T2) ->
  uh_ptr s y = lo + span T1 -> exists F, ring base lo T1 = F ++ [y].
Proof.
  intros H Hy En. set (x := lo + span T1) in *. pose proof (ring_nodup _ _ H) as Hn. pose proof (ho_path _ _ _ _ H) as Hp.
  pose proof (ho_pos _ _ _ _ H) as HP. apply positive_app in HP as [P1 _]. pose proof (span_nonneg _ P1).
  destruct (ho_base _ _ _ _ H) as (_ & B1 & _).
  apply list_elem_of_split in Hy as (A & B & E). rewrite E in Hp. apply path_next in Hp. rewrite Hp in En.
  destruct B as [|z B]; cbn in En; [unfold x, HSIZE in *; lia|]. subst z. exists A.
  rewrite ring_app in E, Hn. cbn [frees app] in E, Hn. fold x in E, Hn. apply (split_unique _ _ x _ B Hn). by rewrite E, <- app_assoc.
Qed.

Definition took (s : uheap) (T : list tile) (k : Z) (r : Z) (s' : uheap) : Prop :=
  exists T', heap_ok base lo s' T' /\ used lo T' ≡ₚ (r - HSIZE, k) :: used lo T /\ uh_brk s' = uh_brk s /\ untouched (used lo T) s s' /\ lo <= r - HSIZE.

Lemma take_block_ok s T k y x : heap_ok base lo s T -> 1 <= k -> x ∈ ring base lo T -> y ∈ ring base lo T -> uh_ptr s y = x -> k <= uh_size s x ->
  wp (take_block k (uh_size s x) y x) (took s T k) s.
Proof.
  intros H Hk Hx Hy En Hsz. destruct (ho_base _ _ _ _ H) as (B0 & B1 & B2). apply elem_of_cons in Hx as [->|Hx]; [lia|].
  destruct (frees_split _ _ _ _ (ho_pos _ _ _ _ H) (ho_sized _ _ _ _ H) Hx) as (T1 & T2 & E & Ex). set (m := uh_size s x) in *. subst T.
  destruct (ring_pred s T1 m T2 y H Hy) as [F EF]; [congruence|].
  pose proof (ho_pos _ _ _ _ H) as HP. apply positive_app in HP as [P1 P2]. apply Forall_cons in P2 as [Pm P2]. cbn in Pm.
  pose proof (ho_sized _ _ _ _ H) as HS. apply sized_app in HS as [S1 [Sm S2]]. rewrite <- Ex in Sm, S2.
  pose proof (span_nonneg _ P1). pose proof (ho_path _ _ _ _ H) as Hp. pose proof (ho_brk _ _ _ _ H) as Hb. pose proof (ho_max _ _ _ _ H) as Hmax.
  rewrite tspan_app in Hb, Hmax. cbn in Hb, Hmax. pose proof (span_nonneg _ P2).
  assert (used lo (T1 ++ (m, false) :: T2) = used lo T1 ++ used (x + HSIZE * m) T2) as EU by (rewrite used_app; cbn; by rewrite <- Ex).
  assert (forall b j w, (b, j) ∈ used lo (T1 ++ (m, false) :: T2) -> w ∈ ring base lo (T1 ++ (m, false) :: T2) -> ~ (b <= w < b + HSIZE * j)) as Hny.
  { intros b j w Hb' Hw Hr. destruct (used_ring _ _ _ _ _ _ _ H Hb' Hw) as [Hd|Hd]; [lia|].
    destruct (ring_range _ _ _ _ _ H Hw) as [->|(_ & Hd' & _)]; [|unfold HSIZE in *; lia].
    destruct (used_range lo _ b j (ho_pos _ _ _ _ H) Hb'). unfold HSIZE in *. lia. }
  unfold take_block. destruct (Z.eqb_spec m k) as [Emk|Nmk]; unfold uptr.
  - apply wp_bind, wp_gets, wp_bind, wp_modify, wp_bind, wp_modify, wp_ret. exists (T1 ++ (m, true) :: T2).
    replace (x + HSIZE - HSIZE) with x by lia. split; [|split; [rewrite used_app; cbn [used app]; rewrite <- Ex, EU, <- Emk; by rewrite Permutation_middle|split; [done|split; [|lia]]]].
    2: { intros b j w Hb' Hw. cbn. unfold fupd. rewrite decide_False; [done|]. intros ->. by apply (Hny b j y Hb' Hy Hw). }
    constructor; try done.
    + apply positive_app. split; [done|]. by apply Forall_cons.
    + apply sized_app. rewrite <- Ex. done.
    + rewrite ring_app in Hp |- *. cbn [frees app] in Hp |- *. rewrite <- Ex in Hp |- *. rewrite EF in Hp |- *. rewrite <- !app_assoc in *. cbn [app] in *.
      pose proof (ring_nodup _ _ H) as Hn. rewrite ring_app, EF in Hn. cbn [frees app] in Hn. rewrite <- Ex, <- app_assoc in Hn. cbn [app] in Hn.
      apply NoDup_app in Hn as (_ & HnF & Hn). apply NoDup_cons in Hn as [Hnx _].
      apply path_app in Hp as [Hp1 Hp2]. change (y :: x :: ?l) with ([y] ++ x :: l) in Hp2. apply path_app in Hp2 as [_ Hp2].
      set (l := frees (x + HSIZE * m) T2) in *.
      assert (path (uh_ptr (set_ufreep y (set_uptr y (uh_ptr s x) s))) (l ++ [base])) as Hl.
      { apply (path_ext (uh_ptr s)); [|by destruct l; [|apply Hp2]]. intros z Hz. cbn. unfold fupd. rewrite decide_False; [done|]. intros ->. set_solver. }
      apply path_app. split.
      * apply (path_ext (uh_ptr s)); [|done]. intros z Hz. cbn. unfold fupd. rewrite decide_False; [done|]. intros ->. apply (HnF y Hz). left.
      * destruct l as [|z l]; cbn [app] in Hp2, Hl |- *; (split; [cbn; unfold fupd; rewrite decide_True by done; apply Hp2|exact Hl]).
    + rewrite ring_app, EF. cbn. set_solver.
    + cbn. rewrite Hb, tspan_app. done.
    + rewrite tspan_app. cbn. lia.
  - cbv zeta. apply wp_bind, wp_modify, wp_bind, wp_modify, wp_bind, wp_modify, wp_ret. exists (T1 ++ (m - k, false) :: (k, true) :: T2).
    set (z := x + HSIZE * (m - k)). replace (z + HSIZE - HSIZE) with z by lia.
    assert (z + HSIZE * k = x + HSIZE * m) as Ez by (unfold z; lia).
    assert (x < z) by (unfold z, HSIZE; lia).
    split; [|split; [|split; [done|split; [|lia]]]].
    + constructor; try done.
      * split_and!; try done. cbn. unfold fupd. rewrite !decide_False; [done|unfold z, HSIZE in *; lia|unfold HSIZE in *; lia].
      * apply positive_app. split; [done|]. unfold positive. rewrite !Forall_cons. cbn. split_and!; [lia|lia|done].
      * apply sized_app. rewrite <- Ex. split; [|split; [|split]].
        -- eapply sized_ext; [done| |exact S1]. intros w Hw. cbn. unfold fupd. rewrite !decide_False; [done|unfold HSIZE in *; lia|unfold HSIZE in *; lia].
        -- cbn. unfold fupd. rewrite decide_False by (fold z; lia). by rewrite decide_True.
        -- cbn. unfold fupd. fold z. by rewrite decide_True.
        -- fold z. rewrite Ez. eapply sized_ext; [done| |exact S2]. intros w Hw. cbn. unfold fupd. rewrite !decide_False; [done|unfold HSIZE in *; lia|unfold HSIZE in *; fold z; lia].
      * rewrite ring_app in Hp |- *. cbn [frees app] in Hp |- *. rewrite <- Ex in Hp |- *. fold z. rewrite Ez. done.
      * rewrite ring_app, EF. cbn. set_solver.
      * cbn. rewrite Hb, tspan_app. cbn. lia.
      * rewrite tspan_app. cbn. lia.
    + rewrite used_app, EU. cbn [used app]. rewrite <- Ex. fold z. rewrite Ez. by rewrite Permutation_middle.
    + intros b j w Hb' Hw. cbn. unfold fupd. fold z. destruct (used_free _ lo _ b j x (ho_pos _ _ _ _ H) (ho_sized _ _ _ _ H) Hb' Hx) as [Hd|Hd];
        fold m in Hd; (rewrite !decide_False; [done|unfold z, HSIZE in *; lia..]).
Qed.

(** ** More memory *)

(** What morecore asks for. *)
Definition core_units (k : Z) : Z := if k <? 4096 then 4096 else k.

(** The block of new memory, before it is freed. *)
Lemma grown_ok s T n : heap_ok base lo s T -> 1 <= n -> span T + HSIZE * n < 2 ^ 36 ->
  heap_ok base lo (set_usize (uh_brk s) n (set_ubrk (uh_brk s + HSIZE * n) s)) (T ++ [(n, true)]).
Proof.
  intros H Hn Hmax. destruct (ho_base _ _ _ _ H) as (B0 & B1 & B2). pose proof (ho_pos _ _ _ _ H) as HP. pose proof (span_nonneg _ HP).
  pose proof (ho_brk _ _ _ _ H) as Hb. assert (ring base lo (T ++ [(n, true)]) = ring base lo T) as ER by (rewrite ring_app; cbn; by rewrite app_nil_r).
  constructor.
  - split_and!; try done. cbn. unfold fupd. rewrite decide_False; [done|]. unfold HSIZE in *. lia.
  - apply positive_app. split; [done|]. by apply Forall_cons.
  - apply sized_app. split; [|split; [|done]].
    + eapply sized_ext; [done| |apply (ho_sized _ _ _ _ H)]. intros x Hx. cbn. unfold fupd. rewrite decide_False; [done|lia].
    + cbn. unfold fupd. by rewrite decide_True.
  - rewrite ER. apply (ho_path _ _ _ _ H).
  - rewrite ER. apply (ho_freep _ _ _ _ H).
  - cbn. rewrite tspan_app. cbn. lia.
  - rewrite tspan_app. cbn. lia.
Qed.

Lemma freep_pos s T : heap_ok base lo s T -> uh_freep s <> 0.
Proof.
  intros H. destruct (ho_base _ _ _ _ H) as (B0 & B1 & _). destruct (ring_range _ _ _ _ _ H (ho_freep _ _ _ _ H)) as [->|[? _]]; unfold HSIZE in *; lia.
Qed.

Lemma morecore_ok s T k : heap_ok base lo s T -> 1 <= k < 2 ^ 27 -> span T + HSIZE * core_units k < 2 ^ 36 ->
  wp (morecore base k) (fun r s' =>
    (r = 0 /\ s' = s /\ TRAPFRAME < uh_brk s + HSIZE * core_units k) \/
    (r <> 0 /\ r = uh_freep s' /\ exists T', heap_ok base lo s' T' /\ used lo T' ≡ₚ used lo T /\ uh_brk s' = uh_brk s + HSIZE * core_units k /\
       (length (ring base lo T') <= S (length (ring base lo T)))%nat /\ untouched (used lo T) s s' /\
       exists x, x ∈ ring base lo T' /\ k <= uh_size s' x)) s.
Proof.
  intros H Hk Hmax. unfold morecore. change (if k <? 4096 then 4096 else k) with (core_units k). cbv zeta.
  assert (1 <= core_units k /\ k <= core_units k < 2 ^ 27) as (C1 & C2) by (unfold core_units; destruct (Z.ltb_spec k 4096); lia).
  rewrite s32_id by (unfold HSIZE; lia). rewrite (Z.mul_comm (core_units k)). unfold usbrk.
  destruct (ho_base _ _ _ _ H) as (B0 & B1 & B2). pose proof (span_nonneg _ (ho_pos _ _ _ _ H)). pose proof (ho_brk _ _ _ _ H) as Hb.
  apply wp_bind, wp_bind, wp_gets. destruct (Z.ltb_spec 0 (HSIZE * core_units k)) as [_|Hx]; [|unfold HSIZE in *; lia].
  destruct (Z.ltb_spec TRAPFRAME (uh_brk s + HSIZE * core_units k)) as [Hf|Hf].
  - apply wp_ret. rewrite Z.eqb_refl. apply wp_ret. left. done.
  - apply wp_bind, wp_modify, wp_ret. destruct (Z.eqb_spec (uh_brk s) SBRK_ERROR) as [Hx|_].
    { exfalso. unfold SBRK_ERROR, HSIZE in *. assert (TRAPFRAME <= 2 ^ 38) by (unfold TRAPFRAME, TRAMPOLINE; change MAXVA with (2 ^ 38); unfold PGSIZE; lia). lia. }
    apply wp_bind, wp_modify. pose proof (grown_ok s T (core_units k) H C1 Hmax) as H1. set (s1 := set_usize _ _ _) in *.
    eapply wp_call; [apply (free_ok _ _ s1 _ (uh_brk s + HSIZE) (core_units k) H1)|].
    + rewrite used_app. cbn [used app]. rewrite <- Hb. replace (uh_brk s + HSIZE - HSIZE) with (uh_brk s) by lia. set_solver.
    + cbv beta. intros _ s2 (T' & H2 & HU & Hb2 & Hlen & Hunt & x & Hx & Hsz). apply wp_gets. right. split; [by eapply freep_pos|]. split; [done|].
      assert (used lo T' ≡ₚ used lo T) as HU'.
      { rewrite used_app in HU. cbn [used app] in HU. rewrite <- Hb in HU. replace (uh_brk s + HSIZE - HSIZE) with (uh_brk s) in HU by lia.
        rewrite Permutation_app_comm in HU. cbn in HU. apply Permutation_cons_inv in HU. done. }
      exists T'. split; [done|]. split_and!.
      * done.
      * rewrite Hb2. done.
      * rewrite ring_app in Hlen. cbn in Hlen. rewrite app_nil_r in Hlen. done.
      * intros b j w Hb' Hw. destruct (Hunt b j w) as [E1 E2]; [by rewrite HU'|done|]. rewrite E1, E2. cbn. unfold fupd.
        destruct (used_range lo T b j (ho_pos _ _ _ _ H) Hb') as (_ & _ & Hd). by rewrite decide_False by lia.
      * exists x. split; [done|lia].
Qed.

(** ** The search *)

(** From the predecessor [p] of the blocks [r] still to look at; those before
    are too small. *)
Lemma malloc_walk k s T (Q : Z -> uheap -> Prop) : heap_ok base lo s T -> 1 <= k ->
  (forall x, x ∈ ring base lo T -> k <= uh_size s x -> forall y, y ∈ ring base lo T -> uh_ptr s y = x -> wp (take_block k (uh_size s x) y x) Q s) ->
  forall r v fuel n, path (uh_ptr s) ((uh_freep s :: v ++ r) ++ [uh_freep s]) -> uh_freep s :: v ++ r ≡ₚ ring base lo T ->
  (forall x, x ∈ v -> uh_size s x < k) -> (length r + n <= fuel)%nat ->
  ((forall x, x ∈ ring base lo T -> uh_size s x < k) -> forall fuel', (n <= fuel')%nat ->
     wp (p ← morecore base k; if p =? 0 then mret 0
         else match fuel' with O => nofuel | S fuel => q ← uptr p; malloc_loop base fuel k p q end) Q s) ->
  wp (malloc_loop base fuel k (default (uh_freep s) (last v)) (default (uh_freep s) (head r))) Q s.
Proof.
  intros H Hk Htake. induction r as [|x r IH]; intros v fuel n Hp HPm Hv Hf Hnone.
  - rewrite app_nil_r in Hp, HPm. cbn [head default from_option id]. set (f := uh_freep s) in *. set (y := default f (last v)).
    assert (y ∈ ring base lo T /\ uh_ptr s y = f) as [Hy En].
    { rewrite <- HPm. destruct v as [|z v' _] using rev_ind; [cbn in y; split; [left|by apply (path_next _ [] f [] f Hp)]|].
      unfold y. rewrite last_snoc. cbn. split; [set_solver|]. apply (path_next _ (f :: v') z [] f Hp). }
    assert (f ∈ ring base lo T) as Hfin by apply (ho_freep _ _ _ _ H).
    destruct fuel as [|fuel]; cbn [malloc_loop]; unfold usize; apply wp_bind, wp_gets; (destruct (Z.leb_spec k (uh_size s f)) as [Hle|Hgt]; [by apply Htake|]);
      apply wp_bind, wp_gets; fold f; rewrite Z.eqb_refl.
    + apply (Hnone ltac:(intros x; rewrite <- HPm; intros [->|Hx]%elem_of_cons; [done|by apply Hv]) 0%nat). cbn in Hf. lia.
    + apply (Hnone ltac:(intros x; rewrite <- HPm; intros [->|Hx]%elem_of_cons; [done|by apply Hv]) (S fuel)). cbn in Hf. lia.
  - cbn [head default from_option id length] in *. set (f := uh_freep s) in *. set (y := default f (last v)).
    assert (x ∈ ring base lo T) as Hx by (rewrite <- HPm; set_solver).
    assert (y ∈ ring base lo T /\ uh_ptr s y = x) as [Hy En].
    { rewrite <- HPm. destruct v as [|z v' _] using rev_ind; [cbn in y; split; [left|by apply (path_next _ [] f (x :: r) f Hp)]|].
      unfold y. rewrite last_snoc. cbn. split; [set_solver|]. rewrite <- app_assoc in Hp. apply (path_next _ (f :: v') z (x :: r) f Hp). }
    assert (x <> f) as Nx.
    { pose proof (ring_nodup _ _ H) as Hn. rewrite <- HPm in Hn. apply NoDup_cons in Hn as [Hn _]. intros ->. apply Hn. set_solver. }
    destruct fuel as [|fuel]; [lia|]. cbn [malloc_loop]. unfold usize. apply wp_bind, wp_gets.
    destruct (Z.leb_spec k (uh_size s x)) as [Hle|Hgt]; [by apply Htake|]. apply wp_bind, wp_gets. destruct (Z.eqb_spec x (uh_freep s)) as [|_]; [done|].
    unfold uptr at 1. apply wp_bind, wp_gets. rewrite (path_next _ (f :: v) x r f Hp).
    pose proof (IH (v ++ [x]) fuel n) as IH'. rewrite <- app_assoc, last_snoc in IH'. cbn [app default from_option id] in IH'. apply IH'; try done; [|lia].
    intros z Hz. apply elem_of_app in Hz as [Hz|Hz]; [by apply Hv|]. apply list_elem_of_singleton in Hz as ->. done.
Qed.


(** One round finds a block if there is one. *)
Lemma malloc_round k s T fuel : heap_ok base lo s T -> 1 <= k -> (exists x, x ∈ ring base lo T /\ k <= uh_size s x) -> (length (ring base lo T) <= fuel)%nat ->
  wp (malloc_loop base fuel k (uh_freep s) (uh_ptr s (uh_freep s))) (took s T k) s.
Proof.
  intros H Hk (x & Hx & Hsz) Hf. destruct (ring_from_freep _ _ s T H) as (r & Hp & HPm).
  rewrite (path_next _ [] (uh_freep s) r (uh_freep s) Hp). apply (malloc_walk k s T _ H Hk) with (v := []) (n := 0%nat); try done.
  - intros y Hy Hys z Hz En. by apply take_block_ok.
  - set_solver.
  - pose proof (Permutation_length HPm) as Hl. cbn [length app] in Hl |- *. lia.
  - intros Hnone. specialize (Hnone x Hx). lia.
Qed.

(** The number of headers for a request. *)
Definition units (nbytes : Z) : Z := (nbytes + HSIZE - 1) / HSIZE + 1.
Lemma units_range nbytes : 0 <= nbytes < 2 ^ 31 - 32 -> 1 <= units nbytes < 2 ^ 27 /\ nbytes <= HSIZE * (units nbytes - 1).
Proof. intros H. unfold units, HSIZE. Z.div_mod_to_equations. lia. Qed.

(** Before the first call, or later. *)
Definition heap_state (s : uheap) (T : list tile) : Prop :=
  heap_ok base lo s T \/ (uh_freep s = 0 /\ T = [] /\ 0 < base /\ base + HSIZE <= lo /\ uh_brk s = lo).

Lemma heap_start s : uh_freep s = 0 -> 0 < base -> base + HSIZE <= lo -> uh_brk s = lo ->
  heap_ok base lo (set_usize base 0 (set_uptr base base (set_ufreep base s))) [].
Proof.
  intros Hf H0 H1 Hb. constructor; cbn; try done; try lia.
  - split_and!; [done|done|]. unfold fupd. by rewrite decide_True.
  - apply Forall_nil. done.
  - split; [|done]. unfold fupd. by rewrite decide_True.
  - left.
Qed.

Lemma malloc_search s T k fuel : heap_ok base lo s T -> 1 <= k < 2 ^ 27 -> span T + HSIZE * core_units k < 2 ^ 36 -> (2 * length (ring base lo T) + 2 <= fuel)%nat ->
  wp (malloc_loop base fuel k (uh_freep s) (uh_ptr s (uh_freep s))) (fun r s' =>
    (r = 0 /\ s' = s /\ TRAPFRAME < uh_brk s + HSIZE * core_units k) \/
    (HSIZE < r /\ exists T', heap_ok base lo s' T' /\ used lo T' ≡ₚ (r - HSIZE, k) :: used lo T /\ untouched (used lo T) s s')) s.
Proof.
  intros H Hk Hmax Hf. destruct (ring_from_freep _ _ s T H) as (r & Hp & HPm). destruct (ho_base _ _ _ _ H) as (B0 & B1 & _).
  rewrite (path_next _ [] (uh_freep s) r (uh_freep s) Hp).
  apply (malloc_walk k s T _ H ltac:(lia)) with (v := []) (n := (length (ring base lo T) + 2)%nat); try done.
  - intros x Hx Hxs y Hy En. eapply wp_mono; [by apply (take_block_ok s T k y x H); [lia|..]|]. cbv beta.
    intros p s' (T' & H' & HU & _ & Hu & Hl). right. split; [unfold HSIZE in *; lia|]. eauto.
  - set_solver.
  - pose proof (Permutation_length HPm) as Hl. cbn [length app] in Hl |- *. lia.
  - intros _ fuel' Hf'. eapply wp_call; [by apply (morecore_ok s T k H)|]. cbv beta.
    intros p s1 [(-> & -> & Ht)|(Np & -> & T1 & H1 & HU1 & _ & Hlen & Hu1 & Hx)]; [rewrite Z.eqb_refl; apply wp_ret; by left|].
    destruct (Z.eqb_spec (uh_freep s1) 0); [done|]. destruct fuel' as [|fuel']; [lia|]. unfold uptr at 1. apply wp_bind, wp_gets.
    eapply wp_mono; [apply (malloc_round k s1 T1 fuel' H1 ltac:(lia) Hx); lia|]. cbv beta. intros p s' (T' & H' & HU & _ & Hu & Hl). right.
    split; [unfold HSIZE in *; lia|]. exists T'. split; [done|]. split; [by rewrite HU, HU1|].
    apply (untouched_trans _ _ s1); [done|]. intros a j x Ha. apply Hu. by rewrite HU1.
Qed.

Lemma malloc_ok s T nbytes : heap_state s T -> 0 <= nbytes < 2 ^ 31 - 32 -> span T + HSIZE * core_units (units nbytes) < 2 ^ 36 ->
  wp (malloc base nbytes) (fun r s' =>
    (r = 0 /\ TRAPFRAME < uh_brk s + HSIZE * core_units (units nbytes) /\ exists T', heap_state s' T' /\ used lo T' = used lo T /\ untouched (used lo T) s s') \/
    (HSIZE < r /\ exists T', heap_ok base lo s' T' /\ used lo T' ≡ₚ (r - HSIZE, units nbytes) :: used lo T /\ untouched (used lo T) s s')) s.
Proof.
  intros H Hn Hmax. destruct (units_range nbytes Hn) as [Hk _]. unfold malloc. fold (units nbytes). rewrite w32_id by lia. cbv zeta.
  apply wp_bind, wp_gets. apply wp_bind.
  assert (forall s1 T1, heap_ok base lo s1 T1 -> T1 = T -> uh_brk s1 = uh_brk s -> untouched (used lo T) s s1 ->
    wp (prevp ← gets uh_freep; p ← uptr prevp; fuel ← gets (fun s => (2 * headers base s + 4)%nat); malloc_loop base fuel (units nbytes) prevp p)
     (fun r s' =>
    (r = 0 /\ TRAPFRAME < uh_brk s + HSIZE * core_units (units nbytes) /\ exists T', heap_state s' T' /\ used lo T' = used lo T /\ untouched (used lo T) s s') \/
    (HSIZE < r /\ exists T', heap_ok base lo s' T' /\ used lo T' ≡ₚ (r - HSIZE, units nbytes) :: used lo T /\ untouched (used lo T) s s')) s1) as Hgo.
  { intros s1 T1 H1 -> Hb Hu. apply wp_bind, wp_gets. unfold uptr. apply wp_bind, wp_gets. apply wp_bind, wp_gets.
    pose proof (fring_length _ _ _ _ H1) as Hl. eapply wp_mono; [apply (malloc_search s1 T (units nbytes) _ H1 Hk Hmax); lia|]. cbv beta.
    intros r s' [(-> & -> & Ht)|(Hr & T' & H' & HU & Hu')].
    - left. split; [done|]. split; [lia|]. exists T. split; [by left|]. done.
    - right. split; [done|]. exists T'. split; [done|]. split; [done|]. by eapply untouched_trans. }
  destruct H as [H|(Hf & -> & H0 & H1 & Hb)].
  - destruct (Z.eqb_spec (uh_freep s) 0) as [E|_]; [by eapply freep_pos in H|]. apply wp_skip. by apply (Hgo s T).
  - rewrite Hf, Z.eqb_refl. apply wp_bind, wp_modify, wp_bind, wp_modify, wp_modify.
    apply (Hgo _ [] (heap_start s Hf H0 H1 Hb)); [done|done|]. intros a n x Ha. set_solver.
Qed.
End alloc.

(** A program that calls malloc and free: the blocks it holds, with the sizes
    it asked for.  A request is below 2 GB, and the heap below 32 GB. *)
Inductive urun (base lo : Z) : uheap -> list (Z * Z) -> Prop :=
  | ur_init s : uh_freep s = 0 -> uh_brk s = lo -> urun base lo s []
  | ur_malloc s U n r s' : urun base lo s U -> 0 <= n < 2 ^ 31 - 32 -> uh_brk s < lo + 2 ^ 35 ->
      malloc base n s = Ret r s' -> r <> 0 -> urun base lo s' ((r, n) :: U)
  | ur_fail s U n s' : urun base lo s U -> 0 <= n < 2 ^ 31 - 32 -> uh_brk s < lo + 2 ^ 35 ->
      malloc base n s = Ret 0 s' -> urun base lo s' U
  | ur_free s U U' p n s' : urun base lo s U -> U ≡ₚ (p, n) :: U' -> free base p s = Ret () s' -> urun base lo s' U'.

Definition block_of (x : Z * Z) : Z * Z := (x.1 - HSIZE, units x.2).
Definition sumZ (l : list Z) : Z := foldr Z.add 0 l.

Lemma sumZ_perm l l' : l ≡ₚ l' -> sumZ l = sumZ l'.
Proof. induction 1 as [|x l l' _ IH|x y l|l1 l2 l3 _ IH1 _ IH2]; unfold sumZ in *; cbn; lia. Qed.
Lemma span_sum f a T : sized f a T -> span T = HSIZE * (sumZ (map f (frees a T)) + sumZ (map snd (used a T))).
Proof.
  revert a. induction T as [|[n u] T IH]; intros a Hs; cbn in *; [done|]. destruct Hs as [H1 H2]. rewrite (IH _ H2).
  unfold sumZ in *. destruct u; cbn; [lia|]. rewrite H1. lia.
Qed.
Lemma used_sized f a T b n : sized f a T -> (b, n) ∈ used a T -> f b = n.
Proof. intros Hs Hb. destruct (used_split _ _ _ _ Hb) as (T1 & T2 & -> & ->). apply sized_app in Hs as [_ [Hs _]]. done. Qed.
Lemma used_others a T b n L b' n' : positive T -> used a T ≡ₚ (b, n) :: L -> (b', n') ∈ L -> b + HSIZE * n <= b' \/ b' + HSIZE * n' <= b.
Proof.
  intros HP HL Hb'. assert ((b, n) ∈ used a T) as Hb by (rewrite HL; left). destruct (used_split _ _ _ _ Hb) as (T1 & T2 & -> & ->).
  apply positive_app in HP as [P1 P2]. apply Forall_cons in P2 as [Pn P2]. rewrite used_app in HL. cbn [used app] in HL.
  rewrite <- Permutation_middle in HL. apply Permutation_cons_inv in HL. rewrite <- HL in Hb'. apply elem_of_app in Hb' as [Hb'|Hb'].
  - right. by apply (used_range a T1).
  - left. by apply (used_range _ T2) in Hb' as [? _].
Qed.

Section theorem.
Context (base lo : Z) (Hbase : 0 < base) (Hlo : base + HSIZE <= lo).

Definition holds (s : uheap) (U : list (Z * Z)) (T : list tile) : Prop :=
  heap_state base lo s T /\ used lo T ≡ₚ map block_of U /\ Forall (fun x => 0 <= x.2 < 2 ^ 31 - 32) U.

Lemma holds_brk s U T : holds s U T -> uh_brk s = lo + span T.
Proof. intros [[H|(_ & -> & _ & _ & ->)] _]; [apply H|cbn; lia]. Qed.

Lemma holds_malloc s U T n : holds s U T -> 0 <= n < 2 ^ 31 - 32 -> uh_brk s < lo + 2 ^ 35 ->
  wp (malloc base n) (fun r s' => untouched (used lo T) s s' /\
    ((r = 0 /\ TRAPFRAME < uh_brk s + HSIZE * core_units (units n) /\ exists T', holds s' U T') \/ (r <> 0 /\ exists T', holds s' ((r, n) :: U) T'))) s.
Proof.
  intros Hh Hn Hb. pose proof (holds_brk _ _ _ Hh) as Eb. destruct Hh as (H & HU & HF). destruct (units_range n Hn) as [Hk _].
  eapply wp_mono; [apply (malloc_ok base lo s T n H Hn)|].
  - assert (core_units (units n) < 2 ^ 27) by (unfold core_units; destruct (Z.ltb_spec (units n) 4096); lia). unfold HSIZE in *. lia.
  - cbv beta. intros r s' [(-> & Ht & T' & H' & EU & Hu)|(Hr & T' & H' & EU & Hu)].
    + split; [done|]. left. split; [done|]. split; [done|]. exists T'. split; [done|]. split; [by rewrite EU|done].
    + split; [done|]. right. split; [unfold HSIZE in *; lia|]. exists T'. split; [by left|]. split; [|by apply Forall_cons]. by rewrite EU, HU.
Qed.

Lemma holds_free s U T p n U' : holds s U T -> U ≡ₚ (p, n) :: U' ->
  wp (free base p) (fun _ s' => untouched (map block_of U') s s' /\ exists T', holds s' U' T') s.
Proof.
  intros (H & HU & HF) EU. assert ((p - HSIZE, units n) ∈ used lo T) as Hin by (rewrite HU, EU; left).
  destruct H as [H|(_ & -> & _)]; [|set_solver]. eapply wp_mono; [by apply (free_ok base lo s T p (units n))|]. cbv beta.
  intros _ s' (T' & H' & HU' & _ & _ & Hu & _). rewrite HU, EU in HU'. cbn in HU'. apply Permutation_cons_inv in HU'.
  split; [intros a k x Ha; apply Hu; by rewrite <- HU'|]. exists T'. split; [by left|]. split; [done|]. rewrite EU in HF. by apply Forall_cons in HF as [_ HF].
Qed.

Lemma urun_holds s U : urun base lo s U -> exists T, holds s U T.
Proof.
  induction 1 as [s Hf Hb|s U n r s' _ [T IH] Hn Hb E Hr|s U n s' _ [T IH] Hn Hb E|s U U' p n s' _ [T IH] EU E].
  - exists []. split; [right; done|]. split; [done|]. by apply Forall_nil.
  - destruct (wp_inv _ _ _ (holds_malloc _ _ _ _ IH Hn Hb)) as (r1 & s1 & E1 & _ & [(-> & _)|[_ HT]]); [congruence|].
    assert (r1 = r /\ s1 = s') as [-> ->] by (split; congruence). done.
  - destruct (wp_inv _ _ _ (holds_malloc _ _ _ _ IH Hn Hb)) as (r1 & s1 & E1 & _ & [(-> & _ & HT)|[? _]]); [|congruence].
    assert (s1 = s') as -> by congruence. done.
  - destruct (wp_inv _ _ _ (holds_free _ _ _ _ _ _ IH EU)) as ([] & s1 & E1 & _ & HT). assert (s1 = s') as -> by congruence. done.
Qed.
End theorem.

(** A program's block, with the header in front of it. *)
Definition in_block (x : Z) (b : Z * Z) : Prop := b.1 - HSIZE <= x < b.1 + b.2.
Definition unchanged_in (b : Z * Z) (s s' : uheap) : Prop := forall x, in_block x b -> uh_ptr s' x = uh_ptr s x /\ uh_size s' x = uh_size s x.

(** C12.  However a program calls malloc and free: the blocks it holds do not
    overlap, each lies in the heap behind its header and is as large as asked
    for; malloc always returns, and returns 0 only when the kernel has no
    memory for it; free of a block that is held returns; neither writes into a
    block that is held; and the blocks held and the blocks of the free list
    together are exactly the memory obtained from sbrk, so none is lost. *)
Theorem umalloc_correct base lo s U : 0 < base -> base + HSIZE <= lo -> urun base lo s U ->
  (forall b c U', U ≡ₚ b :: U' -> c ∈ U' -> b.1 + b.2 <= c.1 - HSIZE \/ c.1 + c.2 <= b.1 - HSIZE) /\
  (forall b, b ∈ U -> lo <= b.1 - HSIZE /\ b.1 + b.2 <= uh_brk s /\ uh_size s (b.1 - HSIZE) = units b.2) /\
  (forall n, 0 <= n < 2 ^ 31 - 32 -> uh_brk s < lo + 2 ^ 35 -> exists r s', malloc base n s = Ret r s' /\
     (forall b, b ∈ U -> unchanged_in b s s') /\ (r = 0 -> TRAPFRAME < uh_brk s + HSIZE * core_units (units n))) /\
  (forall p n U', U ≡ₚ (p, n) :: U' -> exists s', free base p s = Ret () s' /\ forall b, b ∈ U' -> unchanged_in b s s') /\
  (uh_freep s <> 0 -> exists l, path (uh_ptr s) ((base :: l) ++ [base]) /\
     HSIZE * (sumZ (map (uh_size s) l) + sumZ (map (fun b => units b.2) U)) = uh_brk s - lo).
Proof.
  intros Hbase Hlo R. destruct (urun_holds base lo Hbase Hlo s U R) as [T Hh]. pose proof (holds_brk _ _ _ _ _ Hh) as Eb.
  pose proof Hh as (HS & HU & HF). rewrite Forall_forall in HF.
  assert (positive T /\ (U <> [] -> sized (uh_size s) lo T)) as [HP Hsz].
  { destruct HS as [H|(_ & -> & _)]; [split; [apply H|intros _; apply H]|]. split; [by apply Forall_nil|]. intros N. apply Permutation_nil in HU. by destruct U. }
  assert (forall b, b ∈ U -> block_of b ∈ used lo T /\ b.2 <= HSIZE * (units b.2 - 1)) as Hb.
  { intros b Hb. split; [rewrite HU; by apply list_elem_of_fmap_2|]. by apply units_range, HF. }
  assert (forall b V s s', b ∈ U -> block_of b ∈ V -> untouched V s s' -> unchanged_in b s s') as Hunch.
  { intros b V s1 s2 Hbu HV Hu x Hx. apply (Hu (b.1 - HSIZE) (units b.2)); [done|]. unfold in_block in Hx. destruct (Hb b Hbu). unfold HSIZE in *. lia. }
  split_and!.
  - intros b c U' EU Hc. assert (b ∈ U /\ c ∈ U) as [Hb1 Hc1] by (rewrite EU; set_solver). rewrite EU in HU.
    destruct (used_others lo T _ _ _ (c.1 - HSIZE) (units c.2) HP HU) as [Hd|Hd]; [by apply (list_elem_of_fmap_2 block_of U' c)|..];
      destruct (Hb b Hb1), (Hb c Hc1); cbn in Hd; unfold HSIZE in *; [left|right]; lia.
  - intros b Hbu. destruct (Hb b Hbu) as [Hu Hl]. destruct (used_range lo T _ _ HP Hu) as (R1 & R2 & R3). cbn in R1, R2, R3.
    split_and!; [done|unfold HSIZE in *; lia|]. eapply used_sized; [apply Hsz; by intros ->; apply elem_of_nil in Hbu|exact Hu].
  - intros n Hn Hbk. destruct (wp_inv _ _ _ (holds_malloc base lo _ _ _ _ Hh Hn Hbk)) as (r & s' & E & Hu & Hr). exists r, s'. split; [done|].
    split; [intros b Hbu; apply (Hunch b (used lo T)); [done|by apply Hb|done]|]. intros ->. destruct Hr as [(_ & Hr & _)|[? _]]; done.
  - intros p n U' EU. destruct (wp_inv _ _ _ (holds_free base lo Hbase Hlo s U T p n U' Hh EU)) as ([] & s' & E & Hu & _). exists s'. split; [done|].
    intros b Hbu. apply (Hunch b (map block_of U')); [rewrite EU; by right|by apply list_elem_of_fmap_2|done].
  - intros Hf. destruct HS as [H|(E & _)]; [|done]. exists (frees lo T). split; [apply (ho_path _ _ _ _ H)|].
    rewrite Eb. pose proof (span_sum _ _ _ (ho_sized _ _ _ _ H)) as Hsp. rewrite (sumZ_perm (map (fun b => units b.2) U) (map snd (used lo T))); [lia|].
    rewrite HU, map_map. done.
Qed.

(** A fresh heap, and the heap after one request. *)
Definition usample : uheap := UHeap (fun _ => 0) (fun _ => 0) 0 4096.

Lemma umalloc_correct_witness :
  exists r s, malloc 1024 100 usample = Ret r s /\ r <> 0 /\ urun 1024 4096 s [(r, 100)] /\ 4112 <= r /\ r + 100 <= uh_brk s /\
    exists s', free 1024 r s = Ret () s'.
Proof.
  assert (urun 1024 4096 usample []) as R0 by (apply ur_init; reflexivity).
  destruct (umalloc_correct 1024 4096 usample [] ltac:(lia) ltac:(unfold HSIZE; lia) R0) as (_ & _ & Hm & _).
  destruct (Hm 100) as (r & s & E & _ & Hr); [lia|cbn; lia|].
  assert (r <> 0) as Nr by (intros ->; specialize (Hr eq_refl); vm_compute in Hr; discriminate Hr).
  assert (urun 1024 4096 s [(r, 100)]) as R1 by (apply (ur_malloc _ _ usample [] 100 r s R0); [lia|cbn; lia|exact E|exact Nr]).
  exists r, s. split; [exact E|]. split; [exact Nr|]. split; [exact R1|].
  destruct (umalloc_correct 1024 4096 s [(r, 100)] ltac:(lia) ltac:(unfold HSIZE; lia) R1) as (_ & Hb & _ & Hf & _).
  destruct (Hb (r, 100)) as (H1 & H2 & _); [left|]. cbn in H1, H2. unfold HSIZE in H1. split; [lia|]. split; [lia|].
  destruct (Hf r 100 [] (Permutation_refl _)) as (s' & Es & _). exists s'. exact Es.
Defined.

(** A request of 2 GB: the size of the new block does not fit in the int that
    sbrk takes, the kernel sees a negative number that it ignores, and malloc
    returns a pointer although the heap has not grown. *)
Theorem malloc_huge_unbacked : exists s, malloc 1024 (2 ^ 31) usample = Ret 4112 s /\ uh_brk s = 4096.
Proof. eexists. split; [vm_compute; reflexivity|reflexivity]. Qed.
