(* ===== verification/Sh.v ===== *)
(** * The shell (user/sh.c): parsing

    The parser works on the bytes of the command line and keeps pointers into
    it: a position is an index into [buf], the line up to its NUL, and [es] is
    its length.  A command is the tree the parser allocates, with the
    positions of its strings; nulterminate then writes NULs into the line.
    The state of the parser is the position *ps. *)
From stdpp Require Import base tactics numbers list strings.
From Stdlib Require Import ZArith Lia.
From S2P Require Import Prelude.

Open Scope Z_scope.

Definition MAXARGS : Z := 10.
Definition O_RDONLY : Z := 0x000.
Definition O_WRONLY : Z := 0x001.
Definition O_CREATE : Z := 0x200.
Definition O_TRUNC : Z := 0x400.

(** " \t\r\n\v" and "<|>&;()" *)
Definition whitespace : list Z := [32; 9; 13; 10; 11].
Definition symbols : list Z := [60; 124; 62; 38; 59; 40; 41].

(** strchr(s, c) != 0 *)
Fixpoint sstrchr (s : list Z) (c : Z) : bool := match s with [] => false | x :: s => if x =? c then true else sstrchr s c end.

(** The structs execcmd (argv and eargv up to the null pointer), redircmd,
    pipecmd, listcmd and backcmd. *)
Inductive cmd :=
  | EXEC (argv : list (nat * nat))
  | REDIR (c : cmd) (file efile : nat) (mode fd : Z)
  | PIPE (left right : cmd)
  | LIST (left right : cmd)
  | BACK (c : cmd).

(** The constructors; argv and eargv are all zero at first. *)
Definition execcmd : cmd := EXEC [].
Definition redircmd (subcmd : cmd) (file efile : nat) (mode fd : Z) : cmd := REDIR subcmd file efile mode fd.
Definition pipecmd (left right : cmd) : cmd := PIPE left right.
Definition listcmd (left right : cmd) : cmd := LIST left right.
Definition backcmd (subcmd : cmd) : cmd := BACK subcmd.

(** cmd->argv[argc] = q; cmd->eargv[argc] = eq, where cmd is the execcmd
    below the redirections that ret has been wrapped in. *)
Fixpoint add_arg (q eq : nat) (ret : cmd) : cmd :=
  match ret with
  | EXEC argv => EXEC (argv ++ [(q, eq)])
  | REDIR c file efile mode fd => REDIR (add_arg q eq c) file efile mode fd
  | _ => ret
  end.

Section parser.
Context (buf : list Z).

Definition es : nat := length buf.
(** *s; the NUL is at [es]. *)
Definition char_at (s : nat) : Z := nth s buf 0.

(** while(s < es && test(s)) s++ *)
Fixpoint scan (n : nat) (test : Z -> bool) (s : nat) : nat :=
  match n with
  | O => s
  | S n => if (s <? es)%nat && test (char_at s) then scan n test (S s) else s
  end.
Definition skip_ws (s : nat) : nat := scan (es - s) (sstrchr whitespace) s.
Definition skip_word (s : nat) : nat :=
  scan (es - s) (fun c => negb (sstrchr whitespace c) && negb (sstrchr symbols c)) s.

(** It returns the token with *q and *eq. *)
Definition gettoken : M nat (Z * nat * nat) :=
  s ← gets skip_ws;
  let q := s in
  let c := char_at s in
  let '(ret, s) :=
    if c =? 0 then (c, s)
    else if sstrchr [124; 40; 41; 59; 38; 60] c then (c, S s)
    else if c =? 62 then (if char_at (S s) =? 62 then (43, S (S s)) else (c, S s))
    else (97, skip_word s) in
  let eq := s in
  modify (fun _ => skip_ws s);;
  mret (ret, q, eq).

Definition peek (toks : list Z) : M nat bool :=
  modify skip_ws;;
  s ← gets id;
  mret (negb (char_at s =? 0) && sstrchr toks (char_at s)).

(** The loops run at most once for each byte of the line. *)
Fixpoint redirs_loop (n : nat) (c : cmd) : M nat cmd :=
  more ← peek [60; 62];
  if negb more then mret c
  else
    match n with
    | O => nofuel
    | S n =>
        '(tok, _, _) ← gettoken;
        '(a, q, eq) ← gettoken;
        if negb (a =? 97) then panic "missing file for redirection"
        else
          redirs_loop n
            (if tok =? 60 then redircmd c q eq O_RDONLY 0
             else if tok =? 62 then redircmd c q eq (Z.lor (Z.lor O_WRONLY O_CREATE) O_TRUNC) 1
             else if tok =? 43 then redircmd c q eq (Z.lor O_WRONLY O_CREATE) 1
             else c)
    end.
Definition parseredirs (c : cmd) : M nat cmd := redirs_loop es c.

Fixpoint args_loop (n : nat) (argc : Z) (ret : cmd) : M nat cmd :=
  stop ← peek [124; 41; 38; 59];
  if stop : bool then mret ret
  else
    match n with
    | O => nofuel
    | S n =>
        '(tok, q, eq) ← gettoken;
        if tok =? 0 then mret ret
        else if negb (tok =? 97) then panic "syntax"
        else if MAXARGS <=? argc + 1 then panic "too many args"
        else
          ret ← parseredirs (add_arg q eq ret);
          args_loop n (argc + 1) ret
    end.

Fixpoint back_loop (n : nat) (c : cmd) : M nat cmd :=
  more ← peek [38];
  if negb more then mret c
  else match n with O => nofuel | S n => gettoken;; back_loop n (backcmd c) end.

Fixpoint parseline (fuel : nat) : M nat cmd :=
  match fuel with
  | O => nofuel
  | S fuel =>
      c ← parsepipe fuel;
      c ← back_loop es c;
      more ← peek [59];
      if more : bool then gettoken;; r ← parseline fuel; mret (listcmd c r) else mret c
  end
with parsepipe (fuel : nat) : M nat cmd :=
  match fuel with
  | O => nofuel
  | S fuel =>
      c ← parseexec fuel;
      more ← peek [124];
      if more : bool then gettoken;; r ← parsepipe fuel; mret (pipecmd c r) else mret c
  end
with parseexec (fuel : nat) : M nat cmd :=
  match fuel with
  | O => nofuel
  | S fuel =>
      block ← peek [40];
      if block : bool then parseblock fuel
      else
        ret ← parseredirs execcmd;
        args_loop (S es) 0 ret
  end
with parseblock (fuel : nat) : M nat cmd :=
  match fuel with
  | O => nofuel
  | S fuel =>
      open ← peek [40];
      if negb open then panic "parseblock"
      else
        gettoken;;
        c ← parseline fuel;
        close ← peek [41];
        if negb close then panic "syntax - missing )"
        else gettoken;; parseredirs c
  end.

(** A call consumes a token at least every four levels. *)
Definition parsecmd_tree : M nat cmd :=
  c ← parseline (4 * es + 4);
  peek [];;
  s ← gets id;
  if negb (Nat.eqb s es) then panic "syntax" else mret c.
End parser.

(** nulterminate writes a NUL behind every string of the command. *)
Fixpoint nulterminate (c : cmd) (buf : list Z) : list Z :=
  match c with
  | EXEC argv => foldl (fun b '(_, e) => <[e := 0]> b) buf argv
  | REDIR c file efile mode fd => <[efile := 0]> (nulterminate c buf)
  | PIPE l r | LIST l r => nulterminate r (nulterminate l buf)
  | BACK c => nulterminate c buf
  end.

(** The line up to its NUL, parsed from its start: the command and the bytes
    of the line, with the NUL that ends it, afterwards. *)
Definition parsecmd (buf : list Z) : res nat (cmd * list Z) :=
  match parsecmd_tree buf 0%nat with
  | Ret c s => Ret (c, nulterminate c (buf ++ [0])) s
  | Panic msg => Panic msg
  | NoFuel => NoFuel
  end.
