(* ===== verification/ShLex.v ===== *)
(** * The shell's tokens

    [lexes l ts]: the text [l] is the sequence of tokens [ts], with white
    space between them where it is needed or wanted.  peek and gettoken are
    specified on the tokens of the rest of the line. *)
From stdpp Require Import base tactics numbers list strings sets.
From Stdlib Require Import ZArith Lia.
From S2P Require Import Prelude Sh.

Open Scope Z_scope.

Inductive tok := TSym (c : Z) | TApp | TWord (w : list Z).

Definition is_ws (c : Z) : bool := sstrchr whitespace c.
Definition is_sym (c : Z) : bool := sstrchr symbols c.
(** A character of a word. *)
Definition ordinary (c : Z) : bool := negb (c =? 0) && (negb (is_ws c) && negb (is_sym c)).
Definition word (w : list Z) : Prop := w <> [] /\ Forall (fun c => ordinary c = true) w.

Inductive lexes : list Z -> list tok -> Prop :=
  | lx_nil : lexes [] []
  | lx_ws c l ts : is_ws c = true -> lexes l ts -> lexes (c :: l) ts
  | lx_sym c l ts : is_sym c = true -> c <> 62 -> lexes l ts -> lexes (c :: l) (TSym c :: ts)
  | lx_gt l ts : head l <> Some 62 -> lexes l ts -> lexes (62 :: l) (TSym 62 :: ts)
  | lx_app l ts : lexes l ts -> lexes (62 :: 62 :: l) (TApp :: ts)
  | lx_word w l ts : word w -> (forall c, head l = Some c -> ordinary c = false) -> lexes l ts -> lexes (w ++ l) (TWord w :: ts).

(** The first character of a token. *)
Definition tok_char (t : tok) : Z := match t with TSym c => c | TApp => 62 | TWord w => default 0 (head w) end.
(** What gettoken returns for it. *)
Definition tok_code (t : tok) : Z := match t with TSym c => c | TApp => 43 | TWord _ => 97 end.
Definition peeks (T : list Z) (ts : list tok) : bool := match ts with [] => false | t :: _ => sstrchr T (tok_char t) end.

Lemma sstrchr_elem s c : sstrchr s c = true <-> c ∈ s.
Proof.
  induction s as [|x s IH]; cbn; [set_solver|]. destruct (Z.eqb_spec x c) as [->|N]; [set_solver|]. rewrite IH. set_solver.
Qed.

Lemma ordinary_split c : ordinary c = true <-> c <> 0 /\ is_ws c = false /\ is_sym c = false.
Proof.
  unfold ordinary. rewrite !andb_true_iff, !negb_true_iff, Z.eqb_neq. done.
Qed.

Lemma ws_not_sym c : is_ws c = true -> is_sym c = false.
Proof. unfold is_ws. rewrite sstrchr_elem. unfold whitespace. intros H. set_unfold in H. naive_solver. Qed.
Lemma sym_range c : is_sym c = true -> c <> 0 /\ is_ws c = false.
Proof. unfold is_sym. rewrite sstrchr_elem. unfold symbols. intros H. set_unfold in H. naive_solver. Qed.

(** A text that starts with something other than white space. *)
Lemma lexes_clean l ts : lexes l ts -> (forall c, head l = Some c -> is_ws c = false) ->
  (l = [] /\ ts = []) \/
  (exists c l' ts', l = c :: l' /\ ts = TSym c :: ts' /\ is_sym c = true /\ (c = 62 -> head l' <> Some 62) /\ lexes l' ts') \/
  (exists l' ts', l = 62 :: 62 :: l' /\ ts = TApp :: ts' /\ lexes l' ts') \/
  (exists w l' ts', l = w ++ l' /\ ts = TWord w :: ts' /\ word w /\ (forall c, head l' = Some c -> ordinary c = false) /\ lexes l' ts').
Proof.
  intros H Hc. destruct H as [|c l ts Hw H|c l ts Hs Hn H|l ts Hh H|l ts H|w l ts Hw Hh H].
  - by left.
  - exfalso. specialize (Hc c eq_refl). congruence.
  - right. left. exists c, l, ts. done.
  - right. left. exists 62, l, ts. done.
  - right. right. left. eauto.
  - right. right. right. exists w, l, ts. done.
Qed.

Lemma lexes_total_n n : forall l, (length l <= n)%nat -> Forall (fun c => c <> 0) l -> exists ts, lexes l ts /\ (length ts <= length l)%nat.
Proof.
  induction n as [|n IH]; intros [|c l] Hl H0; cbn in Hl; [|lia| |]; [exists []; split; [apply lx_nil|cbn; lia]..|].
  apply Forall_cons in H0 as [N0 H0].
  destruct (is_ws c) eqn:Ew; [destruct (IH l ltac:(lia) H0) as (ts & Hts & Hle); exists ts; split; [by constructor|cbn; lia]|].
  destruct (is_sym c) eqn:Es.
  - destruct (decide (c = 62)) as [->|N].
    + destruct l as [|c2 l]; [exists [TSym 62]; split; [apply lx_gt; [done|apply lx_nil]|cbn; lia]|].
      destruct (decide (c2 = 62)) as [->|N2].
      * apply Forall_cons in H0 as [_ H0]. destruct (IH l ltac:(cbn in Hl; lia) H0) as (ts & Hts & Hle).
        exists (TApp :: ts). split; [by constructor|cbn; lia].
      * destruct (IH (c2 :: l) ltac:(lia) H0) as (ts & Hts & Hle).
        exists (TSym 62 :: ts). split; [constructor; [cbn; congruence|done]|cbn in *; lia].
    + destruct (IH l ltac:(lia) H0) as (ts & Hts & Hle). exists (TSym c :: ts). split; [by constructor|cbn; lia].
  - assert (exists w l', l = w ++ l' /\ Forall (fun c => ordinary c = true) w /\ forall c, head l' = Some c -> ordinary c = false) as (w & l' & -> & Hw & Hh).
    { clear -l. induction l as [|c l (w & l' & -> & Hw & Hh)]; [exists [], []; done|].
      destruct (ordinary c) eqn:E; [exists (c :: w), l'; by rewrite Forall_cons|].
      exists [], (c :: w ++ l'). split_and!; [done|done|]. by intros ? [= <-]. }
    apply Forall_app in H0 as [_ H0]. rewrite length_app in Hl. destruct (IH l' ltac:(lia) H0) as (ts & Hts & Hle).
    exists (TWord (c :: w) :: ts). split; [|cbn; rewrite length_app; lia]. apply (lx_word (c :: w)); [|done|done].
    split; [done|]. apply Forall_cons. split; [|done]. by apply ordinary_split.
Qed.

(** Every line has a sequence of tokens, no longer than itself. *)
Lemma lexes_total l : Forall (fun c => c <> 0) l -> exists ts, lexes l ts /\ (length ts <= length l)%nat.
Proof. by apply (lexes_total_n (length l)). Qed.

Lemma lexes_ws_inv c l ts : is_ws c = true -> lexes (c :: l) ts -> lexes l ts.
Proof.
  intros Hw H. inversion H as [|? ? ? _ H'|? ? ? Hs _ _|? ? _ _|? ? _|w ? ? [Hn HF] _ _ E]; subst.
  - done.
  - apply ws_not_sym in Hw. congruence.
  - done.
  - done.
  - destruct w as [|x w]; [done|]. cbn in E. injection E as -> _. apply Forall_cons in HF as [HF _].
    apply ordinary_split in HF as (_ & HF & _). congruence.
Qed.

(** ** Positions *)

Section positions.
Context (buf : list Z) (Hnul : Forall (fun c => c <> 0) buf).

(** The tokens from position [s] on. *)
Definition toks_at (s : nat) (ts : list tok) : Prop := (s <= es buf)%nat /\ lexes (drop s buf) ts.
(** [q] and [eq] delimit the word [w]. *)
Definition word_at (p : nat * nat) (w : list Z) : Prop :=
  exists l, drop p.1 buf = w ++ l /\ p.2 = (p.1 + length w)%nat /\ word w /\ forall c, head l = Some c -> ordinary c = false.

Lemma char_at_drop s : char_at buf s = default 0 (head (drop s buf)).
Proof.
  unfold char_at. rewrite nth_lookup, head_lookup, lookup_drop, Nat.add_0_r. done.
Qed.
Lemma char_at_end s : char_at buf s = 0 <-> (es buf <= s)%nat.
Proof.
  unfold char_at, es. rewrite nth_lookup. destruct (buf !! s) as [c|] eqn:E; cbn.
  - rewrite Forall_lookup in Hnul. specialize (Hnul s c E). apply lookup_lt_Some in E. split; [done|lia].
  - apply lookup_ge_None in E. done.
Qed.
Lemma drop_char s : (s < es buf)%nat -> drop s buf = char_at buf s :: drop (S s) buf.
Proof.
  intros H. unfold es in H. destruct (lookup_lt_is_Some_2 buf s H) as [c Hc]. rewrite (drop_S buf c s Hc). f_equal.
  unfold char_at. by rewrite nth_lookup, Hc.
Qed.

Lemma scan_ws n s ts : (es buf - s <= n)%nat -> toks_at s ts ->
  toks_at (scan buf n is_ws s) ts /\ forall c, head (drop (scan buf n is_ws s) buf) = Some c -> is_ws c = false.
Proof.
  revert s. induction n as [|n IH]; intros s Hn [Hs H]; cbn [scan].
  - split; [done|]. intros c. rewrite drop_ge by (unfold es in *; lia). done.
  - destruct (Nat.ltb_spec s (es buf)) as [Hlt|Hge]; cbn [andb].
    + pose proof H as H'. rewrite drop_char in H' by done. destruct (is_ws (char_at buf s)) eqn:E.
      * apply IH; [lia|]. split; [lia|]. by apply lexes_ws_inv in H'.
      * split; [done|]. intros c. rewrite drop_char by done. by intros [= <-].
    + split; [done|]. intros c. rewrite drop_ge by done. done.
Qed.

Lemma skip_ws_spec s ts : toks_at s ts ->
  toks_at (skip_ws buf s) ts /\ forall c, head (drop (skip_ws buf s) buf) = Some c -> is_ws c = false.
Proof. intros H. by apply scan_ws. Qed.

Lemma scan_word w l : forall n s, (es buf - s <= n)%nat -> drop s buf = w ++ l -> Forall (fun c => ordinary c = true) w ->
  (forall c, head l = Some c -> ordinary c = false) ->
  scan buf n (fun c => negb (is_ws c) && negb (is_sym c)) s = (s + length w)%nat.
Proof.
  assert (forall s, (s < es buf)%nat -> ordinary (char_at buf s) = negb (is_ws (char_at buf s)) && negb (is_sym (char_at buf s))) as Ho.
  { intros s Hs. unfold ordinary. destruct (Z.eqb_spec (char_at buf s) 0) as [E|_]; [apply char_at_end in E; lia|done]. }
  induction w as [|c w IH]; intros n s Hn Hd Hw Hh; cbn [length].
  - rewrite Nat.add_0_r. destruct n; cbn [scan]; [done|]. destruct (Nat.ltb_spec s (es buf)) as [Hlt|Hge]; cbn [andb]; [|done].
    rewrite <- Ho by done. rewrite Hh; [done|]. cbn in Hd. rewrite <- Hd, drop_char by done. done.
  - assert (s < es buf)%nat as Hlt. { apply (f_equal length) in Hd. rewrite length_drop in Hd. cbn in Hd. unfold es. lia. }
    apply Forall_cons in Hw as [Hc Hw]. destruct n; [lia|]. cbn [scan].
    rewrite drop_char in Hd by done. injection Hd as E Hd. destruct (Nat.ltb_spec s (es buf)); [|lia]. rewrite <- Ho by done.
    rewrite E, Hc. cbn [andb]. rewrite (IH n (S s)); [lia|lia|done|done|done].
Qed.

Lemma toks_app s p l ts : (s <= es buf)%nat -> drop s buf = p ++ l -> lexes l ts -> toks_at (s + length p) ts.
Proof.
  intros Hs E H. split.
  - apply (f_equal length) in E. rewrite length_drop, length_app in E. unfold es in *. lia.
  - rewrite <- drop_drop, E, drop_app_length. done.
Qed.

Lemma toks_step s ts : toks_at s ts -> toks_at (skip_ws buf s) ts.
Proof. intros H. by apply skip_ws_spec. Qed.

Lemma char_at_head s c l : drop s buf = c :: l -> char_at buf s = c.
Proof. intros E. by rewrite char_at_drop, E. Qed.

Lemma ordinary_codes c : ordinary c = true -> (c =? 0) = false /\ sstrchr [124; 40; 41; 59; 38; 60] c = false /\ (c =? 62) = false.
Proof.
  intros (N0 & _ & Hs)%ordinary_split. apply not_true_iff_false in Hs. unfold is_sym, symbols in Hs. rewrite sstrchr_elem in Hs.
  split_and!; [by apply Z.eqb_neq| |apply Z.eqb_neq; set_solver]. apply not_true_iff_false. rewrite sstrchr_elem. set_solver.
Qed.
Lemma sym_codes c : is_sym c = true -> (c =? 0) = false /\ (c <> 62 -> sstrchr [124; 40; 41; 59; 38; 60] c = true).
Proof.
  unfold is_sym, symbols. rewrite !sstrchr_elem. intros H. split; [apply Z.eqb_neq; set_unfold in H; naive_solver|].
  intros N. set_unfold in H. set_unfold. naive_solver.
Qed.

(** gettoken takes the next token, or returns 0 at the end. *)
Lemma gettoken_wp s ts :
  toks_at s ts ->
  wp (gettoken buf) (fun r s' =>
    match ts with
    | [] => r.1.1 = 0 /\ toks_at s' []
    | t :: ts' => r.1.1 = tok_code t /\ toks_at s' ts' /\ forall w, t = TWord w -> word_at (r.1.2, r.2) w
    end) s.
Proof.
  intros H. unfold gettoken. apply wp_bind, wp_gets. cbv zeta. destruct (skip_ws_spec s ts H) as [[Hs HL] Hc]. set (p := skip_ws buf s) in *.
  clearbody p. clear H. destruct (lexes_clean _ _ HL Hc) as [[E ->]|[(c & l & ts' & E & -> & Hsym & Hgt & HL')|[(l & ts' & E & -> & HL')|(w & l & ts' & E & -> & Hw & Hh & HL')]]].
  - assert (char_at buf p = 0) as -> by (by rewrite char_at_drop, E). cbn. wp_steps. cbn. split; [done|]. by apply toks_step.
  - destruct (sym_codes c Hsym) as [N0 Hin]. rewrite (char_at_head p c l E). rewrite N0.
    assert (toks_at (p + length [c]) ts') as HT by (by apply (toks_app p [c] l)). cbn [length] in HT. rewrite Nat.add_1_r in HT.
    destruct (decide (c = 62)) as [->|N].
    + change (sstrchr _ 62) with false. cbn [Z.eqb Pos.eqb].
      assert ((char_at buf (S p) =? 62) = false) as ->.
      { apply Z.eqb_neq. intros Hx. apply (Hgt eq_refl). destruct HT as [HTs _]. assert (drop (S p) buf = l) as Hd.
        { rewrite <- Nat.add_1_r, <- drop_drop, E. done. }
        rewrite char_at_drop, Hd in Hx. by destruct l as [|x l]; cbn in Hx |- *; [lia|f_equal]. }
      cbv iota beta. wp_steps. cbn. split; [done|]. split; [by apply toks_step|done].
    + rewrite Hin by done. cbv iota beta. wp_steps. cbn. split; [done|]. split; [by apply toks_step|done].
  - rewrite (char_at_head p 62 (62 :: l) E). change (sstrchr _ 62) with false. cbn [Z.eqb Pos.eqb].
    assert (toks_at (p + length [62; 62]) ts') as HT by (by apply (toks_app p [62; 62] l)). cbn [length] in HT. rewrite Nat.add_comm in HT. cbn in HT.
    assert (char_at buf (S p) = 62) as ->.
    { apply (char_at_head (S p) 62 l). rewrite <- Nat.add_1_r, <- drop_drop, E. done. }
    cbn. wp_steps. cbn. split; [done|]. split; [by apply toks_step|done].
  - pose proof Hw as [Hn HF]. destruct w as [|c w]; [done|]. pose proof HF as HF'. apply Forall_cons in HF' as [Hoc _].
    destruct (ordinary_codes c Hoc) as (N0 & N1 & N2). rewrite (char_at_head p c (w ++ l) E), N0, N1, N2.
    assert (skip_word buf p = (p + length (c :: w))%nat) as -> by (by apply (scan_word (c :: w) l)).
    cbv iota beta. wp_steps. cbn [fst snd]. split; [done|]. split; [apply toks_step; by apply (toks_app p (c :: w) l)|].
    intros w' [= <-]. exists l. done.
Qed.

(** peek looks at the first character of the next token. *)
Lemma peek_wp T s ts : toks_at s ts -> wp (peek buf T) (fun b s' => b = peeks T ts /\ toks_at s' ts) s.
Proof.
  intros H. unfold peek. wp_steps. destruct (skip_ws_spec s ts H) as [HT Hc]. split; [|done]. unfold id. set (p := skip_ws buf s) in *.
  clearbody p. destruct HT as [Hs HL]. clear H s.
  destruct (lexes_clean _ _ HL Hc) as [[E ->]|[(c & l & ts' & E & -> & Hsym & _)|[(l & ts' & E & -> & HL')|(w & l & ts' & E & -> & Hw & _)]]]; cbn [peeks tok_char].
  - by rewrite char_at_drop, E.
  - rewrite (char_at_head p c l E). by rewrite (proj1 (sym_codes c Hsym)).
  - by rewrite (char_at_head p 62 (62 :: l) E).
  - destruct Hw as [Hn HF]. destruct w as [|c w]; [done|]. apply Forall_cons in HF as [Hoc _].
    rewrite (char_at_head p c (w ++ l) E). by rewrite (proj1 (ordinary_codes c Hoc)).
Qed.

(** Words do not start with a symbol. *)
Lemma peeks_word T w ts : word w -> (forall c, c ∈ T -> is_sym c = true) -> peeks T (TWord w :: ts) = false.
Proof.
  intros [Hn HF] HT. destruct w as [|c w]; [done|]. cbn. apply not_true_iff_false. rewrite sstrchr_elem. intros Hin.
  apply Forall_cons in HF as [Hc _]. apply ordinary_split in Hc as (_ & _ & Hc). rewrite HT in Hc; done.
Qed.
End positions.
