(* ===== verification/ShSpec.v ===== *)
(** * The shell's parser: what it accepts, and that it ends

    Commands as trees of words ([acmd]) with a printer that puts parentheses
    where the grammar needs them; the parser inverts it.  On any line the
    parser ends, with a command whose strings are words of the line or with
    one of four messages. *)
From stdpp Require Import base tactics numbers list strings sets.
From Stdlib Require Import ZArith Lia.
From S2P Require Import Prelude Sh ShLex.

Open Scope Z_scope.

(** ** Commands *)

Inductive acmd :=
  | AExec (args : list (list Z))
  | ARedir (a : acmd) (file : list Z) (mode fd : Z)
  | APipe (a b : acmd)
  | AList (a b : acmd)
  | ABack (a : acmd).

Definition TRUNC : Z := Z.lor (Z.lor O_WRONLY O_CREATE) O_TRUNC.
Definition APPEND : Z := Z.lor O_WRONLY O_CREATE.
Definition redir_ok (mode fd : Z) : Prop := (mode, fd) ∈ [(O_RDONLY, 0); (TRUNC, 1); (APPEND, 1)].

(** What the shell can express: at most MAXARGS - 1 words in a command. *)
Fixpoint good (a : acmd) : Prop :=
  match a with
  | AExec args => Forall word args /\ Z.of_nat (length args) < MAXARGS
  | ARedir a f mode fd => good a /\ word f /\ redir_ok mode fd
  | APipe a b | AList a b => good a /\ good b
  | ABack a => good a
  end.

Definition redir_tok (mode : Z) : tok := if mode =? O_RDONLY then TSym 60 else if mode =? TRUNC then TSym 62 else TApp.
Definition paren (ts : list tok) : list tok := TSym 40 :: ts ++ [TSym 41].

(** The levels of the grammar: 0 for a line, 1 for a line without ";", 2 for
    a pipeline, 3 for a single command. *)
Definition level (a : acmd) : nat := match a with AList _ _ => 0 | ABack _ => 1 | APipe _ _ => 2 | _ => 3 end.
Definition at_level (p n : nat) (ts : list tok) : list tok := if (n <? p)%nat then paren ts else ts.
Fixpoint show (p : nat) (a : acmd) : list tok :=
  at_level p (level a)
    match a with
    | AExec args => map TWord args
    | ARedir a f mode fd => show 3 a ++ [redir_tok mode; TWord f]
    | APipe a b => show 3 a ++ TSym 124 :: show 2 b
    | AList a b => show 1 a ++ TSym 59 :: show 0 b
    | ABack a => show 1 a ++ [TSym 38]
    end.

(** ** Reading a command back from the line *)

Fixpoint cstr (l : list Z) : list Z := match l with [] => [] | c :: l => if c =? 0 then [] else c :: cstr l end.
Definition string_at (b : list Z) (q : nat) : list Z := cstr (drop q b).
Fixpoint decode (b : list Z) (c : cmd) : acmd :=
  match c with
  | EXEC argv => AExec (map (fun p => string_at b p.1) argv)
  | REDIR c file efile mode fd => ARedir (decode b c) (string_at b file) mode fd
  | PIPE l r => APipe (decode b l) (decode b r)
  | LIST l r => AList (decode b l) (decode b r)
  | BACK c => ABack (decode b c)
  end.

(** The parser's tree [c] is the command [a]. *)
Fixpoint tree_of (buf : list Z) (c : cmd) (a : acmd) : Prop :=
  match c, a with
  | EXEC argv, AExec args => Forall2 (word_at buf) argv args
  | REDIR c f e mode fd, ARedir a w mode' fd' => tree_of buf c a /\ word_at buf (f, e) w /\ mode = mode' /\ fd = fd'
  | PIPE l r, APipe a b | LIST l r, AList a b => tree_of buf l a /\ tree_of buf r b
  | BACK c, ABack a => tree_of buf c a
  | _, _ => False
  end.

(** ** nulterminate *)

(** The ends of the strings of a command. *)
Fixpoint ends (c : cmd) : list nat :=
  match c with
  | EXEC argv => map snd argv
  | REDIR c _ e _ _ => ends c ++ [e]
  | PIPE l r | LIST l r => ends l ++ ends r
  | BACK c => ends c
  end.
Definition nul_at (es : list nat) (b : list Z) : list Z := foldl (fun b e => <[e := 0]> b) b es.

Lemma nulterminate_ends c b : nulterminate c b = nul_at (ends c) b.
Proof.
  revert b. induction c as [argv|c IH f e m fd|l IHl r IHr|l IHl r IHr|c IH]; intros b; cbn.
  - unfold nul_at. revert b. induction argv as [|[q e] argv IH]; intros b; cbn; [done|]. apply IH.
  - rewrite IH. unfold nul_at. by rewrite foldl_app.
  - rewrite IHl, IHr. unfold nul_at. by rewrite foldl_app.
  - rewrite IHl, IHr. unfold nul_at. by rewrite foldl_app.
  - apply IH.
Qed.

Lemma nul_at_lookup es b i : (i ∉ es) -> nul_at es b !! i = b !! i.
Proof.
  revert b. induction es as [|e es IH]; intros b Hi; cbn; [done|]. rewrite not_elem_of_cons in Hi. destruct Hi as [N Hi].
  unfold nul_at in IH. rewrite IH by done. by rewrite list_lookup_insert_ne.
Qed.
Lemma nul_at_length es b : length (nul_at es b) = length b.
Proof. revert b. induction es as [|e es IH]; intros b; cbn; [done|]. unfold nul_at in IH. by rewrite IH, length_insert. Qed.
Lemma nul_at_zero es b i : i ∈ es -> (i < length b)%nat -> nul_at es b !! i = Some 0.
Proof.
  revert b. induction es as [|e es IH]; intros b; [set_solver|]. intros Hi Hl. change (nul_at (e :: es) b) with (nul_at es (<[e := 0]> b)).
  destruct (decide (i ∈ es)) as [Hin|Hn]; [apply IH; [done|by rewrite length_insert]|].
  assert (i = e) as -> by set_solver. rewrite (nul_at_lookup es _ e Hn). by apply list_lookup_insert_eq.
Qed.

Lemma cstr_word w l : Forall (fun c => c <> 0) w -> cstr (w ++ 0 :: l) = w.
Proof. induction 1 as [|c w Hc Hw IH]; cbn; [done|]. destruct (Z.eqb_spec c 0); [done|]. by rewrite IH. Qed.

Section line.
Context (buf : list Z) (Hnul : Forall (fun c => c <> 0) buf).

(** The byte behind a word does not belong to a word. *)
Lemma word_at_end p w i : word_at buf p w -> (p.1 <= i < p.2)%nat <-> (p.1 <= i)%nat /\ exists c, w !! (i - p.1)%nat = Some c /\ buf !! i = Some c /\ ordinary c = true.
Proof.
  intros (l & Hd & He & [_ Hw] & _). split.
  - intros Hi. split; [lia|]. destruct (lookup_lt_is_Some_2 w (i - p.1)%nat ltac:(lia)) as [c Hc]. exists c. split; [done|].
    rewrite Forall_lookup in Hw. split; [|by eapply Hw]. replace i with (p.1 + (i - p.1))%nat at 1 by lia.
    rewrite <- lookup_drop, Hd. by rewrite lookup_app_l by (apply lookup_lt_is_Some; eauto).
  - intros [Hi (c & Hc & _)]. apply lookup_lt_Some in Hc. lia.
Qed.

Lemma end_not_ordinary p w c : word_at buf p w -> buf !! p.2 = Some c -> ordinary c = false.
Proof.
  intros (l & Hd & He & _ & Hh) Hc. apply Hh. rewrite head_lookup. rewrite He, <- lookup_drop, Hd in Hc.
  by rewrite lookup_app_r, Nat.sub_diag in Hc by done.
Qed.

Lemma word_at_bound p w : word_at buf p w -> (p.2 <= length buf)%nat.
Proof.
  intros (l & Hd & He & [Hn _] & _). apply (f_equal length) in Hd. rewrite length_drop, length_app in Hd. destruct w; [done|]. cbn in *. lia.
Qed.

(** Whatever other words end where, a word that is terminated reads back. *)
Lemma string_at_word es p w :
  word_at buf p w -> p.2 ∈ es -> Forall (fun e => exists p' w', word_at buf p' w' /\ p'.2 = e) es ->
  string_at (nul_at es (buf ++ [0])) p.1 = w.
Proof.
  intros Hp He Hall. pose proof (word_at_bound p w Hp) as Hb. pose proof Hp as (l & Hd & E2 & [_ Hw] & _). unfold string_at.
  set (b := nul_at es (buf ++ [0])).
  assert (b !! p.2 = Some 0) as Hz by (apply nul_at_zero; [done|rewrite length_app; cbn; lia]).
  assert (drop p.1 b = w ++ 0 :: drop (S p.2) b) as ->.
  { rewrite <- (drop_S b 0 p.2 Hz). replace p.2 with (p.1 + length w)%nat by done. rewrite <- drop_drop.
    rewrite <- (take_drop (length w) (drop p.1 b)) at 1. f_equal. apply list_eq. intros i.
    destruct (decide (i < length w)%nat) as [Hi|Hi].
    - rewrite lookup_take, decide_True, lookup_drop by done. unfold b. rewrite nul_at_lookup.
      + destruct (proj1 (word_at_end p w (p.1 + i) Hp) ltac:(lia)) as (_ & c & Hc & Hbc & _).
        replace (p.1 + i - p.1)%nat with i in Hc by lia. rewrite lookup_app_l by (by eapply lookup_lt_Some). by rewrite Hbc, Hc.
      + intros Hin. rewrite Forall_forall in Hall. destruct (Hall _ Hin) as (p' & w' & Hp' & Hx).
        destruct (proj1 (word_at_end p w (p.1 + i) Hp) ltac:(lia)) as (_ & c & _ & Hbc & Ho). rewrite <- Hx in Hbc.
        rewrite (end_not_ordinary p' w' c Hp' Hbc) in Ho. done.
    - rewrite lookup_take_ge by lia. symmetry. apply lookup_ge_None. lia. }
  apply cstr_word. eapply Forall_impl; [exact Hw|]. intros c Hc. by apply ordinary_split in Hc as [Hc _].
Qed.

Lemma tree_ends c a : tree_of buf c a -> Forall (fun e => exists p' w', word_at buf p' w' /\ p'.2 = e) (ends c).
Proof.
  revert a. induction c as [argv|c IH f e m fd|l IHl r IHr|l IHl r IHr|c IH]; intros [args|a w m' fd'|a b|a b|a] H; cbn in *; try done.
  - apply Forall_map. induction H; constructor; [|done]. eauto.
  - destruct H as (H & Hw & _). apply Forall_app. split; [by eapply IH|]. rewrite Forall_cons, Forall_nil. split; [|done]. by exists (f, e), w.
  - destruct H. apply Forall_app. eauto.
  - destruct H. apply Forall_app. eauto.
  - eauto.
Qed.

Lemma decode_tree c a es :
  tree_of buf c a -> ends c ⊆ es -> Forall (fun e => exists p' w', word_at buf p' w' /\ p'.2 = e) es ->
  decode (nul_at es (buf ++ [0])) c = a.
Proof.
  intros H Hs Hall. revert a H Hs.
  induction c as [argv|c IH f e m fd|l IHl r IHr|l IHl r IHr|c IH]; intros [args|a w m' fd'|a b|a b|a] H Hs; cbn in *; try done.
  - f_equal. induction H as [|p w argv args Hp HF IH]; cbn in *; [done|]. f_equal; [|apply IH; set_solver].
    apply string_at_word; [done|set_solver|done].
  - destruct H as (H & Hw & -> & ->). f_equal; [apply IH; [done|set_solver]|]. apply (string_at_word es (f, e)); [done|set_solver|done].
  - destruct H. f_equal; [apply IHl|apply IHr]; (done || set_solver).
  - destruct H. f_equal; [apply IHl|apply IHr]; (done || set_solver).
  - f_equal. by apply IH.
Qed.

(** After nulterminate the tree reads as the command. *)
Lemma decode_nulterminate c a : tree_of buf c a -> decode (nulterminate c (buf ++ [0])) c = a.
Proof. intros H. rewrite nulterminate_ends. apply decode_tree; [done|done|by eapply tree_ends]. Qed.
End line.

Definition parse_errors : list string :=
  ["syntax"; "missing file for redirection"; "syntax - missing )"; "too many args"]%string.

(** Returns, or gives up with one of the messages above. *)
Definition wx {A} (c : M nat A) (Q : A -> nat -> Prop) (s : nat) : Prop :=
  match c s with Ret a s' => Q a s' | Panic msg => msg ∈ parse_errors | NoFuel => False end.

Lemma wx_bind {A B} (c : M nat A) (f : A -> M nat B) Q s : wx c (fun a => wx (f a) Q) s -> wx (c ≫= f) Q s.
Proof. unfold wx, mbind, M_bind. destruct (c s); done. Qed.
Lemma wx_mono {A} (c : M nat A) (Q Q' : A -> nat -> Prop) s : wx c Q s -> (forall a s', Q a s' -> Q' a s') -> wx c Q' s.
Proof. unfold wx. destruct (c s); eauto. Qed.
Lemma wx_call {A B} (c : M nat A) (f : A -> M nat B) (P : A -> nat -> Prop) Q s :
  wx c P s -> (forall a s', P a s' -> wx (f a) Q s') -> wx (c ≫= f) Q s.
Proof. intros H1 H2. eapply wx_bind, wx_mono; eauto. Qed.
Lemma wp_wx {A} (c : M nat A) (Q : A -> nat -> Prop) s : wp c Q s -> wx c Q s.
Proof. unfold wp, wx. by destruct (c s). Qed.
Lemma wx_ret {A} (a : A) (Q : A -> nat -> Prop) s : Q a s -> wx (mret a) Q s.
Proof. done. Qed.
Lemma wx_panic {A} msg (Q : A -> nat -> Prop) s : msg ∈ parse_errors -> wx (panic msg) Q s.
Proof. done. Qed.

Ltac parse_error := apply wx_panic; unfold parse_errors; set_solver.

Lemma lexes_length l ts : lexes l ts -> (length ts <= length l)%nat.
Proof.
  induction 1 as [|c l ts _ _ IH|c l ts _ _ _ IH|l ts _ _ IH|l ts _ IH|w l ts [Hw _] _ _ IH]; cbn; try lia.
  rewrite length_app. destruct w; [done|cbn; lia].
Qed.

Section total.
Context (buf : list Z) (Hnul : Forall (fun c => c <> 0) buf).

Lemma toks_length s ts : toks_at buf s ts -> (length ts <= es buf)%nat.
Proof. intros [_ H]. apply lexes_length in H. rewrite length_drop in H. unfold es. lia. Qed.

Lemma wx_peek {B} T (f : bool -> M nat B) Q s ts :
  toks_at buf s ts -> (forall s', toks_at buf s' ts -> wx (f (peeks T ts)) Q s') -> wx (peek buf T ≫= f) Q s.
Proof. intros H HQ. eapply wx_call; [apply wp_wx; by apply (peek_wp buf Hnul T)|]. cbv beta. intros b s' [-> H']. by apply HQ. Qed.

Lemma wx_token {B} (f : Z * nat * nat -> M nat B) Q s t ts :
  toks_at buf s (t :: ts) ->
  (forall q e s', toks_at buf s' ts -> (forall w, t = TWord w -> word_at buf (q, e) w) -> wx (f (tok_code t, q, e)) Q s') ->
  wx (gettoken buf ≫= f) Q s.
Proof.
  intros H HQ. eapply wx_call; [apply wp_wx; by apply (gettoken_wp buf Hnul s (t :: ts))|]. cbv beta. intros [[r q] e] s' (E & H' & Hw).
  cbn in *. subst r. by apply HQ.
Qed.
Lemma wx_token_end {B} (f : Z * nat * nat -> M nat B) Q s :
  toks_at buf s [] -> (forall q e s', toks_at buf s' [] -> wx (f (0, q, e)) Q s') -> wx (gettoken buf ≫= f) Q s.
Proof.
  intros H HQ. eapply wx_call; [apply wp_wx; by apply (gettoken_wp buf Hnul s [])|]. cbv beta. intros [[r q] e] s' (E & H').
  cbn in *. subst r. by apply HQ.
Qed.

(** The number of words of the command below the redirections. *)
Fixpoint nargs (a : acmd) : option nat := match a with AExec args => Some (length args) | ARedir a _ _ _ => nargs a | _ => None end.
Fixpoint add_word (w : list Z) (a : acmd) : acmd :=
  match a with AExec args => AExec (args ++ [w]) | ARedir a f m fd => ARedir (add_word w a) f m fd | _ => a end.

Lemma add_arg_tree q e w c a : tree_of buf c a -> word_at buf (q, e) w -> tree_of buf (add_arg q e c) (add_word w a).
Proof.
  revert a. induction c as [argv|c IH f e' m fd|l IHl r IHr|l IHl r IHr|c IH]; intros [args|a w' m' fd'|a b|a b|a] H Hw; cbn in *; try done.
  - apply Forall2_app; [done|]. by constructor.
  - destruct H as (H & H'). split; [by apply IH|done].
Qed.
Lemma add_word_good w a n : good a -> word w -> nargs a = Some n -> Z.of_nat n + 1 < MAXARGS ->
  good (add_word w a) /\ nargs (add_word w a) = Some (S n).
Proof.
  induction a as [args|a IH f m fd|a _ b _|a _ b _|a _]; cbn; try done.
  - intros [H _] Hw [= <-] Hn. rewrite length_app. cbn. split; [|f_equal; lia]. split; [|lia]. apply Forall_app. split; [done|].
    by apply Forall_cons.
  - intros (H & H') Hw Hn Hm. destruct (IH H Hw Hn Hm). done.
Qed.

(** What each part of the parser returns, with the tokens that are left. *)
Definition parsed (ts : list tok) (k : option nat) (c : cmd) (s : nat) : Prop :=
  exists a ts', tree_of buf c a /\ good a /\ toks_at buf s ts' /\ (length ts' <= length ts)%nat /\ (is_Some k -> nargs a = k).

Lemma word_of_code t : tok_code t = 97 -> (exists w, t = TWord w) \/ t = TSym 97.
Proof. destruct t as [c| |w]; cbn; [intros ->; by right|done|eauto]. Qed.
Lemma toks_head s t ts : toks_at buf s (t :: ts) -> match t with TSym c => is_sym c = true | TApp => True | TWord w => word w end.
Proof.
  intros [_ H]. remember (t :: ts) as ts0 eqn:E. induction H; try done; try (injection E as <- <-; done). by apply IHlexes.
Qed.

Lemma redirs_wx n : forall s ts c a, toks_at buf s ts -> (length ts <= n)%nat -> tree_of buf c a -> good a ->
  wx (redirs_loop buf n c) (parsed ts (nargs a)) s.
Proof.
  induction n as [n IH] using lt_wf_ind. intros s ts c a H Hn Ht Hg.
  assert (forall s', toks_at buf s' ts -> parsed ts (nargs a) c s') as Hstop by (intros s' H'; exists a, ts; done).
  destruct n as [|n]; cbn [redirs_loop]; apply (wx_peek _ _ _ _ ts H); intros s1 H1.
  { destruct ts; [|cbn in Hn; lia]. apply wx_ret. by apply Hstop. }
  destruct (peeks _ ts) eqn:Ep; cbn [negb]; [|apply wx_ret; by apply Hstop].
  destruct ts as [|t ts]; [done|]. apply (wx_token _ _ _ t ts H1). intros _ _ s2 H2 _.
  destruct ts as [|t2 ts].
  { apply (wx_token_end _ _ _ H2). intros. parse_error. }
  apply (wx_token _ _ _ t2 ts H2). intros q e s3 H3 Hw. destruct (Z.eqb_spec (tok_code t2) 97) as [E|]; cbn [negb]; [|parse_error].
  pose proof (toks_head _ _ _ H2) as Hok. apply word_of_code in E as [[w ->]| ->]; [|done].
  assert (forall m fd, redir_ok m fd -> wx (redirs_loop buf n (REDIR c q e m fd)) (parsed (t :: TWord w :: ts) (nargs a)) s3) as Hr.
  { intros m fd Hm. eapply wx_mono; [apply (IH n ltac:(lia) s3 ts _ (ARedir a w m fd)); [done|cbn in Hn; lia| |]|].
    - cbn. split; [done|]. split; [by apply Hw|done].
    - done.
    - intros c' s' (a' & ts' & T1 & T2 & T3 & T4 & T5). exists a', ts'. cbn in *. split_and!; try done. lia. }
  destruct (_ =? 60); [apply Hr; unfold redir_ok; set_solver|]. destruct (_ =? 62); [apply Hr; unfold redir_ok; set_solver|]. destruct (_ =? 43); [apply Hr; unfold redir_ok; set_solver|].
  eapply wx_mono; [apply (IH n ltac:(lia) s3 ts c a); [done|cbn in Hn; lia|done|done]|].
  intros c' s' (a' & ts' & T1 & T2 & T3 & T4 & T5). exists a', ts'. cbn in *. split_and!; try done. lia.
Qed.

Lemma parseredirs_wx s ts c a : toks_at buf s ts -> tree_of buf c a -> good a -> wx (parseredirs buf c) (parsed ts (nargs a)) s.
Proof. intros H. apply redirs_wx; [done|by eapply toks_length]. Qed.

Lemma args_wx n : forall s ts c a k, toks_at buf s ts -> (length ts < n)%nat -> tree_of buf c a -> good a ->
  nargs a = Some k -> wx (args_loop buf n (Z.of_nat k) c) (parsed ts None) s.
Proof.
  induction n as [|n IH]; intros s ts c a k H Hn Ht Hg Hk; [lia|]. cbn [args_loop].
  assert (forall s', toks_at buf s' ts -> parsed ts None c s') as Hstop by (intros s' H'; exists a, ts; split_and!; try done; by intros []).
  apply (wx_peek _ _ _ _ ts H). intros s1 H1. destruct (peeks _ ts); [apply wx_ret; by apply Hstop|].
  destruct ts as [|t ts].
  { apply (wx_token_end _ _ _ H1). intros q e s2 H2. apply wx_ret. by apply Hstop. }
  pose proof (toks_head _ _ _ H1) as Hok. apply (wx_token _ _ _ t ts H1). intros q e s2 H2 Hw.
  destruct (Z.eqb_spec (tok_code t) 0) as [E|_]; [by destruct t; cbn in E; subst|].
  destruct (Z.eqb_spec (tok_code t) 97) as [E|]; cbn [negb]; [|parse_error]. apply word_of_code in E as [[w ->]| ->]; [|done].
  destruct (Z.leb_spec MAXARGS (Z.of_nat k + 1)); [parse_error|].
  destruct (add_word_good w a k) as [Hg' Hk']; try done.
  eapply wx_call; [apply (parseredirs_wx s2 ts _ (add_word w a)); [done|by apply add_arg_tree; [|apply Hw]|done]|].
  cbv beta. intros c' s3 (a' & ts' & T1 & T2 & T3 & T4 & T5). rewrite Hk' in T5. replace (Z.of_nat k + 1) with (Z.of_nat (S k)) by lia.
  eapply wx_mono; [apply (IH s3 ts' c' a' (S k)); [done|cbn in Hn; lia|done|done|apply T5; eauto]|].
  intros c2 s4 (a2 & ts2 & U1 & U2 & U3 & U4 & U5). exists a2, ts2. split_and!; try done. cbn. lia.
Qed.

Lemma back_wx n : forall s ts c a, toks_at buf s ts -> (length ts <= n)%nat -> tree_of buf c a -> good a ->
  wx (back_loop buf n c) (parsed ts None) s.
Proof.
  induction n as [|n IH]; intros s ts c a H Hn Ht Hg;
    (assert (forall s', toks_at buf s' ts -> parsed ts None c s') as Hstop by (intros s' H'; exists a, ts; split_and!; try done; by intros []));
    cbn [back_loop]; apply (wx_peek _ _ _ _ ts H); intros s1 H1.
  { destruct ts; [|cbn in Hn; lia]. apply wx_ret. by apply Hstop. }
  destruct (peeks _ ts) eqn:Ep; cbn [negb]; [|apply wx_ret; by apply Hstop]. destruct ts as [|t ts]; [done|].
  apply (wx_token _ _ _ t ts H1). intros q e s2 H2 _.
  eapply wx_mono; [apply (IH s2 ts (BACK c) (ABack a)); try done; cbn in Hn; lia|].
  intros c2 s4 (a2 & ts2 & U1 & U2 & U3 & U4 & U5). exists a2, ts2. split_and!; try done. cbn. lia.
Qed.

Lemma parsed_mono ts ts' k c s : parsed ts k c s -> (length ts <= length ts')%nat -> parsed ts' None c s.
Proof. intros (a & ts1 & T1 & T2 & T3 & T4 & _) H. exists a, ts1. split_and!; try done; lia. Qed.

(** A second part of a command after a separator. *)
Lemma second_wx (f : cmd -> cmd -> cmd) (g : acmd -> acmd -> acmd) (second : M nat cmd) T s ts ts0 c a :
  (forall c1 c2 a1 a2, tree_of buf c1 a1 -> tree_of buf c2 a2 -> tree_of buf (f c1 c2) (g a1 a2)) ->
  (forall a1 a2, good a1 -> good a2 -> good (g a1 a2)) ->
  toks_at buf s ts -> (length ts <= length ts0)%nat -> tree_of buf c a -> good a ->
  (forall s' ts', toks_at buf s' ts' -> (length ts' < length ts)%nat -> wx second (parsed ts' None) s') ->
  wx (more ← peek buf T; if more : bool then gettoken buf;; r ← second; mret (f c r) else mret c) (parsed ts0 None) s.
Proof.
  intros Hf Hgd H Hl Ht Hg H2. apply (wx_peek _ _ _ _ ts H). intros s1 H1. destruct (peeks _ ts) eqn:Ep.
  - destruct ts as [|t ts]; [done|]. apply (wx_token _ _ _ t ts H1). intros _ _ s2 Hs2 _.
    eapply wx_call; [apply (H2 s2 ts); [done|cbn; lia]|]. cbv beta. intros r s3 (a2 & ts2 & U1 & U2 & U3 & U4 & _). apply wx_ret.
    exists (g a a2), ts2. split_and!; [by apply Hf|by apply Hgd|done|cbn in Hl; lia|by intros []].
  - apply wx_ret. exists a, ts. split_and!; done.
Qed.

(** The four nonterminals; [fuel] counts the levels down to the next token. *)
Lemma parse_wx fuel :
  (forall s ts, toks_at buf s ts -> (4 * length ts + 4 <= fuel)%nat -> wx (parseline buf fuel) (parsed ts None) s) /\
  (forall s ts, toks_at buf s ts -> (4 * length ts + 3 <= fuel)%nat -> wx (parsepipe buf fuel) (parsed ts None) s) /\
  (forall s ts, toks_at buf s ts -> (4 * length ts + 2 <= fuel)%nat -> wx (parseexec buf fuel) (parsed ts None) s) /\
  (forall s ts, toks_at buf s ts -> peeks [40] ts = true -> (4 * length ts + 1 <= fuel)%nat -> wx (parseblock buf fuel) (parsed ts None) s).
Proof.
  induction fuel as [|fuel (IHl & IHp & IHe & IHb)]; [split_and!; intros; lia|]. split_and!; intros s ts H.
  - intros Hf. cbn [parseline]. eapply wx_call; [apply (IHp s ts H); lia|]. cbv beta. intros c s1 (a & ts1 & T1 & T2 & T3 & T4 & _).
    eapply wx_call; [apply (back_wx (es buf) s1 ts1 c a T3); [by eapply toks_length|done|done]|].
    cbv beta. intros c2 s2 (a2 & ts2 & U1 & U2 & U3 & U4 & _). eapply (second_wx LIST AList); try done; [lia|].
    intros s' ts' H' Hl. apply IHl; [done|lia].
  - intros Hf. cbn [parsepipe]. eapply wx_call; [apply (IHe s ts H); lia|]. cbv beta. intros c s1 (a & ts1 & T1 & T2 & T3 & T4 & _).
    eapply (second_wx PIPE APipe); try done. intros s' ts' H' Hl. apply IHp; [done|lia].
  - intros Hf. cbn [parseexec]. apply (wx_peek _ _ _ _ ts H). intros s1 H1. destruct (peeks [40] ts) eqn:Ep; [apply IHb; [done|done|lia]|].
    eapply wx_call; [apply (parseredirs_wx s1 ts (EXEC []) (AExec []) H1); [by constructor|done]|].
    cbv beta. intros c s2 (a & ts1 & T1 & T2 & T3 & T4 & T5). eapply wx_mono.
    + apply (args_wx (S (es buf)) s2 ts1 c a 0); [done|apply toks_length in T3; lia|done|done|apply T5; cbn; eauto].
    + intros c' s' HP. by eapply parsed_mono.
  - intros Ep Hf. cbn [parseblock]. apply (wx_peek _ _ _ _ ts H). intros s1 H1. rewrite Ep. cbn [negb].
    destruct ts as [|t ts]; [done|]. apply (wx_token _ _ _ t ts H1). intros _ _ s2 H2 _.
    eapply wx_call; [apply (IHl s2 ts H2); cbn in Hf; lia|]. cbv beta. intros c s3 (a & ts1 & T1 & T2 & T3 & T4 & _).
    apply (wx_peek _ _ _ _ ts1 T3). intros s4 H4. destruct (peeks [41] ts1) eqn:Ec; cbn [negb]; [|parse_error].
    destruct ts1 as [|t1 ts1]; [done|]. apply (wx_token _ _ _ t1 ts1 H4). intros _ _ s5 H5 _.
    eapply wx_mono; [by apply (parseredirs_wx s5 ts1 c a)|]. intros c' s' HP. eapply parsed_mono; [exact HP|]. cbn in *. lia.
Qed.

Lemma parsecmd_tree_wx : wx (parsecmd_tree buf) (fun c _ => exists a, tree_of buf c a /\ good a) 0%nat.
Proof.
  destruct (lexes_total buf Hnul) as (ts & HL & Hle). assert (toks_at buf 0 ts) as H by (split; [lia|done]).
  unfold parsecmd_tree. eapply wx_call; [apply (proj1 (parse_wx _) 0%nat ts H); unfold es; lia|].
  cbv beta. intros c s (a & ts' & T1 & T2 & T3 & _). apply (wx_peek _ _ _ _ ts' T3). intros s1 _.
  apply wx_bind. unfold wx at 1, gets. destruct (Nat.eqb _ _); cbn [negb]; [apply wx_ret; eauto|parse_error].
Qed.
End total.
