(* ===== verification/ShRound.v ===== *)
(** * The shell's parser inverts the printer

    For each level of the grammar: on the tokens of a printed command
    followed by what may follow at that level, the parser returns the
    command's tree and stops at what follows. *)
From stdpp Require Import base tactics numbers list strings sets.
From Stdlib Require Import ZArith Lia.
From S2P Require Import Prelude Sh ShLex ShSpec.

Open Scope Z_scope.

(** ** Redirections around a command *)

Definition redir : Type := list Z * Z * Z.
Definition add_redir (a : acmd) (r : redir) : acmd := ARedir a r.1.1 r.1.2 r.2.
Definition redirs (a : acmd) (rs : list redir) : acmd := foldl add_redir a rs.
Definition redir_good (r : redir) : Prop := word r.1.1 /\ redir_ok r.1.2 r.2.
Definition redir_toks (rs : list redir) : list tok := rs ≫= (fun r => [redir_tok r.1.2; TWord r.1.1]).

Lemma redir_toks_cons f m fd rs : redir_toks ((f, m, fd) :: rs) = redir_tok m :: TWord f :: redir_toks rs.
Proof. done. Qed.

Fixpoint size (a : acmd) : nat :=
  match a with AExec _ => 1 | ARedir a _ _ _ | ABack a => S (size a) | APipe a b | AList a b => S (size a + size b) end.
Definition is_redir (a : acmd) : Prop := match a with ARedir _ _ _ _ => True | _ => False end.

Lemma strip a : exists core rs, a = redirs core rs /\ ~ is_redir core /\ (size core <= size a)%nat /\ (core = a \/ (size core < size a)%nat).
Proof.
  induction a as [args|a (core & rs & E & Hc & Hs & _) f m fd|a _ b _|a _ b _|a _].
  2: { exists core, (rs ++ [(f, m, fd)]). cbn. split_and!; [unfold redirs in *; rewrite foldl_app, <- E; done|done|lia|right; lia]. }
  all: eexists _, []; split_and!; [reflexivity|by intros []|done|by left].
Qed.

Lemma show_body p a : show p a = at_level p (level a) (show 0 a).
Proof. by destruct a. Qed.
Lemma show_redirs core rs : show 3 (redirs core rs) = show 3 core ++ redir_toks rs.
Proof.
  induction rs as [|r rs IH] using rev_ind; cbn; [by rewrite app_nil_r|]. unfold redirs in *. rewrite foldl_app. cbn.
  rewrite IH, <- app_assoc. f_equal. unfold redir_toks. rewrite bind_app. done.
Qed.
Lemma good_redirs core rs : good (redirs core rs) -> good core /\ Forall redir_good rs.
Proof.
  induction rs as [|r rs IH] using rev_ind; cbn; [done|]. unfold redirs in *. rewrite foldl_app. cbn. intros (Hg & Hw & Hr).
  destruct (IH Hg) as [Hc HF]. split; [done|]. apply Forall_app. split; [done|]. by apply Forall_cons.
Qed.

(** The tokens that may follow: none, or one that starts with one of [T]. *)
Definition follow (T : list Z) (ts : list tok) : Prop := ts = [] \/ peeks T ts = true.
Lemma follow_mono T T' ts : follow T ts -> T ⊆ T' -> follow T' ts.
Proof.
  intros [->|H] HT; [by left|]. right. destruct ts as [|t ts]; [done|]. cbn in *. rewrite sstrchr_elem in *. set_solver.
Qed.
Lemma follow_no T T' ts : follow T ts -> (forall c, c ∈ T -> c ∉ T') -> peeks T' ts = false.
Proof.
  intros [->|H] HT; [done|]. destruct ts as [|t ts]; [done|]. cbn in *. apply not_true_iff_false. rewrite sstrchr_elem in *. by apply HT.
Qed.
Lemma follow_sym T c ts : c ∈ T -> follow T (TSym c :: ts).
Proof. intros H. right. by apply sstrchr_elem. Qed.

Section round.
Context (buf : list Z) (Hnul : Forall (fun c => c <> 0) buf).

Lemma wp_peek {B} T (f : bool -> M nat B) Q s ts :
  toks_at buf s ts -> (forall s', toks_at buf s' ts -> wp (f (peeks T ts)) Q s') -> wp (peek buf T ≫= f) Q s.
Proof. intros H HQ. eapply wp_call; [by apply (peek_wp buf Hnul T)|]. cbv beta. intros b s' [-> H']. by apply HQ. Qed.
Lemma wp_token {B} (f : Z * nat * nat -> M nat B) Q s t ts :
  toks_at buf s (t :: ts) ->
  (forall q e s', toks_at buf s' ts -> (forall w, t = TWord w -> word_at buf (q, e) w) -> wp (f (tok_code t, q, e)) Q s') ->
  wp (gettoken buf ≫= f) Q s.
Proof.
  intros H HQ. eapply wp_call; [by apply (gettoken_wp buf Hnul s (t :: ts))|]. cbv beta. intros [[r q] e] s' (E & H' & Hw).
  cbn in *. subst r. by apply HQ.
Qed.

(** The parser returned [a] and stopped at [rest]. *)
Definition at_rest (a : acmd) (rest : list tok) (c : cmd) (s : nat) : Prop := tree_of buf c a /\ toks_at buf s rest.

Lemma redir_tok_cases m fd : redir_ok m fd ->
  (m = O_RDONLY /\ fd = 0 /\ redir_tok m = TSym 60) \/ (m = TRUNC /\ fd = 1 /\ redir_tok m = TSym 62) \/ (m = APPEND /\ fd = 1 /\ redir_tok m = TApp).
Proof. unfold redir_ok. intros H. set_unfold in H. naive_solver. Qed.

Lemma redirs_run rs : forall n s rest c a, Forall redir_good rs -> peeks [60; 62] rest = false -> tree_of buf c a ->
  toks_at buf s (redir_toks rs ++ rest) -> (length (redir_toks rs ++ rest) <= n)%nat ->
  wp (redirs_loop buf n c) (at_rest (redirs a rs) rest) s.
Proof.
  induction rs as [|[[f m] fd] rs IH]; intros n s rest c a Hg Hr Ht H Hn.
  - destruct n; cbn [redirs_loop]; apply (wp_peek _ _ _ _ rest H); intros s1 H1; rewrite Hr; by apply wp_ret.
  - apply Forall_cons in Hg as [[Hw Hm] Hg]. cbn in Hw, Hm. rewrite redir_toks_cons in H, Hn. cbn [app length] in H, Hn.
    destruct n as [|n]; [lia|]. cbn [redirs_loop].
    apply (wp_peek _ _ _ _ _ H). intros s1 H1.
    assert (peeks [60; 62] (redir_tok m :: TWord f :: redir_toks rs ++ rest) = true) as Ep
      by (destruct (redir_tok_cases m fd Hm) as [(_ & _ & ->)|[(_ & _ & ->)|(_ & _ & ->)]]; done).
    rewrite Ep. cbn [negb].
    apply (wp_token _ _ _ _ _ H1). intros _ _ s2 H2 _. apply (wp_token _ _ _ _ _ H2). intros q e s3 H3 Hq. cbn [tok_code Z.eqb Pos.eqb negb].
    match goal with |- wp (redirs_loop _ _ ?c') _ _ => assert (tree_of buf c' (ARedir a f m fd)) as Ht' end.
    { specialize (Hq f eq_refl). destruct (redir_tok_cases m fd Hm) as [(-> & -> & ->)|[(-> & -> & ->)|(-> & -> & ->)]]; done. }
    apply (IH n s3 rest _ (ARedir a f m fd)); try done. lia.
Qed.

Lemma parseredirs_run rs s rest c a : Forall redir_good rs -> peeks [60; 62] rest = false -> tree_of buf c a ->
  toks_at buf s (redir_toks rs ++ rest) -> wp (parseredirs buf c) (at_rest (redirs a rs) rest) s.
Proof. intros Hg Hr Ht H. apply redirs_run; try done. by eapply toks_length. Qed.
Lemma parseredirs_none s rest c a : peeks [60; 62] rest = false -> tree_of buf c a ->
  toks_at buf s rest -> wp (parseredirs buf c) (at_rest a rest) s.
Proof. intros Hr Ht H. by apply (parseredirs_run [] s rest c a). Qed.

(** ** Words *)

Definition follow3 : list tok -> Prop := follow [124; 38; 59; 41].

Lemma follow3_no T ts : follow3 ts -> T ⊆ [60; 62; 40] -> peeks T ts = false.
Proof. intros H HT. apply (follow_no _ _ _ H). set_solver. Qed.

Lemma args_stop n k c a s rest : follow3 rest -> tree_of buf c a -> toks_at buf s rest -> (0 < n)%nat ->
  wp (args_loop buf n k c) (at_rest a rest) s.
Proof.
  intros Hf Ht H Hn. destruct n; [lia|]. cbn [args_loop]. apply (wp_peek _ _ _ _ rest H). intros s1 H1. destruct Hf as [->|Hp].
  - cbn [peeks]. eapply wp_call; [by apply (gettoken_wp buf Hnul s1 [])|]. cbv beta. intros [[r q] e] s2 (E & H2). cbn in E. subst r. by apply wp_ret.
  - assert (peeks [124; 41; 38; 59] rest = true) as ->; [|by apply wp_ret]. destruct rest as [|t rest]; [done|]. cbn [peeks] in Hp |- *.
    apply sstrchr_elem in Hp. apply sstrchr_elem. set_solver.
Qed.

Lemma word_peeks T w ts : word w -> T ⊆ symbols -> peeks T (TWord w :: ts) = false.
Proof. intros Hw HT. apply peeks_word; [done|]. intros c Hc. apply sstrchr_elem. by apply HT. Qed.

Lemma args_run args rs : forall w n k pre c s rest,
  Forall word (w :: args) -> Forall redir_good rs -> follow3 rest -> tree_of buf c (AExec pre) -> k = Z.of_nat (length pre) ->
  Z.of_nat (length pre + length (w :: args)) < MAXARGS ->
  toks_at buf s (map TWord (w :: args) ++ redir_toks rs ++ rest) -> (length (map TWord (w :: args) ++ redir_toks rs ++ rest) < n)%nat ->
  wp (args_loop buf n k c) (at_rest (redirs (AExec (pre ++ w :: args)) rs) rest) s.
Proof.
  induction args as [|w2 args IH]; intros w n k pre c s rest Hw Hr Hf Ht -> Hm H Hn;
    apply Forall_cons in Hw as [Hw Hws]; cbn [map app length] in H, Hn, Hm; (destruct n as [|n]; [lia|]); cbn [args_loop];
    apply (wp_peek _ _ _ _ _ H); intros s1 H1; rewrite word_peeks by (done || (unfold symbols; set_solver));
    apply (wp_token _ _ _ _ _ H1); intros q e s2 H2 Hq; cbn [tok_code Z.eqb Pos.eqb negb];
    (destruct (Z.leb_spec MAXARGS (Z.of_nat (length pre) + 1)); [lia|]);
    pose proof (add_arg_tree buf q e w c (AExec pre) Ht (Hq w eq_refl)) as Ht2; cbn [add_word] in Ht2.
  - eapply wp_call; [apply (parseredirs_run rs s2 rest _ (AExec (pre ++ [w])) Hr); [by apply follow3_no; [|set_solver]|exact Ht2|exact H2]|].
    cbv beta. intros c' s3 [T1 T2]. apply args_stop; try done. lia.
  - eapply wp_call; [eapply (parseredirs_none s2 _ _ (AExec (pre ++ [w]))); [|exact Ht2|exact H2]|].
    { apply Forall_cons in Hws as [Hw2 _]. by apply word_peeks; [|unfold symbols; set_solver]. }
    cbv beta. intros c' s3 [T1 T2]. replace (pre ++ w :: w2 :: args) with ((pre ++ [w]) ++ w2 :: args) by (by rewrite <- app_assoc).
    apply IH; try done; [rewrite length_app; cbn; lia|rewrite length_app; cbn; lia|]. cbn. lia.
Qed.

(** ** The levels *)

Definition ok_exec (a : acmd) : Prop := forall fuel s rest, follow3 rest -> toks_at buf s (show 3 a ++ rest) ->
  (4 * length (show 3 a ++ rest) + 2 <= fuel)%nat -> wp (parseexec buf fuel) (at_rest a rest) s.
Definition ok_pipe (a : acmd) : Prop := forall fuel s rest, follow [38; 59; 41] rest -> toks_at buf s (show 2 a ++ rest) ->
  (4 * length (show 2 a ++ rest) + 3 <= fuel)%nat -> wp (parsepipe buf fuel) (at_rest a rest) s.
(** The loop for "&" goes on from the command. *)
Definition ok_back (a : acmd) : Prop := forall fuel n s rest (Q : cmd -> nat -> Prop), follow [38; 59; 41] rest -> toks_at buf s (show 1 a ++ rest) ->
  (4 * length (show 1 a ++ rest) + 3 <= fuel)%nat -> (length (show 1 a ++ rest) <= n)%nat ->
  (forall c s' n', at_rest a rest c s' -> (length rest <= n')%nat -> wp (back_loop buf n' c) Q s') ->
  wp (parsepipe buf fuel) (fun c => wp (back_loop buf n c) Q) s.
Definition ok_line (a : acmd) : Prop := forall fuel s rest, follow [41] rest -> toks_at buf s (show 0 a ++ rest) ->
  (4 * length (show 0 a ++ rest) + 4 <= fuel)%nat -> wp (parseline buf fuel) (at_rest a rest) s.

(** A command in parentheses, with redirections. *)
Lemma block_run core rs fuel s rest : ok_line core -> Forall redir_good rs -> follow3 rest ->
  toks_at buf s (paren (show 0 core) ++ redir_toks rs ++ rest) ->
  (4 * length (paren (show 0 core) ++ redir_toks rs ++ rest) + 2 <= fuel)%nat ->
  wp (parseexec buf fuel) (at_rest (redirs core rs) rest) s.
Proof.
  intros HL Hr Hf H Hn. unfold paren in H, Hn. cbn [app length] in H, Hn. rewrite <- app_assoc in H, Hn. cbn [app] in H, Hn.
  destruct fuel as [|[|fuel]]; [lia|lia|]. cbn [parseexec]. apply (wp_peek _ _ _ _ _ H). intros s1 H1. cbn [peeks tok_char sstrchr Z.eqb Pos.eqb].
  cbn [parseblock]. apply (wp_peek _ _ _ _ _ H1). intros s2 H2. cbn [peeks tok_char sstrchr Z.eqb Pos.eqb negb].
  apply (wp_token _ _ _ _ _ H2). intros _ _ s3 H3 _. eapply wp_call; [eapply (HL fuel s3); [|exact H3|]|].
  - apply follow_sym. set_solver.
  - lia.
  - cbv beta. intros c s4 [T1 T2]. apply (wp_peek _ _ _ _ _ T2). intros s5 H5. cbn [peeks tok_char sstrchr Z.eqb Pos.eqb negb].
    apply (wp_token _ _ _ _ _ H5). intros _ _ s6 H6 _. apply parseredirs_run; try done. by apply follow3_no; [|set_solver].
Qed.

Lemma exec_run args rs fuel s rest : good (AExec args) -> Forall redir_good rs -> follow3 rest ->
  toks_at buf s (map TWord args ++ redir_toks rs ++ rest) ->
  (4 * length (map TWord args ++ redir_toks rs ++ rest) + 2 <= fuel)%nat ->
  wp (parseexec buf fuel) (at_rest (redirs (AExec args) rs) rest) s.
Proof.
  intros [Hw Hl] Hr Hf H Hn. destruct fuel as [|fuel]; [lia|]. cbn [parseexec]. apply (wp_peek _ _ _ _ _ H). intros s1 H1.
  destruct args as [|w args].
  - cbn [map app] in *. assert (peeks [40] (redir_toks rs ++ rest) = false) as ->.
    { destruct rs as [|[[f m] fd] rs]; [by apply follow3_no; [|set_solver]|]. apply Forall_cons in Hr as [[_ Hm] _]. rewrite redir_toks_cons.
      by destruct (redir_tok_cases m fd Hm) as [(_ & _ & ->)|[(_ & _ & ->)|(_ & _ & ->)]]. }
    eapply wp_call; [apply (parseredirs_run rs s1 rest _ (AExec []) Hr); [by apply follow3_no; [|set_solver]|by constructor|done]|].
    cbv beta. intros c s2 [T1 T2]. apply args_stop; try done. lia.
  - pose proof Hw as Hw'. apply Forall_cons in Hw' as [Hw1 _]. cbn [map app] in *. rewrite word_peeks by (done || (unfold symbols; set_solver)).
    eapply wp_call; [eapply (parseredirs_none s1 _ _ (AExec [])); [by apply word_peeks; [|unfold symbols; set_solver]|by constructor|exact H1]|].
    cbv beta. intros c s2 [T1 T2]. apply (args_run args rs w _ _ [] c); try done. apply toks_length in T2. cbn in T2 |- *. lia.
Qed.

(** Each level from the next one. *)
Lemma exec_of_line a : (level a < 3)%nat -> ok_line a -> ok_exec a.
Proof.
  intros Hl HL fuel s rest Hf H Hn. rewrite show_body in H, Hn. unfold at_level in H, Hn. destruct (Nat.ltb_spec (level a) 3); [|lia].
  by apply (block_run a []).
Qed.
Lemma pipe_of_exec a : level a <> 2%nat -> ok_exec a -> ok_pipe a.
Proof.
  intros Hl HE fuel s rest Hf H Hn. assert (show 2 a = show 3 a) as E.
  { rewrite (show_body 2), (show_body 3). unfold at_level. destruct (Nat.ltb_spec (level a) 2), (Nat.ltb_spec (level a) 3); try done; lia. }
  rewrite E in H, Hn. destruct fuel as [|fuel]; [lia|]. cbn [parsepipe].
  eapply wp_call; [apply (HE fuel s rest); [eapply follow_mono; [exact Hf|set_solver]|done|lia]|].
  cbv beta. intros c s1 [T1 T2]. apply (wp_peek _ _ _ _ _ T2). intros s2 H2. rewrite (follow_no _ [124] _ Hf) by set_solver. by apply wp_ret.
Qed.
Lemma back_of_pipe a : level a <> 1%nat -> ok_pipe a -> ok_back a.
Proof.
  intros Hl HP fuel n s rest Q Hf H Hn Hn' HQ. assert (show 1 a = show 2 a) as E.
  { rewrite (show_body 1), (show_body 2). unfold at_level. destruct (Nat.ltb_spec (level a) 1), (Nat.ltb_spec (level a) 2); try done; lia. }
  rewrite E in H, Hn, Hn'. eapply wp_mono; [by apply (HP fuel s rest)|]. cbv beta. intros c s1 HR. apply HQ; [done|]. rewrite length_app in Hn'. lia.
Qed.
(** The loop for "&" where no "&" is left. *)
Lemma back_stop n c a rest (Q : cmd -> nat -> Prop) s : peeks [38] rest = false -> at_rest a rest c s ->
  (forall s', at_rest a rest c s' -> Q c s') -> wp (back_loop buf n c) Q s.
Proof.
  intros Hp [T1 T2] HQ. destruct n; cbn [back_loop]; apply (wp_peek _ _ _ _ _ T2); intros s1 H1; rewrite Hp; apply wp_ret; by apply HQ.
Qed.
Lemma line_of_back a : level a <> 0%nat -> ok_back a -> ok_line a.
Proof.
  intros Hl HB fuel s rest Hf H Hn. assert (show 0 a = show 1 a) as E.
  { rewrite (show_body 0), (show_body 1). unfold at_level. destruct (Nat.ltb_spec (level a) 0), (Nat.ltb_spec (level a) 1); try done; lia. }
  rewrite E in H, Hn. destruct fuel as [|fuel]; [lia|]. cbn [parseline]. apply wp_bind. eapply wp_mono.
  - eapply (HB fuel (es buf) s rest); [eapply follow_mono; [exact Hf|set_solver]|done|lia|by eapply toks_length|].
    intros c s' n' HR _. eapply back_stop; [by apply (follow_no _ _ _ Hf); set_solver|exact HR|].
    intros s2 [T1 T2]. apply (wp_peek [59] (fun more : bool => if more then gettoken buf;; r ← parseline buf fuel; mret (LIST c r) else mret c) (at_rest a rest) _ _ T2).
    intros s3 H3. rewrite (follow_no _ [59] _ Hf) by set_solver. by apply wp_ret.
  - cbv beta. intros c s' W. by apply wp_bind.
Qed.

(** Each construct at its own level. *)
Lemma list_run a b : ok_back a -> ok_line b -> ok_line (AList a b).
Proof.
  intros HB HL fuel s rest Hf H Hn. cbn [show level at_level Nat.ltb Nat.leb] in H, Hn. rewrite <- app_assoc in H, Hn. cbn [app] in H, Hn.
  destruct fuel as [|fuel]; [lia|]. cbn [parseline]. apply wp_bind. rewrite length_app in Hn. cbn [length] in Hn. eapply wp_mono.
  - eapply (HB fuel (es buf) s); [|exact H|rewrite length_app; cbn [length]; lia|by eapply toks_length|]; [apply follow_sym; set_solver|].
    intros c s' n' HR _. eapply back_stop; [|exact HR|]; [done|].
    intros s2 [T1 T2]. apply (wp_peek [59] (fun more : bool => if more then gettoken buf;; r ← parseline buf fuel; mret (LIST c r) else mret c) (at_rest (AList a b) rest) _ _ T2).
    intros s3 H3. cbn [peeks tok_char sstrchr Z.eqb Pos.eqb]. apply (wp_token _ _ _ _ _ H3). intros _ _ s4 H4 _.
    eapply wp_call; [apply (HL fuel s4 rest Hf H4); lia|]. cbv beta. intros c2 s5 [U1 U2]. by apply wp_ret.
  - cbv beta. intros c s' W. by apply wp_bind.
Qed.
Lemma back_run a : ok_back a -> ok_back (ABack a).
Proof.
  intros HB fuel n s rest Q Hf H Hn Hn' HQ. cbn [show level at_level Nat.ltb Nat.leb] in H, Hn, Hn'. rewrite <- app_assoc in H, Hn, Hn'. cbn [app] in H, Hn, Hn'.
  eapply (HB fuel n s); [|exact H|done|done|]; [apply follow_sym; set_solver|]. intros c s' n' [T1 T2] Hl. cbn [length] in Hl. destruct n' as [|n']; [lia|].
  cbn [back_loop]. apply (wp_peek _ _ _ _ _ T2). intros s2 H2. cbn [peeks tok_char sstrchr Z.eqb Pos.eqb negb].
  apply (wp_token _ _ _ _ _ H2). intros _ _ s3 H3 _. apply HQ; [done|lia].
Qed.
Lemma pipe_run a b : ok_exec a -> ok_pipe b -> ok_pipe (APipe a b).
Proof.
  intros HE HP fuel s rest Hf H Hn. cbn [show level at_level Nat.ltb Nat.leb] in H, Hn. rewrite <- app_assoc in H, Hn. cbn [app] in H, Hn.
  destruct fuel as [|fuel]; [lia|]. cbn [parsepipe]. eapply wp_call; [eapply (HE fuel s); [|exact H|lia]; apply follow_sym; set_solver|].
  rewrite length_app in Hn. cbn [length] in Hn.
  cbv beta. intros c s1 [T1 T2]. apply (wp_peek _ _ _ _ _ T2). intros s2 H2. cbn [peeks tok_char sstrchr Z.eqb Pos.eqb].
  apply (wp_token _ _ _ _ _ H2). intros _ _ s3 H3 _. eapply wp_call; [apply (HP fuel s3 rest Hf H3); lia|].
  cbv beta. intros c2 s4 [U1 U2]. by apply wp_ret.
Qed.

Definition ok_all (a : acmd) : Prop := ok_exec a /\ ok_pipe a /\ ok_back a /\ ok_line a.

Lemma all_of_exec a : level a = 3%nat -> ok_exec a -> ok_all a.
Proof.
  intros Hl HE. assert (ok_pipe a) by (apply pipe_of_exec; [lia|done]). assert (ok_back a) by (apply back_of_pipe; [lia|done]).
  assert (ok_line a) by (apply line_of_back; [lia|done]). done.
Qed.

Lemma show_parses n : forall a, (size a < n)%nat -> good a -> ok_all a.
Proof.
  induction n as [|n IH]; intros a Hs Hg; [lia|]. destruct a as [args|a f m fd|a b|a b|a]; cbn in Hs.
  - apply all_of_exec; [done|]. intros fuel s rest Hf H Hn. by apply (exec_run args []).
  - apply all_of_exec; [done|]. destruct (strip (ARedir a f m fd)) as (core & rs & E & Hc & _ & Hsz). rewrite E in Hg |- *.
    apply good_redirs in Hg as [Hg Hr]. intros fuel s rest Hf H Hn. rewrite show_redirs, <- app_assoc in H, Hn.
    destruct core as [args| |x y|x y|x]; [by apply exec_run|by destruct Hc|..];
      (apply block_run; try done; apply IH; [destruct Hsz as [Hx|Hx]; [done|cbn in Hx |- *; lia]|done]).
  - destruct Hg as [Ga Gb]. destruct (IH a ltac:(lia) Ga) as (Ea & _). destruct (IH b ltac:(lia) Gb) as (_ & Pb & _).
    pose proof (pipe_run a b Ea Pb) as P. pose proof (back_of_pipe (APipe a b) ltac:(done) P) as B. pose proof (line_of_back (APipe a b) ltac:(done) B) as L.
    split; [apply exec_of_line; [cbn; lia|done]|done].
  - destruct Hg as [Ga Gb]. destruct (IH a ltac:(lia) Ga) as (_ & _ & Ba & _). destruct (IH b ltac:(lia) Gb) as (_ & _ & _ & Lb).
    pose proof (list_run a b Ba Lb) as L. pose proof (exec_of_line (AList a b) ltac:(cbn; lia) L) as E.
    pose proof (pipe_of_exec (AList a b) ltac:(done) E) as P. pose proof (back_of_pipe (AList a b) ltac:(done) P). done.
  - destruct (IH a ltac:(lia) Hg) as (_ & _ & Ba & _). pose proof (back_run a Ba) as B.
    pose proof (line_of_back (ABack a) ltac:(done) B) as L. pose proof (exec_of_line (ABack a) ltac:(cbn; lia) L) as E.
    pose proof (pipe_of_exec (ABack a) ltac:(done) E). done.
Qed.

(** At the end of the line peek skips to it. *)
Lemma peek_end T s : toks_at buf s [] -> wp (peek buf T) (fun _ s' => s' = es buf) s.
Proof.
  intros H. unfold peek. wp_steps. destruct (skip_ws_spec buf s [] H) as [[Hs HL] Hc].
  destruct (lexes_clean _ _ HL Hc) as [[E _]|[(c & l & ts' & _ & E & _)|[(l & ts' & _ & E & _)|(w & l & ts' & _ & E & _)]]]; try done.
  apply (f_equal length) in E. rewrite length_drop in E. cbn in E. unfold es in *. lia.
Qed.

Lemma parsecmd_tree_show a : good a -> lexes buf (show 0 a) -> wp (parsecmd_tree buf) (fun c _ => tree_of buf c a) 0%nat.
Proof.
  intros Hg HL. destruct (show_parses (S (size a)) a ltac:(lia) Hg) as (_ & _ & _ & L). unfold parsecmd_tree.
  assert (toks_at buf 0 (show 0 a ++ [])) as H by (rewrite app_nil_r; split; [lia|done]).
  eapply wp_call; [apply (L _ 0%nat [] ltac:(by left) H); apply toks_length in H; lia|]. cbv beta. intros c s [T1 T2].
  eapply wp_call; [by apply (peek_end [])|]. cbv beta. intros _ s1 ->. apply wp_bind, wp_gets. unfold id. rewrite Nat.eqb_refl. by apply wp_ret.
Qed.
End round.
