(* ===== verification/ShRun.v ===== *)
(** * The shell (user/sh.c): running commands

    A process is the tree of the system calls it makes, with a branch for
    every outcome the kernel may choose; runcmd is translated to such a tree,
    call by call.  Descriptors are the kernel's: a table of NOFILE entries,
    of which open, pipe and dup take the lowest free one and fork gives the
    child a copy.  [observe] runs a tree on a table and lists what can be
    seen of the process and its children: the programs they start, their
    waits and their exits, each with the descriptors held then. *)
From stdpp Require Import base tactics numbers list strings sets.
From Stdlib Require Import ZArith Lia.
From S2P Require Import Prelude Sh ShSpec.

Open Scope Z_scope.

Definition NOFILE : nat := 16.

(** A process, by the forks that led to it: [false] to a child, [true] on in
    the parent; and a pipe, by the process that made it (runcmd makes at most
    one in a process). *)
Definition place : Type := list bool.
(** What a descriptor refers to: an open file, an end of a pipe, or something
    the shell was started with. *)
Inductive fobj := FFile (name : list Z) (mode : Z) | FPipeR (n : place) | FPipeW (n : place) | FOld (n : nat).
Definition fdtable : Type := list (option fobj).

(** fdalloc of the kernel *)
Fixpoint lowest (t : fdtable) : option nat :=
  match t with [] => None | None :: _ => Some 0%nat | Some _ :: t => S <$> lowest t end.
Definition fd_close (fd : nat) (t : fdtable) : fdtable := <[fd := None]> t.
(** The new descriptor, if there is one. *)
Definition fd_new (o : fobj) (t : fdtable) : option (nat * fdtable) := (fun fd => (fd, <[fd := Some o]> t)) <$> lowest t.

(** The system calls of a process and how it goes on. *)
Inductive proc :=
  | XExec (argv : list (list Z)) (failed : proc)
  | XFork (child parent failed : proc)
  | XOpen (name : list Z) (mode : Z) (ok failed : proc)
  | XPipe (ok : nat -> nat -> proc) (failed : proc)
  | XClose (fd : nat) (rest : proc)
  | XDup (fd : nat) (rest : proc)
  | XWait (rest : proc)
  | XMsg (msg : string) (rest : proc)
  | XExit (code : Z).

(** The shell's panic *)
Definition spanic (msg : string) : proc := XMsg msg (XExit 1).
Definition fork1 (child parent : proc) : proc := XFork child parent (spanic "fork").

Section run.
(** The line after nulterminate, into which the command points. *)
Context (b : list Z).

Fixpoint runcmd (c : cmd) : proc :=
  match c with
  | EXEC argv =>
      match argv with
      | [] => XExit 1
      | _ => XExec (map (fun p => string_at b p.1) argv) (XMsg "exec failed" (XExit 0))
      end
  | REDIR c file efile mode fd =>
      XClose (Z.to_nat fd) (XOpen (string_at b file) mode (runcmd c) (XMsg "open failed" (XExit 1)))
  | LIST l r => fork1 (runcmd l) (XWait (runcmd r))
  | PIPE l r =>
      XPipe (fun p0 p1 =>
        fork1 (XClose 1 (XDup p1 (XClose p0 (XClose p1 (runcmd l)))))
          (fork1 (XClose 0 (XDup p0 (XClose p0 (XClose p1 (runcmd r)))))
             (XClose p0 (XClose p1 (XWait (XWait (XExit 0)))))))
        (spanic "pipe")
  | BACK c => fork1 (runcmd c) (XExit 0)
  end.
End run.

(** ** What the kernel makes of it *)

(** What is seen: a program started, a process that waits, an exit; with the
    descriptors [t] of the process, and the number [k] of its children that
    it has not waited for. *)
Inductive seen :=
  | SExec (argv : list (list Z)) (t : fdtable) (k : nat)
  | SWait (t : fdtable) (k : nat)
  | SExit (code : Z) (t : fdtable) (k : nat).

Definition fd_dup (fd : nat) (t : fdtable) : fdtable :=
  match t !! fd with Some (Some o) => match fd_new o t with Some (_, t) => t | None => t end | _ => t end.

(** Process [n] and its children, whatever calls fail. *)
Fixpoint observe (p : proc) (t : fdtable) (k : nat) (n : place) : list seen :=
  match p with
  | XExec argv failed => SExec argv t k :: observe failed t k n
  | XFork child parent failed => observe child t 0 (false :: n) ++ observe parent t (S k) (true :: n) ++ observe failed t k n
  | XOpen name mode ok failed =>
      match fd_new (FFile name mode) t with Some (_, t) => observe ok t k n | None => [] end ++ observe failed t k n
  | XPipe ok failed =>
      match fd_new (FPipeR n) t with
      | Some (p0, t) => match fd_new (FPipeW n) t with Some (p1, t) => observe (ok p0 p1) t k n | None => [] end
      | None => []
      end ++ observe failed t k n
  | XClose fd rest => observe rest (fd_close fd t) k n
  | XDup fd rest => observe rest (fd_dup fd t) k n
  | XWait rest => SWait t k :: observe rest t (pred k) n
  | XMsg _ rest => observe rest t k n
  | XExit code => [SExit code t k]
  end.

Definition no_exit (x : seen) : bool := match x with SExit _ _ _ => false | _ => true end.
(** The programs started and the waits, in the order of the command. *)
Definition acts (p : proc) (t : fdtable) (k : nat) (n : place) : list seen := List.filter no_exit (observe p t k n).
Lemma acts_fork child parent t k n : acts (fork1 child parent) t k n = acts child t 0 (false :: n) ++ acts parent t (S k) (true :: n).
Proof. unfold acts. cbn [fork1 observe]. rewrite !List.filter_app. cbn [spanic observe List.filter no_exit]. by rewrite app_nil_r. Qed.

(** ** What a command should start *)

(** A table with descriptors 0, 1 and 2 and no other. *)
Definition std (i o e : fobj) : fdtable := Some i :: Some o :: Some e :: replicate (NOFILE - 3) None.

(** Every program with its standard input, output and error, and no other
    descriptor; the process that has made a pipe waits for its two sides, and
    that of a list for the first command, with the three descriptors they
    were given, and no end of a pipe of their own. *)
Fixpoint wired (a : acmd) (i o e : fobj) (n : place) : list seen :=
  match a with
  | AExec args => match args with [] => [] | _ => [SExec args (std i o e) 0] end
  | ARedir a f mode fd => if fd =? 0 then wired a (FFile f mode) o e n else wired a i (FFile f mode) e n
  | APipe a b =>
      wired a i (FPipeW n) e (false :: n) ++ wired b (FPipeR n) o e (false :: true :: n) ++
      [SWait (std i o e) 2; SWait (std i o e) 1]
  | AList a b => wired a i o e (false :: n) ++ [SWait (std i o e) 1] ++ wired b i o e (true :: n)
  | ABack a => wired a i o e (false :: n)
  end.

(** Redirections name descriptor 0 or 1. *)
Fixpoint fds_ok (c : cmd) : Prop :=
  match c with
  | EXEC _ => True
  | REDIR c _ _ _ fd => fds_ok c /\ (fd = 0 \/ fd = 1)
  | PIPE l r | LIST l r => fds_ok l /\ fds_ok r
  | BACK c => fds_ok c
  end.
Lemma good_fds b c : good (decode b c) -> fds_ok c.
Proof.
  induction c as [argv|c IH f e m fd|l IHl r IHr|l IHl r IHr|c IH]; cbn; try naive_solver.
  intros (Hg & _ & Hr). split; [by apply IH|]. unfold redir_ok in Hr. set_unfold in Hr. naive_solver.
Qed.

(** The tables after the calls of REDIR and PIPE. *)
Lemma acts_redir b c f ef m fd i o e n : fd = 0 \/ fd = 1 ->
  acts (runcmd b (REDIR c f ef m fd)) (std i o e) 0 n =
  acts (runcmd b c) (if fd =? 0 then std (FFile (string_at b f) m) o e else std i (FFile (string_at b f) m) e) 0 n.
Proof.
  intros [-> | ->]; unfold acts.
  - change (observe (runcmd b (REDIR c f ef m 0)) (std i o e) 0 n) with (observe (runcmd b c) (std (FFile (string_at b f) m) o e) 0 n ++ [SExit 1 (None :: tail (std i o e)) 0]).
    rewrite List.filter_app. apply app_nil_r.
  - change (observe (runcmd b (REDIR c f ef m 1)) (std i o e) 0 n) with (observe (runcmd b c) (std i (FFile (string_at b f) m) e) 0 n ++ [SExit 1 (Some i :: None :: Some e :: replicate (NOFILE - 3) None) 0]).
    rewrite List.filter_app. apply app_nil_r.
Qed.
Lemma acts_pipe b l r i o e n :
  acts (runcmd b (PIPE l r)) (std i o e) 0 n =
  acts (runcmd b l) (std i (FPipeW n) e) 0 (false :: n) ++ acts (runcmd b r) (std (FPipeR n) o e) 0 (false :: true :: n) ++
  [SWait (std i o e) 2; SWait (std i o e) 1].
Proof.
  set (t := Some i :: Some o :: Some e :: Some (FPipeR n) :: Some (FPipeW n) :: replicate (NOFILE - 5) None).
  change (acts (runcmd b (PIPE l r)) (std i o e) 0 n) with
    (List.filter no_exit (observe (fork1 (XClose 1 (XDup 4 (XClose 3 (XClose 4 (runcmd b l))))) (fork1 (XClose 0 (XDup 3 (XClose 3 (XClose 4 (runcmd b r))))) (XClose 3 (XClose 4 (XWait (XWait (XExit 0))))))) t 0 n
       ++ [SExit 1 (std i o e) 0])).
  rewrite List.filter_app. cbn [List.filter no_exit]. rewrite app_nil_r. fold (acts (fork1 (XClose 1 (XDup 4 (XClose 3 (XClose 4 (runcmd b l))))) (fork1 (XClose 0 (XDup 3 (XClose 3 (XClose 4 (runcmd b r))))) (XClose 3 (XClose 4 (XWait (XWait (XExit 0))))))) t 0 n).
  by rewrite !acts_fork.
Qed.

Lemma runcmd_wired b c : forall i o e n, fds_ok c -> acts (runcmd b c) (std i o e) 0 n = wired (decode b c) i o e n.
Proof.
  induction c as [argv|c IH f ef m fd|l IHl r IHr|l IHl r IHr|c IH]; intros i o e n Hf; cbn [fds_ok] in Hf.
  - by destruct argv.
  - destruct Hf as [Hf Hd]. rewrite acts_redir by done. cbn [decode wired]. by destruct (fd =? 0); apply IH.
  - destruct Hf as [Hl Hr]. rewrite acts_pipe, IHl, IHr by done. done.
  - destruct Hf as [Hl Hr]. cbn [runcmd]. rewrite acts_fork, IHl by done. cbn [decode wired]. f_equal. rewrite <- (IHr i o e) by done. done.
  - cbn [runcmd]. rewrite acts_fork, IH by done. cbn [decode wired]. apply app_nil_r.
Qed.

(** ** Exits *)

(** A process that ends in the normal way has waited for its children. *)
Definition waited (x : seen) : Prop := match x with SExit 0 _ k => k = 0%nat | _ => True end.
Fixpoint foreground (c : cmd) : bool :=
  match c with
  | EXEC _ => true
  | REDIR c _ _ _ _ => foreground c
  | PIPE l r | LIST l r => foreground l && foreground r
  | BACK _ => false
  end.
Lemma runcmd_waits b c : forall t n, foreground c = true -> Forall waited (observe (runcmd b c) t 0 n).
Proof.
  assert (forall l x, Forall waited l -> waited x -> Forall waited (l ++ [x])) as HA by (intros l x Hl Hx; apply Forall_app; split; [done|by constructor]).
  induction c as [argv|c IH f ef m fd|l IHl r IHr|l IHl r IHr|c IH]; intros t n H; cbn [foreground] in H; try (apply andb_true_iff in H as [H1 H2]); [| | | |done].
  - destruct argv; cbn; repeat constructor.
  - cbn [runcmd observe]. destruct (fd_new _ _) as [[? t']|]; [by apply HA; [apply IH|]|by repeat constructor].
  - cbn [runcmd observe]. destruct (fd_new _ _) as [[p0 t1]|]; [|by repeat constructor]. destruct (fd_new _ t1) as [[p1 t2]|]; [|by repeat constructor].
    apply HA; [|done]. cbn [fork1 observe spanic pred]. rewrite !Forall_app. split_and!; try (by apply IHl); try (by apply IHr); by repeat constructor.
  - cbn [runcmd fork1 observe spanic pred]. rewrite Forall_app. split; [by apply IHl|]. constructor; [done|]. apply HA; [by apply IHr|done].
Qed.

(** ** main *)

(** The loop that opens the console until descriptors 0, 1 and 2 are in use;
    each round uses one up. *)
Definition console : list Z := [99; 111; 110; 115; 111; 108; 101].
Definition O_RDWR : Z := 2.
Fixpoint open_console (fuel : nat) (t : fdtable) : option fdtable :=
  match fuel with
  | O => None
  | S fuel =>
      match fd_new (FFile console O_RDWR) t with
      | None => Some t
      | Some (fd, t') => if (3 <=? fd)%nat then Some (fd_close fd t') else open_console fuel t'
      end
  end.

(** gets(buf, max): what it stores and the input that is left. *)
Fixpoint ugets_loop (n : nat) (input : list Z) : list Z * list Z :=
  match n, input with
  | S n, c :: input =>
      if (c =? 10) || (c =? 13) then ([c], input)
      else let '(l, rest) := ugets_loop n input in (c :: l, rest)
  | _, _ => ([], input)
  end.
Definition ugets (max : nat) (input : list Z) : list Z * list Z := ugets_loop (max - 1) input.

(** getcmd: the line as a C string, or None where it returns -1. *)
Definition getcmd (nbuf : nat) (input : list Z) : option (list Z) * list Z :=
  let '(l, rest) := ugets nbuf input in
  match cstr l with [] => (None, rest) | l => (Some l, rest) end.

Fixpoint skip_blanks (l : list Z) : list Z :=
  match l with c :: l' => if (c =? 32) || (c =? 9) then skip_blanks l' else l | [] => [] end.

(** What the shell does with a line: change directory, or run a command. *)
Inductive action := ActCd (dir : list Z) | ActRun (line : list Z).
Definition line_action (l : list Z) : list action :=
  match skip_blanks l with
  | 10 :: _ => []
  | 99 :: 100 :: 32 :: _ => [ActCd (drop 3 (removelast (skip_blanks l)))]
  | _ => [ActRun (skip_blanks l)]
  end.
(** The loop of main; a round consumes at least one byte of the input. *)
Fixpoint main_loop (fuel : nat) (input : list Z) : option (list action) :=
  match fuel with
  | O => None
  | S fuel =>
      match getcmd 100 input with
      | (None, _) => Some []
      | (Some l, rest) => (fun acts => line_action l ++ acts) <$> main_loop fuel rest
      end
  end.
Definition sh_main (input : list Z) : option (list action) := main_loop (S (length input)) input.

Lemma ugets_rest n input : (length (ugets_loop n input).1 + length (ugets_loop n input).2 = length input)%nat.
Proof.
  revert input. induction n as [|n IH]; intros [|c input]; cbn; try done. specialize (IH input).
  destruct ((c =? 10) || (c =? 13)); cbn; [lia|]. destruct (ugets_loop n input); cbn in *. lia.
Qed.

(** The shell reads its input to the end (or to a line that starts with a
    NUL, which it takes for the end). *)
Lemma main_loop_ends fuel : forall input, (length input < fuel)%nat -> exists acts, main_loop fuel input = Some acts.
Proof.
  induction fuel as [|fuel IH]; intros input Hl; [lia|]. cbn. unfold getcmd, ugets. pose proof (ugets_rest (100 - 1) input) as Hr.
  destruct (ugets_loop (100 - 1) input) as [l rest]. cbn in Hr. destruct (cstr l) as [|c l'] eqn:E; [by eexists|].
  destruct (IH rest) as [acts ->]; [|by eexists]. destruct l; [done|]. cbn in Hr. lia.
Qed.

(** A line fits in the buffer and has no NUL, newline or return inside. *)
Definition line_ok (l : list Z) : Prop := Forall (fun c => c <> 0 /\ c <> 10 /\ c <> 13) l /\ (length l < 99)%nat.

Lemma ugets_line l rest n : Forall (fun c => c <> 0 /\ c <> 10 /\ c <> 13) l -> (length l < n)%nat ->
  ugets_loop n (l ++ 10 :: rest) = (l ++ [10], rest).
Proof.
  revert n. induction l as [|c l IH]; intros n H Hn; destruct n as [|n]; cbn in Hn; try lia; [done|].
  apply Forall_cons in H as [(N0 & N1 & N2) H]. cbn [app ugets_loop]. destruct (Z.eqb_spec c 10); [done|]. destruct (Z.eqb_spec c 13); [done|].
  cbn [orb]. rewrite IH by (done || lia). done.
Qed.
Lemma cstr_line l : Forall (fun c => c <> 0 /\ c <> 10 /\ c <> 13) l -> cstr (l ++ [10]) = l ++ [10].
Proof. induction 1 as [|c l (N0 & _) _ IH]; cbn; [done|]. destruct (Z.eqb_spec c 0); [done|]. by rewrite IH. Qed.

Definition lines_text (ls : list (list Z)) : list Z := concat (map (fun l => l ++ [10]) ls).
Definition lines_actions (ls : list (list Z)) : list action := concat (map (fun l => line_action (l ++ [10])) ls).

Lemma main_lines_fuel ls : forall fuel, Forall line_ok ls -> (length (lines_text ls) < fuel)%nat ->
  main_loop fuel (lines_text ls) = Some (lines_actions ls).
Proof.
  induction ls as [|l ls IH]; intros fuel H Hf; (destruct fuel as [|fuel]; [lia|]); [done|]. apply Forall_cons in H as [[Hl Hn] H].
  change (lines_text (l :: ls)) with ((l ++ [10]) ++ lines_text ls) in *. rewrite <- app_assoc in Hf |- *. cbn [app main_loop] in Hf |- *. unfold getcmd, ugets. rewrite ugets_line by (done || lia).
  rewrite cstr_line by done. destruct (l ++ [10]) as [|c l'] eqn:E; [by destruct l|]. rewrite IH; [cbn; by rewrite <- E|done|].
  rewrite length_app in Hf. cbn in Hf. lia.
Qed.

(** The shell does what each line says, in order. *)
Theorem sh_main_lines ls : Forall line_ok ls -> sh_main (lines_text ls) = Some (lines_actions ls).
Proof. intros H. apply main_lines_fuel; [done|lia]. Qed.

Lemma fd_new_spec o t fd t' : fd_new o t = Some (fd, t') -> t !! fd = Some None /\ (forall k, (k < fd)%nat -> exists x, t !! k = Some (Some x)) /\ t' = <[fd := Some o]> t.
Proof.
  unfold fd_new. intros H. apply fmap_Some in H as (fd0 & Hl & [= -> ->]). split_and!; [| |done]; revert fd0 Hl;
    induction t as [|[x|] t IH]; intros fd0; cbn; try done.
  - intros (k & Hk & ->)%fmap_Some. by apply IH.
  - by intros [= <-].
  - intros (k & Hk & ->)%fmap_Some [|j] Hj; [by exists x|]. apply (IH k Hk). lia.
  - intros [= <-]. lia.
Qed.

Lemma open_console_open f a b c t : open_console (S f) (Some a :: Some b :: Some c :: t) = Some (Some a :: Some b :: Some c :: t).
Proof.
  cbn [open_console]. destruct (fd_new _ _) as [[fd t']|] eqn:E; [|done]. apply fd_new_spec in E as (E1 & _ & ->).
  destruct fd as [|[|[|fd]]]; try done. change (3 <=? S (S (S fd)))%nat with true. cbv iota. unfold fd_close.
  f_equal. etransitivity; [apply (list_insert_insert_eq (A := option fobj))|]. by apply list_insert_id.
Qed.

(** Afterwards 0, 1 and 2 are in use, and nothing else has changed. *)
Theorem open_console_std a b c t : exists a' b' c', open_console 4 (a :: b :: c :: t) = Some (Some a' :: Some b' :: Some c' :: t) /\
  (forall x, a = Some x -> a' = x) /\ (forall x, b = Some x -> b' = x) /\ (forall x, c = Some x -> c' = x).
Proof.
  assert (forall f x y z, exists a' b' c', open_console (S f) (Some x :: Some y :: Some z :: t) = Some (Some a' :: Some b' :: Some c' :: t) /\ a' = x /\ b' = y /\ c' = z) as H
    by (intros f x y z; exists x, y, z; by rewrite open_console_open).
  set (k := FFile console O_RDWR).
  destruct a as [a|], b as [b|], c as [c|];
  [ destruct (H 3%nat a b c) as (a' & b' & c' & E & -> & -> & ->) | destruct (H 2%nat a b k) as (a' & b' & c' & E & -> & -> & ->)
  | destruct (H 2%nat a k c) as (a' & b' & c' & E & -> & -> & ->) | destruct (H 1%nat a k k) as (a' & b' & c' & E & -> & -> & ->)
  | destruct (H 2%nat k b c) as (a' & b' & c' & E & -> & -> & ->) | destruct (H 1%nat k b k) as (a' & b' & c' & E & -> & -> & ->)
  | destruct (H 1%nat k k c) as (a' & b' & c' & E & -> & -> & ->) | destruct (H 0%nat k k k) as (a' & b' & c' & E & -> & -> & ->)];
  do 3 eexists; (split; [exact E|naive_solver]).
Qed.
