(* ===== verification/ShTheorems.v ===== *)
(** * Properties of the shell's parser *)
From stdpp Require Import base tactics numbers list strings sets.
From Stdlib Require Import ZArith Lia.
From S2P Require Import Prelude Sh ShLex ShSpec ShRound ShRun.

Open Scope Z_scope.

Lemma lexes_nonnul l ts : lexes l ts -> Forall (fun c => c <> 0) l.
Proof.
  induction 1 as [|c l ts Hw _ IH|c l ts Hs _ _ IH|l ts _ _ IH|l ts _ IH|w l ts [_ Hw] _ _ IH]; rewrite ?Forall_cons, ?Forall_app, ?Forall_nil;
    [done| | |done|done|].
  - split; [|done]. intros ->. done.
  - split; [by apply sym_range in Hs as [? _]|done].
  - split; [|done]. eapply Forall_impl; [exact Hw|]. intros c Hc. by apply ordinary_split in Hc as [Hc _].
Qed.

(** ** A text for every sequence of tokens *)

Definition tok_ok (t : tok) : Prop := match t with TSym c => is_sym c = true | TApp => True | TWord w => word w end.
Definition tok_text (t : tok) : list Z := match t with TSym c => [c] | TApp => [62; 62] | TWord w => w end.
(** The tokens with a space behind each. *)
Definition render (ts : list tok) : list Z := ts ≫= (fun t => tok_text t ++ [32]).

Lemma render_lexes ts : Forall tok_ok ts -> lexes (render ts) ts.
Proof.
  induction 1 as [|t ts Ht _ IH]; [constructor|]. assert (lexes (32 :: render ts) ts) as Hr by (by apply lx_ws).
  unfold render in *. cbn. rewrite <- app_assoc. cbn. destruct t as [c| |w]; cbn in *.
  - destruct (decide (c = 62)) as [->|]; [by apply lx_gt|by apply lx_sym].
  - by apply lx_app.
  - apply lx_word; [done| |done]. by intros c [= <-].
Qed.

Lemma redir_tok_ok m : tok_ok (redir_tok m).
Proof. unfold redir_tok. by repeat case_match. Qed.
Lemma at_level_ok p n ts : Forall tok_ok ts -> Forall tok_ok (at_level p n ts).
Proof. intros H. unfold at_level, paren. destruct (_ <? _)%nat; [|done]. by rewrite Forall_cons, Forall_app, Forall_cons. Qed.
Lemma show_ok a : forall p, good a -> Forall tok_ok (show p a).
Proof.
  induction a as [args|a IH f m fd|a IHa b IHb|a IHa b IHb|a IH]; intros p Hg; cbn [show]; apply at_level_ok; cbn in Hg.
  - destruct Hg as [Hg _]. by apply Forall_map.
  - destruct Hg as (Hg & Hw & _). rewrite Forall_app, !Forall_cons, Forall_nil. split_and!; [by apply IH|apply redir_tok_ok|done|done].
  - destruct Hg. rewrite Forall_app, Forall_cons. split_and!; [by apply IHa|done|by apply IHb].
  - destruct Hg. rewrite Forall_app, Forall_cons. split_and!; [by apply IHa|done|by apply IHb].
  - rewrite Forall_app, Forall_cons, Forall_nil. split_and!; [by apply IH|done|done].
Qed.

(** Every command the shell can express has a text. *)
Lemma show_lexes a : good a -> lexes (render (show 0 a)) (show 0 a).
Proof. intros H. by apply render_lexes, show_ok. Qed.

(** ** The theorems *)

(** C28.  The parser inverts the printer: take any command (words, at most
    nine to a program, redirections, pipes, lists, background, nested at
    will), print it with parentheses where the grammar needs them, and lay
    the tokens out with any white space.  parsecmd accepts the line, and the
    tree it returns reads, from the line that nulterminate has modified, as
    the same command. *)
Theorem shell_parse_roundtrip a buf : good a -> lexes buf (show 0 a) ->
  exists c b s, parsecmd buf = Ret (c, b) s /\ decode b c = a.
Proof.
  intros Hg HL. pose proof (parsecmd_tree_show buf (lexes_nonnul _ _ HL) a Hg HL) as W. apply wp_inv in W as (c & s & E & Ht).
  exists c, (nulterminate c (buf ++ [0])), s. unfold parsecmd. rewrite E. split; [done|]. apply decode_nulterminate; [by eapply lexes_nonnul|done].
Qed.

(** (a; b > c >> d) | e & *)
Definition sample_cmd : acmd :=
  ABack (APipe (AList (AExec [[97]]) (ARedir (ARedir (AExec [[98]; [45; 120]]) [99] TRUNC 1) [100] APPEND 1)) (AExec [[101]])).

Lemma shell_parse_roundtrip_witness :
  good sample_cmd /\ lexes (render (show 0 sample_cmd)) (show 0 sample_cmd) /\
  exists c b s, parsecmd (render (show 0 sample_cmd)) = Ret (c, b) s /\ decode b c = sample_cmd.
Proof.
  assert (forall c, ordinary c = true -> word [c]) as Hw by (intros c Hc; split; [done|by rewrite Forall_cons, Forall_nil]).
  assert (good sample_cmd) as Hg.
  { cbn. unfold redir_ok. rewrite !Forall_cons, !Forall_nil. split_and!; try (by apply Hw); try done; try set_solver. split; [done|].
    by rewrite !Forall_cons, Forall_nil. }
  split; [exact Hg|]. split; [by apply show_lexes|]. by apply shell_parse_roundtrip; [|apply show_lexes].
Defined.

(** C6.  The parser ends on every line: it returns a command the shell can
    express, whose strings are words of the line, or it gives up with one of
    its four messages; "parseblock" is never printed.  Printing the command
    and parsing it again gives the same command. *)
Theorem shell_parser_total buf : Forall (fun c => c <> 0) buf ->
  match parsecmd buf with
  | Ret (c, b) _ => good (decode b c) /\ tree_of buf c (decode b c) /\
      exists c' b' s', parsecmd (render (show 0 (decode b c))) = Ret (c', b') s' /\ decode b' c' = decode b c
  | Panic msg => msg ∈ parse_errors
  | NoFuel => False
  end.
Proof.
  intros Hn. pose proof (parsecmd_tree_wx buf Hn) as W. unfold wx in W. unfold parsecmd at 1.
  destruct (parsecmd_tree buf 0%nat) as [c s|msg|]; [|done|done]. destruct W as (a & Ht & Hg).
  rewrite (decode_nulterminate buf Hn c a Ht). split; [done|]. split; [done|].
  pose proof (show_lexes a Hg) as HL. pose proof (parsecmd_tree_show _ (lexes_nonnul _ _ HL) a Hg HL) as W.
  apply wp_inv in W as (c' & s' & E & Ht'). exists c', (nulterminate c' (render (show 0 a) ++ [0])), s'. unfold parsecmd.
  rewrite E. split; [done|]. apply decode_nulterminate; [by eapply lexes_nonnul|done].
Qed.

(** "a >" has no file; "(a" is not closed. *)
Lemma shell_parser_total_witness :
  parsecmd [97; 32; 62] = Panic "missing file for redirection" /\ parsecmd [40; 97] = Panic "syntax - missing )" /\
  match parsecmd [97; 124; 98] with
  | Ret (c, b) _ => good (decode b c) /\ decode b c = APipe (AExec [[97]]) (AExec [[98]])
  | _ => False
  end.
Proof.
  split; [reflexivity|]. split; [reflexivity|]. assert (Forall (fun c => c <> 0) [97; 124; 98]) as Hn by (by rewrite !Forall_cons, Forall_nil).
  pose proof (shell_parser_total [97; 124; 98] Hn) as H.
  assert (parsecmd [97; 124; 98] = Ret (PIPE (EXEC [(0, 1)%nat]) (EXEC [(2, 3)%nat]), [97; 0; 98; 0]) 3%nat) as E by reflexivity.
  rewrite E in H |- *. split; [apply H|reflexivity].
Defined.

(** C17.  The shell runs what the line says: for the text of any command, with
    descriptors 0, 1 and 2 open and no others, the programs that runcmd
    starts are those of the command, in its order, each with exactly three
    descriptors: standard output of the left side of a pipe is the write end
    and standard input of its right side the read end of the pipe made for
    it, redirections take precedence, everything else is inherited, and no
    other end of a pipe is left open in a program.  The process that has made
    a pipe waits for both sides, that of a list for its first command, and
    while they wait they have exactly the three descriptors the command was
    given, so no end of the pipe they made.  A program is started only by a
    process that has waited for all its children; and without background
    commands a process ends normally only when it has. *)
Theorem shell_runs_command a buf i o e : good a -> lexes buf (show 0 a) ->
  exists c b s, parsecmd buf = Ret (c, b) s /\
    acts (runcmd b c) (std i o e) 0 [] = wired a i o e [] /\
    (foreground c = true -> Forall waited (observe (runcmd b c) (std i o e) 0 [])).
Proof.
  intros Hg HL. pose proof (lexes_nonnul _ _ HL) as Hn.
  pose proof (parsecmd_tree_show buf Hn a Hg HL) as W. apply wp_inv in W as (c & s & E & Ht).
  pose proof (decode_nulterminate buf Hn c a Ht) as Ed. exists c, (nulterminate c (buf ++ [0])), s. unfold parsecmd. rewrite E.
  split; [done|]. split; [|intros Hf; by apply runcmd_waits]. rewrite <- Ed. apply runcmd_wired.
  apply (good_fds (nulterminate c (buf ++ [0]))). by rewrite Ed.
Qed.

(** a | b > c: two programs and two waits. *)
Lemma shell_runs_command_witness :
  let w := wired (APipe (AExec [[97]]) (ARedir (AExec [[98]]) [99] TRUNC 1)) (FOld 0) (FOld 1) (FOld 2) [] in
  w = [SExec [[97]] (std (FOld 0) (FPipeW []) (FOld 2)) 0; SExec [[98]] (std (FPipeR []) (FFile [99] TRUNC) (FOld 2)) 0;
       SWait (std (FOld 0) (FOld 1) (FOld 2)) 2; SWait (std (FOld 0) (FOld 1) (FOld 2)) 1] /\
  exists c b s, parsecmd (render (show 0 (APipe (AExec [[97]]) (ARedir (AExec [[98]]) [99] TRUNC 1)))) = Ret (c, b) s /\
    acts (runcmd b c) (std (FOld 0) (FOld 1) (FOld 2)) 0 [] = w.
Proof.
  intros w. split; [reflexivity|]. set (a := APipe _ _).
  assert (good a) as Hg.
  { assert (forall c, ordinary c = true -> word [c]) as Hw by (intros c Hc; split; [done|by rewrite Forall_cons, Forall_nil]).
    cbn. unfold redir_ok. rewrite !Forall_cons, !Forall_nil. split_and!; try (by apply Hw); try done. set_solver. }
  destruct (shell_runs_command a (render (show 0 a)) (FOld 0) (FOld 1) (FOld 2) Hg (show_lexes a Hg)) as (c & b & s & E & HP & _).
  exists c, b, s. split; [exact E|exact HP].
Defined.
