(* ===== verification/Plic.v ===== *)
(** * The interrupt controller (kernel/plic.c)

    The kernel reads and writes registers of the PLIC; what a register means
    is the platform's: the priority of a source, the enabled sources, the
    threshold and the claim register of a hart.  Sources raise interrupts,
    harts claim and complete them in any order. *)
From stdpp Require Import base tactics numbers list relations.
From Stdlib Require Import ZArith Lia.
From S2P Require Import Prelude Mem Riscv Kalloc Vm Paging UserCopy Demo Proc Syscall Exec Trap TrapTheorems.

Open Scope Z_scope.

Definition PLIC_NCPU : Z := 8.
Definition PLIC_SENABLE (hart : Z) : Z := PLIC + 0x2080 + hart * 0x100.
Definition PLIC_SPRIORITY (hart : Z) : Z := PLIC + 0x201000 + hart * 0x2000.
Definition PLIC_SCLAIM (hart : Z) : Z := PLIC + 0x201004 + hart * 0x2000.

(** The controller: priorities of the sources, enabled sources and threshold
    of each hart, and for each source whether its line is raised, whether an
    interrupt waits to be claimed, and whether one is being served. *)
Record plic := Plic {
  pl_prio : Z -> Z; pl_enable : Z -> Z; pl_thresh : Z -> Z;
  pl_line : Z -> bool; pl_pending : Z -> bool; pl_busy : Z -> bool
}.
Definition pupd {A} (i : Z) (x : A) (f : Z -> A) : Z -> A := fun j => if j =? i then x else f j.
Definition set_prio x p := Plic x (pl_enable p) (pl_thresh p) (pl_line p) (pl_pending p) (pl_busy p).
Definition set_enable x p := Plic (pl_prio p) x (pl_thresh p) (pl_line p) (pl_pending p) (pl_busy p).
Definition set_thresh x p := Plic (pl_prio p) (pl_enable p) x (pl_line p) (pl_pending p) (pl_busy p).
Definition set_line x p := Plic (pl_prio p) (pl_enable p) (pl_thresh p) x (pl_pending p) (pl_busy p).
Definition set_pending x p := Plic (pl_prio p) (pl_enable p) (pl_thresh p) (pl_line p) x (pl_busy p).
Definition set_busy x p := Plic (pl_prio p) (pl_enable p) (pl_thresh p) (pl_line p) (pl_pending p) x.

(** The register at an address. *)
Inductive plic_reg := RPriority (irq : Z) | REnable (hart : Z) | RThreshold (hart : Z) | RClaim (hart : Z) | ROther.
Definition decode (a : Z) : plic_reg :=
  let o := a - PLIC in
  if (0 <=? o) && (o <? 0x1000) && (o mod 4 =? 0) then RPriority (o / 4)
  else if (0x2080 <=? o) && (o <? 0x2080 + 0x100 * PLIC_NCPU) && ((o - 0x2080) mod 0x100 =? 0) then REnable ((o - 0x2080) / 0x100)
  else if (0x201000 <=? o) && (o <? 0x201000 + 0x2000 * PLIC_NCPU) then
    if (o - 0x201000) mod 0x2000 =? 0 then RThreshold ((o - 0x201000) / 0x2000)
    else if (o - 0x201000) mod 0x2000 =? 4 then RClaim ((o - 0x201000) / 0x2000)
    else ROther
  else ROther.

(** A store of a word: writing the claim register says that the interrupt has
    been served. *)
Definition plic_store (a v : Z) (p : plic) : plic :=
  match decode a with
  | RPriority irq => set_prio (pupd irq v (pl_prio p)) p
  | REnable hart => set_enable (pupd hart v (pl_enable p)) p
  | RThreshold hart => set_thresh (pupd hart v (pl_thresh p)) p
  | RClaim _ => set_busy (pupd v false (pl_busy p)) p
  | ROther => p
  end.

(** The sources of the first word of enable bits; no bit of the other words
    is set by the kernel, and they are clear after reset. *)
Definition NSOURCES : Z := 32.
(** Source [irq] may be claimed by [hart]: it is pending, enabled for the
    hart, and its priority is above the threshold. *)
Definition claimable (p : plic) (hart irq : Z) : bool :=
  pl_pending p irq && Z.testbit (pl_enable p hart) irq && (pl_thresh p hart <? pl_prio p irq).
(** A load from the claim register answers a source of highest priority (the
    lowest number among those), which is no longer pending then, or 0. *)
Definition better (p : plic) (hart best irq : Z) : Z :=
  if claimable p hart irq && ((best =? 0) || (pl_prio p best <? pl_prio p irq)) then irq else best.
Definition claim_scan (p : plic) (hart : Z) : Z := fold_left (better p hart) (seqZ 1 (NSOURCES - 1)) 0.
Definition load_claim (p : plic) (hart : Z) : Z * plic :=
  let irq := claim_scan p hart in
  (irq, if irq =? 0 then p else set_busy (pupd irq true (pl_busy p)) (set_pending (pupd irq false (pl_pending p)) p)).

(** ** plic.c *)

Definition plicinit (p : plic) : plic :=
  plic_store (PLIC + VIRTIO0_IRQ * 4) 1 (plic_store (PLIC + UART0_IRQ * 4) 1 p).
Definition plicinithart (hart : Z) (p : plic) : plic :=
  plic_store (PLIC_SPRIORITY hart) 0 (plic_store (PLIC_SENABLE hart) (Z.lor (Z.shiftl 1 UART0_IRQ) (Z.shiftl 1 VIRTIO0_IRQ)) p).
Definition plic_claim (hart : Z) (p : plic) : Z * plic :=
  match decode (PLIC_SCLAIM hart) with RClaim h => load_claim p h | _ => (0, p) end.
Definition plic_complete (hart irq : Z) (p : plic) : plic := plic_store (PLIC_SCLAIM hart) irq p.

(** ** The registers *)

Definition is_hart (h : Z) : Prop := 0 <= h < PLIC_NCPU.
Definition irq_source (irq : Z) : Prop := irq = UART0_IRQ \/ irq = VIRTIO0_IRQ.

Lemma decode_enable h : is_hart h -> decode (PLIC_SENABLE h) = REnable h.
Proof. intros [H1 H2]. assert (h = 0 \/ h = 1 \/ h = 2 \/ h = 3 \/ h = 4 \/ h = 5 \/ h = 6 \/ h = 7) as H by (unfold PLIC_NCPU in H2; lia). by repeat destruct H as [->|H]; [..|subst h]. Qed.
Lemma decode_threshold h : is_hart h -> decode (PLIC_SPRIORITY h) = RThreshold h.
Proof. intros [H1 H2]. assert (h = 0 \/ h = 1 \/ h = 2 \/ h = 3 \/ h = 4 \/ h = 5 \/ h = 6 \/ h = 7) as H by (unfold PLIC_NCPU in H2; lia). by repeat destruct H as [->|H]; [..|subst h]. Qed.
Lemma decode_claim h : is_hart h -> decode (PLIC_SCLAIM h) = RClaim h.
Proof. intros [H1 H2]. assert (h = 0 \/ h = 1 \/ h = 2 \/ h = 3 \/ h = 4 \/ h = 5 \/ h = 6 \/ h = 7) as H by (unfold PLIC_NCPU in H2; lia). by repeat destruct H as [->|H]; [..|subst h]. Qed.

(** The mask of plicinithart. *)
Lemma enable_mask irq : Z.testbit (Z.lor (Z.shiftl 1 UART0_IRQ) (Z.shiftl 1 VIRTIO0_IRQ)) irq = true <-> irq_source irq.
Proof.
  unfold irq_source. destruct (Z.lt_ge_cases irq 0) as [Hn|Hn]; [rewrite Z.testbit_neg_r by done; split; [done|intros [-> | ->]; done]|].
  rewrite Z.lor_spec, orb_true_iff, !Z.shiftl_1_l, !Z.pow2_bits_eqb, !Z.eqb_eq by done. split; intros [<-|<-]; auto.
Qed.

Lemma plicinit_eq p : plicinit p = set_prio (pupd VIRTIO0_IRQ 1 (pupd UART0_IRQ 1 (pl_prio p))) p.
Proof. reflexivity. Qed.
Lemma plicinithart_eq h p : is_hart h ->
  plicinithart h p = set_thresh (pupd h 0 (pl_thresh p)) (set_enable (pupd h (Z.lor (Z.shiftl 1 UART0_IRQ) (Z.shiftl 1 VIRTIO0_IRQ)) (pl_enable p)) p).
Proof. intros Hh. unfold plicinithart, plic_store. by rewrite (decode_enable h Hh), (decode_threshold h Hh). Qed.
Lemma plic_complete_eq h irq p : is_hart h -> plic_complete h irq p = set_busy (pupd irq false (pl_busy p)) p.
Proof. intros Hh. unfold plic_complete, plic_store. by rewrite (decode_claim h Hh). Qed.

Lemma plic_claim_eq h p : is_hart h -> plic_claim h p = load_claim p h.
Proof. intros Hh. unfold plic_claim. by rewrite decode_claim. Qed.

(** What the scan of the sources finds. *)
Lemma better_scan p h l b :
  (b = 0 \/ claimable p h b = true) -> Forall (fun i => i <> 0) l ->
  let r := fold_left (better p h) l b in
  (r = 0 /\ b = 0 /\ Forall (fun i => claimable p h i = false) l) \/
  (r <> 0 /\ (r = b \/ r ∈ l) /\ claimable p h r = true /\ (b <> 0 -> pl_prio p b <= pl_prio p r) /\
   Forall (fun i => claimable p h i = true -> pl_prio p i <= pl_prio p r) l).
Proof.
  revert b. induction l as [|i l IH]; intros b Hb Hl; cbn [fold_left].
  - destruct (Z.eq_dec b 0) as [->|N]; [left; auto|right]. destruct Hb as [|Hb]; [done|]. split_and!; auto; lia.
  - apply Forall_cons in Hl as [Hi Hl]. unfold better at 2 4 6 8 10 12 14. destruct (claimable p h i) eqn:Ei; cbn [andb].
    + destruct ((b =? 0) || (pl_prio p b <? pl_prio p i)) eqn:Eb.
      * destruct (IH i (or_intror Ei) Hl) as [(_ & -> & _)|(N & Hr & Hc & Hp & Hf)]; [done|right].
        split_and!; [done| |done| |constructor; auto].
        -- right. destruct Hr as [->|Hr]; [apply list_elem_of_here|by apply list_elem_of_further].
        -- intros Hb0. apply orb_true_iff in Eb as [Eb%Z.eqb_eq|Eb%Z.ltb_lt]; [done|]. specialize (Hp Hi). lia.
      * apply orb_false_iff in Eb as [Eb%Z.eqb_neq Ep%Z.ltb_ge].
        destruct (IH b Hb Hl) as [(_ & -> & _)|(N & Hr & Hc & Hp & Hf)]; [done|right].
        split_and!; [done| |done|done|constructor; [specialize (Hp Eb); lia|done]].
        destruct Hr; [by left|right; by apply list_elem_of_further].
    + destruct (IH b Hb Hl) as [(E & -> & Hf)|(N & Hr & Hc & Hp & Hf)]; [left; auto|right].
      split_and!; [done| |done|done|constructor; [congruence|done]].
      destruct Hr; [by left|right; by apply list_elem_of_further].
Qed.

(** A source that a claim of [h] must find, if there is one. *)
Definition must_claim (p : plic) (h irq : Z) : Prop := 0 < irq < NSOURCES /\ claimable p h irq = true.
Lemma claim_scan_spec p h :
  (claim_scan p h = 0 /\ forall j, ~ must_claim p h j) \/
  (must_claim p h (claim_scan p h) /\ forall j, must_claim p h j -> pl_prio p j <= pl_prio p (claim_scan p h)).
Proof.
  assert (forall i, i ∈ seqZ 1 (NSOURCES - 1) <-> 0 < i < NSOURCES) as Hin by (intros i; rewrite elem_of_seqZ; unfold NSOURCES; lia).
  unfold claim_scan, must_claim. revert Hin. generalize (seqZ 1 (NSOURCES - 1)). intros l Hin.
  assert (Forall (fun i => i <> 0) l) as Hl by (apply Forall_forall; intros i Hi; apply Hin in Hi; lia).
  destruct (better_scan p h l 0 (or_introl eq_refl) Hl) as [(E & _ & Hf)|(N & Hr & Hc & _ & Hf)]; rewrite Forall_forall in Hf.
  - left. split; [done|]. intros j [Hj Hc]. apply Hin in Hj. rewrite (Hf j Hj) in Hc. done.
  - right. destruct Hr as [|Hr]; [done|]. split; [split; [by apply Hin|done]|]. intros j [Hj Hjc]. apply Hf; [by apply Hin|done].
Qed.
Lemma load_claim_spec p h irq p' :
  load_claim p h = (irq, p') ->
  (irq = 0 /\ p' = p /\ forall j, ~ must_claim p h j) \/
  (must_claim p h irq /\ (forall j, must_claim p h j -> pl_prio p j <= pl_prio p irq) /\
   p' = set_busy (pupd irq true (pl_busy p)) (set_pending (pupd irq false (pl_pending p)) p)).
Proof.
  unfold load_claim. pose proof (claim_scan_spec p h) as H. revert H. generalize (claim_scan p h). intros i H [= <- <-].
  destruct H as [[-> H]|[Hi H]]; [left|right]; [done|]. split_and!; [done|done|]. destruct Hi as [Hi _]. by destruct (Z.eqb_spec i 0); [lia|].
Qed.

(** ** Interrupts under way *)

(** [sv_irq h] is the interrupt hart [h] is serving (0: none): devintr claims
    it, runs the handler and completes it with interrupts off; [sv_ready h]
    says that [h] has run plicinithart, [sv_init] that plicinit was run.  Any
    source may raise and lower its line; the gateway of a source lets its
    line become pending unless an interrupt of the source is pending or not
    yet completed (PLIC specification). *)
Record serving := Serving { sv_plic : plic; sv_irq : Z -> Z; sv_ready : Z -> bool; sv_init : bool }.
Inductive pstep : serving -> serving -> Prop :=
  | ps_raise irq p s r i : pstep (Serving p s r i) (Serving (set_line (pupd irq true (pl_line p)) p) s r i)
  | ps_lower irq p s r i : pstep (Serving p s r i) (Serving (set_line (pupd irq false (pl_line p)) p) s r i)
  | ps_gateway irq p s r i : pl_line p irq = true -> pl_pending p irq = false -> pl_busy p irq = false ->
      pstep (Serving p s r i) (Serving (set_pending (pupd irq true (pl_pending p)) p) s r i)
  | ps_init p s r i : pstep (Serving p s r i) (Serving (plicinit p) s r true)
  | ps_inithart h p s r i : is_hart h -> pstep (Serving p s r i) (Serving (plicinithart h p) s (pupd h true r) i)
  | ps_claim h irq p p' s r i : is_hart h -> r h = true -> s h = 0 -> plic_claim h p = (irq, p') ->
      pstep (Serving p s r i) (Serving p' (pupd h irq s) r i)
  | ps_complete h p s r i : is_hart h -> s h <> 0 ->
      pstep (Serving p s r i) (Serving (plic_complete h (s h) p) (pupd h 0 s) r i).

(** After reset no interrupt is being served; the registers may hold anything. *)
Record sv_reset (x : serving) : Prop := {
  sr_busy : forall irq, pl_busy (sv_plic x) irq = false;
  sr_idle : forall h, sv_irq x h = 0;
  sr_ready : forall h, sv_ready x h = false;
  sr_init : sv_init x = false
}.

Record sv_inv (x : serving) : Prop := {
  si_serving : forall h, sv_irq x h = 0 \/ (irq_source (sv_irq x h) /\ is_hart h);
  si_busy : forall irq, pl_busy (sv_plic x) irq = true <-> irq <> 0 /\ exists h, sv_irq x h = irq;
  si_one : forall h h', sv_irq x h = sv_irq x h' -> sv_irq x h <> 0 -> h = h';
  si_apart : forall irq, pl_busy (sv_plic x) irq = true -> pl_pending (sv_plic x) irq = false;
  si_hart : forall h, sv_ready x h = true -> is_hart h /\ pl_thresh (sv_plic x) h = 0 /\
    pl_enable (sv_plic x) h = Z.lor (Z.shiftl 1 UART0_IRQ) (Z.shiftl 1 VIRTIO0_IRQ);
  si_prio : sv_init x = true -> forall irq, irq_source irq -> pl_prio (sv_plic x) irq = 1
}.

Lemma pupd_eq {A} i (x : A) f : pupd i x f i = x.
Proof. unfold pupd. by rewrite Z.eqb_refl. Qed.
Lemma pupd_ne {A} i j (x : A) f : j <> i -> pupd i x f j = f j.
Proof. unfold pupd. destruct (Z.eqb_spec j i); congruence. Qed.
Ltac pupd_cases := unfold pupd in *; repeat match goal with |- context [?a =? ?b] => destruct (Z.eqb_spec a b); subst | H : context [?a =? ?b] |- _ => destruct (Z.eqb_spec a b); subst end.

Lemma source_range irq : irq_source irq -> 0 < irq < NSOURCES.
Proof. by intros [-> | ->]. Qed.
(** A hart that is set up claims only the uart's and the disk's interrupts. *)
Lemma claimed_source x h irq : sv_inv x -> sv_ready x h = true -> claimable (sv_plic x) h irq = true -> irq_source irq /\ pl_pending (sv_plic x) irq = true.
Proof.
  intros I Hr Hc. destruct (si_hart x I h Hr) as (_ & _ & He). unfold claimable in Hc. rewrite He in Hc.
  apply andb_true_iff in Hc as [[Hp Hc]%andb_true_iff _]. by apply enable_mask in Hc.
Qed.

Lemma pstep_inv x y : pstep x y -> sv_inv x -> sv_inv y.
Proof.
  intros St I. pose proof I as [I3 I4 I5 I6 I7 I8]. destruct St as [irq p s r i|irq p s r i|irq p s r i Hl Hp Hb|p s r i|h p s r i Hh|h irq p p' s r i Hh Hr H0 Hc|h p s r i Hh Hn]; cbn in *.
  - by constructor.
  - by constructor.
  - constructor; cbn; try done. intros j. pupd_cases; [congruence|apply I6].
  - rewrite plicinit_eq. constructor; cbn; try done. intros _ j Hj. pupd_cases; try done. destruct Hj; congruence.
  - rewrite plicinithart_eq by done. constructor; cbn; try done. intros j. pupd_cases; [done|apply I7].
  - rewrite plic_claim_eq in Hc by done. apply load_claim_spec in Hc as [(-> & -> & _)|([Hi Hcl] & _ & ->)].
    + constructor; cbn; try done.
      * intros j. pupd_cases; [by left|apply I3].
      * intros j. rewrite I4. split; (intros [N [k Hk]]; split; [done|]; exists k); pupd_cases; congruence.
      * intros j k. pupd_cases; try done; try congruence. apply I5.
    + destruct (claimed_source _ h irq I Hr Hcl) as [Hsrc Hpe]. cbn in Hpe. assert (forall k, s k <> irq) as Hfree.
      { intros k Hk. assert (pl_busy p irq = true) as Hb by (apply I4; split; [lia|by exists k]). apply I6 in Hb. congruence. }
      constructor; cbn; try done.
      * intros j. pupd_cases; [by right|apply I3].
      * intros j. destruct (Z.eqb_spec j irq) as [->|Nj].
        -- rewrite pupd_eq. split; [|done]. intros _. split; [lia|]. exists h. by rewrite pupd_eq.
        -- rewrite pupd_ne by done. rewrite I4. split; (intros [N [k Hk]]; split; [done|]; exists k); pupd_cases; congruence.
      * intros j k. pupd_cases; try done; [intros E; by destruct (Hfree k)|intros E; by destruct (Hfree j)|apply I5].
      * intros j. pupd_cases; [done|apply I6].
  - rewrite plic_complete_eq by done. constructor; cbn; try done.
    + intros j. pupd_cases; [by left|apply I3].
    + intros j. destruct (Z.eqb_spec j (s h)) as [->|Nj].
      * rewrite pupd_eq. split; [done|]. intros [N [k Hk]]. revert Hk. pupd_cases; [congruence|]. intros Hk. assert (k = h) by (apply I5; congruence). congruence.
      * rewrite pupd_ne by done. rewrite I4. split; (intros [N [k Hk]]; split; [done|]).
        -- exists k. pupd_cases; congruence.
        -- exists k. revert Hk. pupd_cases; congruence.
    + intros j k. pupd_cases; try done. apply I5.
    + intros j Hj. pupd_cases; [done|by apply I6].
Qed.

Lemma reset_inv x0 x : sv_reset x0 -> rtc pstep x0 x -> sv_inv x.
Proof.
  intros [R1 R2 R3 R4] R. revert x R. apply rtc_ind_r; [|intros y z _ St; by apply pstep_inv].
  constructor; cbn.
  - intros h. left. apply R2.
  - intros irq. rewrite R1. split; [done|]. intros [N [h <-]]. by rewrite R2 in N.
  - intros h h'. by rewrite R2.
  - intros irq. by rewrite R1.
  - intros h. by rewrite R3.
  - by rewrite R4.
Qed.

(** ** devintr on this controller *)

Section devintr.
Context {KL : KernelLayout} {FS : FsOps} {PF : ProcFs} {PL : ProcLayout} {EL : ExecLayout} {TL : TrapLayout}.
(** The state of the two devices and their interrupt handlers. *)
Context {D : Type} (uart_handler disk_handler : M D unit).

(** What devintr of hart [h] calls. *)
Definition plic_devices (h : Z) : Devices := {|
  dev := plic * D;
  Trap.plic_claim := fun x => let '(irq, p) := plic_claim h (fst x) in Ret irq (p, snd x);
  Trap.plic_complete irq := modify (fun x => (plic_complete h irq (fst x), snd x));
  uartintr := zoom snd (fun d x => (fst x, d)) uart_handler;
  virtio_disk_intr := zoom snd (fun d x => (fst x, d)) disk_handler
|}.

(** The handler of an interrupt. *)
Definition handler (irq : Z) : M D unit := if irq =? UART0_IRQ then uart_handler else if irq =? VIRTIO0_IRQ then disk_handler else skip.

(** devintr claims an interrupt, runs its handler once and completes it, and
    reports nothing unexpected. *)
Lemma devintr_external x h me (s : @tstate _ (plic_devices h)) d :
  sv_inv x -> sv_ready x h = true -> t_dev s = (sv_plic x, d) -> r_scause (t_hart s) = SCAUSE_EXTERNAL ->
  let '(irq, p1) := plic_claim h (sv_plic x) in
  devintr (DV := plic_devices h) me s = match handler irq d with
    | Ret _ d' => Ret 1 (set_dev (DV := plic_devices h) (if irq =? 0 then p1 else plic_complete h irq p1, d') s)
    | Panic m => Panic m
    | NoFuel => NoFuel
    end.
Proof.
  intros I Hr Hd Hs. destruct (si_hart x I h Hr) as (Hh & _). destruct (plic_claim h (sv_plic x)) as [irq p1] eqn:Ec.
  assert (irq = 0 \/ irq = UART0_IRQ \/ irq = VIRTIO0_IRQ) as Hirq.
  { rewrite plic_claim_eq in Ec by done. apply load_claim_spec in Ec as [(-> & _)|([_ Hc] & _)]; [by left|]. right. by apply (claimed_source x h irq I Hr). }
  destruct s as [k ht dv tk fst_ ms]. cbn in Hd, Hs. subst dv.
  unfold devintr, on_dev, zoom, mbind, M_bind. cbn -[plic_claim plic_complete]. rewrite Hs. change (SCAUSE_EXTERNAL =? SCAUSE_EXTERNAL) with true. cbv iota.
  cbn -[plic_claim plic_complete]. rewrite Ec. unfold handler.
  destruct Hirq as [-> | [-> | ->]]; cbn -[plic_claim plic_complete]; [done| |].
  - unfold zoom. cbn -[plic_claim plic_complete]. destruct (uart_handler d); done.
  - unfold zoom. cbn -[plic_claim plic_complete]. destruct (disk_handler d); done.
Qed.
End devintr.


(** The uart and the sound card (source 7) interrupt; hart 0 claims the
    interrupt of the uart. *)
Definition plic_reset : serving :=
  Serving (Plic (fun _ => 3) (fun _ => 0) (fun _ => 7) (fun _ => false) (fun _ => false) (fun _ => false)) (fun _ => 0) (fun _ => false) false.
Definition plic_demo_p : plic :=
  let p := plicinithart 0 (plicinit (sv_plic plic_reset)) in
  let p := set_line (pupd UART0_IRQ true (pl_line p)) p in
  let p := set_line (pupd 7 true (pl_line p)) p in
  let p := set_pending (pupd UART0_IRQ true (pl_pending p)) p in
  set_pending (pupd 7 true (pl_pending p)) p.
Definition plic_demo : serving :=
  Serving (snd (plic_claim 0 plic_demo_p)) (pupd 0 UART0_IRQ (fun _ => 0)) (pupd 0 true (fun _ => false)) true.
Lemma plic_demo_reached : rtc pstep plic_reset plic_demo.
Proof.
  unfold plic_reset. eapply rtc_l; [apply ps_init|]. eapply rtc_l; [by apply (ps_inithart 0)|].
  eapply rtc_l; [apply (ps_raise UART0_IRQ)|]. eapply rtc_l; [apply (ps_raise 7)|].
  eapply rtc_l; [by apply (ps_gateway UART0_IRQ)|]. eapply rtc_l; [by apply (ps_gateway 7)|].
  by apply rtc_once, (ps_claim 0 UART0_IRQ).
Qed.

