(* ===== verification/Uprog.v ===== *)
(** * The small user programs (user/cat.c, wc.c, echo.c, ls.c, kill.c, ln.c,
      mkdir.c, rm.c, zombie.c, init.c, main of grep.c, system calls of ulib.c)

    A program is the tree of the system calls it can make: a call with the
    answer of the kernel as the argument of what follows.  A program returns
    from a function, ends by exit, runs out of fuel (of a loop over reads), or
    does something C does not define, such as a write outside of an array.
    [always] says what holds however the kernel answers. *)
From stdpp Require Import base tactics numbers list strings.
From Stdlib Require Import ZArith Lia Ascii.
From Stdlib Require String.
From S2P Require Import Prelude Block Fs Sh Printf Grep.

Open Scope Z_scope.

Inductive call :=
  | Cread (fd n : Z) | Cwrite (fd : Z) (bytes : list Z) | Copen (path : list Z) (mode : Z) | Cclose (fd : Z) | Cfstat (fd : Z)
  | Cfork | Cexec (path : list Z) (argv : list (list Z)) | Cwait | Ckill (pid : Z) | Clink (old new : list Z)
  | Cmkdir (path : list Z) | Cunlink (path : list Z) | Cmknod (path : list Z) (major minor : Z) | Cdup (fd : Z) | Cpause (n : Z) | Csbrk (n mode : Z).
(** The value a call returns, and the bytes it stores in the caller's memory. *)
Abbreviation answer := (Z * list Z)%type.
Abbreviation event := (call * answer)%type.

Inductive prog (A : Type) :=
  | Done (a : A)
  | Exit (code : Z)
  | OutOfFuel
  | Undefined
  | Call (c : call) (k : answer -> prog A).
Arguments Done {A}. Arguments Exit {A}. Arguments OutOfFuel {A}. Arguments Undefined {A}. Arguments Call {A}.

#[export] Instance prog_ret : MRet prog := fun A => Done.
#[export] Instance prog_bind : MBind prog := fun A B f =>
  fix bind p := match p with
  | Done a => f a
  | Exit code => Exit code
  | OutOfFuel => OutOfFuel
  | Undefined => Undefined
  | Call c k => Call c (fun a => bind (k a))
  end.

Definition sys (c : call) : prog answer := Call c Done.
(** A call of which only the returned value matters. *)
Definition sys_ (c : call) : prog Z := a ← sys c; mret a.1.

(** The bytes of a text, and a line of it. *)
Definition txt (s : string) : list Z := map (fun c => Z.of_N (N_of_ascii c)) (String.list_ascii_of_string s).
Definition line (s : string) : list Z := txt s ++ [10].

(** ** printf.c: vprintf hands each character to putc, which writes it *)
Fixpoint put_chars (fd : Z) (out : list Z) : prog unit :=
  match out with [] => mret tt | c :: out => sys_ (Cwrite fd [c]);; put_chars fd out end.
Definition fprintf (fd : Z) (fmt : list Z) (args : list varg) : prog unit :=
  match vprintf fmt args with Some out => put_chars fd out | None => Undefined end.

Definition O_RDONLY : Z := 0.

(** ** cat.c *)
Fixpoint cat (fuel : nat) (fd : Z) : prog unit :=
  match fuel with
  | O => OutOfFuel
  | S fuel =>
      '(n, buf) ← sys (Cread fd 512);
      if 0 <? n then
        r ← sys_ (Cwrite 1 buf);
        if negb (r =? n) then fprintf 2 (line "cat: write error") [];; Exit 1 else cat fuel fd
      else if n <? 0 then fprintf 2 (line "cat: read error") [];; Exit 1
      else mret tt
  end.

Fixpoint cat_files (fuel : nat) (args : list (list Z)) : prog unit :=
  match args with
  | [] => mret tt
  | a :: args =>
      fd ← sys_ (Copen a O_RDONLY);
      if fd <? 0 then fprintf 2 (line "cat: cannot open %s") [VStr (Some a)];; Exit 1
      else cat fuel fd;; sys_ (Cclose fd);; cat_files fuel args
  end.
Definition cat_main (fuel : nat) (args : list (list Z)) : prog unit :=
  match args with [] => cat fuel 0;; Exit 0 | _ => cat_files fuel args;; Exit 0 end.

(** ** wc.c *)
Record counts := Counts { n_lines : Z; n_words : Z; n_chars : Z; inword : bool }.
Definition wc_byte (s : counts) (x : Z) : counts :=
  let c := s32 (n_chars s + 1) in
  let l := if x =? 10 then s32 (n_lines s + 1) else n_lines s in
  if sstrchr [32; 13; 9; 10; 11] x then Counts l (n_words s) c false
  else if negb (inword s) then Counts l (s32 (n_words s + 1)) c true
  else Counts l (n_words s) c (inword s).
Fixpoint wc_loop (fuel : nat) (fd : Z) (s : counts) : prog counts :=
  match fuel with
  | O => OutOfFuel
  | S fuel =>
      '(n, buf) ← sys (Cread fd 512);
      if 0 <? n then wc_loop fuel fd (fold_left wc_byte buf s)
      else if n <? 0 then fprintf 1 (line "wc: read error") [];; Exit 1
      else mret s
  end.
Definition wc (fuel : nat) (fd : Z) (name : list Z) : prog unit :=
  s ← wc_loop fuel fd (Counts 0 0 0 false);
  fprintf 1 (line "%d %d %d %s") [VWord (n_lines s); VWord (n_words s); VWord (n_chars s); VStr (Some name)].

Fixpoint wc_files (fuel : nat) (args : list (list Z)) : prog unit :=
  match args with
  | [] => mret tt
  | a :: args =>
      fd ← sys_ (Copen a O_RDONLY);
      if fd <? 0 then fprintf 1 (line "wc: cannot open %s") [VStr (Some a)];; Exit 1
      else wc fuel fd a;; sys_ (Cclose fd);; wc_files fuel args
  end.
Definition wc_main (fuel : nat) (args : list (list Z)) : prog unit :=
  match args with [] => wc fuel 0 [];; Exit 0 | _ => wc_files fuel args;; Exit 0 end.

(** ** echo.c *)
Fixpoint echo_args (args : list (list Z)) : prog unit :=
  match args with
  | [] => mret tt
  | a :: args => sys_ (Cwrite 1 a);; sys_ (Cwrite 1 (match args with [] => [10] | _ => [32] end));; echo_args args
  end.
Definition echo_main (args : list (list Z)) : prog unit := echo_args args;; Exit 0.

(** ** kill.c, ln.c, mkdir.c, rm.c, zombie.c *)
Fixpoint kill_args (args : list (list Z)) : prog unit :=
  match args with [] => mret tt | a :: args => sys_ (Ckill (atoi a));; kill_args args end.
Definition kill_main (args : list (list Z)) : prog unit :=
  match args with [] => fprintf 2 (line "usage: kill pid...") [];; Exit 1 | _ => kill_args args;; Exit 0 end.

Definition ln_main (args : list (list Z)) : prog unit :=
  match args with
  | [old; new] =>
      r ← sys_ (Clink old new);
      (if r <? 0 then fprintf 2 (line "link %s %s: failed") [VStr (Some old); VStr (Some new)] else mret tt);;
      Exit 0
  | _ => fprintf 2 (line "Usage: ln old new") [];; Exit 1
  end.

(** mkdir and rm stop at the first file the kernel refuses. *)
Fixpoint each_file (c : list Z -> call) (failed : list Z) (args : list (list Z)) : prog unit :=
  match args with
  | [] => mret tt
  | a :: args => r ← sys_ (c a); if r <? 0 then fprintf 2 failed [VStr (Some a)] else each_file c failed args
  end.
Definition mkdir_main (args : list (list Z)) : prog unit :=
  match args with
  | [] => fprintf 2 (line "Usage: mkdir files...") [];; Exit 1
  | _ => each_file Cmkdir (line "mkdir: %s failed to create") args;; Exit 0
  end.
Definition rm_main (args : list (list Z)) : prog unit :=
  match args with
  | [] => fprintf 2 (line "Usage: rm files...") [];; Exit 1
  | _ => each_file Cunlink (line "rm: %s failed to delete") args;; Exit 0
  end.

Definition zombie_main : prog unit :=
  r ← sys_ Cfork; (if 0 <? r then sys_ (Cpause 5);; mret tt else mret tt);; Exit 0.

(** ** start, sbrk, sbrklazy and stat of ulib.c *)
Definition ustart (main : prog Z) : prog unit := r ← main; Exit r.
Definition SBRK_EAGER : Z := 1.
Definition SBRK_LAZY : Z := 2.
Definition sbrk (n : Z) : prog Z := sys_ (Csbrk n SBRK_EAGER).
Definition sbrklazy (n : Z) : prog Z := sys_ (Csbrk n SBRK_LAZY).
Definition ustat (path : list Z) : prog answer :=
  fd ← sys_ (Copen path O_RDONLY);
  if fd <? 0 then mret (-1, [])
  else r ← sys (Cfstat fd); sys_ (Cclose fd);; mret r.
(** The fields of struct stat in its 24 bytes. *)
Definition st_ino (st : list Z) : Z := u32_at st 4.
Definition st_type (st : list Z) : Z := s16 (u16_at st 8).
Definition st_size (st : list Z) : Z := le_value (get_bytes st 16 8).

(** ** ls.c *)

(** for(p=path+strlen(path); p >= path && *p != '/'; p--); p++: [k] is the
    number of places from path to p, with p. *)
Fixpoint fmt_scan (path : list Z) (k : nat) : nat :=
  match k with O => O | S k => if nth k path 0 =? 47 then S k else fmt_scan path k end.
(** The name, as the characters of the string that is returned. *)
Definition fmtname (path : list Z) : list Z :=
  let p := drop (fmt_scan path (S (length path))) path in
  if (Z.to_nat DIRSIZ <=? length p)%nat then p
  else p ++ replicate (Z.to_nat DIRSIZ - length p) 32.

(** The string that begins a buffer, up to its NUL. *)
Fixpoint cstr (buf : list Z) : list Z := match buf with [] => [] | x :: buf => if x =? 0 then [] else x :: cstr buf end.
(** Stores into buf[512]. *)
Definition LSBUF : Z := 512.
Definition buf_put (buf : list Z) (off : Z) (bytes : list Z) : prog (list Z) :=
  if (0 <=? off) && (off + Z.of_nat (length bytes) <=? LSBUF) then mret (set_bytes buf off bytes) else Undefined.

Definition print_entry (name st : list Z) : prog unit :=
  fprintf 1 (line "%s %d %d %d") [VStr (Some (fmtname name)); VWord (st_type st); VWord (st_ino st); VWord (s32 (w32 (st_size st)))].

Fixpoint ls_entries (fuel : nat) (fd : Z) (buf : list Z) (p : Z) : prog unit :=
  match fuel with
  | O => OutOfFuel
  | S fuel =>
      '(n, de) ← sys (Cread fd DIRENT_SIZE);
      if negb (n =? DIRENT_SIZE) then mret tt
      else if u16_at de 0 =? 0 then ls_entries fuel fd buf p
      else
        buf ← buf_put buf p (get_bytes de 2 DIRSIZ);
        buf ← buf_put buf (p + DIRSIZ) [0];
        '(r, st) ← ustat (cstr buf);
        if r <? 0 then fprintf 1 (line "ls: cannot stat %s") [VStr (Some (cstr buf))];; ls_entries fuel fd buf p
        else print_entry (cstr buf) st;; ls_entries fuel fd buf p
  end.

(** [buf0] is what the stack holds before the call. *)
Definition ls (fuel : nat) (buf0 path : list Z) : prog unit :=
  fd ← sys_ (Copen path O_RDONLY);
  if fd <? 0 then fprintf 2 (line "ls: cannot open %s") [VStr (Some path)]
  else
    '(r, st) ← sys (Cfstat fd);
    if r <? 0 then fprintf 2 (line "ls: cannot stat %s") [VStr (Some path)];; sys_ (Cclose fd);; mret tt
    else
      (if (st_type st =? T_DEVICE) || (st_type st =? T_FILE) then print_entry path st
       else if st_type st =? T_DIR then
         if LSBUF <? Z.of_nat (length path) + 1 + DIRSIZ + 1 then fprintf 1 (line "ls: path too long") []
         else
           buf ← buf_put buf0 0 (path ++ [0]);
           buf ← buf_put buf (Z.of_nat (length path)) [47];
           ls_entries fuel fd buf (Z.of_nat (length path) + 1)
       else mret tt);;
      sys_ (Cclose fd);; mret tt.

Fixpoint ls_args (fuel : nat) (buf0 : list Z) (args : list (list Z)) : prog unit :=
  match args with [] => mret tt | a :: args => ls fuel buf0 a;; ls_args fuel buf0 args end.
Definition ls_main (fuel : nat) (buf0 : list Z) (args : list (list Z)) : prog unit :=
  match args with [] => ls fuel buf0 (txt ".");; Exit 0 | _ => ls_args fuel buf0 args;; Exit 0 end.

(** ** grep.c: the calls grep makes, and main *)

(** The inner loop; the result is what stays in the buffer. *)
Fixpoint ugrep_lines (fuel : nat) (pattern p : list Z) : prog (list Z) :=
  match fuel with
  | O => OutOfFuel
  | S fuel =>
      match find_line p with
      | None => mret p
      | Some (l, p) => (if match_ pattern l then sys_ (Cwrite 1 (l ++ [newline]));; mret tt else mret tt);; ugrep_lines fuel pattern p
      end
  end.
Fixpoint ugrep (fuel : nat) (pattern : list Z) (fd : Z) (buf : list Z) : prog unit :=
  match fuel with
  | O => OutOfFuel
  | S fuel =>
      '(n, d) ← sys (Cread fd (Z.of_nat (BUFSIZE - length buf - 1)));
      if 0 <? n then buf ← ugrep_lines (S (length (buf ++ d))) pattern (buf ++ d); ugrep fuel pattern fd buf
      else mret tt
  end.
Fixpoint grep_files (fuel : nat) (pattern : list Z) (args : list (list Z)) : prog unit :=
  match args with
  | [] => mret tt
  | a :: args =>
      fd ← sys_ (Copen a O_RDONLY);
      if fd <? 0 then fprintf 1 (line "grep: cannot open %s") [VStr (Some a)];; Exit 1
      else ugrep fuel pattern fd [];; sys_ (Cclose fd);; grep_files fuel pattern args
  end.
Definition grep_main (fuel : nat) (args : list (list Z)) : prog unit :=
  match args with
  | [] => fprintf 2 (line "usage: grep pattern [file ...]") [];; Exit 1
  | [pattern] => ugrep fuel pattern 0 [];; Exit 0
  | pattern :: args => grep_files fuel pattern args;; Exit 0
  end.

(** ** init.c *)

Definition O_RDWR : Z := 2.
Definition CONSOLE_MAJOR : Z := 1.

(** Wait until the shell has exited. *)
Fixpoint init_wait (fuel : nat) (pid : Z) : prog unit :=
  match fuel with
  | O => OutOfFuel
  | S fuel =>
      wpid ← sys_ Cwait;
      if wpid =? pid then mret tt
      else if wpid <? 0 then fprintf 1 (line "init: wait returned an error") [];; Exit 1
      else init_wait fuel pid
  end.
Fixpoint init_loop (fuel : nat) : prog unit :=
  match fuel with
  | O => OutOfFuel
  | S f =>
      fprintf 1 (line "init: starting sh") [];;
      pid ← sys_ Cfork;
      if pid <? 0 then fprintf 1 (line "init: fork failed") [];; Exit 1
      else if pid =? 0 then
        sys_ (Cexec (txt "sh") [txt "sh"]);;
        fprintf 1 (line "init: exec sh failed") [];; Exit 1
      else init_wait fuel pid;; init_loop f
  end.
Definition init_main (fuel : nat) : prog unit :=
  r ← sys_ (Copen (txt "console") O_RDWR);
  (if r <? 0 then sys_ (Cmknod (txt "console") CONSOLE_MAJOR 0);; sys_ (Copen (txt "console") O_RDWR);; mret tt else mret tt);;
  sys_ (Cdup 0);; sys_ (Cdup 0);;
  init_loop fuel.
