(* ===== verification/Boot.v ===== *)
(** * Boot (kernel/start.c, kernel/main.c, small functions of proc.c and vm.c)

    start sets a hart up in machine mode and enters main in supervisor mode.
    In main hart 0 initialises the kernel, call by call, while the others
    wait for [started]; then each sets up its own registers.  The state joins
    those of the components. *)
From S2P Require Import Prelude Mem Riscv Kalloc Vm Paging UserCopy Proc.
From stdpp Require Import base tactics numbers list strings gmap relations.
From Stdlib Require Import ZArith Lia.
From S2P Require Import Block Bio BioSpec BioCache UserMem Console ProcSpec ProcRefine ProcLife Syscall Exec Trap Plic Virtio VirtioInit Uart Printf PrintfTheorems Uprog.

Open Scope Z_scope.

(** ** start.c *)

(** The machine-mode registers start uses, and sie; the rest is in [hart]. *)
Inductive mreg := MSTATUS | MEPC | SIE | MIE | MEDELEG | MIDELEG | MENVCFG | MCOUNTEREN | PMPADDR0 | PMPCFG0 | MHARTID.
Inductive privilege := User | Supervisor | Machine_.
Record mhart := MHart { mh_s : hart; mh_r : mreg -> Z; mh_mode : privilege; mh_pc : Z }.
#[export] Instance mreg_eq_dec : EqDecision mreg.
Proof. solve_decision. Defined.

Definition mr (r : mreg) (h : mhart) : Z := mh_r h r.
Definition mw (r : mreg) (x : Z) (h : mhart) : mhart :=
  MHart (mh_s h) (fun q => if decide (q = r) then x else mh_r h q) (mh_mode h) (mh_pc h).
Definition sw (f : hart -> hart) (h : mhart) : mhart := MHart (f (mh_s h)) (mh_r h) (mh_mode h) (mh_pc h).
Definition w_satp x h := Hart (r_sstatus h) (r_stvec h) (r_sepc h) (r_scause h) (r_stval h) x (r_tp h) (r_time h) (r_stimecmp h).
Definition w_tp x h := Hart (r_sstatus h) (r_stvec h) (r_sepc h) (r_scause h) (r_stval h) (r_satp h) x (r_time h) (r_stimecmp h).

Definition MSTATUS_MPP_MASK : Z := Z.shiftl 3 11.
Definition MSTATUS_MPP_S : Z := Z.shiftl 1 11.
Definition SIE_SEIE : Z := Z.shiftl 1 9.
Definition SIE_STIE : Z := Z.shiftl 1 5.
Definition MIE_STIE : Z := Z.shiftl 1 5.

(** The mode in the MPP field of mstatus; mret goes there, to mepc. *)
Definition mpp (mstatus : Z) : privilege :=
  let f := Z.land (Z.shiftr mstatus 11) 3 in if f =? 0 then User else if f =? 1 then Supervisor else Machine_.
Definition mret_ (h : mhart) : mhart := MHart (mh_s h) (mh_r h) (mpp (mr MSTATUS h)) (mr MEPC h).

(** The accessors of riscv.h *)
Definition r_mstatus : mhart -> Z := mr MSTATUS.
Definition r_sie : mhart -> Z := mr SIE.
Definition r_mie : mhart -> Z := mr MIE.
Definition r_menvcfg : mhart -> Z := mr MENVCFG.
Definition r_mcounteren : mhart -> Z := mr MCOUNTEREN.
Definition r_mhartid : mhart -> Z := mr MHARTID.
Definition w_mstatus : Z -> mhart -> mhart := mw MSTATUS.
Definition w_mepc : Z -> mhart -> mhart := mw MEPC.
Definition w_sie : Z -> mhart -> mhart := mw SIE.
Definition w_mie : Z -> mhart -> mhart := mw MIE.
Definition w_medeleg : Z -> mhart -> mhart := mw MEDELEG.
Definition w_mideleg : Z -> mhart -> mhart := mw MIDELEG.
Definition w_menvcfg : Z -> mhart -> mhart := mw MENVCFG.
Definition w_mcounteren : Z -> mhart -> mhart := mw MCOUNTEREN.
Definition w_pmpaddr0 : Z -> mhart -> mhart := mw PMPADDR0.
Definition w_pmpcfg0 : Z -> mhart -> mhart := mw PMPCFG0.

Definition timerinit (h : mhart) : mhart :=
  let h := w_mie (Z.lor (r_mie h) MIE_STIE) h in
  let h := w_menvcfg (Z.lor (r_menvcfg h) (Z.shiftl 1 63)) h in
  let h := w_mcounteren (Z.lor (r_mcounteren h) 2) h in
  sw (w_stimecmp (w64 (r_time (mh_s h) + 1000000))) h.

(** [main_addr] is the address of main. *)
Definition start (main_addr : Z) (h : mhart) : mhart :=
  let x := r_mstatus h in
  let x := Z.land x (Z.lnot MSTATUS_MPP_MASK) in
  let x := Z.lor x MSTATUS_MPP_S in
  let h := w_mstatus x h in
  let h := w_mepc main_addr h in
  let h := sw (w_satp 0) h in
  let h := w_medeleg 0xffff h in
  let h := w_mideleg 0xffff h in
  let h := w_sie (Z.lor (Z.lor (r_sie h) SIE_SEIE) SIE_STIE) h in
  let h := w_pmpaddr0 0x3fffffffffffff h in
  let h := w_pmpcfg0 0xf h in
  let h := timerinit h in
  let id := s32 (w32 (r_mhartid h)) in
  let h := sw (w_tp (w64 id)) h in
  mret_ h.

(** ** proc.c: cpuid *)
Definition cpuid (h : hart) : Z := s32 (w32 (r_tp h)).

(** start enters main in supervisor mode with paging off, traps delegated,
    external and timer interrupts enabled, a first timer interrupt asked for,
    and cpuid() equal to the hart's number. *)
Theorem start_enters_main main_addr h : 0 <= mr MHARTID h < 2 ^ 31 ->
  let h' := start main_addr h in
  mh_mode h' = Supervisor /\ mh_pc h' = main_addr /\ r_satp (mh_s h') = 0 /\
  mr MEDELEG h' = 0xffff /\ mr MIDELEG h' = 0xffff /\
  Z.testbit (mr SIE h') 9 = true /\ Z.testbit (mr SIE h') 5 = true /\ Z.testbit (mr MIE h') 5 = true /\
  Z.testbit (mr MENVCFG h') 63 = true /\ Z.testbit (mr MCOUNTEREN h') 1 = true /\
  r_stimecmp (mh_s h') = w64 (r_time (mh_s h) + 1000000) /\ cpuid (mh_s h') = mr MHARTID h /\
  (forall k, k <> 11 -> k <> 12 -> Z.testbit (mr MSTATUS h') k = Z.testbit (mr MSTATUS h) k).
Proof.
  intros Hid h'. set (x := Z.lor (Z.land (mr MSTATUS h) (Z.lnot MSTATUS_MPP_MASK)) MSTATUS_MPP_S).
  assert (forall k, 0 <= k -> Z.testbit x k = (Z.testbit (mr MSTATUS h) k && negb ((k =? 11) || (k =? 12))) || (k =? 11)) as Hx.
  { intros k Hk. unfold x, MSTATUS_MPP_MASK, MSTATUS_MPP_S. rewrite Z.lor_spec, Z.land_spec, Z.lnot_spec, Z.shiftl_1_l, Z.pow2_bits_eqb by lia.
    rewrite (Z.eqb_sym 11 k). f_equal. f_equal. f_equal. change (Z.shiftl 3 11) with (Z.lor (2 ^ 11) (2 ^ 12)). rewrite Z.lor_spec, !Z.pow2_bits_eqb by lia.
    by rewrite (Z.eqb_sym 11 k), (Z.eqb_sym 12 k). }
  assert (mpp x = Supervisor) as Hm.
  { unfold mpp. assert (Z.land (Z.shiftr x 11) 3 = 1) as ->; [|done]. apply Z.bits_inj'. intros n Hn. rewrite Z.land_spec, Z.shiftr_spec, Hx by lia.
    assert (n = 0 \/ n = 1 \/ 2 <= n) as [->|[->|Hn2]] by lia; [cbn; by rewrite andb_false_r|cbn; by rewrite andb_false_r|].
    rewrite (testbit_high 3 2 n), (testbit_high 1 1 n) by lia. by rewrite andb_false_r. }
  assert (cpuid (mh_s h') = mr MHARTID h) as Hc.
  { change (s32 (w32 (w64 (s32 (w32 (mr MHARTID h))))) = mr MHARTID h). rewrite (w32_id (mr MHARTID h)), (s32_id (mr MHARTID h)), w64_id, w32_id, s32_id; lia. }
  split_and!; try done.
  - change (Z.testbit (Z.lor (Z.lor (mr SIE h) SIE_SEIE) SIE_STIE) 9 = true). rewrite !Z.lor_spec. by rewrite orb_true_r.
  - change (Z.testbit (Z.lor (Z.lor (mr SIE h) SIE_SEIE) SIE_STIE) 5 = true). rewrite !Z.lor_spec. by rewrite orb_true_r.
  - change (Z.testbit (Z.lor (mr MIE h) MIE_STIE) 5 = true). rewrite !Z.lor_spec. by rewrite orb_true_r.
  - change (Z.testbit (Z.lor (mr MENVCFG h) (Z.shiftl 1 63)) 63 = true). rewrite !Z.lor_spec. by rewrite orb_true_r.
  - change (Z.testbit (Z.lor (mr MCOUNTEREN h) 2) 1 = true). rewrite !Z.lor_spec. by rewrite orb_true_r.
  - intros k H1 H2. change (Z.testbit x k = Z.testbit (mr MSTATUS h) k). destruct (Z.lt_ge_cases k 0); [by rewrite !Z.testbit_neg_r|]. rewrite Hx by done.
    destruct (Z.eqb_spec k 11); [done|]. destruct (Z.eqb_spec k 12); [done|]. by rewrite andb_true_r, orb_false_r.
Qed.

(** ** main.c *)

Section main.
Context {KL : KernelLayout} {FS : FsOps} {PF : ProcFs} {PL : ProcLayout} {EL : ExecLayout} {DV : Devices} {TL : TrapLayout}.
(** The registers of the disk, as in VirtioInit. *)
Context (mmio : list access -> Z -> Z).

Record machine := Machine {
  m_k : kstate; m_hart : Z -> hart; m_dev : dev; m_kpt : Z; m_buf : bstate; m_disk : vboot;
  m_cons : cons; m_uart : uregs; m_plic : plic; m_text : list Z; m_started : bool
}.
Definition ms_k x m := Machine x (m_hart m) (m_dev m) (m_kpt m) (m_buf m) (m_disk m) (m_cons m) (m_uart m) (m_plic m) (m_text m) (m_started m).
Definition ms_hart x m := Machine (m_k m) x (m_dev m) (m_kpt m) (m_buf m) (m_disk m) (m_cons m) (m_uart m) (m_plic m) (m_text m) (m_started m).
Definition ms_kpt x m := Machine (m_k m) (m_hart m) (m_dev m) x (m_buf m) (m_disk m) (m_cons m) (m_uart m) (m_plic m) (m_text m) (m_started m).
Definition ms_buf x m := Machine (m_k m) (m_hart m) (m_dev m) (m_kpt m) x (m_disk m) (m_cons m) (m_uart m) (m_plic m) (m_text m) (m_started m).
Definition ms_disk x m := Machine (m_k m) (m_hart m) (m_dev m) (m_kpt m) (m_buf m) x (m_cons m) (m_uart m) (m_plic m) (m_text m) (m_started m).
Definition ms_cons x y m := Machine (m_k m) (m_hart m) (m_dev m) (m_kpt m) (m_buf m) (m_disk m) x y (m_plic m) (m_text m) (m_started m).
Definition ms_plic x m := Machine (m_k m) (m_hart m) (m_dev m) (m_kpt m) (m_buf m) (m_disk m) (m_cons m) (m_uart m) x (m_text m) (m_started m).
Definition ms_text x m := Machine (m_k m) (m_hart m) (m_dev m) (m_kpt m) (m_buf m) (m_disk m) (m_cons m) (m_uart m) (m_plic m) x (m_started m).
Definition ms_started m := Machine (m_k m) (m_hart m) (m_dev m) (m_kpt m) (m_buf m) (m_disk m) (m_cons m) (m_uart m) (m_plic m) (m_text m) true.

Definition m_kernel {A} (c : M kstate A) : M machine A := zoom m_k ms_k c.
Definition m_csr (h : Z) (f : hart -> hart) : M machine unit := modify (fun m => ms_hart (pupd h (f (m_hart m h)) (m_hart m)) m).
Definition m_trap {A} (h : Z) (c : M tstate A) : M machine A :=
  zoom (fun m => TState (m_k m) (m_hart m h) (m_dev m) 0 true [])
    (fun t m => ms_hart (pupd h (t_hart t) (m_hart m)) (ms_k (t_k t) m)) c.
(** The disk driver takes its pages from the kernel's memory. *)
Definition m_driver {A} (c : M vboot A) : M machine A :=
  zoom (fun m => set_bo_km (k_mem (m_k m)) (m_disk m)) (fun v m => ms_k (set_kmem (bo_km v) (m_k m)) (ms_disk v m)) c.
Definition kprintf (fmt : list Z) (args : list varg) : M machine unit :=
  match printf fmt args with Some out => modify (fun m => ms_text (m_text m ++ out) m) | None => nofuel end.

Definition kvminit : M machine unit := r ← m_kernel (on_mem kvmmake); modify (ms_kpt r).
(** sfence_vma has no counterpart: the model has no TLB. *)
Definition kvminithart (h : Z) : M machine unit := pt ← gets m_kpt; m_csr h (w_satp (MAKE_SATP pt)).

(** What hart 0 calls; a step of the interleaving each.  printfinit, trapinit,
    iinit and fileinit only initialise locks. *)
Definition main_first (h : Z) : list (M machine unit) :=
  [ modify (fun m => ms_cons consoleinit (uartinit (m_uart m)) m);
    skip;
    kprintf [10] [];
    kprintf (line "xv6 kernel is booting") [];
    kprintf [10] [];
    m_kernel (on_mem kinit);
    kvminit;
    kvminithart h;
    m_kernel procinit;
    skip;
    m_trap h trapinithart;
    modify (fun m => ms_plic (plicinit (m_plic m)) m);
    modify (fun m => ms_plic (plicinithart h (m_plic m)) m);
    modify (fun m => ms_buf (binit (m_buf m)) m);
    skip;
    skip;
    m_driver (virtio_disk_init mmio);
    m_kernel userinit;
    skip;
    modify ms_started ].

(** What the other harts call after the loop. *)
Definition main_other (h : Z) : list (M machine unit) :=
  [ skip;
    kprintf (line "hart %d starting") [VWord h];
    kvminithart h;
    m_trap h trapinithart;
    modify (fun m => ms_plic (plicinithart h (m_plic m)) m) ].

(** Where a hart is: waiting for [started], or with these calls to make
    before it calls scheduler. *)
Inductive mpc := Waiting | Calls (cs : list (M machine unit)).
Definition main (h : Z) : mpc := if h =? 0 then Calls (main_first h) else Waiting.
Inductive mstep : machine * (Z -> mpc) -> machine * (Z -> mpc) -> Prop :=
  | mst_wait h m pc : is_hart h -> pc h = Waiting ->
      mstep (m, pc) (m, pupd h (if m_started m then Calls (main_other h) else Waiting) pc)
  | mst_call h m m' pc c cs : is_hart h -> pc h = Calls (c :: cs) -> c m = Ret () m' -> mstep (m, pc) (m', pupd h (Calls cs) pc).

(** ** procdump of proc.c, for ^P on the console *)

Definition state_text (st : procstate) : list Z :=
  match st with
  | UNUSED => txt "unused" | USED => txt "used" | SLEEPING => txt "sleep " | RUNNABLE => txt "runble"
  | RUNNING => txt "run   " | ZOMBIE => txt "zombie"
  end.
Definition dump_proc (p : proc) : M machine unit :=
  if decide (pr_state p = UNUSED) then skip
  else kprintf (txt "%d %s %s") [VWord (pr_pid p); VStr (Some (state_text (pr_state p))); VStr (Some (cstr (pr_name p)))];; kprintf [10] [].
Fixpoint dump_procs (ps : list proc) : M machine unit :=
  match ps with [] => skip | p :: ps => dump_proc p;; dump_procs ps end.
Definition procdump : M machine unit :=
  kprintf [10] [];; ps ← gets (fun m => k_proc (m_k m)); dump_procs ps.

(** ** The order of initialisation *)

(** [d] is the disk. *)
Context (d : gmap Z block).

(** The hart's registers for the kernel, and its part of the PLIC. *)
Definition hart_set_up (h : Z) (m : machine) : Prop :=
  r_satp (m_hart m h) = MAKE_SATP (m_kpt m) /\ r_stvec (m_hart m h) = kernelvec_addr /\
  forall irq, irq_source irq -> pl_pending (m_plic m) irq = true -> claimable (m_plic m) h irq = true.
(** What all harts rely on. *)
Definition kernel_set_up (m : machine) : Prop :=
  (exists t, tab (m_k m) t /\ tinv t) /\ cache_rel (m_buf m) (ACache ∅ d []) /\ m_cons m = consoleinit /\
  forall irq, irq_source irq -> pl_prio (m_plic m) irq = 1.

(** The facts that hold after the first [n] calls of hart 0. *)
Record stage (n : nat) (m : machine) : Prop := {
  sg_started : m_started m = (20 <=? n)%nat;
  sg_cons : (1 <= n)%nat -> m_cons m = consoleinit;
  sg_table : if (n <=? 8)%nat then boot_table (m_k m) else if (n <=? 17)%nat then exists i, tab (m_k m) (t_boot i) else exists t, tab (m_k m) t /\ tinv t;
  sg_satp : (8 <= n)%nat -> r_satp (m_hart m 0) = MAKE_SATP (m_kpt m);
  sg_stvec : (11 <= n)%nat -> r_stvec (m_hart m 0) = kernelvec_addr;
  sg_prio : (12 <= n)%nat -> forall irq, irq_source irq -> pl_prio (m_plic m) irq = 1;
  sg_plic : (13 <= n)%nat -> pl_thresh (m_plic m) 0 = 0 /\ pl_enable (m_plic m) 0 = Z.lor (Z.shiftl 1 UART0_IRQ) (Z.shiftl 1 VIRTIO0_IRQ);
  sg_buf : if (n <=? 13)%nat then m_buf m = bcache_bss d else cache_rel (m_buf m) (ACache ∅ d [])
}.

Lemma zoom_ret {S T A} (g : S -> T) u (c : M T A) s a s' : zoom g u c s = Ret a s' -> exists t, c (g s) = Ret a t /\ s' = u t s.
Proof using Type. unfold zoom. destruct (c (g s)); try done. intros [= -> <-]. eauto. Qed.
Lemma m_kernel_ret {A} (c : M kstate A) m a m' : m_kernel c m = Ret a m' -> exists k, c (m_k m) = Ret a k /\ m' = ms_k k m.
Proof using Type. apply zoom_ret. Qed.
Lemma bind_ret {S A B} (c : M S A) (f : A -> M S B) s b s' : (c ≫= f) s = Ret b s' -> exists a t, c s = Ret a t /\ f a t = Ret b s'.
Proof using Type. unfold mbind, M_bind. destruct (c s); try done. eauto. Qed.
Lemma tab_kmem s t x : tab s t -> tab (set_kmem x s) t.
Proof using Type. intros [H1 H2 H3 H4]. by constructor. Qed.
Lemma kprintf_ret fmt args m m' : kprintf fmt args m = Ret () m' -> exists out, m' = ms_text out m.
Proof using Type. unfold kprintf. destruct (printf fmt args); [|done]. intros [= <-]. eauto. Qed.

Lemma procinit_ret s s' : boot_table s -> procinit s = Ret () s' -> tab s' (t_boot (k_init s)).
Proof using Type. intros B. pose proof (procinit_tab s (k_init s) (boot_tab s B)) as W. revert W. generalize (procinit (FS := FS)). intros c W. exact (wlp_ret_inv c _ s () s' W). Qed.

(** Facts that a call leaves alone. *)
Ltac kept := try done; try lia; try (match goal with H : (_ <= _)%nat -> _ |- (_ <= _)%nat -> _ => solve [intros _; apply H; lia] end).

(** One goal for each of the first [k] calls. *)
Ltac each_call n k := lazymatch k with O => idtac | S ?k => destruct n as [|n]; [|each_call n k] end.

Lemma first_step n c m m' : main_first 0 !! n = Some c -> stage n m -> c m = Ret () m' -> stage (S n) m'.
Proof using Type.
  intros Hc [S1 S2 S3 S4 S5 S6 S7 S8] E.
  each_call n 20%nat; [..|done]; cbn [lookup list_lookup main_first] in Hc; injection Hc as <-; cbn [Nat.leb] in *.
  - injection E as <-. constructor; kept.
  - injection E as <-. constructor; kept.
  - apply kprintf_ret in E as [out ->]. constructor; kept.
  - apply kprintf_ret in E as [out ->]. constructor; kept.
  - apply kprintf_ret in E as [out ->]. constructor; kept.
  - apply m_kernel_ret in E as (k & E & ->). apply zoom_ret in E as (km & E & ->). constructor; kept. by destruct S3.
  - apply bind_ret in E as (r & m1 & E & E'). injection E' as <-. apply zoom_ret in E as (k & E & ->). apply zoom_ret in E as (km & E & ->). constructor; kept. by destruct S3.
  - apply bind_ret in E as (pt & m1 & E & E'). injection E as <- <-. injection E' as <-. constructor; kept.
  - apply m_kernel_ret in E as (k & E & ->). constructor; kept.
    exists (k_init (m_k m)). exact (procinit_ret (m_k m) k S3 E).
  - injection E as <-. constructor; kept.
  - apply zoom_ret in E as (t & E & ->). injection E as <-. constructor; kept.
  - injection E as <-. rewrite plicinit_eq. constructor; kept.
    intros _ irq. cbn. unfold pupd. by intros [-> | ->].
  - injection E as <-. rewrite plicinithart_eq by done. constructor; kept.
  - injection E as <-. constructor; kept.
    cbn. rewrite S8. apply binit_rel.
  - injection E as <-. constructor; kept.
  - injection E as <-. constructor; kept.
  - apply zoom_ret in E as (v & E & ->). constructor; kept.
    destruct S3 as [i T]. exists i. by apply tab_kmem.
  - apply m_kernel_ret in E as (k & E & ->). constructor; kept.
    destruct S3 as [i T]. apply (wlp_ret_inv _ _ _ _ _ (userinit_tab _ _ T)) in E. exact E.
  - injection E as <-. constructor; kept.
  - injection E as <-. constructor; kept.
Qed.

(** procdump ends and changes nothing but the text printed: a line that begins
    with the pid for every slot in use. *)
Lemma printf_pid pid a b : exists n, printf (txt "%d %s %s") [VWord pid; VStr (Some a); VStr (Some b)] = Some (n ++ 32 :: a ++ 32 :: b) /\ printint (s32 (w32 pid)) 10 true = Some n.
Proof using Type.
  assert (- 2 ^ 31 <= s32 (w32 pid) < 2 ^ 31) as Hx by (unfold s32; pose proof (Z.mod_pos_bound (w32 pid + 2 ^ 31) (2 ^ 32) ltac:(lia)); lia).
  destruct (printint_spec (s32 (w32 pid)) 10 true) as (buf & E & _); [by left|lia|lia|].
  exists (reverse buf). assert (printint (s32 (w32 pid)) 10 true = Some (reverse buf)) as Ep by (unfold printint; by rewrite E). split; [|done].
  set (fmt := txt _). vm_compute in fmt. subst fmt. unfold printf. cbn -[printint s32 w32]. unfold int_conv. cbn -[printint s32 w32]. rewrite Ep. cbn. by rewrite app_nil_r.
Qed.
Lemma kprintf_wp fmt args out (Q : unit -> machine -> Prop) m : printf fmt args = Some out -> Q tt (ms_text (m_text m ++ out) m) -> wp (kprintf fmt args) Q m.
Proof using Type. intros E H. unfold kprintf. by rewrite E. Qed.
Definition dump_text (p : proc) (out : list Z) : Prop :=
  if decide (pr_state p = UNUSED) then out = []
  else exists n, printint (s32 (w32 (pr_pid p))) 10 true = Some n /\ out = n ++ 32 :: state_text (pr_state p) ++ 32 :: cstr (pr_name p) ++ [10].
Theorem procdump_prints m : wp procdump (fun _ m' => exists outs, Forall2 dump_text (k_proc (m_k m)) outs /\ m' = ms_text (m_text m ++ [10] ++ concat outs) m) m.
Proof using Type.
  assert (forall ps m, wp (dump_procs ps) (fun _ m' => exists outs, Forall2 dump_text ps outs /\ m' = ms_text (m_text m ++ concat outs) m) m) as H.
  { induction ps as [|p ps IH]; intros m1; cbn [dump_procs].
    - exists []. split; [constructor|]. cbn. rewrite app_nil_r. by destruct m1.
    - unfold dump_proc. destruct (decide (pr_state p = UNUSED)) as [Hu|Hu].
      + wp_step. wp_step. eapply wp_mono; [apply IH|]. intros ? m2 (outs & F & ->). exists ([] :: outs). split; [|done]. constructor; [unfold dump_text; by rewrite decide_True|done].
      + destruct (printf_pid (pr_pid p) (state_text (pr_state p)) (cstr (pr_name p))) as (n & E & En). wp_step. wp_step. eapply kprintf_wp; [exact E|]. eapply (kprintf_wp [10] [] [10]); [done|].
        eapply wp_mono; [apply IH|]. intros ? m2 (outs & F & ->). exists ((n ++ 32 :: state_text (pr_state p) ++ 32 :: cstr (pr_name p) ++ [10]) :: outs). split.
        * constructor; [|done]. unfold dump_text. rewrite decide_False by done. eauto.
        * cbn [ms_text m_text concat m_k m_hart m_dev m_kpt m_buf m_disk m_cons m_uart m_plic m_started]. unfold ms_text. cbn. f_equal. repeat (rewrite <- app_assoc; cbn [app]). done. }
  unfold procdump. wp_step. eapply (kprintf_wp [10] [] [10]); [done|]. wp_step. wp_step. eapply wp_mono; [apply H|]. intros ? m2 (outs & F & ->). exists outs. split; [exact F|].
  cbn. by rewrite <- app_assoc.
Qed.

(** The facts after the first [k] calls of another hart. *)
Record other_stage (k : nat) (h : Z) (m : machine) : Prop := {
  og_satp : (3 <= k)%nat -> r_satp (m_hart m h) = MAKE_SATP (m_kpt m);
  og_stvec : (4 <= k)%nat -> r_stvec (m_hart m h) = kernelvec_addr;
  og_plic : (5 <= k)%nat -> pl_thresh (m_plic m) h = 0 /\ pl_enable (m_plic m) h = Z.lor (Z.shiftl 1 UART0_IRQ) (Z.shiftl 1 VIRTIO0_IRQ)
}.

(** What a call of hart [h] does to the other harts' facts. *)
Definition only_hart (h : Z) (m m' : machine) : Prop :=
  m_k m' = m_k m /\ m_kpt m' = m_kpt m /\ m_buf m' = m_buf m /\ m_cons m' = m_cons m /\ m_started m' = m_started m /\
  pl_prio (m_plic m') = pl_prio (m_plic m) /\
  forall j, j <> h -> m_hart m' j = m_hart m j /\ pl_thresh (m_plic m') j = pl_thresh (m_plic m) j /\ pl_enable (m_plic m') j = pl_enable (m_plic m) j.

Lemma other_step k c h m m' : is_hart h -> main_other h !! k = Some c -> other_stage k h m -> c m = Ret () m' ->
  other_stage (S k) h m' /\ only_hart h m m'.
Proof using Type.
  intros Hh Hc [O1 O2 O3] E. each_call k 5%nat; [..|done]; cbn [lookup list_lookup main_other] in Hc; injection Hc as <-.
  - injection E as <-. split; [|done]. constructor; kept.
  - apply kprintf_ret in E as [out ->]. split; [|done]. constructor; kept.
  - apply bind_ret in E as (pt & m1 & E & E'). injection E as <- <-. injection E' as <-. split.
    + constructor; kept. intros _. cbn. by rewrite pupd_eq.
    + split_and!; try done; intros j Hj; cbn. by rewrite pupd_ne.
  - apply zoom_ret in E as (t & E & ->). injection E as <-. split.
    + constructor; kept; intros _; cbn; rewrite pupd_eq; [apply O1; lia|done].
    + split_and!; try done; intros j Hj; cbn. by rewrite pupd_ne.
  - injection E as <-. rewrite plicinithart_eq by done. split.
    + constructor; kept. intros _. cbn. by rewrite !pupd_eq.
    + split_and!; try done; intros j Hj; cbn. by rewrite !pupd_ne.
Qed.

Lemma only_hart_stage h m m' n : h <> 0 -> only_hart h m m' -> stage n m -> stage n m'.
Proof using Type.
  intros Hh (E1 & E2 & E3 & E4 & E5 & E6 & E7) [S1 S2 S3 S4 S5 S6 S7 S8]. destruct (E7 0 ltac:(lia)) as (E8 & E9 & E10).
  constructor; rewrite ?E1, ?E2, ?E3, ?E4, ?E5, ?E6, ?E8, ?E9, ?E10; done.
Qed.
Lemma only_hart_other h m m' k j : j <> h -> only_hart h m m' -> other_stage k j m -> other_stage k j m'.
Proof using Type.
  intros Hj (E1 & E2 & E3 & E4 & E5 & E6 & E7) [O1 O2 O3]. destruct (E7 j Hj) as (E8 & E9 & E10). constructor; rewrite ?E2, ?E8, ?E9, ?E10; done.
Qed.

Definition boot_inv (x : machine * (Z -> mpc)) : Prop :=
  exists n, x.2 0 = Calls (drop n (main_first 0)) /\ (n <= 20)%nat /\ stage n x.1 /\
  forall h, is_hart h -> h <> 0 -> x.2 h = Waiting \/ (n = 20%nat /\ exists k, x.2 h = Calls (drop k (main_other h)) /\ (k <= 5)%nat /\ other_stage k h x.1).

Lemma drop_call {X} (l : list X) n c cs : c :: cs = drop n l -> l !! n = Some c /\ cs = drop (S n) l.
Proof using Type.
  intros E. assert (l !! n = Some c) as Hn by (rewrite <- (Nat.add_0_r n), <- lookup_drop, <- E; done). split; [done|].
  apply drop_S in Hn. rewrite Hn in E. by injection E.
Qed.

Lemma mstep_inv x y : mstep x y -> boot_inv x -> boot_inv y.
Proof using Type.
  intros [h m pc Hh Hp|h m m' pc c cs Hh Hp E] (n & H0 & Hn & St & Ho); cbn [fst snd] in *.
  - assert (h <> 0) as Nh by (intros ->; congruence). exists n. cbn [fst snd]. rewrite pupd_ne by done. split_and!; [done|done|done|].
    intros j Hj Nj. destruct (Z.eq_dec j h) as [->|N]; [rewrite pupd_eq|rewrite pupd_ne by done; by apply Ho].
    destruct (m_started m) eqn:Es; [right|by left]. rewrite (sg_started _ _ St) in Es. apply Nat.leb_le in Es. split; [lia|].
    exists 0%nat. split_and!; [done|lia|constructor; lia].
  - destruct (Z.eq_dec h 0) as [->|Nh].
    + rewrite H0 in Hp. injection Hp as Hp. symmetry in Hp. apply drop_call in Hp as [Hc ->]. pose proof (lookup_lt_Some _ _ _ Hc) as Hl. cbn in Hl.
      exists (S n). cbn [fst snd]. rewrite pupd_eq. split_and!; [done|lia|by eapply first_step|]. intros j Hj Nj. rewrite pupd_ne by done. destruct (Ho j Hj Nj) as [|[-> _]]; [by left|lia].
    + destruct (Ho h Hh Nh) as [Hw|(-> & k & Hk & Hk5 & Os)]; [congruence|]. rewrite Hk in Hp. injection Hp as Hp. symmetry in Hp. apply drop_call in Hp as [Hc ->].
      pose proof (lookup_lt_Some _ _ _ Hc) as Hl. cbn in Hl. destruct (other_step k c h m m' Hh Hc Os E) as [Os' Only].
      exists 20%nat. cbn [fst snd]. rewrite pupd_ne by done. split_and!; [done|lia|by eapply only_hart_stage|]. intros j Hj Nj. destruct (Z.eq_dec j h) as [->|N].
      * right. split; [done|]. exists (S k). rewrite pupd_eq. split_and!; [done|lia|done].
      * rewrite pupd_ne by done. destruct (Ho j Hj Nj) as [|(_ & k' & Ek & Hk' & Os2)]; [by left|right]. split; [done|]. exists k'. split_and!; [done|done|by eapply only_hart_other].
Qed.

Lemma mreach_inv x y : rtc mstep x y -> boot_inv x -> boot_inv y.
Proof using Type. induction 1; [done|]. eauto using mstep_inv. Qed.

Lemma all_called {X} (l : list X) n : [] = drop n l -> (length l <= n)%nat.
Proof using Type. intros E. apply (f_equal length) in E. rewrite length_drop in E. cbn in E. lia. Qed.

(** However the harts take turns: no hart but 0 leaves the waiting loop before
    hart 0 has made all its calls; and a hart that has reached the scheduler
    has the kernel's page table and trap vector and is told about the
    interrupts of both devices, and finds a well-formed process table with
    init, the linked buffer cache and the console. *)
Theorem boot_order m0 m pc :
  boot_table (m_k m0) -> m_buf m0 = bcache_bss d -> m_started m0 = false -> rtc mstep (m0, main) (m, pc) ->
  (forall h, is_hart h -> h <> 0 -> pc h <> Waiting -> kernel_set_up m) /\
  (forall h, is_hart h -> pc h = Calls [] -> hart_set_up h m /\ kernel_set_up m).
Proof using Type.
  intros B Hb Hs R. assert (boot_inv (m, pc)) as (n & H0 & Hn & St & Ho).
  { assert (boot_inv (m0, main)) as I0.
    { exists 0%nat. cbn [fst snd]. split_and!; [done|lia|constructor; try done; lia|]. intros h Hh Nh. left. unfold main. by destruct (Z.eqb_spec h 0). }
    exact (mreach_inv _ _ R I0). }
  cbn [fst snd] in *.
  assert (n = 20%nat -> kernel_set_up m) as HK.
  { intros ->. destruct St as [S1 S2 S3 S4 S5 S6 S7 S8]. cbn [Nat.leb] in *. split_and!; [done|done|apply S2; lia|apply S6; lia]. }
  assert (forall h, pl_thresh (m_plic m) h = 0 -> pl_enable (m_plic m) h = Z.lor (Z.shiftl 1 UART0_IRQ) (Z.shiftl 1 VIRTIO0_IRQ) -> n = 20%nat ->
    forall irq, irq_source irq -> pl_pending (m_plic m) irq = true -> claimable (m_plic m) h irq = true) as HC.
  { intros h Ht He En irq Hi Hp. unfold claimable. rewrite Hp, He, (proj2 (enable_mask irq) Hi), Ht, (sg_prio _ _ St) by (done || lia). done. }
  split.
  - intros h Hh Nh Hw. destruct (Ho h Hh Nh) as [|[E _]]; [done|auto].
  - intros h Hh Hp. destruct (Z.eq_dec h 0) as [->|Nh].
    + rewrite H0 in Hp. injection Hp as Hp. symmetry in Hp. apply all_called in Hp. cbn in Hp. assert (n = 20%nat) as En by lia. split; [|auto].
      split_and!; [apply (sg_satp _ _ St); lia|apply (sg_stvec _ _ St); lia|]. destruct (sg_plic _ _ St ltac:(lia)) as [Ht He]. by apply HC.
    + destruct (Ho h Hh Nh) as [|(En & k & Hk & Hk5 & [O1 O2 O3])]; [congruence|]. rewrite Hk in Hp. injection Hp as Hp. symmetry in Hp. apply all_called in Hp. cbn in Hp. split; [|auto].
      split_and!; [apply O1; lia|apply O2; lia|]. destruct (O3 ltac:(lia)) as [Ht He]. by apply HC.
Qed.
End main.
