(* ===== verification/UprogTheorems.v ===== *)
(** * What the small user programs do

    Statements about every run of a program, whatever the kernel answers as
    long as the answers are [sane]: the bytes read and written, the files
    opened, the descriptors closed again. *)
From stdpp Require Import base tactics numbers list strings sets.
From Stdlib Require Import ZArith Lia.
From S2P Require Import Prelude Block Fs Sh ShLex Printf PrintfTheorems Grep Uprog.

Open Scope Z_scope.

(** ** Runs *)

Inductive outcome (A : Type) := Returned (a : A) | Exited (code : Z) | Unfinished | Wrong.
Arguments Returned {A}. Arguments Exited {A}. Arguments Unfinished {A}. Arguments Wrong {A}.

(** What the kernel may answer: read and write transfer at most what they are
    asked to, fstat fills a struct stat. *)
Definition sane (c : call) (a : answer) : Prop :=
  match c with
  | Cread _ n => (a.1 = -1 /\ a.2 = []) \/ (0 <= a.1 <= n /\ Z.of_nat (length a.2) = a.1)
  | Cwrite _ b => a.1 = -1 \/ 0 <= a.1 <= Z.of_nat (length b)
  | Cfstat _ => a.1 = -1 \/ (a.1 = 0 /\ length a.2 = 24%nat)
  | _ => True
  end.

Fixpoint always {A} (p : prog A) (h : list event) (Q : outcome A -> list event -> Prop) : Prop :=
  match p with
  | Done a => Q (Returned a) h
  | Exit code => Q (Exited code) h
  | OutOfFuel => Q Unfinished h
  | Undefined => Q Wrong h
  | Call c k => forall a, sane c a -> always (k a) (h ++ [(c, a)]) Q
  end.

Lemma always_mono {A} (p : prog A) (Q Q' : outcome A -> list event -> Prop) :
  (forall o t, Q o t -> Q' o t) -> forall h, always p h Q -> always p h Q'.
Proof. intros H. induction p as [| | | |c k IH]; intros h; cbn; try apply H. intros HQ a Ha. apply IH, HQ, Ha. Qed.

(** A program in front of another: what it leaves when it does not return
    goes to the whole. *)
Definition andthen {A B} (f : A -> prog B) (Q : outcome B -> list event -> Prop) (o : outcome A) (t : list event) : Prop :=
  match o with Returned a => always (f a) t Q | Exited c => Q (Exited c) t | Unfinished => Q Unfinished t | Wrong => Q Wrong t end.
Lemma always_bind {A B} (p : prog A) (f : A -> prog B) Q : forall h, always p h (andthen f Q) -> always (p ≫= f) h Q.
Proof. induction p as [| | | |c k IH]; intros h; cbn; try done. intros HQ a Ha. apply IH, HQ, Ha. Qed.
Lemma always_step {A B} (p : prog A) (f : A -> prog B) R Q h :
  always p h R -> (forall o t, R o t -> andthen f Q o t) -> always (p ≫= f) h Q.
Proof. intros HR H. apply always_bind. eapply always_mono; [|exact HR]. exact H. Qed.

(** A run with an environment that answers by what has happened before. *)
Fixpoint run {A} (env : list event -> call -> answer) (p : prog A) (h : list event) : outcome A * list event :=
  match p with
  | Done a => (Returned a, h)
  | Exit code => (Exited code, h)
  | OutOfFuel => (Unfinished, h)
  | Undefined => (Wrong, h)
  | Call c k => let a := env h c in run env (k a) (h ++ [(c, a)])
  end.
Lemma always_run {A} env (p : prog A) Q : (forall h c, sane c (env h c)) -> forall h, always p h Q -> Q (run env p h).1 (run env p h).2.
Proof. intros Hs. induction p as [| | | |c k IH]; intros h; cbn; try done. intros HQ. apply IH, HQ, Hs. Qed.

(** ** What a history says *)

Definition collect {X} (f : event -> list X) (t : list event) : list X := concat (map f t).
Lemma collect_app {X} (f : event -> list X) t t' : collect f (t ++ t') = collect f t ++ collect f t'.
Proof. unfold collect. by rewrite map_app, concat_app. Qed.

(** The bytes the reads delivered, the bytes given to write, the files
    opened, the descriptors open handed out and the descriptors closed. *)
Definition reads : list event -> list Z := collect (fun e => match e.1 with Cread _ _ => e.2.2 | _ => [] end).
Definition writes (fd : Z) : list event -> list Z :=
  collect (fun e => match e.1 with Cwrite fd' b => if fd' =? fd then b else [] | _ => [] end).
Definition opens : list event -> list (list Z) := collect (fun e => match e.1 with Copen p _ => [p] | _ => [] end).
Definition got : list event -> list Z := collect (fun e => match e.1 with Copen _ _ => if e.2.1 <? 0 then [] else [e.2.1] | _ => [] end).
Definition closed : list event -> list Z := collect (fun e => match e.1 with Cclose fd => [fd] | _ => [] end).

(** A call that failed, or a write that was cut short. *)
Definition failing (e : event) : Prop :=
  match e.1 with Cread _ _ | Copen _ _ => e.2.1 < 0 | Cwrite _ b => e.2.1 <> Z.of_nat (length b) | _ => False end.
Definition failure (t : list event) : Prop := exists e, e ∈ t /\ failing e.
(** The writes to descriptor 1 were complete. *)
Definition complete (t : list event) : Prop := Forall (fun e => match e.1 with Cwrite 1 b => e.2.1 = Z.of_nat (length b) | _ => True end) t.

Ltac hist := unfold reads, writes, opens, got, closed in *; rewrite ?collect_app in *; cbn [collect map concat fst snd app] in *;
  rewrite ?app_nil_r, ?app_nil_l in *.

(** Only output happened, [out] to [fd]. *)
Record prints (fd : Z) (out : list Z) (h t : list event) : Prop := {
  pr_tail : exists e, t = h ++ e /\ Forall (fun x => exists b, x.1 = Cwrite fd b) e;
  pr_writes : forall k, writes k t = writes k h ++ (if k =? fd then out else []);
  pr_reads : reads t = reads h;
  pr_opens : opens t = opens h;
  pr_got : got t = got h;
  pr_closed : closed t = closed h
}.

Lemma put_chars_prints fd out : forall h, always (put_chars fd out) h (fun o t => o = Returned tt /\ prints fd out h t).
Proof.
  induction out as [|c out IH]; intros h; cbn.
  - split; [done|]. constructor; try done; [exists []; split; [by rewrite app_nil_r|by apply Forall_nil]|]. intros k. destruct (k =? fd); by rewrite app_nil_r.
  - intros a _. eapply always_mono; [|apply IH]. intros o t (-> & [(e & -> & Fe) P1 P2 P3 P4 P5]). split; [done|]. hist. constructor; hist; try done.
    + exists ([(Cwrite fd [c], a)] ++ e). split; [by rewrite <- app_assoc|]. constructor; [by exists [c]|done].
    + intros k. specialize (P1 k). rewrite P1. hist. rewrite <- app_assoc. f_equal. rewrite (Z.eqb_sym fd k). by destruct (k =? fd).
Qed.

Lemma fprintf_prints fd fmt args out h : vprintf fmt args = Some out -> always (fprintf fd fmt args) h (fun o t => o = Returned tt /\ prints fd out h t).
Proof. intros E. unfold fprintf. rewrite E. apply put_chars_prints. Qed.

(** What a part of a run did: the bytes it read, the bytes it wrote to
    descriptor 1, the files it opened; the descriptors it got are closed. *)
Record did (rd out : list Z) (ops : list (list Z)) (h t : list event) : Prop := {
  dd_tail : exists e, t = h ++ e;
  dd_reads : reads t = reads h ++ rd;
  dd_writes : writes 1 t = writes 1 h ++ out;
  dd_opens : opens t = opens h ++ ops;
  dd_closed : exists g c, got t = got h ++ g /\ closed t = closed h ++ c /\ g ≡ₚ c
}.

Lemma did_nothing h : did [] [] [] h h.
Proof. constructor; [exists []|..]; rewrite ?app_nil_r; try done. exists [], []. by rewrite !app_nil_r. Qed.
Lemma did_trans r1 o1 p1 r2 o2 p2 h t u : did r1 o1 p1 h t -> did r2 o2 p2 t u -> did (r1 ++ r2) (o1 ++ o2) (p1 ++ p2) h u.
Proof.
  intros [[e1 E1] A1 B1 C1 (g1 & c1 & G1 & K1 & P1)] [[e2 E2] A2 B2 C2 (g2 & c2 & G2 & K2 & P2)]. constructor.
  - exists (e1 ++ e2). by rewrite app_assoc, <- E1.
  - by rewrite A2, A1, app_assoc.
  - by rewrite B2, B1, app_assoc.
  - by rewrite C2, C1, app_assoc.
  - exists (g1 ++ g2), (c1 ++ c2). rewrite G2, G1, K2, K1, !app_assoc. split_and!; [done|done|]. by rewrite P1, P2.
Qed.
Lemma did_event c a h :
  (forall p m, c <> Copen p m) -> (forall fd, c <> Cclose fd) -> did (reads [(c, a)]) (writes 1 [(c, a)]) [] h (h ++ [(c, a)]).
Proof.
  intros N1 N2. constructor; [by eexists|..]; unfold reads, writes, opens, got, closed; rewrite ?collect_app; try done.
  - destruct c; try done. by destruct (N1 path mode).
  - exists [], []. destruct c; cbn; rewrite ?app_nil_r; try done; [by destruct (N1 path mode)|by destruct (N2 fd)].
Qed.
Lemma did_read fd n r buf h : did buf [] [] h (h ++ [(Cread fd n, (r, buf))]).
Proof. rewrite <- (app_nil_r buf) at 1. by apply (did_event (Cread fd n) (r, buf)). Qed.
Lemma did_write buf a h : did [] buf [] h (h ++ [(Cwrite 1 buf, a)]).
Proof. rewrite <- (app_nil_r buf) at 1. by apply (did_event (Cwrite 1 buf) a). Qed.
Lemma prints_did fd out h t : prints fd out h t -> did [] (if fd =? 1 then out else []) [] h t.
Proof.
  intros [(e & E & _) W R O G C]. constructor; rewrite ?app_nil_r; try done.
  - by exists e.
  - by rewrite W, Z.eqb_sym.
  - exists [], []. by rewrite !app_nil_r.
Qed.

(** A file opened, used and closed again. *)
Lemma did_file path m fd rd out ops a h t :
  0 <= fd -> forall d, did rd out ops (h ++ [(Copen path m, (fd, d))]) t -> did rd out (path :: ops) h (t ++ [(Cclose fd, a)]).
Proof.
  intros Hfd d [[e ->] A B C (g & c & G & K & P)]. unfold reads, writes, opens, got, closed in *. rewrite !collect_app in *.
  cbn [collect map concat fst snd app] in *. destruct (Z.ltb_spec fd 0); [lia|]. rewrite !app_nil_r in *. constructor; unfold reads, writes, opens, got, closed; rewrite ?collect_app; cbn [collect map concat fst snd app].
  - eexists. by rewrite <- !app_assoc.
  - by rewrite !app_nil_r, A.
  - by rewrite !app_nil_r, B.
  - rewrite app_nil_r, C. by rewrite <- app_assoc.
  - exists (fd :: g), (c ++ [fd]). destruct (Z.ltb_spec fd 0); [lia|]. rewrite ?app_nil_r, G, K, <- !app_assoc. split_and!; [done|done|]. rewrite P. apply Permutation_cons_append.
Qed.
Lemma did_failed path m fd d h : fd < 0 -> did [] [] [path] h (h ++ [(Copen path m, (fd, d))]).
Proof.
  intros Hfd. constructor; unfold reads, writes, opens, got, closed; rewrite ?collect_app; cbn [collect map concat fst snd app]; rewrite ?app_nil_r; try done; [by eexists|].
  exists [], []. destruct (Z.ltb_spec fd 0); [|lia]. cbn. by rewrite !app_nil_r.
Qed.

Lemma failure_in h e : failing e -> failure (h ++ [e]).
Proof. intros H. exists e. split; [set_solver|done]. Qed.
Lemma failure_app h e : failure h -> failure (h ++ e).
Proof. intros (x & Hx & F). exists x. split; [set_solver|done]. Qed.
Lemma failure_did r o p h t : failure h -> did r o p h t -> failure t.
Proof. intros F [[e ->] _ _ _ _]. by apply failure_app. Qed.

(** The answers of the reads, the descriptors whose read reported the end of
    the file (or an error), and the answers of stat: -1 when open failed,
    what fstat said otherwise. *)
Definition answers : list event -> list answer := collect (fun e => match e.1 with Cread _ _ => [e.2] | _ => [] end).
Definition ends : list event -> list Z := collect (fun e => match e.1 with Cread fd _ => if e.2.1 <=? 0 then [fd] else [] | _ => [] end).
Definition stats : list event -> list answer :=
  collect (fun e => match e.1 with Copen _ _ => if e.2.1 <? 0 then [(-1, [])] else [] | Cfstat _ => [e.2] | _ => [] end).

Lemma collect_prints {X} (f : event -> list X) fd out h t :
  (forall b a, f (Cwrite fd b, a) = []) -> prints fd out h t -> collect f t = collect f h.
Proof.
  intros Hf [(e & -> & Fe) _ _ _ _ _]. rewrite collect_app. rewrite <- (app_nil_r (collect f h)) at 2. f_equal.
  induction Fe as [|[c a] e [b Hb] _ IH]; [done|]. cbn [fst] in Hb. subst c. unfold collect in *. cbn [map concat]. by rewrite Hf.
Qed.

(** The files [fds] were opened and read to their ends, each in turn. *)
Definition drained (fds : list Z) (h t : list event) : Prop := got t = got h ++ fds /\ ends t = ends h ++ fds.
(** Descriptor [fd] was read to its end. *)
Definition drains (fd : Z) (h t : list event) : Prop := got t = got h /\ ends t = ends h ++ [fd].

Lemma drains_event fd c a h t : got [(c, a)] = [] -> ends [(c, a)] = [] -> drains fd (h ++ [(c, a)]) t -> drains fd h t.
Proof.
  unfold drains, got, ends. intros G E [H1 H2]. rewrite collect_app in H1, H2. rewrite G in H1. rewrite E in H2. by rewrite !app_nil_r in *.
Qed.
Lemma drains_end fd n a h : a.1 <= 0 -> drains fd h (h ++ [(Cread fd n, a)]).
Proof.
  intros Ha. unfold drains, got, ends. rewrite !collect_app. cbn [collect map concat fst snd]. destruct (Z.leb_spec a.1 0); [|lia]. by rewrite !app_nil_r.
Qed.
Lemma drains_prints k out fd h t u : drains fd h t -> prints k out t u -> drains fd h u.
Proof. intros [H1 H2] P. split; [by rewrite (pr_got _ _ _ _ P)|]. unfold ends in *. rewrite <- H2. by eapply collect_prints; [|exact P]. Qed.
Lemma drains_file path m fd d a h t : 0 <= fd -> drains fd (h ++ [(Copen path m, (fd, d))]) t -> drained [fd] h (t ++ [(Cclose fd, a)]).
Proof.
  unfold drains, drained, got, ends. rewrite !collect_app. cbn [collect map concat fst snd app]. intros Hfd [H1 H2].
  destruct (Z.ltb_spec fd 0); [lia|]. by rewrite !app_nil_r in *.
Qed.
Lemma drained_trans f1 f2 h t u : drained f1 h t -> drained f2 t u -> drained (f1 ++ f2) h u.
Proof. intros [A B] [C D]. split; [by rewrite C, A, app_assoc|by rewrite D, B, app_assoc]. Qed.
Lemma drained_nil h : drained [] h h.
Proof. split; by rewrite app_nil_r. Qed.

(** ** cat *)

(** [c] is what a loop over the reads of one file has read so far. *)
Definition cat_post (fuel : nat) (fd : Z) (h : list event) (o : outcome unit) (t : list event) : Prop :=
  exists c, did c c [] h t /\
  match o with
  | Returned _ => drains fd h t /\ (complete h -> complete t)
  | Exited code => code = 1 /\ failure t
  | Unfinished => (fuel <= length c)%nat
  | Wrong => False
  end.

Lemma cat_ok fd : forall fuel h, always (cat fuel fd) h (cat_post fuel fd h).
Proof.
  induction fuel as [|fuel IH]; intros h; cbn [cat].
  { exists []. split; [apply did_nothing|done]. }
  cbn. intros [n buf] Hs. cbn [fst snd] in *. set (h1 := h ++ _).
  assert (did buf [] [] h h1) as D1 by apply did_read.
  destruct (Z.ltb_spec 0 n) as [Hn|Hn]; [|destruct (Z.ltb_spec n 0) as [Hn'|Hn']].
  - destruct Hs as [[? _]|[_ Hl]]; [lia|]. cbn. intros [r d] Hw. cbn [fst snd] in *. set (h2 := h1 ++ _).
    assert (did buf buf [] h h2) as D2. { pose proof (did_trans _ _ _ _ _ _ _ _ _ D1 (did_write buf (r, d) h1)) as D. by rewrite !app_nil_r in D. }
    destruct (Z.eqb_spec r n) as [->|Hr]; cbn [negb].
    + eapply always_mono; [|apply IH]. intros o t (c & D & H). exists (buf ++ c). split; [exact (did_trans _ _ _ _ _ _ _ _ _ D2 D)|].
      destruct o; try done.
      * destruct H as [HD H]. split.
        { apply drains_event in HD; [|done..]. apply drains_event in HD; [done|done|]. unfold ends. cbn [collect map concat fst snd]. destruct (Z.leb_spec n 0); [lia|done]. }
        intros Hc. apply H. unfold h2, h1, complete. rewrite !Forall_app. split_and!; [done|by apply Forall_singleton|]. apply Forall_singleton. cbn. lia.
      * rewrite length_app. lia.
    + eapply always_step; [by apply fprintf_prints|]. intros o t (-> & P). cbn. exists buf.
      pose proof (did_trans _ _ _ _ _ _ _ _ _ D2 (prints_did _ _ _ _ P)) as D. cbn in D. rewrite !app_nil_r in D. split_and!; [done|done|].
      eapply failure_did; [|apply (prints_did _ _ _ _ P)]. apply failure_in. cbn. lia.
  - destruct Hs as [[? Eb]|]; [|lia]. cbn in Eb. subst buf.
    eapply always_step; [by apply fprintf_prints|]. intros o t (-> & P). cbn. exists [].
    pose proof (did_trans _ _ _ _ _ _ _ _ _ D1 (prints_did _ _ _ _ P)) as D. cbn in D. split_and!; [done|done|].
    eapply failure_did; [|apply (prints_did _ _ _ _ P)]. apply failure_in. cbn. lia.
  - assert (buf = []) as -> by (destruct Hs as [[? ?]|[_ Hl]]; [done|apply nil_length_inv; lia]). cbn. exists []. split; [done|]. split; [apply drains_end; cbn; lia|].
    intros Hc. unfold h1, complete. apply Forall_app. split; [done|]. by apply Forall_singleton.
Qed.

(** cat of the files [args] *)
Lemma cat_files_ok fuel : forall args h, always (cat_files fuel args) h (fun o t => exists c,
  reads t = reads h ++ c /\ writes 1 t = writes 1 h ++ c /\
  match o with
  | Returned _ => did c c args h t /\ (exists fds, drained fds h t) /\ (complete h -> complete t)
  | Exited code => code = 1 /\ failure t
  | Unfinished => (fuel <= length c)%nat
  | Wrong => False
  end).
Proof.
  induction args as [|a args IH]; intros h; cbn [cat_files].
  { exists []. rewrite !app_nil_r. split_and!; try done; [apply did_nothing|]. exists []. apply drained_nil. }
  cbn. intros [fd d] _. cbn [fst snd]. destruct (Z.ltb_spec fd 0) as [Hfd|Hfd].
  - eapply always_step; [by apply fprintf_prints|]. intros o t (-> & P). cbn. exists [].
    pose proof (did_trans _ _ _ _ _ _ _ _ _ (did_failed a O_RDONLY fd d h Hfd) (prints_did _ _ _ _ P)) as D. split_and!; [apply D|apply D|done|].
    eapply failure_did; [|apply (prints_did _ _ _ _ P)]. by apply failure_in.
  - eapply always_step; [apply cat_ok|]. intros o t (c & D & H).
    assert (reads t = reads h ++ c /\ writes 1 t = writes 1 h ++ c) as [Er Ew].
    { destruct D as [_ R W _ _]. revert R W. unfold reads, writes. rewrite !collect_app. cbn [collect map concat fst snd app]. by rewrite !app_nil_r. }
    destruct o; cbn; [|by exists c..]. intros a1 _. pose proof (did_file a O_RDONLY fd c c [] a1 h t Hfd d D) as D'.
    eapply always_mono; [|apply IH]. intros o t' (c' & R & W & H'). exists (c ++ c').
    rewrite R, W, (dd_reads _ _ _ _ _ D'), (dd_writes _ _ _ _ _ D'), <- !app_assoc. split_and!; [done|done|].
    destruct o; try done; [|rewrite length_app; lia]. destruct H' as (D2 & (fds & DR) & C2), H as [HD H]. split_and!; [exact (did_trans _ _ _ _ _ _ _ _ _ D' D2)| |].
    { exists ([fd] ++ fds). eapply drained_trans; [|exact DR]. by eapply drains_file. }
    intros Hc. apply C2. unfold complete. apply Forall_app. split; [apply H, Forall_app; split; [done|]|]; by apply Forall_singleton.
Qed.

(** ** wc *)

Definition space (x : Z) : bool := sstrchr [32; 13; 9; 10; 11] x.
(** A word starts at a character that is no white space, at the beginning or
    after white space. *)
Definition starts_word (l : list Z) (i : nat) : bool :=
  negb (space (nth i l 0)) && match i with O => true | S j => space (nth j l 0) end.
Definition count_words (l : list Z) : Z := Z.of_nat (length (List.filter (starts_word l) (seq 0 (length l)))).
Definition count_lines (l : list Z) : Z := Z.of_nat (count_occ Z.eq_dec l 10).
Definition in_word (l : list Z) : bool := match last l with Some x => negb (space x) | None => false end.

Lemma count_words_snoc l x : count_words (l ++ [x]) = count_words l + (if negb (space x) && negb (in_word l) then 1 else 0).
Proof.
  unfold count_words. rewrite length_app, Nat.add_1_r, seq_S, List.filter_app, length_app.
  rewrite (List.filter_ext_in (starts_word (l ++ [x])) (starts_word l)).
  2: { intros i Hi%in_seq. unfold starts_word. rewrite app_nth1 by lia. destruct i; [done|]. by rewrite app_nth1 by lia. }
  cbn [List.filter Nat.add]. replace (starts_word (l ++ [x]) (length l)) with (negb (space x) && negb (in_word l)).
  { destruct (_ && _); cbn [length]; lia. }
  unfold starts_word, in_word. rewrite nth_middle. f_equal. destruct l as [|y l _] using rev_ind; [done|].
  rewrite length_app, Nat.add_1_r, last_snoc, negb_involutive. rewrite <- app_assoc. cbn [app]. by rewrite nth_middle.
Qed.

Lemma wc_byte_counts l : (Z.of_nat (length l) < 2 ^ 31) ->
  fold_left wc_byte l (Counts 0 0 0 false) = Counts (count_lines l) (count_words l) (Z.of_nat (length l)) (in_word l).
Proof.
  assert (forall l, 0 <= count_lines l <= Z.of_nat (length l) /\ 0 <= count_words l <= Z.of_nat (length l)) as B.
  { intros l'. unfold count_lines, count_words. pose proof (count_occ_bound Z.eq_dec 10 l'). pose proof (List.filter_length_le (starts_word l') (seq 0 (length l'))) as F.
    rewrite length_seq in F. lia. }
  induction l as [|x l IH] using rev_ind; [done|]. rewrite length_app, Nat2Z.inj_add. cbn [length]. intros Hl.
  rewrite fold_left_app, IH by lia. cbn [fold_left]. pose proof (B l) as [B1 B2]. unfold wc_byte. cbn [n_lines n_words n_chars inword].
  rewrite !s32_id by lia. rewrite count_words_snoc. fold (space x).
  assert (in_word (l ++ [x]) = negb (space x)) as -> by (unfold in_word; by rewrite last_snoc).
  assert (count_lines (l ++ [x]) = if x =? 10 then count_lines l + 1 else count_lines l) as ->.
  { unfold count_lines. rewrite count_occ_app. cbn [count_occ]. destruct (Z.eq_dec x 10) as [->|]; cbn; [lia|]. destruct (Z.eqb_spec x 10); [done|lia]. }
  destruct (space x), (in_word l); cbn [negb andb]; f_equal; lia.
Qed.

Lemma wc_loop_ok fd : forall fuel s h, always (wc_loop fuel fd s) h (fun o t => exists c w,
  did c w [] h t /\
  match o with
  | Returned s' => w = [] /\ s' = fold_left wc_byte c s /\ drains fd h t
  | Exited code => code = 1 /\ failure t /\ w = line "wc: read error"
  | Unfinished => (fuel <= length c)%nat
  | Wrong => False
  end).
Proof.
  induction fuel as [|fuel IH]; intros s h; cbn [wc_loop].
  { exists [], []. split; [apply did_nothing|done]. }
  cbn. intros [n buf] Hs. cbn [fst snd] in *. pose proof (did_read fd 512 n buf h) as D1. set (h1 := h ++ _) in *.
  destruct (Z.ltb_spec 0 n) as [Hn|Hn]; [|destruct (Z.ltb_spec n 0) as [Hn'|Hn']].
  - destruct Hs as [[? _]|[_ Hl]]; [lia|]. eapply always_mono; [|apply IH]. intros o t (c & w & D & H). exists (buf ++ c), w.
    split; [exact (did_trans _ _ _ _ _ _ _ _ _ D1 D)|]. destruct o; try done.
    + destruct H as (-> & -> & HD). split_and!; [done|by rewrite fold_left_app|]. apply drains_event in HD; [done|done|].
      unfold ends. cbn [collect map concat fst snd]. destruct (Z.leb_spec n 0); [lia|done].
    + rewrite length_app. lia.
  - destruct Hs as [[? Eb]|]; [|lia]. cbn in Eb. subst buf.
    eapply always_step; [by apply fprintf_prints|]. intros o t (-> & P). cbn. exists [], (line "wc: read error").
    pose proof (did_trans _ _ _ _ _ _ _ _ _ D1 (prints_did _ _ _ _ P)) as D. cbn in D. split_and!; [done|done| |done].
    eapply failure_did; [|apply (prints_did _ _ _ _ P)]. apply failure_in. cbn. lia.
  - assert (buf = []) as -> by (destruct Hs as [[? ?]|[_ Hl]]; [done|apply nil_length_inv; lia]). cbn. exists [], []. split_and!; [done..|]. apply drains_end. cbn. lia.
Qed.

(** The line wc prints for the content [c] of the file [name]: three numbers,
    as atoi reads them, and the name. *)
Definition wc_line (c name out : list Z) : Prop := exists l w n,
  out = l ++ [32] ++ w ++ [32] ++ n ++ [32] ++ name ++ [10] /\
  atoi l = count_lines c /\ atoi w = count_words c /\ atoi n = Z.of_nat (length c).

Lemma vprintf_wc x y z name : 0 <= x < 2 ^ 31 -> 0 <= y < 2 ^ 31 -> 0 <= z < 2 ^ 31 ->
  exists l w n, vprintf (line "%d %d %d %s") [VWord x; VWord y; VWord z; VStr (Some name)] = Some (l ++ [32] ++ w ++ [32] ++ n ++ [32] ++ name ++ [10]) /\
  atoi l = x /\ atoi w = y /\ atoi n = z.
Proof.
  intros Hx Hy Hz. destruct (atoi_printint x Hx) as (l & El & Al). destruct (atoi_printint y Hy) as (w & Ew & Aw). destruct (atoi_printint z Hz) as (n & En & An).
  exists l, w, n. split; [|done]. assert (forall v, 0 <= v < 2 ^ 31 -> s32 (w32 v) = v) as E by (intros v Hv; rewrite w32_id, s32_id; lia).
  set (fmt := line _). vm_compute in fmt. subst fmt.
  unfold vprintf. cbn -[uprintint s32 w32]. unfold int_conv. cbn -[uprintint s32 w32]. rewrite !E, El by done. cbn -[uprintint s32 w32].
  rewrite !E, Ew by done. cbn -[uprintint s32 w32]. rewrite !E, En by done. cbn. done.
Qed.

Lemma wc_ok fuel fd name h : always (wc fuel fd name) h (fun o t => exists c w,
  did c w [] h t /\
  match o with
  | Returned _ => drains fd h t /\ (Z.of_nat (length c) < 2 ^ 31 -> wc_line c name w)
  | Exited code => code = 1 /\ failure t /\ w = line "wc: read error"
  | Unfinished => (fuel <= length c)%nat
  | Wrong => 2 ^ 31 <= Z.of_nat (length c)
  end).
Proof.
  unfold wc. eapply always_step; [apply wc_loop_ok|]. intros o t (c & w & D & H). destruct o as [s| | |]; cbn [andthen]; [|by exists c, w..|done].
  destruct H as (-> & -> & HD). destruct (Z.lt_ge_cases (Z.of_nat (length c)) (2 ^ 31)) as [Hl|Hl].
  - rewrite wc_byte_counts by done. cbn [n_lines n_words n_chars].
    assert (0 <= count_lines c <= Z.of_nat (length c) /\ 0 <= count_words c <= Z.of_nat (length c)) as [B1 B2].
    { unfold count_lines, count_words. pose proof (count_occ_bound Z.eq_dec 10 c). pose proof (List.filter_length_le (starts_word c) (seq 0 (length c))) as F.
      rewrite length_seq in F. lia. }
    destruct (vprintf_wc (count_lines c) (count_words c) (Z.of_nat (length c)) name) as (l & w & n & E & A1 & A2 & A3); [lia..|].
    eapply always_mono; [|by apply fprintf_prints]. intros o t' (-> & P). exists c, (l ++ [32] ++ w ++ [32] ++ n ++ [32] ++ name ++ [10]).
    pose proof (did_trans _ _ _ _ _ _ _ _ _ D (prints_did _ _ _ _ P)) as D'. cbn [Z.eqb Pos.eqb app] in D'. rewrite app_nil_r in D'.
    split_and!; [done|by eapply drains_prints|]. intros _. by exists l, w, n.
  - unfold fprintf. destruct (vprintf _ _) as [out|]; [|by exists c, []].
    eapply always_mono; [|apply put_chars_prints]. intros o t' (-> & P). exists c, out.
    pose proof (did_trans _ _ _ _ _ _ _ _ _ D (prints_did _ _ _ _ P)) as D'. cbn [Z.eqb Pos.eqb app] in D'. rewrite app_nil_r in D'.
    split_and!; [done|by eapply drains_prints|]. lia.
Qed.

Lemma did_opened path m fd d rd out h t : did rd out [] (h ++ [(Copen path m, (fd, d))]) t -> reads t = reads h ++ rd /\ writes 1 t = writes 1 h ++ out.
Proof. intros [_ R W _ _]. revert R W. unfold reads, writes. rewrite !collect_app. cbn [collect map concat fst snd app]. by rewrite !app_nil_r. Qed.

(** The contents [cs] of files [args], and what is printed for each. *)
Lemma wc_files_ok fuel : forall args h, always (wc_files fuel args) h (fun o t => exists c,
  reads t = reads h ++ c /\
  match o with
  | Returned _ => exists cs outs, c = concat cs /\ did c (concat outs) args h t /\ (exists fds, drained fds h t) /\ (Z.of_nat (length c) < 2 ^ 31 -> Forall3 wc_line cs args outs)
  | Exited code => code = 1 /\ failure t
  | Unfinished => (fuel <= length c)%nat
  | Wrong => 2 ^ 31 <= Z.of_nat (length c)
  end).
Proof.
  induction args as [|a args IH]; intros h; cbn [wc_files].
  { exists []. rewrite !app_nil_r. split; [done|]. exists [], []. split_and!; [done|apply did_nothing|exists []; apply drained_nil|constructor]. }
  cbn [sys_ sys mbind prog_bind mret prog_ret always]. intros [fd d] _. cbn [fst snd]. destruct (Z.ltb_spec fd 0) as [Hfd|Hfd].
  - eapply always_step; [by apply fprintf_prints|]. intros o t (-> & P). cbn. exists [].
    pose proof (did_trans _ _ _ _ _ _ _ _ _ (did_failed a O_RDONLY fd d h Hfd) (prints_did _ _ _ _ P)) as D. split_and!; [apply D|done|].
    eapply failure_did; [|apply (prints_did _ _ _ _ P)]. by apply failure_in.
  - eapply always_step; [apply wc_ok|]. intros o t (c & w & D & H). destruct (did_opened _ _ _ _ _ _ _ _ D) as [Er Ew].
    destruct o; cbn [andthen]; [|exists c; split; [done|tauto]|by exists c..]. intros a1 _. pose proof (did_file a O_RDONLY fd c w [] a1 h t Hfd d D) as D'.
    eapply always_mono; [|apply IH]. intros o t' (c' & R & H'). exists (c ++ c').
    rewrite R, (dd_reads _ _ _ _ _ D'), <- !app_assoc, length_app. split; [done|].
    destruct o; try done; [|lia|lia]. destruct H' as (cs & outs & -> & D2 & (fds & DR) & H2), H as [HD H]. exists (c :: cs), (w :: outs).
    split_and!; [done|exact (did_trans _ _ _ _ _ _ _ _ _ D' D2)|exists ([fd] ++ fds); eapply drained_trans; [by eapply drains_file|exact DR]|]. intros Hl. constructor; [apply H; lia|apply H2; lia].
Qed.

(** ** ls *)

(** The part of a path after its last slash. *)
Definition basename (path base : list Z) : Prop :=
  (47 ∉ base) /\ exists dir, path = dir ++ base /\ (dir = [] \/ last dir = Some 47).

Lemma fmt_scan_spec path : forall k, let j := fmt_scan path k in
  (j <= k)%nat /\ (forall i, (j <= i < k)%nat -> nth i path 0 <> 47) /\ (j = O \/ exists i, j = S i /\ nth i path 0 = 47).
Proof.
  induction k as [|k IH]; cbn; [split_and!; [done|lia|by left]|]. destruct (Z.eqb_spec (nth k path 0) 47) as [E|N].
  - split_and!; [done|lia|]. right. by exists k.
  - cbv zeta in IH. destruct IH as (H1 & H2 & H3). split_and!; [lia| |done]. intros i Hi. destruct (decide (i = k)) as [->|]; [done|]. apply H2. lia.
Qed.

(** fmtname pads the last part of the path with blanks to DIRSIZ characters,
    and leaves it alone when it is longer. *)
Lemma fmtname_spec path : exists base, basename path base /\ fmtname path = base ++ replicate (Z.to_nat DIRSIZ - length base) 32.
Proof.
  unfold fmtname. pose proof (fmt_scan_spec path (S (length path))) as (H1 & H2 & H3). cbv zeta in *. set (j := fmt_scan path (S (length path))) in *.
  assert (j <= length path)%nat as Hj.
  { destruct H3 as [->|(i & -> & E)]; [lia|]. destruct (decide (i < length path)%nat); [lia|]. by rewrite nth_overflow in E by lia. }
  exists (drop j path). split.
  - split.
    + intros Hin. apply list_elem_of_lookup in Hin as [i Hi]. rewrite lookup_drop in Hi. pose proof (lookup_lt_Some _ _ _ Hi).
      apply (H2 (j + i)%nat); [lia|]. by apply nth_lookup_Some with (d := 0) in Hi.
    + exists (take j path). split; [by rewrite take_drop|]. destruct H3 as [->|(i & -> & E)]; [by left|right].
      rewrite last_lookup, length_take, Nat.min_l by lia. cbn [pred]. rewrite lookup_take_lt by lia. rewrite <- E. rewrite nth_lookup.
      destruct (path !! i) eqn:Ei; [done|]. apply lookup_ge_None in Ei. lia.
  - destruct (Nat.leb_spec (Z.to_nat DIRSIZ) (length (drop j path))); [|done].
    replace (_ - _)%nat with O by lia. by rewrite app_nil_r.
Qed.

(** Everything ls prints has a meaning. *)
Lemma printint_some x : exists out, uprintint (s32 (w32 x)) 10 true = Some out.
Proof.
  assert (- 2 ^ 31 <= s32 (w32 x) < 2 ^ 31) as Hx by (unfold s32; pose proof (Z.mod_pos_bound (w32 x + 2 ^ 31) (2 ^ 32) ltac:(lia)); lia).
  destruct (uprintint_spec (s32 (w32 x)) 10 true) as (buf & E & _); [by left|lia|lia|]. exists (reverse buf). unfold uprintint. by rewrite E.
Qed.
(** What ls prints for a file it has the struct stat of: the padded name, and
    type, inode number and size in decimal. *)
Definition decimal (x : Z) (out : list Z) : Prop := uprintint (s32 (w32 x)) 10 true = Some out.
Definition file_line (path st out : list Z) : Prop := exists ty ino size,
  out = fmtname path ++ [32] ++ ty ++ [32] ++ ino ++ [32] ++ size ++ [10] /\
  decimal (st_type st) ty /\ decimal (st_ino st) ino /\ decimal (s32 (w32 (st_size st))) size.

Lemma print_entry_some name st : exists out, vprintf (line "%s %d %d %d") [VStr (Some (fmtname name)); VWord (st_type st); VWord (st_ino st); VWord (s32 (w32 (st_size st)))] = Some out /\ file_line name st out.
Proof.
  unfold file_line, decimal. set (s := fmtname name). generalize (st_type st), (st_ino st), (s32 (w32 (st_size st))). intros x y z.
  destruct (printint_some x) as [a Ea], (printint_some y) as [b Eb], (printint_some z) as [c Ec].
  set (fmt := line _). vm_compute in fmt. subst fmt. exists (s ++ [32] ++ a ++ [32] ++ b ++ [32] ++ c ++ [10]). split; [|by exists a, b, c].
  unfold vprintf. cbn -[uprintint s32 w32]. unfold int_conv. cbn -[uprintint s32 w32]. rewrite Ea. cbn -[uprintint s32 w32].
  rewrite Eb. cbn -[uprintint s32 w32]. rewrite Ec. cbn. done.
Qed.

Lemma cstr_app l r : Forall (fun x => x <> 0) l -> cstr (l ++ r) = l ++ cstr r.
Proof. induction 1 as [|x l Hx _ IH]; [done|]. cbn. destruct (Z.eqb_spec x 0); [done|]. by rewrite IH. Qed.
Lemma cstr_nul l r : cstr (l ++ 0 :: r) = cstr l.
Proof. induction l as [|x l IH]; [done|]. cbn. destruct (x =? 0); [done|]. by rewrite IH. Qed.

(** The name in a directory entry, and the file ls asks about. *)
Definition de_name (de : list Z) : list Z := cstr (get_bytes de 2 DIRSIZ).
Definition de_used (de : list Z) : bool := negb (u16_at de 0 =? 0).
Definition entry_path (path de : list Z) : list Z := path ++ 47 :: de_name de.

(** The buffer holds the path and a slash; the name and a NUL go behind it. *)
Lemma ls_buf path rest de : Forall (fun x => x <> 0) path -> length de = 16%nat -> Z.of_nat (length path) + 16 <= LSBUF ->
  length (path ++ 47 :: rest) = Z.to_nat LSBUF -> exists buf rest', buf = path ++ 47 :: rest' /\ length buf = Z.to_nat LSBUF /\ cstr buf = entry_path path de /\
  forall B (f : list Z -> prog B), (buf ← buf_put (path ++ 47 :: rest) (Z.of_nat (length path) + 1) (get_bytes de 2 DIRSIZ); buf ← buf_put buf (Z.of_nat (length path) + 1 + DIRSIZ) [0]; f buf) = f buf.
Proof.
  intros Hp Hd Hl Hb. change LSBUF with 512 in *. change (Z.to_nat 512) with 512%nat in *. set (name := get_bytes de 2 DIRSIZ).
  assert (length name = 14%nat) as Hn by (unfold name, get_bytes; rewrite length_take, length_drop, Hd; done).
  assert (set_bytes (set_bytes (path ++ 47 :: rest) (Z.of_nat (length path) + 1) name) (Z.of_nat (length path) + 1 + DIRSIZ) [0] = path ++ 47 :: (name ++ 0 :: drop 15 rest)) as E.
  { unfold set_bytes. rewrite Hn. change DIRSIZ with 14. change (length [0]) with 1%nat. replace (Z.to_nat (Z.of_nat (length path) + 1)) with (length (path ++ [47])) by (rewrite length_app; cbn; lia).
    replace (path ++ 47 :: rest) with ((path ++ [47]) ++ rest) by (by rewrite <- app_assoc). rewrite take_app_length, drop_app_add'.
    2: done. rewrite !app_assoc. replace (Z.to_nat (Z.of_nat (length path) + 1 + 14)) with (length ((path ++ [47]) ++ name)) by (rewrite !length_app, Hn; cbn; lia).
    rewrite take_app_length, drop_app_add'; [|done]. rewrite drop_drop. by rewrite <- !app_assoc. }
  exists (path ++ 47 :: (name ++ 0 :: drop 15 rest)), (name ++ 0 :: drop 15 rest). rewrite length_app in Hb. cbn [length] in Hb. split_and!; [done| | |].
  - rewrite length_app. cbn [length]. rewrite length_app, Hn. cbn [length]. rewrite length_drop. lia.
  - rewrite cstr_app by done. cbn [cstr Z.eqb]. unfold entry_path, de_name. by rewrite cstr_nul.
  - intros B f. rewrite <- E. unfold buf_put. rewrite Hn. change (length [0]) with 1%nat. change DIRSIZ with 14 in *. change LSBUF with 512.
    destruct (Z.leb_spec 0 (Z.of_nat (length path) + 1)); [|lia]. destruct (Z.leb_spec (Z.of_nat (length path) + 1 + Z.of_nat 14) 512); [|lia]. cbn [andb mbind prog_bind mret prog_ret].
    destruct (Z.leb_spec 0 (Z.of_nat (length path) + 1 + 14)); [|lia]. destruct (Z.leb_spec (Z.of_nat (length path) + 1 + 14 + Z.of_nat 1) 512); [|lia]. done.
Qed.

(** What a part of a run was told: the answers of its reads and of stat. *)
Definition told (ras sts : list answer) (h t : list event) : Prop := answers t = answers h ++ ras /\ stats t = stats h ++ sts.
Lemma told_nothing h : told [] [] h h.
Proof. split; by rewrite app_nil_r. Qed.
Lemma told_trans r1 s1 r2 s2 h t u : told r1 s1 h t -> told r2 s2 t u -> told (r1 ++ r2) (s1 ++ s2) h u.
Proof. intros [A B] [C D]. split; [by rewrite C, A, app_assoc|by rewrite D, B, app_assoc]. Qed.
Lemma told_event e h : told (answers [e]) (stats [e]) h (h ++ [e]).
Proof. unfold told, answers, stats. by rewrite !collect_app. Qed.
Lemma told_prints fd out h t : prints fd out h t -> told [] [] h t.
Proof. intros P. split; rewrite app_nil_r; by eapply collect_prints; [|exact P]. Qed.

(** stat of ulib.c closes the file again, and opens nothing else. *)
Lemma ustat_ok path h : always (ustat path) h (fun o t => exists r, o = Returned r /\ did [] [] [path] h t /\ told [] [r] h t).
Proof.
  unfold ustat. cbn. intros [fd d] _. cbn. pose proof (told_event (Copen path O_RDONLY, (fd, d)) h) as T1. revert T1. unfold answers at 1, stats at 1. cbn [collect map concat fst snd app].
  destruct (Z.ltb_spec fd 0) as [Hfd|Hfd]; cbn; intros T1.
  - eexists. split_and!; [done|by apply did_failed|done].
  - intros a1 _ a2 _. eexists. split_and!; [done|eapply did_file; [done|]; by apply (did_event (Cfstat fd) a1)|].
    exact (told_trans _ _ _ _ _ _ _ (told_trans _ _ _ _ _ _ _ T1 (told_event (Cfstat fd, a1) _)) (told_event (Cclose fd, a2) _)).
Qed.

(** The line for an entry, by what stat of it answers. *)
Definition entry_line (path : list Z) (a : answer) (out : list Z) : Prop :=
  if a.1 <? 0 then out = txt "ls: cannot stat " ++ path ++ [10] else file_line path a.2 out.

(** A listing of the directory [path] with the entries [ents]: a line, by
    what stat answered, for every used entry. *)
Definition listing (path : list Z) (ents : list (list Z)) (sts : list answer) (out : list Z) (ops : list (list Z)) : Prop :=
  let used := List.filter de_used ents in
  ops = map (entry_path path) used /\ exists outs, out = concat outs /\ Forall3 (fun de => entry_line (entry_path path de)) used sts outs.

Lemma listing_skip path de ents sts out ops : de_used de = false -> listing path ents sts out ops -> listing path (de :: ents) sts out ops.
Proof. intros E H. unfold listing. cbn [List.filter]. by rewrite E. Qed.
Lemma listing_add path de ents a sts o out ops : de_used de = true -> entry_line (entry_path path de) a o -> listing path ents sts out ops ->
  listing path (de :: ents) (a :: sts) (o ++ out) (entry_path path de :: ops).
Proof.
  intros E Ho (-> & outs & -> & F). unfold listing. cbn [List.filter]. rewrite E. cbn [map]. split; [done|]. exists (o :: outs). split; [done|]. by constructor.
Qed.

Lemma listing_nil path : listing path [] [] [] [].
Proof. split; [done|]. exists []. split; [done|constructor]. Qed.

Section ls.
Context (path : list Z) (fd : Z) (Hp : Forall (fun x => x <> 0) path) (Hl : Z.of_nat (length path) + 16 <= LSBUF).

(** The directory was read up to an answer that is no whole entry. *)
Definition entries_post (fuel : nat) (h : list event) (o : outcome unit) (t : list event) : Prop :=
  exists ents tl ras sts out ops,
    did (concat ents ++ tl) out ops h t /\ told ras sts h t /\ Forall (fun de => length de = 16%nat) ents /\ listing path ents sts out ops /\
    match o with
    | Returned _ => exists n, n <> 16 /\ ras = map (pair 16) ents ++ [(n, tl)]
    | Unfinished => length ents = fuel
    | _ => False
    end.

(** One more entry, in front. *)
Lemma entries_post_cons fuel de a o1 ops1 sts1 h t o u :
  did de o1 ops1 h t -> told [(16, de)] sts1 h t -> length de = 16%nat ->
  (if de_used de then ops1 = [entry_path path de] /\ sts1 = [a] /\ entry_line (entry_path path de) a o1 else ops1 = [] /\ sts1 = [] /\ o1 = []) ->
  entries_post fuel t o u -> entries_post (S fuel) h o u.
Proof.
  intros D T Hd Hu (ents & tl & ras & sts & out & ops & D2 & T2 & F & L & Ho). exists (de :: ents), tl, ((16, de) :: ras), (sts1 ++ sts), (o1 ++ out), (ops1 ++ ops).
  split_and!; [|exact (told_trans _ _ _ _ _ _ _ T T2)|by constructor| |].
  - cbn [concat]. rewrite <- app_assoc. exact (did_trans _ _ _ _ _ _ _ _ _ D D2).
  - destruct (de_used de) eqn:Eu; destruct Hu as (-> & -> & H); [by apply listing_add|subst o1; by apply listing_skip].
  - destruct o; try done; [|cbn; by rewrite Ho]. destruct Ho as (n & Hn & ->). by exists n.
Qed.

Lemma ls_entries_ok : forall fuel rest h, length (path ++ 47 :: rest) = Z.to_nat LSBUF ->
  always (ls_entries fuel fd (path ++ 47 :: rest) (Z.of_nat (length path) + 1)) h (entries_post fuel h).
Proof using Hp Hl.
  induction fuel as [|fuel IH]; intros rest h Hb; cbn [ls_entries].
  { exists [], [], [], [], [], []. split_and!; [apply did_nothing|apply told_nothing|by apply Forall_nil|apply listing_nil|done]. }
  cbn [sys_ sys mbind prog_bind mret prog_ret always]. intros [n de] Hs. cbn [sane fst snd] in *. pose proof (did_read fd DIRENT_SIZE n de h) as D1.
  pose proof (told_event (Cread fd DIRENT_SIZE, (n, de)) h) as T1. set (h1 := h ++ _) in *.
  change DIRENT_SIZE with 16 in *. destruct (Z.eqb_spec n 16) as [->|Hn]; cbn [negb].
  2: { exists [], de, [(n, de)], [], [], []. split_and!; [exact D1|exact T1|by apply Forall_nil|apply listing_nil|by exists n]. }
  assert (length de = 16%nat) as Hd by (destruct Hs as [[? _]|[_ ?]]; lia).
  destruct (u16_at de 0 =? 0) eqn:Eu.
  { eapply always_mono; [|apply IH, Hb]. intros o t. eapply (entries_post_cons fuel de (0, [])); [exact D1|exact T1|done|]. unfold de_used. by rewrite Eu. }
  destruct (ls_buf path rest de Hp Hd Hl Hb) as (buf & rest' & -> & Hb' & Es & Ef). rewrite Ef. clear Ef.
  eapply always_step; [apply ustat_ok|]. intros o t ([r st] & -> & D2 & T2). cbn [andthen]. rewrite Es in *.
  pose proof (did_trans _ _ _ _ _ _ _ _ _ D1 D2) as D. rewrite app_nil_r, !app_nil_l in D. pose proof (told_trans _ _ _ _ _ _ _ T1 T2) as T.
  assert (forall out t', entry_line (entry_path path de) (r, st) out -> prints 1 out t t' ->
    always (ls_entries fuel fd (path ++ 47 :: rest') (Z.of_nat (length path) + 1)) t' (entries_post (S fuel) h)) as HK.
  { intros out t' Ho P. eapply always_mono; [|apply IH, Hb']. intros o u.
    pose proof (did_trans _ _ _ _ _ _ _ _ _ D (prints_did _ _ _ _ P)) as D3. cbn [Z.eqb Pos.eqb app] in D3. rewrite app_nil_r in D3.
    eapply (entries_post_cons fuel de (r, st) out); [exact D3|exact (told_trans _ _ _ _ _ _ _ T (told_prints _ _ _ _ P))|done|]. unfold de_used. by rewrite Eu. }
  unfold entry_line in HK. cbn [fst snd] in HK. destruct (r <? 0).
  - eapply always_step; [by apply fprintf_prints|]. intros o t' (-> & P). cbn [andthen]. by eapply HK; [|exact P].
  - destruct (print_entry_some (entry_path path de) st) as (out & E & HF). eapply always_step; [unfold print_entry; by apply fprintf_prints|].
    intros o t' (-> & P). cbn [andthen]. by eapply HK; [|exact P].
Qed.
End ls.

(** What ls does for [path], by the answer [a] to the stat of it, and those
    ([ras], [sts]) to the reads and stats that follow. *)
Definition ls_result (path : list Z) (a : answer) (ras sts : list answer) (out : list Z) (ops : list (list Z)) : Prop :=
  let nothing_else := ras = [] /\ sts = [] /\ ops = [] in
  if a.1 <? 0 then nothing_else /\ out = []
  else if (st_type a.2 =? T_DEVICE) || (st_type a.2 =? T_FILE) then nothing_else /\ file_line path a.2 out
  else if st_type a.2 =? T_DIR then
    if LSBUF <? Z.of_nat (length path) + 1 + DIRSIZ + 1 then nothing_else /\ out = line "ls: path too long"
    else exists ents n tl, ras = map (pair 16) ents ++ [(n, tl)] /\ n <> 16 /\ listing path ents sts out ops
  else nothing_else /\ out = [].

(** What ls leaves for one path: all descriptors closed again, and the output
    the answers ask for. *)
Definition ls_post (fuel : nat) (path : list Z) (h : list event) (o : outcome unit) (t : list event) : Prop :=
  match o with
  | Returned _ => exists rd out ops a ras sts, did rd out (path :: ops) h t /\ told ras (a :: sts) h t /\ ls_result path a ras sts out ops
  | Unfinished => exists rd, reads t = reads h ++ rd /\ (16 * fuel <= length rd)%nat
  | _ => False
  end.

Lemma concat_16 (ents : list (list Z)) : Forall (fun de => length de = 16%nat) ents -> length (concat ents) = (16 * length ents)%nat.
Proof. induction 1 as [|de ents Hd _ IH]; [done|]. cbn [concat length]. rewrite length_app. lia. Qed.

(** The path, a slash, and room for a name in the buffer. *)
Lemma ls_start path buf0 {B} (f : list Z -> prog B) : length buf0 = Z.to_nat LSBUF -> Z.of_nat (length path) + 16 <= LSBUF ->
  (buf ← buf_put buf0 0 (path ++ [0]); buf ← buf_put buf (Z.of_nat (length path)) [47]; f buf) = f (path ++ 47 :: drop (S (length path)) buf0).
Proof.
  change LSBUF with 512. change (Z.to_nat 512) with 512%nat. intros Hb Hl.
  assert (set_bytes (set_bytes buf0 0 (path ++ [0])) (Z.of_nat (length path)) [47] = path ++ 47 :: drop (S (length path)) buf0) as Eb.
  { replace (set_bytes buf0 0 (path ++ [0])) with (path ++ 0 :: drop (S (length path)) buf0).
    - unfold set_bytes. rewrite Nat2Z.id, take_app_length, drop_app_add' by done. done.
    - unfold set_bytes. cbn [Z.to_nat take app Nat.add]. rewrite length_app, Nat.add_1_r, <- app_assoc. done. }
  unfold buf_put at 1 2. rewrite length_app. cbn [length]. change LSBUF with 512. destruct (Z.leb_spec 0 0); [|lia]. destruct (Z.leb_spec (0 + Z.of_nat (length path + 1)) 512); [|lia]. cbn [andb mbind prog_bind mret prog_ret].
  destruct (Z.leb_spec 0 (Z.of_nat (length path))); [|lia]. destruct (Z.leb_spec (Z.of_nat (length path) + Z.of_nat 1) 512); [|lia]. cbn [andb mbind prog_bind mret prog_ret]. by rewrite Eb.
Qed.

Lemma ls_ok fuel buf0 path h : length buf0 = Z.to_nat LSBUF -> Forall (fun x => x <> 0) path -> always (ls fuel buf0 path) h (ls_post fuel path h).
Proof.
  intros Hb Hp. unfold ls. cbn [sys_ sys mbind prog_bind mret prog_ret always]. intros [fd d] _. cbn [fst snd].
  pose proof (told_event (Copen path O_RDONLY, (fd, d)) h) as T0. revert T0. unfold answers at 1, stats at 1. cbn [collect map concat fst snd app]. destruct (Z.ltb_spec fd 0) as [Hfd|Hfd]; intros T0.
  { eapply always_mono; [|by apply fprintf_prints]. intros o t (-> & P). pose proof (did_trans _ _ _ _ _ _ _ _ _ (did_failed path O_RDONLY fd d h Hfd) (prints_did _ _ _ _ P)) as D.
    exists [], [], [], (-1, []), [], []. split_and!; [exact D|exact (told_trans _ _ _ _ _ _ _ T0 (told_prints _ _ _ _ P))|done]. }
  set (h1 := h ++ _) in *. intros [r st] _. cbn [fst snd]. pose proof (did_event (Cfstat fd) (r, st) h1 ltac:(done) ltac:(done)) as D1. change (did [] [] [] h1 (h1 ++ [(Cfstat fd, (r, st))])) in D1.
  pose proof (told_trans _ _ _ _ _ _ _ T0 (told_event (Cfstat fd, (r, st)) h1)) as T1. set (h2 := h1 ++ _) in *.
  (** what remains is to close the file *)
  assert (forall t rd out ops ras sts b, did rd out ops h2 t -> told ras sts h2 t -> ls_result path (r, st) ras sts out ops -> ls_post fuel path h (Returned tt) (t ++ [(Cclose fd, b)])) as HC.
  { intros t rd out ops ras sts b D T HR. exists rd, out, ops, (r, st), ras, sts. split_and!; [| |done].
    2: { pose proof (told_trans _ _ _ _ _ _ _ (told_trans _ _ _ _ _ _ _ T1 T) (told_event (Cclose fd, b) t)) as T2. cbn [answers stats collect map concat fst snd app] in T2. by rewrite !app_nil_r in T2. }
    eapply did_file; [done|]. exact (did_trans _ _ _ _ _ _ _ _ _ D1 D). }
  assert (forall k out t b, prints k out h2 t -> ls_result path (r, st) [] [] (if k =? 1 then out else []) [] -> ls_post fuel path h (Returned tt) (t ++ [(Cclose fd, b)])) as HP.
  { intros k out t b P. eapply HC; [exact (prints_did _ _ _ _ P)|exact (told_prints _ _ _ _ P)]. }
  unfold ls_result in HC, HP. cbn [fst snd] in HC, HP. destruct (r <? 0).
  { eapply always_step; [by apply fprintf_prints|]. intros o t (-> & P). cbn. intros b _. by eapply HP. }
  destruct ((st_type st =? T_DEVICE) || (st_type st =? T_FILE)).
  { destruct (print_entry_some path st) as (out & E & HF). eapply always_step; [unfold print_entry; by apply fprintf_prints|]. intros o t (-> & P). cbn. intros b _. by eapply HP; [exact P|]. }
  destruct (st_type st =? T_DIR); [|cbn; intros b _; by eapply HC; [apply did_nothing|apply told_nothing|]].
  destruct (Z.ltb_spec LSBUF (Z.of_nat (length path) + 1 + DIRSIZ + 1)) as [|Hl].
  { eapply always_step; [by apply fprintf_prints|]. intros o t (-> & P). cbn. intros b _. by eapply HP; [exact P|]. }
  change DIRSIZ with 14 in Hl. rewrite ls_start by (done || lia).
  eapply always_step; [apply (ls_entries_ok path fd Hp ltac:(lia))|].
  { rewrite length_app. cbn [length]. rewrite length_drop, Hb. change LSBUF with 512 in *. change (Z.to_nat 512) with 512%nat. lia. }
  intros o t (ents & tl & ras & sts & out & ops & D & T & F & Hls & Ho). destruct o; try done; cbn.
  - destruct Ho as (n & Hn & ->). intros b _. eapply HC; [exact D|exact T|]. by exists ents, n, tl.
  - exists (concat ents ++ tl). split; [|rewrite length_app, concat_16 by done; lia].
    rewrite (dd_reads _ _ _ _ _ D). unfold h2, h1, reads. rewrite !collect_app. cbn [collect map concat fst snd app]. by rewrite !app_nil_r.
Qed.

(** ** init *)

(** The shell that init waits for, along a history; [None] once init has
    started a shell while another one was running. *)
Definition shell_step (s : option (option Z)) (e : event) : option (option Z) :=
  match s with
  | None => None
  | Some st =>
      match e.1 with
      | Cfork => match st with None => Some (if 0 <? e.2.1 then Some e.2.1 else None) | Some _ => None end
      | Cwait => Some (if decide (st = Some e.2.1) then None else st)
      | _ => Some st
      end
  end.
Definition shell_of (t : list event) : option (option Z) := fold_left shell_step t (Some None).
Lemma shell_of_snoc t e : shell_of (t ++ [e]) = shell_step (shell_of t) e.
Proof. unfold shell_of. by rewrite fold_left_app. Qed.
Lemma shell_of_prints fd out h t : prints fd out h t -> shell_of t = shell_of h.
Proof.
  intros [(e & -> & Fe) _ _ _ _ _]. unfold shell_of. rewrite fold_left_app. generalize (fold_left shell_step h (Some None)). intros x.
  induction Fe as [|[c a] e [b Hb] _ IH]; [done|]. cbn [fst] in Hb. subst c. cbn [fold_left].
  assert (shell_step x (Cwrite fd b, a) = x) as -> by (by destruct x). exact IH.
Qed.
Definition init_failed (t : list event) : Prop :=
  exists c a, (c, a) ∈ t /\ match c with Cfork | Cwait => a.1 < 0 | Cexec p _ => p = txt "sh" | _ => False end.
Lemma init_failed_in h c a : match c with Cfork | Cwait => a.1 < 0 | Cexec p _ => p = txt "sh" | _ => False end -> forall fd out t, prints fd out (h ++ [(c, a)]) t -> init_failed t.
Proof. intros H fd out t [(e & -> & _) _ _ _ _ _]. exists c, a. split; [set_solver|done]. Qed.

Definition init_post (o : outcome unit) (t : list event) : Prop :=
  match o with Exited code => code = 1 /\ init_failed t | Unfinished => True | _ => False end.

Lemma init_wait_ok pid : 0 < pid -> forall fuel h, shell_of h = Some (Some pid) ->
  always (init_wait fuel pid) h (fun o t => shell_of t <> None /\ match o with Returned _ => shell_of t = Some None | _ => init_post o t end).
Proof.
  intros Hpid. induction fuel as [|fuel IH]; intros h Hh; cbn [init_wait]; [by cbn; rewrite Hh|].
  cbn [sys_ sys mbind prog_bind mret prog_ret always]. intros [w d] _. cbn [fst]. pose proof (shell_of_snoc h (Cwait, (w, d))) as E. rewrite Hh in E. cbn [shell_step fst snd] in E.
  destruct (Z.eqb_spec w pid) as [->|Hw].
  { rewrite decide_True in E by done. cbn [mret prog_ret always]. by rewrite E. }
  rewrite decide_False in E by congruence. destruct (Z.ltb_spec w 0) as [Hn|Hn].
  - eapply always_step; [by apply fprintf_prints|]. intros o t (-> & P). cbn [andthen always]. rewrite (shell_of_prints _ _ _ _ P), E. split; [done|]. split; [done|]. eapply init_failed_in; [|exact P]; done.
  - by apply IH.
Qed.

Lemma init_loop_ok : forall fuel h, shell_of h = Some None -> always (init_loop fuel) h (fun o t => shell_of t <> None /\ init_post o t).
Proof.
  induction fuel as [|fuel IH]; intros h Hh; cbn [init_loop]; [by cbn; rewrite Hh|].
  eapply always_step; [by apply fprintf_prints|]. intros o h1 (-> & P1). cbn [andthen]. apply shell_of_prints in P1. rewrite Hh in P1.
  cbn [sys_ sys mbind prog_bind mret prog_ret always]. intros [pid d] _. cbn [fst]. pose proof (shell_of_snoc h1 (Cfork, (pid, d))) as E. rewrite P1 in E. cbn [shell_step fst snd] in E.
  destruct (Z.ltb_spec pid 0) as [Hn|Hn]; [|destruct (Z.eqb_spec pid 0) as [->|Hp]].
  - eapply always_step; [by apply fprintf_prints|]. intros o t (-> & P). cbn [andthen always]. rewrite (shell_of_prints _ _ _ _ P), E. split; [done|]. split; [done|]. eapply init_failed_in; [|exact P]; done.
  - cbn [sys_ sys mbind prog_bind mret prog_ret always]. intros a _. eapply always_step; [by apply fprintf_prints|]. intros o t (-> & P). cbn [andthen].
    cbn [always]. rewrite (shell_of_prints _ _ _ _ P), shell_of_snoc, E. split; [done|]. split; [done|]. eapply init_failed_in; [|exact P]; done.
  - destruct (Z.ltb_spec 0 pid); [|lia]. eapply always_step; [apply init_wait_ok; [lia|done]|]. intros o t (H1 & H2). destruct o; cbn [andthen]; try done. by apply IH.
Qed.

(** ** echo, mkdir and rm *)

Fixpoint echo_text (args : list (list Z)) : list Z :=
  match args with [] => [] | [a] => a ++ [10] | a :: args => a ++ [32] ++ echo_text args end.
Lemma echo_args_ok : forall args h, always (echo_args args) h (fun o t => o = Returned tt /\ did [] (echo_text args) [] h t).
Proof.
  induction args as [|a args IH]; intros h; cbn [echo_args]; [split; [done|apply did_nothing]|].
  cbn [sys_ sys mbind prog_bind mret prog_ret always]. intros a1 _ a2 _. set (sep := match args with [] => [10] | _ => [32] end).
  eapply always_mono; [|apply IH]. intros o t (-> & D). split; [done|].
  pose proof (did_trans _ _ _ _ _ _ _ _ _ (did_trans _ _ _ _ _ _ _ _ _ (did_write a a1 h) (did_write sep a2 _)) D) as D'. cbn [app] in D'.
  rewrite <- app_assoc in D'. unfold sep in D'. by destruct args.
Qed.

(** The calls of mkdir and rm: one for each argument, up to the first that
    the kernel refuses. *)
Definition requests : list event -> list (call * bool) :=
  collect (fun e => match e.1 with Cmkdir _ | Cunlink _ => [(e.1, 0 <=? e.2.1)] | _ => [] end).
Definition served (c : list Z -> call) (args : list (list Z)) (rs : list (call * bool)) : Prop :=
  rs = map (fun a => (c a, true)) args \/
  exists before a after, args = before ++ a :: after /\ rs = map (fun a => (c a, true)) before ++ [(c a, false)].

Lemma requests_prints fd out h t : prints fd out h t -> requests t = requests h.
Proof.
  intros [(e & -> & Fe) _ _ _ _ _]. unfold requests. rewrite collect_app. rewrite <- (app_nil_r (collect _ h)) at 2. f_equal.
  induction Fe as [|[c a] e [b Hb] _ IH]; [done|]. cbn [fst] in Hb. by subst c.
Qed.

Lemma each_file_ok c failed : c = Cmkdir \/ c = Cunlink -> (forall a, exists out, vprintf failed [VStr (Some a)] = Some out) ->
  forall args h, always (each_file c failed args) h (fun o t => o = Returned tt /\ exists rs, requests t = requests h ++ rs /\ served c args rs).
Proof.
  intros Hc Hf. induction args as [|a args IH]; intros h; cbn [each_file].
  { split; [done|]. exists []. rewrite app_nil_r. split; [done|by left]. }
  cbn [sys_ sys mbind prog_bind mret prog_ret always]. intros [r d] _. cbn [fst].
  assert (requests (h ++ [(c a, (r, d))]) = requests h ++ [(c a, 0 <=? r)]) as E by (unfold requests; rewrite collect_app; destruct Hc as [-> | ->]; done).
  destruct (Z.ltb_spec r 0) as [Hr|Hr].
  - destruct (Hf a) as [out Eo]. eapply always_mono; [|by apply fprintf_prints]. intros o t (-> & P). split; [done|].
    rewrite (requests_prints _ _ _ _ P), E. destruct (Z.leb_spec 0 r); [lia|]. eexists. split; [done|]. right. by exists [], a, args.
  - eapply always_mono; [|apply IH]. intros o t (-> & rs & Er & H). split; [done|]. rewrite Er, E, <- app_assoc. eexists. split; [done|].
    destruct (Z.leb_spec 0 r); [|lia]. destruct H as [->|(b & x & e & -> & ->)]; [by left|right]. by exists (a :: b), x, e.
Qed.

(** ** grep: the calls it makes are those of the function in Grep *)

Lemma find_line_shorter p l r : find_line p = Some (l, r) -> (length r < length p)%nat.
Proof.
  revert l r. induction p as [|x p IH]; intros l r; cbn; [done|]. destruct (x =? 0); [done|]. destruct (x =? newline); [intros [= <- <-]; lia|].
  destruct (find_line p) as [[l' r']|] eqn:E; [|done]. intros [= <- <-]. specialize (IH _ _ eq_refl). lia.
Qed.

Lemma ugrep_lines_ok pattern : forall fuel p h, (length p < fuel)%nat -> always (ugrep_lines fuel pattern p) h (fun o t => exists p' out,
  o = Returned p' /\ did [] out [] h t /\ drained [] h t /\ forall acc, grep_lines fuel pattern p acc = Some (p', acc ++ out)).
Proof.
  induction fuel as [|fuel IH]; intros p h Hf; [lia|]. cbn [ugrep_lines grep_lines]. destruct (find_line p) as [[l r]|] eqn:E.
  - pose proof (find_line_shorter _ _ _ E). destruct (match_ pattern l); cbn [sys_ sys mbind prog_bind mret prog_ret always].
    + intros a _. eapply always_mono; [|apply IH; lia]. intros o t (p' & out & -> & D & DR & H'). exists p', ((l ++ [newline]) ++ out).
      split_and!; [done|exact (did_trans _ _ _ _ _ _ _ _ _ (did_write _ a h) D)|revert DR; unfold drained, got, ends; by rewrite !collect_app, !app_nil_r|].
      intros acc. by rewrite H', <- !app_assoc.
    + eapply always_mono; [|apply IH; lia]. intros o t (p' & out & -> & D & DR & H'). by exists p', out.
  - exists p, []. split_and!; [done|apply did_nothing|apply drained_nil|]. intros acc. by rewrite app_nil_r.
Qed.

Lemma ugrep_ok pattern fd : forall fuel buf h, always (ugrep fuel pattern fd buf) h (fun o t => exists chunks out,
  did (concat chunks) out [] h t /\ Forall (fun c => c <> []) chunks /\
  match o with
  | Returned _ => drains fd h t /\ forall acc, grep (S (length chunks)) pattern chunks buf acc = Some (acc ++ out)
  | Unfinished => length chunks = fuel
  | _ => False
  end).
Proof.
  induction fuel as [|fuel IH]; intros buf h; cbn [ugrep].
  { exists [], []. split_and!; [apply did_nothing|by apply Forall_nil|done]. }
  cbn [sys_ sys mbind prog_bind mret prog_ret always]. set (n0 := (BUFSIZE - length buf - 1)%nat). intros [n d] Hs. cbn [sane fst snd] in *. pose proof (did_read fd (Z.of_nat n0) n d h) as D1. set (h1 := h ++ _) in *.
  destruct (Z.ltb_spec 0 n) as [Hn|Hn].
  - assert (d <> [] /\ (length d <= n0)%nat) as [Hd Hl] by (destruct Hs as [[? _]|[? ?]]; [lia|]; split; [intros ->; cbn in *; lia|lia]).
    eapply always_step; [apply ugrep_lines_ok; lia|]. intros o t (buf' & out1 & -> & D2 & [G2 E2] & HG). cbn [andthen].
    eapply always_mono; [|apply IH]. intros o u (chunks & out & D3 & F & H). exists (d :: chunks), (out1 ++ out).
    pose proof (did_trans _ _ _ _ _ _ _ _ _ (did_trans _ _ _ _ _ _ _ _ _ D1 D2) D3) as D. rewrite app_nil_r in D.
    split_and!; [exact D|by constructor|]. destruct o; try done; [|cbn; lia]. destruct H as [[G3 E3] H]. split.
    { rewrite G2, app_nil_r in G3. rewrite E2, app_nil_r in E3. eapply (drains_event fd (Cread fd (Z.of_nat n0)) (n, d)); [done| |by split]. unfold ends. cbn [collect map concat fst snd]. destruct (Z.leb_spec n 0); [lia|done]. }
    intros acc. cbn [length]. revert H. generalize (S (length chunks)). intros k H. cbn [grep]. unfold read_chunk. fold n0. rewrite decide_True by done.
    destruct d as [|x d]; [done|]. rewrite HG, H. by rewrite <- app_assoc.
  - assert (d = []) as -> by (destruct Hs as [[_ ?]|[? ?]]; [done|apply nil_length_inv; lia]). exists [], []. split_and!; [exact D1|by apply Forall_nil|by apply drains_end|].
    intros acc. cbn. by rewrite app_nil_r.
Qed.

Lemma grep_more pattern n : forall m chunks buf acc r, (n <= m)%nat -> grep n pattern chunks buf acc = Some r -> grep m pattern chunks buf acc = Some r.
Proof.
  induction n as [|n IH]; intros [|m] chunks buf acc r Hm; cbn [grep]; [done|done|lia|]. destruct (read_chunk _ _) as [[|x d] chunks']; [done|].
  destruct (grep_lines _ _ _ _) as [[p acc']|]; [|done]. apply IH. lia.
Qed.
Lemma concat_mjoin (cs : list (list Z)) : concat cs = mjoin cs.
Proof. induction cs as [|c cs IH]; [done|]. cbn. by rewrite IH. Qed.

(** The output of grep for the content [c] of a file: the lines with a match. *)
Definition grep_text (pattern c out : list Z) : Prop :=
  no_nul c -> short (split_lines c) -> out = printed pattern (split_lines c).1.

(** grep of one open file *)
Lemma ugrep_text pattern fd fuel h : always (ugrep fuel pattern fd []) h (fun o t => exists c out, did c out [] h t /\
  match o with
  | Returned _ => drains fd h t /\ grep_text pattern c out
  | Unfinished => (fuel <= length c)%nat
  | _ => False
  end).
Proof.
  eapply always_mono; [|apply ugrep_ok]. intros o t (chunks & out & D & F & H). exists (concat chunks), out. split; [exact D|].
  assert (length chunks <= length (concat chunks))%nat as Hl.
  { clear -F. induction F as [|c chunks Hc _ IH]; [done|]. cbn [concat length]. rewrite length_app. destruct c; [done|]. cbn [length]. lia. }
  destruct o; try done; [|lia]. destruct H as [HD H]. split; [exact HD|]. intros Hz Hs. rewrite concat_mjoin in *.
  pose proof (grep_loop (S (length (mjoin chunks))) pattern chunks [] [] F Hz eq_refl Hs ltac:(lia)) as E.
  specialize (H []). apply (grep_more pattern _ (S (length (mjoin chunks)))) in H; [|lia]. rewrite E in H. by injection H as <-.
Qed.

Lemma grep_files_ok fuel pattern : forall args h, always (grep_files fuel pattern args) h (fun o t => exists c,
  reads t = reads h ++ c /\
  match o with
  | Returned _ => exists cs outs, c = concat cs /\ did c (concat outs) args h t /\ (exists fds, drained fds h t) /\ Forall2 (grep_text pattern) cs outs
  | Exited code => code = 1 /\ failure t
  | Unfinished => (fuel <= length c)%nat
  | Wrong => False
  end).
Proof.
  induction args as [|a args IH]; intros h; cbn [grep_files].
  { exists []. rewrite !app_nil_r. split; [done|]. exists [], []. split_and!; [done|apply did_nothing|exists []; apply drained_nil|constructor]. }
  cbn [sys_ sys mbind prog_bind mret prog_ret always]. intros [fd d] _. cbn [fst snd]. destruct (Z.ltb_spec fd 0) as [Hfd|Hfd].
  - eapply always_step; [by apply fprintf_prints|]. intros o t (-> & P). cbn. exists [].
    pose proof (did_trans _ _ _ _ _ _ _ _ _ (did_failed a O_RDONLY fd d h Hfd) (prints_did _ _ _ _ P)) as D. split_and!; [apply D|done|].
    eapply failure_did; [|apply (prints_did _ _ _ _ P)]. by apply failure_in.
  - eapply always_step; [apply ugrep_text|]. intros o t (c & w & D & H). destruct (did_opened _ _ _ _ _ _ _ _ D) as [Er Ew].
    destruct o; cbn [andthen]; [|by exists c..]. intros a1 _. pose proof (did_file a O_RDONLY fd c w [] a1 h t Hfd d D) as D'.
    eapply always_mono; [|apply IH]. intros o t' (c' & R & H'). exists (c ++ c').
    rewrite R, (dd_reads _ _ _ _ _ D'), <- !app_assoc, length_app. split; [done|].
    destruct o; try done; [|lia]. destruct H' as (cs & outs & -> & D2 & (fds & DR) & H2), H as [HD H]. exists (c :: cs), (w :: outs).
    split_and!; [done|exact (did_trans _ _ _ _ _ _ _ _ _ D' D2)|exists ([fd] ++ fds); eapply drained_trans; [by eapply drains_file|exact DR]|by constructor].
Qed.

(** ** The theorem *)

Ltac hist0 := unfold reads, writes, opens, got, closed, ends in *; cbn [collect map concat app] in *.


(** A kernel that delivers "a b\n" in two reads and accepts everything. *)
Definition reads_before (h : list event) : nat := length (List.filter (fun e => match e.1 with Cread _ _ => true | _ => false end) h).
Definition demo_env (h : list event) (c : call) : answer :=
  match c with
  | Cread _ _ => match reads_before h with 0%nat => (1, [97]) | 1%nat => (3, [32; 98; 10]) | _ => (0, []) end
  | Cwrite _ b => (Z.of_nat (length b), [])
  | Copen _ _ => (3, [])
  | Cfstat _ => (-1, [])
  | _ => (0, [])
  end.

(** wc counts one line, two words and four bytes; cat copies them. *)
Example wc_demo : let r := run demo_env (wc_main 5 [txt "f"]) [] in r.1 = Exited 0 /\ writes 1 r.2 = line "1 2 4 f".
Proof. by vm_compute. Qed.
Example cat_demo : let r := run demo_env (cat_main 5 [txt "f"]) [] in r.1 = Exited 0 /\ writes 1 r.2 = line "a b".
Proof. by vm_compute. Qed.

(** A kernel whose directory "d" holds the entry "x" (inode 7), a free one and
    the entry "y" (inode 9); x is a file of 5 bytes, y cannot be opened. *)
Definition dirent (inum name : Z) : list Z := [inum; 0; name] ++ replicate 13 0.
Definition stat_bytes (ty ino size : Z) : list Z := [1; 0; 0; 0; ino; 0; 0; 0; ty; 0; 1; 0; 0; 0; 0; 0; size; 0; 0; 0; 0; 0; 0; 0].
Definition dir_env (h : list event) (c : call) : answer :=
  match c with
  | Cread _ n => if n =? 16 then match reads_before h with 0%nat => (16, dirent 7 120) | 1%nat => (16, dirent 0 0) | 2%nat => (16, dirent 9 121) | _ => (0, []) end else (-1, [])
  | Cwrite _ b => (Z.of_nat (length b), [])
  | Copen p _ => if decide (p = txt "d") then (3, []) else if decide (p = txt "d/x") then (4, []) else (-1, [])
  | Cfstat fd => (0, if fd =? 3 then stat_bytes 1 2 48 else stat_bytes 2 7 5)
  | _ => (0, [])
  end.
Lemma dir_env_sane h c : sane c (dir_env h c).
Proof.
  destruct c; cbn; try done.
  - destruct (Z.eqb_spec n 16) as [->|]; [|by left]. destruct (reads_before h) as [|[|[|?]]]; right; cbn; lia.
  - right. lia.
  - right. split; [done|]. by destruct (_ =? 3).
Qed.

